(* ===== verification/_CoqProject ===== *)
-Q . S2P
Prelude.v
Sha1.v
Binlog.v
Packet.v
Io.v
Merlin.v
Pgroup.v
Node.v
Delivery.v
Control.v
Net.v
Codec.v
Checks.v
Hooks.v
Commands.v
Objects.v
Cfgfile.v
Config.v
Misc.v
Oconfsplit.v
Queries.v
Slist.v
Shared.v
Dlist.v
Sql.v
Daemon.v
Lparse.v
Logutils.v
Import.v
Auth.v
Showlog.v
Showmain.v
Rename.v
Merlind.v
Schema.v
Dbwrap.v
Importmain.v
Memrchr.v
Logging.v
Lifecycle.v
Restart.v
Tools.v
Nodeinfo.v
Environment.v
Startup.v
Asprintf.v
