(* ===== verification/Prelude.v ===== *)
(** * Merlin: a verification development

    Merlin lets several Naemon servers share the work of monitoring.  A module loaded into
    Naemon (src/module/) connects its server to other nodes, masters, peers and pollers,
    decides which node runs which check, sends what happens to the others and applies what
    they send; a daemon (src/daemon/) writes it all to a database; both use src/shared/.

    ** Files and sources

    Each file models the sources named with it.  Names are those of the sources; a record
    field may have a prefix where C has it in a structure.  A comment with a path and lines
    stands before each definition that translates code.

    - [Prelude]: machine integers with their wrap-around, text, record updates, the state
      monad, the invariant calculus [preserves], what qsort(3) promises (class [QSort]).
    - [Sha1] (module/sha1.c): the hash of configurations, against FIPS 180-4.
    - [Binlog] (shared/binlog.c): the backlog in memory and file, on a model of files with
      failures to come.
    - [Packet] (shared/node.h, shared/encryption.c): the 128-byte header, events as bytes,
      encryption on a class for libsodium.
    - [Io] (shared/io.c): polling and complete sends, on what the kernel is going to answer.
    - [Merlin]: nodes, peer groups and the state of the process.  Nodes are shared, so they
      live in a store and are named by their address; [IPC] is the address of [ipc].
    - [Pgroup] (shared/pgroup.c): numbering of peers, which node a check belongs to.
    - [Node], [Delivery] (shared/node.c and the handlers of module/module.c): the state
      machine of a connection, sending, queueing, receiving.
    - [Control] (module/script-helpers.c, shared/ipc.c, module/module.c): synchronising
      configurations, the link to the daemon, control packets, forwarding, periodic jobs.
    - [Net] (module/net.c): connecting, accepting, choosing one of two connections.
    - [Codec] (shared/codec.c): structures with strings as the body of a packet.
    - [Checks] (module/module.c): who ran a check last, and checks that never came.
    - [Hooks], [Commands] (module/hooks.c): what the module does when Naemon is about to
      run a check, notify, run a handler or a command, and which nodes are told.
    - [Objects] (module/module.c, module/module.h): events of other nodes applied to Naemon's
      hosts, services, comments and downtimes.
    - [Cfgfile] (shared/cfgfile.c) and [Config] (shared/configuration.c, shared/node.c,
      shared/ipc.c, shared/shared.c, module/module.c): from the text of a configuration
      file to the node table.
    - [Misc] (module/misc.c): the files of the object configuration and their hash.
    - [Oconfsplit] (module/oconfsplit.c): the object configurations written for pollers.
    - [Queries] (module/queries.c, module/runcmd.c, module/testif_qh.c): questions over the
      query socket, and commands run for other nodes.
    - [Slist] (tools/slist.c): the sorted lists of the tools.
    - [Shared] (shared/shared.c) and [Dlist] (shared/dlist.c): helpers on text and numbers, and
      doubly linked lists in a heap.
    - [Sql] (daemon/sql.c): the daemon's database connection, statements and commits.
    - [Daemon] (daemon/db_updater.c, daemon/state.c, daemon/string_utils.c): the rows that the
      daemon writes for an event.
    - [Lparse] (tools/lparse.c), [Logutils] (tools/logutils.c) and [Import] (tools/import.c): log
      files line by line, forwards and backwards, what the lines say, and the rows that an
      import of log files writes; [Importmain] is its command line.
    - [Auth] (tools/auth.c), [Showlog] and [Showmain] (tools/showlog.c): which lines of log files are
      shown to whom, in which format, and the command line.
    - [Merlind] (daemon/daemon.c, daemon/daemonize.c, shared/ipc.c): the daemon, from its socket
      to the database, its process and its configuration.
    - [Schema] (sql/): the tables, and that every row fits the one that it is written to.
    - [Rename] (tools/rename.c): renaming objects in the database and in log files.
    - [Dbwrap] (daemon/db_wrap.c, daemon/db_wrap_dbi.c): the wrapper of libdbi, with its objects and
      handles.
    - [Memrchr] (compat/memrchr.c): searching for a byte from the end, eight bytes at a time.
    - [Logging] (shared/logging.c): levels, and what is done with the streams of the log.
    - [Lifecycle] (module/module.c, module/hooks.c, shared/ipc.c): loading and unloading the module
      with all of the above, its callbacks and its jobs; [Restart] follows the backlogs of all
      nodes through it.
    - [Tools] (tools/oconf.c, tools/keygen.c, shared/encryption.c): printing the files of the
      configuration and their hash; making the key files and reading one.
    - [Nodeinfo] (shared/ipc.c, daemon/daemon.c, shared/node.c, module/script-helpers.c): the lines
      with all fields of a node and reading them, the daemon's file of them, addresses of names,
      and what is logged of a synchronisation.
    - [Environment] (shared/ipc.c, shared/encryption.c, shared/node.c, module/oconfsplit.c): the class
      that [Config] reads the configuration with, made of the functions of the program.
    - [Startup] (daemon/daemon.c, tools/rename.c, tools/showlog.c): the order in which the daemon
      starts, a whole run of rename with its user and its database, and cleaning up.
    - [Asprintf] (compat/asprintf.c): the printf family for systems without it, with its parser of
      formats and its floating point.
    Handlers are functions in the state monad [M] over [merlin]; code that may fail returns
    its error code as the source does, or a sum type where the source exits or crashes.
    What is not under src/ is an argument or a class with the laws the code relies on
    ([QSort], [Sodium], [Kernel], [NebCallbacks], [CStructs], [Naemon],
    [NaemonActs], [ConfigEnv], [Nspath], [Fcache], [Kvvec], [Strtod], [NebTypes],
    [LogCodes], [Tz], [Dbi], [Neb], [NebTable], [ModuleEnv]), each with an instance for the examples.

    ** What is shown

    - Data: the hash is SHA-1 however the input is cut; the backlog is a queue that loses
      and reorders nothing within its capacity; what is in the backlogs of all nodes when the
      module is unloaded is in them when it has been loaded again; packets, encrypted
      packets, encoded structures and configuration files are read back as they were written;
      a stream of packets is taken apart however it arrives.
    - Agreement: peers number each other alike, of two connections both ends keep the
      same one, two ends of a link see opposite configuration differences.
    - One owner: in a connected group every host has one peer that runs its checks, handlers
      and notifications and takes its check results; a host of a poller is notified about once.
    - Routing: events go from tier to tier and never back, exactly to the nodes their header
      selects; what came from the network is not sent on; the node table that this rests on
      is the one the configuration file describes.
    - Configurations: the hash by which nodes compare configurations depends on the files
      alone; what is written for a poller is complete and minimal, and its hash is the one
      that is expected of the poller.
    - Database: a statement with result 0 was run, no statement is given to the database more than
      twice, what an event leaves is the rows that stand for it, and a lost connection costs less than the configured number of statements.
      Whatever the module sends, however it is cut, is recorded by the daemon in order; every row
      that is written fits its table, but for performance data of no host.
      The wrapper of the database frees every handle once.
    - Log files: lines are read alike in both directions, and what is imported from them is in the
      order of time, with starts and stops that alternate; what is shown of them is what one may
      see, and pages of it, but in HTML or with durations, are pages of the whole.
    - Commands for other nodes run under conditions, and the answer comes back to who asked.
    - Life of the module: callbacks are registered once and taken away, its periodic jobs are
      always waiting (but for one that ends), the log writes only to open files, and modules of
      one build with one configuration accept each other.
    - Accounting: the counters of active nodes, of checks per node and of expired checks are
      exact after every operation.
    - Termination: loops that are not structural have fuel, and where it matters it is shown to
      be enough: the backlog loops take one entry a turn and get their number of entries, the
      configuration parser takes at least one character a turn and gets their number.

    Each file ends with a small installation on which the theorems are used, and with
    theorems that exhibit inputs on which the code does not do what it means to.

    ** Not modelled

    The texts that are logged, memory exhaustion (malloc is taken to succeed), and signals
    other than SIGUSR1 in the daemon.  The clock does
    not move within a handler.  Bytes are laid out as on little-endian 64-bit machines.
    tools/test_utils.c and the test programs are not modelled. *)

From stdpp Require Export prelude numbers list strings gmap sorting.
From Stdlib Require Export ZArith Lia Permutation Ascii.
From Stdlib Require String.
From coqutil Require Export Byte Word.LittleEndianList.

#[global] Open Scope Z_scope.

(** ** Machine integers

    C integers are [Z]; an operation of the source that can leave its type's
    range is followed by the conversion of that type.  [u32]/[u64] are the
    reductions of C99 6.2.5p9, [s32]/[s64] the two's complement conversions of
    the compilers the project builds with. *)

Definition u8 (z : Z) : Z := z mod 2 ^ 8.
Definition u16 (z : Z) : Z := z mod 2 ^ 16.
Definition u32 (z : Z) : Z := z mod 2 ^ 32.
Definition u64 (z : Z) : Z := z mod 2 ^ 64.
Definition s32 (z : Z) : Z := (z + 2 ^ 31) mod 2 ^ 32 - 2 ^ 31.
Definition s64 (z : Z) : Z := (z + 2 ^ 63) mod 2 ^ 64 - 2 ^ 63.

Declare Scope cint_scope.
Delimit Scope cint_scope with cint.
Notation "x +u y" := (u32 (x + y)) (at level 50, left associativity) : cint_scope.
Notation "x -u y" := (u32 (x - y)) (at level 50, left associativity) : cint_scope.
#[global] Open Scope cint_scope.

Create HintDb cint.
Create Rewrite HintDb cint.

Lemma u16_range z : 0 <= u16 z < 2 ^ 16.
Proof. apply Z.mod_pos_bound; lia. Qed.

Lemma u32_range z : 0 <= u32 z < 2 ^ 32.
Proof. apply Z.mod_pos_bound; lia. Qed.

Lemma u64_range z : 0 <= u64 z < 2 ^ 64.
Proof. apply Z.mod_pos_bound; lia. Qed.

Lemma u16_small z : 0 <= z < 2 ^ 16 -> u16 z = z.
Proof. apply Z.mod_small. Qed.

Lemma u32_small z : 0 <= z < 2 ^ 32 -> u32 z = z.
Proof. apply Z.mod_small. Qed.

Lemma u64_small z : 0 <= z < 2 ^ 64 -> u64 z = z.
Proof. apply Z.mod_small. Qed.

Lemma u32_idemp z : u32 (u32 z) = u32 z.
Proof. apply Z.mod_mod; lia. Qed.

Lemma s32_small z : - 2 ^ 31 <= z < 2 ^ 31 -> s32 z = z.
Proof. intros ?. unfold s32. rewrite Z.mod_small by lia. lia. Qed.

Lemma s32_range z : - 2 ^ 31 <= s32 z < 2 ^ 31.
Proof.
  unfold s32. pose proof (Z.mod_pos_bound (z + 2 ^ 31) (2 ^ 32) ltac:(lia)). lia.
Qed.

Lemma u32_add_l x y : u32 (u32 x + y) = u32 (x + y).
Proof. unfold u32. rewrite Z.add_mod_idemp_l by lia. done. Qed.

Lemma u32_add_r x y : u32 (x + u32 y) = u32 (x + y).
Proof. unfold u32. rewrite Z.add_mod_idemp_r by lia. done. Qed.

#[export] Hint Resolve u16_range u32_range u64_range s32_range : cint.
#[export] Hint Rewrite u32_idemp u32_add_l u32_add_r : cint.

(** ** Bytes and C strings

    Binary data is a list of [byte]; text is a list of [ascii] without the
    terminating NUL, [str] turning a literal into one. *)

#[export] Instance byte_eq_decision : EqDecision byte := Byte.byte_eq_dec.

Definition str (s : string) : list ascii := String.list_ascii_of_string s.

Fixpoint text_eqb (a b : list ascii) : bool :=
  match a, b with
  | [], [] => true
  | x :: a, y :: b => Ascii.eqb x y && text_eqb a b
  | _, _ => false
  end.

Lemma text_eqb_eq a b : text_eqb a b = true <-> a = b.
Proof.
  revert b; induction a as [|x a IH]; intros [|y b]; simpl; try (split; congruence).
  rewrite andb_true_iff, IH, Ascii.eqb_eq. split; [intros [-> ->]; done | by intros [= -> ->]].
Qed.

Lemma text_eqb_refl a : text_eqb a a = true.
Proof. by apply text_eqb_eq. Qed.

(** [strncmp (a, b, strlen (b)) == 0], the [prefixcmp] macro's test. *)
Fixpoint has_prefix (p a : list ascii) : bool :=
  match p, a with
  | [], _ => true
  | x :: p, y :: a => Ascii.eqb x y && has_prefix p a
  | _ :: _, [] => false
  end.

Lemma has_prefix_spec p a : has_prefix p a = true <-> exists s, a = p ++ s.
Proof.
  revert a; induction p as [|x p IH]; intros a; simpl.
  - split; eauto.
  - destruct a as [|y a]; simpl.
    + split; [done | intros [s [=]]].
    + rewrite andb_true_iff, IH, Ascii.eqb_eq. split.
      * intros [-> [s ->]]. eauto.
      * intros [s [= -> ->]]. eauto.
Qed.

(** ** Flag words *)

(** [is_flag_set] of shared/shared.h and the [x & FLAG] tests of the source. *)
Definition has_flag (word flag : Z) : bool := negb (Z.land word flag =? 0).

(** ** Tactics *)

(** Case analysis on the innermost boolean or option the goal branches on. *)
Ltac split_if :=
  match goal with
  | |- context [if ?b then _ else _] => destruct b eqn:?
  | |- context [match ?o with Some _ => _ | None => _ end] => destruct o eqn:?
  end.

(** The same on a hypothesis. *)
Ltac split_if_in H :=
  match type of H with
  | context [if ?b then _ else _] => destruct b eqn:?
  | context [match ?o with Some _ => _ | None => _ end] => destruct o eqn:?
  end.

(** Boolean hypotheses to propositions, arithmetic closed by [lia]. *)
Ltac blia := repeat (rewrite ?andb_true_iff, ?andb_false_iff, ?orb_true_iff,
  ?orb_false_iff, ?negb_true_iff, ?negb_false_iff in * ); lia.

(** ** List lemmas *)

Lemma take_app_ge {A} (l k : list A) n :
  (length l <= n)%nat -> take n (l ++ k) = l ++ take (n - length l) k.
Proof. intros. rewrite take_app. by rewrite take_ge. Qed.

Lemma drop_drop_comm {A} (l : list A) n m : drop n (drop m l) = drop (m + n) l.
Proof. apply drop_drop. Qed.

Lemma list_split_at {A} (l : list A) n x :
  l !! n = Some x -> l = take n l ++ x :: drop (S n) l.
Proof. intros. symmetry. by apply take_drop_middle. Qed.

(** ** Updating a field of a record

    [r <| f := v |>] is the record [r] with field [f] replaced.  A record type
    declares its fields once, by an [Eta] instance that rebuilds a value from its
    projections; abstracting the projection [f] in that term gives the update. *)

Class Eta (R : Type) := eta_rec : R -> R.
Class Upd {R T : Type} (f : R -> T) := upd : (T -> T) -> R -> R.
#[global] Arguments upd {R T} f {_} g r / : simpl nomatch.

Ltac solve_upd :=
  lazymatch goal with
  | |- @Upd ?R ?T ?f =>
      let e := eval hnf in (@eta_rec R _) in
      let a := eval pattern f in e in
      lazymatch a with ?F _ => exact (fun (g : T -> T) (r : R) => F (fun r => g (f r)) r) end
  end.
#[global] Hint Extern 1 (Upd _) => solve_upd : typeclass_instances.

Notation "r <| f := v |>" := (upd f (fun _ => v) r)
  (at level 1, f at level 60, left associativity, format "r <| f  :=  v |>").
Notation "r <| f ::= g |>" := (upd f g r)
  (at level 1, f at level 60, left associativity, format "r <| f  ::=  g |>").

(** ** Stateful code

    A function that changes the state [S] and returns an [A].  The monad operations
    are stdpp's, so that a handler reads [x ← op; rest]. *)

Definition ST (S A : Type) : Type := S -> A * S.

#[export] Instance ST_ret S : MRet (ST S) := fun A a s => (a, s).
#[export] Instance ST_bind S : MBind (ST S) := fun A B k c s => let '(a, s) := c s in k a s.

Definition gets {S A} (f : S -> A) : ST S A := fun s => (f s, s).
Definition modify {S} (f : S -> S) : ST S unit := fun s => (tt, f s).

(** [for (i = 0; i < n; i++)] over a list, in order. *)
Fixpoint for_each {S A} (l : list A) (f : A -> ST S unit) : ST S unit :=
  match l with [] => mret tt | x :: l => f x ;; for_each l f end.

Lemma for_each_app {S A} (l k : list A) (f : A -> ST S unit) s :
  for_each (l ++ k) f s = for_each k f (for_each l f s).2.
Proof.
  revert s. induction l as [|x l IH]; intros s; [done|].
  cbn. unfold mbind, ST_bind. destruct (f x s) as [[] s1]. apply IH.
Qed.

(** An invariant every iteration keeps is kept by the loop. *)
Lemma for_each_inv {S A} (P : S -> Prop) (l : list A) (f : A -> ST S unit) s :
  P s -> (forall x s, x ∈ l -> P s -> P (f x s).2) -> P (for_each l f s).2.
Proof.
  revert s. induction l as [|x l IH]; intros s Hs Hf; [done|].
  cbn. unfold mbind, ST_bind. destruct (f x s) as [[] s1] eqn:E. apply IH.
  - change s1 with (tt, s1).2. rewrite <- E. apply Hf; [left|done].
  - intros y s' Hy. apply Hf. by right.
Qed.

(** [P] holds after [c] when it holds before. *)
Definition preserves {S A} (P : S -> Prop) (c : ST S A) : Prop := forall s, P s -> P (c s).2.

Lemma preserves_ret {S A} (P : S -> Prop) (a : A) : preserves P (mret a).
Proof. intros s Hs. exact Hs. Qed.

Lemma preserves_gets {S A} (P : S -> Prop) (f : S -> A) : preserves P (gets f).
Proof. intros s Hs. exact Hs. Qed.

Lemma preserves_bind {S A B} (P : S -> Prop) (c : ST S A) (k : A -> ST S B) :
  preserves P c -> (forall a, preserves P (k a)) -> preserves P (c ≫= k).
Proof.
  intros Hc Hk s Hs. unfold mbind, ST_bind. specialize (Hc s Hs). destruct (c s) as [a s1]. by apply Hk.
Qed.

Lemma preserves_modify {S} (P : S -> Prop) (f : S -> S) :
  (forall s, P s -> P (f s)) -> preserves P (modify f).
Proof. intros Hf s Hs. by apply Hf. Qed.

Lemma preserves_for_each {S A} (P : S -> Prop) (l : list A) (f : A -> ST S unit) :
  (forall x, preserves P (f x)) -> preserves P (for_each l f).
Proof. intros Hf s Hs. by apply for_each_inv; [|intros x s' _; apply Hf]. Qed.

Create HintDb pres.
#[export] Hint Resolve preserves_ret preserves_gets : pres.

(** Follows the structure of a handler, leaving the calls the database does not know. *)
Ltac preserve :=
  repeat first
    [ solve [auto with pres]
    | apply preserves_bind; [|intros]
    | progress case_match
    | progress split_if ].

(** ** Sorting

    What the callers of qsort(3) rely on: the result is a permutation of the array,
    and it is ordered when the comparison function is consistent with a total
    preorder.  The order of equal elements is not specified. *)

Definition cmp_total {A} (cmp : A -> A -> Z) : Prop :=
  (forall x y, cmp x y <= 0 \/ cmp y x <= 0) /\
  (forall x y z, cmp x y <= 0 -> cmp y z <= 0 -> cmp x z <= 0).

Class QSort := {
  qsort : forall {A}, (A -> A -> Z) -> list A -> list A;
  qsort_perm : forall {A} (cmp : A -> A -> Z) l, Permutation (qsort cmp l) l;
  qsort_sorted : forall {A} (cmp : A -> A -> Z) l, cmp_total cmp ->
    StronglySorted (fun x y => cmp x y <= 0) (qsort cmp l) }.

Fixpoint insert_sorted {A} (cmp : A -> A -> Z) (x : A) (l : list A) : list A :=
  match l with
  | [] => [x]
  | y :: l' => if cmp x y <=? 0 then x :: l else y :: insert_sorted cmp x l'
  end.

Definition insertion_sort {A} (cmp : A -> A -> Z) (l : list A) : list A :=
  foldr (insert_sorted cmp) [] l.

Lemma insert_sorted_perm {A} (cmp : A -> A -> Z) x l :
  Permutation (insert_sorted cmp x l) (x :: l).
Proof.
  induction l as [|y l IH]; [done|]. cbn. destruct (cmp x y <=? 0); [done|].
  etrans; [apply perm_skip, IH|apply perm_swap].
Qed.

Lemma insert_sorted_sorted {A} (cmp : A -> A -> Z) x l :
  cmp_total cmp -> StronglySorted (fun x y => cmp x y <= 0) l ->
  StronglySorted (fun x y => cmp x y <= 0) (insert_sorted cmp x l).
Proof.
  intros [Ht Htr]. induction l as [|y l IH]; intros Hs; cbn.
  - repeat constructor.
  - apply StronglySorted_inv in Hs as [Hs Hy]. destruct (cmp x y <=? 0) eqn:E.
    + apply Z.leb_le in E. repeat constructor; try done.
      eapply Forall_impl; [exact Hy|]. intros z Hz. by eapply Htr.
    + apply Z.leb_gt in E. constructor; [by apply IH|].
      eapply Permutation_Forall; [symmetry; apply insert_sorted_perm|].
      constructor; [|done]. destruct (Ht x y); lia.
Qed.

(** The class is inhabited: an insertion sort is an implementation. *)
Definition QSort_insertion : QSort.
Proof.
  refine {| qsort := @insertion_sort |}.
  - intros A cmp l. induction l as [|x l IH]; [done|].
    cbn. etrans; [apply insert_sorted_perm|]. by apply perm_skip.
  - intros A cmp l Hc. induction l as [|x l IH]; [constructor|]. cbn.
    by apply insert_sorted_sorted.
Defined.

Lemma strongly_sorted_weaken {A} (R R' : A -> A -> Prop) l :
  (forall a b, R a b -> R' a b) -> StronglySorted R l -> StronglySorted R' l.
Proof.
  intros HR. induction 1 as [|a l Hl IH Ha]; constructor; [done|].
  eapply Forall_impl; [exact Ha|]. apply HR.
Qed.
