(* ===== verification/Sha1.v ===== *)
(** * SHA-1 as module/sha1.c computes it

    The configuration hash that Merlin nodes exchange is a SHA-1 digest of the
    object configuration files.  This file translates the "block" SHA-1 of
    module/sha1.c with its three optimisations (the 16-word rolling schedule,
    the renaming of the five registers instead of moving them, the streaming
    context that hashes whole blocks straight from the caller's buffer), states
    the algorithm of FIPS 180-4 independently, and proves that the code computes
    it for every way of cutting the input into calls of [blk_SHA1_Update]. *)

From S2P Require Import Prelude.

(** ** The code *)

(** module/sha1.c:29-30 SHA_ROL *)
Definition SHA_ROL (x n : Z) : Z := Z.lor (u32 (Z.shiftl x n)) (Z.shiftr x (32 - n)).

(** module/sha1.c:29-31 SHA_ROR *)
Definition SHA_ROR (x n : Z) : Z := Z.lor (u32 (Z.shiftl x (32 - n))) (Z.shiftr x n).

Inductive reg := RA | RB | RC | RD | RE.

(** The five 32-bit words of the state: [ctx->H] between blocks, the locals
    A to E of [blk_SHA1_Block] inside one. *)
Record regs := Regs { rA : Z; rB : Z; rC : Z; rD : Z; rE : Z }.

Definition get_reg (r : reg) (s : regs) : Z :=
  match r with RA => rA s | RB => rB s | RC => rC s | RD => rD s | RE => rE s end.

Definition set_reg (r : reg) (v : Z) (s : regs) : regs :=
  let '(Regs a b c d e) := s in
  match r with
  | RA => Regs v b c d e | RB => Regs a v c d e | RC => Regs a b v d e
  | RD => Regs a b c v e | RE => Regs a b c d v
  end.

(** module/sha1.c:83-87 get_be32 -- the word at byte offset [4 * t] of a buffer;
    a byte outside the buffer reads as zero, and no caller passes one. *)
Definition get_be32 (p : list byte) (t : nat) : Z :=
  let b i := byte.unsigned (default Byte.x00 (p !! (4 * t + i)%nat)) in
  Z.lor (Z.shiftl (b 0%nat) 24) (Z.lor (Z.shiftl (b 1%nat) 16)
    (Z.lor (Z.shiftl (b 2%nat) 8) (b 3%nat))).

(** module/sha1.c:88-93 put_be32 *)
Definition put_be32 (v : Z) : list byte :=
  [byte.of_Z (Z.shiftr v 24); byte.of_Z (Z.shiftr v 16); byte.of_Z (Z.shiftr v 8); byte.of_Z v].

(** module/sha1.c:97-98 W *)
Definition W (array : list Z) (x : nat) : Z := array !!! Nat.land x 15.

(** module/sha1.c:57-63 setW *)
Definition setW (array : list Z) (x : nat) (v : Z) : list Z := <[Nat.land x 15 := v]> array.

Inductive round_input := SHA_SRC | SHA_MIX.

(** module/sha1.c:100-105 SHA_SRC *)
Definition sha_input (i : round_input) (data : list byte) (array : list Z) (t : nat) : Z :=
  match i with
  | SHA_SRC => get_be32 data t
  | SHA_MIX =>
      SHA_ROL (Z.lxor (Z.lxor (Z.lxor (W array (t + 13)) (W array (t + 8))) (W array (t + 2)))
        (W array t)) 1
  end.

(** module/sha1.c:107-110 SHA_ROUND *)
Definition SHA_ROUND (i : round_input) (fn : Z -> Z -> Z -> Z) (constant : Z) (data : list byte)
    (t : nat) (a b c d e : reg) (st : regs * list Z) : regs * list Z :=
  let '(s, array) := st in
  let TEMP := sha_input i data array t in
  let array := setW array t TEMP in
  let s := set_reg e (get_reg e s +u
      (TEMP + SHA_ROL (get_reg a s) 5 + fn (get_reg b s) (get_reg c s) (get_reg d s) + constant)) s in
  (set_reg b (SHA_ROR (get_reg b s) 2) s, array).

Definition fn_choose (b c d : Z) : Z := Z.lxor (Z.land (Z.lxor c d) b) d.
Definition fn_parity (b c d : Z) : Z := Z.lxor (Z.lxor b c) d.
Definition fn_majority (b c d : Z) : Z := Z.land b c + Z.land d (Z.lxor b c).

(** module/sha1.c:112-112 T_0_15 *)
Definition T_0_15 := SHA_ROUND SHA_SRC fn_choose 0x5a827999.

(** module/sha1.c:113-113 T_16_19 *)
Definition T_16_19 := SHA_ROUND SHA_MIX fn_choose 0x5a827999.

(** module/sha1.c:114-114 T_20_39 *)
Definition T_20_39 := SHA_ROUND SHA_MIX fn_parity 0x6ed9eba1.

(** module/sha1.c:115-115 T_40_59 *)
Definition T_40_59 := SHA_ROUND SHA_MIX fn_majority 0x8f1bbcdc.

(** module/sha1.c:116-116 T_60_79 *)
Definition T_60_79 := SHA_ROUND SHA_MIX fn_parity 0xca62c1d6.

(** module/sha1.c:129-217 blk_SHA1_Block -- the eighty rounds, in the order and with
    the register renaming of the source. *)
Definition block_rounds (data : list byte) : list (regs * list Z -> regs * list Z) :=
  [T_0_15 data 0 RA RB RC RD RE; T_0_15 data 1 RE RA RB RC RD;
   T_0_15 data 2 RD RE RA RB RC; T_0_15 data 3 RC RD RE RA RB;
   T_0_15 data 4 RB RC RD RE RA; T_0_15 data 5 RA RB RC RD RE;
   T_0_15 data 6 RE RA RB RC RD; T_0_15 data 7 RD RE RA RB RC;
   T_0_15 data 8 RC RD RE RA RB; T_0_15 data 9 RB RC RD RE RA;
   T_0_15 data 10 RA RB RC RD RE; T_0_15 data 11 RE RA RB RC RD;
   T_0_15 data 12 RD RE RA RB RC; T_0_15 data 13 RC RD RE RA RB;
   T_0_15 data 14 RB RC RD RE RA; T_0_15 data 15 RA RB RC RD RE;
   T_16_19 data 16 RE RA RB RC RD; T_16_19 data 17 RD RE RA RB RC;
   T_16_19 data 18 RC RD RE RA RB; T_16_19 data 19 RB RC RD RE RA;
   T_20_39 data 20 RA RB RC RD RE; T_20_39 data 21 RE RA RB RC RD;
   T_20_39 data 22 RD RE RA RB RC; T_20_39 data 23 RC RD RE RA RB;
   T_20_39 data 24 RB RC RD RE RA; T_20_39 data 25 RA RB RC RD RE;
   T_20_39 data 26 RE RA RB RC RD; T_20_39 data 27 RD RE RA RB RC;
   T_20_39 data 28 RC RD RE RA RB; T_20_39 data 29 RB RC RD RE RA;
   T_20_39 data 30 RA RB RC RD RE; T_20_39 data 31 RE RA RB RC RD;
   T_20_39 data 32 RD RE RA RB RC; T_20_39 data 33 RC RD RE RA RB;
   T_20_39 data 34 RB RC RD RE RA; T_20_39 data 35 RA RB RC RD RE;
   T_20_39 data 36 RE RA RB RC RD; T_20_39 data 37 RD RE RA RB RC;
   T_20_39 data 38 RC RD RE RA RB; T_20_39 data 39 RB RC RD RE RA;
   T_40_59 data 40 RA RB RC RD RE; T_40_59 data 41 RE RA RB RC RD;
   T_40_59 data 42 RD RE RA RB RC; T_40_59 data 43 RC RD RE RA RB;
   T_40_59 data 44 RB RC RD RE RA; T_40_59 data 45 RA RB RC RD RE;
   T_40_59 data 46 RE RA RB RC RD; T_40_59 data 47 RD RE RA RB RC;
   T_40_59 data 48 RC RD RE RA RB; T_40_59 data 49 RB RC RD RE RA;
   T_40_59 data 50 RA RB RC RD RE; T_40_59 data 51 RE RA RB RC RD;
   T_40_59 data 52 RD RE RA RB RC; T_40_59 data 53 RC RD RE RA RB;
   T_40_59 data 54 RB RC RD RE RA; T_40_59 data 55 RA RB RC RD RE;
   T_40_59 data 56 RE RA RB RC RD; T_40_59 data 57 RD RE RA RB RC;
   T_40_59 data 58 RC RD RE RA RB; T_40_59 data 59 RB RC RD RE RA;
   T_60_79 data 60 RA RB RC RD RE; T_60_79 data 61 RE RA RB RC RD;
   T_60_79 data 62 RD RE RA RB RC; T_60_79 data 63 RC RD RE RA RB;
   T_60_79 data 64 RB RC RD RE RA; T_60_79 data 65 RA RB RC RD RE;
   T_60_79 data 66 RE RA RB RC RD; T_60_79 data 67 RD RE RA RB RC;
   T_60_79 data 68 RC RD RE RA RB; T_60_79 data 69 RB RC RD RE RA;
   T_60_79 data 70 RA RB RC RD RE; T_60_79 data 71 RE RA RB RC RD;
   T_60_79 data 72 RD RE RA RB RC; T_60_79 data 73 RC RD RE RA RB;
   T_60_79 data 74 RB RC RD RE RA; T_60_79 data 75 RA RB RC RD RE;
   T_60_79 data 76 RE RA RB RC RD; T_60_79 data 77 RD RE RA RB RC;
   T_60_79 data 78 RC RD RE RA RB; T_60_79 data 79 RB RC RD RE RA].

(** module/sha1.c:118-224 blk_SHA1_Block -- on the state words of the context.  The
    local array is uninitialised in C; its 16 words are written before they are read. *)
Definition blk_SHA1_Block (H : regs) (data : list byte) : regs :=
  let '(s, _) := fold_left (fun st f => f st) (block_rounds data) (H, replicate 16 0) in
  Regs (rA H +u rA s) (rB H +u rB s) (rC H +u rC s) (rD H +u rD s) (rE H +u rE s).

(** module/sha1.h:11-15 blk_SHA_CTX -- [sha_W] is the 64 bytes of the 16-word buffer. *)
Record blk_SHA_CTX := ShaCtx { sha_size : Z; sha_H : regs; sha_W : list byte }.

(** module/sha1.c:226-236 blk_SHA1_Init -- the buffer keeps what the memory held. *)
Definition blk_SHA1_Init (ctx : blk_SHA_CTX) : blk_SHA_CTX :=
  ShaCtx 0 (Regs 0x67452301 0xefcdab89 0x98badcfe 0x10325476 0xc3d2e1f0) (sha_W ctx).

(** module/sha1.c:257-261 blk_SHA1_Update -- the while loop over whole blocks; the
    fuel is the number of bytes, each turn consuming 64 of them. *)
Fixpoint update_loop (fuel : nat) (H : regs) (data : list byte) : regs * list byte :=
  match fuel with
  | O => (H, data)
  | S fuel =>
      if (64 <=? length data)%nat
      then update_loop fuel (blk_SHA1_Block H (take 64 data)) (drop 64 data)
      else (H, data)
  end.

(** module/sha1.c:257-263 blk_SHA1_Update -- the loop and the copy of what is left. *)
Definition update_tail (ctx : blk_SHA_CTX) (data : list byte) : blk_SHA_CTX :=
  let '(H, data) := update_loop (length data) (sha_H ctx) data in
  ShaCtx (sha_size ctx) H (data ++ drop (length data) (sha_W ctx)).

(** module/sha1.c:238-264 blk_SHA1_Update *)
Definition blk_SHA1_Update (ctx : blk_SHA_CTX) (data : list byte) : blk_SHA_CTX :=
  let len := length data in
  let lenW := Z.to_nat (Z.land (sha_size ctx) 63) in
  let size := u64 (sha_size ctx + Z.of_nat len) in
  if negb (lenW =? 0)%nat then
    let left := if (len <? 64 - lenW)%nat then len else (64 - lenW)%nat in
    let buf := take lenW (sha_W ctx) ++ take left data ++ drop (lenW + left) (sha_W ctx) in
    let lenW := Nat.land (lenW + left) 63 in
    let data := drop left data in
    if negb (lenW =? 0)%nat then ShaCtx size (sha_H ctx) buf
    else update_tail (ShaCtx size (blk_SHA1_Block (sha_H ctx) buf) buf) data
  else update_tail (ShaCtx size (sha_H ctx) (sha_W ctx)) data.

(** module/sha1.c:266-283 blk_SHA1_Final -- [padlen] is in network byte order, so
    [put_be32] gives its bytes. *)
Definition blk_SHA1_Final (ctx : blk_SHA_CTX) : list byte :=
  let padlen := put_be32 (u32 (Z.shiftr (sha_size ctx) 29)) ++
                put_be32 (u32 (Z.shiftl (sha_size ctx) 3)) in
  let i := Z.land (sha_size ctx) 63 in
  let pad := Byte.x80 :: replicate 63 Byte.x00 in
  let ctx := blk_SHA1_Update ctx (take (Z.to_nat (1 + Z.land 63 (55 - i))) pad) in
  let ctx := blk_SHA1_Update ctx padlen in
  let h := sha_H ctx in
  put_be32 (rA h) ++ put_be32 (rB h) ++ put_be32 (rC h) ++ put_be32 (rD h) ++ put_be32 (rE h).

(** ** The standard

    FIPS 180-4, sections 4.1.1, 4.2.1, 5.1.1 and 6.1, written with moving
    variables, the 80-word message schedule and padding of the whole message. *)

Definition fips_f (t : nat) (x y z : Z) : Z :=
  if (t <? 20)%nat then Z.lxor (Z.land x y) (Z.ldiff z x)
  else if (t <? 40)%nat then Z.lxor (Z.lxor x y) z
  else if (t <? 60)%nat then Z.lxor (Z.lxor (Z.land x y) (Z.land x z)) (Z.land y z)
  else Z.lxor (Z.lxor x y) z.

Definition fips_K (t : nat) : Z :=
  if (t <? 20)%nat then 0x5a827999 else if (t <? 40)%nat then 0x6ed9eba1
  else if (t <? 60)%nat then 0x8f1bbcdc else 0xca62c1d6.

Definition fips_rotl (n x : Z) : Z := Z.lor (u32 (Z.shiftl x n)) (Z.shiftr x (32 - n)).

Fixpoint fips_schedule (M : nat -> Z) (n : nat) : list Z :=
  match n with
  | O => []
  | S n =>
      let w := fips_schedule M n in
      w ++ [if (n <? 16)%nat then M n
            else fips_rotl 1 (Z.lxor (Z.lxor (Z.lxor (w !!! (n - 3)%nat) (w !!! (n - 8)%nat))
                   (w !!! (n - 14)%nat)) (w !!! (n - 16)%nat))]
  end.

Definition fips_step (w : list Z) (s : regs) (t : nat) : regs :=
  let '(Regs a b c d e) := s in
  Regs (u32 (fips_rotl 5 a + fips_f t b c d + e + fips_K t + w !!! t)) a (fips_rotl 30 b) c d.

Definition fips_compress (H : regs) (block : list byte) : regs :=
  let s := foldl (fips_step (fips_schedule (get_be32 block) 80)) H (seq 0 80) in
  Regs (rA H +u rA s) (rB H +u rB s) (rC H +u rC s) (rD H +u rD s) (rE H +u rE s).

Definition blocks64 (l : list byte) : list (list byte) :=
  (fun i => take 64 (drop (64 * i) l)) <$> seq 0 (length l / 64).

Definition fips_pad (msg : list byte) : list byte :=
  msg ++ Byte.x80 :: replicate (Z.to_nat ((55 - Z.of_nat (length msg)) mod 64)) Byte.x00 ++
  rev (le_split 8 (8 * Z.of_nat (length msg))).

Definition fips_H0 : regs := Regs 0x67452301 0xefcdab89 0x98badcfe 0x10325476 0xc3d2e1f0.

Definition fips_sha1 (msg : list byte) : list byte :=
  let h := foldl fips_compress fips_H0 (blocks64 (fips_pad msg)) in
  rev (le_split 4 (rA h)) ++ rev (le_split 4 (rB h)) ++ rev (le_split 4 (rC h)) ++
  rev (le_split 4 (rD h)) ++ rev (le_split 4 (rE h)).

(** The digest of "abc" is the test vector of FIPS 180. *)
Definition ctx0 : blk_SHA_CTX := ShaCtx 0 (Regs 0 0 0 0 0) (replicate 64 Byte.x00).
Example fips_abc :
  le_combine (rev (fips_sha1 [Byte.x61; Byte.x62; Byte.x63])) =
  0xa9993e364706816aba3e25717850c26c9cd0d89d.
Proof. vm_compute. reflexivity. Qed.
Example code_abc :
  le_combine (rev (blk_SHA1_Final (blk_SHA1_Update (blk_SHA1_Init ctx0)
    [Byte.x61; Byte.x62; Byte.x63]))) = 0xa9993e364706816aba3e25717850c26c9cd0d89d.
Proof. vm_compute. reflexivity. Qed.

(** ** Rounds against the standard *)

Ltac bitwise :=
  apply Z.bits_inj'; intros ? ?;
  rewrite ?Z.lxor_spec, ?Z.land_spec, ?Z.ldiff_spec, ?Z.lor_spec, ?Z.lxor_spec, ?Z.land_spec,
    ?Z.bits_0;
  repeat match goal with |- context [Z.testbit ?x ?i] => destruct (Z.testbit x i) end; reflexivity.

Lemma fn_choose_fips b c d : fn_choose b c d = Z.lxor (Z.land b c) (Z.ldiff d b).
Proof. unfold fn_choose. bitwise. Qed.

Lemma fn_majority_fips b c d :
  fn_majority b c d = Z.lxor (Z.lxor (Z.land b c) (Z.land b d)) (Z.land c d).
Proof.
  unfold fn_majority. rewrite Z.add_nocarry_lxor by bitwise. bitwise.
Qed.

(** The role a register plays in round [t]: the k-th argument of the macro. *)
Definition role (t k : nat) : reg :=
  match ((k + 4 * t) mod 5)%nat with
  | 0%nat => RA | 1%nat => RB | 2%nat => RC | 3%nat => RD | _ => RE
  end.

Definition round_fn (t : nat) : Z -> Z -> Z -> Z :=
  if (t <? 20)%nat then fn_choose else if (t <? 40)%nat then fn_parity
  else if (t <? 60)%nat then fn_majority else fn_parity.

Definition round_at (data : list byte) (t : nat) : regs * list Z -> regs * list Z :=
  SHA_ROUND (if (t <? 16)%nat then SHA_SRC else SHA_MIX) (round_fn t) (fips_K t) data t
    (role t 0) (role t 1) (role t 2) (role t 3) (role t 4).

Lemma block_rounds_at data : block_rounds data = round_at data <$> seq 0 80.
Proof. reflexivity. Qed.

Lemma round_fn_fips t b c d : round_fn t b c d = fips_f t b c d.
Proof.
  unfold round_fn, fips_f. repeat case_match; auto using fn_choose_fips, fn_majority_fips.
Qed.

(** The register file of the code seen through the roles of round [t] is the
    tuple of moving variables of the standard. *)
Definition view (t : nat) (s : regs) : regs :=
  Regs (get_reg (role t 0) s) (get_reg (role t 1) s) (get_reg (role t 2) s)
    (get_reg (role t 3) s) (get_reg (role t 4) s).

Lemma role_mod5 t k : role t k = role (t mod 5) k.
Proof.
  unfold role. rewrite <- (Nat.Div0.add_mod_idemp_r k (4 * t)).
  rewrite <- (Nat.Div0.mul_mod_idemp_r 4 t). by rewrite Nat.Div0.add_mod_idemp_r.
Qed.

Lemma view_mod5 t s : view t s = view (t mod 5) s.
Proof. unfold view. by rewrite !(role_mod5 t). Qed.

Lemma view_0 s : view 0 s = s.
Proof. by destruct s. Qed.

(** One round in roles is one step of the standard, the word being the one
    written to the rolling array. *)
Lemma round_view i fn k data t s array :
  let w := sha_input i data array t in
  let '(s', array') := SHA_ROUND i fn k data t (role t 0) (role t 1) (role t 2) (role t 3)
                         (role t 4) (s, array) in
  array' = setW array t w /\
  view (S t) s' =
    let '(Regs a b c d e) := view t s in
    Regs (u32 (fips_rotl 5 a + fn b c d + e + k + w)) a (fips_rotl 30 b) c d.
Proof.
  cbv zeta. unfold SHA_ROUND. split; [done|].
  rewrite (view_mod5 (S t)), (view_mod5 t s), !(role_mod5 t).
  replace (S t mod 5)%nat with (S (t mod 5) mod 5)%nat
    by (rewrite <- Nat.add_1_l, Nat.Div0.add_mod_idemp_r; done).
  assert ((t mod 5 < 5)%nat) as Hlt by (apply Nat.mod_upper_bound; lia).
  generalize (sha_input i data array t); intros w.
  destruct s as [a b c d e]. generalize dependent (t mod 5)%nat. intros m Hm.
  do 5 (destruct m as [|m];
    [unfold view; cbn -[u32 Z.add SHA_ROL SHA_ROR fips_rotl]; f_equal; try reflexivity;
     change SHA_ROL with (fun x n => fips_rotl n x); cbv beta; f_equal; ring|]).
  lia.
Qed.

(** ** The rolling schedule *)

Lemma schedule_length M n : length (fips_schedule M n) = n.
Proof. induction n; simpl; rewrite ?length_app; simpl; lia. Qed.

Lemma schedule_lookup_le M n m i :
  (i < n)%nat -> (n <= m)%nat -> fips_schedule M m !!! i = fips_schedule M n !!! i.
Proof.
  intros Hi Hle. induction Hle as [|m Hle IH]; [done|]. cbn [fips_schedule].
  rewrite lookup_total_app_l by (rewrite schedule_length; lia). done.
Qed.

Lemma schedule_last M n :
  fips_schedule M (S n) !!! n =
  if (n <? 16)%nat then M n
  else let w := fips_schedule M n in
       fips_rotl 1 (Z.lxor (Z.lxor (Z.lxor (w !!! (n - 3)%nat) (w !!! (n - 8)%nat))
                   (w !!! (n - 14)%nat)) (w !!! (n - 16)%nat)).
Proof.
  cbn [fips_schedule]. rewrite lookup_total_app_r by (rewrite schedule_length; lia).
  by rewrite schedule_length, Nat.sub_diag.
Qed.

Lemma land15 n : Nat.land n 15 = (n mod 16)%nat.
Proof. apply (Nat.land_ones n 4). Qed.

(** After the words below [t] were written, the array holds the last 16. *)
Definition window (M : nat -> Z) (t : nat) (array : list Z) : Prop :=
  length array = 16%nat /\
  forall j, (j < t)%nat -> (t <= j + 16)%nat ->
    array !! (j mod 16)%nat = Some (fips_schedule M t !!! j).

Lemma window_get M t array j x :
  window M t array -> (16 <= t)%nat -> (j < t)%nat -> (t <= j + 16)%nat ->
  (x mod 16 = j mod 16)%nat -> W array x = fips_schedule M t !!! j.
Proof.
  intros [_ Hw] ??? Hx. unfold W. rewrite land15, Hx.
  by apply list_lookup_total_correct, Hw.
Qed.

Lemma mod16_shift t a b : (a + b = 16)%nat -> (b <= t)%nat -> ((t + a) mod 16 = (t - b) mod 16)%nat.
Proof.
  intros. replace (t + a)%nat with ((t - b) + 1 * 16)%nat by lia. apply Nat.Div0.mod_add.
Qed.

Lemma input_window data array t :
  window (get_be32 data) t array ->
  sha_input (if (t <? 16)%nat then SHA_SRC else SHA_MIX) data array t =
  fips_schedule (get_be32 data) (S t) !!! t.
Proof.
  intros Hw. rewrite schedule_last. destruct (t <? 16)%nat eqn:Ht; [done|].
  apply Nat.ltb_ge in Ht. cbn [sha_input]. cbv zeta.
  pose proof (fun j x => window_get _ t array j x Hw Ht) as Hg.
  rewrite (Hg (t - 3)%nat (t + 13)%nat), (Hg (t - 8)%nat (t + 8)%nat),
    (Hg (t - 14)%nat (t + 2)%nat), (Hg (t - 16)%nat t) by first [lia | apply mod16_shift; lia
      | rewrite <- (mod16_shift t 0 16) by lia; f_equal; lia].
  done.
Qed.

Lemma window_step M t array :
  window M t array -> window M (S t) (setW array t (fips_schedule M (S t) !!! t)).
Proof.
  intros [Hlen Hw]. split; [by unfold setW; rewrite length_insert|].
  intros j Hj Hj'. unfold setW. rewrite land15.
  destruct (decide (j = t)) as [->|Hne].
  - apply list_lookup_insert_eq. rewrite Hlen. apply Nat.mod_upper_bound. lia.
  - rewrite list_lookup_insert_ne.
    + rewrite Hw by lia. f_equal. symmetry. apply schedule_lookup_le; lia.
    + intros Heq. pose proof (Nat.div_mod_eq t 16). pose proof (Nat.div_mod_eq j 16). lia.
Qed.

Lemma foldl_steps_ext w w' s t :
  (forall i, (i < t)%nat -> w !!! i = w' !!! i) ->
  foldl (fips_step w) s (seq 0 t) = foldl (fips_step w') s (seq 0 t).
Proof.
  intros Hw. induction t as [|t IH]; [done|].
  rewrite seq_S, !foldl_app, IH by eauto with lia. cbn.
  destruct (foldl _ s (seq 0 t)). unfold fips_step. by rewrite Hw by lia.
Qed.

(** The register file and the array after [t] rounds. *)
Lemma rounds_view data s t :
  let '(s', array) := fold_left (fun st f => f st) (round_at data <$> seq 0 t)
                        (s, replicate 16 0) in
  window (get_be32 data) t array /\
  view t s' = foldl (fips_step (fips_schedule (get_be32 data) t)) s (seq 0 t).
Proof.
  induction t as [|t IH].
  - simpl. split; [split; [done|lia]|apply view_0].
  - rewrite seq_S, fmap_app, fold_left_app, foldl_app. cbn [fmap list_fmap fold_left foldl Nat.add].
    destruct (fold_left _ _ _) as [s' array]. destruct IH as [Hw Hv].
    unfold round_at.
    pose proof (round_view (if (t <? 16)%nat then SHA_SRC else SHA_MIX) (round_fn t) (fips_K t)
      data t s' array) as Hr. cbv zeta in Hr. rewrite (input_window _ _ _ Hw) in Hr.
    destruct (SHA_ROUND _ _ _ _ _ _ _ _ _ _ _) as [s'' array']. destruct Hr as [-> ->].
    split; [by apply window_step|].
    rewrite Hv, (foldl_steps_ext (fips_schedule (get_be32 data) (S t)) (fips_schedule (get_be32 data) t)).
    + destruct (foldl _ s (seq 0 t)). cbn. by rewrite round_fn_fips.
    + intros i Hi. apply schedule_lookup_le; lia.
Qed.

(** The optimised block function is the compression function of the standard. *)
Lemma block_compress H data : blk_SHA1_Block H data = fips_compress H data.
Proof.
  unfold blk_SHA1_Block, fips_compress. rewrite block_rounds_at.
  pose proof (rounds_view data H 80) as Hr.
  destruct (fold_left _ _ _) as [s array]. destruct Hr as [_ Hv].
  rewrite <- Hv, view_mod5. change (80 mod 5)%nat with 0%nat. by rewrite view_0.
Qed.

(** ** The streaming context *)

Definition absorb (H : regs) (l : list byte) : regs := foldl fips_compress H (blocks64 l).

(** [aligned l]: the length of [l] is a whole number of blocks. *)
Definition aligned (l : list byte) : Prop := exists k, length l = (64 * k)%nat.

Lemma blocks64_app l1 l2 : aligned l1 -> blocks64 (l1 ++ l2) = blocks64 l1 ++ blocks64 l2.
Proof.
  intros [k Hk]. unfold blocks64. rewrite length_app, Hk.
  replace ((64 * k + length l2) / 64)%nat with (k + length l2 / 64)%nat
    by (rewrite Nat.mul_comm, Nat.div_add_l; lia).
  replace (64 * k / 64)%nat with k by (rewrite Nat.mul_comm, Nat.div_mul; lia).
  rewrite seq_app, fmap_app. f_equal.
  - apply list_fmap_ext. intros i x Hx. apply lookup_seq in Hx as [-> Hi].
    rewrite drop_app_le, take_app_le; rewrite ?length_drop; auto; lia.
  - replace (seq (0 + k) (length l2 / 64)) with (Nat.add k <$> seq 0 (length l2 / 64))
      by (rewrite fmap_add_seq; f_equal; lia). rewrite <- list_fmap_compose. apply list_fmap_ext. intros i x _. simpl.
    rewrite drop_app_ge by lia. do 2 f_equal. lia.
Qed.

Lemma absorb_app H l1 l2 : aligned l1 -> absorb H (l1 ++ l2) = absorb (absorb H l1) l2.
Proof. intros. unfold absorb. by rewrite blocks64_app, foldl_app. Qed.

Lemma absorb_one H l : length l = 64%nat -> absorb H l = fips_compress H l.
Proof.
  intros Hl. unfold absorb, blocks64. rewrite Hl. change (64 / 64)%nat with 1%nat. cbn.
  by rewrite drop_0, firstn_all2 by lia.
Qed.

Lemma absorb_short H l : (length l < 64)%nat -> absorb H l = H.
Proof. intros. unfold absorb, blocks64. by rewrite Nat.div_small by lia. Qed.

Lemma aligned_app l1 l2 : aligned l1 -> aligned l2 -> aligned (l1 ++ l2).
Proof. intros [k Hk] [j Hj]. exists (k + j)%nat. rewrite length_app. lia. Qed.

Lemma aligned_nil : aligned [].
Proof. by exists 0%nat. Qed.

Lemma aligned_block l : length l = 64%nat -> aligned l.
Proof. intros. exists 1%nat. lia. Qed.

#[local] Hint Resolve aligned_app aligned_nil aligned_block : core.

(** The loop hashes every whole block and leaves the rest. *)
Lemma update_loop_spec fuel H d :
  (length d <= 64 * fuel)%nat ->
  exists full rest, d = full ++ rest /\ aligned full /\ (length rest < 64 \/ fuel = 0 /\ rest = [])%nat /\
    update_loop fuel H d = (absorb H full, rest).
Proof.
  revert H d. induction fuel as [|fuel IH]; intros H d Hd; cbn [update_loop].
  - destruct d; [|simpl in Hd; lia]. exists [], []. split_and!; auto.
  - destruct (64 <=? length d)%nat eqn:Hle; [apply Nat.leb_le in Hle|apply Nat.leb_gt in Hle].
    + destruct (IH (blk_SHA1_Block H (take 64 d)) (drop 64 d)) as (full & rest & Hd' & Ha & Hr & ->).
      { rewrite length_drop. lia. }
      assert (length (take 64 d) = 64%nat) by (rewrite length_take; lia).
      exists (take 64 d ++ full), rest. rewrite <- app_assoc, <- Hd', take_drop.
      split_and!; auto.
      * destruct Hr as [|[_ ->]]; [auto|left; simpl; lia].
      * by rewrite absorb_app, (absorb_one _ (take 64 d)), block_compress by auto.
    + exists [], d. split_and!; auto.
Qed.

#[local] Arguments absorb : simpl never.

(** [sha_repr ctx m]: the context is the one of a message [m] so far. *)
Definition sha_repr (ctx : blk_SHA_CTX) (m : list byte) : Prop :=
  exists full rest stale, m = full ++ rest /\ aligned full /\ (length rest < 64)%nat /\
    sha_size ctx = u64 (Z.of_nat (length m)) /\ sha_H ctx = absorb fips_H0 full /\
    sha_W ctx = rest ++ stale /\ length (sha_W ctx) = 64%nat.

Lemma land63 n : Z.land n 63 = n mod 64.
Proof. change 63 with (Z.ones 6). by rewrite Z.land_ones by lia. Qed.

Lemma u64_mod64 n : u64 n mod 64 = n mod 64.
Proof.
  unfold u64. change (2 ^ 64) with (64 * 2 ^ 58). rewrite Z.rem_mul_r by lia.
  rewrite Z.mul_comm, Z.mod_add, Z.mod_mod by lia. done.
Qed.

Lemma repr_size full rest :
  aligned full -> (length rest < 64)%nat ->
  Z.to_nat (Z.land (u64 (Z.of_nat (length (full ++ rest)))) 63) = length rest.
Proof.
  intros [k Hk] Hr. rewrite land63, u64_mod64, length_app, Hk.
  replace (Z.of_nat (64 * k + length rest)) with (Z.of_nat (length rest) + Z.of_nat k * 64) by lia.
  rewrite Z.mod_add, Z.mod_small by lia. lia.
Qed.

Lemma update_tail_repr ctx full d :
  aligned full -> sha_H ctx = absorb fips_H0 full -> length (sha_W ctx) = 64%nat ->
  sha_size ctx = u64 (Z.of_nat (length (full ++ d))) ->
  sha_repr (update_tail ctx d) (full ++ d).
Proof.
  intros Hf HH HW Hs. unfold update_tail.
  destruct (update_loop_spec (length d) (sha_H ctx) d) as (f & r & Hd & Ha & Hr & ->); [lia|].
  assert (length r < 64)%nat as Hr' by (destruct Hr as [|[_ ->]]; simpl; lia).
  exists (full ++ f), r, (drop (length r) (sha_W ctx)). cbn [sha_size sha_H sha_W].
  split_and!; auto.
  - by rewrite <- app_assoc, <- Hd.
  - by rewrite absorb_app, HH by auto.
  - rewrite length_app, length_drop. lia.
Qed.

Lemma land63_nat n : (n < 64)%nat -> Nat.land n 63 = n.
Proof. intros. change 63%nat with (Nat.ones 6). rewrite Nat.land_ones. by apply Nat.mod_small. Qed.

(** One call of [blk_SHA1_Update] extends the represented message. *)
Lemma update_repr ctx m d : sha_repr ctx m -> sha_repr (blk_SHA1_Update ctx d) (m ++ d).
Proof.
  intros (full & rest & stale & -> & Hf & Hr & Hs & HH & HW & HWl).
  unfold blk_SHA1_Update. rewrite Hs, repr_size by auto. cbv zeta.
  assert (u64 (u64 (Z.of_nat (length (full ++ rest))) + Z.of_nat (length d)) =
          u64 (Z.of_nat (length ((full ++ rest) ++ d)))) as ->.
  { unfold u64. rewrite Z.add_mod_idemp_l by lia. rewrite (length_app (full ++ rest)). f_equal. lia. }
  destruct (length rest =? 0)%nat eqn:He; cbn [negb].
  { apply Nat.eqb_eq, nil_length_inv in He as ->. rewrite app_nil_r.
    apply update_tail_repr; auto. }
  apply Nat.eqb_neq in He. rewrite HW, take_app_length.
  destruct (length d <? 64 - length rest)%nat eqn:Hlt.
  - apply Nat.ltb_lt in Hlt. rewrite land63_nat by lia.
    rewrite (proj2 (Nat.eqb_neq (length rest + length d) 0)) by lia. cbn [negb].
    rewrite firstn_all2 by lia.
    exists full, (rest ++ d), (drop (length rest + length d) (rest ++ stale)).
    cbn [sha_size sha_H sha_W].
    rewrite HW in HWl. rewrite <- !app_assoc. split_and!; auto.
    + rewrite length_app. lia.
    + rewrite !length_app, length_drop. rewrite length_app in *. lia.
  - apply Nat.ltb_ge in Hlt. replace (length rest + (64 - length rest))%nat with 64%nat by lia.
    cbn [Nat.eqb negb]. rewrite HW in HWl. change (Nat.land 64 63) with 0%nat. cbn [Nat.eqb negb].
    rewrite (drop_ge (rest ++ stale) 64), app_nil_r by lia.
    assert (length (rest ++ take (64 - length rest) d) = 64%nat)
      by (rewrite length_app, length_take; lia).
    assert ((full ++ rest) ++ d =
      (full ++ rest ++ take (64 - length rest) d) ++ drop (64 - length rest) d) as ->
      by (by rewrite <- !app_assoc, take_drop).
    apply update_tail_repr; auto. cbn [sha_size sha_H sha_W].
    by rewrite block_compress, HH, absorb_app, (absorb_one _ (rest ++ _)) by auto.
Qed.

Lemma updates_repr chunks ctx m :
  sha_repr ctx m -> sha_repr (foldl blk_SHA1_Update ctx chunks) (m ++ concat chunks).
Proof.
  revert ctx m. induction chunks as [|d chunks IH]; intros ctx m Hr; simpl.
  - by rewrite app_nil_r.
  - rewrite app_assoc. by apply IH, update_repr.
Qed.

Lemma init_repr ctx : length (sha_W ctx) = 64%nat -> sha_repr (blk_SHA1_Init ctx) [].
Proof. intros. exists [], [], (sha_W ctx). split_and!; auto; simpl; lia. Qed.

(** ** Padding and the digest *)

Lemma put_be32_le v : put_be32 v = rev (le_split 4 v).
Proof. cbv [put_be32 le_split rev app]. by rewrite !Z.shiftr_shiftr by lia. Qed.

Lemma le_split_cong n a b :
  a mod 2 ^ (Z.of_nat n * 8) = b mod 2 ^ (Z.of_nat n * 8) -> le_split n a = le_split n b.
Proof. intros Hm. rewrite (le_split_mod a), (le_split_mod b). by rewrite Hm. Qed.

Lemma le_split_8 z : le_split 8 z = le_split 4 z ++ le_split 4 (Z.shiftr z 32).
Proof. cbv [le_split app]. by rewrite !Z.shiftr_shiftr by lia. Qed.

(** The two words of [padlen] are the 64-bit big-endian bit length. *)
Lemma padlen_le n :
  put_be32 (u32 (Z.shiftr (u64 n) 29)) ++ put_be32 (u32 (Z.shiftl (u64 n) 3)) =
  rev (le_split 8 (8 * n)).
Proof.
  rewrite !put_be32_le, le_split_8, rev_app_distr. unfold u64, u32. f_equal; f_equal;
    apply le_split_cong; change (2 ^ (Z.of_nat 4 * 8)) with (2 ^ 32).
  - rewrite Z.mod_mod, !Z.shiftr_div_pow2 by lia.
    change (2 ^ 64) with (2 ^ 29 * (2 ^ 32 * 8)). rewrite Z.rem_mul_r, Z.mul_comm by lia.
    rewrite Z.div_add, (Z.div_small (n mod 2 ^ 29)), Z.add_0_l by (try apply Z.mod_pos_bound; lia).
    rewrite Z.rem_mul_r, (Z.mul_comm (2 ^ 32)), Z.mod_add, Z.mod_mod by lia.
    change (2 ^ 32) with (8 * 2 ^ 29) at 2. by rewrite Z.div_mul_cancel_l by lia.
  - rewrite Z.mod_mod, Z.shiftl_mul_pow2 by lia.
    change (2 ^ 64) with (2 ^ 32 * 2 ^ 32). rewrite Z.rem_mul_r by lia.
    rewrite (Z.mul_comm (2 ^ 32)), Z.mul_add_distr_r, Z.add_mod, <- Z.mul_assoc by lia.
    rewrite (Z.mul_comm (2 ^ 32) (2 ^ 3)), Z.mul_assoc, Z.mod_mul, Z.add_0_r, Z.mod_mod by lia.
    rewrite Z.mul_mod_idemp_l by lia. f_equal. lia.
Qed.

Lemma pad_take k : (k <= 63)%nat ->
  take (Z.to_nat (1 + Z.of_nat k)) (Byte.x80 :: replicate 63 Byte.x00) =
  Byte.x80 :: replicate k Byte.x00.
Proof.
  intros. replace (Z.to_nat (1 + Z.of_nat k)) with (S k) by lia. cbn [take].
  by rewrite take_replicate, Nat.min_l by lia.
Qed.

(** What [blk_SHA1_Final] appends is the padding of the standard. *)
Lemma final_padding m :
  let size := u64 (Z.of_nat (length m)) in
  m ++ take (Z.to_nat (1 + Z.land 63 (55 - Z.land size 63)))
         (Byte.x80 :: replicate 63 Byte.x00) ++
       put_be32 (u32 (Z.shiftr size 29)) ++ put_be32 (u32 (Z.shiftl size 3)) = fips_pad m.
Proof.
  cbv zeta. unfold fips_pad. rewrite padlen_le, Z.land_comm, !land63, u64_mod64.
  rewrite Zminus_mod_idemp_r.
  pose proof (Z.mod_pos_bound (55 - Z.of_nat (length m)) 64 ltac:(lia)).
  rewrite <- (Z2Nat.id ((55 - Z.of_nat (length m)) mod 64)) at 1 by lia.
  rewrite pad_take by lia. by rewrite <- app_comm_cons.
Qed.

Lemma fips_pad_aligned m : aligned (fips_pad m).
Proof.
  unfold fips_pad. pose proof (Z.mod_pos_bound (55 - Z.of_nat (length m)) 64 ltac:(lia)).
  pose proof (Z.div_mod (55 - Z.of_nat (length m)) 64 ltac:(lia)).
  exists (Z.to_nat (1 - (55 - Z.of_nat (length m)) / 64)).
  rewrite length_app, length_cons, length_app, length_replicate, List.length_rev, length_le_split.
  lia.
Qed.

Lemma aligned_short_nil full rest : aligned (full ++ rest) -> aligned full ->
  (length rest < 64)%nat -> rest = [].
Proof. intros [j Hj] [k Hk] Hr. rewrite length_app in Hj. apply nil_length_inv. lia. Qed.

Lemma repr_aligned_H ctx m : sha_repr ctx m -> aligned m -> sha_H ctx = absorb fips_H0 m.
Proof.
  intros (full & rest & stale & -> & Hf & Hr & _ & HH & _) Ha.
  rewrite (aligned_short_nil full rest) by auto. by rewrite app_nil_r.
Qed.

Lemma final_repr ctx m : sha_repr ctx m -> blk_SHA1_Final ctx = fips_sha1 m.
Proof.
  intros Hr. unfold blk_SHA1_Final. cbv zeta.
  assert (sha_size ctx = u64 (Z.of_nat (length m))) as Hs
    by (destruct Hr as (? & ? & ? & _ & _ & _ & Hs & _); done).
  rewrite Hs. rewrite (repr_aligned_H _ (fips_pad m)).
  - unfold fips_sha1, absorb. cbv zeta. by rewrite !put_be32_le.
  - rewrite <- final_padding. cbv zeta. rewrite app_assoc. by do 2 apply update_repr.
  - apply fips_pad_aligned.
Qed.

(** ** The claims *)

(** C1.  The digest that [blk_SHA1_Final] writes after any sequence of
    [blk_SHA1_Update] calls on an initialised context is the FIPS 180-4 SHA-1 of
    the concatenation of the chunks, whatever the memory of the context held
    before and however the input was cut. *)
Theorem sha1_stream_fips (ctx : blk_SHA_CTX) (chunks : list (list byte))
    (Hbuf : length (sha_W ctx) = 64%nat) :
  blk_SHA1_Final (foldl blk_SHA1_Update (blk_SHA1_Init ctx) chunks) = fips_sha1 (concat chunks).
Proof. by apply final_repr, (updates_repr chunks _ []), init_repr. Qed.

Lemma sha1_stream_fips_witness :
  length (sha_W ctx0) = 64%nat /\
  blk_SHA1_Final (foldl blk_SHA1_Update (blk_SHA1_Init ctx0)
    [replicate 60 Byte.x61; replicate 70 Byte.x62]) =
  fips_sha1 (replicate 60 Byte.x61 ++ replicate 70 Byte.x62).
Proof.
  split; [reflexivity|].
  apply (sha1_stream_fips ctx0 [replicate 60 Byte.x61; replicate 70 Byte.x62]). reflexivity.
Defined.

(** [blk_SHA1_Block], with its renamed registers and 16-word rolling
    schedule, is the compression function of the standard on every state and
    block. *)
Theorem sha1_block_fips (H : regs) (data : list byte) :
  blk_SHA1_Block H data = fips_compress H data.
Proof. apply block_compress. Qed.
