(* ===== verification/Binlog.v ===== *)
(** * The binary backlog of shared/binlog.c

    A node that cannot be reached has its events stored in a binlog: a first
    part in memory, the overflow in a file, to be replayed in order when the
    node is back.  The file holds each entry as a 4-byte length followed by the
    data.  This file models the structure, the part of the operating system it
    uses (directory entries, inodes, open files with an offset, and a list of
    failures the calls are going to meet) and every function of the source, and
    proves that the log is a first-in-first-out queue of the events added, with
    its capacity, error and persistence behaviour. *)

From S2P Require Import Prelude.

(** ** Return codes *)

Definition BINLOG_UNLINK : Z := 2.
Definition BINLOG_ENOPATH : Z := -3.
Definition BINLOG_EINCOMPLETE : Z := -4.
Definition BINLOG_EMPTY : Z := -5.
Definition BINLOG_EINVALID : Z := -6.
Definition BINLOG_ENOSPC : Z := -7.
Definition BINLOG_EDROPPED : Z := -8.
Definition BINLOG_EADDRESS : Z := -9.

(** ** Data *)

(** shared/binlog.c:16-19 binlog_entry *)
Record binlog_entry := Entry { e_size : Z; e_data : list byte }.

(** An open file description: what [bl->fd] refers to when it is not -1. *)
Record ofile := OFile { of_ino : nat; of_pos : Z; of_append : bool }.

(** shared/binlog.h:14-28 binlog -- [cache] is the array of entry pointers, [None]
    standing for NULL in both roles; [fd] is [None] for -1. *)
Record binlog := Binlog {
  cache : option (list (option binlog_entry));
  write_index : Z; read_index : Z; file_entries : Z;
  alloc : Z; mem_size : Z; max_mem_size : Z; mem_avail : Z;
  max_file_size : Z; file_size : Z; file_read_pos : Z; file_write_pos : Z;
  is_valid : bool; should_warn_if_full : bool;
  path : option string; file_metadata_path : option string; file_save_path : option string;
  fd : option ofile }.

(** File contents: bytes, or the structure [fwrite] stores in a metadata file. *)
Inductive fcontent := FBytes (l : list byte) | FMeta (bl : binlog).

(** What the next system call or allocation is going to do. *)
Inductive fault := FOk | FFail | FShort (n : nat).

(** The file system and the failures to come; no more listed failures means success. *)
Record world := World {
  w_dir : gmap string nat; w_data : gmap nat fcontent; w_next : nat; w_faults : list fault }.

(** ** Field updates *)

Definition with_cache (c : option (list (option binlog_entry))) (bl : binlog) : binlog :=
  Binlog c (write_index bl) (read_index bl) (file_entries bl) (alloc bl) (mem_size bl)
    (max_mem_size bl) (mem_avail bl) (max_file_size bl) (file_size bl) (file_read_pos bl)
    (file_write_pos bl) (is_valid bl) (should_warn_if_full bl) (path bl)
    (file_metadata_path bl) (file_save_path bl) (fd bl).

Definition with_index (wi ri : Z) (bl : binlog) : binlog :=
  Binlog (cache bl) wi ri (file_entries bl) (alloc bl) (mem_size bl)
    (max_mem_size bl) (mem_avail bl) (max_file_size bl) (file_size bl) (file_read_pos bl)
    (file_write_pos bl) (is_valid bl) (should_warn_if_full bl) (path bl)
    (file_metadata_path bl) (file_save_path bl) (fd bl).

Definition with_alloc (n : Z) (bl : binlog) : binlog :=
  Binlog (cache bl) (write_index bl) (read_index bl) (file_entries bl) n (mem_size bl)
    (max_mem_size bl) (mem_avail bl) (max_file_size bl) (file_size bl) (file_read_pos bl)
    (file_write_pos bl) (is_valid bl) (should_warn_if_full bl) (path bl)
    (file_metadata_path bl) (file_save_path bl) (fd bl).

Definition with_mem (size avail : Z) (bl : binlog) : binlog :=
  Binlog (cache bl) (write_index bl) (read_index bl) (file_entries bl) (alloc bl) size
    (max_mem_size bl) avail (max_file_size bl) (file_size bl) (file_read_pos bl)
    (file_write_pos bl) (is_valid bl) (should_warn_if_full bl) (path bl)
    (file_metadata_path bl) (file_save_path bl) (fd bl).

Definition with_file (entries size rpos wpos : Z) (bl : binlog) : binlog :=
  Binlog (cache bl) (write_index bl) (read_index bl) entries (alloc bl) (mem_size bl)
    (max_mem_size bl) (mem_avail bl) (max_file_size bl) size rpos wpos
    (is_valid bl) (should_warn_if_full bl) (path bl)
    (file_metadata_path bl) (file_save_path bl) (fd bl).

Definition with_fd (f : option ofile) (bl : binlog) : binlog :=
  Binlog (cache bl) (write_index bl) (read_index bl) (file_entries bl) (alloc bl) (mem_size bl)
    (max_mem_size bl) (mem_avail bl) (max_file_size bl) (file_size bl) (file_read_pos bl)
    (file_write_pos bl) (is_valid bl) (should_warn_if_full bl) (path bl)
    (file_metadata_path bl) (file_save_path bl) f.

Definition with_valid (v warn : bool) (bl : binlog) : binlog :=
  Binlog (cache bl) (write_index bl) (read_index bl) (file_entries bl) (alloc bl) (mem_size bl)
    (max_mem_size bl) (mem_avail bl) (max_file_size bl) (file_size bl) (file_read_pos bl)
    (file_write_pos bl) v warn (path bl) (file_metadata_path bl) (file_save_path bl) (fd bl).

Definition with_paths (p m s : option string) (bl : binlog) : binlog :=
  Binlog (cache bl) (write_index bl) (read_index bl) (file_entries bl) (alloc bl) (mem_size bl)
    (max_mem_size bl) (mem_avail bl) (max_file_size bl) (file_size bl) (file_read_pos bl)
    (file_write_pos bl) (is_valid bl) (should_warn_if_full bl) p m s (fd bl).

(** ** System calls *)

Definition pop_fault (w : world) : fault * world :=
  match w_faults w with
  | [] => (FOk, w)
  | f :: fs => (f, World (w_dir w) (w_data w) (w_next w) fs)
  end.

(** An allocation: whether it succeeds. *)
Definition sys_alloc (w : world) : bool * world :=
  let '(f, w) := pop_fault w in (match f with FOk => true | _ => false end, w).

Definition set_data (ino : nat) (c : fcontent) (w : world) : world :=
  World (w_dir w) (<[ino := c]> (w_data w)) (w_next w) (w_faults w).

Definition file_bytes (w : world) (ino : nat) : list byte :=
  match w_data w !! ino with Some (FBytes l) => l | _ => [] end.

Definition sys_open (p : string) (append trunc : bool) (w : world) : option ofile * world :=
  let '(f, w) := pop_fault w in
  match f with
  | FOk =>
      match w_dir w !! p with
      | Some ino => (Some (OFile ino 0 append), if trunc then set_data ino (FBytes []) w else w)
      | None =>
          (Some (OFile (w_next w) 0 append),
           World (<[p := w_next w]> (w_dir w)) (<[w_next w := FBytes []]> (w_data w))
             (S (w_next w)) (w_faults w))
      end
  | _ => (None, w)
  end.

(** [lseek] to the end of the file. *)
Definition seek_end (f : ofile) (w : world) : ofile :=
  OFile (of_ino f) (Z.of_nat (length (file_bytes w (of_ino f)))) (of_append f).

Definition seek_set (f : ofile) (pos : Z) : ofile := OFile (of_ino f) pos (of_append f).

(** [write]: the number of bytes written or -1; O_APPEND writes at the end. *)
Definition sys_write (f : ofile) (buf : list byte) (w : world) : Z * ofile * world :=
  let '(flt, w) := pop_fault w in
  match flt with
  | FFail => (-1, f, w)
  | _ =>
      let buf := match flt with FShort n => take n buf | _ => buf end in
      let old := file_bytes w (of_ino f) in
      let pos := if of_append f then length old else Z.to_nat (of_pos f) in
      let new := take pos old ++ replicate (pos - length old) Byte.x00 ++ buf ++
                 drop (pos + length buf) old in
      (Z.of_nat (length buf), OFile (of_ino f) (Z.of_nat (pos + length buf)) (of_append f),
       set_data (of_ino f) (FBytes new) w)
  end.

(** [read] of up to [n] bytes: [None] for -1. *)
Definition sys_read (f : ofile) (n : nat) (w : world) : option (list byte) * ofile * world :=
  let '(flt, w) := pop_fault w in
  match flt with
  | FOk =>
      let got := take n (drop (Z.to_nat (of_pos f)) (file_bytes w (of_ino f))) in
      (Some got, OFile (of_ino f) (of_pos f + Z.of_nat (length got)) (of_append f), w)
  | _ => (None, f, w)
  end.

Definition sys_unlink (p : option string) (w : world) : world :=
  match p with
  | Some p => World (delete p (w_dir w)) (w_data w) (w_next w) (w_faults w)
  | None => w
  end.

(** [rename]: whether it succeeds. *)
Definition sys_rename (p q : option string) (w : world) : bool * world :=
  let '(f, w) := pop_fault w in
  match f, p, q with
  | FOk, Some p, Some q =>
      match w_dir w !! p with
      | Some ino => (true, World (<[q := ino]> (delete p (w_dir w))) (w_data w) (w_next w) (w_faults w))
      | None => (false, w)
      end
  | _, _, _ => (false, w)
  end.

Definition file_exists (p : option string) (w : world) : bool :=
  match p with Some p => bool_decide (is_Some (w_dir w !! p)) | None => false end.

(** ** The operations *)

(** shared/binlog.c:51-54 binlog_is_valid *)
Definition binlog_is_valid (bl : binlog) : bool := is_valid bl.

(** shared/binlog.c:478-491 binlog_close -- the value of close(2) is not modelled. *)
Definition binlog_close (bl : binlog) : binlog :=
  match fd bl with Some _ => with_fd None bl | None => bl end.

(** shared/binlog.c:56-61 binlog_invalidate *)
Definition binlog_invalidate (bl : binlog) (w : world) : binlog * world :=
  let bl := binlog_close bl in
  let bl := with_valid false (should_warn_if_full bl) bl in
  (bl, sys_unlink (path bl) w).

(** shared/binlog.c:24-48 safe_write *)
Definition safe_write (bl : binlog) (buf : list byte) (w : world) : Z * binlog * world :=
  match fd bl with
  | None => (-1, bl, w)
  | Some f =>
      let pos := of_pos f in
      let f := if negb (pos =? file_size bl) then seek_end f w else f in
      let '(result, f, w) := sys_write f buf w in
      let bl := with_fd (Some f) bl in
      if result =? Z.of_nat (length buf) then
        (0, with_file (file_entries bl) (file_size bl) (file_read_pos bl) (of_pos f) bl, w)
      else if result <? 0 then (result, bl, w)
      else
        let '(flt, w) := pop_fault w in
        match flt with
        | FOk => (BINLOG_EINCOMPLETE, with_fd (Some (seek_set f pos)) bl, w)
        | _ => let '(bl, w) := binlog_invalidate bl w in (BINLOG_EINVALID, bl, w)
        end
  end.

(** shared/binlog.c:63-66 binlog_path *)
Definition binlog_path (bl : binlog) : option string := path bl.

(** shared/binlog.c:68-75 binlog_full_warning *)
Definition binlog_full_warning (bl : binlog) : bool * binlog :=
  if should_warn_if_full bl then (true, with_valid (is_valid bl) false bl) else (false, bl).

Definition binlog_zero : binlog :=
  Binlog None 0 0 0 0 0 0 0 0 0 0 0 false false None None None (Some (OFile 0 0 false)).

(** The string glibc's "%s" prints for a pointer that may be NULL. *)
Definition printf_str (s : option string) : string := default "(null)"%string s.

(** shared/binlog.c:77-117 binlog_create -- the limits arrive as unsigned long long and
    are stored as such and as off_t. *)
Definition binlog_create (p : option string) (msize fsize flags : Z) (w : world) :
    option binlog * world :=
  if negb (fsize =? 0) && bool_decide (p = None) then (None, w) else
  let '(ok, w) := sys_alloc w in
  if negb ok then (None, w) else
  let '(ok, w) := if negb (fsize =? 0) then sys_alloc w else (true, w) in
  if negb ok then (None, w) else
  let bl := with_paths (if negb (fsize =? 0) then p else None) None None binlog_zero in
  let bl := with_fd None bl in
  let bl := Binlog None 0 0 0 0 0 msize 0 (s64 fsize) 0 0 0 true true (path bl) None None None in
  let meta := (printf_str p +:+ ".meta")%string in
  let save := (printf_str p +:+ ".save")%string in
  if Z.of_nat (String.length meta) <? 15 then (None, w) else
  if Z.of_nat (String.length save) <? 15 then (None, w) else
  let bl := with_paths (path bl) (Some meta) (Some save) bl in
  (Some bl, if bool_decide (is_Some (path bl)) && has_flag flags BINLOG_UNLINK
            then sys_unlink (path bl) w else w).

(** shared/binlog.c:360-373 binlog_num_entries *)
Definition binlog_num_entries (bl : binlog) : Z :=
  let entries :=
    if negb (file_size bl =? 0) && (file_read_pos bl <? file_size bl) then file_entries bl else 0 in
  if bool_decide (is_Some (cache bl)) && (read_index bl <? write_index bl)
  then entries +u (write_index bl -u read_index bl) else entries.

(** shared/binlog.c:375-395 binlog_open *)
Definition binlog_open (bl : binlog) (w : world) : Z * binlog * world :=
  match fd bl with
  | Some f => (Z.of_nat (of_ino f), bl, w)
  | None =>
      match path bl with
      | None => (BINLOG_ENOPATH, bl, w)
      | Some p =>
          let bl := if negb (binlog_is_valid bl) then with_file (file_entries bl) 0 0 0 bl else bl in
          let '(o, w) := if negb (binlog_is_valid bl) then sys_open p false true w
                         else sys_open p true false w in
          match o with
          | None => (-1, with_fd None bl, w)
          | Some f => (0, with_fd (Some f) bl, w)
          end
      end
  end.

(** shared/binlog.c:397-405 binlog_grow -- the new slots are not initialised in C and
    are written before they are read. *)
Definition binlog_grow (bl : binlog) (w : world) : Z * binlog * world :=
  let n := u32 (u32 ((alloc bl + 16) * 3) / 2) in
  let bl := with_alloc n bl in
  let '(ok, w) := sys_alloc w in
  if negb ok then (-1, with_cache None bl, w)
  else
    let old := default [] (cache bl) in
    (0, with_cache (Some (take (Z.to_nat n) old ++ replicate (Z.to_nat n - length old) None)) bl, w).

Definition sizeof_binlog_entry : Z := 16.

(** shared/binlog.c:21-21 entry_size *)
Definition entry_size (e : binlog_entry) : Z := e_size e + sizeof_binlog_entry.

Definition cache_set (i : Z) (e : option binlog_entry) (bl : binlog) : binlog :=
  with_cache (match cache bl with
              | Some c => Some (<[Z.to_nat i := e]> c)
              | None => None end) bl.

Definition cache_get (i : Z) (bl : binlog) : option binlog_entry :=
  match cache bl with
  | Some c => match c !! Z.to_nat i with Some e => e | None => None end
  | None => None
  end.

(** shared/binlog.c:407-431 binlog_mem_add *)
Definition binlog_mem_add (bl : binlog) (buf : list byte) (len : Z) (w : world) :
    Z * binlog * world :=
  let '(r, bl, w) := if alloc bl <=? write_index bl then binlog_grow bl w else (0, bl, w) in
  if r <? 0 then (BINLOG_EDROPPED, bl, w) else
  let '(ok, w) := sys_alloc w in
  if negb ok then (BINLOG_EDROPPED, bl, w) else
  let '(ok, w) := sys_alloc w in
  if negb ok then (BINLOG_EDROPPED, bl, w) else
  let e := Entry len buf in
  let bl := cache_set (write_index bl) (Some e) bl in
  let bl := with_index (write_index bl +u 1) (read_index bl) bl in
  let bl := with_mem (mem_size bl +u entry_size e) (mem_avail bl +u len) bl in
  (0, bl, w).

(** shared/binlog.c:433-453 binlog_file_add *)
Definition binlog_file_add (bl : binlog) (buf : list byte) (len : Z) (w : world) :
    Z * binlog * world :=
  if max_file_size bl <? file_size bl + len then (BINLOG_ENOSPC, bl, w) else
  let '(ret, bl, w) := binlog_open bl w in
  if ret <? 0 then (ret, bl, w) else
  let '(ret, bl, w) := safe_write bl (le_split 4 len) w in
  if negb (ret =? 0) then (ret, bl, w) else
  let '(ret, bl, w) := safe_write bl buf w in
  let bl := with_file (file_entries bl +u 1) (file_size bl + (len + 4)) (file_read_pos bl)
              (file_write_pos bl) bl in
  (ret, bl, w).

(** shared/binlog.c:455-476 binlog_add -- [buf] is the [len] bytes at the pointer. *)
Definition binlog_add (bl : binlog) (buf : list byte) (len : Z) (w : world) : Z * binlog * world :=
  if negb (binlog_is_valid bl) then (BINLOG_EINVALID, bl, w) else
  if bool_decide (fd bl = None) && (mem_size bl +u len <? max_mem_size bl)
  then binlog_mem_add bl buf len w
  else binlog_file_add bl buf len w.

(** shared/binlog.c:188-219 binlog_file_read -- [len0] is what [*len] held; a short
    read of the length leaves its other bytes alone.  The result holds the code,
    the bytes read into the new buffer and the length announced. *)
Definition binlog_file_read (bl : binlog) (len0 : Z) (w : world) :
    Z * option (list byte) * Z * binlog * world :=
  if file_size bl <=? file_read_pos bl then
    let bl := binlog_close bl in
    let bl := with_file 0 0 0 0 bl in
    (BINLOG_EMPTY, None, len0, bl, sys_unlink (path bl) w)
  else
    match fd bl with
    | None => (-1, None, len0, bl, w)
    | Some f =>
        let f := seek_set f (file_read_pos bl) in
        let '(r, f, w) := sys_read f 4 w in
        let bl := with_fd (Some f) bl in
        match r with
        | None => (-1, None, len0, bl, w)
        | Some hd =>
            let len := le_combine (hd ++ drop (length hd) (le_split 4 len0)) in
            let '(ok, w) := sys_alloc w in
            if negb ok then (-1, None, len, bl, w) else
            let '(r, f, w) := sys_read f (Z.to_nat len) w in
            let bl := with_fd (Some f) bl in
            match r with
            | None => (-1, Some [], len, bl, w)
            | Some buf =>
                (0, Some buf, len,
                 with_file (file_entries bl -u 1) (file_size bl) (of_pos f) (file_write_pos bl) bl, w)
            end
        end
    end.

(** shared/binlog.c:221-255 binlog_mem_read *)
Definition binlog_mem_read (bl : binlog) (len0 : Z) : Z * option (list byte) * Z * binlog :=
  if bool_decide (cache bl = None) || (write_index bl <=? read_index bl) then
    (BINLOG_EMPTY, None, len0, with_index 0 0 bl)
  else
    match cache_get (read_index bl) bl with
    | None => (BINLOG_EINVALID, None, len0, with_index 0 0 bl)
    | Some e =>
        let len := e_size e in
        let bl := with_mem (mem_size bl) (mem_avail bl -u len) bl in
        let bl := cache_set (read_index bl) None bl in
        let bl := with_index (write_index bl) (read_index bl +u 1) bl in
        let bl := if write_index bl <=? read_index bl
                  then with_mem (mem_size bl) 0 (with_index 0 0 bl) else bl in
        (0, Some (e_data e), len, bl)
    end.

(** shared/binlog.c:257-277 binlog_read *)
Definition binlog_read (bl : binlog) (len0 : Z) (w : world) :
    Z * option (list byte) * Z * binlog * world :=
  if negb (binlog_is_valid bl) then (BINLOG_EINVALID, None, len0, bl, w) else
  let '(r, buf, len, bl) := binlog_mem_read bl len0 in
  if r =? 0 then (0, buf, len, bl, w) else binlog_file_read bl len w.

(** shared/binlog.c:283-288 binlog_file_unread *)
Definition binlog_file_unread (bl : binlog) (len : Z) : binlog :=
  with_file (file_entries bl +u 1) (file_size bl) (file_read_pos bl - len) (file_write_pos bl) bl.

(** shared/binlog.c:294-335 binlog_mem_unread *)
Definition binlog_mem_unread (bl : binlog) (buf : list byte) (len : Z) (w : world) :
    Z * binlog * world :=
  if bool_decide (cache bl = None) || negb (binlog_is_valid bl) then (BINLOG_EDROPPED, bl, w) else
  if (read_index bl =? 0) && (write_index bl =? 1) then (BINLOG_EDROPPED, bl, w) else
  let '(ok, w) := sys_alloc w in
  if negb ok then (BINLOG_EDROPPED, bl, w) else
  let bl := with_mem (mem_size bl) (mem_avail bl +u len) bl in
  let e := Some (Entry len buf) in
  if read_index bl =? 0 then
    let bl := cache_set (read_index bl) e bl in
    (0, with_index 1 (read_index bl) bl, w)
  else
    let bl := with_index (write_index bl) (read_index bl -u 1) bl in
    (0, cache_set (read_index bl) e bl, w).

(** shared/binlog.c:337-358 binlog_unread *)
Definition binlog_unread (bl : binlog) (buf : list byte) (len : Z) (w : world) :
    Z * binlog * world :=
  if len =? 0 then (BINLOG_EADDRESS, bl, w) else
  if binlog_num_entries bl =? 0 then binlog_add bl buf len w else
  let bl := if len <=? file_read_pos bl then binlog_file_unread bl len else bl in
  binlog_mem_unread bl buf len w.

(** shared/binlog.c:499-504 binlog_flush -- the while loop; the fuel is the number of
    slots between the two indices, each turn advancing the read index. *)
Fixpoint flush_loop (fuel : nat) (bl : binlog) (w : world) : binlog * world :=
  match fuel with
  | O => (bl, w)
  | S fuel =>
      if read_index bl <? write_index bl then
        let e := cache_get (read_index bl) bl in
        let bl := with_index (write_index bl) (read_index bl +u 1) bl in
        let '(bl, w) :=
          match e with
          | Some e => let '(_, bl, w) := binlog_file_add bl (e_data e) (e_size e) w in (bl, w)
          | None => (bl, w)
          end in
        flush_loop fuel bl w
      else (bl, w)
  end.

(** shared/binlog.c:493-511 binlog_flush *)
Definition binlog_flush (bl : binlog) (w : world) : binlog * world :=
  let '(bl, w) :=
    if bool_decide (is_Some (cache bl)) then
      let '(bl, w) := flush_loop (Z.to_nat (write_index bl - read_index bl)) bl w in
      (with_cache None bl, w)
    else (bl, w) in
  (with_alloc 0 (with_index 0 0 (with_mem 0 (mem_avail bl) bl)), w).

(** shared/binlog.c:119-163 binlog_wipe *)
Definition binlog_wipe (bl : binlog) (flags : Z) (w : world) : binlog * world :=
  let msize := max_mem_size bl in
  let fsize := max_file_size bl in
  let p := path bl in
  let '(bl, w) := if negb (has_flag flags BINLOG_UNLINK) then binlog_flush bl w else (bl, w) in
  let bl := binlog_close bl in
  let w := if negb (has_flag flags BINLOG_UNLINK) || (file_read_pos bl =? file_write_pos bl)
           then sys_unlink (path bl) w else w in
  (Binlog None 0 0 0 0 0 msize 0 fsize 0 0 0 true false p None None None, w).

(** shared/binlog.c:165-186 binlog_destroy -- what is left is the file system. *)
Definition binlog_destroy (bl : binlog) (flags : Z) (w : world) : world :=
  let '(_, w) := binlog_wipe bl flags w in w.

(** shared/binlog.c:513-516 binlog_msize *)
Definition binlog_msize (bl : binlog) : Z := mem_size bl.

(** shared/binlog.c:518-521 binlog_fsize *)
Definition binlog_fsize (bl : binlog) : Z := u32 (file_size bl).

(** shared/binlog.c:523-526 binlog_size *)
Definition binlog_size (bl : binlog) : Z := binlog_fsize bl +u binlog_msize bl.

(** shared/binlog.c:528-534 binlog_available *)
Definition binlog_available (bl : binlog) : Z :=
  u32 ((file_size bl - file_read_pos bl) + mem_avail bl).

(** shared/binlog.c:536-549 binlog_write_file_metadata *)
Definition binlog_write_file_metadata (bl : binlog) (w : world) : Z * binlog * world :=
  let '(bl, w) := binlog_flush bl w in
  match file_metadata_path bl with
  | None => (-1, bl, w)
  | Some m =>
      let '(o, w) := sys_open m false true w in
      match o with
      | None => (-1, bl, w)
      | Some f => (0, bl, set_data (of_ino f) (FMeta bl) w)
      end
  end.

(** shared/binlog.c:608-618 binlog_save *)
Definition binlog_save (bl : binlog) (w : world) : Z * binlog * world :=
  if 0 <? binlog_num_entries bl then
    let '(r, bl, w) := binlog_write_file_metadata bl w in
    if negb (r =? 0) then (-1, bl, w) else
    let '(ok, w) := sys_rename (path bl) (file_save_path bl) w in
    (if ok then 0 else -1, bl, w)
  else (0, bl, w).

(** shared/binlog.c:551-606 binlog_get_saved *)
Definition binlog_get_saved (node_binlog : binlog) (w : world) : option binlog * world :=
  let meta := file_metadata_path node_binlog in
  let save := file_save_path node_binlog in
  if negb (file_exists meta w) then (None, w) else
  if negb (file_exists save w) then (None, sys_unlink meta w) else
  let '(flt, w) := pop_fault w in
  match flt, meta with
  | FOk, Some m =>
      let '(ok, w) := sys_alloc w in
      if negb ok then (None, w) else
      match w_dir w !! m ≫= (fun ino => w_data w !! ino) with
      | Some (FMeta bl) =>
          let bl := with_paths save meta (file_save_path bl) bl in
          let bl := with_fd None bl in
          let '(ret, bl, w) := binlog_open bl w in
          if ret <? 0 then (None, binlog_destroy bl BINLOG_UNLINK w)
          else (Some bl, sys_unlink meta w)
      | _ => (None, sys_unlink meta (sys_unlink save w))
      end
  | _, _ => (None, w)
  end.

(** ** What a log stands for *)

(** Events are shorter than 2 GiB: the largest one the protocol can carry is
    [MAX_PKT_SIZE], 128 KiB and a header. *)
Definition ev_ok (d : list byte) : Prop := Z.of_nat (length d) < 2 ^ 31.

Definition ent (d : list byte) : binlog_entry := Entry (Z.of_nat (length d)) d.

Definition enc_entry (d : list byte) : list byte := le_split 4 (Z.of_nat (length d)) ++ d.

Definition enc_entries (q : list (list byte)) : list byte := concat (enc_entry <$> q).

(** The memory part: the slots between the indices hold the events [mq].  The
    bounds keep the 32-bit counters from wrapping. *)
Record mem_repr (bl : binlog) (mq : list (list byte)) : Prop := MemRepr {
  mr_read : 0 <= read_index bl;
  mr_write : write_index bl = read_index bl + Z.of_nat (length mq);
  mr_cache : match cache bl with
             | None => mq = [] /\ read_index bl = 0 /\ alloc bl = 0
             | Some c => Z.of_nat (length c) = alloc bl /\ write_index bl <= alloc bl /\
                 forall i d, mq !! i = Some d ->
                   c !! (Z.to_nat (read_index bl) + i)%nat = Some (Some (ent d))
             end;
  mr_alloc : alloc bl <= 2 ^ 30;
  mr_max : 0 <= max_mem_size bl <= 2 ^ 31 - 16;
  mr_size : 0 <= mem_size bl <= max_mem_size bl + 15;
  mr_index : 16 * write_index bl <= mem_size bl + 16 }.

(** The file part: from the read position on, the file holds the encoding of [fq];
    without an open file there is none on disk either. *)
Record file_repr (bl : binlog) (w : world) (fq : list (list byte)) : Prop := FileRepr {
  fr_path : exists p, path bl = Some p /\
    match fd bl with
    | None => fq = [] /\ file_size bl = 0 /\ file_read_pos bl = 0 /\ w_dir w !! p = None
    | Some f => of_append f = true /\ w_dir w !! p = Some (of_ino f) /\
        exists pre, w_data w !! of_ino f = Some (FBytes (pre ++ enc_entries fq)) /\
          Z.of_nat (length pre) = file_read_pos bl /\
          file_size bl = Z.of_nat (length (pre ++ enc_entries fq))
    end;
  fr_entries : file_entries bl = u32 (Z.of_nat (length fq));
  fr_small : Forall ev_ok fq }.

(** The log holds the events of [mq], then those of [fq]; no failure is pending. *)
Record binlog_repr (bl : binlog) (w : world) (mq fq : list (list byte)) : Prop := BinlogRepr {
  br_valid : is_valid bl = true;
  br_mem : mem_repr bl mq;
  br_file : file_repr bl w fq;
  br_msmall : Forall ev_ok mq;
  br_faults : w_faults w = [] }.

(** A file system without hard links, whose inode counter is ahead of all entries. *)
Definition world_ok (w : world) : Prop :=
  (forall p i, w_dir w !! p = Some i -> (i < w_next w)%nat) /\
  (forall p q i, w_dir w !! p = Some i -> w_dir w !! q = Some i -> p = q).

(** ** The system calls without failures *)

Lemma world_ok_set_data ino c w : world_ok w -> world_ok (set_data ino c w).
Proof. done. Qed.

Lemma world_ok_create p c w :
  world_ok w ->
  world_ok (World (<[p := w_next w]> (w_dir w)) (<[w_next w := c]> (w_data w)) (S (w_next w)) (w_faults w)).
Proof.
  intros [Hlt Hinj]. split; cbn.
  - intros q i. rewrite lookup_insert. case_decide; [intros [= <-]; lia|].
    intros Hq%Hlt. lia.
  - intros q q' i. rewrite !lookup_insert. repeat case_decide; intros; simplify_eq; try done.
    + by match goal with H : w_dir w !! _ = Some (w_next w) |- _ => apply Hlt in H; lia end.
    + by match goal with H : w_dir w !! _ = Some (w_next w) |- _ => apply Hlt in H; lia end.
    + by eapply Hinj.
Qed.

Lemma pop_fault_ok w : w_faults w = [] -> pop_fault w = (FOk, w).
Proof. intros H. unfold pop_fault. by rewrite H. Qed.

Lemma sys_alloc_ok w : w_faults w = [] -> sys_alloc w = (true, w).
Proof. intros H. unfold sys_alloc. by rewrite pop_fault_ok. Qed.

Lemma file_bytes_data w ino l : w_data w !! ino = Some (FBytes l) -> file_bytes w ino = l.
Proof. intros H. unfold file_bytes. by rewrite H. Qed.

Lemma sys_write_append f buf w l :
  w_faults w = [] -> of_append f = true -> w_data w !! of_ino f = Some (FBytes l) ->
  sys_write f buf w =
    (Z.of_nat (length buf), OFile (of_ino f) (Z.of_nat (length (l ++ buf))) true,
     set_data (of_ino f) (FBytes (l ++ buf)) w).
Proof.
  intros Hf Ha Hd. unfold sys_write. rewrite pop_fault_ok, Ha by done.
  rewrite (file_bytes_data w _ l) by done.
  rewrite take_ge, Nat.sub_diag, drop_ge, app_nil_r, length_app by lia. done.
Qed.

Lemma sys_read_ok f n w l :
  w_faults w = [] -> w_data w !! of_ino f = Some (FBytes l) ->
  sys_read f n w =
    (Some (take n (drop (Z.to_nat (of_pos f)) l)),
     OFile (of_ino f) (of_pos f + Z.of_nat (length (take n (drop (Z.to_nat (of_pos f)) l))))
       (of_append f), w).
Proof.
  intros Hf Hd. unfold sys_read. rewrite pop_fault_ok by done. by rewrite (file_bytes_data w _ l).
Qed.

Lemma safe_write_ok bl buf w f l :
  w_faults w = [] -> fd bl = Some f -> of_append f = true ->
  w_data w !! of_ino f = Some (FBytes l) ->
  exists g, of_ino g = of_ino f /\ of_append g = true /\
    safe_write bl buf w =
      (0, with_file (file_entries bl) (file_size bl) (file_read_pos bl)
            (Z.of_nat (length (l ++ buf))) (with_fd (Some g) bl),
       set_data (of_ino f) (FBytes (l ++ buf)) w).
Proof.
  intros Hw Hfd Ha Hd. unfold safe_write. rewrite Hfd.
  exists (OFile (of_ino f) (Z.of_nat (length (l ++ buf))) true). split_and!; [done..|].
  assert (forall h, of_ino h = of_ino f -> of_append h = true ->
    sys_write h buf w = (Z.of_nat (length buf),
      OFile (of_ino f) (Z.of_nat (length (l ++ buf))) true,
      set_data (of_ino f) (FBytes (l ++ buf)) w)) as Hh.
  { intros h Hi Hh. rewrite <- Hi in Hd |- *. by apply sys_write_append. }
  rewrite Hh by (destruct (negb _); done). by rewrite Z.eqb_refl.
Qed.

(** ** Encodings *)

Lemma len_roundtrip n : 0 <= n < 2 ^ 32 -> le_combine (le_split 4 n) = n.
Proof. intros. rewrite le_combine_split. by apply Z.mod_small. Qed.

Lemma enc_entries_app q q' : enc_entries (q ++ q') = enc_entries q ++ enc_entries q'.
Proof. unfold enc_entries. by rewrite fmap_app, concat_app. Qed.

Lemma enc_entries_one d : enc_entries [d] = enc_entry d.
Proof. unfold enc_entries. simpl. by rewrite app_nil_r. Qed.

Lemma enc_entries_cons d q : enc_entries (d :: q) = enc_entry d ++ enc_entries q.
Proof. done. Qed.

Lemma length_enc_entry d : length (enc_entry d) = (4 + length d)%nat.
Proof. unfold enc_entry. by rewrite length_app, length_le_split. Qed.

Lemma enc_entries_nil_inv q : length (enc_entries q) = 0%nat -> q = [].
Proof.
  destruct q as [|d q]; [done|]. rewrite enc_entries_cons, length_app, length_enc_entry. lia.
Qed.

(** ** Adding *)

(** The fields the file operations leave alone. *)
Definition mem_part (bl : binlog) :=
  (cache bl, write_index bl, read_index bl, alloc bl, mem_size bl, max_mem_size bl, mem_avail bl,
   is_valid bl, path bl, max_file_size bl, file_metadata_path bl, file_save_path bl).

Lemma mem_repr_same bl bl' mq : mem_part bl' = mem_part bl -> mem_repr bl mq -> mem_repr bl' mq.
Proof.
  unfold mem_part. intros H [? ? Hc ? ? ? ?]. simplify_eq.
  constructor; destruct bl, bl'; cbn in *; simplify_eq; done.
Qed.

Lemma open_repr bl w fq :
  file_repr bl w fq -> is_valid bl = true -> w_faults w = [] ->
  exists r bl' w' f, binlog_open bl w = (r, bl', w') /\ 0 <= r /\ file_repr bl' w' fq /\
    fd bl' = Some f /\ mem_part bl' = mem_part bl /\ file_size bl' = file_size bl /\ w_faults w' = [] /\
    (world_ok w -> world_ok w').
Proof.
  intros [(p & Hp & Hfd) He Hs] Hv Hw. unfold binlog_open.
  destruct (fd bl) as [f|] eqn:Hf.
  - exists (Z.of_nat (of_ino f)), bl, w, f. split_and!; auto; [lia|].
    split; eauto. exists p. by rewrite Hf.
  - destruct Hfd as (-> & Hsz & Hrp & Hdir). rewrite Hp. unfold binlog_is_valid. rewrite Hv. cbn [negb].
    rewrite Hv. cbn [negb]. unfold sys_open. rewrite pop_fault_ok, Hdir by done.
    eexists 0, _, _, _. split_and!; try done; try lia; [|by apply world_ok_create]. split; [|done..].
    exists p. split; [done|]. cbn. split; [done|]. rewrite lookup_insert_eq. split; [done|].
    exists []. rewrite lookup_insert_eq. auto.
Qed.

Lemma write2_repr bl w fq f buf :
  file_repr bl w fq -> w_faults w = [] -> fd bl = Some f -> ev_ok buf ->
  exists bl' w',
    (let '(ret, bl, w) := safe_write bl (le_split 4 (Z.of_nat (length buf))) w in
     if negb (ret =? 0) then (ret, bl, w) else
     let '(ret, bl, w) := safe_write bl buf w in
     (ret, with_file (file_entries bl +u 1) (file_size bl + (Z.of_nat (length buf) + 4))
             (file_read_pos bl) (file_write_pos bl) bl, w)) = (0, bl', w') /\
    file_repr bl' w' (fq ++ [buf]) /\ mem_part bl' = mem_part bl /\ w_faults w' = [] /\
    is_Some (fd bl') /\ file_size bl' = file_size bl + (Z.of_nat (length buf) + 4) /\
    (world_ok w -> world_ok w').
Proof.
  intros [(p & Hp & Hfd) He Hs] Hw Hf Hok. rewrite Hf in Hfd.
  destruct Hfd as (Ha & Hdir & pre & Hd & Hpre & Hsz).
  destruct (safe_write_ok bl (le_split 4 (Z.of_nat (length buf))) w f _ Hw Hf Ha Hd)
    as (g & Hg & Hga & ->). cbn [Z.eqb negb].
  edestruct (safe_write_ok (with_file (file_entries bl) (file_size bl) (file_read_pos bl)
     (Z.of_nat (length ((pre ++ enc_entries fq) ++ le_split 4 (Z.of_nat (length buf)))))
     (with_fd (Some g) bl)) buf
     (set_data (of_ino f) (FBytes ((pre ++ enc_entries fq) ++ le_split 4 (Z.of_nat (length buf)))) w))
    as (g' & Hg' & Hga' & ->); [done|done|done|cbn; rewrite Hg; apply lookup_insert_eq|].
  eexists _, _. split; [done|]. split_and!; [|done|done|by eexists|done|done].
  split; cbn.
  - exists p. split; [done|]. split; [done|]. split; [by rewrite Hg', Hg|].
    exists pre. rewrite Hg', Hg, lookup_insert_eq, enc_entries_app, enc_entries_one.
    unfold enc_entry. rewrite !app_assoc. split_and!; [done|done|].
    rewrite Hsz, !length_app, length_le_split. lia.
  - rewrite He, u32_add_l, length_app. f_equal. simpl. lia.
  - apply Forall_app. auto.
Qed.

Lemma file_add_repr bl w fq buf :
  file_repr bl w fq -> is_valid bl = true -> w_faults w = [] -> ev_ok buf ->
  file_size bl + Z.of_nat (length buf) <= max_file_size bl ->
  exists bl' w',
    binlog_file_add bl buf (Z.of_nat (length buf)) w = (0, bl', w') /\
    file_repr bl' w' (fq ++ [buf]) /\ mem_part bl' = mem_part bl /\ w_faults w' = [] /\
    is_Some (fd bl') /\ file_size bl' = file_size bl + (Z.of_nat (length buf) + 4) /\
    (world_ok w -> world_ok w').
Proof.
  intros Hr Hv Hw Hok Hsz. unfold binlog_file_add.
  rewrite (proj2 (Z.ltb_ge _ _)) by lia.
  destruct (open_repr bl w fq Hr Hv Hw) as (r & bl1 & w1 & f & -> & Hr0 & Hfr & Hf & Hm & Hs1 & Hw1 & Hk1).
  rewrite (proj2 (Z.ltb_ge r 0)) by lia.
  destruct (write2_repr bl1 w1 fq f buf Hfr Hw1 Hf Hok) as (bl2 & w2 & E & Hfr2 & Hm2 & Hw2 & Hf2 & Hs2 & Hk2).
  exists bl2, w2. split; [exact E|]. split_and!; auto; congruence.
Qed.

Lemma grow_alloc bl :
  0 <= alloc bl <= 2 ^ 28 ->
  u32 (u32 ((alloc bl + 16) * 3) / 2) = (alloc bl + 16) * 3 / 2 /\
  alloc bl + 16 <= (alloc bl + 16) * 3 / 2 <= 2 ^ 30.
Proof.
  intros Ha. rewrite (u32_small ((alloc bl + 16) * 3)) by lia.
  assert (alloc bl + 16 <= (alloc bl + 16) * 3 / 2 <= 2 ^ 30) by
    (pose proof (Z.div_mod ((alloc bl + 16) * 3) 2 ltac:(lia));
     pose proof (Z.mod_pos_bound ((alloc bl + 16) * 3) 2 ltac:(lia)); lia).
  rewrite u32_small by lia. auto.
Qed.

(** Projections of updated records. *)
Ltac bl_simpl := cbn [cache write_index read_index file_entries alloc mem_size max_mem_size
  mem_avail max_file_size file_size file_read_pos file_write_pos is_valid should_warn_if_full path
  file_metadata_path file_save_path fd with_cache with_index with_alloc with_mem with_file with_fd
  with_valid with_paths].

(** The fields the memory operations leave alone. *)
Definition file_part (bl : binlog) :=
  (file_entries bl, file_size bl, file_read_pos bl, fd bl, path bl, max_file_size bl, is_valid bl,
   file_metadata_path bl, file_save_path bl).

Lemma file_repr_same bl bl' w fq :
  file_part bl' = file_part bl -> file_repr bl w fq -> file_repr bl' w fq.
Proof.
  unfold file_part. intros H [Hp He Hs]. destruct bl, bl'; cbn in *; simplify_eq.
  by constructor.
Qed.

Lemma mem_room bl w mq :
  mem_repr bl mq -> w_faults w = [] -> mem_size bl <= 2 ^ 31 ->
  exists bl1 c, (if alloc bl <=? write_index bl then binlog_grow bl w else (0, bl, w)) = (0, bl1, w) /\
    mem_repr bl1 mq /\ cache bl1 = Some c /\ (Z.to_nat (write_index bl1) < length c)%nat /\
    file_part bl1 = file_part bl /\ mem_size bl1 = mem_size bl /\ max_mem_size bl1 = max_mem_size bl.
Proof.
  intros [Hr Hwi Hc Ha Hmax Hsz Hidx] Hw Hm.
  assert (0 <= alloc bl /\ write_index bl <= alloc bl) as [Ha0 Hwa]
    by (destruct (cache bl); [lia|destruct Hc as (-> & ? & ?); simpl in *; lia]).
  destruct (alloc bl <=? write_index bl) eqn:Hle.
  - apply Z.leb_le in Hle. unfold binlog_grow.
    destruct (grow_alloc bl) as [-> [Hlo Hhi]]; [lia|]. rewrite sys_alloc_ok by done. cbn [negb].
    set (n := (alloc bl + 16) * 3 / 2) in *.
    set (c := default [] (cache bl)).
    assert (Z.of_nat (length c) = alloc bl) as Hlen.
    { subst c. destruct (cache bl); cbn; [by destruct Hc as [? _]|by destruct Hc as (_ & _ & ->)]. }
    eexists _, _. split; [reflexivity|]. bl_simpl.
    assert (length (take (Z.to_nat n) c ++ replicate (Z.to_nat n - length c) None) = Z.to_nat n) as Hn
      by (rewrite length_app, length_take, length_replicate; lia).
    split_and!; try done; [|bl_simpl; fold c; rewrite Hn; lia].
    constructor; bl_simpl; try done. fold c. split_and!; [rewrite Hn; lia|lia|].
    intros i d Hi. subst c. destruct (cache bl) as [c|]; cbn in *; [|by destruct Hc as [-> _]].
    destruct Hc as (_ & _ & Hc). rewrite lookup_app_l.
    + rewrite lookup_take_lt; [by apply Hc|]. apply lookup_lt_Some in Hi. lia.
    + apply lookup_lt_Some in Hi. rewrite length_take. lia.
  - apply Z.leb_gt in Hle. destruct (cache bl) as [c|] eqn:Hcc; [|lia].
    exists bl, c. split; [done|]. split_and!; try done; [|lia].
    constructor; try done. by rewrite Hcc.
Qed.

Lemma mem_add_repr bl w mq buf :
  mem_repr bl mq -> w_faults w = [] -> ev_ok buf ->
  mem_size bl + Z.of_nat (length buf) < max_mem_size bl ->
  exists bl', binlog_mem_add bl buf (Z.of_nat (length buf)) w = (0, bl', w) /\
    mem_repr bl' (mq ++ [buf]) /\ file_part bl' = file_part bl.
Proof.
  intros Hm Hw Hok Hfit. unfold binlog_mem_add.
  destruct (mem_room bl w mq Hm Hw) as (bl1 & c & -> & Hm1 & Hc1 & Hlt & Hf1 & Hs1 & Hx1);
    [pose proof (mr_max _ _ Hm); lia|].
  cbn [Z.ltb Z.compare]. rewrite !sys_alloc_ok by done. cbn [negb].
  destruct Hm1 as [Hr Hwi Hc Ha Hmax Hsz Hidx]. rewrite Hc1 in Hc. destruct Hc as (Hal & Hwa & Hc).
  unfold cache_set. rewrite Hc1. eexists. split; [reflexivity|].
  split; [|destruct bl1; cbn in *; by rewrite <- Hf1].
  rewrite <- Hs1, <- Hx1 in Hfit. unfold ev_ok in Hok.
  assert (write_index bl1 +u 1 = write_index bl1 + 1) as Hw1 by (apply u32_small; lia).
  constructor; bl_simpl; rewrite ?Hw1, ?length_app, ?length_insert; cbn [length]; try done.
  - lia.
  - split_and!; [lia|lia|]. intros i d Hi.
    destruct (decide (i = length mq)) as [->|Hne].
    + rewrite list_lookup_middle in Hi by done. simplify_eq.
      replace (Z.to_nat (read_index bl1) + length mq)%nat with (Z.to_nat (write_index bl1)) by lia.
      by rewrite list_lookup_insert_eq.
    + apply lookup_snoc_Some in Hi as [[Hi Hl]|[? _]]; [|lia].
      rewrite list_lookup_insert_ne by lia. by apply Hc.
  - unfold entry_size, sizeof_binlog_entry. cbn. rewrite u32_small by lia. lia.
  - unfold entry_size, sizeof_binlog_entry. cbn. rewrite u32_small by lia. lia.
Qed.

(** Adding an event: it goes to the end of the queue, or the log is full and
    nothing changes. *)
Lemma add_repr bl w mq fq buf :
  binlog_repr bl w mq fq -> ev_ok buf ->
  let '(r, bl', w') := binlog_add bl buf (Z.of_nat (length buf)) w in
  r = 0 /\ (exists mq' fq', binlog_repr bl' w' mq' fq' /\ mq' ++ fq' = (mq ++ fq) ++ [buf]) \/
  r = BINLOG_ENOSPC /\ bl' = bl /\ w' = w /\
    max_file_size bl < file_size bl + Z.of_nat (length buf) /\
    (fd bl = None -> max_mem_size bl <= mem_size bl + Z.of_nat (length buf)).
Proof.
  intros [Hv Hm Hf Hs Hw] Hok. unfold binlog_add, binlog_is_valid. rewrite Hv. cbn [negb].
  pose proof (mr_size _ _ Hm). pose proof (mr_max _ _ Hm).
  rewrite (u32_small (mem_size bl + _)) by (unfold ev_ok in Hok; lia).
  destruct (bool_decide (fd bl = None) && (mem_size bl + Z.of_nat (length buf) <? max_mem_size bl))
    eqn:Hb.
  - apply andb_true_iff in Hb as [Hnone%bool_decide_eq_true Hlt%Z.ltb_lt].
    destruct (mem_add_repr bl w mq buf Hm Hw Hok Hlt) as (bl' & -> & Hm' & Hf').
    left. split; [done|]. exists (mq ++ [buf]), fq.
    assert (fq = []) as ->
      by (destruct Hf as [(p & _ & Hfd) _ _]; rewrite Hnone in Hfd; by destruct Hfd).
    split; [|by rewrite !app_nil_r]. split; [|done| | |done].
    + unfold file_part in Hf'. congruence.
    + by eapply file_repr_same.
    + apply Forall_app. auto.
  - destruct (decide (file_size bl + Z.of_nat (length buf) <= max_file_size bl)) as [Hfit|Hfull].
    + destruct (file_add_repr bl w fq buf Hf Hv Hw Hok Hfit) as (bl' & w' & -> & Hf' & Hm' & Hw' & _).
      left. split; [done|]. exists mq, (fq ++ [buf]). split; [|by rewrite app_assoc].
      split; [|by eapply mem_repr_same|done..]. unfold mem_part in Hm'. congruence.
    + unfold binlog_file_add. rewrite (proj2 (Z.ltb_lt _ _)) by lia. right.
      split_and!; [done..|lia|]. intros Hnone.
      rewrite bool_decide_eq_true_2 in Hb by done. cbn in Hb. lia.
Qed.

(** ** Reading *)

Lemma mem_read_nil bl len0 :
  mem_repr bl [] -> exists bl', binlog_mem_read bl len0 = (BINLOG_EMPTY, None, len0, bl') /\
    mem_repr bl' [] /\ file_part bl' = file_part bl.
Proof.
  intros [Hr Hwi Hc Ha Hmax Hsz Hidx]. unfold binlog_mem_read. cbn in Hwi.
  rewrite (proj2 (Z.leb_le (write_index bl) (read_index bl))), orb_true_r by lia.
  eexists. split; [done|]. split; [|done].
  constructor; bl_simpl; try done; try lia.
  destruct (cache bl); [|by destruct Hc as (_ & _ & ->)].
  destruct Hc as (? & ? & _). split_and!; [done|lia|done].
Qed.

Lemma mem_read_cons bl d mq len0 :
  mem_repr bl (d :: mq) -> ev_ok d ->
  exists bl', binlog_mem_read bl len0 = (0, Some d, Z.of_nat (length d), bl') /\
    mem_repr bl' mq /\ file_part bl' = file_part bl.
Proof.
  intros [Hr Hwi Hc Ha Hmax Hsz Hidx] Hok. unfold binlog_mem_read. cbn [length] in Hwi.
  destruct (cache bl) as [c|] eqn:Hcc; [|by destruct Hc].
  destruct Hc as (Hal & Hwa & Hc). pose proof (Hc 0%nat d eq_refl) as H0. rewrite Nat.add_0_r in H0.
  rewrite bool_decide_eq_false_2 by done. rewrite (proj2 (Z.leb_gt _ _)) by lia. cbn [orb].
  unfold cache_get, cache_set. rewrite Hcc, H0. bl_simpl. rewrite Hcc.
  rewrite (u32_small (read_index bl + 1)) by lia.
  destruct (write_index bl <=? read_index bl + 1) eqn:Hle; [apply Z.leb_le in Hle|apply Z.leb_gt in Hle].
  - assert (mq = []) as -> by (apply nil_length_inv; lia).
    eexists. split; [done|]. split; [|done]. constructor; bl_simpl; cbn [length]; try done; try lia.
    rewrite length_insert. split_and!; [done|lia|done].
  - eexists. split; [done|]. split; [|done]. constructor; bl_simpl; try done; try lia.
    rewrite length_insert. split_and!; [done|lia|]. intros i d' Hi.
    rewrite list_lookup_insert_ne by lia.
    rewrite <- (Hc (S i) d') by done. f_equal. lia.
Qed.

Lemma file_read_nil bl w len0 :
  file_repr bl w [] -> exists bl', binlog_file_read bl len0 w =
      (BINLOG_EMPTY, None, len0, bl', sys_unlink (path bl) w) /\
    file_repr bl' (sys_unlink (path bl) w) [] /\ mem_part bl' = mem_part bl.
Proof.
  intros [(p & Hp & Hfd) He Hs]. unfold binlog_file_read.
  assert (file_size bl <= file_read_pos bl) as Hle.
  { destruct (fd bl) as [f|]; [|lia]. destruct Hfd as (_ & _ & pre & _ & Hpre & ->).
    unfold enc_entries. simpl. rewrite app_nil_r. lia. }
  rewrite (proj2 (Z.leb_le _ _)) by done.
  exists (with_file 0 0 0 0 (binlog_close bl)). unfold binlog_close.
  destruct (fd bl) eqn:Hf; (split; [done|]); rewrite Hp; (split; [|done]);
    (split; [|done|done]); exists p; bl_simpl; rewrite ?Hf; cbn; rewrite lookup_delete_eq; auto.
Qed.

Lemma file_read_cons bl w d fq len0 :
  file_repr bl w (d :: fq) -> w_faults w = [] ->
  exists bl', binlog_file_read bl len0 w = (0, Some d, Z.of_nat (length d), bl', w) /\
    file_repr bl' w fq /\ mem_part bl' = mem_part bl.
Proof.
  intros [(p & Hp & Hfd) He Hs] Hw. unfold binlog_file_read.
  destruct (fd bl) as [f|]; [|by destruct Hfd]. destruct Hfd as (Ha & Hdir & pre & Hd & Hpre & Hsz).
  apply Forall_cons in Hs as [Hok Hs]. unfold ev_ok in Hok.
  assert (length (enc_entries (d :: fq)) = 4 + length d + length (enc_entries fq))%nat as Hl
    by (rewrite enc_entries_cons, length_app, length_enc_entry; lia).
  rewrite (proj2 (Z.leb_gt _ _)) by (rewrite Hsz, length_app, Hl; lia).
  rewrite (sys_read_ok _ _ w (pre ++ enc_entries (d :: fq))) by done. unfold seek_set. cbn [of_ino of_pos of_append].
  replace (drop (Z.to_nat (file_read_pos bl)) (pre ++ enc_entries (d :: fq)))
    with (enc_entries (d :: fq)) by (rewrite <- Hpre, Nat2Z.id, drop_app_length; done).
  assert (take 4 (enc_entries (d :: fq)) = le_split 4 (Z.of_nat (length d))) as ->.
  { rewrite enc_entries_cons. unfold enc_entry. rewrite <- app_assoc.
    apply take_app_length'. by rewrite length_le_split. }
  cbv zeta. rewrite length_le_split, drop_ge, app_nil_r, len_roundtrip by (rewrite ?length_le_split; lia).
  rewrite sys_alloc_ok by done. cbn [negb]. rewrite Nat2Z.id.
  rewrite (sys_read_ok _ _ w (pre ++ enc_entries (d :: fq))) by done. cbn [of_ino of_pos of_append].
  assert (drop (Z.to_nat (file_read_pos bl + Z.of_nat 4)) (pre ++ enc_entries (d :: fq)) =
    d ++ enc_entries fq) as ->.
  { replace (Z.to_nat (file_read_pos bl + Z.of_nat 4)) with (length pre + 4)%nat by lia.
    rewrite <- drop_drop, drop_app_length, enc_entries_cons. unfold enc_entry. rewrite <- app_assoc.
    apply drop_app_length'. by rewrite length_le_split. }
  rewrite take_app_length. eexists. split; [done|]. split; [|done]. split; bl_simpl; [|..|done].
  - exists p. split; [done|]. split; [done|]. split; [done|].
    exists (pre ++ enc_entry d). cbn [of_ino of_pos].
    rewrite <- app_assoc, <- enc_entries_cons. split_and!; [done| |done].
    rewrite length_app, length_enc_entry. lia.
  - rewrite He. unfold u32. rewrite Zminus_mod_idemp_l. f_equal. cbn [length]. lia.
Qed.

(** Reading takes the oldest event, or reports an empty log. *)
Lemma read_repr bl w mq fq len0 :
  binlog_repr bl w mq fq ->
  let '(r, buf, len, bl', w') := binlog_read bl len0 w in
  exists mq' fq', binlog_repr bl' w' mq' fq' /\
  match mq ++ fq with
  | [] => r = BINLOG_EMPTY /\ mq' ++ fq' = []
  | d :: q => r = 0 /\ buf = Some d /\ len = Z.of_nat (length d) /\ mq' ++ fq' = q
  end.
Proof.
  intros [Hv Hm Hf Hs Hw]. unfold binlog_read, binlog_is_valid. rewrite Hv. cbn [negb].
  destruct mq as [|d mq].
  - destruct (mem_read_nil bl len0 Hm) as (bl1 & -> & Hm1 & Hp1). cbn [Z.eqb BINLOG_EMPTY app].
    apply (file_repr_same bl bl1) in Hf; [|done].
    assert (is_valid bl1 = true) by (unfold file_part in Hp1; congruence).
    destruct fq as [|d fq].
    + destruct (file_read_nil bl1 w len0 Hf) as (bl2 & -> & Hf2 & Hp2).
      exists [], []. split; [|done]. split; [|by eapply mem_repr_same|done..|].
      * unfold mem_part in Hp2. congruence.
      * unfold sys_unlink. by destruct (path bl1).
    + destruct (file_read_cons bl1 w d fq len0 Hf Hw) as (bl2 & -> & Hf2 & Hp2).
      exists [], fq. split; [|done]. split; [|by eapply mem_repr_same|done..].
      unfold mem_part in Hp2. congruence.
  - apply Forall_cons in Hs as [Hok Hs].
    destruct (mem_read_cons bl d mq len0 Hm Hok) as (bl1 & -> & Hm1 & Hp1). cbn [Z.eqb app].
    exists mq, fq. split; [|done]. split; [|done|by eapply file_repr_same|done..].
    unfold file_part in Hp1. congruence.
Qed.

(** The entry counter counts the queue, at the width of the counter. *)
Lemma num_entries_repr bl w mq fq :
  binlog_repr bl w mq fq -> binlog_num_entries bl = u32 (Z.of_nat (length (mq ++ fq))).
Proof.
  intros [Hv [Hr Hwi Hc Ha Hmax Hsz Hidx] [(p & Hp & Hfd) He Hs] Hsm Hw]. unfold binlog_num_entries.
  assert ((if negb (file_size bl =? 0) && (file_read_pos bl <? file_size bl)
           then file_entries bl else 0) = u32 (Z.of_nat (length fq))) as ->.
  { destruct (fd bl) as [f|].
    - destruct Hfd as (_ & _ & pre & _ & Hpre & Hsize). rewrite length_app in Hsize.
      destruct fq as [|d fq].
      + cbn in Hsize. replace (file_read_pos bl <? file_size bl) with false by blia.
        by rewrite andb_false_r.
      + rewrite enc_entries_cons, length_app, length_enc_entry in Hsize.
        replace (file_size bl =? 0) with false by blia.
        replace (file_read_pos bl <? file_size bl) with true by blia. done.
    - destruct Hfd as (-> & -> & -> & _). done. }
  rewrite length_app. destruct (cache bl) as [c|].
  - rewrite bool_decide_eq_true_2 by eauto. cbn [andb]. rewrite Hwi.
    destruct (read_index bl <? read_index bl + Z.of_nat (length mq)) eqn:Hlt.
    + rewrite u32_add_l, u32_add_r. f_equal. lia.
    + replace (length mq) with 0%nat by lia. done.
  - destruct Hc as (-> & _). by rewrite bool_decide_eq_false_2 by (intros [? ?]; done).
Qed.

(** ** Flushing memory to disk *)

Lemma mem_advance bl d mq :
  mem_repr bl (d :: mq) ->
  cache_get (read_index bl) bl = Some (ent d) /\ read_index bl +u 1 = read_index bl + 1 /\
  mem_repr (with_index (write_index bl) (read_index bl + 1) bl) mq.
Proof.
  intros [Hr Hwi Hc Ha Hmax Hsz Hidx]. cbn [length] in Hwi.
  destruct (cache bl) as [c|] eqn:Hcc; [|by destruct Hc]. destruct Hc as (Hal & Hwa & Hc).
  split_and!.
  - unfold cache_get. rewrite Hcc. pose proof (Hc 0%nat d eq_refl) as H0.
    rewrite Nat.add_0_r in H0. by rewrite H0.
  - apply u32_small. lia.
  - constructor; bl_simpl; rewrite ?Hcc; try done; try lia.
    split_and!; [done|lia|]. intros i d' Hi. rewrite <- (Hc (S i) d') by done. f_equal. lia.
Qed.

Definition enc_size (q : list (list byte)) : Z := Z.of_nat (length (enc_entries q)).

Lemma flush_loop_repr mq bl w fq :
  binlog_repr bl w mq fq -> world_ok w -> file_size bl + enc_size mq <= max_file_size bl ->
  exists bl' w', flush_loop (length mq) bl w = (bl', w') /\ binlog_repr bl' w' [] (fq ++ mq) /\
    world_ok w' /\ max_mem_size bl' = max_mem_size bl /\ path bl' = path bl /\
    file_metadata_path bl' = file_metadata_path bl /\ file_save_path bl' = file_save_path bl /\
    (mq <> [] -> is_Some (fd bl')) /\ (mq = [] -> fd bl' = fd bl).
Proof.
  revert bl w fq. induction mq as [|d mq IH]; intros bl w fq Hb Hok Hfit.
  - exists bl, w. rewrite app_nil_r. split_and!; done.
  - destruct Hb as [Hv Hm Hf Hs Hw]. apply Forall_cons in Hs as [Hd Hs].
    destruct (mem_advance bl d mq Hm) as (Hget & Hu & Hm1).
    cbn [flush_loop length]. pose proof (mr_write _ _ Hm) as Hwi. cbn [length] in Hwi.
    rewrite (proj2 (Z.ltb_lt _ _)) by lia. rewrite Hget, Hu. cbn [ent e_data e_size].
    set (bl1 := with_index (write_index bl) (read_index bl + 1) bl) in *.
    unfold enc_size in Hfit. rewrite enc_entries_cons, length_app, length_enc_entry in Hfit.
    destruct (file_add_repr bl1 w fq d) as (bl2 & w2 & -> & Hf2 & Hm2 & Hw2 & Hfd2 & Hsz2 & Hk2);
      [by eapply (file_repr_same bl)|done..|cbn; lia|].
    destruct (IH bl2 w2 (fq ++ [d])) as (bl3 & w3 & -> & Hb3 & Hk3 & Hx3 & Hp3 & Hme3 & Hsa3 & Hfd3 & Hfd3').
    + split; [|by eapply mem_repr_same|done..]. unfold mem_part in Hm2. cbn in Hm2. congruence.
    + auto.
    + unfold enc_size. replace (max_file_size bl2) with (max_file_size bl)
        by (unfold mem_part in Hm2; cbn in Hm2; congruence). rewrite Hsz2. cbn. lia.
    + exists bl3, w3. split; [done|]. rewrite <- app_assoc in Hb3. unfold mem_part in Hm2. cbn in Hm2.
      split_and!; try done; try congruence.
      intros _. destruct mq; [by rewrite Hfd3'|by apply Hfd3].
Qed.

(** Flushing moves the events in memory behind those already on disk. *)
Lemma flush_repr bl w mq fq :
  binlog_repr bl w mq fq -> world_ok w -> file_size bl + enc_size mq <= max_file_size bl ->
  exists bl' w', binlog_flush bl w = (bl', w') /\ binlog_repr bl' w' [] (fq ++ mq) /\
    cache bl' = None /\ world_ok w' /\ path bl' = path bl /\
    file_metadata_path bl' = file_metadata_path bl /\ file_save_path bl' = file_save_path bl /\
    (fq ++ mq <> [] -> is_Some (fd bl')).
Proof.
  intros Hb Hok Hfit. unfold binlog_flush.
  destruct (flush_loop_repr mq bl w fq Hb Hok Hfit) as
    (bl1 & w1 & Hl & Hb1 & Hok1 & Hx1 & Hp1 & Hme1 & Hsa1 & Hfd1 & Hfd1').
  assert (exists bl2, (if bool_decide (is_Some (cache bl))
     then let '(bl, w) := flush_loop (Z.to_nat (write_index bl - read_index bl)) bl w in
          (with_cache None bl, w) else (bl, w)) = (bl2, w1) /\ file_part bl2 = file_part bl1 /\
     max_mem_size bl2 = max_mem_size bl1 /\ cache bl2 = None) as (bl2 & -> & Hfp & Hmx & Hcn).
  { destruct Hb as [_ [_ Hwi Hc _ _ _ _] _ _ _]. destruct (cache bl) as [c|] eqn:Hcc.
    - rewrite bool_decide_eq_true_2 by eauto.
      replace (Z.to_nat (write_index bl - read_index bl)) with (length mq) by lia.
      rewrite Hl. by eexists.
    - destruct Hc as (-> & _). cbn in Hl. simplify_eq.
      rewrite bool_decide_eq_false_2 by (intros [? ?]; done). by eexists. }
  eexists _, _. split; [done|]. unfold file_part in Hfp.
  destruct Hb1 as [Hv1 Hm1 Hf1 Hs1 Hw1]. bl_simpl. split_and!; try done; try congruence.
  - split; bl_simpl; try done; [congruence| |by eapply (file_repr_same bl1); [cbn; unfold file_part; cbn; congruence|]].
    pose proof (mr_max _ _ Hm1). constructor; bl_simpl; rewrite ?Hcn; cbn [length]; try done; lia.
  - intros Hne. replace (fd bl2) with (fd bl1) by congruence.
    destruct mq as [|d mq]; [|by apply Hfd1]. rewrite app_nil_r in Hne.
    rewrite Hfd1' by done. destruct Hb as [_ _ [(p & _ & Hfd) _ _] _ _].
    destruct (fd bl); [eauto|by destruct Hfd].
Qed.

(** ** Saving and restoring *)

Lemma open_meta m w :
  w_faults w = [] -> world_ok w ->
  exists f w', sys_open m false true w = (Some f, w') /\ world_ok w' /\ w_faults w' = [] /\
    w_dir w' !! m = Some (of_ino f) /\
    forall p i, p <> m -> w_dir w !! p = Some i ->
      w_dir w' !! p = Some i /\ w_data w' !! i = w_data w !! i /\ i <> of_ino f.
Proof.
  intros Hw Hok. unfold sys_open. rewrite pop_fault_ok by done.
  destruct (w_dir w !! m) as [j|] eqn:Hm.
  - eexists _, _. split; [done|]. cbn. split_and!; try done. intros p i Hne Hp.
    assert (i <> j) by (intros ->; destruct Hok as [_ Hinj]; by eapply Hne, Hinj).
    by rewrite lookup_insert_ne.
  - eexists _, _. split; [done|]. cbn. rewrite lookup_insert_eq.
    split_and!; try done; [by apply world_ok_create|]. intros p i Hne Hp.
    assert (i <> w_next w) by (apply (proj1 Hok) in Hp; lia).
    by rewrite !lookup_insert_ne by done.
Qed.

Lemma save_repr bl w mq fq p m s :
  binlog_repr bl w mq fq -> world_ok w -> file_size bl + enc_size mq <= max_file_size bl ->
  path bl = Some p -> file_metadata_path bl = Some m -> file_save_path bl = Some s ->
  p <> m -> p <> s -> m <> s -> 0 < Z.of_nat (length (mq ++ fq)) < 2 ^ 32 ->
  exists bl1 bl' w', binlog_save bl w = (0, bl', w') /\ w_faults w' = [] /\
    binlog_repr bl1 w' [] (fq ++ mq) /\ path bl1 = Some s /\ cache bl1 = None /\
    (exists i, w_dir w' !! m = Some i /\ exists q f b, w_data w' !! i =
       Some (FMeta (with_paths q (file_metadata_path b) (file_save_path b) (with_fd f bl1)))).
Proof.
  intros Hb Hok Hfit Hp Hme Hsa Hpm Hps Hms Hn. unfold binlog_save, binlog_write_file_metadata.
  rewrite (num_entries_repr _ _ _ _ Hb), u32_small, (proj2 (Z.ltb_lt _ _)) by lia.
  destruct (flush_repr bl w mq fq Hb Hok Hfit) as (bl1 & w1 & -> & Hb1 & Hc1 & Hok1 & Hp1 & Hme1 & Hsa1 & Hfd1).
  destruct Hfd1 as [f Hfd]; [intros E; rewrite (Permutation_app_comm mq fq), E in Hn; simpl in Hn; lia|].
  rewrite Hme1, Hme. destruct Hb1 as [Hv Hm [(p' & Hp' & Hfile) He Hs] Hsm Hw1].
  rewrite Hfd in Hfile. destruct Hfile as (Ha & Hdir & pre & Hd & Hpre & Hsz).
  assert (p' = p) as -> by congruence.
  destruct (open_meta m w1 Hw1 Hok1) as (g & w2 & -> & Hok2 & Hw2 & Hdm & Hkeep). cbn [Z.eqb negb].
  destruct (Hkeep p (of_ino f) Hpm Hdir) as (Hdir2 & Hd2 & Hne).
  unfold sys_rename. rewrite pop_fault_ok, Hp1, Hp, Hsa1, Hsa by done.
  cbn [set_data w_dir w_data w_next w_faults]. rewrite Hdir2.
  exists (with_paths (Some s) (Some m) (file_save_path bl1) bl1), bl1. eexists. split; [done|].
  cbn [w_dir w_data w_faults]. split; [done|]. split.
  - split; bl_simpl; try done; [by destruct Hm; constructor|].
    split; bl_simpl; try done. exists s. split; [done|]. rewrite Hfd. cbn [w_dir w_data].
    rewrite lookup_insert_eq. split_and!; [done..|]. exists pre.
    rewrite lookup_insert_ne by done. by rewrite Hd2.
  - split_and!; [done..|]. exists (of_ino g). rewrite lookup_insert_ne, lookup_delete_ne by done.
    split; [done|]. exists (path bl1), (fd bl1), bl1. rewrite lookup_insert_eq.
    by destruct bl1.
Qed.

Lemma get_saved_repr bl1 nb w m s q :
  w_faults w = [] -> binlog_repr bl1 w [] q -> path bl1 = Some s -> cache bl1 = None ->
  is_Some (fd bl1) ->
  file_metadata_path nb = Some m -> file_save_path nb = Some s -> m <> s ->
  (exists i, w_dir w !! m = Some i /\ exists p f b, w_data w !! i =
     Some (FMeta (with_paths p (file_metadata_path b) (file_save_path b) (with_fd f bl1)))) ->
  exists bl2 w2, binlog_get_saved nb w = (Some bl2, w2) /\ binlog_repr bl2 w2 [] q /\
    w_dir w2 !! m = None.
Proof.
  intros Hw [Hv Hm [(s' & Hs' & Hfile) He Hs] Hsm _] Hp Hc [f Hfd] Hme Hsa Hms (i & Hi & p & g & b & Hmeta).
  assert (s' = s) as -> by congruence. rewrite Hfd in Hfile.
  destruct Hfile as (Ha & Hdir & pre & Hd & Hpre & Hsz).
  unfold binlog_get_saved. rewrite Hme, Hsa. cbn [file_exists].
  rewrite !bool_decide_eq_true_2 by eauto. cbn [negb].
  rewrite pop_fault_ok, sys_alloc_ok by done. cbn [negb].
  rewrite Hi. cbn [mbind option_bind]. rewrite Hmeta. unfold binlog_open. bl_simpl.
  unfold binlog_is_valid. bl_simpl. rewrite Hv. cbn [negb]. bl_simpl. rewrite Hv. cbn [negb].
  unfold sys_open. rewrite pop_fault_ok, Hdir by done. cbn [Z.ltb Z.compare].
  eexists _, _. split; [done|]. cbn [sys_unlink w_dir w_data w_faults]. rewrite lookup_delete_eq.
  split; [|done]. destruct Hm. split; bl_simpl; try done. split; bl_simpl; try done.
  exists s. split; [done|]. cbn [of_append of_ino w_dir w_data]. rewrite lookup_delete_ne by done.
  split_and!; try done. exists pre. split_and!; try done.
Qed.

(** ** Creation *)

Lemma length_string_app (a b : string) :
  String.length (a +:+ b) = (String.length a + String.length b)%nat.
Proof. induction a as [|c a IH]; [done|]. change (S (String.length (a +:+ b)) = S (String.length a + String.length b)). by rewrite IH. Qed.

Lemma create_repr p msize fsize w :
  w_faults w = [] -> 0 <= msize <= 2 ^ 31 - 16 -> 0 < fsize < 2 ^ 63 ->
  10 <= Z.of_nat (String.length p) ->
  exists bl w', binlog_create (Some p) msize fsize BINLOG_UNLINK w = (Some bl, w') /\
    binlog_repr bl w' [] [] /\ max_file_size bl = fsize /\ max_mem_size bl = msize /\
    path bl = Some p /\ file_metadata_path bl = Some (p +:+ ".meta")%string /\
    file_save_path bl = Some (p +:+ ".save")%string /\ file_size bl = 0.
Proof.
  intros Hw Hms Hfs Hp. unfold binlog_create.
  replace (fsize =? 0) with false by blia. cbn [negb andb].
  rewrite bool_decide_eq_false_2 by done. rewrite !sys_alloc_ok by done. cbn [negb].
  change (printf_str (Some p)) with p.
  rewrite !length_string_app. cbn [String.length].
  rewrite !(proj2 (Z.ltb_ge (Z.of_nat (String.length p + 5)) 15)) by lia.
  bl_simpl. rewrite bool_decide_eq_true_2 by eauto.
  change (has_flag BINLOG_UNLINK BINLOG_UNLINK) with true. cbn [andb].
  assert (s64 fsize = fsize) as -> by (unfold s64; rewrite Z.mod_small by lia; lia).
  eexists _, _. split; [done|]. split; [|done]. split; bl_simpl; try done.
  - constructor; bl_simpl; cbn [length]; try done; lia.
  - split; bl_simpl; try done. exists p. cbn. by rewrite lookup_delete_eq.
Qed.

(** ** Pushing back what was read *)

Lemma mem_unread_after_read bl w d mq fq len0 :
  binlog_repr bl w (d :: mq) fq -> ev_ok d -> 0 < Z.of_nat (length d) ->
  let '(_, _, _, bl1) := binlog_mem_read bl len0 in
  exists bl2, binlog_mem_unread bl1 d (Z.of_nat (length d)) w = (0, bl2, w) /\
    binlog_repr bl2 w (d :: mq) fq.
Proof.
  intros [Hv [Hr Hwi Hc Ha Hmax Hsz Hidx] Hf Hs Hw] Hok Hpos. unfold binlog_mem_read.
  cbn [length] in Hwi. destruct (cache bl) as [c|] eqn:Hcc; [|by destruct Hc].
  destruct Hc as (Hal & Hwa & Hc). pose proof (Hc 0%nat d eq_refl) as H0. rewrite Nat.add_0_r in H0.
  rewrite bool_decide_eq_false_2 by done. rewrite (proj2 (Z.leb_gt _ _)) by lia. cbn [orb].
  unfold cache_get, cache_set. rewrite Hcc, H0. bl_simpl. rewrite Hcc.
  rewrite (u32_small (read_index bl + 1)) by lia.
  destruct (write_index bl <=? read_index bl + 1) eqn:Hle;
    [apply Z.leb_le in Hle|apply Z.leb_gt in Hle];
    unfold binlog_mem_unread, binlog_is_valid, cache_set; bl_simpl;
    rewrite bool_decide_eq_false_2 by done; rewrite Hv; cbn [orb negb].
  - assert (mq = []) as -> by (apply nil_length_inv; lia).
    cbn [Z.eqb andb]. rewrite sys_alloc_ok by done. cbn [negb].
    eexists. split; [done|]. apply Forall_cons in Hs as [Hd Hs].
    split; bl_simpl; try done; [|by eapply (file_repr_same bl)|by constructor].
    constructor; bl_simpl; cbn [length]; try done; try lia.
    rewrite !length_insert. split_and!; [done|lia|]. intros i d' Hi.
    destruct i as [|i]; [|done]. cbn in Hi. simplify_eq.
    rewrite list_lookup_insert_eq; [done|]. rewrite length_insert. lia.
  - replace (read_index bl + 1 =? 0) with false by blia. cbn [andb].
    rewrite sys_alloc_ok by done. cbn [negb]. bl_simpl.
    replace (read_index bl + 1 -u 1) with (read_index bl)
      by (symmetry; rewrite u32_small by lia; lia).
    eexists. split; [done|]. split; bl_simpl; try done; [|by eapply (file_repr_same bl)].
    constructor; bl_simpl; cbn [length]; try done; try lia.
    rewrite !length_insert. split_and!; [done|lia|]. intros i d' Hi.
    rewrite list_insert_insert_eq. destruct i as [|i].
    + cbn in Hi. simplify_eq. rewrite Nat.add_0_r, list_lookup_insert_eq by lia. done.
    + rewrite list_lookup_insert_ne by lia. by apply Hc.
Qed.

Lemma unread_after_read bl w d mq fq len0 :
  binlog_repr bl w (d :: mq) fq -> ev_ok d -> 0 < Z.of_nat (length d) ->
  file_read_pos bl < Z.of_nat (length d) ->
  0 < Z.of_nat (length (mq ++ fq)) < 2 ^ 32 ->
  let '(r, buf, len, bl1, w1) := binlog_read bl len0 w in
  exists bl2, r = 0 /\ buf = Some d /\ w1 = w /\
    binlog_unread bl1 d len w1 = (0, bl2, w) /\ binlog_repr bl2 w (d :: mq) fq.
Proof.
  intros Hb Hok Hpos Hrp Hn. pose proof (mem_unread_after_read bl w d mq fq len0 Hb Hok Hpos) as Hu.
  unfold binlog_read, binlog_is_valid. rewrite (br_valid _ _ _ _ Hb). cbn [negb].
  destruct (mem_read_cons bl d mq len0 (br_mem _ _ _ _ Hb) Hok) as (bl1 & E & Hm1 & Hp1).
  rewrite E in Hu |- *. cbn [Z.eqb]. destruct Hu as (bl2 & Hu & Hb2). exists bl2.
  split_and!; try done. unfold binlog_unread.
  replace (Z.of_nat (length d) =? 0) with false by blia.
  assert (binlog_num_entries bl1 = u32 (Z.of_nat (length (mq ++ fq)))) as ->.
  { destruct Hb as [Hv _ Hf Hs Hw]. apply (num_entries_repr bl1 w). apply Forall_cons in Hs as [? ?].
    split; [|done|by eapply (file_repr_same bl)|done..]. unfold file_part in Hp1. congruence. }
  rewrite u32_small by lia.
  replace (Z.of_nat (length (mq ++ fq)) =? 0) with false by blia.
  replace (file_read_pos bl1) with (file_read_pos bl) by (unfold file_part in Hp1; congruence).
  by rewrite (proj2 (Z.leb_gt _ _)) by lia.
Qed.

(** ** Runs *)

Inductive blop := OpAdd (buf : list byte) | OpRead.

(** A run: the events whose [binlog_add] returned 0 and those [binlog_read]
    delivered, in order. *)
Fixpoint run (ops : list blop) (bl : binlog) (w : world) :
    list (list byte) * list (list byte) * binlog * world :=
  match ops with
  | [] => ([], [], bl, w)
  | OpAdd buf :: ops =>
      let '(r, bl, w) := binlog_add bl buf (Z.of_nat (length buf)) w in
      let '(adds, reads, bl, w) := run ops bl w in
      (if r =? 0 then buf :: adds else adds, reads, bl, w)
  | OpRead :: ops =>
      let '(r, buf, _, bl, w) := binlog_read bl 0 w in
      let '(adds, reads, bl, w) := run ops bl w in
      (adds, if r =? 0 then default [] buf :: reads else reads, bl, w)
  end.

Definition op_ok (o : blop) : Prop := match o with OpAdd buf => ev_ok buf | OpRead => True end.

Lemma run_repr ops bl w mq fq :
  binlog_repr bl w mq fq -> Forall op_ok ops ->
  let '(adds, reads, bl', w') := run ops bl w in
  exists mq' fq', binlog_repr bl' w' mq' fq' /\ (mq ++ fq) ++ adds = reads ++ mq' ++ fq' /\
    (length (mq' ++ fq') <= length (mq ++ fq) + length ops)%nat.
Proof.
  revert bl w mq fq. induction ops as [|o ops IH]; intros bl w mq fq Hb Hops.
  - exists mq, fq. rewrite app_nil_r. split_and!; [done..|lia].
  - apply Forall_cons in Hops as [Ho Hops]. destruct o as [buf|]; cbn [run].
    + pose proof (add_repr bl w mq fq buf Hb Ho) as Ha.
      destruct (binlog_add _ _ _ _) as [[r bl1] w1].
      destruct Ha as [(-> & mq1 & fq1 & Hb1 & Hq)|(-> & -> & -> & _)].
      * specialize (IH bl1 w1 mq1 fq1 Hb1 Hops). destruct (run ops bl1 w1) as [[[adds reads] bl2] w2].
        destruct IH as (mq2 & fq2 & Hb2 & Heq & Hl). exists mq2, fq2. cbn [Z.eqb length].
        apply (f_equal length) in Hq as Hql. rewrite (length_app (mq ++ fq)) in Hql. cbn [length] in Hql.
        rewrite Hq, <- app_assoc in Heq.
        split_and!; [done..|lia].
      * specialize (IH bl w mq fq Hb Hops). destruct (run ops bl w) as [[[adds reads] bl2] w2].
        destruct IH as (mq2 & fq2 & Hb2 & Heq & Hl). exists mq2, fq2.
        change (BINLOG_ENOSPC =? 0) with false. cbn [length]. split_and!; [done..|lia].
    + pose proof (read_repr bl w mq fq 0 Hb) as Hr.
      destruct (binlog_read bl 0 w) as [[[[r buf] len] bl1] w1].
      destruct Hr as (mq1 & fq1 & Hb1 & Hq). specialize (IH bl1 w1 mq1 fq1 Hb1 Hops).
      destruct (run ops bl1 w1) as [[[adds reads] bl2] w2].
      destruct IH as (mq2 & fq2 & Hb2 & Heq & Hl). exists mq2, fq2. cbn [length].
      destruct (mq ++ fq) as [|d q] eqn:Hmf.
      * destruct Hq as [-> Hq]. rewrite Hq in Heq, Hl. split_and!; [done..|simpl in *; lia].
      * destruct Hq as (-> & -> & _ & Hq). rewrite Hq in Heq, Hl. cbn [Z.eqb default].
        split_and!; [done| |simpl in *; lia]. cbn. by f_equal.
Qed.

Lemma run_app ops1 ops2 bl w :
  run (ops1 ++ ops2) bl w =
  let '(a1, r1, bl, w) := run ops1 bl w in
  let '(a2, r2, bl, w) := run ops2 bl w in (a1 ++ a2, r1 ++ r2, bl, w).
Proof.
  revert bl w. induction ops1 as [|[buf|] ops1 IH]; intros bl w; cbn [run app].
  - by destruct (run ops2 bl w) as [[[? ?] ?] ?].
  - destruct (binlog_add _ _ _ _) as [[r bl1] w1]. rewrite IH.
    destruct (run ops1 bl1 w1) as [[[? ?] ?] ?]. destruct (run ops2 _ _) as [[[? ?] ?] ?].
    by destruct (r =? 0).
  - destruct (binlog_read _ _ _) as [[[[r buf] len] bl1] w1]. rewrite IH.
    destruct (run ops1 bl1 w1) as [[[? ?] ?] ?]. destruct (run ops2 _ _) as [[[? ?] ?] ?].
    by destruct (r =? 0).
Qed.

Lemma run_drain n bl w mq fq :
  binlog_repr bl w mq fq -> (length (mq ++ fq) <= n)%nat ->
  let '(adds, reads, _, _) := run (replicate n OpRead) bl w in adds = [] /\ reads = mq ++ fq.
Proof.
  revert bl w mq fq. induction n as [|n IH]; intros bl w mq fq Hb Hn; cbn [replicate run].
  - by rewrite (nil_length_inv (mq ++ fq)) by lia.
  - pose proof (read_repr bl w mq fq 0 Hb) as Hr.
    destruct (binlog_read bl 0 w) as [[[[r buf] len] bl1] w1].
    destruct Hr as (mq1 & fq1 & Hb1 & Hq). specialize (IH bl1 w1 mq1 fq1 Hb1).
    destruct (run (replicate n OpRead) bl1 w1) as [[[adds reads] bl2] w2].
    destruct (mq ++ fq) as [|d q].
    + destruct Hq as [-> Hq]. rewrite Hq in IH. apply IH. simpl. lia.
    + destruct Hq as (-> & -> & _ & Hq). rewrite Hq in IH. cbn [Z.eqb default].
      destruct IH as [-> ->]; [simpl in Hn; lia|done].
Qed.

(** ** The contract *)

Lemma create_run_repr p msize fsize w ops :
  w_faults w = [] -> 0 <= msize <= 2 ^ 31 - 16 -> 0 < fsize < 2 ^ 63 ->
  10 <= Z.of_nat (String.length p) -> Forall op_ok ops ->
  exists bl w', binlog_create (Some p) msize fsize BINLOG_UNLINK w = (Some bl, w') /\
    let '(adds, reads, bl', w'') := run ops bl w' in
    exists mq fq, binlog_repr bl' w'' mq fq /\ adds = reads ++ mq ++ fq /\
      (length (mq ++ fq) <= length ops)%nat.
Proof.
  intros Hw Hm Hf Hp Hops.
  destruct (create_repr p msize fsize w Hw Hm Hf Hp) as (bl & w' & E & Hb & _).
  exists bl, w'. split; [done|]. pose proof (run_repr ops bl w' [] [] Hb Hops) as Hr.
  destruct (run ops bl w') as [[[adds reads] bl'] w'']. exact Hr.
Qed.

(** C3.  A binlog is a first-in-first-out queue across its memory and file halves:
    whatever adds and reads are made on a freshly created log, the events read so far
    are a prefix of the events accepted so far, the entry count is what is left, and
    reading on delivers every accepted event, once, unchanged and in order. *)
Theorem binlog_fifo p msize fsize w ops :
  w_faults w = [] -> 0 <= msize <= 2 ^ 31 - 16 -> 0 < fsize < 2 ^ 63 ->
  10 <= Z.of_nat (String.length p) -> Forall op_ok ops ->
  exists bl w', binlog_create (Some p) msize fsize BINLOG_UNLINK w = (Some bl, w') /\
    let '(adds, reads, bl', _) := run ops bl w' in
    let '(adds2, reads2, _, _) := run (ops ++ replicate (length ops) OpRead) bl w' in
    (exists rest, adds = reads ++ rest /\
       binlog_num_entries bl' = u32 (Z.of_nat (length rest))) /\
    adds2 = adds /\ reads2 = adds.
Proof.
  intros Hw Hm Hf Hp Hops.
  destruct (create_run_repr p msize fsize w ops Hw Hm Hf Hp Hops) as (bl & w' & E & Hr).
  exists bl, w'. split; [done|]. rewrite run_app.
  destruct (run ops bl w') as [[[adds reads] bl1] w1]. destruct Hr as (mq & fq & Hb & -> & Hl).
  pose proof (run_drain (length ops) bl1 w1 mq fq Hb Hl) as Hd.
  destruct (run (replicate _ _) bl1 w1) as [[[a2 r2] ?] ?]. destruct Hd as [-> ->].
  rewrite app_nil_r. split_and!; [|done..]. exists (mq ++ fq). split; [done|].
  by eapply num_entries_repr.
Qed.

(** A path, an empty file system and a byte string used by the witnesses. *)
Definition demo_path : string := "/var/lib/merlin/node.binlog".
Definition demo_world : world := World ∅ ∅ 0 [].
Definition demo_ev (n : nat) : list byte := replicate n Byte.x00.
Definition demo_ops : list blop :=
  [OpAdd (demo_ev 3); OpAdd (demo_ev 9); OpRead; OpAdd (demo_ev 30); OpAdd (demo_ev 4); OpRead].

Lemma binlog_fifo_witness :
  Forall op_ok demo_ops /\ exists bl w',
    binlog_create (Some demo_path) 40 64 BINLOG_UNLINK demo_world = (Some bl, w') /\
    let '(adds, reads, bl', _) := run demo_ops bl w' in
    let '(adds2, reads2, _, _) := run (demo_ops ++ replicate (length demo_ops) OpRead) bl w' in
    (exists rest, adds = reads ++ rest /\
       binlog_num_entries bl' = u32 (Z.of_nat (length rest))) /\
    adds2 = adds /\ reads2 = adds.
Proof.
  assert (Forall op_ok demo_ops) as H by (repeat constructor; vm_compute; done).
  split; [exact H|]. apply (binlog_fifo demo_path 40 64 demo_world demo_ops);
    [reflexivity|lia|lia|vm_compute; discriminate|exact H].
Defined.

(** Adding an event lets the file grow beyond its limit by the length in front of the last event only. *)
Lemma add_file_size bl w mq fq buf :
  binlog_repr bl w mq fq -> ev_ok buf ->
  let '(_, bl', _) := binlog_add bl buf (Z.of_nat (length buf)) w in
  file_size bl' <= Z.max (file_size bl) (max_file_size bl + 4).
Proof.
  intros [Hv Hm Hf _ Hw] Hok. unfold binlog_add, binlog_is_valid. rewrite Hv. cbn [negb].
  pose proof (mr_size _ _ Hm). pose proof (mr_max _ _ Hm). rewrite (u32_small (mem_size bl + _)) by (unfold ev_ok in Hok; lia).
  destruct (_ && _) eqn:Hb.
  - apply andb_true_iff in Hb as [_ Hlt%Z.ltb_lt].
    destruct (mem_add_repr bl w mq buf Hm Hw Hok Hlt) as (bl' & -> & _ & Hp). unfold file_part in Hp. injection Hp as _ -> _. lia.
  - destruct (decide (file_size bl + Z.of_nat (length buf) <= max_file_size bl)) as [Hfit|Hfull].
    + destruct (file_add_repr bl w fq buf Hf Hv Hw Hok Hfit) as (bl' & w' & -> & _ & _ & _ & _ & -> & _). lia.
    + unfold binlog_file_add. rewrite (proj2 (Z.ltb_lt _ _)) by lia. lia.
Qed.

(** C4.  [binlog_add] on a valid log, when neither memory nor the disk fails, either accepts the event at the end of the queue and
    returns 0, or returns [BINLOG_ENOSPC] with the log and the disk untouched; it refuses
    exactly when the event fits neither the memory allowance (which only a log without
    an open file may use) nor the file allowance.  What is held in memory stays within its limit plus 15 bytes, less than the
    header of an entry, and the file within its limit plus the 4 bytes of a length, if it was before. *)
Theorem binlog_add_capacity bl w mq fq buf :
  binlog_repr bl w mq fq -> ev_ok buf ->
  let '(r, bl', w') := binlog_add bl buf (Z.of_nat (length buf)) w in
  let fits := (bool_decide (fd bl = None) &&
               (mem_size bl + Z.of_nat (length buf) <? max_mem_size bl)) ||
              (file_size bl + Z.of_nat (length buf) <=? max_file_size bl) in
  (if fits then r = 0 /\ exists mq' fq', binlog_repr bl' w' mq' fq' /\ mq' ++ fq' = (mq ++ fq) ++ [buf]
   else r = BINLOG_ENOSPC /\ bl' = bl /\ w' = w) /\
  mem_size bl' <= max_mem_size bl' + 15 /\
  file_size bl' <= Z.max (file_size bl) (max_file_size bl + 4).
Proof.
  intros Hb Ho. pose proof (add_repr bl w mq fq buf Hb Ho) as Ha. pose proof (add_file_size bl w mq fq buf Hb Ho) as Hfs.
  assert (is_valid bl = true) as Hv by apply Hb.
  pose proof (br_mem _ _ _ _ Hb) as Hm. pose proof (mr_size _ _ Hm). pose proof (mr_max _ _ Hm).
  assert (Hu : 0 <= mem_size bl + Z.of_nat (length buf) < 2 ^ 32) by (unfold ev_ok in Ho; lia).
  destruct (binlog_add bl buf (Z.of_nat (length buf)) w) as [[r bl'] w'] eqn:E.
  destruct Ha as [(-> & mq' & fq' & Hb' & Hq)|(-> & -> & -> & Hf & Hmm)].
  - split; [|split; [pose proof (mr_size _ _ (br_mem _ _ _ _ Hb')); lia|exact Hfs]]. split_if; [eauto|]. exfalso.
    revert E. unfold binlog_add, binlog_is_valid. rewrite Hv. cbn [negb].
    rewrite (u32_small (mem_size bl + _)) by done.
    apply orb_false_iff in Heqb as [-> Hfits]. unfold binlog_file_add.
    rewrite (proj2 (Z.ltb_lt _ _)) by blia. by intros [= ? ? ?].
  - split; [|split; [lia|exact Hfs]]. split_if; [exfalso|done]. apply orb_true_iff in Heqb as [H1|H1].
    + apply andb_true_iff in H1 as [H1%bool_decide_eq_true H2]. specialize (Hmm H1). blia.
    + blia.
Qed.

Lemma binlog_add_capacity_witness :
  match binlog_create (Some demo_path) 40 64 BINLOG_UNLINK demo_world with
  | (Some bl, w) =>
      let '(r, bl', w') := binlog_add bl (demo_ev 65) 65 w in
      (r = BINLOG_ENOSPC /\ bl' = bl /\ w' = w) /\ mem_size bl' <= max_mem_size bl' + 15 /\
      file_size bl' <= Z.max (file_size bl) (max_file_size bl + 4)
  | _ => False
  end.
Proof.
  destruct (create_repr demo_path 40 64 demo_world) as (bl & w & E & Hb & _);
    [reflexivity|lia|lia|vm_compute; discriminate|].
  rewrite E. assert (ev_ok (demo_ev 65)) as Ho by (vm_compute; reflexivity).
  pose proof (binlog_add_capacity bl w [] [] (demo_ev 65) Hb Ho) as H.
  vm_compute in E. injection E as <- <-. exact H.
Defined.

(** Saving a log at shutdown and restoring it at the next start: when the memory part
    still fits the file, [binlog_save] followed by [binlog_get_saved] yields a log that
    holds every unread event, those of the file first and those of memory behind them,
    and the metadata file is consumed. *)
Theorem binlog_save_restore bl w mq fq p m s nb :
  binlog_repr bl w mq fq -> world_ok w -> file_size bl + enc_size mq <= max_file_size bl ->
  path bl = Some p -> file_metadata_path bl = Some m -> file_save_path bl = Some s ->
  p <> m -> p <> s -> m <> s -> 0 < Z.of_nat (length (mq ++ fq)) < 2 ^ 32 ->
  file_metadata_path nb = Some m -> file_save_path nb = Some s ->
  let '(r, _, w1) := binlog_save bl w in
  exists bl2 w2, r = 0 /\ binlog_get_saved nb w1 = (Some bl2, w2) /\
    binlog_repr bl2 w2 [] (fq ++ mq) /\ w_dir w2 !! m = None.
Proof.
  intros Hb Hok Hfit Hp Hm Hs Hpm Hps Hms Hn Hnm Hns.
  destruct (save_repr bl w mq fq p m s Hb Hok Hfit Hp Hm Hs Hpm Hps Hms Hn)
    as (bl1 & bl' & w1 & -> & Hw1 & Hb1 & Hp1 & Hc1 & Hmeta).
  assert (is_Some (fd bl1)) as Hfd1.
  { destruct Hb1 as [_ _ [(p' & _ & Hf) _ _] _ _]. destruct (fd bl1) eqn:Hfd; [eauto|].
    destruct Hf as [Hnil _]. apply app_nil in Hnil as [-> ->]. simpl in Hn. lia. }
  destruct (get_saved_repr bl1 nb w1 m s (fq ++ mq) Hw1 Hb1 Hp1 Hc1 Hfd1 Hnm Hns Hms Hmeta)
    as (bl2 & w2 & E & Hb2 & Hd). eauto 10.
Qed.

(** The log a sequence of operations leaves, from a fresh one of 40 bytes of memory and 64 of file. *)
Definition demo_log (ops : list blop) : option (binlog * world) :=
  match binlog_create (Some demo_path) 40 64 BINLOG_UNLINK demo_world with
  | (Some bl, w) => let '(_, _, bl, w) := run ops bl w in Some (bl, w)
  | _ => None
  end.

Lemma binlog_save_restore_witness :
  exists bl w nb, demo_log [OpAdd (demo_ev 3)] = Some (bl, w) /\
    let '(r, _, w1) := binlog_save bl w in
    exists bl2 w2, r = 0 /\ binlog_get_saved nb w1 = (Some bl2, w2) /\
      binlog_repr bl2 w2 [] [demo_ev 3] /\ w_dir w2 !! (demo_path +:+ ".meta") = None.
Proof.
  destruct (create_repr demo_path 40 64 demo_world) as (bl & w & E & Hb & Hrest);
    [reflexivity|lia|lia|vm_compute; discriminate|].
  unfold demo_log. rewrite E. cbn [run].
  destruct (mem_add_repr bl w [] (demo_ev 3)) as (bl1 & E1 & Hm1 & Hf1);
    [apply Hb|apply Hb|vm_compute; reflexivity| |].
  { vm_compute in E. injection E as <- <-. vm_compute. reflexivity. }
  assert (binlog_add bl (demo_ev 3) (Z.of_nat (length (demo_ev 3))) w = (0, bl1, w)) as ->.
  { rewrite <- E1. clear -E. vm_compute in E. injection E as <- <-. vm_compute. reflexivity. }
  exists bl1, w, bl1. split; [reflexivity|].
  assert (binlog_repr bl1 w [demo_ev 3] []) as Hb1.
  { destruct Hb as [Hv Hm Hf Hs Hw]. split; [unfold file_part in Hf1; congruence|exact Hm1|
      by eapply (file_repr_same bl)|repeat constructor; vm_compute; reflexivity|done]. }
  clear -E E1 Hb1. vm_compute in E. injection E as <- <-. vm_compute in E1. injection E1 as <-.
  pose proof (fun m s nb => binlog_save_restore _ _ _ _ demo_path m s nb Hb1) as H.
  match type of Hb1 with binlog_repr ?b _ _ _ =>
    refine (H _ _ b _ _ eq_refl eq_refl eq_refl _ _ _ _ eq_refl eq_refl) end.
  - split; intros * H1; discriminate H1.
  - vm_compute. discriminate.
  - discriminate.
  - discriminate.
  - discriminate.
  - split; vm_compute; reflexivity.
Defined.

(** An event that was read from memory and could not be sent can be put back:
    while other events remain and no file entry of at least that length has been read,
    [binlog_unread] of what [binlog_read] just returned restores the log. *)
Theorem binlog_unread_restores bl w d mq fq len0 :
  binlog_repr bl w (d :: mq) fq -> ev_ok d -> 0 < Z.of_nat (length d) ->
  file_read_pos bl < Z.of_nat (length d) -> 0 < Z.of_nat (length (mq ++ fq)) < 2 ^ 32 ->
  let '(r, buf, len, bl1, w1) := binlog_read bl len0 w in
  exists bl2, r = 0 /\ buf = Some d /\ w1 = w /\
    binlog_unread bl1 d len w1 = (0, bl2, w) /\ binlog_repr bl2 w (d :: mq) fq.
Proof. apply unread_after_read. Qed.


Lemma binlog_unread_restores_witness :
  exists bl w, demo_log [OpAdd (demo_ev 3); OpAdd (demo_ev 4)] = Some (bl, w) /\
    let '(r, buf, len, bl1, w1) := binlog_read bl 0 w in
    exists bl2, r = 0 /\ buf = Some (demo_ev 3) /\ w1 = w /\
      binlog_unread bl1 (demo_ev 3) len w1 = (0, bl2, w) /\
      binlog_repr bl2 w [demo_ev 3; demo_ev 4] [].
Proof.
  assert (Forall op_ok [OpAdd (demo_ev 3); OpAdd (demo_ev 4)]) as Ho
    by (repeat constructor; vm_compute; reflexivity).
  destruct (create_repr demo_path 40 64 demo_world) as (bl & w & E & Hb & Hrest);
    [reflexivity|lia|lia|vm_compute; discriminate|].
  unfold demo_log. rewrite E.
  pose proof (run_repr [OpAdd (demo_ev 3); OpAdd (demo_ev 4)] bl w [] [] Hb Ho) as Hr.
  destruct (run _ bl w) as [[[adds reads] bl1] w1] eqn:Er.
  destruct Hr as (mq & fq & Hb1 & Hq & _). exists bl1, w1. split; [reflexivity|].
  clear -E Er Hb1 Hq. vm_compute in E. injection E as <- <-. vm_compute in Er.
  injection Er as <- <- <- <-. destruct Hb1 as [Hv Hm Hf Hs Hw] eqn:X; clear X.
  assert (fq = []) as -> by (destruct Hf as [(p & _ & Hf) _ _]; apply Hf).
  cbn in Hq. rewrite app_nil_r in Hq. subst mq.
  apply (binlog_unread_restores _ _ (demo_ev 3) [demo_ev 4] [] 0 Hb1);
    vm_compute; (split; reflexivity) || reflexivity.
Defined.

(** ** Where the code departs from its documentation *)

(** Putting back an event that was read from the file moves the read position back by
    the length of the data alone, not of the stored entry, and queues a copy in memory
    as well: from then on the log delivers the event once from memory and then takes
    the data of the entry for a length, here returning an empty event nobody added. *)
Theorem file_unread_misaligned :
  exists bl w bl1 w1 bl2 w2 bl3 w3,
    demo_log [OpAdd (demo_ev 3); OpAdd (demo_ev 30); OpAdd (demo_ev 8); OpRead] = Some (bl, w) /\
    binlog_read bl 0 w = (0, Some (demo_ev 30), 30, bl1, w1) /\
    binlog_unread bl1 (demo_ev 30) 30 w1 = (0, bl2, w2) /\
    binlog_num_entries bl2 = 3 /\ file_read_pos bl2 = 4 /\
    binlog_read bl2 0 w2 = (0, Some (demo_ev 30), 30, bl3, w3) /\
    let '(r, buf, len, _, _) := binlog_read bl3 0 w3 in r = 0 /\ buf = Some [] /\ len = 0.
Proof. do 8 eexists. split_and!; [vm_compute; reflexivity..|]. vm_compute. auto. Qed.

(** [binlog_wipe] with [BINLOG_UNLINK] keeps the file when it still has unread entries,
    the opposite of what its documentation says, so that the events that were to be
    discarded come back when the log overflows to the file again. *)
Theorem wipe_keeps_unread_file :
  exists bl w bl1 w1,
    demo_log [OpAdd (demo_ev 30); OpAdd (demo_ev 8)] = Some (bl, w) /\
    binlog_wipe bl BINLOG_UNLINK w = (bl1, w1) /\ binlog_num_entries bl1 = 0 /\
    let '(adds, reads, _, _) :=
      run [OpAdd (demo_ev 20); OpAdd (demo_ev 21); OpRead; OpRead] bl1 w1 in
    adds = [demo_ev 20; demo_ev 21] /\ reads = [demo_ev 20; demo_ev 8].
Proof. do 4 eexists. split_and!; [vm_compute; reflexivity..|]. vm_compute. split; reflexivity. Qed.

(** [binlog_flush] writes the memory entries, the older ones, behind those of the file. *)
Theorem flush_reorders :
  exists bl w bl1 w1 bl2 w2,
    demo_log [OpAdd (demo_ev 3); OpAdd (demo_ev 30)] = Some (bl, w) /\
    binlog_flush bl w = (bl1, w1) /\ binlog_read bl1 0 w1 = (0, Some (demo_ev 30), 30, bl2, w2) /\
    let '(r, buf, _, _, _) := binlog_read bl2 0 w2 in r = 0 /\ buf = Some (demo_ev 3).
Proof. do 6 eexists. split_and!; [vm_compute; reflexivity..|]. vm_compute. split; reflexivity. Qed.

(** A memory-only log, for which the header allows a NULL path, cannot be created. *)
Theorem create_without_path_fails msize flags w :
  exists w', binlog_create None msize 0 flags w = (None, w').
Proof.
  unfold binlog_create. cbn [Z.eqb negb andb]. destruct (sys_alloc w) as [[] w1]; cbn [negb]; eauto.
Qed.

