(* ===== verification/Packet.v ===== *)
(** * Events on the wire: shared/node.h's packet and shared/encryption.c

    An event is a fixed 128-byte header followed by [hdr.len] bytes of body.  The
    header is stored as the compilers of the project lay out the packed structure
    on a little-endian machine.  libsodium's authenticated encryption is a class
    of its own, with the one law the code relies on. *)

From S2P Require Import Prelude.

(** ** Layout *)

Definition MERLIN_SIGNATURE : Z := 0x005456454e4c524d.
Definition MERLIN_PROTOCOL_VERSION : Z := 3.
Definition UUID_SIZE : Z := 36.
Definition CTRL_PACKET : Z := 0xffff.
Definition RUNCMD_PACKET : Z := 0xfffc.
Definition CTRL_GENERIC : Z := 0.
Definition CTRL_PULSE : Z := 1.
Definition CTRL_INACTIVE : Z := 2.
Definition CTRL_ACTIVE : Z := 3.
Definition CTRL_PATHS : Z := 4.
Definition CTRL_STALL : Z := 5.
Definition CTRL_RESUME : Z := 6.
Definition CTRL_STOP : Z := 7.
Definition CTRL_INVALID_CLUSTER : Z := 8.
Definition CTRL_FETCH : Z := 9.

(** [struct timeval] of a 64-bit system. *)
Record timeval := TV { tv_sec : Z; tv_usec : Z }.

(** shared/node.h:91-108 merlin_header *)
Record merlin_header := Header {
  h_sig : Z; h_protocol : Z; h_type : Z; h_code : Z; h_selection : Z; h_len : Z;
  h_sent : timeval; h_authtag : list byte; h_nonce : list byte;
  h_from_uuid : list byte; h_padding : list byte }.

#[export] Instance eta_header : Eta merlin_header := fun h =>
  Header (h_sig h) (h_protocol h) (h_type h) (h_code h) (h_selection h) (h_len h)
    (h_sent h) (h_authtag h) (h_nonce h) (h_from_uuid h) (h_padding h).

(** shared/node.h:111-114 merlin_event -- the body is what [hdr.len] announces of the
    128 KiB the structure reserves. *)
Record merlin_event := Event { hdr : merlin_header; body : list byte }.

#[export] Instance eta_event : Eta merlin_event := fun e => Event (hdr e) (body e).

(** [sizeof] is redefined by shared/shared.h to an unsigned int, so that sums with
    it are taken modulo 2^32. *)
Definition HDR_SIZE : Z := 128.
Definition MAX_BODY : Z := 131072.
Definition MAX_PKT_SIZE : Z := HDR_SIZE + MAX_BODY.

(** shared/node.h:87-87 packet_size *)
Definition packet_size (p : merlin_event) : Z := s32 (h_len (hdr p) +u HDR_SIZE).

Definition hdr_bytes (h : merlin_header) : list byte :=
  le_split 8 (h_sig h) ++ le_split 2 (h_protocol h) ++ le_split 2 (h_type h) ++
  le_split 2 (h_code h) ++ le_split 2 (h_selection h) ++ le_split 4 (h_len h) ++
  le_split 8 (tv_sec (h_sent h)) ++ le_split 8 (tv_usec (h_sent h)) ++
  h_authtag h ++ h_nonce h ++ h_from_uuid h ++ h_padding h.

(** The [n] bytes at offset [o]. *)
Definition field (o n : nat) (l : list byte) : list byte := take n (drop o l).
Definition num (o n : nat) (l : list byte) : Z := le_combine (field o n l).

Definition hdr_of_bytes (l : list byte) : merlin_header :=
  Header (num 0 8 l) (num 8 2 l) (num 10 2 l) (num 12 2 l) (num 14 2 l) (num 16 4 l)
    (TV (s64 (num 20 8 l)) (s64 (num 28 8 l)))
    (field 36 16 l) (field 52 24 l) (field 76 37 l) (field 113 15 l).

Definition pkt_bytes (p : merlin_event) : list byte := hdr_bytes (hdr p) ++ body p.

Definition pkt_of_bytes (l : list byte) : merlin_event := Event (hdr_of_bytes l) (drop 128 l).

(** What a header has to satisfy to be a value of the C structure. *)
Record hdr_wf (h : merlin_header) : Prop := HdrWf {
  wf_sig : 0 <= h_sig h < 2 ^ 64; wf_protocol : 0 <= h_protocol h < 2 ^ 16;
  wf_type : 0 <= h_type h < 2 ^ 16; wf_code : 0 <= h_code h < 2 ^ 16;
  wf_selection : 0 <= h_selection h < 2 ^ 16; wf_len : 0 <= h_len h < 2 ^ 32;
  wf_sec : - 2 ^ 63 <= tv_sec (h_sent h) < 2 ^ 63;
  wf_usec : - 2 ^ 63 <= tv_usec (h_sent h) < 2 ^ 63;
  wf_authtag : length (h_authtag h) = 16%nat; wf_nonce : length (h_nonce h) = 24%nat;
  wf_uuid : length (h_from_uuid h) = 37%nat; wf_padding : length (h_padding h) = 15%nat }.

(** A packet whose body is as long as its header says, and of a size that can be sent. *)
Definition pkt_wf (p : merlin_event) : Prop :=
  hdr_wf (hdr p) /\ Z.of_nat (length (body p)) = h_len (hdr p) /\ h_len (hdr p) <= MAX_BODY.

(** ** Strings in arrays *)

(** The bytes before the first NUL. *)
Fixpoint c_str (l : list byte) : list byte :=
  match l with
  | [] => []
  | b :: l => if Byte.eqb b Byte.x00 then [] else b :: c_str l
  end.

(** [strcpy] into an array. *)
Definition strcpy (dst src : list byte) : list byte :=
  let s := c_str src ++ [Byte.x00] in s ++ drop (length s) dst.

(** shared/node.h:336-342 valid_uuid -- of an array, which is never NULL. *)
Definition valid_uuid (uuid : list byte) : bool := Z.of_nat (length (c_str uuid)) =? UUID_SIZE.

(** ** Encryption *)

(** The libsodium calls of shared/encryption.c: [crypto_box_detached_afternm] and its
    inverse, on a shared key and a nonce.  Opening what was sealed under the same key
    and nonce gives the message back; both work in place, so lengths agree. *)
Class Sodium := {
  box_seal : list byte -> list byte -> list byte -> list byte * list byte;
  box_open : list byte -> list byte -> list byte -> list byte -> option (list byte);
  box_open_seal : forall key nonce m, let '(c, tag) := box_seal key nonce m in
    box_open key nonce tag c = Some m;
  box_seal_len : forall key nonce m, length (box_seal key nonce m).1 = length m;
  box_tag_len : forall key nonce m, length (box_seal key nonce m).2 = 16%nat }.

Section Encryption.
Context {SD : Sodium}.

(** shared/encryption.c:38-48 init_sodium -- [init] is what sodium_init would return;
    the boolean is [sodium_init_done]. *)
Definition init_sodium (done : bool) (init : Z) : Z * bool :=
  if done then (0, done) else if init <? 0 then (-1, done) else (0, true).

(** shared/encryption.c:50-69 encrypt_pkt -- [nonce] is what randombytes_buf delivers.
    Sealing cannot fail in libsodium short of absurd lengths, which is -1 there. *)
Definition encrypt_pkt (done : bool) (init : Z) (key nonce : list byte) (pkt : merlin_event) :
    Z * merlin_event * bool :=
  let '(r, done) := init_sodium done init in
  if r =? -1 then (-1, pkt, done) else
  let pkt := pkt <| hdr ::= fun h => h <| h_nonce := nonce |> |> in
  let '(c, tag) := box_seal key nonce (take (Z.to_nat (h_len (hdr pkt))) (body pkt)) in
  (0, Event ((hdr pkt) <| h_authtag := tag |>) (c ++ drop (length c) (body pkt)), done).

(** shared/encryption.c:71-89 decrypt_pkt -- a forged message leaves the packet as it is. *)
Definition decrypt_pkt (done : bool) (init : Z) (key : list byte) (pkt : merlin_event) :
    Z * merlin_event * bool :=
  let '(r, done) := init_sodium done init in
  if r =? -1 then (-1, pkt, done) else
  match box_open key (h_nonce (hdr pkt)) (h_authtag (hdr pkt))
          (take (Z.to_nat (h_len (hdr pkt))) (body pkt)) with
  | None => (-1, pkt, done)
  | Some m => (0, pkt <| body := m ++ drop (length m) (body pkt) |>, done)
  end.

End Encryption.

(** ** Lemmas on the layout *)

Lemma field_app_l o n (a b : list byte) :
  (o + n <= length a)%nat -> field o n (a ++ b) = field o n a.
Proof.
  intros H. unfold field. rewrite drop_app_le by lia. rewrite take_app_le; [done|].
  rewrite length_drop. lia.
Qed.

Lemma field_app_r o n (a b : list byte) :
  (length a <= o)%nat -> field o n (a ++ b) = field (o - length a) n b.
Proof. intros H. unfold field. by rewrite drop_app_ge. Qed.

Lemma field_all n (a b : list byte) : length a = n -> field 0 n (a ++ b) = a.
Proof. intros <-. unfold field. by rewrite drop_0, take_app_length. Qed.

Lemma length_hdr_bytes h : hdr_wf h -> length (hdr_bytes h) = 128%nat.
Proof.
  intros []. unfold hdr_bytes. rewrite !length_app, !length_le_split. lia.
Qed.

Lemma num_split n z (b : list byte) :
  0 <= z < 2 ^ (8 * Z.of_nat n) -> num 0 n (le_split n z ++ b) = z.
Proof.
  intros H. unfold num. rewrite field_all by apply length_le_split.
  rewrite le_combine_split, Z.mod_small; [done|]. by rewrite Z.mul_comm.
Qed.

Lemma s64_num_split z (b : list byte) :
  - 2 ^ 63 <= z < 2 ^ 63 -> s64 (num 0 8 (le_split 8 z ++ b)) = z.
Proof.
  intros H. unfold num. rewrite field_all by apply length_le_split.
  rewrite le_combine_split. unfold s64.
  change (2 ^ (Z.of_nat 8 * 8)) with (2 ^ 64). rewrite Z.add_mod_idemp_l by lia.
  rewrite Z.mod_small by lia. lia.
Qed.

(** Skips the leading fields of a header to reach one at its start. *)
Ltac skip_fields :=
  unfold num; repeat (rewrite field_app_r by (rewrite ?length_le_split; lia));
  rewrite ?length_le_split; cbn [Nat.sub].

Lemma hdr_of_bytes_app h b : hdr_wf h -> hdr_of_bytes (hdr_bytes h ++ b) = h.
Proof.
  intros Hw. destruct h as [sig pr ty co se le [sec usec] tag no uu pad]. destruct Hw; cbn in *.
  unfold hdr_of_bytes, hdr_bytes; cbn [h_sig h_protocol h_type h_code h_selection h_len
    h_sent h_authtag h_nonce h_from_uuid h_padding tv_sec tv_usec].
  rewrite <- !app_assoc. f_equal.
  - by apply num_split.
  - skip_fields. by apply (num_split 2).
  - skip_fields. by apply (num_split 2).
  - skip_fields. by apply (num_split 2).
  - skip_fields. by apply (num_split 2).
  - skip_fields. by apply (num_split 4).
  - f_equal; skip_fields; by apply s64_num_split.
  - skip_fields. by apply field_all.
  - skip_fields. rewrite wf_authtag0. by apply field_all.
  - skip_fields. rewrite wf_authtag0, wf_nonce0. by apply field_all.
  - skip_fields. rewrite wf_authtag0, wf_nonce0, wf_uuid0. by apply field_all.
Qed.

Lemma packet_size_wf p : pkt_wf p -> packet_size p = Z.of_nat (length (pkt_bytes p)).
Proof.
  intros (Hh & Hb & Hm). unfold packet_size, pkt_bytes. rewrite length_app, length_hdr_bytes by done.
  pose proof (wf_len _ Hh). unfold MAX_BODY, HDR_SIZE in *. rewrite u32_small, s32_small by lia. lia.
Qed.

Lemma pkt_of_pkt_bytes p : hdr_wf (hdr p) -> pkt_of_bytes (pkt_bytes p) = p.
Proof.
  intros Hh. unfold pkt_of_bytes, pkt_bytes. rewrite hdr_of_bytes_app by done.
  rewrite drop_app_length' by (by rewrite length_hdr_bytes). by destruct p.
Qed.

Lemma strcpy_length dst src :
  (length (c_str src) < length dst)%nat -> length (strcpy dst src) = length dst.
Proof. intros H. unfold strcpy. rewrite !length_app, length_drop. cbn. lia. Qed.

Lemma c_str_app_nul s b : Forall (fun c => c <> Byte.x00) s -> c_str (s ++ Byte.x00 :: b) = s.
Proof.
  induction 1 as [|c s Hc Hs IH]; [done|]. cbn.
  destruct (Byte.eqb c Byte.x00) eqn:E; [|by rewrite IH].
  by apply Byte.byte_dec_bl in E.
Qed.

Lemma c_str_no_nul l : Forall (fun c => c <> Byte.x00) (c_str l).
Proof.
  induction l as [|c l IH]; [constructor|]. cbn. destruct (Byte.eqb c Byte.x00) eqn:E; [constructor|].
  constructor; [|done]. intros ->. done.
Qed.

Lemma c_str_strcpy dst src : c_str (strcpy dst src) = c_str src.
Proof.
  unfold strcpy. rewrite <- app_assoc. apply c_str_app_nul, c_str_no_nul.
Qed.

(** ** Properties *)

(** What goes over the wire is read back as it was: the packed bytes of a packet decode
    to the same header and body, and there are exactly [packet_size] of them. *)
Theorem packet_roundtrip p :
  pkt_wf p ->
  pkt_of_bytes (pkt_bytes p) = p /\ packet_size p = Z.of_nat (length (pkt_bytes p)) /\
  packet_size p <= MAX_PKT_SIZE.
Proof.
  intros Hp. split_and!; [apply pkt_of_pkt_bytes, Hp|by apply packet_size_wf|].
  destruct Hp as (Hh & Hb & Hm). unfold packet_size, MAX_PKT_SIZE, HDR_SIZE in *.
  pose proof (wf_len _ Hh). unfold MAX_BODY in *. rewrite u32_small, s32_small by lia. lia.
Qed.

(** A packet with an empty header and a given body. *)
Definition blank_hdr : merlin_header :=
  Header 0 0 0 0 0 0 (TV 0 0) (replicate 16 Byte.x00) (replicate 24 Byte.x00)
    (replicate 37 Byte.x00) (replicate 15 Byte.x00).

Lemma blank_hdr_wf : hdr_wf blank_hdr.
Proof. constructor; cbn; try lia; done. Qed.

Definition demo_pkt (type : Z) (b : list byte) : merlin_event :=
  Event (blank_hdr <| h_sig := MERLIN_SIGNATURE |> <| h_protocol := MERLIN_PROTOCOL_VERSION |>
    <| h_type := type |> <| h_len := Z.of_nat (length b) |>) b.

Lemma demo_pkt_wf type b :
  0 <= type < 2 ^ 16 -> Z.of_nat (length b) <= MAX_BODY -> pkt_wf (demo_pkt type b).
Proof.
  intros Ht Hb. unfold MAX_BODY in Hb.
  split_and!; [constructor; cbn; unfold MERLIN_SIGNATURE, MERLIN_PROTOCOL_VERSION; try lia; done|done|done].
Qed.

Lemma packet_roundtrip_witness :
  let p := demo_pkt 5 [Byte.x01; Byte.x02; Byte.x03] in
  pkt_wf p /\ pkt_of_bytes (pkt_bytes p) = p /\ packet_size p = Z.of_nat (length (pkt_bytes p)) /\
  packet_size p <= MAX_PKT_SIZE.
Proof.
  assert (pkt_wf (demo_pkt 5 [Byte.x01; Byte.x02; Byte.x03])) as H
    by (apply demo_pkt_wf; unfold MAX_BODY; cbn; lia).
  split; [exact H|]. apply (packet_roundtrip _ H).
Defined.

(** Decrypting with the key a packet was encrypted with restores its body; the header
    but for the nonce and the tag is never touched, and a packet that does not open, or
    a library that does not start, is reported and the packet left as it is. *)
Theorem encrypt_decrypt {SD : Sodium} done init key nonce p :
  Z.of_nat (length (body p)) = h_len (hdr p) ->
  let '(r, c, done') := encrypt_pkt done init key nonce p in
  if negb done && (init <? 0) then r = -1 /\ c = p /\ decrypt_pkt done init key p = (-1, p, done) else
  r = 0 /\ done' = true /\
  hdr c = (hdr p) <| h_nonce := nonce |> <| h_authtag := h_authtag (hdr c) |> /\
  length (body c) = length (body p) /\
  decrypt_pkt done init key c = (0, c <| body := body p |>, true) /\
  forall key', box_open key' nonce (h_authtag (hdr c)) (body c) = None ->
    decrypt_pkt done init key' c = (-1, c, true).
Proof.
  intros Hb. unfold encrypt_pkt, decrypt_pkt, init_sodium.
  destruct done; [cbn [negb andb Z.eqb]|destruct (init <? 0); [done|cbn [negb andb Z.eqb]]].
  all: cbn [hdr body upd h_len eta_rec]; rewrite take_ge by (cbn; lia).
  all: pose proof (box_open_seal key nonce (body p)) as Ho;
    pose proof (box_seal_len key nonce (body p)) as Hl;
    destruct (box_seal key nonce (body p)) as [c tag]; cbn in Hl;
    rewrite Hl, drop_ge, app_nil_r by lia; split_and!; try done;
    [cbn; rewrite take_ge, Ho by lia; by rewrite drop_ge, app_nil_r by lia|].
  all: intros key' Hn; cbn in *; rewrite take_ge by lia; by rewrite Hn.
Qed.

(** An instance of the class: no secrecy, a constant tag, and a key check. *)
Definition plain_open (key nonce tag c : list byte) : option (list byte) :=
  if bool_decide (tag = replicate 16 Byte.x2a) then Some c else None.

Definition plain_sodium : Sodium := {|
  box_seal := fun key nonce m => (m, replicate 16 Byte.x2a);
  box_open := plain_open;
  box_open_seal := fun key nonce m => eq_refl;
  box_seal_len := fun key nonce m => eq_refl;
  box_tag_len := fun key nonce m => eq_refl |}.

Lemma encrypt_decrypt_witness :
  let p := demo_pkt 5 [Byte.x01] in
  let '(r, c, done') := @encrypt_pkt plain_sodium false 0 [] (replicate 24 Byte.x07) p in
  r = 0 /\ done' = true /\
  hdr c = (hdr p) <| h_nonce := replicate 24 Byte.x07 |> <| h_authtag := h_authtag (hdr c) |> /\
  length (body c) = length (body p) /\
  @decrypt_pkt plain_sodium false 0 [] c = (0, c <| body := body p |>, true) /\
  forall key', @box_open plain_sodium key' (replicate 24 Byte.x07) (h_authtag (hdr c)) (body c) = None ->
    @decrypt_pkt plain_sodium false 0 key' c = (-1, c, true).
Proof.
  intros p. apply (@encrypt_decrypt plain_sodium false 0 [] (replicate 24 Byte.x07) p). reflexivity.
Defined.
