(* ===== verification/Io.v ===== *)
(** * Writing to sockets: shared/io.c

    The state is the part of the kernel the code sees: what the coming calls of
    poll(2) and send(2) are going to return, and the bytes each descriptor has
    accepted so far. *)

From S2P Require Import Prelude.

(** The outcome of one send(2): up to [n] bytes taken, EAGAIN, or another error. *)
Inductive send_res := SendOk (n : nat) | SendAgain | SendErr.

(** When a list runs out, poll reports readiness and send takes everything. *)
Record io := Io { io_polls : list Z; io_sends : list send_res; io_wire : gmap Z (list byte) }.

#[export] Instance eta_io : Eta io := fun s => Io (io_polls s) (io_sends s) (io_wire s).

(** shared/io.c:11-19 io_poll -- poll(2) ignores a negative descriptor and times out. *)
Definition io_poll (fd : Z) : ST io Z := fun s =>
  if fd <? 0 then (0, s) else
  match io_polls s with
  | [] => (1, s)
  | r :: rs => (r, s <| io_polls := rs |>)
  end.

(** send(2) with MSG_DONTWAIT: the bytes taken or -1, and whether errno is EAGAIN. *)
Definition sys_send (fd : Z) (buf : list byte) : ST io (Z * bool) := fun s =>
  if fd <? 0 then ((-1, false), s) else
  let '(r, s) := match io_sends s with
                 | [] => (SendOk (length buf), s)
                 | r :: rs => (r, s <| io_sends := rs |>)
                 end in
  match r with
  | SendOk n =>
      ((Z.of_nat (length (take n buf)), false),
       s <| io_wire ::= fun w => <[fd := (w !!! fd) ++ take n buf]> w |>)
  | SendAgain => ((-1, true), s)
  | SendErr => ((-1, false), s)
  end.

(** shared/io.c:33-51 io_send_all -- one turn of the do-while loop.  The sum of a signed
    count and an unsigned total is unsigned.  [inl] is the early return. *)
Definition send_turn (fd : Z) (buf : list byte) (poll_ret total : Z) : ST io (Z + Z * Z) :=
  '(sent, again) ← sys_send fd (drop (Z.to_nat total) buf);
  if (0 <? poll_ret) && (u64 (sent + total) =? 0) then mret (inl 0)
  else if sent <? 0 then
    if again : bool then (w ← io_poll fd; mret (inr (w, total))) else mret (inr (sent, total))
  else mret (inr (sent, total + sent)).

(** shared/io.c:33-52 io_send_all -- the loop: [n] is the number of turns left after this
    one, 14 at the first. *)
Fixpoint send_loop (n : nat) (fd : Z) (buf : list byte) (poll_ret total : Z) : ST io (Z + Z * Z) :=
  r ← send_turn fd buf poll_ret total;
  match r, n with
  | inr (sent, total), S n =>
      if (total <? Z.of_nat (length buf)) && (0 <? sent) then send_loop n fd buf poll_ret total
      else mret r
  | _, _ => mret r
  end.

(** shared/io.c:21-58 io_send_all *)
Definition io_send_all (fd : Z) (buf : list byte) : ST io Z :=
  if bool_decide (buf = []) then mret 0 else
  poll_ret ← io_poll fd;
  r ← send_loop 14 fd buf poll_ret 0;
  match r with
  | inl v => mret v
  | inr (sent, total) => if sent <? 0 then mret sent else mret (s32 total)
  end.

(** ** What reaches the wire *)

Lemma io_poll_wire fd s : io_wire (io_poll fd s).2 = io_wire s.
Proof. unfold io_poll. destruct (fd <? 0); [done|]. by destruct (io_polls s). Qed.

Lemma sys_send_spec fd buf s :
  let '((sent, again), s') := sys_send fd buf s in
  (sent = -1 /\ io_wire s' = io_wire s) \/
  (again = false /\ exists k, (k <= length buf)%nat /\ sent = Z.of_nat k /\
     io_wire s' = <[fd := (io_wire s !!! fd) ++ take k buf]> (io_wire s)).
Proof.
  unfold sys_send. destruct (fd <? 0); [by left|].
  destruct (io_sends s) as [|r rs].
  - right. cbn. split; [done|]. exists (length buf). rewrite take_ge by done.
    split_and!; [lia|done|done].
  - destruct r as [n| |]; [right|by left|by left]. cbn. split; [done|].
    exists (length (take n buf)). rewrite length_take. split_and!; [lia|done|].
    f_equal. f_equal. destruct (decide (n <= length buf)%nat);
      [by rewrite Nat.min_l by done|rewrite Nat.min_r, !take_ge by lia; done].
Qed.

(** [w] is [w0] with the first [k] bytes of [buf] added to descriptor [fd]. *)
Definition on_wire (fd : Z) (buf : list byte) (w0 : gmap Z (list byte)) (k : Z)
    (w : gmap Z (list byte)) : Prop :=
  0 <= k <= Z.of_nat (length buf) /\
  w !!! fd = (w0 !!! fd) ++ take (Z.to_nat k) buf /\
  (forall fd', fd' <> fd -> w !!! fd' = w0 !!! fd').

Lemma on_wire_start fd buf w : on_wire fd buf w 0 w.
Proof. split_and!; [lia|lia| |done]. cbn. by rewrite take_0, app_nil_r. Qed.

Lemma on_wire_step fd buf w0 t k w :
  on_wire fd buf w0 t w -> (k <= length buf - Z.to_nat t)%nat ->
  on_wire fd buf w0 (t + Z.of_nat k) (<[fd := (w !!! fd) ++ take k (drop (Z.to_nat t) buf)]> w).
Proof.
  intros (Ht & Hw & Ho) Hk. split; [lia|]. rewrite lookup_total_insert_eq. split.
  - rewrite Hw, <- app_assoc. f_equal. rewrite Z2Nat.inj_add, Nat2Z.id by lia.
    by rewrite take_take_drop.
  - intros fd' Hne. rewrite lookup_total_insert_ne by done. by apply Ho.
Qed.

(** What a turn or the loop leaves on the wire is what it reports; only the early
    return can report nothing with a byte gone. *)
Definition send_post (fd : Z) (buf : list byte) (w0 : gmap Z (list byte)) (r : Z + Z * Z) (s : io) : Prop :=
  exists k, on_wire fd buf w0 k (io_wire s) /\
    match r with inl v => v = 0 /\ k <= 1 | inr (_, t) => t = k end.

Lemma send_turn_spec fd buf p total w0 s :
  Z.of_nat (length buf) < 2 ^ 63 -> on_wire fd buf w0 total (io_wire s) ->
  let '(r, s') := send_turn fd buf p total s in send_post fd buf w0 r s'.
Proof.
  intros Hl Hw. unfold send_turn, mbind, ST_bind, mret, ST_ret.
  pose proof (sys_send_spec fd (drop (Z.to_nat total) buf) s) as Hs.
  destruct (sys_send fd (drop (Z.to_nat total) buf) s) as [[sent again] s1].
  pose proof (proj1 Hw) as Hr. destruct Hs as [[-> Hw1]|(-> & k & Hk & -> & Hw1)].
  - rewrite <- Hw1 in Hw. destruct ((0 <? p) && (u64 (-1 + total) =? 0)) eqn:E.
    + exists total. split_and!; [done..|]. apply andb_true_iff in E as [_ E%Z.eqb_eq].
      destruct (decide (total = 0)) as [->|]; [lia|]. rewrite u64_small in E; lia.
    + cbn [Z.ltb Z.compare]. destruct again; [|by exists total].
      pose proof (io_poll_wire fd s1) as Hp. destruct (io_poll fd s1) as [w s2]. cbn in Hp.
      exists total. by rewrite Hp.
  - rewrite length_drop in Hk. pose proof (on_wire_step fd buf w0 total k (io_wire s) Hw ltac:(lia)) as Hw2.
    rewrite <- Hw1 in Hw2. destruct ((0 <? p) && (u64 (Z.of_nat k + total) =? 0)) eqn:E.
    + apply andb_true_iff in E as [_ E%Z.eqb_eq]. rewrite u64_small in E by lia.
      exists (total + Z.of_nat k). split_and!; [done..|lia].
    + rewrite (proj2 (Z.ltb_ge _ _)) by lia. by eexists.
Qed.

Lemma send_loop_spec n fd buf p total w0 s :
  Z.of_nat (length buf) < 2 ^ 63 -> on_wire fd buf w0 total (io_wire s) ->
  let '(r, s') := send_loop n fd buf p total s in send_post fd buf w0 r s'.
Proof.
  intros Hl. revert total s. induction n as [|n IH]; intros total s Hw; cbn [send_loop];
    unfold mbind, ST_bind, mret, ST_ret;
    pose proof (send_turn_spec fd buf p total w0 s Hl Hw) as Hs;
    destruct (send_turn fd buf p total s) as [[v|[sent t]] s1]; try exact Hs.
  destruct ((t <? _) && _) eqn:E; [|exact Hs]. destruct Hs as (k & Hk & ->). by apply IH.
Qed.

Lemma send_all_wire fd buf s :
  Z.of_nat (length buf) < 2 ^ 31 ->
  let '(r, s') := io_send_all fd buf s in
  exists k, on_wire fd buf (io_wire s) k (io_wire s') /\
    (0 < r -> k = r) /\ (r = 0 -> k <= 1) /\ r <= Z.of_nat (length buf).
Proof.
  intros Hl. unfold io_send_all, mbind, ST_bind, mret, ST_ret. case_bool_decide.
  - exists 0. split; [apply on_wire_start|lia].
  - pose proof (io_poll_wire fd s) as Hp. destruct (io_poll fd s) as [p s1]. cbn in Hp.
    pose proof (send_loop_spec 14 fd buf p 0 (io_wire s) s1 ltac:(lia)
      ltac:(rewrite Hp; apply on_wire_start)) as Hs.
    destruct (send_loop 14 fd buf p 0 s1) as [[v|[sent t]] s2]; destruct Hs as (k & Hk & Hr).
    + destruct Hr as [-> Hr]. exists k. split_and!; [done|lia..].
    + subst t. pose proof (proj1 Hk). rewrite s32_small by lia.
      destruct (sent <? 0) eqn:E; exists k; split_and!; try done; blia.
Qed.

(** [io_send_all] never reorders, repeats or drops bytes within a stream: whatever
    poll and send do, the descriptor has received exactly some prefix of the buffer and
    no other descriptor anything; a positive result is the length of that prefix, so the
    length of the buffer is returned exactly when all of it was written.  Only a result
    of 0 can hide a single byte already sent. *)
Theorem io_send_all_prefix fd buf s :
  0 < Z.of_nat (length buf) < 2 ^ 31 ->
  let '(r, s') := io_send_all fd buf s in
  exists k, on_wire fd buf (io_wire s) k (io_wire s') /\
    (0 < r -> k = r) /\ (r = 0 -> k <= 1) /\
    (r = Z.of_nat (length buf) -> io_wire s' !!! fd = (io_wire s !!! fd) ++ buf).
Proof.
  intros Hl. pose proof (send_all_wire fd buf s ltac:(lia)) as H.
  destruct (io_send_all fd buf s) as [r s']. destruct H as (k & Hk & H1 & H2 & _).
  exists k. split_and!; [done..|]. intros ->. destruct Hk as (_ & -> & _).
  rewrite H1 by lia. by rewrite Nat2Z.id, firstn_all.
Qed.

Lemma io_send_all_prefix_witness :
  let buf := [Byte.x01; Byte.x02; Byte.x03] in
  let s := Io [1; 1] [SendOk 2; SendAgain; SendOk 5] ∅ in
  let '(r, s') := io_send_all 7 buf s in
  exists k, on_wire 7 buf (io_wire s) k (io_wire s') /\
    (0 < r -> k = r) /\ (r = 0 -> k <= 1) /\
    (r = Z.of_nat (length buf) -> io_wire s' !!! 7 = (io_wire s !!! 7) ++ buf).
Proof. intros buf s. apply (io_send_all_prefix 7 buf s). cbn. lia. Defined.

(** The sum of a count of -1 and a total of 1 is 0 as an unsigned number: a failure
    after the first byte is reported as if nothing had been sent. *)
Theorem send_all_hides_a_byte :
  let '(r, s) := io_send_all 7 [Byte.x01; Byte.x02] (Io [1] [SendOk 1; SendErr] ∅) in
  r = 0 /\ io_wire s !!! 7 = [Byte.x01].
Proof. vm_compute. auto. Qed.
