(* ===== verification/Merlin.v ===== *)
(** * Merlin's data: nodes, peer groups and the process state

    The structures of shared/node.h and shared/pgroup.h and the global variables of the
    module.  Nodes are shared objects: the node table, the peer groups and the callers
    all hold pointers to them, so they live in a store and a pointer is a key of it;
    [IPC] is the address of the global [ipc].  Peer groups live in the array
    [peer_group] and are named by their index.  The module's [self] is [&ipc.info]. *)

From S2P Require Import Prelude Binlog Packet Io.

(** ** Constants *)

(** shared/node.h:206-211 MODE_LOCAL *)
Inductive mode := MODE_LOCAL | MODE_NOC | MODE_PEER | MODE_POLLER | MODE_INTERNAL.
Abbreviation MODE_MASTER := MODE_NOC.

(** shared/node.h:214-219 STATE_NONE *)
Inductive state := STATE_NONE | STATE_PENDING | STATE_NEGOTIATING | STATE_CONNECTED.

#[export] Instance mode_eq_dec : EqDecision mode.
Proof. solve_decision. Defined.

#[export] Instance state_eq_dec : EqDecision state.
Proof. solve_decision. Defined.

Notation "x =?s y" := (bool_decide (x = y)) (at level 70).

Definition MERLIN_NODE_TAKEOVER : Z := 1.
Definition MERLIN_NODE_CONNECT : Z := 2.
Definition MERLIN_NODE_FIXED_SRCPORT : Z := 4.
Definition MERLIN_NODE_NOTIFIES : Z := 8.
Definition MERLIN_NODE_DEFAULT_POLLER_FLAGS : Z := 11.
Definition MERLIN_NODE_DEFAULT_PEER_FLAGS : Z := 2.
Definition MERLIN_NODE_DEFAULT_MASTER_FLAGS : Z := 2.
Definition MERLIN_NODE_DEFAULT_IPC_FLAGS : Z := 8.
Definition PGROUP_NODE_FLAGS : Z := MERLIN_NODE_TAKEOVER.

(** ** Structures *)

(** shared/pgroup.h:16-18 merlin_assigned_objects *)
Record merlin_assigned_objects := Aso {
  hosts : Z; services : Z }.

#[export] Instance eta_merlin_assigned_objects : Eta merlin_assigned_objects := fun r =>
  Aso (hosts r) (services r).

(** shared/node.h:140-159 merlin_nodeinfo *)
Record merlin_nodeinfo := NodeInfo {
  i_version : Z; i_word_size : Z; i_byte_order : Z; i_object_structure_version : Z;
  i_start : timeval; i_last_cfg_change : Z; i_config_hash : list byte; i_peer_id : Z;
  i_active_peers : Z; i_configured_peers : Z; i_active_pollers : Z; i_configured_pollers : Z;
  i_active_masters : Z; i_configured_masters : Z; i_host_checks_handled : Z;
  i_service_checks_handled : Z; i_monitored_object_state_size : Z }.

#[export] Instance eta_merlin_nodeinfo : Eta merlin_nodeinfo := fun r =>
  NodeInfo (i_version r) (i_word_size r) (i_byte_order r) (i_object_structure_version r)
    (i_start r) (i_last_cfg_change r) (i_config_hash r) (i_peer_id r) (i_active_peers r)
    (i_configured_peers r) (i_active_pollers r) (i_configured_pollers r) (i_active_masters r)
    (i_configured_masters r) (i_host_checks_handled r) (i_service_checks_handled r)
    (i_monitored_object_state_size r).

(** memset to zero. *)
Definition zero_info : merlin_nodeinfo :=
  NodeInfo 0 0 0 0 (TV 0 0) 0 (replicate 20 Byte.x00) 0 0 0 0 0 0 0 0 0 0.

(** shared/node.h:179-190 merlin_node_stats -- the counters of events and of bytes, and the
    outgoing half of the per-callback counts. *)
Record merlin_node_stats := Stats {
  ev_sent : Z; ev_read : Z; ev_logged : Z; ev_dropped : Z; by_sent : Z; by_read : Z;
  by_logged : Z; by_dropped : Z; last_logged : Z; cb_out : gmap Z Z }.

#[export] Instance eta_merlin_node_stats : Eta merlin_node_stats := fun r =>
  Stats (ev_sent r) (ev_read r) (ev_logged r) (ev_dropped r) (by_sent r) (by_read r)
    (by_logged r) (by_dropped r) (last_logged r) (cb_out r).

(** shared/node.h:162-174 merlin_confsync -- the push and fetch commands and whether they run. *)
Record merlin_confsync := Csync {
  cs_configured : bool; cs_push : option string; cs_fetch : option string;
  cs_push_running : bool; cs_fetch_running : bool }.

#[export] Instance eta_merlin_confsync : Eta merlin_confsync := fun r =>
  Csync (cs_configured r) (cs_push r) (cs_fetch r) (cs_push_running r) (cs_fetch_running r).

(** shared/node.h:223-272 merlin_node -- [bq] is the content of the receive queue, [state_of]
    the field [state]; [sin_addr] is as the kernel stores it, [sin_port] in host order. *)
Record merlin_node := Node {
  name : string; hostgroups : option (list ascii); node_id : Z; sock : Z; conn_sock : Z;
  type : mode; state_of : state; peer_id : Z; flags : Z; sin_addr : Z; sin_port : Z;
  data_timeout : Z; last_recv : Z; last_sent : Z; last_conn_attempt_logged : Z;
  last_conn_attempt : Z; connect_time : Z; pgroup : option nat; extra : merlin_assigned_objects;
  current : merlin_assigned_objects; expired : merlin_assigned_objects; n_host_checks : Z;
  n_service_checks : Z; info : merlin_nodeinfo; expected : merlin_nodeinfo; last_action : Z;
  node_binlog : option binlog; stats : merlin_node_stats; bq : list byte;
  csync : merlin_confsync; csync_num_attempts : Z; csync_last_attempt : Z; encrypted : bool;
  sharedkey : list byte; uuid : list byte; incompatible_cluster_config : bool; auto_delete : Z;
  accept_runcmd : bool }.

#[export] Instance eta_merlin_node : Eta merlin_node := fun r =>
  Node (name r) (hostgroups r) (node_id r) (sock r) (conn_sock r) (type r) (state_of r)
    (peer_id r) (flags r) (sin_addr r) (sin_port r) (data_timeout r) (last_recv r) (last_sent r)
    (last_conn_attempt_logged r) (last_conn_attempt r) (connect_time r) (pgroup r) (extra r)
    (current r) (expired r) (n_host_checks r) (n_service_checks r) (info r) (expected r)
    (last_action r) (node_binlog r) (stats r) (bq r) (csync r) (csync_num_attempts r)
    (csync_last_attempt r) (encrypted r) (sharedkey r) (uuid r) (incompatible_cluster_config r)
    (auto_delete r) (accept_runcmd r).

Definition zero_aso : merlin_assigned_objects := Aso 0 0.
Definition zero_stats : merlin_node_stats := Stats 0 0 0 0 0 0 0 0 0 ∅.
Definition zero_csync : merlin_confsync := Csync false None None false false.

(** A node as calloc leaves it, without sockets. *)
Definition zero_node : merlin_node :=
  Node "" None 0 (-1) (-1) MODE_LOCAL STATE_NONE 0 0 0 0 0 0 0 0 0 0 None zero_aso zero_aso
    zero_aso 0 0 zero_info zero_info 0 None zero_stats [] zero_csync 0 0 false [] (replicate 37 Byte.x00) false 0 false.

#[export] Instance inhabited_node : Inhabited merlin_node := populate zero_node.
#[export] Instance inhabited_aso : Inhabited merlin_assigned_objects := populate zero_aso.

(** shared/pgroup.h:20-46 merlin_peer_group -- bitmaps are sets of object ids. *)
Record merlin_peer_group := Pgroup {
  pg_id : nat; pg_nodes : list nat; pg_active_nodes : Z; pg_overlapping : Z; pg_flags : Z;
  pg_alloc : Z; pg_assign : list (list merlin_assigned_objects);
  pg_inherit : list (list merlin_assigned_objects); pg_assigned : merlin_assigned_objects;
  pg_hostgroups : option (list ascii); pg_host_map : gset Z; pg_service_map : gset Z;
  pg_host_id_table : option (list Z); pg_service_id_table : option (list Z) }.

#[export] Instance eta_merlin_peer_group : Eta merlin_peer_group := fun r =>
  Pgroup (pg_id r) (pg_nodes r) (pg_active_nodes r) (pg_overlapping r) (pg_flags r) (pg_alloc r)
    (pg_assign r) (pg_inherit r) (pg_assigned r) (pg_hostgroups r) (pg_host_map r)
    (pg_service_map r) (pg_host_id_table r) (pg_service_id_table r).

Definition pg_total_nodes (pg : merlin_peer_group) : Z := Z.of_nat (length (pg_nodes pg)).

Definition zero_pgroup : merlin_peer_group :=
  Pgroup 0 [] 0 0 0 0 [] [] zero_aso None ∅ ∅ None None.

#[export] Instance inhabited_pgroup : Inhabited merlin_peer_group := populate zero_pgroup.

(** Naemon's host: its id, name, the ids of its services, the names of its groups. *)
Record host := Host {
  host_id : Z; host_name : string; host_services : list Z;
  host_hostgroups : list (list ascii) }.

#[export] Instance eta_host : Eta host := fun r =>
  Host (host_id r) (host_name r) (host_services r) (host_hostgroups r).

#[export] Instance inhabited_host : Inhabited host := populate (Host 0 "" [] []).

(** ** The process *)

(** Naemon's HOST_CHECK and SERVICE_CHECK. *)
Inductive check_type := HOST_CHECK | SERVICE_CHECK.

#[export] Instance check_type_eq_dec : EqDecision check_type.
Proof. solve_decision. Defined.

#[export] Instance check_type_countable : Countable check_type.
Proof.
  refine (inj_countable' (fun t => bool_decide (t = HOST_CHECK))
    (fun b : bool => if b then HOST_CHECK else SERVICE_CHECK) _). by intros [].
Defined.

(** A checked object: its type and its id. *)
Abbreviation object := (check_type * Z)%type.

(** module/module.h:31-36 merlin_expired_check -- the object by its id. *)
Record merlin_expired_check := ExpiredCheck {
  ex_node : nat; ex_object : Z; ex_added : Z; ex_type : check_type }.

#[export] Instance eta_merlin_expired_check : Eta merlin_expired_check := fun r =>
  ExpiredCheck (ex_node r) (ex_object r) (ex_added r) (ex_type r).

(** module/module.c:20-36 host_check_node -- and service_check_node, the counters of
    untracked_checks_node, the two expiry maps, the two tables of expired objects and the list
    expired_events.  An entry of the list belongs to one object and carries its latest event. *)
Record checks := Checks {
  ck_node : gmap object nat; ck_untracked : Z * Z; ck_expiry : gmap object merlin_expired_check;
  ck_expired : gmap object merlin_expired_check; ck_events : list object }.

#[export] Instance eta_checks : Eta checks := fun r =>
  Checks (ck_node r) (ck_untracked r) (ck_expiry r) (ck_expired r) (ck_events r).

(** shared/node.h:198-202 node_selection -- the id is the position in the table. *)
Record node_selection := Selection {
  sel_name : list ascii; sel_nodes : list nat }.

#[export] Instance eta_node_selection : Eta node_selection := fun r =>
  Selection (sel_name r) (sel_nodes r).

(** module/module.h:23-29 merlin_notify_stats *)
Record merlin_notify_stats := NotifyStats {
  ns_net : Z; ns_peer : Z; ns_poller : Z; ns_master : Z; ns_sent : Z }.

#[export] Instance eta_merlin_notify_stats : Eta merlin_notify_stats := fun r =>
  NotifyStats (ns_net r) (ns_peer r) (ns_poller r) (ns_master r) (ns_sent r).

(** Naemon's kinds of comments. *)
Inductive comment_entry := USER_COMMENT | DOWNTIME_COMMENT | FLAPPING_COMMENT | ACKNOWLEDGEMENT_COMMENT.

#[export] Instance comment_entry_eq_dec : EqDecision comment_entry.
Proof. solve_decision. Defined.

(** Naemon's comments, as far as the module compares them. *)
Record comment := Comment {
  cm_entry : comment_entry; cm_type : check_type; cm_expires : bool; cm_persistent : bool;
  cm_host : string; cm_author : string; cm_data : string; cm_service : option string }.

#[export] Instance eta_comment : Eta comment := fun r =>
  Comment (cm_entry r) (cm_type r) (cm_expires r) (cm_persistent r) (cm_host r) (cm_author r)
    (cm_data r) (cm_service r).

#[export] Instance comment_eq_dec : EqDecision comment.
Proof. solve_decision. Defined.

(** module/hooks.c:25-37 block_comment -- and the other variables of the file, the sender and type
    of the event being handled, the selections by position and by name of host, the host
    groups whose checks are blocked here, Naemon's time of the last check, and when
    an event last came by.  [hk_undefined] is not a variable of the code: it says that the code has
    read beyond an array, so that C leaves open what it does from there on. *)
Record hooks_state := Hooks {
  hk_check_dupes : bool; hk_last_pkt : merlin_event; hk_dupes : Z; hk_dupe_bytes : Z;
  hk_held : option (merlin_event * list byte); hk_sender : option nat; hk_recv : option Z;
  hk_last_obj : gmap check_type Z; hk_self : gmap check_type Z;
  hk_stats : gmap (Z * check_type * Z) merlin_notify_stats; hk_last_check : gmap object Z;
  hk_selections : list node_selection; hk_host_sel : gmap string nat;
  hk_blocked : list (list ascii); hk_block_comment : option comment; hk_last_pulse : Z;
  hk_undefined : bool }.

#[export] Instance eta_hooks_state : Eta hooks_state := fun r =>
  Hooks (hk_check_dupes r) (hk_last_pkt r) (hk_dupes r) (hk_dupe_bytes r) (hk_held r)
    (hk_sender r) (hk_recv r) (hk_last_obj r) (hk_self r) (hk_stats r) (hk_last_check r)
    (hk_selections r) (hk_host_sel r) (hk_blocked r) (hk_block_comment r) (hk_last_pulse r) (hk_undefined r).

Definition zero_hooks : hooks_state :=
  Hooks false (Event blank_hdr []) 0 0 None None None ∅ ∅ ∅ ∅ [] ∅ [] None 0 false.

(** The configuration of the backlogs: directory, limits in MiB, persistence. *)
Record binlog_conf := BinlogConf {
  bc_dir : string; bc_max_memory : Z; bc_max_file : Z; bc_persist : bool; bc_writable : bool }.

#[export] Instance eta_binlog_conf : Eta binlog_conf := fun r =>
  BinlogConf (bc_dir r) (bc_max_memory r) (bc_max_file r) (bc_persist r) (bc_writable r).

(** What the coming reads from a socket are going to deliver; EAGAIN when the list runs out. *)
Inductive recv_res := RecvData (l : list byte) | RecvAgain | RecvErr | RecvEof.

(** What opening a socket and connecting it to the daemon's socket is going to give. *)
Inductive daemon_res := DaemonNoSocket | DaemonRefuses (fd : Z) | DaemonAccepts (fd : Z).

(** The state of the module: the store of nodes, the node table (masters, peers, pollers),
    the peer groups and their lookup tables, Naemon's objects, and the environment: time,
    descriptors (what they deliver, which are open, which are registered with Naemon's I/O
    broker, whether errno is EAGAIN after a failed send), disk, libsodium and random
    bytes.  [m_ran] is what was handed to Naemon's worker processes, the latest first.
    The clock does not move within a handler. *)
Record merlin := Merlin {
  m_nodes : gmap nat merlin_node; m_table : list nat; m_pgroups : list merlin_peer_group;
  m_host_id2pg : list (option nat); m_service_id2pg : list (option nat);
  m_handled_hosts : gset Z; m_handled_services : gset Z; m_hosts : list host;
  m_num_services : Z; m_hostgroups : list (list ascii * list nat); m_binlog : binlog_conf;
  m_now : Z; m_usec : Z; m_io : io; m_recvs : list recv_res; m_again : bool; m_open : gset Z;
  m_iob : gset Z; m_world : world; m_sodium : bool * Z; m_random : list (list byte);
  m_cb_items : Z; m_default_port : Z; m_net_sock : Z; m_listen_sock : Z;
  m_ipc_path : option string; m_daemon : daemon_res; m_uuid_nodes : Z;
  m_cluster_update : option string; m_ran : list string; m_pulse_interval : Z;
  m_checks : checks; m_hooks : hooks_state }.

#[export] Instance eta_merlin : Eta merlin := fun r =>
  Merlin (m_nodes r) (m_table r) (m_pgroups r) (m_host_id2pg r) (m_service_id2pg r)
    (m_handled_hosts r) (m_handled_services r) (m_hosts r) (m_num_services r) (m_hostgroups r)
    (m_binlog r) (m_now r) (m_usec r) (m_io r) (m_recvs r) (m_again r) (m_open r) (m_iob r)
    (m_world r) (m_sodium r) (m_random r) (m_cb_items r) (m_default_port r) (m_net_sock r)
    (m_listen_sock r) (m_ipc_path r) (m_daemon r) (m_uuid_nodes r) (m_cluster_update r)
    (m_ran r) (m_pulse_interval r) (m_checks r) (m_hooks r).

Abbreviation M := (ST merlin).

(** The address of [ipc]. *)
Definition IPC : nat := 0.

Definition get_node (n : nat) : M merlin_node := gets (fun s => m_nodes s !!! n).

(** Assignments to fields of the node [n]. *)
Definition on_node (n : nat) (f : merlin_node -> merlin_node) : M unit :=
  modify (fun s => s <| m_nodes ::= fun ns => <[n := f (ns !!! n)]> ns |>).

Definition get_pgroup (i : nat) : M merlin_peer_group := gets (fun s => m_pgroups s !!! i).

Definition on_pgroup (i : nat) (f : merlin_peer_group -> merlin_peer_group) : M unit :=
  modify (fun s => s <| m_pgroups ::= fun pgs => <[i := f (pgs !!! i)]> pgs |>).

(** [num_objects.hosts], [num_masters] and the like of the module. *)
Definition num_hosts (s : merlin) : Z := Z.of_nat (length (m_hosts s)).
Definition ipc_of (s : merlin) : merlin_node := m_nodes s !!! IPC.
Definition self_of (s : merlin) : merlin_nodeinfo := info (ipc_of s).
Definition num_masters (s : merlin) : Z := i_configured_masters (self_of s).
Definition num_peers (s : merlin) : Z := i_configured_peers (self_of s).
Definition num_pollers (s : merlin) : Z := i_configured_pollers (self_of s).
Definition num_nodes (s : merlin) : Z := u32 (num_masters s + num_pollers s + num_peers s).

(** The numbers of configured masters, peers and pollers. *)
Definition conf (i : merlin_nodeinfo) : Z * Z * Z := (i_configured_masters i, i_configured_peers i, i_configured_pollers i).

(** Calls into the I/O and the time of day. *)
Definition lift_io {A} (c : ST io A) : M A := fun s =>
  let '(a, i) := c (m_io s) in (a, s <| m_io := i |>).

Definition time_now : M Z := gets m_now.

#[export] Hint Extern 4 (preserves _ (get_node _)) => apply preserves_gets : pres.
#[export] Hint Extern 4 (preserves _ (get_pgroup _)) => apply preserves_gets : pres.
#[export] Hint Extern 4 (preserves _ time_now) => apply preserves_gets : pres.

(** ** Reading what was written *)

Lemma node_on_node n m f s :
  m_nodes (on_node n f s).2 !!! m = if decide (m = n) then f (m_nodes s !!! n) else m_nodes s !!! m.
Proof.
  cbn. case_decide; subst; [by rewrite lookup_total_insert_eq|by rewrite lookup_total_insert_ne].
Qed.
