(* ===== verification/Pgroup.v ===== *)
(** * Peer groups: shared/pgroup.c

    Nodes that share their checks form a peer group: our own peers and ourselves, and
    one group per set of host groups for the pollers.  Within a group the active nodes
    are numbered by start time, and a check is run by the node whose number is the
    check's id modulo the number of active nodes.  This file models every function of
    the source and proves that the numbering is what it should be, the same in every
    process of the group, and that checks go to nodes that are there. *)

From S2P Require Import Prelude Binlog Packet Io Merlin.

Section Pgroup.
Context {QS : QSort}.

(** ** Numbering the peers *)

(** shared/pgroup.c:82-91 timeval_comp -- the differences are returned as an int. *)
Definition timeval_comp (a b : timeval) : Z :=
  if tv_sec a =? tv_sec b then s32 (tv_usec a - tv_usec b) else s32 (tv_sec a - tv_sec b).

(** We are alive, so [ipc] counts as connected. *)
Definition eff_state (s : merlin) (n : nat) : state :=
  if bool_decide (n = IPC) then STATE_CONNECTED else state_of (m_nodes s !!! n).

(** shared/pgroup.c:93-122 cmp_peer *)
Definition cmp_peer (s : merlin) (a b : nat) : Z :=
  let a_state := eff_state s a in
  let b_state := eff_state s b in
  let a_start := i_start (info (m_nodes s !!! a)) in
  let b_start := i_start (info (m_nodes s !!! b)) in
  if negb (a_state =?s b_state) && (a_state =?s STATE_CONNECTED) then -1
  else if negb (a_state =?s b_state) && (b_state =?s STATE_CONNECTED) then 1
  else if negb (tv_sec a_start =? 0) && (tv_sec b_start =? 0) then -1
  else if negb (tv_sec b_start =? 0) && (tv_sec a_start =? 0) then 1
  else timeval_comp a_start b_start.

(** The group of the process itself. *)
Definition ipc_pgroup : M nat := n ← get_node IPC; mret (default 0%nat (pgroup n)).

(** [table[row][col]]. *)
Definition counter (t : list (list merlin_assigned_objects)) (row col : Z) : merlin_assigned_objects :=
  (t !!! Z.to_nat row) !!! Z.to_nat col.

Definition aso_add (a b : merlin_assigned_objects) : merlin_assigned_objects :=
  Aso (hosts a + hosts b) (services a + services b).

Definition aso_sub (a b : merlin_assigned_objects) : merlin_assigned_objects :=
  Aso (hosts a - hosts b) (services a - services b).

(** The body of the loop over the poller groups. *)
Definition reassign_group (ipg : nat) (i : nat) : M unit :=
  pg ← get_pgroup i;
  top ← get_pgroup ipg;
  let active := pg_active_nodes pg in
  if active =? 0 then
    if negb (has_flag (pg_flags pg) MERLIN_NODE_TAKEOVER) then mret tt else
    for_each (take (Z.to_nat (pg_active_nodes top)) (pg_nodes top)) (fun n =>
      node ← get_node n;
      if negb (state_of node =?s STATE_CONNECTED) then mret tt else
      on_node n (fun node => node <| extra ::= fun e =>
        aso_add e (counter (pg_inherit pg) (pg_active_nodes top - 1) (peer_id node)) |>))
  else
    on_pgroup ipg (fun top => top <| pg_assigned ::= fun a => aso_sub a (pg_assigned pg) |>) ;;
    for_each (pg_nodes pg) (fun n =>
      node ← get_node n;
      if negb (state_of node =?s STATE_CONNECTED) then on_node n (fun node => node <| current := zero_aso |>)
      else on_node n (fun node => node <| current := counter (pg_assign pg) (active - 1) (peer_id node) |>)).

(** shared/pgroup.c:19-80 pgroup_reassign_checks *)
Definition pgroup_reassign_checks : M unit :=
  ipg ← ipc_pgroup;
  h ← gets num_hosts;
  sv ← gets m_num_services;
  on_pgroup ipg (fun pg => pg <| pg_assigned := Aso h sv |>) ;;
  top ← get_pgroup ipg;
  for_each (take (Z.to_nat (pg_active_nodes top)) (pg_nodes top)) (fun n =>
    on_node n (fun node => node <| extra := zero_aso |>
      <| current := counter (pg_assign top) (pg_active_nodes top - 1) (peer_id node) |>)) ;;
  n ← gets (fun s => length (m_pgroups s));
  for_each (drop 1 (seq 0 n)) (reassign_group ipg).

Definition node_active (node : merlin_node) (n : nat) : bool :=
  bool_decide (n = IPC) || (state_of node =?s STATE_CONNECTED).

(** The loop of [pgroup_assign_peer_ids]: [i] is the loop counter. *)
Fixpoint number_peers (pg i : nat) (nodes : list nat) : M unit :=
  match nodes with
  | [] => mret tt
  | n :: nodes =>
      on_node n (fun node => node <| peer_id := Z.of_nat i |>) ;;
      node ← get_node n;
      (if node_active node n then on_pgroup pg (fun pg => pg <| pg_active_nodes ::= fun a => a +u 1 |>)
       else mret tt) ;;
      number_peers pg (S i) nodes
  end.

(** shared/pgroup.c:124-172 pgroup_assign_peer_ids *)
Definition pgroup_assign_peer_ids (pg : option nat) : M unit :=
  match pg with
  | None => mret tt
  | Some pg =>
      cmp ← gets cmp_peer;
      on_pgroup pg (fun g => g <| pg_nodes ::= qsort cmp |> <| pg_active_nodes := 0 |>) ;;
      g ← get_pgroup pg;
      number_peers pg 0 (pg_nodes g) ;;
      pgroup_reassign_checks ;;
      ipg ← ipc_pgroup;
      if bool_decide (pg = ipg) then
        on_node IPC (fun ipc => ipc <| info ::= fun i => i <| i_peer_id := peer_id ipc |>
          <| i_host_checks_handled := u32 (hosts (current ipc)) |>
          <| i_service_checks_handled := u32 (services (current ipc)) |> |>)
      else mret tt
  end.

(** ** Building the groups *)

(** shared/pgroup.c:174-192 pgroup_create -- returns the new group's index. *)
Definition pgroup_create (hgs : option (list ascii)) : M nat := fun s =>
  let i := length (m_pgroups s) in
  (i, s <| m_pgroups ::= fun pgs => pgs ++ [zero_pgroup <| pg_id := i |> <| pg_hostgroups := hgs |>] |>).

Definition hgs_match (hgs : list ascii) (pg : merlin_peer_group) : bool :=
  match pg_hostgroups pg with Some h => text_eqb h hgs | None => false end.

(** shared/pgroup.c:197-210 pgroup_get_by_cshgs *)
Definition pgroup_get_by_cshgs (hgs : list ascii) : M nat :=
  pgs ← gets m_pgroups;
  match list_find (fun pg => hgs_match hgs pg = true) pgs with
  | Some (i, _) => mret i
  | None => pgroup_create (Some hgs)
  end.

(** shared/pgroup.c:212-225 pgroup_alloc_counters -- row [i] has [i + 1] columns. *)
Definition pgroup_alloc_counters (i : nat) : M unit :=
  np ← gets num_peers;
  on_pgroup i (fun pg =>
    let n := Z.max (np + 1) (pg_total_nodes pg) in
    let rows := map (fun r => replicate (S r) zero_aso) (seq 0 (Z.to_nat n)) in
    pg <| pg_host_map := ∅ |> <| pg_service_map := ∅ |> <| pg_alloc := n |>
       <| pg_assign := rows |> <| pg_inherit := rows |>).

(** shared/pgroup.c:244-256 pgroup_add_node *)
Definition pgroup_add_node (i n : nat) : M unit :=
  node ← get_node n;
  on_pgroup i (fun pg => pg <| pg_flags ::= fun f => Z.lor f (Z.land (flags node) PGROUP_NODE_FLAGS) |>
                            <| pg_nodes ::= fun ns => ns ++ [n] |>) ;;
  on_node n (fun node => node <| pgroup := Some i |>).

(** shared/pgroup.c:261-275 pgroup_validate *)
Definition pgroup_validate (i : nat) : M Z :=
  pg ← get_pgroup i;
  s ← gets m_nodes;
  mret (if forallb (fun n => Z.land (flags (s !!! n)) PGROUP_NODE_FLAGS =? pg_flags pg) (pg_nodes pg)
        then 0 else 1).

(** ** Object ids *)

(** The increments of one object for every possible number of active nodes. *)
Definition bump (f : merlin_assigned_objects -> merlin_assigned_objects) (x : Z)
    (t : list (list merlin_assigned_objects)) : list (list merlin_assigned_objects) :=
  imap (fun n row => alter f (Z.to_nat (x mod (Z.of_nat n + 1))) row) t.

Definition inc_hosts (a : merlin_assigned_objects) : merlin_assigned_objects := a <| hosts ::= fun h => h + 1 |>.
Definition inc_services (a : merlin_assigned_objects) : merlin_assigned_objects := a <| services ::= fun v => v + 1 |>.

(** shared/pgroup.c:296-332 pg_create_id_convtables -- one of the two loops: over the ids of
    [ids], [x] counting those in [map]. *)
Fixpoint conv_loop (f : merlin_assigned_objects -> merlin_assigned_objects) (map : gset Z)
    (ids : list Z) (x : Z) (table : list Z) (assign inherit : list (list merlin_assigned_objects)) :
    list Z * list (list merlin_assigned_objects) * list (list merlin_assigned_objects) :=
  match ids with
  | [] => (table, assign, inherit)
  | i :: ids =>
      if bool_decide (i ∈ map)
      then conv_loop f map ids (x + 1) (<[Z.to_nat i := x]> table) (bump f x assign) (bump f i inherit)
      else conv_loop f map ids x table assign inherit
  end.

(** [for (i = 0; i < n; i++)]. *)
Definition ids_below (n : Z) : list Z := map Z.of_nat (seq 0 (Z.to_nat n)).

(** The lookup table after one of the loops: the ids of [map] belong to the group. *)
Definition claim_ids (pg : nat) (map : gset Z) (t : list (option nat)) : list (option nat) :=
  imap (fun i old => if bool_decide (Z.of_nat i ∈ map) then Some pg else old) t.

(** shared/pgroup.c:281-335 pg_create_id_convtables -- the allocations are taken to succeed. *)
Definition pg_create_id_convtables (i : nat) : M Z :=
  nh ← gets num_hosts;
  nsv ← gets m_num_services;
  pg ← get_pgroup i;
  let '(ht, asg, inh) := conv_loop inc_hosts (pg_host_map pg) (ids_below nh) 0
    (replicate (Z.to_nat nh) 0xffffffff) (pg_assign pg) (pg_inherit pg) in
  let '(st, asg, inh) := conv_loop inc_services (pg_service_map pg) (ids_below nsv) 0
    (replicate (Z.to_nat nsv) 0xffffffff) asg inh in
  on_pgroup i (fun pg => pg <| pg_host_id_table := Some ht |> <| pg_service_id_table := Some st |>
    <| pg_assign := asg |> <| pg_inherit := inh |>) ;;
  modify (fun s => s <| m_host_id2pg ::= claim_ids i (pg_host_map pg) |>
    <| m_service_id2pg ::= claim_ids i (pg_service_map pg) |>) ;;
  mret 0.

(** shared/pgroup.c:337-377 pgroup_hgroup_mapper *)
Definition pgroup_hgroup_mapper (i : nat) (h : host) : M unit :=
  pg ← get_pgroup i;
  if bool_decide (host_id h ∈ pg_host_map pg) then mret tt else
  handled ← gets m_handled_hosts;
  on_pgroup i (fun pg => pg <| pg_host_map ::= fun m => {[host_id h]} ∪ m |>
    <| pg_overlapping ::= fun o => if bool_decide (host_id h ∈ handled) then o + 1 else o |>
    <| pg_assigned ::= inc_hosts |>) ;;
  modify (fun s => s <| m_handled_hosts ::= fun m => {[host_id h]} ∪ m |>) ;;
  for_each (host_services h) (fun sv =>
    on_pgroup i (fun pg => pg <| pg_service_map ::= fun m => {[sv]} ∪ m |>
      <| pg_assigned ::= inc_services |>) ;;
    modify (fun s => s <| m_handled_services ::= fun m => {[sv]} ∪ m |>)).

(** shared/pgroup.c:379-383 map_pgroup_hgroup -- the members in the order of the tree. *)
Definition map_pgroup_hgroup (i : nat) (members : list nat) : M unit :=
  hs ← gets m_hosts;
  for_each members (fun h => pgroup_hgroup_mapper i (hs !!! h)).

(** The pieces of a comma-separated string, as the strchr loop visits them. *)
Fixpoint split_commas (s : list ascii) : list (list ascii) :=
  match s with
  | [] => [[]]
  | c :: s =>
      if Ascii.eqb c "," then [] :: split_commas s
      else match split_commas s with p :: ps => (c :: p) :: ps | [] => [[c]] end
  end.

(** shared/pgroup.c:395-419 pgroup_map_objects -- the host groups of one peer group; false
    when one is unknown. *)
Fixpoint map_hostgroups (i : nat) (names : list (list ascii)) : M bool :=
  match names with
  | [] => mret true
  | n :: names =>
      hgs ← gets m_hostgroups;
      match list_find (fun g => text_eqb g.1 n = true) hgs with
      | None => mret false
      | Some (_, (_, members)) =>
          map_pgroup_hgroup i members ;; pg_create_id_convtables i ;; map_hostgroups i names
      end
  end.

(** shared/pgroup.c:389-420 pgroup_map_objects -- the loop over the groups. *)
Fixpoint map_groups (gs : list nat) : M bool :=
  match gs with
  | [] => mret true
  | i :: gs =>
      pgroup_alloc_counters i ;;
      pg ← get_pgroup i;
      ok ← map_hostgroups i (match pg_hostgroups pg with Some h => split_commas h | None => [] end);
      if ok : bool then map_groups gs else mret false
  end.

(** shared/pgroup.c:422-437 pgroup_map_objects -- a host no poller handles is counted for
    every number of active peers. *)
Definition count_unhandled (ipg : nat) (h : host) : M unit :=
  handled ← gets m_handled_hosts;
  if bool_decide (host_id h ∈ handled) then mret tt else
  np ← gets num_peers;
  let upto := Z.to_nat (np + 1) in
  let bump1 f x t := bump f x (take upto t) ++ drop upto t in
  on_pgroup ipg (fun pg => pg <| pg_assign ::= bump1 inc_hosts (host_id h) |>) ;;
  for_each (host_services h) (fun sv =>
    on_pgroup ipg (fun pg => pg <| pg_assign ::= bump1 inc_services sv |>)).

(** shared/pgroup.c:385-483 pgroup_map_objects -- without the report it logs. *)
Definition pgroup_map_objects : M Z :=
  n ← gets (fun s => length (m_pgroups s));
  ok ← map_groups (seq 0 n);
  if negb ok then mret (-1) else
  ipg ← ipc_pgroup;
  hs ← gets m_hosts;
  for_each hs (count_unhandled ipg) ;;
  mret 0.

(** ** Host group strings *)

(** strcmp(3). *)
Fixpoint strcmp (a b : list ascii) : Z :=
  match a, b with
  | [], [] => 0
  | [], _ :: _ => -1
  | _ :: _, [] => 1
  | x :: a, y :: b =>
      if Ascii.eqb x y then strcmp a b
      else if (N_of_ascii x <? N_of_ascii y)%N then -1 else 1
  end.

Definition is_sep (c : ascii) : bool := Ascii.eqb c "," || Ascii.eqb c " " || Ascii.eqb c "009".

Fixpoint skip_seps (s : list ascii) : list ascii :=
  match s with c :: s' => if is_sep c then skip_seps s' else s | [] => [] end.

(** The text before the first comma and what follows it. *)
Fixpoint cut_comma (s : list ascii) : option (list ascii * list ascii) :=
  match s with
  | [] => None
  | c :: s =>
      if Ascii.eqb c "," then Some ([], s)
      else match cut_comma s with Some (a, b) => Some (c :: a, b) | None => None end
  end.

(** Trailing separators are zeroed by walking back from the comma. *)
Definition strip_end (s : list ascii) : list ascii := reverse (skip_seps (reverse s)).

(** shared/pgroup.c:509-526 get_sorted_csstr -- the entries; each turn consumes a comma, so
    the length of the string is enough fuel. *)
Fixpoint csstr_entries (fuel : nat) (s : list ascii) : list (list ascii) :=
  let p := skip_seps s in
  match fuel, cut_comma p with
  | S fuel, Some (a, rest) => strip_end a :: csstr_entries fuel rest
  | _, _ => [p]
  end.

(** shared/pgroup.c:540-544 get_sorted_csstr -- a comma is only added behind something. *)
Definition csstr_join (entries : list (list ascii)) : list ascii :=
  fold_left (fun ret e => (match ret with [] => [] | _ => ret ++ [","%char] end) ++ e) entries [].

(** The value of a call that may write outside its allocation. *)
Inductive csstr_result := CsStr (s : list ascii) | CsOverflow.

(** shared/pgroup.c:494-549 get_sorted_csstr -- the array has room for half as many entries
    as the string has characters. *)
Definition get_sorted_csstr (s : list ascii) : csstr_result :=
  let entries := csstr_entries (length s) s in
  if (length s / 2 <? length entries)%nat then CsOverflow
  else CsStr (csstr_join (qsort strcmp entries)).

(** ** Finding the node for a check *)

(** shared/pgroup.c:551-554 pgroup_by_host_id *)
Definition pgroup_by_host_id (i : Z) : M (option nat) :=
  gets (fun s => match m_host_id2pg s !! Z.to_nat i with Some pg => pg | None => None end).

(** shared/pgroup.c:556-559 pgroup_by_service_id *)
Definition pgroup_by_service_id (i : Z) : M (option nat) :=
  gets (fun s => match m_service_id2pg s !! Z.to_nat i with Some pg => pg | None => None end).

(** shared/pgroup.h:14-14 assigned_peer *)
Definition assigned_peer (i active : Z) : Z := if active =? 0 then 0 else i mod active.

(** shared/pgroup.c:574-590 pgroup_node *)
Definition pgroup_node (i : nat) (id_table : option (list Z)) (oid : Z) : M nat :=
  pg ← get_pgroup i;
  ipg ← ipc_pgroup;
  top ← get_pgroup ipg;
  let '(pg, real_id) :=
    match id_table with
    | None => (pg, oid)
    | Some t =>
        if negb (pg_active_nodes pg =? 0) || negb (has_flag (pg_flags pg) MERLIN_NODE_TAKEOVER)
        then (pg, t !!! Z.to_nat oid) else (top, oid)
    end in
  mret (pg_nodes pg !!! Z.to_nat (assigned_peer real_id (pg_active_nodes pg))).

(** shared/pgroup.c:592-601 pgroup_host_node *)
Definition pgroup_host_node (oid : Z) : M nat :=
  o ← pgroup_by_host_id oid;
  ipg ← ipc_pgroup;
  let i := default ipg o in
  pg ← get_pgroup i;
  pgroup_node i (pg_host_id_table pg) oid.

(** shared/pgroup.c:603-612 pgroup_service_node *)
Definition pgroup_service_node (oid : Z) : M nat :=
  o ← pgroup_by_service_id oid;
  ipg ← ipc_pgroup;
  let i := default ipg o in
  pg ← get_pgroup i;
  pgroup_node i (pg_service_id_table pg) oid.

(** ** Start and end *)

(** shared/pgroup.c:641-649 pgroup_init -- a poller joins the group of its host groups.  A
    poller without any never gets here: the configuration refuses it. *)
Definition add_poller (n : nat) : M bool :=
  node ← get_node n;
  match get_sorted_csstr (default [] (hostgroups node)) with
  | CsOverflow => mret false
  | CsStr hgs => pg ← pgroup_get_by_cshgs hgs; pgroup_add_node pg n ;; mret true
  end.

Fixpoint add_pollers (ns : list nat) : M bool :=
  match ns with
  | [] => mret true
  | n :: ns => ok ← add_poller n; if ok : bool then add_pollers ns else mret false
  end.

Definition add_peer (ipg n : nat) : M unit :=
  node ← get_node n;
  if type node =?s MODE_PEER then pgroup_add_node ipg n else mret tt.

(** shared/pgroup.c:614-657 pgroup_init -- [None] is the memory error of [get_sorted_csstr].
    Validation only ever warns. *)
Definition pgroup_init : M (option Z) :=
  nh ← gets num_hosts;
  nsv ← gets m_num_services;
  modify (fun s => s <| m_handled_hosts := ∅ |> <| m_handled_services := ∅ |>
    <| m_host_id2pg := replicate (Z.to_nat nh) None |>
    <| m_service_id2pg := replicate (Z.to_nat nsv) None |>) ;;
  ipg ← pgroup_create None;
  on_node IPC (fun ipc => ipc <| pgroup := Some ipg |>) ;;
  pgroup_add_node ipg IPC ;;
  table ← gets m_table;
  nn ← gets num_nodes;
  for_each (take (Z.to_nat nn) table) (add_peer ipg) ;;
  skip ← gets (fun s => Z.to_nat (num_masters s + num_peers s));
  np ← gets (fun s => Z.to_nat (num_pollers s));
  ok ← add_pollers (take np (drop skip table));
  if negb ok then mret None else
  r ← pgroup_map_objects;
  mret (Some r).

(** shared/pgroup.c:659-671 pgroup_deinit *)
Definition pgroup_deinit : M unit :=
  modify (fun s => s <| m_pgroups := [] |> <| m_handled_hosts := ∅ |> <| m_handled_services := ∅ |>
    <| m_host_id2pg := [] |> <| m_service_id2pg := [] |>).

(** ** What reassigning leaves alone *)

(** The parts of a node and of a group the numbering depends on. *)
Definition node_view (n : merlin_node) : Z * state * option nat * mode * Z * timeval :=
  (peer_id n, state_of n, pgroup n, type n, sock n, i_start (info n)).
Definition pg_view (g : merlin_peer_group) : list nat * Z * Z * option (list Z) * option (list Z) :=
  (pg_nodes g, pg_active_nodes g, pg_flags g, pg_host_id_table g, pg_service_id_table g).

Definition same_view (s s' : merlin) : Prop :=
  (forall n, node_view (m_nodes s' !!! n) = node_view (m_nodes s !!! n)) /\
  (forall i, pg_view (m_pgroups s' !!! i) = pg_view (m_pgroups s !!! i)) /\
  length (m_pgroups s') = length (m_pgroups s) /\
  m_host_id2pg s' = m_host_id2pg s /\ m_service_id2pg s' = m_service_id2pg s.

Lemma pgroup_on_pgroup i j f s :
  (i < length (m_pgroups s))%nat ->
  m_pgroups (on_pgroup i f s).2 !!! j =
    if decide (j = i) then f (m_pgroups s !!! i) else m_pgroups s !!! j.
Proof.
  intros Hi. cbn. case_decide; subst; [by rewrite list_lookup_total_insert_eq|
    by rewrite list_lookup_total_insert_ne].
Qed.

Lemma same_view_node n f s0 s :
  (forall node, node_view (f node) = node_view node) -> same_view s0 s -> same_view s0 (on_node n f s).2.
Proof.
  intros Hf (Hn & Hr). split; [|done]. intros m. rewrite node_on_node. case_decide; subst; [|done].
  by rewrite Hf.
Qed.

Lemma same_view_pgroup i f s0 s :
  (forall g, pg_view (f g) = pg_view g) -> same_view s0 s -> same_view s0 (on_pgroup i f s).2.
Proof.
  intros Hf (Hn & Hp & Hl & Hr). split_and!; try apply Hr; [done| |].
  - intros j. destruct (decide (i < length (m_pgroups s))%nat).
    + rewrite pgroup_on_pgroup by done. case_decide; subst; [|done]. by rewrite Hf.
    + cbn. by rewrite list_insert_ge by lia.
  - cbn. by rewrite length_insert.
Qed.

(** Runs a bind of the state monad on a pair. *)
Ltac step := unfold mbind at 1, ST_bind at 1; cbn beta iota.

Lemma same_view_reassign_group ipg i s0 s :
  same_view s0 s -> same_view s0 (reassign_group ipg i s).2.
Proof.
  intros Hs. unfold reassign_group, get_pgroup, get_node, gets, mbind, ST_bind, mret, ST_ret.
  destruct (pg_active_nodes (m_pgroups s !!! i) =? 0).
  - destruct (negb (has_flag _ _)); [done|]. apply for_each_inv; [done|].
    intros n s1 _ H1. destruct (negb _); [done|]. by apply same_view_node.
  - destruct (on_pgroup ipg _ s) as [u s1'] eqn:E.
    assert (same_view s0 s1') as H1.
    { change s1' with (u, s1').2. rewrite <- E. by apply same_view_pgroup. }
    apply for_each_inv; [done|]. intros n s2 _ H2. destruct (negb _); by apply same_view_node.
Qed.

Lemma same_view_reassign s : same_view s (pgroup_reassign_checks s).2.
Proof.
  unfold pgroup_reassign_checks, ipc_pgroup, get_pgroup, get_node, gets, mbind, ST_bind, mret, ST_ret.
  assert (forall u s1, same_view s s1 ->
    same_view s (for_each u (reassign_group (default 0%nat (pgroup (m_nodes s !!! IPC)))) s1).2) as Hf.
  { intros u s1 H1. apply for_each_inv; [done|]. intros i s2 _ H2. by apply same_view_reassign_group. }
  set (ipg := default 0%nat _) in *.
  destruct (on_pgroup ipg _ s) as [u s1] eqn:E.
  assert (same_view s s1) as H1.
  { change s1 with (u, s1).2. rewrite <- E. by apply same_view_pgroup. }
  match goal with |- context [for_each ?l ?f s1] => pose proof (for_each_inv (same_view s) l f s1 H1) as H2;
    destruct (for_each l f s1) as [u2 s2] end.
  apply Hf, H2. intros n s3 _ H3. by apply same_view_node.
Qed.

(** ** The order of the peers *)

Definition start_of (s : merlin) (n : nat) : timeval := i_start (info (m_nodes s !!! n)).

(** Start times are normalised and before 2038. *)
Definition starts_ok (s : merlin) : Prop :=
  forall n, 0 <= tv_sec (start_of s n) < 2 ^ 31 /\ 0 <= tv_usec (start_of s n) < 10 ^ 6.

Definition active (s : merlin) (n : nat) : bool := eff_state s n =?s STATE_CONNECTED.

(** Active first, then those that have told their start time, then by that time. *)
Definition peer_key (s : merlin) (n : nat) : Z :=
  (if active s n then 0 else 2 ^ 60) + (if tv_sec (start_of s n) =? 0 then 2 ^ 55 else 0) +
  tv_sec (start_of s n) * 2 ^ 20 + tv_usec (start_of s n).

Lemma cmp_peer_key s a b :
  starts_ok s -> (cmp_peer s a b <= 0 <-> peer_key s a <= peer_key s b).
Proof.
  intros Hs. destruct (Hs a) as [Ha Ha'], (Hs b) as [Hb Hb']. revert Ha Ha' Hb Hb'.
  unfold cmp_peer, peer_key, timeval_comp, active, start_of.
  generalize (i_start (info (m_nodes s !!! a))) as ta, (i_start (info (m_nodes s !!! b))) as tb.
  intros [sa ua] [sb ub]. cbn [tv_sec tv_usec]. intros.
  assert (- 2 ^ 31 <= ua - ub < 2 ^ 31) by lia. assert (- 2 ^ 31 <= sa - sb < 2 ^ 31) by lia.
  rewrite !s32_small by done.
  destruct (eff_state s a), (eff_state s b); cbn [negb andb bool_decide]; repeat case_bool_decide; try done;
    cbn [negb andb]; destruct (sa =? 0) eqn:?, (sb =? 0) eqn:?; cbn [negb andb];
    try destruct (sa =? sb) eqn:?; blia.
Qed.

Lemma cmp_peer_total s : starts_ok s -> cmp_total (cmp_peer s).
Proof.
  intros Hs. split; intros *; rewrite !cmp_peer_key by done; lia.
Qed.

(** ** The numbering loop *)

(** The node view without the number. *)
Definition node_fixed (n : merlin_node) : state * option nat * mode * Z * timeval :=
  (state_of n, pgroup n, type n, sock n, i_start (info n)).

Definition pg_fixed (g : merlin_peer_group) : list nat * Z * option (list Z) * option (list Z) :=
  (pg_nodes g, pg_flags g, pg_host_id_table g, pg_service_id_table g).

Definition same_fixed (s s' : merlin) : Prop :=
  (forall n, node_fixed (m_nodes s' !!! n) = node_fixed (m_nodes s !!! n)) /\
  (forall i, pg_fixed (m_pgroups s' !!! i) = pg_fixed (m_pgroups s !!! i)) /\
  length (m_pgroups s') = length (m_pgroups s).

Lemma same_view_fixed s s' : same_view s s' -> same_fixed s s'.
Proof.
  intros (Hn & Hp & Hl & _). split_and!; [| |done].
  - intros n. specialize (Hn n). unfold node_view, node_fixed in *. congruence.
  - intros i. specialize (Hp i). unfold pg_view, pg_fixed in *. congruence.
Qed.

Lemma same_fixed_trans s1 s2 s3 : same_fixed s1 s2 -> same_fixed s2 s3 -> same_fixed s1 s3.
Proof. intros (A & B & C) (D & E & F). split_and!; intros; congruence. Qed.

Lemma active_fixed s s' n : same_fixed s s' -> active s' n = active s n.
Proof.
  intros (Hn & _). specialize (Hn n). unfold node_fixed in Hn. unfold active, eff_state.
  assert (state_of (m_nodes s' !!! n) = state_of (m_nodes s !!! n)) as -> by congruence. done.
Qed.

Lemma node_active_active s n : node_active (m_nodes s !!! n) n = active s n.
Proof. unfold node_active, active, eff_state. destruct (bool_decide (n = IPC)); [symmetry; by apply bool_decide_eq_true_2|done]. Qed.

(** One turn of the loop. *)
Definition number_one (pg i n : nat) (s : merlin) : merlin :=
  let s1 := (on_node n (fun node => node <| peer_id := Z.of_nat i |>) s).2 in
  if active s n then (on_pgroup pg (fun pg => pg <| pg_active_nodes ::= fun a => a +u 1 |>) s1).2 else s1.

Lemma number_peers_cons pg i n l s :
  number_peers pg i (n :: l) s = number_peers pg (S i) l (number_one pg i n s).
Proof.
  cbn [number_peers]. unfold number_one, mbind, ST_bind, get_node, gets.
  destruct (on_node n _ s) as [u s1] eqn:E.
  assert (s1 = (on_node n (fun node => node <| peer_id := Z.of_nat i |>) s).2) as -> by by rewrite E.
  rewrite node_active_active. rewrite (active_fixed s).
  - cbn [snd]. destruct (active s n); [|done]. by destruct (on_pgroup pg _ _).
  - split_and!; [|done..]. intros m. rewrite node_on_node. by case_decide; subst.
Qed.

Lemma number_one_fixed pg i n s :
  (pg < length (m_pgroups s))%nat -> same_fixed s (number_one pg i n s).
Proof.
  intros Hpg. unfold number_one. set (s1 := (on_node n _ s).2).
  assert (same_fixed s s1) as H1.
  { split_and!; [|done..]. intros m. unfold s1. rewrite node_on_node. by case_decide; subst. }
  destruct (active s n); [|done]. eapply same_fixed_trans; [exact H1|]. split_and!; [done| |].
  - intros j. rewrite pgroup_on_pgroup by done. by case_decide; subst.
  - cbn. by rewrite length_insert.
Qed.

Lemma number_one_id pg i n s m :
  peer_id (m_nodes (number_one pg i n s) !!! m) =
  if decide (m = n) then Z.of_nat i else peer_id (m_nodes s !!! m).
Proof.
  unfold number_one. destruct (active s n);
    cbn; (case_decide; subst; [by rewrite lookup_total_insert_eq|by rewrite lookup_total_insert_ne]).
Qed.

Lemma number_one_active pg i n s :
  (pg < length (m_pgroups s))%nat ->
  pg_active_nodes (m_pgroups (number_one pg i n s) !!! pg) =
  if active s n then pg_active_nodes (m_pgroups s !!! pg) +u 1 else pg_active_nodes (m_pgroups s !!! pg).
Proof.
  intros Hpg. unfold number_one. destruct (active s n); [|done].
  rewrite pgroup_on_pgroup by done. by rewrite decide_True.
Qed.

Definition count_active (s : merlin) (l : list nat) : nat := length (List.filter (active s) l).

Lemma count_active_fixed s s' l : same_fixed s s' -> count_active s' l = count_active s l.
Proof.
  intros H. unfold count_active. f_equal. apply List.filter_ext. intros n. by apply active_fixed.
Qed.

Lemma count_active_cons s n l :
  count_active s (n :: l) = ((if active s n then 1 else 0) + count_active s l)%nat.
Proof. unfold count_active. cbn. by destruct (active s n). Qed.

Lemma count_active_zero s l : Forall (fun n => active s n = false) l -> count_active s l = 0%nat.
Proof. induction 1 as [|n l Hn Hl IH]; [done|]. by rewrite count_active_cons, Hn, IH. Qed.

Lemma number_peers_spec pg i l s :
  NoDup l -> (pg < length (m_pgroups s))%nat -> 0 <= pg_active_nodes (m_pgroups s !!! pg) < 2 ^ 32 ->
  let s' := (number_peers pg i l s).2 in
  same_fixed s s' /\
  (forall k n, l !! k = Some n -> peer_id (m_nodes s' !!! n) = Z.of_nat (i + k)) /\
  (forall n, n ∉ l -> peer_id (m_nodes s' !!! n) = peer_id (m_nodes s !!! n)) /\
  pg_active_nodes (m_pgroups s' !!! pg) =
    u32 (pg_active_nodes (m_pgroups s !!! pg) + Z.of_nat (count_active s l)).
Proof.
  intros Hnd. revert i s. induction Hnd as [|n l Hn Hnd IH]; intros i s Hpg Hr; cbn zeta.
  - split_and!; try done. cbn. by rewrite Z.add_0_r, u32_small.
  - rewrite number_peers_cons. pose proof (number_one_fixed pg i n s Hpg) as Hf.
    pose proof (number_one_active pg i n s Hpg) as Hone.
    destruct (IH (S i) (number_one pg i n s)) as (Hs & Hk & Ho & Ha).
    { by rewrite (proj2 (proj2 Hf)). }
    { rewrite Hone. destruct (active s n); [apply u32_range|done]. }
    split_and!; [by eapply same_fixed_trans| | |].
    + intros [|k] m Hm; cbn in Hm.
      * simplify_eq. rewrite Ho, number_one_id, decide_True by done. f_equal. lia.
      * rewrite (Hk k m Hm). f_equal. lia.
    + intros m Hm. apply not_elem_of_cons in Hm as [Hm1 Hm2].
      by rewrite Ho, number_one_id, decide_False by done.
    + rewrite Ha, Hone, (count_active_fixed s) by done. rewrite count_active_cons.
      destruct (active s n); [|done]. rewrite u32_add_l. f_equal. lia.
Qed.

(** The active nodes of a sorted list come first. *)
Lemma sorted_active_prefix (s : merlin) l :
  starts_ok s -> StronglySorted (fun a b => cmp_peer s a b <= 0) l ->
  forall k n, l !! k = Some n -> (active s n = true <-> (k < count_active s l)%nat).
Proof.
  intros Hok Hs. induction Hs as [|a l Hs IH Ha]; intros k n Hk; [done|]. rewrite count_active_cons.
  assert (forall b, active s a = false -> cmp_peer s a b <= 0 -> active s b = false) as Hdown.
  { intros b Ea Hb. destruct (active s b) eqn:Eb; [|done]. apply cmp_peer_key in Hb; [|done].
    unfold peer_key in Hb. rewrite Ea, Eb in Hb. destruct (Hok a), (Hok b). repeat case_match; lia. }
  destruct (active s a) eqn:Eact.
  - destruct k as [|k]; cbn in *; [simplify_eq; split; [lia|done]|]. rewrite (IH k n Hk). lia.
  - rewrite count_active_zero by (eapply Forall_impl; [exact Ha|]; intros b; by apply Hdown).
    destruct k as [|k]; cbn in Hk; [simplify_eq; rewrite Eact; split; [done|lia]|].
    rewrite Forall_lookup in Ha. rewrite (Hdown n) by eauto. split; [done|lia].
Qed.

Lemma count_active_perm s l l' : Permutation l l' -> count_active s l = count_active s l'.
Proof.
  induction 1; rewrite ?count_active_cons; lia.
Qed.

Lemma ipc_info_view s : same_view s
  (on_node IPC (fun ipc => ipc <| info ::= fun i => i <| i_peer_id := peer_id ipc |>
     <| i_host_checks_handled := u32 (hosts (current ipc)) |>
     <| i_service_checks_handled := u32 (services (current ipc)) |> |>) s).2.
Proof. apply same_view_node; [done|]. split_and!; done. Qed.

Lemma same_view_trans s1 s2 s3 : same_view s1 s2 -> same_view s2 s3 -> same_view s1 s3.
Proof. intros (A & B & C & D & E) (F & G & H & I & J). split_and!; intros; congruence. Qed.

(** What [pgroup_assign_peer_ids] does before it reassigns the checks. *)
Lemma assign_peer_ids_split i s :
  let s1 := (on_pgroup i (fun g => g <| pg_nodes ::= qsort (cmp_peer s) |> <| pg_active_nodes := 0 |>) s).2 in
  same_view (number_peers i 0 (pg_nodes (m_pgroups s1 !!! i)) s1).2 (pgroup_assign_peer_ids (Some i) s).2.
Proof.
  cbn zeta. unfold pgroup_assign_peer_ids, get_pgroup, ipc_pgroup, get_node, gets, mbind, ST_bind, mret, ST_ret.
  destruct (on_pgroup i _ s) as [u1 s1]. cbn [snd].
  destruct (number_peers i 0 _ s1) as [u2 s2]. cbn [snd].
  pose proof (same_view_reassign s2) as Hr. destruct (pgroup_reassign_checks s2) as [u3 s3]. cbn [snd] in Hr.
  destruct (bool_decide _); [|done]. eapply same_view_trans; [exact Hr|apply ipc_info_view].
Qed.

Lemma assign_peer_ids_spec i s :
  (i < length (m_pgroups s))%nat -> NoDup (pg_nodes (m_pgroups s !!! i)) -> starts_ok s ->
  Z.of_nat (length (pg_nodes (m_pgroups s !!! i))) < 2 ^ 32 ->
  let s' := (pgroup_assign_peer_ids (Some i) s).2 in
  let g := m_pgroups s' !!! i in
  pg_nodes g = qsort (cmp_peer s) (pg_nodes (m_pgroups s !!! i)) /\
  pg_active_nodes g = Z.of_nat (count_active s (pg_nodes g)) /\
  (forall n, node_fixed (m_nodes s' !!! n) = node_fixed (m_nodes s !!! n)) /\
  (forall k n, pg_nodes g !! k = Some n -> peer_id (m_nodes s' !!! n) = Z.of_nat k).
Proof.
  intros Hi Hnd Hok Hlen s' g. set (l := qsort (cmp_peer s) (pg_nodes (m_pgroups s !!! i))).
  pose proof (qsort_perm (cmp_peer s) (pg_nodes (m_pgroups s !!! i))) as Hp. fold l in Hp.
  pose proof (assign_peer_ids_split i s) as Hv. cbn zeta in Hv.
  set (s1 := (on_pgroup i _ s).2) in Hv.
  assert (m_pgroups s1 !!! i = (m_pgroups s !!! i) <| pg_nodes := l |> <| pg_active_nodes := 0 |>) as Hg1.
  { unfold s1. rewrite pgroup_on_pgroup by done. by rewrite decide_True. }
  assert (i < length (m_pgroups s1))%nat as Hi1 by (cbn; by rewrite length_insert).
  rewrite Hg1 in Hv. cbn [pg_nodes upd eta_rec] in Hv.
  destruct (number_peers_spec i 0 l s1) as (Hs2 & Hk & _ & Ha); [by rewrite Hp|done|by rewrite Hg1; cbn|].
  set (s2 := (number_peers i 0 l s1).2) in *. fold s' in Hv.
  destruct Hv as (Hvn & Hvp & _). pose proof (Hvp i) as Hgi. unfold pg_view in Hgi. fold g in Hgi.
  pose proof (proj1 (proj2 Hs2) i) as Hgf. unfold pg_fixed in Hgf. rewrite Hg1 in Hgf. cbn in Hgf.
  rewrite Hg1 in Ha. cbn [pg_active_nodes upd eta_rec] in Ha.
  assert (count_active s1 l = count_active s l) as Hc by done.
  assert (pg_nodes g = l) as Hgl by congruence.
  split_and!.
  - done.
  - rewrite Hgl, <- Hc. transitivity (pg_active_nodes (m_pgroups s2 !!! i)); [congruence|].
    rewrite Ha, Z.add_0_l, u32_small; [done|]. split; [lia|].
    eapply Z.le_lt_trans; [|exact Hlen]. rewrite <- Hp. unfold count_active.
    apply Nat2Z.inj_le. rewrite List.filter_length_le. done.
  - intros n. specialize (Hvn n). pose proof (proj1 Hs2 n) as Hn2. unfold node_view, node_fixed in *.
    change (m_nodes s1) with (m_nodes s) in Hn2. congruence.
  - intros k n Hkn. rewrite Hgl in Hkn. specialize (Hvn n). unfold node_view in Hvn.
    transitivity (peer_id (m_nodes s2 !!! n)); [congruence|]. by apply Hk.
Qed.

(** C10.  [pgroup_assign_peer_ids] numbers a group by rank: the nodes are those of before, each
    node's peer id is its position, the first [active_nodes] positions hold exactly the
    nodes that are connected (we ourselves always count), and they are in the order of
    their start times, nodes that have not told one last. *)
Theorem peer_ids_by_start i s :
  (i < length (m_pgroups s))%nat -> NoDup (pg_nodes (m_pgroups s !!! i)) -> starts_ok s ->
  Z.of_nat (length (pg_nodes (m_pgroups s !!! i))) < 2 ^ 32 ->
  let s' := (pgroup_assign_peer_ids (Some i) s).2 in
  let g := m_pgroups s' !!! i in
  Permutation (pg_nodes g) (pg_nodes (m_pgroups s !!! i)) /\
  (forall k n, pg_nodes g !! k = Some n ->
     peer_id (m_nodes s' !!! n) = Z.of_nat k /\
     (Z.of_nat k < pg_active_nodes g <-> n = IPC \/ state_of (m_nodes s !!! n) = STATE_CONNECTED)) /\
  StronglySorted (fun a b => peer_key s a <= peer_key s b) (pg_nodes g).
Proof.
  intros Hi Hnd Hok Hlen s' g.
  destruct (assign_peer_ids_spec i s Hi Hnd Hok Hlen) as (Hg & Ha & _ & Hk). fold s' g in Hg, Ha, Hk.
  pose proof (qsort_sorted (cmp_peer s) (pg_nodes (m_pgroups s !!! i)) (cmp_peer_total s Hok)) as Hs.
  rewrite <- Hg in Hs. split_and!.
  - rewrite Hg. apply qsort_perm.
  - intros k n Hkn. split; [by apply Hk|].
    pose proof (sorted_active_prefix s _ Hok Hs k n Hkn) as Hp. rewrite Ha.
    unfold active, eff_state in Hp. rewrite bool_decide_eq_true in Hp.
    destruct (bool_decide (n = IPC)) eqn:E; [apply bool_decide_eq_true in E|apply bool_decide_eq_false in E].
    + split; [by left|]. intros _. apply Nat2Z.inj_lt, Hp. done.
    + rewrite <- Nat2Z.inj_lt, <- Hp. tauto.
  - eapply strongly_sorted_weaken; [|exact Hs]. intros a b Hab. by apply cmp_peer_key.
Qed.

(** C11.  Every process of a group numbers it alike: two processes that see the same states
    and start times, in whatever order their tables list the nodes and whatever order
    qsort leaves equal elements in, end with the same sequence of keys, so that two nodes
    that can be told apart get the same number everywhere. *)
Theorem peer_ids_agree i1 s1 i2 s2 :
  starts_ok s1 -> starts_ok s2 ->
  (i1 < length (m_pgroups s1))%nat -> (i2 < length (m_pgroups s2))%nat ->
  NoDup (pg_nodes (m_pgroups s1 !!! i1)) -> NoDup (pg_nodes (m_pgroups s2 !!! i2)) ->
  Z.of_nat (length (pg_nodes (m_pgroups s1 !!! i1))) < 2 ^ 32 ->
  Permutation (map (peer_key s1) (pg_nodes (m_pgroups s1 !!! i1)))
              (map (peer_key s2) (pg_nodes (m_pgroups s2 !!! i2))) ->
  map (peer_key s1) (pg_nodes (m_pgroups (pgroup_assign_peer_ids (Some i1) s1).2 !!! i1)) =
  map (peer_key s2) (pg_nodes (m_pgroups (pgroup_assign_peer_ids (Some i2) s2).2 !!! i2)).
Proof.
  intros Hok1 Hok2 Hi1 Hi2 Hnd1 Hnd2 Hlen Hperm.
  assert (Z.of_nat (length (pg_nodes (m_pgroups s2 !!! i2))) < 2 ^ 32) as Hlen2.
  { apply Permutation_length in Hperm. rewrite !length_map in Hperm. by rewrite <- Hperm. }
  destruct (assign_peer_ids_spec i1 s1 Hi1 Hnd1 Hok1 Hlen) as (-> & _).
  destruct (assign_peer_ids_spec i2 s2 Hi2 Hnd2 Hok2 Hlen2) as (-> & _).
  assert (forall s l, starts_ok s -> StronglySorted Z.le (map (peer_key s) (qsort (cmp_peer s) l))) as Hsort.
  { intros s l Hok. pose proof (qsort_sorted (cmp_peer s) l (cmp_peer_total s Hok)) as Hs.
    induction Hs as [|a m Hm IH Ha]; cbn; constructor; [done|]. apply Forall_map.
    eapply Forall_impl; [exact Ha|]. intros b Hb. by apply cmp_peer_key. }
  apply (StronglySorted_unique Z.le); [by apply Hsort..|].
  by rewrite !qsort_perm.
Qed.

(** ** Choosing the node of a check *)

(** What the numbering establishes: the active nodes of the group come first. *)
Definition group_ok (s : merlin) (i : nat) : Prop :=
  let g := m_pgroups s !!! i in
  0 <= pg_active_nodes g <= Z.of_nat (length (pg_nodes g)) /\
  forall k n, pg_nodes g !! k = Some n -> (Z.of_nat k < pg_active_nodes g <-> active s n = true).

Lemma group_ok_pick s i x :
  group_ok s i -> 0 < pg_active_nodes (m_pgroups s !!! i) ->
  let n := pg_nodes (m_pgroups s !!! i) !!!
             Z.to_nat (assigned_peer x (pg_active_nodes (m_pgroups s !!! i))) in
  n ∈ pg_nodes (m_pgroups s !!! i) /\ active s n = true.
Proof.
  intros (Hr & Hk) Ha. cbn zeta. unfold assigned_peer.
  rewrite (proj2 (Z.eqb_neq _ _)) by lia.
  pose proof (Z.mod_pos_bound x (pg_active_nodes (m_pgroups s !!! i)) Ha) as Hm.
  destruct (lookup_lt_is_Some_2 (pg_nodes (m_pgroups s !!! i))
    (Z.to_nat (x mod pg_active_nodes (m_pgroups s !!! i)))) as [m Hl]; [lia|].
  rewrite (list_lookup_total_correct _ _ _ Hl).
  split; [by eapply list_elem_of_lookup_2|]. apply (Hk _ _ Hl). lia.
Qed.

(** The group a host's checks belong to. *)
Definition host_group (s : merlin) (oid : Z) : nat :=
  default (default 0%nat (pgroup (m_nodes s !!! IPC)))
    match m_host_id2pg s !! Z.to_nat oid with Some pg => pg | None => None end.

Lemma host_node_eq s oid :
  let i := host_group s oid in
  let pg := m_pgroups s !!! i in
  let top := m_pgroups s !!! default 0%nat (pgroup (m_nodes s !!! IPC)) in
  pgroup_host_node oid s =
  let '(g, r) := match pg_host_id_table pg with
    | None => (pg, oid)
    | Some t => if negb (pg_active_nodes pg =? 0) || negb (has_flag (pg_flags pg) MERLIN_NODE_TAKEOVER)
                then (pg, t !!! Z.to_nat oid) else (top, oid) end in
  (pg_nodes g !!! Z.to_nat (assigned_peer r (pg_active_nodes g)), s).
Proof.
  cbn zeta. unfold pgroup_host_node, pgroup_by_host_id, ipc_pgroup, pgroup_node, get_node, get_pgroup, gets,
    mbind, ST_bind, mret, ST_ret. fold (host_group s oid).
  destruct (pg_host_id_table _); [|done]. by destruct (negb _ || negb _).
Qed.

(** C12.  A host's check is given to a node that can run it: to an active node of the poller
    group that handles the host when one is up, to an active node of our own group when
    none is and takeover is on, and, only when takeover is off, to a node of the group
    that is not up (so that nobody runs it). *)
Theorem host_node_active s oid :
  let i := host_group s oid in
  let ipg := default 0%nat (pgroup (m_nodes s !!! IPC)) in
  let pg := m_pgroups s !!! i in
  group_ok s i -> group_ok s ipg -> 0 < pg_active_nodes (m_pgroups s !!! ipg) ->
  (0 < Z.of_nat (length (pg_nodes pg))) -> (i = ipg -> pg_host_id_table pg = None) ->
  (i <> ipg -> is_Some (pg_host_id_table pg)) ->
  let '(n, s') := pgroup_host_node oid s in
  s' = s /\
  (if 0 <? pg_active_nodes pg then n ∈ pg_nodes pg /\ active s n = true
   else if has_flag (pg_flags pg) MERLIN_NODE_TAKEOVER
   then n ∈ pg_nodes (m_pgroups s !!! ipg) /\ active s n = true
   else n ∈ pg_nodes pg /\ active s n = false).
Proof.
  intros i ipg pg Hok Htop Hact Hlen Hown Hpoll. rewrite host_node_eq. fold i. fold pg. fold ipg.
  destruct (decide (i = ipg)) as [Heq|Hne].
  - rewrite Hown by done. split; [done|]. unfold pg. rewrite Heq.
    rewrite (proj2 (Z.ltb_lt _ _)) by done. by apply group_ok_pick.
  - destruct (Hpoll Hne) as [t Ht]. rewrite Ht. destruct Hok as [Hr Hk].
    destruct (pg_active_nodes pg =? 0) eqn:Ea; cbn [negb orb].
    + apply Z.eqb_eq in Ea. rewrite (proj2 (Z.ltb_ge 0 _)) by lia.
      destruct (has_flag _ _); cbn [negb]; (split; [done|]); [by apply group_ok_pick|].
      unfold assigned_peer. rewrite Ea. cbn [Z.eqb].
      destruct (pg_nodes pg) as [|n ns] eqn:En; [cbn in Hlen; lia|].
      cbn. split; [left|]. destruct (active s n) eqn:E; [|done].
      apply (Hk 0%nat) in E; [fold pg in E; lia|]. fold pg. by rewrite En.
    + apply Z.eqb_neq in Ea. rewrite (proj2 (Z.ltb_lt _ _)) by (unfold pg in *; lia).
      split; [done|]. apply group_ok_pick; [done|unfold pg in *; lia].
Qed.

(** ** The conversion tables *)

Definition in_map (map : gset Z) (i : Z) : bool := bool_decide (i ∈ map).

(** [n] consecutive numbers from [x] on. *)
Definition upfrom (x : Z) (n : nat) : list Z := map (fun k => x + Z.of_nat k) (seq 0 n).

Lemma upfrom_S x n : upfrom x (S n) = x :: upfrom (x + 1) n.
Proof.
  unfold upfrom. cbn [seq map]. f_equal; [lia|]. rewrite <- seq_shift, map_map.
  apply map_ext. intros k. lia.
Qed.

(** The increments for all of [xs]. *)
Definition bump_all (f : merlin_assigned_objects -> merlin_assigned_objects) (xs : list Z)
    (t : list (list merlin_assigned_objects)) : list (list merlin_assigned_objects) :=
  fold_left (fun t x => bump f x t) xs t.

(** The loop gives the ids of [map] consecutive numbers from [x] on and counts each once. *)
Lemma conv_loop_spec f map ids : forall x table asg inh,
  NoDup ids -> Forall (fun i => 0 <= i < Z.of_nat (length table)) ids ->
  let '(t', a', h') := conv_loop f map ids x table asg inh in
  let sel := List.filter (in_map map) ids in
  (forall k i, sel !! k = Some i -> t' !! Z.to_nat i = Some (x + Z.of_nat k)) /\
  (forall j, (forall i, i ∈ sel -> Z.to_nat i <> j) -> t' !! j = table !! j) /\
  a' = bump_all f (upfrom x (length sel)) asg /\ h' = bump_all f sel inh.
Proof.
  induction ids as [|i ids IH]; intros x table asg inh Hnd Hr; cbn [conv_loop List.filter].
  - split_and!; done.
  - apply NoDup_cons in Hnd as [Hi Hnd]. apply Forall_cons in Hr as [Hri Hr].
    change (bool_decide (i ∈ map)) with (in_map map i). destruct (in_map map i) eqn:E.
    + specialize (IH (x + 1) (<[Z.to_nat i := x]> table) (bump f x asg) (bump f i inh) Hnd).
      rewrite length_insert in IH. specialize (IH Hr).
      destruct (conv_loop _ _ _ _ _ _ _) as [[t' a'] h']. destruct IH as (H1 & H2 & Ha & Hh).
      assert (forall j, j ∈ List.filter (in_map map) ids -> j ∈ ids /\ j <> i) as Hsel.
      { intros j Hj. apply list_elem_of_In, List.filter_In in Hj as [Hj _].
        apply list_elem_of_In in Hj. split; [done|]. by intros ->. }
      split_and!.
      * intros [|k] j Hk; cbn in Hk; [simplify_eq|].
        -- rewrite H2; [rewrite list_lookup_insert_eq by lia; by rewrite Z.add_0_r|].
           intros j' Hj'. destruct (Hsel j' Hj') as [Hj1 Hj2]. rewrite Forall_forall in Hr.
           specialize (Hr j' Hj1). lia.
        -- rewrite (H1 k j Hk). f_equal. lia.
      * intros j Hj. rewrite H2 by (intros j' Hj'; apply Hj; by right).
        rewrite list_lookup_insert_ne; [done|]. apply Hj. left.
      * cbn [length]. by rewrite upfrom_S, Ha.
      * done.
    + specialize (IH x table asg inh Hnd Hr). done.
Qed.

(** Row [n] of a counter table has [n + 1] columns. *)
Definition shape (t : list (list merlin_assigned_objects)) : Prop :=
  forall n row, t !! n = Some row -> length row = S n.

Lemma bump_length f x t : length (bump f x t) = length t.
Proof. apply length_imap. Qed.

Lemma bump_shape f x t : shape t -> shape (bump f x t).
Proof.
  intros Ht n row. unfold bump. rewrite list_lookup_imap.
  destruct (t !! n) as [r|] eqn:E; [|done]. cbn. intros [= <-]. by rewrite length_alter, (Ht n r).
Qed.

Lemma counter_bump f x t n p :
  shape t -> 0 <= n < Z.of_nat (length t) -> 0 <= p <= n ->
  counter (bump f x t) n p = if x mod (n + 1) =? p then f (counter t n p) else counter t n p.
Proof.
  intros Ht Hn Hp. unfold counter.
  destruct (lookup_lt_is_Some_2 t (Z.to_nat n)) as [row Hrow]; [lia|].
  pose proof (Ht _ _ Hrow) as Hlen.
  assert (bump f x t !!! Z.to_nat n = alter f (Z.to_nat (x mod (n + 1))) row) as ->.
  { apply list_lookup_total_correct. unfold bump. rewrite list_lookup_imap, Hrow. cbn.
    by rewrite Z2Nat.id by lia. }
  rewrite (list_lookup_total_correct _ _ _ Hrow).
  pose proof (Z.mod_pos_bound x (n + 1) ltac:(lia)) as Hm.
  destruct (x mod (n + 1) =? p) eqn:E; [apply Z.eqb_eq in E|apply Z.eqb_neq in E].
  - rewrite E. by rewrite list_lookup_total_alter_eq by lia.
  - by rewrite list_lookup_total_alter_ne by lia.
Qed.

(** How many of [xs] fall to column [p] of row [n]. *)
Definition share (n p : Z) (xs : list Z) : nat := length (List.filter (fun x => x mod (n + 1) =? p) xs).

Lemma bump_all_spec f xs t :
  shape t -> shape (bump_all f xs t) /\ length (bump_all f xs t) = length t /\
  forall n p, 0 <= n < Z.of_nat (length t) -> 0 <= p <= n ->
    counter (bump_all f xs t) n p = Nat.iter (share n p xs) f (counter t n p).
Proof.
  revert t. induction xs as [|x xs IH]; intros t Ht; [done|].
  change (bump_all f (x :: xs) t) with (bump_all f xs (bump f x t)).
  destruct (IH (bump f x t)) as (H1 & H2 & H3); [by apply bump_shape|].
  rewrite bump_length in H2, H3. split_and!; [done..|]. intros n p Hn Hp.
  rewrite (H3 n p Hn Hp), counter_bump by done. unfold share. cbn [List.filter].
  destruct (x mod (n + 1) =? p); [|done]. cbn [length].
  symmetry. apply Nat.iter_succ_r.
Qed.

Lemma iter_hosts k a : hosts (Nat.iter k inc_hosts a) = hosts a + Z.of_nat k.
Proof. induction k as [|k IH]; [cbn; lia|]. rewrite Nat.iter_succ. cbn [inc_hosts hosts upd eta_rec]. lia. Qed.

Lemma iter_services k a : hosts (Nat.iter k inc_services a) = hosts a.
Proof. induction k as [|k IH]; [done|]. by rewrite Nat.iter_succ. Qed.

Lemma ids_below_upfrom n : ids_below n = upfrom 0 (Z.to_nat n).
Proof. done. Qed.

Lemma upfrom_lookup x n k : (k < n)%nat -> upfrom x n !! k = Some (x + Z.of_nat k).
Proof.
  intros Hk. unfold upfrom. rewrite list_lookup_fmap, lookup_seq_lt by done. done.
Qed.

Lemma ids_below_ok n (l : list Z) :
  length l = Z.to_nat n ->
  NoDup (ids_below n) /\ Forall (fun i => 0 <= i < Z.of_nat (length l)) (ids_below n).
Proof.
  intros Hl. unfold ids_below. split.
  - apply NoDup_fmap_2; [|apply NoDup_seq]. intros a b H. lia.
  - apply Forall_fmap, Forall_forall. intros k Hk%elem_of_seq. cbn. lia.
Qed.

(** The numbers a table gives to the ids it numbers, in order, are 0, 1, 2, ... *)
Lemma table_numbers (sel t : list Z) :
  (forall k i, sel !! k = Some i -> t !! Z.to_nat i = Some (0 + Z.of_nat k)) ->
  map (fun i => t !!! Z.to_nat i) sel = upfrom 0 (length sel).
Proof.
  intros H. apply list_eq. intros k. destruct (decide (k < length sel)%nat) as [Hk|Hk].
  - rewrite upfrom_lookup by done. destruct (lookup_lt_is_Some_2 sel k Hk) as [i Hi].
    rewrite list_lookup_fmap, Hi. cbn. by rewrite (list_lookup_total_correct _ _ _ (H k i Hi)).
  - rewrite !lookup_ge_None_2; [done|..]; unfold upfrom; rewrite ?length_map, ?length_seq; lia.
Qed.

Lemma share_map n p g (xs : list Z) :
  share n p (map g xs) = length (List.filter (fun x => g x mod (n + 1) =? p) xs).
Proof.
  unfold share. induction xs as [|x xs IH]; [done|]. cbn. destruct (g x mod (n + 1) =? p); cbn; lia.
Qed.

(** [pg_create_id_convtables] numbers the hosts of a group 0, 1, 2, ... in the order of
    their ids, marks every other host with 0xffffffff, and adds to the accounting table,
    for every number of active nodes and every peer, exactly the number of the group's
    hosts that this numbering gives to that peer. *)
Theorem convtables_account i s :
  let g := m_pgroups s !!! i in
  (i < length (m_pgroups s))%nat -> shape (pg_assign g) -> shape (pg_inherit g) ->
  let '(r, s') := pg_create_id_convtables i s in
  let g' := m_pgroups s' !!! i in
  let sel := List.filter (in_map (pg_host_map g)) (ids_below (num_hosts s)) in
  r = 0 /\
  exists t, pg_host_id_table g' = Some t /\
    (forall k oid, sel !! k = Some oid -> t !! Z.to_nat oid = Some (Z.of_nat k)) /\
    (forall oid, 0 <= oid < num_hosts s -> oid ∉ pg_host_map g -> t !! Z.to_nat oid = Some 0xffffffff) /\
    (forall a p, 0 < a <= Z.of_nat (length (pg_assign g)) -> 0 <= p < a ->
       hosts (counter (pg_assign g') (a - 1) p) = hosts (counter (pg_assign g) (a - 1) p) +
         Z.of_nat (length (List.filter (fun oid => assigned_peer (t !!! Z.to_nat oid) a =? p) sel))).
Proof.
  intros g Hi Ha Hinh. unfold pg_create_id_convtables, get_pgroup, gets, mbind, ST_bind, mret, ST_ret.
  fold g. set (nh := num_hosts s). set (sel := List.filter _ (ids_below nh)).
  destruct (ids_below_ok nh (replicate (Z.to_nat nh) 0xffffffff)) as [Hnd Hr]; [apply length_replicate|].
  pose proof (conv_loop_spec inc_hosts (pg_host_map g) _ 0 _ (pg_assign g) (pg_inherit g) Hnd Hr) as H1.
  destruct (conv_loop _ _ (ids_below nh) _ _ _ _) as [[t a1] h1]. fold sel in H1.
  destruct H1 as (Ht & Ho & -> & ->).
  destruct (ids_below_ok (m_num_services s) (replicate (Z.to_nat (m_num_services s)) 0xffffffff))
    as [Hnd2 Hr2]; [apply length_replicate|].
  destruct (bump_all_spec inc_hosts (upfrom 0 (length sel)) (pg_assign g) Ha) as (Hs1 & Hl1 & Hc1).
  pose proof (conv_loop_spec inc_services (pg_service_map g) _ 0 _
    (bump_all inc_hosts (upfrom 0 (length sel)) (pg_assign g)) (bump_all inc_hosts sel (pg_inherit g)) Hnd2 Hr2) as H2.
  destruct (conv_loop _ _ (ids_below (m_num_services s)) _ _ _ _) as [[t2 a2] h2].
  destruct H2 as (_ & _ & -> & _).
  match goal with |- context [bump_all inc_services ?xs _] =>
    destruct (bump_all_spec inc_services xs _ Hs1) as (Hs2 & Hl2 & Hc2) end.
  destruct (on_pgroup i _ s) as [u s1] eqn:E1. cbn [modify]. split; [done|]. exists t.
  assert (m_pgroups s1 = m_pgroups (on_pgroup i _ s).2) as Hs1' by (by rewrite E1).
  cbn [m_pgroups upd eta_rec]. rewrite Hs1', pgroup_on_pgroup, decide_True by done.
  cbn [pg_host_id_table pg_assign upd eta_rec]. split_and!; [done|exact Ht| |].
  - intros oid Hoid Hn. rewrite Ho; [by apply lookup_replicate_2; lia|].
    intros j Hj. apply list_elem_of_In, List.filter_In in Hj as [Hj Hj'].
    unfold in_map in Hj'. apply bool_decide_eq_true in Hj'.
    apply list_elem_of_In in Hj. rewrite Forall_forall in Hr. specialize (Hr j Hj).
    intros Heq. apply Hn. by replace oid with j by lia.
  - intros a p Hap Hp. rewrite Hc2, iter_services, Hc1, iter_hosts by (rewrite ?Hl1; lia).
    do 2 f_equal. rewrite <- (table_numbers sel t Ht), share_map. f_equal.
    apply List.filter_ext. intros oid. unfold assigned_peer.
    rewrite (proj2 (Z.eqb_neq a 0)) by lia. by replace (a - 1 + 1) with a by lia.
Qed.

(** ** Host group strings *)

Lemma strcmp_trichotomy a b : strcmp a b = 0 /\ a = b \/ strcmp a b = -1 /\ strcmp b a = 1 \/
  strcmp a b = 1 /\ strcmp b a = -1.
Proof.
  revert b. induction a as [|x a IH]; intros [|y b]; cbn; auto.
  rewrite (Ascii.eqb_sym y x). destruct (Ascii.eqb x y) eqn:E.
  - apply Ascii.eqb_eq in E as ->. destruct (IH b) as [[H ->]|[H|H]]; auto.
  - destruct (N_of_ascii x <? N_of_ascii y)%N eqn:L1, (N_of_ascii y <? N_of_ascii x)%N eqn:L2; auto.
    + apply N.ltb_lt in L1, L2. lia.
    + apply N.ltb_ge in L1, L2. exfalso. apply Ascii.eqb_neq in E. apply E.
      rewrite <- (ascii_N_embedding x), <- (ascii_N_embedding y). f_equal. lia.
Qed.

Lemma strcmp_antisym a b : strcmp a b <= 0 -> strcmp b a <= 0 -> a = b.
Proof. destruct (strcmp_trichotomy a b) as [[_ ?]|[[? ?]|[? ?]]]; [done|lia..]. Qed.

Lemma strcmp_trans a b c : strcmp a b <= 0 -> strcmp b c <= 0 -> strcmp a c <= 0.
Proof.
  revert b c. induction a as [|x a IH]; intros [|y b] [|z c]; cbn; try lia.
  destruct (Ascii.eqb x y) eqn:E1, (Ascii.eqb y z) eqn:E2, (Ascii.eqb x z) eqn:E3;
    rewrite ?Ascii.eqb_eq, ?Ascii.eqb_neq in *; subst; try congruence; try apply IH;
    repeat split_if; rewrite ?N.ltb_lt, ?N.ltb_ge in *; lia.
Qed.

Lemma strcmp_total : cmp_total strcmp.
Proof.
  split; [|apply strcmp_trans]. intros a b.
  destruct (strcmp_trichotomy a b) as [[? ?]|[[? ?]|[? ?]]]; lia.
Qed.

(** A name in a list of host groups: neither empty nor with a comma. *)
Definition hg_name (e : list ascii) : Prop := e <> [] /\ ","%char ∉ e.

Lemma csstr_join_cons e es :
  e <> [] -> csstr_join (e :: es) = e ++ concat (map (cons ","%char) es).
Proof.
  intros He. unfold csstr_join. cbn [fold_left app].
  assert (forall acc, acc <> [] ->
    fold_left (fun ret e => (match ret with [] => [] | _ => ret ++ [","%char] end) ++ e) es acc =
    acc ++ concat (map (cons ","%char) es)) as H; [|by apply H].
  induction es as [|e' es IH]; intros acc Hacc; cbn; [by rewrite app_nil_r|].
  destruct acc as [|c acc]; [done|]. rewrite IH by done. by rewrite <- !app_assoc.
Qed.

Lemma split_commas_one e : ","%char ∉ e -> split_commas e = [e].
Proof.
  induction e as [|c e IH]; intros H; [done|]. apply not_elem_of_cons in H as [H1 H2]. cbn.
  rewrite (proj2 (Ascii.eqb_neq c ",")) by congruence. by rewrite IH.
Qed.

Lemma split_commas_app e s : ","%char ∉ e -> split_commas (e ++ ","%char :: s) = e :: split_commas s.
Proof.
  induction e as [|c e IH]; intros H; [done|]. apply not_elem_of_cons in H as [H1 H2]. cbn [app split_commas].
  rewrite (proj2 (Ascii.eqb_neq c ",")) by congruence. by rewrite IH.
Qed.

Lemma split_join e es :
  Forall hg_name (e :: es) -> split_commas (csstr_join (e :: es)) = e :: es.
Proof.
  intros H. rewrite csstr_join_cons by (by apply Forall_cons in H as [[? ?] ?]).
  revert e H. induction es as [|e' es IH]; intros e H; apply Forall_cons in H as [[Hne Hc] H].
  - cbn. rewrite app_nil_r. by apply split_commas_one.
  - cbn [map concat app]. rewrite split_commas_app by done. f_equal. by apply IH.
Qed.

(** The string that identifies a poller group does not depend on how its host groups are
    written: configurations that name the same groups, in any order and with any blanks,
    get the same string, and splitting it at commas gives the sorted names back. *)
Theorem sorted_csstr_canonical s1 s2 r1 r2 :
  Permutation (csstr_entries (length s1) s1) (csstr_entries (length s2) s2) ->
  get_sorted_csstr s1 = CsStr r1 -> get_sorted_csstr s2 = CsStr r2 ->
  Forall hg_name (csstr_entries (length s1) s1) -> csstr_entries (length s1) s1 <> [] ->
  r1 = r2 /\ Permutation (split_commas r1) (csstr_entries (length s1) s1) /\
  StronglySorted (fun a b => strcmp a b <= 0) (split_commas r1).
Proof.
  intros Hp. unfold get_sorted_csstr.
  destruct (_ <? _)%nat; [done|]. intros [= <-]. destruct (_ <? _)%nat; [done|]. intros [= <-].
  set (e1 := csstr_entries (length s1) s1) in *. set (e2 := csstr_entries (length s2) s2) in *.
  intros Hn Hne.
  assert (qsort strcmp e1 = qsort strcmp e2) as Heq.
  { assert (forall R : list ascii -> list ascii -> Prop, (forall a b, R a b -> R b a -> a = b) ->
      AntiSymm (=) R) as Has by (intros R HR a b; apply HR).
    eapply (StronglySorted_unique (fun a b => strcmp a b <= 0)); [apply qsort_sorted, strcmp_total..|].
    by rewrite !qsort_perm. Unshelve. apply Has, strcmp_antisym. }
  split; [by rewrite Heq|].
  assert (Forall hg_name (qsort strcmp e1)) as Hq by (by rewrite qsort_perm).
  pose proof (qsort_perm strcmp e1) as Hpe. pose proof (qsort_sorted strcmp e1 strcmp_total) as Hs.
  destruct (qsort strcmp e1) as [|e es]; [by apply Permutation_nil in Hpe|].
  by rewrite split_join.
Qed.

(** ** Mapping host groups to a peer group *)

(** The group counts every host of its map once, and every such host is known to be
    handled by a poller. *)
Definition mapped_ok (i : nat) (s : merlin) : Prop :=
  let g := m_pgroups s !!! i in
  (i < length (m_pgroups s))%nat /\
  hosts (pg_assigned g) = Z.of_nat (size (pg_host_map g)) /\
  pg_host_map g ⊆ m_handled_hosts s /\ pg_service_map g ⊆ m_handled_services s.

Lemma mapper_services_ok i l s :
  mapped_ok i s ->
  mapped_ok i (for_each l (fun sv =>
    on_pgroup i (fun pg => pg <| pg_service_map ::= fun m => {[sv]} ∪ m |> <| pg_assigned ::= inc_services |>) ;;
    modify (fun s => s <| m_handled_services ::= fun m => {[sv]} ∪ m |>)) s).2.
Proof.
  intros Hs. apply for_each_inv; [done|]. clear s Hs. intros sv s _ (Hi & Hh & Hm & Hsm).
  unfold mbind, ST_bind. destruct (on_pgroup i _ s) as [u s1] eqn:E.
  assert (s1 = (on_pgroup i _ s).2) as Hs1 by (by rewrite E).
  assert (m_pgroups s1 !!! i = (m_pgroups s !!! i) <| pg_service_map ::= fun m => {[sv]} ∪ m |>
    <| pg_assigned ::= inc_services |>) as Hg by (rewrite Hs1, pgroup_on_pgroup, decide_True by done; done).
  unfold mapped_ok. cbn [modify snd m_pgroups upd eta_rec m_handled_hosts m_handled_services].
  rewrite Hg. cbn [pg_assigned pg_host_map pg_service_map upd eta_rec inc_services hosts].
  rewrite Hs1. cbn. rewrite length_insert. split_and!; [done..|set_solver].
Qed.

Lemma mapper_ok i h s : mapped_ok i s -> mapped_ok i (pgroup_hgroup_mapper i h s).2.
Proof.
  intros Hok. pose proof Hok as (Hi & Hh & Hm & Hsm).
  unfold pgroup_hgroup_mapper, get_pgroup, gets, mbind, ST_bind, mret, ST_ret.
  case_bool_decide as Hin; [done|]. destruct (on_pgroup i _ s) as [u s1] eqn:E.
  assert (s1 = (on_pgroup i _ s).2) as Hs1 by (by rewrite E).
  cbn [modify]. apply mapper_services_ok. unfold mapped_ok.
  cbn [m_pgroups upd eta_rec m_handled_hosts m_handled_services].
  rewrite Hs1, pgroup_on_pgroup, decide_True by done.
  cbn [pg_assigned pg_host_map pg_service_map upd eta_rec inc_hosts hosts].
  rewrite size_union by set_solver. rewrite size_singleton. split_and!.
  - cbn. by rewrite length_insert.
  - lia.
  - change (m_handled_hosts (on_pgroup _ _ s).2) with (m_handled_hosts s). set_solver.
  - exact Hsm.
Qed.

Lemma mapper_host_map i h s :
  (i < length (m_pgroups s))%nat ->
  let s' := (pgroup_hgroup_mapper i h s).2 in
  (i < length (m_pgroups s'))%nat /\
  pg_host_map (m_pgroups s' !!! i) = {[host_id h]} ∪ pg_host_map (m_pgroups s !!! i).
Proof.
  intros Hi. unfold pgroup_hgroup_mapper, get_pgroup, gets, mbind, ST_bind, mret, ST_ret. cbn zeta.
  case_bool_decide as Hin; [split; [done|set_solver]|]. destruct (on_pgroup i _ s) as [u s1] eqn:E.
  assert (s1 = (on_pgroup i _ s).2) as Hs1 by (by rewrite E). cbn [modify].
  apply (for_each_inv (fun s' => (i < length (m_pgroups s'))%nat /\
    pg_host_map (m_pgroups s' !!! i) = {[host_id h]} ∪ pg_host_map (m_pgroups s !!! i))).
  - cbn [m_pgroups upd eta_rec]. rewrite Hs1, pgroup_on_pgroup, decide_True by done.
    split; [|done]. cbn. by rewrite length_insert.
  - intros sv s2 _ [H2 Hg2]. destruct (on_pgroup i _ s2) as [u3 s3] eqn:E3.
    assert (s3 = (on_pgroup i _ s2).2) as Hs3 by (by rewrite E3). cbn [modify snd m_pgroups upd eta_rec].
    rewrite Hs3, pgroup_on_pgroup, decide_True by done. split; [|done]. cbn. by rewrite length_insert.
Qed.

(** Mapping a host group to a peer group adds exactly its hosts to the group's map and
    counts each host once, however many of the group's host groups it is in: the number
    of assigned hosts stays the size of the map, and everything in the maps is marked as
    handled by pollers. *)
Theorem map_hgroup_counts_once i members s :
  mapped_ok i s ->
  let s' := (map_pgroup_hgroup i members s).2 in
  mapped_ok i s' /\
  pg_host_map (m_pgroups s' !!! i) =
    list_to_set (map (fun h => host_id (m_hosts s !!! h)) members) ∪ pg_host_map (m_pgroups s !!! i).
Proof.
  intros Hok. unfold map_pgroup_hgroup, gets, mbind, ST_bind. cbn zeta beta iota. split.
  - apply for_each_inv; [done|]. intros h s1 _. apply mapper_ok.
  - destruct Hok as (Hi & _). generalize (m_hosts s) as hs. intros hs. revert s Hi.
    induction members as [|h ms IH]; intros s Hi; cbn [for_each map list_to_set]; [set_solver|].
    unfold mbind, ST_bind. destruct (mapper_host_map i (hs !!! h) s Hi) as [H1 H2].
    destruct (pgroup_hgroup_mapper i (hs !!! h) s) as [u s1]. cbn [snd] in H1, H2.
    rewrite IH, H2 by done. set_solver.
Qed.

(** ** The conditions above, decided by evaluation *)

Lemma starts_ok_map s :
  map_Forall (fun _ n => (0 <= tv_sec (i_start (info n)) < 2 ^ 31) /\ 0 <= tv_usec (i_start (info n)) < 10 ^ 6)
    (m_nodes s) -> starts_ok s.
Proof.
  intros H n. unfold start_of. rewrite lookup_total_alt.
  destruct (m_nodes s !! n) as [node|] eqn:E; [by apply (H n)|done].
Qed.

Definition group_okb (s : merlin) (i : nat) : bool :=
  let g := m_pgroups s !!! i in
  (0 <=? pg_active_nodes g) && (pg_active_nodes g <=? Z.of_nat (length (pg_nodes g))) &&
  forallb (fun kn => Bool.eqb (Z.of_nat kn.1 <? pg_active_nodes g) (active s kn.2))
    (imap pair (pg_nodes g)).

Lemma group_okb_ok s i : group_okb s i = true -> group_ok s i.
Proof.
  unfold group_okb, group_ok. rewrite !andb_true_iff, forallb_forall. intros [[H1 H2] H3].
  split; [lia|]. intros k n Hk.
  specialize (H3 (k, n)). rewrite Bool.eqb_true_iff in H3. cbn in H3. rewrite <- Z.ltb_lt, H3; [done|].
  apply list_elem_of_In, list_elem_of_lookup. exists k. by rewrite list_lookup_imap, Hk.
Qed.

(** The numbering establishes what the choice of a node relies on. *)
Lemma assign_group_ok i s :
  (i < length (m_pgroups s))%nat -> NoDup (pg_nodes (m_pgroups s !!! i)) -> starts_ok s ->
  Z.of_nat (length (pg_nodes (m_pgroups s !!! i))) < 2 ^ 32 ->
  group_ok (pgroup_assign_peer_ids (Some i) s).2 i.
Proof.
  intros Hi Hnd Hok Hlen.
  destruct (assign_peer_ids_spec i s Hi Hnd Hok Hlen) as (Hg & Ha & Hf & _).
  pose proof (qsort_sorted (cmp_peer s) (pg_nodes (m_pgroups s !!! i)) (cmp_peer_total s Hok)) as Hs.
  rewrite <- Hg in Hs. split.
  - rewrite Ha. unfold count_active. split; [lia|]. apply Nat2Z.inj_le, List.filter_length_le.
  - intros k n Hk. rewrite Ha, <- Nat2Z.inj_lt, <- (sorted_active_prefix s _ Hok Hs k n Hk).
    assert (active (pgroup_assign_peer_ids (Some i) s).2 n = active s n) as ->; [|done].
    unfold active, eff_state. specialize (Hf n). unfold node_fixed in Hf.
    by replace (state_of (m_nodes (pgroup_assign_peer_ids (Some i) s).2 !!! n))
      with (state_of (m_nodes s !!! n)) by congruence.
Qed.

End Pgroup.

(** ** A small installation: ourselves, two peers, a poller and four hosts *)

#[local] Existing Instance QSort_insertion.

Definition demo_node (ty : mode) (st : state) (start : Z) (hg : option (list ascii)) : merlin_node :=
  zero_node <| type := ty |> <| state_of := st |> <| hostgroups := hg |>
    <| sock := if st =?s STATE_CONNECTED then 7 else -1 |>
    <| info := zero_info <| i_start := TV start 0 |> |>
    <| flags := match ty with MODE_POLLER => MERLIN_NODE_DEFAULT_POLLER_FLAGS | _ => 2 end |>.

Definition demo_ipc : merlin_node :=
  zero_node <| name := "ipc"%string |> <| flags := MERLIN_NODE_DEFAULT_IPC_FLAGS |>
    <| info := zero_info <| i_start := TV 200 5 |> <| i_configured_peers := 2 |> <| i_configured_pollers := 1 |> |>.

Definition demo0 : merlin :=
  Merlin (list_to_map [(0%nat, demo_ipc); (1%nat, demo_node MODE_PEER STATE_CONNECTED 100 None);
                       (2%nat, demo_node MODE_PEER STATE_NONE 0 None);
                       (3%nat, demo_node MODE_POLLER STATE_CONNECTED 50 (Some (str " hg"))) ])
    [1; 2; 3]%nat [] [] [] ∅ ∅
    [Host 0 "h0" [0] []; Host 1 "h1" [1; 2] [str "hg"]; Host 2 "h2" [] []; Host 3 "h3" [3] [str "hg"]] 4
    [(str "hg", [1; 3]%nat)] (BinlogConf "/var/lib/merlin" 10 100 true true) 1000 0
    (Io [] [] ∅) [] false ∅ ∅ (World ∅ ∅ 0 []) (true, 0) [] 40 15551 5 (-1) None DaemonNoSocket 0 None [] 15 (Checks ∅ (0, 0) ∅ ∅ []) zero_hooks.

Definition demo1 : merlin := Eval vm_compute in (pgroup_init demo0).2.
Definition demo2 : merlin := Eval vm_compute in (pgroup_assign_peer_ids (Some 1%nat) (pgroup_assign_peer_ids (Some 0%nat) demo1).2).2.

Lemma demo1_starts : starts_ok demo1.
Proof. apply starts_ok_map, (bool_decide_unpack _). vm_compute. exact I. Qed.

Lemma peer_ids_by_start_witness :
  let s' := (pgroup_assign_peer_ids (Some 0%nat) demo1).2 in
  let g := m_pgroups s' !!! 0%nat in
  pg_nodes g = [1; 0; 2]%nat /\ pg_active_nodes g = 2 /\
  Permutation (pg_nodes g) (pg_nodes (m_pgroups demo1 !!! 0%nat)) /\
  (forall k n, pg_nodes g !! k = Some n ->
     peer_id (m_nodes s' !!! n) = Z.of_nat k /\
     (Z.of_nat k < pg_active_nodes g <-> n = IPC \/ state_of (m_nodes demo1 !!! n) = STATE_CONNECTED)) /\
  StronglySorted (fun a b => peer_key demo1 a <= peer_key demo1 b) (pg_nodes g).
Proof.
  split; [vm_compute; reflexivity|]. split; [vm_compute; reflexivity|].
  apply (peer_ids_by_start 0 demo1).
  - vm_compute. lia.
  - apply (bool_decide_unpack _). vm_compute. exact I.
  - exact demo1_starts.
  - vm_compute. reflexivity.
Defined.

Lemma peer_ids_agree_witness :
  let other := demo1 <| m_pgroups ::= map (fun g => g <| pg_nodes ::= @reverse nat |>) |> in
  map (peer_key demo1) (pg_nodes (m_pgroups (pgroup_assign_peer_ids (Some 0%nat) demo1).2 !!! 0%nat)) =
  map (peer_key other) (pg_nodes (m_pgroups (pgroup_assign_peer_ids (Some 0%nat) other).2 !!! 0%nat)).
Proof.
  intros other. apply (peer_ids_agree 0 demo1 0 other).
  - exact demo1_starts.
  - apply starts_ok_map, (bool_decide_unpack _). vm_compute. exact I.
  - vm_compute. lia.
  - vm_compute. lia.
  - apply (bool_decide_unpack _). vm_compute. exact I.
  - apply (bool_decide_unpack _). vm_compute. exact I.
  - vm_compute. reflexivity.
  - vm_compute. match goal with |- Permutation ?l _ => exact (Permutation_rev l) end.
Defined.

Lemma host_node_active_witness :
  let '(n, s') := pgroup_host_node 3 demo2 in
  s' = demo2 /\ n ∈ pg_nodes (m_pgroups demo2 !!! 1%nat) /\ active demo2 n = true.
Proof.
  apply (host_node_active demo2 3); try (apply group_okb_ok; vm_compute; reflexivity);
    try (vm_compute; reflexivity); [intros H; vm_compute in H; discriminate H|].
  intros _. vm_compute. eexists. reflexivity.
Defined.

Lemma sorted_csstr_canonical_witness :
  let s1 := str "web ,db" in let s2 := str "db,  web" in
  exists r, get_sorted_csstr s1 = CsStr r /\
    r = str "db,web" /\ Permutation (split_commas r) (csstr_entries (length s1) s1) /\
    StronglySorted (fun a b => strcmp a b <= 0) (split_commas r).
Proof.
  intros s1 s2. exists (str "db,web"). split; [vm_compute; reflexivity|].
  apply (sorted_csstr_canonical s1 s2 (str "db,web") (str "db,web")).
  - change (Permutation [str "web"; str "db"] [str "db"; str "web"]). apply perm_swap.
  - vm_compute. reflexivity.
  - vm_compute. reflexivity.
  - change (Forall hg_name [str "web"; str "db"]).
    repeat constructor; try discriminate; apply (bool_decide_unpack _); vm_compute; exact I.
  - vm_compute. discriminate.
Defined.

(** Peer group 1 before its host groups are mapped. *)
Definition demo_unmapped : merlin :=
  demo1 <| m_pgroups ::= fun pgs => <[1%nat := (pgs !!! 1%nat) <| pg_host_map := ∅ |>
    <| pg_service_map := ∅ |> <| pg_assigned := zero_aso |>
    <| pg_assign := [[zero_aso]; [zero_aso; zero_aso]] |>
    <| pg_inherit := [[zero_aso]; [zero_aso; zero_aso]] |> ]> pgs |>.

Lemma map_hgroup_counts_once_witness :
  let s' := (map_pgroup_hgroup 1 [1; 3; 1]%nat demo_unmapped).2 in
  mapped_ok 1 s' /\
  pg_host_map (m_pgroups s' !!! 1%nat) =
    list_to_set (map (fun h => host_id (m_hosts demo_unmapped !!! h)) [1; 3; 1]%nat) ∪
    pg_host_map (m_pgroups demo_unmapped !!! 1%nat).
Proof.
  apply (map_hgroup_counts_once 1 [1; 3; 1]%nat demo_unmapped).
  split_and!; [vm_compute; lia|vm_compute; reflexivity|..]; apply (bool_decide_unpack _); vm_compute; exact I.
Defined.

Lemma convtables_account_witness :
  let s := (map_pgroup_hgroup 1 [1; 3]%nat demo_unmapped).2 in
  let g := m_pgroups s !!! 1%nat in
  let '(r, s') := pg_create_id_convtables 1 s in
  let g' := m_pgroups s' !!! 1%nat in
  let sel := List.filter (in_map (pg_host_map g)) (ids_below (num_hosts s)) in
  r = 0 /\
  exists t, pg_host_id_table g' = Some t /\
    (forall k oid, sel !! k = Some oid -> t !! Z.to_nat oid = Some (Z.of_nat k)) /\
    (forall oid, 0 <= oid < num_hosts s -> oid ∉ pg_host_map g -> t !! Z.to_nat oid = Some 0xffffffff) /\
    (forall a p, 0 < a <= Z.of_nat (length (pg_assign g)) -> 0 <= p < a ->
       hosts (counter (pg_assign g') (a - 1) p) = hosts (counter (pg_assign g) (a - 1) p) +
         Z.of_nat (length (List.filter (fun oid => assigned_peer (t !!! Z.to_nat oid) a =? p) sel))).
Proof.
  intros s g. apply (convtables_account 1 s).
  - vm_compute. lia.
  - intros n row. change (pg_assign _) with [[zero_aso]; [zero_aso; zero_aso]].
    destruct n as [|[|n]]; cbn; intros H; [injection H as <-|injection H as <-|]; done.
  - intros n row. change (pg_inherit _) with [[zero_aso]; [zero_aso; zero_aso]].
    destruct n as [|[|n]]; cbn; intros H; [injection H as <-|injection H as <-|]; done.
Defined.

(** ** Where the code goes wrong *)

(** A host group string of which more than half are names and commas of their own
    overruns the array of entries: a one-letter name is enough. *)
Theorem csstr_overrun : get_sorted_csstr (str "a") = CsOverflow /\
  get_sorted_csstr (str "a,b,c") = CsOverflow.
Proof. vm_compute. auto. Qed.

(** The tables are rebuilt after each host group of a poller group without clearing the
    counters, so that a group made of two host groups of one host each is accounted
    three hosts. *)
Theorem convtables_count_twice :
  let s := demo_unmapped <| m_hostgroups := [(str "g1", [1%nat]); (str "g2", [3%nat])] |> in
  let '(ok, s') := map_hostgroups 1 [str "g1"; str "g2"] s in
  ok = true /\ hosts (pg_assigned (m_pgroups s' !!! 1%nat)) = 2 /\
  hosts (counter (pg_assign (m_pgroups s' !!! 1%nat)) 0 0) = 3.
Proof. vm_compute. auto. Qed.
