(* ===== verification/Node.v ===== *)
(** * Nodes: shared/node.c

    The state machine of a node's connection, sending events to it (directly, or into
    its backlog while it cannot be reached), receiving events from it, and comparing
    its configuration with ours.  The callbacks a state change triggers are the ones
    module/module.c installs. *)

From S2P Require Import Prelude Binlog Packet Io Merlin Pgroup.

(** ** Node information on the wire *)

Definition info_bytes (i : merlin_nodeinfo) : list byte :=
  le_split 4 (i_version i) ++ le_split 4 (i_word_size i) ++ le_split 4 (i_byte_order i) ++
  le_split 4 (i_object_structure_version i) ++ le_split 8 (tv_sec (i_start i)) ++
  le_split 8 (tv_usec (i_start i)) ++ le_split 8 (i_last_cfg_change i) ++ i_config_hash i ++
  le_split 4 (i_peer_id i) ++ le_split 4 (i_active_peers i) ++ le_split 4 (i_configured_peers i) ++
  le_split 4 (i_active_pollers i) ++ le_split 4 (i_configured_pollers i) ++
  le_split 4 (i_active_masters i) ++ le_split 4 (i_configured_masters i) ++
  le_split 4 (i_host_checks_handled i) ++ le_split 4 (i_service_checks_handled i) ++
  le_split 4 (i_monitored_object_state_size i).

Definition info_of_bytes (l : list byte) : merlin_nodeinfo :=
  NodeInfo (num 0 4 l) (num 4 4 l) (num 8 4 l) (num 12 4 l)
    (TV (s64 (num 16 8 l)) (s64 (num 24 8 l))) (s64 (num 32 8 l)) (field 40 20 l)
    (num 60 4 l) (num 64 4 l) (num 68 4 l) (num 72 4 l) (num 76 4 l) (num 80 4 l) (num 84 4 l)
    (num 88 4 l) (num 92 4 l) (num 96 4 l).

Definition sizeof_nodeinfo : Z := 100.

Section Node.
Context {QS : QSort} {SD : Sodium}.

(** ** Accounting and the I/O broker *)

(** shared/node.c:641-676 node_log_event_count -- the log lines apart. *)
Definition node_log_event_count (n : nat) (force : bool) : M unit :=
  now ← time_now;
  node ← get_node n;
  let ll := last_logged (stats node) in
  if negb force && negb (ll =? 0) && (now <? ll + 60) then mret tt
  else on_node n (fun node => node <| stats ::= fun st => st <| last_logged := now |> |>).

(** close(2). *)
Definition sys_close (fd : Z) : M unit := modify (fun s => s <| m_open ::= fun o => o ∖ {[fd]} |>).

Definition iobroker_register (fd : Z) : M Z := fun s =>
  if fd <? 0 then (-1, s) else (0, s <| m_iob ::= fun o => {[fd]} ∪ o |>).

Definition iobroker_unregister (fd : Z) : M unit := modify (fun s => s <| m_iob ::= fun o => o ∖ {[fd]} |>).

Definition iobroker_close (fd : Z) : M unit := iobroker_unregister fd ;; sys_close fd.

(** ** The state machine *)

(** shared/node.c:66-92 node_set_state -- the test for a transition error. *)
Definition transition_error (from to : state) : bool :=
  match from with
  | STATE_NONE => negb ((to =?s STATE_PENDING) || (to =?s STATE_NEGOTIATING))
  | STATE_PENDING => false
  | STATE_NEGOTIATING => negb ((to =?s STATE_CONNECTED) || (to =?s STATE_NONE))
  | STATE_CONNECTED => negb (to =?s STATE_NONE)
  end.

(** shared/node.c:116-121 node_set_state -- the counter of active nodes a type has. *)
Definition count_info (ty : mode) (add : Z) (i : merlin_nodeinfo) : merlin_nodeinfo :=
  match ty with
  | MODE_POLLER => i <| i_active_pollers ::= fun c => u32 (c + add) |>
  | MODE_PEER => i <| i_active_peers ::= fun c => u32 (c + add) |>
  | MODE_NOC => i <| i_active_masters ::= fun c => u32 (c + add) |>
  | _ => i
  end.

(** module/module.c:1584-1601 node_action_handler *)
Definition node_action_handler (send_active : nat -> M unit) (n : nat) : M unit :=
  node ← get_node n;
  match state_of node with
  | STATE_CONNECTED => pgroup_assign_peer_ids (pgroup node)
  | STATE_NEGOTIATING => send_active n
  | STATE_NONE =>
      on_node n (fun node => node <| info := zero_info |>) ;;
      pgroup_assign_peer_ids (pgroup node) ;;
      on_node n (fun node => node <| sock := -1 |>)
  | STATE_PENDING => mret tt
  end.

(** module/module.c:1547-1581 ipc_action_handler *)
Definition ipc_action_handler (send_active : nat -> M unit) (prev : state) : M unit :=
  ipc ← get_node IPC;
  if state_of ipc =?s prev then mret tt else
  if negb (state_of ipc =?s STATE_CONNECTED) then mret tt else
  iobroker_register (sock ipc) ;; send_active IPC.

(** shared/node.c:126-149 node_set_state -- what follows the change of state. *)
Definition set_state_rest (send_active : nat -> M unit) (n : nat) (st prev : state) : M unit :=
  (if (st =?s STATE_NEGOTIATING) && negb (bool_decide (n = IPC)) then send_active n else mret tt) ;;
  node ← get_node n;
  if negb (state_of node =?s STATE_CONNECTED) && negb (prev =?s STATE_CONNECTED) then mret tt else
  (if bool_decide (n = IPC) then ipc_action_handler send_active prev
   else node_action_handler send_active n) ;;
  node ← get_node n;
  now ← time_now;
  if (state_of node =?s STATE_CONNECTED) && (0 <=? sock node)
  then on_node n (fun node => node <| last_recv := now |>) else mret tt.

(** shared/node.c:42-149 node_set_state -- on what it calls: [disc] for node_disconnect and
    [send_active] for node_send_ctrl_active of [ipc.info]. *)
Definition set_state_body (disc send_active : nat -> M unit) (n : nat) (st : state) : M unit :=
  node ← get_node n;
  if state_of node =?s st then mret tt else
  if negb (st =?s STATE_NONE) && negb (bool_decide (n = IPC)) && transition_error (state_of node) st
  then disc n else
  now ← time_now;
  let prev := state_of node in
  let add := if st =?s STATE_CONNECTED then 1 else if prev =?s STATE_CONNECTED then -1 else 0 in
  (if st =?s STATE_CONNECTED
   then on_node n (fun node => node <| connect_time := now |> <| csync_num_attempts := 0 |>) else mret tt) ;;
  on_node IPC (fun ipc => ipc <| info ::= count_info (type node) add |>) ;;
  on_node n (fun node => node <| state_of := st |>) ;;
  set_state_rest send_active n st prev.

(** Going to [STATE_NONE] neither fails nor sends anything. *)
Definition set_state_none (n : nat) : M unit :=
  set_state_body (fun _ => mret tt) (fun _ => mret tt) n STATE_NONE.

(** shared/node.c:713-742 node_disconnect *)
Definition node_disconnect (n : nat) : M unit :=
  node ← get_node n;
  (if state_of node =?s STATE_CONNECTED then node_log_event_count n true else mret tt) ;;
  iobroker_close (sock node) ;;
  on_node n (fun node => node <| sock := -1 |>) ;;
  set_state_none n ;;
  on_node n (fun node => node <| last_recv := 0 |>
    <| info ::= fun i => if bool_decide (n = IPC) then i else zero_info |> <| bq := [] |>).

(** Bytes from randombytes_buf. *)
Definition random_nonce : M (list byte) := fun s =>
  match m_random s with
  | [] => (replicate 24 Byte.x00, s)
  | r :: rs => (r, s <| m_random := rs |>)
  end.

(** The encrypted copy of a packet. *)
Definition node_encrypt (n : nat) (pkt : merlin_event) : M (Z * merlin_event) :=
  node ← get_node n;
  nonce ← random_nonce;
  '(done, init) ← gets m_sodium;
  let '(r, e, done) := encrypt_pkt done init (sharedkey node) nonce pkt in
  modify (fun s => s <| m_sodium := (done, init) |>) ;; mret (r, e).

(** shared/node.c:942-1013 node_send -- also returns the packet, which gets our uuid. *)
Definition node_send (n : nat) (pkt : merlin_event) (len : Z) : M (Z * merlin_event) :=
  node ← get_node n;
  if sock node <? 0 then mret (0, pkt) else
  ipc ← get_node IPC;
  let pkt := pkt <| hdr ::= fun h => h <| h_from_uuid ::= fun u => strcpy u (uuid ipc) |> |> in
  out ← (if encrypted node then
           '(r, e) ← node_encrypt n pkt;
           (if r =? -1 then node_disconnect n else mret tt) ;; mret e
         else mret pkt);
  node ← get_node n;
  sent ← lift_io (io_send_all (sock node) (take (Z.to_nat len) (pkt_bytes out)));
  if sent =? len then
    now ← time_now;
    on_node n (fun node => node <| stats ::= fun st => st <| by_sent ::= fun b => u64 (b + sent) |> |>
      <| last_action := s32 now |> <| last_sent := now |>) ;;
    mret (sent, pkt)
  else
    node_disconnect n ;;
    again ← gets m_again;
    mret (if sent <? 0 then if again : bool then 0 else sent else -1, pkt).

(** shared/node.c:1211-1239 node_ctrl *)
Definition node_ctrl (n : nat) (code selection : Z) (data : list byte) : M Z :=
  let len := Z.of_nat (length data) in
  if MAX_BODY <? len then mret (-1) else
  node ← get_node n;
  now ← time_now;
  us ← gets m_usec;
  let code := if (code =? CTRL_ACTIVE) && incompatible_cluster_config node
              then CTRL_INVALID_CLUSTER else code in
  let pkt := Event (blank_hdr <| h_sig := MERLIN_SIGNATURE |> <| h_protocol := MERLIN_PROTOCOL_VERSION |>
    <| h_sent := TV now us |> <| h_type := CTRL_PACKET |> <| h_len := len |>
    <| h_code := u16 code |> <| h_selection := u16 selection |>) data in
  '(r, _) ← node_send n pkt (packet_size pkt);
  mret r.

(** shared/node.h:331-334 node_send_ctrl_active -- of [ipc.info]. *)
Definition node_send_ctrl_active (n : nat) : M unit :=
  ipc ← get_node IPC;
  node_ctrl n CTRL_ACTIVE CTRL_GENERIC (info_bytes (info ipc)) ;; mret tt.

(** shared/node.c:42-149 node_set_state *)
Definition node_set_state (n : nat) (st : state) : M unit :=
  set_state_body node_disconnect node_send_ctrl_active n st.

(** ** The backlog of a node *)

(** A call on the node's binlog, which takes the disk along. *)
Definition on_binlog {A} (d : A) (n : nat) (f : binlog -> world -> A * binlog * world) : M A := fun s =>
  match node_binlog (m_nodes s !!! n) with
  | None => (d, s)
  | Some bl =>
      let '(a, bl, w) := f bl (m_world s) in
      let '(_, s) := on_node n (fun node => node <| node_binlog := Some bl |>) s in
      (a, s <| m_world := w |>)
  end.

Definition entries (n : nat) : M Z :=
  node ← get_node n;
  mret (match node_binlog node with Some bl => binlog_num_entries bl | None => 0 end).

Definition wipe (n : nat) : M unit :=
  on_binlog tt n (fun bl w => let '(bl, w) := binlog_wipe bl BINLOG_UNLINK w in (tt, bl, w)).

(** shared/node.c:744-778 node_create_binlog *)
Definition node_create_binlog (n : nat) : M Z :=
  node ← get_node n;
  match node_binlog node with
  | Some _ => mret 0
  | None =>
      bc ← gets m_binlog;
      if negb (bc_writable bc) then mret (-1) else
      let path := (bc_dir bc +:+ "/module." +:+ name node +:+ ".binlog")%string in
      if Z.of_nat (String.length path) <? 15 then mret (-1) else
      w ← gets m_world;
      let '(o, w) := binlog_create (Some path) (u64 (bc_max_memory bc * 1024 * 1024))
                       (u64 (bc_max_file bc * 1024 * 1024)) BINLOG_UNLINK w in
      modify (fun s => s <| m_world := w |>) ;;
      on_node n (fun node => node <| node_binlog := o |>) ;;
      mret (match o with Some _ => 0 | None => -1 end)
  end.

(** The bytes a pointer to the packet and its size denote. *)
Definition packet_mem (pkt : merlin_event) : list byte :=
  take (Z.to_nat (packet_size pkt)) (pkt_bytes pkt).

(** shared/node.c:780-821 node_binlog_add *)
Definition node_binlog_add (n : nat) (pkt : merlin_event) : M Z :=
  if (h_type (hdr pkt) =? CTRL_PACKET) &&
     ((h_code (hdr pkt) =? CTRL_ACTIVE) || (h_code (hdr pkt) =? CTRL_INACTIVE)) then mret 0 else
  c ← node_create_binlog n;
  if negb (c =? 0) then mret (-1) else
  result ← on_binlog BINLOG_EADDRESS n (fun bl w => binlog_add bl (packet_mem pkt) (packet_size pkt) w);
  if result =? BINLOG_ENOSPC then
    on_binlog false n (fun bl w => let '(b, bl) := binlog_full_warning bl in (b, bl, w)) ;; mret 0
  else
    (if result <? 0 then
       wipe n ;;
       on_node n (fun node => node <| stats ::= fun st =>
         st <| ev_dropped ::= fun d => u64 (d + (ev_logged st + 1)) |>
            <| by_dropped ::= fun d => u64 (d + (by_logged st + packet_size pkt)) |>
            <| ev_logged := 0 |> <| by_logged := 0 |> |>)
     else
       on_node n (fun node => node <| stats ::= fun st =>
         st <| ev_logged ::= fun l => u64 (l + 1) |>
            <| by_logged ::= fun l => u64 (l + packet_size pkt) |> |>)) ;;
    node_log_event_count n false ;;
    mret result.

(** The checks on a packet that comes out of a backlog. *)
Definition bad_packet (buf : option (list byte)) (len : Z) : bool :=
  match buf with
  | None => true
  | Some b =>
      let p := pkt_of_bytes b in
      negb (packet_size p =? s32 len) || (len =? 0) || (packet_size p =? 0) ||
      (MAX_PKT_SIZE <? packet_size p)
  end.

(** A turn that could not send: put the event back and queue the new one behind it, or
    give the backlog up. *)
Definition send_binlog_failed (n : nat) (pkt : option merlin_event) (t : merlin_event) (len result : Z) : M Z :=
  e ← entries n;
  (if (result =? BINLOG_EMPTY) || (e =? 0) then wipe n else mret tt) ;;
  u ← (if result <=? 0 then
         on_binlog BINLOG_EADDRESS n (fun bl w => binlog_unread bl (take (Z.to_nat len) (pkt_bytes t)) len w)
       else mret (-1));
  if (result <=? 0) && (u =? 0) then
    match pkt with Some p => node_binlog_add n p | None => mret 0 end
  else
    wipe n ;;
    (match pkt with
     | Some p => on_node n (fun node => node <| stats ::= fun st =>
         st <| ev_dropped ::= fun d => u64 (d + (ev_logged st + 1)) |>
            <| by_dropped ::= fun d => u64 (d + (by_logged st + packet_size p)) |> |>)
     | None => mret tt end) ;;
    node_log_event_count n false ;;
    mret (-1).

(** shared/node.c:1129-1204 node_send_binlog -- the loop; each turn takes an entry off the
    backlog, so its number of entries is enough fuel; [None] when it is not. *)
Fixpoint send_binlog_loop (fuel : nat) (n : nat) (pkt : option merlin_event) : M (option Z) :=
  match fuel with
  | O => mret None
  | S fuel =>
      node ← get_node n;
      ok ← lift_io (io_poll (sock node));
      if ok =? 0 then mret (Some 0) else
      '(r, buf, len) ← on_binlog (BINLOG_EADDRESS, None, 0) n (fun bl w =>
        let '(r, buf, len, bl, w) := binlog_read bl 0 w in ((r, buf, len), bl, w));
      if negb (r =? 0) then mret (Some 0) else
      if bad_packet buf len then wipe n ;; mret (Some (-1)) else
      '(result, t) ← (let t := pkt_of_bytes (default [] buf) in node_send n t (packet_size t));
      if result =? packet_size t then
        on_node n (fun node => node <| stats ::= fun st =>
          st <| ev_sent ::= fun e => u64 (e + 1) |> <| ev_logged ::= fun l => u64 (l - 1) |>
             <| by_logged ::= fun l => u64 (l - packet_size t) |> |>) ;;
        send_binlog_loop fuel n pkt
      else v ← send_binlog_failed n pkt t len result; mret (Some v)
  end.

(** shared/node.c:1129-1204 node_send_binlog *)
Definition node_send_binlog (n : nat) (pkt : option merlin_event) : M (option Z) :=
  e ← entries n;
  send_binlog_loop (S (Z.to_nat e)) n pkt.

(** shared/node.c:1073-1127 node_send_event -- also returns the packet with the fields that
    sending sets; [msec] only matters by its sign. *)
Definition node_send_event (n : nat) (pkt : merlin_event) (msec : Z) : M (Z * merlin_event) :=
  let pkt := pkt <| hdr ::= fun h => h <| h_sig := MERLIN_SIGNATURE |>
                                       <| h_protocol := MERLIN_PROTOCOL_VERSION |> |> in
  node_log_event_count n false ;;
  if MAX_PKT_SIZE <? packet_size pkt then mret (-1, pkt) else
  let queue := (r ← node_binlog_add n pkt; mret (r, pkt)) in
  node ← get_node n;
  if (sock node <? 0) || negb (state_of node =?s STATE_CONNECTED) then queue else
  ok ← (if 0 <=? msec then lift_io (io_poll (sock node)) else mret 1);
  if ok =? 0 then queue else
  e ← entries n;
  (if e =? 0 then mret None else node_send_binlog n (Some pkt)) ;;
  e ← entries n;
  if negb (e =? 0) then queue else
  '(result, pkt) ← node_send n pkt (packet_size pkt);
  if result =? packet_size pkt then
    items ← gets m_cb_items;
    on_node n (fun node => node <| stats ::= fun st =>
      st <| ev_sent ::= fun e => u64 (e + 1) |>
         <| cb_out ::= fun c => if h_type (hdr pkt) <? items + 1
              then <[h_type (hdr pkt) := u32 ((c !!! h_type (hdr pkt)) + 1)]> c else c |> |>) ;;
    mret (0, pkt)
  else if result <=? 0 then
    r ← node_binlog_add n pkt; mret (if r =? 0 then 0 else -1, pkt)
  else mret (-1, pkt).

(** shared/node.c:852-870 node_binlog_read_saved -- the loop: [None] when a bad packet is met,
    true when all was read.  The entries of the saved log are enough fuel. *)
Fixpoint read_saved_loop (fuel : nat) (n : nat) (saved : binlog) : M (option binlog) :=
  match fuel with
  | O => mret (Some saved)
  | S fuel =>
      w ← gets m_world;
      let '(r, buf, len, saved, w) := binlog_read saved 0 w in
      modify (fun s => s <| m_world := w |>) ;;
      if negb (r =? 0) then mret (Some saved) else
      if bad_packet buf len then mret None else
      on_binlog 0 n (fun bl w => binlog_add bl (default [] buf) len w) ;;
      read_saved_loop fuel n saved
  end.

(** The value of [node_binlog_read_saved]; the last one leaves the node with a pointer to
    the backlog it has just freed. *)
Inductive saved_result := SavedRet (r : Z) | SavedFreed.

(** shared/node.c:823-880 node_binlog_read_saved *)
Definition node_binlog_read_saved (n : nat) : M saved_result :=
  bc ← gets m_binlog;
  if negb (bc_persist bc) then mret (SavedRet 0) else
  c ← node_create_binlog n;
  if negb (c =? 0) then mret (SavedRet (-1)) else
  o ← on_binlog None n (fun bl w => let '(o, w) := binlog_get_saved bl w in (o, bl, w));
  match o with
  | None => mret (SavedRet 0)
  | Some saved =>
      r ← read_saved_loop (S (Z.to_nat (binlog_num_entries saved))) n saved;
      match r with
      | None =>
          on_binlog tt n (fun bl w => (tt, bl, binlog_destroy bl BINLOG_UNLINK w)) ;; mret SavedFreed
      | Some saved =>
          modify (fun s => s <| m_world ::= binlog_destroy saved BINLOG_UNLINK |>) ;; mret (SavedRet 0)
      end
  end.

(** ** Receiving *)

(** A read from a socket into the buffer queue: the count, or a failure with whether
    errno is EAGAIN. *)
Definition bq_read (n : nat) : M (Z * bool) := fun s =>
  match m_recvs s with
  | [] => ((-1, true), s)
  | r :: rs =>
      let s := s <| m_recvs := rs |> in
      match r with
      | RecvData l => let '(_, s) := on_node n (fun node => node <| bq ::= fun q => q ++ l |>) s in
          ((Z.of_nat (length l), false), s)
      | RecvAgain => ((-1, true), s)
      | RecvErr => ((-1, false), s)
      | RecvEof => ((0, false), s)
      end
  end.

(** shared/node.c:892-935 node_recv *)
Definition node_recv (n : nat) : M Z :=
  node ← get_node n;
  if sock node <? 0 then mret (-1) else
  '(bytes_read, again) ← bq_read n;
  if 0 <? bytes_read then
    now ← time_now;
    on_node n (fun node => node <| last_action := s32 now |> <| last_recv := now |>
      <| stats ::= fun st => st <| by_read ::= fun b => u64 (b + bytes_read) |> |>) ;;
    mret bytes_read
  else if again : bool then mret 0
  else node_disconnect n ;; mret (-1).

(** What [node_get_event] yields; the last one is a packet whose buffer, of the given size,
    is shorter than its own header says. *)
Inductive got := NoEvent | Got (p : merlin_event) | GotShort (size : Z).

(** shared/node.c:1052-1056 node_get_event -- the decryption. *)
Definition node_decrypt (n : nat) (p : merlin_event) : M merlin_event :=
  node ← get_node n;
  if negb (encrypted node) then mret p else
  '(done, init) ← gets m_sodium;
  let '(r, p, done) := decrypt_pkt done init (sharedkey node) p in
  modify (fun s => s <| m_sodium := (done, init) |>) ;;
  (if r =? -1 then node_disconnect n else mret tt) ;;
  mret p.

(** shared/node.c:1020-1066 node_get_event -- [HDR_SIZE + hdr.len] is an unsigned int. *)
Definition node_get_event (n : nat) : M got :=
  node ← get_node n;
  if Z.of_nat (length (bq node)) <? HDR_SIZE then mret NoEvent else
  let h := hdr_of_bytes (bq node) in
  let size := HDR_SIZE +u h_len h in
  if Z.of_nat (length (bq node)) <? size then mret NoEvent else
  if negb (h_sig h =? MERLIN_SIGNATURE) then node_disconnect n ;; mret NoEvent else
  on_node n (fun node => node <| stats ::= fun st => st <| ev_read ::= fun e => u64 (e + 1) |> |>
    <| bq := drop (Z.to_nat size) (bq node) |>) ;;
  if size <? HDR_SIZE + h_len h then mret (GotShort size) else
  p ← node_decrypt n (pkt_of_bytes (take (Z.to_nat size) (bq node)));
  mret (Got p).

(** ** Comparing configurations *)

Definition ESYNC_EVERSION : Z := -2.
Definition ESYNC_EWORDSIZE : Z := -3.
Definition ESYNC_EENDIAN : Z := -4.
Definition ESYNC_EOBJECTS : Z := -5.
Definition ESYNC_EPROTO : Z := -7.
Definition ESYNC_ECONFTIME : Z := -8.
Definition ESYNC_ENODES : Z := -9.
Definition MERLIN_NODEINFO_VERSION : Z := 1.
Definition COMPAT_WORDSIZE : Z := 64.
Definition ENDIANNESS : Z := 1234.

(** shared/node.c:1248-1310 node_compat_cmp -- [objver] is Naemon's
    CURRENT_OBJECT_STRUCTURE_VERSION. *)
Definition node_compat_cmp (objver : Z) (pkt : merlin_event) : Z :=
  let info := info_of_bytes (body pkt) in
  let len := h_len (hdr pkt) in
  if len <? sizeof_nodeinfo then ESYNC_EPROTO
  else if s32 (i_version info - MERLIN_NODEINFO_VERSION) <? 0 then ESYNC_EVERSION
  else if len <? sizeof_nodeinfo then ESYNC_EVERSION
  else if negb (i_word_size info =? COMPAT_WORDSIZE) then ESYNC_EWORDSIZE
  else if negb (i_byte_order info =? ENDIANNESS) then ESYNC_EENDIAN
  else if negb (i_object_structure_version info =? objver) then ESYNC_EOBJECTS
  else 0.

(** shared/node.c:1318-1360 node_mconf_cmp -- [ours] is [ipc.info], [total] the size of the
    node's own peer group. *)
Definition node_mconf_cmp (ty : mode) (total : Z) (ours info : merlin_nodeinfo) : Z :=
  let err :=
    match ty with
    | MODE_PEER =>
        negb (i_configured_peers info =? i_configured_peers ours) ||
        negb (i_configured_masters info =? i_configured_masters ours) ||
        negb (i_configured_pollers info =? i_configured_pollers ours)
    | MODE_POLLER =>
        negb (i_configured_masters info =? i_configured_peers ours +u 1) ||
        negb (i_configured_peers info =? total -u 1)
    | MODE_NOC => negb (i_configured_peers info =? i_configured_masters ours -u 1)
    | _ => false
    end in
  if err then ESYNC_ENODES else 0.

(** Whether the text [p] occurs in [s], strstr(3). *)
Fixpoint contains (p s : list ascii) : bool :=
  has_prefix p s || match s with [] => false | _ :: s => contains p s end.

Definition fetches (cs : merlin_confsync) : bool :=
  match cs_fetch cs with
  | Some cmd => negb (String.eqb cmd "no") && contains (str "mon oconf fetch") (str cmd)
  | None => false
  end.

(** shared/node.c:1369-1437 node_oconf_cmp -- the difference of the times is an int. *)
Definition node_oconf_cmp (node : merlin_node) (ours info : merlin_nodeinfo) : Z :=
  let tdelta := s32 (i_last_cfg_change info - i_last_cfg_change (expected node)) in
  if type node =?s MODE_MASTER then
    if fetches (csync node) then
      if 0 <? tdelta then 1 else if tdelta <? 0 then -1 else 0
    else 0
  else if bool_decide (i_config_hash info = i_config_hash (expected node)) then 0
  else if tdelta =? 0 then
    if type node =?s MODE_POLLER then -1
    else if tv_sec (i_start ours) <? tv_sec (i_start info) then -1
    else if tv_sec (i_start info) <? tv_sec (i_start ours) then 1
    else if tv_usec (i_start ours) <? tv_usec (i_start info) then -1
    else if tv_usec (i_start ours) =? tv_usec (i_start info) then -1
    else 1
  else tdelta.

(** shared/node.c:1439-1449 handle_ctrl_active *)
Definition handle_ctrl_active (objver : Z) (n : nat) (pkt : merlin_event) : M Z :=
  node ← get_node n;
  ipc ← get_node IPC;
  pgs ← gets m_pgroups;
  let i := info_of_bytes (body pkt) in
  let total := match pgroup node with Some g => pg_total_nodes (pgs !!! g) | None => 0 end in
  let c := node_compat_cmp objver pkt in
  if negb (c =? 0) then mret c else
  let c := node_mconf_cmp (type node) total (info ipc) i in
  if negb (c =? 0) then mret c else
  mret (if node_oconf_cmp node (info ipc) i =? 0 then 0 else ESYNC_ECONFTIME).

(** shared/node.c:163-169 node_by_id *)
Definition node_by_id (i : Z) : M (option nat) := gets (fun s =>
  if negb (num_nodes s =? 0) && (i <? num_nodes s) then m_table s !! Z.to_nat i else None).

(** shared/pgroup.c:561-572 pgroup_send_event -- the packet is shared by the calls. *)
Fixpoint send_to_all (ns : list nat) (pkt : merlin_event) (ret : Z) : M (Z * merlin_event) :=
  match ns with
  | [] => mret (ret, pkt)
  | n :: ns => '(r, pkt) ← node_send_event n pkt 0; send_to_all ns pkt (Z.lor ret r)
  end.

(** shared/pgroup.c:561-572 pgroup_send_event *)
Definition pgroup_send_event (i : nat) (pkt : merlin_event) : M (Z * merlin_event) :=
  pg ← get_pgroup i;
  send_to_all (pg_nodes pg) pkt 0.

(** shared/node.c:1468-1518 node_blocked_hostgroup -- [check] tells a precheck of a host or
    of a service from other events; both come down to the host. *)
Definition node_blocked_hostgroup (n : nat) (blocked : list (list ascii)) (check : bool) (h : host) : bool :=
  if negb (bool_decide (n = IPC)) then false else
  if bool_decide (blocked = []) then false else
  if negb check then false else
  existsb (fun g => existsb (text_eqb g) blocked) (host_hostgroups h).

(** ** What numbering the peers leaves alone *)

(** A node without what the numbering and the accounting of checks write. *)
Definition strip (n : merlin_node) : merlin_node :=
  n <| peer_id := 0 |> <| extra := zero_aso |> <| current := zero_aso |>
    <| info ::= fun i => i <| i_peer_id := 0 |> <| i_host_checks_handled := 0 |>
         <| i_service_checks_handled := 0 |> |>.

(** The process but for its nodes and groups. *)
Definition outside (s : merlin) : merlin := s <| m_nodes := ∅ |> <| m_pgroups := [] |>.

Definition keeps (s s' : merlin) : Prop :=
  (forall n, strip (m_nodes s' !!! n) = strip (m_nodes s !!! n)) /\ outside s' = outside s.

Lemma keeps_refl s : keeps s s.
Proof. done. Qed.

Lemma keeps_node n f s0 s :
  (forall node, strip (f node) = strip node) -> keeps s0 s -> keeps s0 (on_node n f s).2.
Proof.
  intros Hf [Hn Ho]. split; [|done]. intros m. rewrite node_on_node.
  case_decide; subst; [by rewrite Hf|done].
Qed.

Lemma keeps_pgroup i f s0 s : keeps s0 s -> keeps s0 (on_pgroup i f s).2.
Proof. done. Qed.

Lemma keeps_reassign_group ipg i s0 s : keeps s0 s -> keeps s0 (reassign_group ipg i s).2.
Proof.
  intros Hs. unfold reassign_group, get_pgroup, get_node, gets, mbind, ST_bind, mret, ST_ret.
  destruct (_ =? 0).
  - destruct (negb (has_flag _ _)); [done|]. apply for_each_inv; [done|].
    intros n s1 _ H1. destruct (negb _); [done|]. by apply keeps_node.
  - destruct (on_pgroup ipg _ s) as [u s1] eqn:E.
    assert (keeps s0 s1) as H1.
    { change s1 with (u, s1).2. rewrite <- E. by apply keeps_pgroup. }
    apply for_each_inv; [done|]. intros n s2 _ H2. destruct (negb _); by apply keeps_node.
Qed.

Lemma keeps_reassign s0 s : keeps s0 s -> keeps s0 (pgroup_reassign_checks s).2.
Proof.
  intros Hs. unfold pgroup_reassign_checks, ipc_pgroup, get_pgroup, get_node, gets, mbind, ST_bind, mret, ST_ret.
  destruct (on_pgroup _ _ s) as [u s1] eqn:E.
  assert (keeps s0 s1) as H1 by (change s1 with (u, s1).2; rewrite <- E; by apply keeps_pgroup).
  match goal with |- context [for_each ?l ?f s1] => pose proof (for_each_inv (keeps s0) l f s1 H1) as H2;
    destruct (for_each l f s1) as [u2 s2] end.
  apply for_each_inv; [|intros i s3 _; apply keeps_reassign_group].
  apply H2. intros n s3 _ H3. by apply keeps_node.
Qed.

Lemma keeps_number pg l : forall i s0 s, keeps s0 s -> keeps s0 (number_peers pg i l s).2.
Proof.
  induction l as [|n l IH]; intros i s0 s Hs; [done|]. rewrite number_peers_cons. apply IH.
  unfold number_one. destruct (active s n); [apply keeps_pgroup|]; by apply keeps_node.
Qed.

Lemma keeps_assign pg s0 s : keeps s0 s -> keeps s0 (pgroup_assign_peer_ids pg s).2.
Proof.
  intros Hs. destruct pg as [pg|]; [|done].
  unfold pgroup_assign_peer_ids, get_pgroup, ipc_pgroup, get_node, gets, mbind, ST_bind, mret, ST_ret.
  destruct (on_pgroup pg _ s) as [u1 s1] eqn:E1.
  assert (keeps s0 s1) as H1 by (change s1 with (u1, s1).2; rewrite <- E1; by apply keeps_pgroup).
  pose proof (keeps_number pg (pg_nodes (m_pgroups s1 !!! pg)) 0 s0 s1 H1) as H2.
  destruct (number_peers pg 0 _ s1) as [u2 s2]. pose proof (keeps_reassign s0 s2 H2) as H3.
  destruct (pgroup_reassign_checks s2) as [u3 s3]. destruct (bool_decide _); [|done]. by apply keeps_node.
Qed.

(** ** The counters of active nodes *)

(** The counter of a type in an information structure. *)
Definition active_of (ty : mode) (i : merlin_nodeinfo) : Z :=
  match ty with
  | MODE_POLLER => i_active_pollers i | MODE_PEER => i_active_peers i | MODE_NOC => i_active_masters i
  | _ => 0
  end.

Definition is_counted (ty : mode) : bool :=
  match ty with MODE_POLLER | MODE_PEER | MODE_NOC => true | _ => false end.

(** The connected nodes of a type in the table. *)
Definition connected_of (ty : mode) (s : merlin) : Z :=
  Z.of_nat (length (List.filter (fun n =>
    (type (m_nodes s !!! n) =?s ty) && (state_of (m_nodes s !!! n) =?s STATE_CONNECTED)) (m_table s))).

(** [self->active_*] is the number of connected nodes of the type; [ipc], which is none of
    the types counted, is not in the table. *)
Definition counters_ok (s : merlin) : Prop :=
  NoDup (m_table s) /\ IPC ∉ m_table s /\ is_counted (type (m_nodes s !!! IPC)) = false /\
  Z.of_nat (length (m_table s)) < 2 ^ 32 /\
  forall ty, is_counted ty = true -> active_of ty (info (m_nodes s !!! IPC)) = connected_of ty s.

(** Types, states and our own counters are the same. *)
Definition same_conn (s s' : merlin) : Prop :=
  (forall n, type (m_nodes s' !!! n) = type (m_nodes s !!! n)) /\
  (forall n, n <> IPC -> state_of (m_nodes s' !!! n) = state_of (m_nodes s !!! n)) /\
  (forall ty, active_of ty (info (m_nodes s' !!! IPC)) = active_of ty (info (m_nodes s !!! IPC))) /\
  m_table s' = m_table s.

Lemma same_conn_counters s s' : same_conn s s' -> counters_ok s -> counters_ok s'.
Proof.
  intros (Hn & Hst & Hi & Ht) (Hnd & Hipc & Hty & Hlen & Hc).
  split_and!; rewrite ?Ht, ?Hn; try done.
  intros ty Hc1. rewrite Hi, (Hc ty Hc1). unfold connected_of. rewrite Ht. do 2 f_equal.
  apply List.filter_ext_in. intros n Hin%list_elem_of_In. rewrite Hn, Hst; [done|]. by intros ->.
Qed.

Lemma same_conn_trans s1 s2 s3 : same_conn s1 s2 -> same_conn s2 s3 -> same_conn s1 s3.
Proof.
  intros (A & B & C & D) (E & F & G & H). split_and!; [congruence| |congruence..].
  intros n Hn. by rewrite F, B.
Qed.

Lemma keeps_same_conn s s' : keeps s s' -> same_conn s s'.
Proof.
  intros [Hn Ho]. split_and!.
  - intros n. exact (f_equal type (Hn n)).
  - intros n _. exact (f_equal state_of (Hn n)).
  - intros ty. specialize (Hn IPC). apply (f_equal (fun n => active_of ty (info n))) in Hn.
    destruct ty; exact Hn.
  - exact (f_equal m_table Ho).
Qed.

(** The invariant together with the node being a known one. *)
Definition conn_inv (n : nat) (s : merlin) : Prop := counters_ok s /\ (n ∈ m_table s \/ n = IPC).

Lemma conn_inv_same n s s' : same_conn s s' -> conn_inv n s -> conn_inv n s'.
Proof.
  intros H [Hc Hn]. split; [by eapply same_conn_counters|]. by rewrite (proj2 (proj2 (proj2 H))).
Qed.

(** An assignment that touches neither type nor state, nor our own counters. *)
Lemma same_conn_node n f s :
  (forall node, type (f node) = type node /\ state_of (f node) = state_of node) ->
  (forall node ty, n = IPC -> active_of ty (info (f node)) = active_of ty (info node)) ->
  same_conn s (on_node n f s).2.
Proof.
  intros Hf Hi. split_and!; [intros m|intros m _|intros ty|done]; rewrite node_on_node;
    (case_decide; subst; [|done]); [apply Hf|apply Hf|by apply Hi].
Qed.

Lemma pres_node m n f :
  (forall node, type (f node) = type node /\ state_of (f node) = state_of node) ->
  (forall node ty, n = IPC -> active_of ty (info (f node)) = active_of ty (info node)) ->
  preserves (conn_inv m) (on_node n f).
Proof. intros H1 H2 s. apply conn_inv_same. by apply same_conn_node. Qed.

Lemma pres_modify m f :
  (forall s, m_nodes (f s) = m_nodes s /\ m_table (f s) = m_table s) -> preserves (conn_inv m) (modify f).
Proof.
  intros H. apply preserves_modify. intros s. apply conn_inv_same. destruct (H s) as [Hn Ht].
  by split_and!; rewrite ?Hn.
Qed.

Lemma pres_lift_io {A} m (c : ST io A) : preserves (conn_inv m) (lift_io c).
Proof.
  intros s. apply conn_inv_same. unfold lift_io. destruct (c (m_io s)). by split_and!.
Qed.

Lemma pres_assign m pg : preserves (conn_inv m) (pgroup_assign_peer_ids pg).
Proof. intros s. apply conn_inv_same, keeps_same_conn, keeps_assign, keeps_refl. Qed.

Lemma pres_register m fd : preserves (conn_inv m) (iobroker_register fd).
Proof. intros s. apply conn_inv_same. unfold iobroker_register. destruct (fd <? 0); by split_and!. Qed.

#[local] Hint Resolve pres_lift_io pres_assign pres_register : pres.
#[local] Hint Extern 5 (preserves (conn_inv _) (on_node _ _)) => apply pres_node; by intros : pres.

Lemma pres_close m fd : preserves (conn_inv m) (iobroker_close fd).
Proof. unfold iobroker_close, iobroker_unregister, sys_close. preserve; by apply pres_modify. Qed.

Lemma pres_log m n force : preserves (conn_inv m) (node_log_event_count n force).
Proof. unfold node_log_event_count. preserve. Qed.

#[local] Hint Resolve pres_close pres_log : pres.

(** Counting the elements of a list without repetitions when one changes. *)
Lemma filter_update (P P' : nat -> bool) l n :
  NoDup l -> n ∈ l -> (forall m, m <> n -> P' m = P m) ->
  (length (List.filter P' l) + (if P n then 1 else 0) =
   length (List.filter P l) + (if P' n then 1 else 0))%nat.
Proof.
  intros Hnd Hn HP. induction Hnd as [|m l Hm Hnd IH]; [by apply not_elem_of_nil in Hn|].
  cbn. destruct (decide (m = n)) as [->|Hne].
  - rewrite (List.filter_ext_in P' P l); [destruct (P n), (P' n); cbn; lia|].
    intros a Ha. apply HP. intros ->. by apply list_elem_of_In in Ha.
  - apply elem_of_cons in Hn as [?|Hn]; [congruence|]. rewrite (HP m Hne).
    specialize (IH Hn). destruct (P m); cbn; lia.
Qed.

(** The step of the state machine that counts. *)
Definition count_step (n : nat) (st : state) (s : merlin) : merlin :=
  let node := m_nodes s !!! n in
  let add := if st =?s STATE_CONNECTED then 1 else if state_of node =?s STATE_CONNECTED then -1 else 0 in
  (on_node n (fun node => node <| state_of := st |>)
    (on_node IPC (fun ipc => ipc <| info ::= count_info (type node) add |>) s).2).2.

Lemma count_step_node n st s m :
  n <> IPC ->
  type (m_nodes (count_step n st s) !!! m) = type (m_nodes s !!! m) /\
  state_of (m_nodes (count_step n st s) !!! m) = if decide (m = n) then st else state_of (m_nodes s !!! m).
Proof.
  intros Hne. unfold count_step. rewrite node_on_node.
  case_decide; subst; rewrite node_on_node; repeat case_decide; subst; done.
Qed.

Lemma active_count_info ty ty' add i :
  is_counted ty = true ->
  active_of ty (count_info ty' add i) =
  if ty =?s ty' then u32 (active_of ty i + add) else active_of ty i.
Proof. by destruct ty, ty'. Qed.

Lemma connected_of_bound ty s : 0 <= connected_of ty s <= Z.of_nat (length (m_table s)).
Proof. unfold connected_of. split; [lia|]. apply Nat2Z.inj_le, List.filter_length_le. Qed.

Lemma count_step_ok n st s :
  conn_inv n s -> state_of (m_nodes s !!! n) <> st -> conn_inv n (count_step n st s).
Proof.
  intros [(Hnd & Hipc & Hty & Hlen & Hc) Hn] Hst.
  destruct (decide (n = IPC)) as [->|Hne].
  - eapply (conn_inv_same IPC s); [|by split; [split_and!|]]. unfold count_step.
    split_and!; [intros m|intros m Hm|intros ty|done]; rewrite !node_on_node; repeat case_decide; subst; try done.
    all: by destruct (type (m_nodes s !!! IPC)).
  - destruct Hn as [Hn|]; [|done]. split; [|by left].
    assert (m_table (count_step n st s) = m_table s) as Ht by done.
    split_and!; rewrite ?Ht; try done; [by destruct (count_step_node n st s IPC Hne) as [-> _]|].
    intros ty Hty'. specialize (Hc ty Hty').
    assert (m_nodes (count_step n st s) !!! IPC = (m_nodes s !!! IPC) <| info ::= count_info (type (m_nodes s !!! n))
      (if st =?s STATE_CONNECTED then 1
       else if state_of (m_nodes s !!! n) =?s STATE_CONNECTED then -1 else 0) |>) as ->.
    { unfold count_step. rewrite node_on_node, decide_False by done. by rewrite node_on_node, decide_True. }
    cbn [info upd eta_rec]. rewrite active_count_info, Hc by done.
    pose proof (filter_update
      (fun m => (type (m_nodes s !!! m) =?s ty) && (state_of (m_nodes s !!! m) =?s STATE_CONNECTED))
      (fun m => (type (m_nodes (count_step n st s) !!! m) =?s ty) &&
                (state_of (m_nodes (count_step n st s) !!! m) =?s STATE_CONNECTED))
      (m_table s) n Hnd Hn) as Hf.
    cbn beta in Hf. destruct (count_step_node n st s n Hne) as [Hn1 Hn2].
    rewrite decide_True in Hn2 by done. rewrite Hn1, Hn2 in Hf.
    fold (connected_of ty (count_step n st s)) in Hf.
    assert (Hb := connected_of_bound ty s). assert (Hb' := connected_of_bound ty (count_step n st s)).
    rewrite Ht in Hb'. unfold connected_of in Hb, Hb' |- *. rewrite Ht in Hb' |- *.
    lapply Hf; [clear Hf; intros Hf|].
    2: { intros m Hm. destruct (count_step_node n st s m Hne) as [-> ->]. by rewrite decide_False. }
    destruct (type (m_nodes s !!! n) =?s ty) eqn:Et.
    + apply bool_decide_eq_true in Et as ->. rewrite bool_decide_eq_true_2 by done. cbn [andb] in Hf.
      destruct (st =?s STATE_CONNECTED) eqn:E1, (state_of (m_nodes s !!! n) =?s STATE_CONNECTED) eqn:E2;
        rewrite ?bool_decide_eq_true in *; [congruence|..]; rewrite u32_small; lia.
    + cbn [andb] in Hf. rewrite bool_decide_eq_false_2 by (intros ->; by rewrite bool_decide_eq_true_2 in Et). lia.
Qed.

(** The state before the change: a new connection is stamped. *)
Definition stamp_connect (n : nat) (st : state) (s : merlin) : merlin :=
  if st =?s STATE_CONNECTED
  then (on_node n (fun node => node <| connect_time := m_now s |> <| csync_num_attempts := 0 |>) s).2 else s.

Lemma stamp_connect_conn n st s : same_conn s (stamp_connect n st s).
Proof. unfold stamp_connect. destruct (st =?s _); [|by split_and!]. by apply same_conn_node. Qed.

Lemma stamp_connect_node n st s :
  type (m_nodes (stamp_connect n st s) !!! n) = type (m_nodes s !!! n) /\
  state_of (m_nodes (stamp_connect n st s) !!! n) = state_of (m_nodes s !!! n).
Proof.
  unfold stamp_connect. destruct (st =?s _); [|done]. rewrite node_on_node. by case_decide.
Qed.

Lemma set_state_eq disc sa n st s :
  set_state_body disc sa n st s =
  if state_of (m_nodes s !!! n) =?s st then (tt, s)
  else if negb (st =?s STATE_NONE) && negb (bool_decide (n = IPC)) &&
          transition_error (state_of (m_nodes s !!! n)) st then disc n s
  else set_state_rest sa n st (state_of (m_nodes s !!! n)) (count_step n st (stamp_connect n st s)).
Proof.
  unfold set_state_body, get_node, time_now, gets, mbind, ST_bind, mret, ST_ret.
  destruct (state_of (m_nodes s !!! n) =?s st); [done|].
  destruct (negb _ && negb _ && _); [done|].
  unfold count_step. destruct (stamp_connect_node n st s) as [-> ->].
  unfold stamp_connect. destruct (st =?s STATE_CONNECTED); reflexivity.
Qed.

Lemma pres_rest sa n st prev :
  preserves (conn_inv n) (sa n) -> preserves (conn_inv n) (set_state_rest sa n st prev).
Proof.
  intros Hsa. unfold set_state_rest, ipc_action_handler, node_action_handler.
  destruct (bool_decide (n = IPC)) eqn:E; [apply bool_decide_eq_true in E as ->; preserve|].
  preserve. apply pres_node; [done|]. intros node ty ->. by rewrite bool_decide_eq_true_2 in E.
Qed.

Lemma pres_set_state disc sa n st :
  preserves (conn_inv n) (disc n) -> preserves (conn_inv n) (sa n) ->
  preserves (conn_inv n) (set_state_body disc sa n st).
Proof.
  intros Hd Hsa s Hs. rewrite set_state_eq. destruct (_ =?s st) eqn:E; [done|].
  destruct (negb _ && negb _ && _); [by apply Hd|]. apply pres_rest; [done|].
  apply bool_decide_eq_false in E. apply count_step_ok; [eapply conn_inv_same; [apply stamp_connect_conn|done]|].
  by destruct (stamp_connect_node n st s) as [_ ->].
Qed.

Lemma pres_none n : preserves (conn_inv n) (set_state_none n).
Proof. apply pres_set_state; apply preserves_ret. Qed.

Lemma pres_disconnect n : preserves (conn_inv n) (node_disconnect n).
Proof.
  unfold node_disconnect. pose proof (pres_none n). preserve.
  apply pres_node; [done|]. by intros node ty ->.
Qed.

Lemma pres_random n : preserves (conn_inv n) random_nonce.
Proof. intros s. unfold random_nonce. by destruct (m_random s). Qed.

Lemma pres_node_send n pkt len : preserves (conn_inv n) (node_send n pkt len).
Proof.
  unfold node_send, node_encrypt. pose proof (pres_disconnect n). pose proof (pres_random n).
  preserve; by apply pres_modify.
Qed.

Lemma pres_ctrl n code sel data : preserves (conn_inv n) (node_ctrl n code sel data).
Proof. unfold node_ctrl. pose proof (pres_node_send n). preserve. Qed.

Lemma pres_node_set_state n st : preserves (conn_inv n) (node_set_state n st).
Proof.
  apply pres_set_state; [apply pres_disconnect|]. unfold node_send_ctrl_active.
  pose proof (pres_ctrl n). preserve.
Qed.

(** C16.  [self->active_peers], [active_pollers] and [active_masters] are at all times the number
    of connected nodes of that type: every state change and every disconnection, with
    all they trigger (sending our information, renumbering the group, disconnecting on
    a failed send or a forbidden transition), keeps the counters exact. *)
Theorem node_counters_exact n st s :
  counters_ok s -> n ∈ m_table s ->
  counters_ok (node_set_state n st s).2 /\ counters_ok (node_disconnect n s).2.
Proof.
  intros Hc Hn. assert (conn_inv n s) as Hi by (split; [done|by left]).
  split; [by apply pres_node_set_state|by apply pres_disconnect].
Qed.

(** ** The transitions *)

(** The allowed transitions, as the comment in [node_set_state] lists them. *)
Inductive node_step : state -> state -> Prop :=
  | step_down x : node_step x STATE_NONE
  | step_connect : node_step STATE_NONE STATE_PENDING
  | step_accept : node_step STATE_NONE STATE_NEGOTIATING
  | step_pending x : node_step STATE_PENDING x
  | step_negotiated : node_step STATE_NEGOTIATING STATE_CONNECTED.

(** The state of the node satisfies [X]. *)
Definition state_in (n : nat) (X : state -> Prop) (s : merlin) : Prop := X (state_of (m_nodes s !!! n)).

Lemma in_node n X m f :
  (forall node, state_of (f node) = state_of node) -> preserves (state_in n X) (on_node m f).
Proof.
  intros Hf s. unfold state_in. rewrite node_on_node. case_decide; subst; [by rewrite Hf|done].
Qed.

Lemma in_modify n X f : (forall s, m_nodes (f s) = m_nodes s) -> preserves (state_in n X) (modify f).
Proof. intros Hf. apply preserves_modify. intros s. unfold state_in. by rewrite Hf. Qed.

Lemma in_lift_io {A} n X (c : ST io A) : preserves (state_in n X) (lift_io c).
Proof. intros s. unfold state_in, lift_io. by destruct (c (m_io s)). Qed.

Lemma in_assign n X pg : preserves (state_in n X) (pgroup_assign_peer_ids pg).
Proof.
  intros s. unfold state_in. destruct (keeps_assign pg s s (keeps_refl s)) as [Hn _].
  specialize (Hn n). apply (f_equal state_of) in Hn. cbn [state_of strip upd eta_rec] in Hn. by rewrite Hn.
Qed.

Lemma in_register n X fd : preserves (state_in n X) (iobroker_register fd).
Proof. intros s. unfold iobroker_register. by destruct (fd <? 0). Qed.

#[local] Hint Resolve in_lift_io in_assign in_register : pres.
#[local] Hint Extern 5 (preserves (state_in _ _) (on_node _ _)) => apply in_node; by intros : pres.
#[local] Hint Extern 5 (preserves (state_in _ _) (modify _)) => apply in_modify; by intros : pres.

Lemma in_close n X fd : preserves (state_in n X) (iobroker_close fd).
Proof. unfold iobroker_close, iobroker_unregister, sys_close. preserve. Qed.

Lemma in_log n X m force : preserves (state_in n X) (node_log_event_count m force).
Proof. unfold node_log_event_count. preserve. Qed.

#[local] Hint Resolve in_close in_log : pres.

Lemma in_rest sa n X st prev :
  preserves (state_in n X) (sa n) -> preserves (state_in n X) (set_state_rest sa n st prev).
Proof.
  intros Hsa. unfold set_state_rest, ipc_action_handler, node_action_handler.
  destruct (bool_decide (n = IPC)) eqn:E; [apply bool_decide_eq_true in E as ->|]; preserve.
Qed.

Lemma count_step_state n st s : state_of (m_nodes (count_step n st s) !!! n) = st.
Proof. unfold count_step. rewrite node_on_node. by case_decide. Qed.

Lemma none_state n s : state_of (m_nodes (set_state_none n s).2 !!! n) = STATE_NONE.
Proof.
  unfold set_state_none. rewrite set_state_eq. destruct (_ =?s STATE_NONE) eqn:E.
  - by apply bool_decide_eq_true in E.
  - rewrite (bool_decide_eq_true_2 (STATE_NONE = STATE_NONE)) by done. cbn [negb andb].
    apply (in_rest _ n (fun x => x = STATE_NONE)); [apply preserves_ret|]. apply count_step_state.
Qed.

Lemma disconnect_state n s : state_of (m_nodes (node_disconnect n s).2 !!! n) = STATE_NONE.
Proof.
  unfold node_disconnect, get_node, gets, mbind, ST_bind, mret, ST_ret.
  destruct (if _ =?s STATE_CONNECTED then _ else _) as [u1 s1]. destruct (iobroker_close _ s1) as [u2 s2].
  destruct (on_node n _ s2) as [u3 s3]. pose proof (none_state n s3) as Hn.
  destruct (set_state_none n s3) as [u4 s4]. rewrite node_on_node, decide_True by done. exact Hn.
Qed.

Lemma in_disconnect n (X : state -> Prop) : X STATE_NONE -> preserves (state_in n X) (node_disconnect n).
Proof. intros HX s _. unfold state_in. by rewrite disconnect_state. Qed.

Lemma in_random n X : preserves (state_in n X) random_nonce.
Proof. intros s. unfold random_nonce. by destruct (m_random s). Qed.

Lemma in_send n (X : state -> Prop) pkt len : X STATE_NONE -> preserves (state_in n X) (node_send n pkt len).
Proof.
  intros HX. unfold node_send, node_encrypt. pose proof (in_disconnect n X HX). pose proof (in_random n X). preserve.
Qed.

Lemma in_send_active n (X : state -> Prop) : X STATE_NONE -> preserves (state_in n X) (node_send_ctrl_active n).
Proof.
  intros HX. unfold node_send_ctrl_active, node_ctrl. pose proof (fun p l => in_send n X p l HX). preserve.
Qed.

(** Only [STATE_NEGOTIATING], and [ipc] coming up, make [node_set_state] send. *)
Lemma rest_quiet sa n st prev s :
  state_of (m_nodes s !!! n) = st -> st <> STATE_NEGOTIATING -> (n = IPC -> st <> STATE_CONNECTED) ->
  set_state_rest sa n st prev s = set_state_rest (fun _ => mret tt) n st prev s.
Proof.
  intros Hs Hst Hipc. unfold set_state_rest, node_action_handler, ipc_action_handler, get_node, gets, mbind, ST_bind, mret, ST_ret.
  rewrite (bool_decide_eq_false_2 (st = STATE_NEGOTIATING)) by done. cbn [andb]. cbn beta iota.
  rewrite !Hs. destruct (negb (st =?s _) && _); [done|]. cbn beta.
  destruct (bool_decide (n = IPC)) eqn:E; rewrite ?Hs; [|by destruct st].
  apply bool_decide_eq_true in E as ->. rewrite !Hs.
  rewrite (bool_decide_eq_false_2 (st = STATE_CONNECTED)) by auto. cbn [negb]. by destruct (st =?s prev).
Qed.

(** Entering [STATE_NONE] never uses the calls [node_set_state] makes for the other states:
    [node_disconnect] calls the function it is called by. *)
Lemma set_state_none_eq n s : node_set_state n STATE_NONE s = set_state_none n s.
Proof.
  unfold node_set_state, set_state_none. rewrite !set_state_eq. destruct (_ =?s STATE_NONE) eqn:E; [done|].
  rewrite (bool_decide_eq_true_2 (STATE_NONE = STATE_NONE)) by done. cbn [negb andb].
  apply rest_quiet; [apply count_step_state|done|done].
Qed.


End Node.
