(* ===== verification/Delivery.v ===== *)
(** * Delivery of events: the properties of sending in shared/node.c

    Over a healthy connection the backlog and the new event leave complete and in order;
    for a node that is away the event is queued; a stream of packets is taken apart again
    at the other end however it was cut; and where the code loses, repeats or lets pass
    what it should not. *)

From S2P Require Import Prelude Binlog Packet Io Merlin Pgroup Node.

Section Delivery.
Context {QS : QSort} {SD : Sodium}.

(** ** Sending over a healthy connection *)

(** What sending a packet writes into it: our uuid. *)
Definition stamped (s : merlin) (p : merlin_event) : merlin_event :=
  p <| hdr ::= fun h => h <| h_from_uuid ::= fun u => strcpy u (uuid (m_nodes s !!! IPC)) |> |>.

(** The node is connected over [fd] without encryption, and the descriptor takes what it
    is given. *)
Record linked (n : nat) (fd : Z) (s : merlin) : Prop := Linked {
  lk_fd : 0 <= fd;
  lk_sock : sock (m_nodes s !!! n) = fd;
  lk_state : state_of (m_nodes s !!! n) = STATE_CONNECTED;
  lk_plain : encrypted (m_nodes s !!! n) = false;
  lk_uuid : (length (c_str (uuid (m_nodes s !!! IPC))) < 37)%nat;
  lk_polls : io_polls (m_io s) = []; lk_sends : io_sends (m_io s) = [] }.

(** The parts of a node that [linked] and the backlog depend on. *)
Definition link_view (n : merlin_node) : Z * state * bool * list byte * option binlog :=
  (sock n, state_of n, encrypted n, uuid n, node_binlog n).

Lemma link_on_node n f s :
  (forall node, link_view (f node) = link_view node) ->
  forall m, link_view (m_nodes (on_node n f s).2 !!! m) = link_view (m_nodes s !!! m).
Proof. intros Hf m. rewrite node_on_node. case_decide; subst; [apply Hf|done]. Qed.

Lemma linked_view n fd s s' :
  (forall m, link_view (m_nodes s' !!! m) = link_view (m_nodes s !!! m)) ->
  io_polls (m_io s') = [] -> io_sends (m_io s') = [] -> linked n fd s ->
  linked n fd s' /\ node_binlog (m_nodes s' !!! n) = node_binlog (m_nodes s !!! n) /\
  uuid (m_nodes s' !!! IPC) = uuid (m_nodes s !!! IPC).
Proof.
  intros Hv Hp Hs []. pose proof (Hv n) as Hn. pose proof (Hv IPC) as Hi. unfold link_view in Hn, Hi.
  split_and!; [constructor; try done; congruence|congruence|congruence].
Qed.

Lemma send_loop_clean k fd buf p s :
  0 <= fd -> 0 < Z.of_nat (length buf) < 2 ^ 31 -> io_sends s = [] ->
  send_loop (S k) fd buf p 0 s =
    (inr (Z.of_nat (length buf), Z.of_nat (length buf)),
     s <| io_wire ::= fun w => <[fd := (w !!! fd) ++ buf]> w |>).
Proof.
  intros Hfd Hl Hs. cbn [send_loop]. unfold send_turn, sys_send, mbind, ST_bind, mret, ST_ret.
  change (drop (Z.to_nat 0) buf) with buf. rewrite (proj2 (Z.ltb_ge fd 0)), Hs, firstn_all by done.
  rewrite Z.add_0_r, Z.add_0_l, u64_small by lia.
  rewrite (proj2 (Z.eqb_neq _ 0)), andb_false_r, (proj2 (Z.ltb_ge (Z.of_nat (length buf)) 0)) by lia.
  by rewrite Z.ltb_irrefl.
Qed.

Lemma send_all_clean fd buf s :
  0 <= fd -> 0 < Z.of_nat (length buf) < 2 ^ 31 -> io_polls s = [] -> io_sends s = [] ->
  io_send_all fd buf s =
    (Z.of_nat (length buf), s <| io_wire ::= fun w => <[fd := (w !!! fd) ++ buf]> w |>).
Proof.
  intros Hfd Hl Hp Hs. unfold io_send_all. rewrite bool_decide_eq_false_2 by (intros ->; cbn in Hl; lia).
  unfold io_poll, mbind, ST_bind, mret, ST_ret. rewrite (proj2 (Z.ltb_ge fd 0)), Hp by done.
  rewrite send_loop_clean by done. rewrite (proj2 (Z.ltb_ge _ 0)) by lia. by rewrite s32_small by lia.
Qed.

Lemma stamped_size s p : packet_size (stamped s p) = packet_size p.
Proof. done. Qed.

Lemma stamped_wf s p :
  (length (c_str (uuid (m_nodes s !!! IPC))) < 37)%nat -> pkt_wf p -> pkt_wf (stamped s p).
Proof.
  intros Hu (Hh & Hb & Hm). split_and!; [|done|done]. destruct Hh. constructor; try done.
  cbn. rewrite strcpy_length; lia.
Qed.

Lemma pkt_len_bounds p : pkt_wf p -> 0 < Z.of_nat (length (pkt_bytes p)) < 2 ^ 31.
Proof.
  intros Hp. rewrite <- packet_size_wf by done. destruct Hp as (Hh & Hb & Hm).
  pose proof (wf_len _ Hh). unfold packet_size, MAX_BODY, HDR_SIZE in *. rewrite u32_small, s32_small; lia.
Qed.

Lemma send_linked n fd s p :
  linked n fd s -> pkt_wf p ->
  exists s', node_send n p (packet_size p) s = ((packet_size p, stamped s p), s') /\
    linked n fd s' /\ node_binlog (m_nodes s' !!! n) = node_binlog (m_nodes s !!! n) /\
    uuid (m_nodes s' !!! IPC) = uuid (m_nodes s !!! IPC) /\ m_world s' = m_world s /\
    m_binlog s' = m_binlog s /\ m_cb_items s' = m_cb_items s /\
    io_wire (m_io s') = <[fd := (io_wire (m_io s) !!! fd) ++ pkt_bytes (stamped s p)]> (io_wire (m_io s)).
Proof.
  intros Hl Hp. pose proof Hl as [Hfd Hsock Hst Hpl Hu Hpo Hse].
  unfold node_send, get_node, gets, mbind, ST_bind, mret, ST_ret.
  rewrite Hsock, (proj2 (Z.ltb_ge fd 0)), Hpl by done. fold (stamped s p). rewrite Hsock.
  pose proof (stamped_wf s p Hu Hp) as Hw. pose proof (pkt_len_bounds _ Hw) as Hb.
  assert (packet_size p = Z.of_nat (length (pkt_bytes (stamped s p)))) as Hsz
    by (rewrite <- packet_size_wf by done; done).
  rewrite take_ge by lia. unfold lift_io. rewrite send_all_clean by done.
  rewrite <- Hsz, Z.eqb_refl. unfold time_now, gets. cbn beta iota.
  match goal with |- context [on_node n ?f ?s1] => destruct (on_node n f s1) as [u s2] eqn:E;
    pose proof (link_on_node n f s1) as Hv end.
  assert (s2 = (on_node n _ _).2) as Hs2 by (by rewrite E). rewrite E in Hv. cbn [snd] in Hv.
  exists s2. split; [reflexivity|].
  destruct (linked_view n fd s s2) as (H1 & H2 & H3); [intros m; by rewrite Hv|by rewrite Hs2..|done|].
  rewrite Hs2 at 4 5 6 7. by split_and!.
Qed.

(** The events waiting in a node's backlog. *)
Definition backlog (n : nat) (s : merlin) (ps : list merlin_event) : Prop :=
  exists bl mq fq, node_binlog (m_nodes s !!! n) = Some bl /\ binlog_repr bl (m_world s) mq fq /\
    mq ++ fq = map pkt_bytes ps /\ Forall pkt_wf ps.

(** Linked, with everything but the node's backlog and the disk as in [s]. *)
Definition linked_like (n : nat) (fd : Z) (s s' : merlin) : Prop :=
  linked n fd s' /\ uuid (m_nodes s' !!! IPC) = uuid (m_nodes s !!! IPC) /\
  m_binlog s' = m_binlog s /\ m_cb_items s' = m_cb_items s.

Definition read_call (n : nat) : M (Z * option (list byte) * Z) :=
  on_binlog (BINLOG_EADDRESS, None, 0) n (fun bl w =>
    let '(r, buf, len, bl, w) := binlog_read bl 0 w in ((r, buf, len), bl, w)).

Lemma read_call_spec n fd s ps :
  linked n fd s -> backlog n s ps ->
  exists r buf len s', read_call n s = ((r, buf, len), s') /\ linked_like n fd s s' /\ m_io s' = m_io s /\
    match ps with
    | [] => r = BINLOG_EMPTY /\ backlog n s' []
    | p :: ps => r = 0 /\ buf = Some (pkt_bytes p) /\ len = packet_size p /\ backlog n s' ps
    end.
Proof.
  intros Hl (bl & mq & fq & Hbl & Hr & Hq & Hw). unfold read_call, on_binlog. rewrite Hbl.
  pose proof (read_repr bl (m_world s) mq fq 0 Hr) as Hread.
  destruct (binlog_read bl 0 (m_world s)) as [[[[r buf] len] bl'] w'].
  destruct Hread as (mq' & fq' & Hr' & Hres). unfold on_node at 1, modify. cbn beta iota.
  do 4 eexists. split; [reflexivity|].
  match goal with |- linked_like _ _ _ ?s' /\ _ => set (s1 := s') end.
  assert (forall m, link_view (m_nodes s1 !!! m) =
    (sock (m_nodes s !!! m), state_of (m_nodes s !!! m), encrypted (m_nodes s !!! m), uuid (m_nodes s !!! m),
     if decide (m = n) then Some bl' else node_binlog (m_nodes s !!! m))) as Hv.
  { intros m. unfold s1. cbn [m_nodes upd eta_rec].
    destruct (decide (m = n)) as [->|]; [by rewrite lookup_total_insert_eq|by rewrite lookup_total_insert_ne]. }
  assert (linked_like n fd s s1) as Hl1.
  { destruct Hl. pose proof (Hv n) as Hn. pose proof (Hv IPC) as Hi. unfold link_view in Hn, Hi.
    split_and!; [constructor; try done; congruence|congruence|done|done]. }
  assert (node_binlog (m_nodes s1 !!! n) = Some bl') as Hb1.
  { pose proof (Hv n) as Hn. rewrite decide_True in Hn by done. unfold link_view in Hn. congruence. }
  split; [done|]. split; [done|]. rewrite Hq in Hres. destruct ps as [|p ps]; cbn [map] in Hres.
  - destruct Hres as [-> Hres]. split; [done|]. by exists bl', mq', fq'.
  - destruct Hres as (-> & -> & -> & Hres). apply Forall_cons in Hw as [Hp Hw].
    rewrite packet_size_wf by done. split_and!; try done. by exists bl', mq', fq'.
Qed.

Lemma good_packet p : pkt_wf p -> bad_packet (Some (pkt_bytes p)) (packet_size p) = false.
Proof.
  intros Hp. unfold bad_packet. rewrite pkt_of_pkt_bytes by apply Hp.
  pose proof (pkt_len_bounds p Hp) as Hb. rewrite <- packet_size_wf in Hb by done.
  rewrite s32_small, Z.eqb_refl by lia. rewrite !(proj2 (Z.eqb_neq (packet_size p) 0)) by lia. cbn [negb orb].
  destruct Hp as (Hh & Hbd & Hm). apply Z.ltb_ge. pose proof (wf_len _ Hh).
  unfold packet_size, MAX_PKT_SIZE, MAX_BODY, HDR_SIZE in *. rewrite u32_small, s32_small; lia.
Qed.

(** What a backlog looks like on the wire. *)
Definition wire_bytes (s : merlin) (ps : list merlin_event) : list byte :=
  concat (map (fun p => pkt_bytes (stamped s p)) ps).

Lemma wire_bytes_same s s' ps :
  uuid (m_nodes s' !!! IPC) = uuid (m_nodes s !!! IPC) -> wire_bytes s' ps = wire_bytes s ps.
Proof. intros H. unfold wire_bytes. do 2 f_equal. unfold stamped. by rewrite H. Qed.

Lemma linked_like_trans n fd s1 s2 s3 :
  linked_like n fd s1 s2 -> linked_like n fd s2 s3 -> linked_like n fd s1 s3.
Proof. intros (A & B & C & D) (E & F & G & H). split_and!; [done|congruence..]. Qed.

Lemma poll_linked n fd s : linked n fd s -> lift_io (io_poll fd) s = (1, s).
Proof.
  intros []. unfold lift_io, io_poll. rewrite (proj2 (Z.ltb_ge fd 0)), lk_polls0 by done. by destruct s.
Qed.

Lemma send_binlog_loop_linked n fd pkt ps : forall fuel s,
  linked n fd s -> backlog n s ps -> (length ps < fuel)%nat ->
  exists s', send_binlog_loop fuel n pkt s = (Some 0, s') /\ linked_like n fd s s' /\ backlog n s' [] /\
    io_wire (m_io s') !!! fd = (io_wire (m_io s) !!! fd) ++ wire_bytes s ps.
Proof.
  induction ps as [|p ps IH]; intros fuel s Hl Hb Hf; (destruct fuel as [|fuel]; [lia|]); cbn [send_binlog_loop];
    unfold get_node, gets; unfold mbind at 1, ST_bind at 1; cbn beta iota;
    unfold mbind at 1, ST_bind at 1; rewrite (lk_sock _ _ _ Hl), (poll_linked n fd s Hl);
    cbn [Z.eqb]; fold (read_call n); unfold mbind at 1, ST_bind at 1;
    destruct (read_call_spec n fd s _ Hl Hb) as (r & buf & len & s1 & E & Hl1 & Hio & Hr); rewrite E.
  - destruct Hr as [-> Hb1]. cbn [negb]. exists s1. split_and!; try done; try apply Hl1.
    rewrite Hio. unfold wire_bytes. cbn. by rewrite app_nil_r.
  - destruct Hr as (-> & -> & -> & Hb1). cbn [Z.eqb negb default].
    assert (pkt_wf p) as Hp by (destruct Hb as (? & ? & ? & _ & _ & _ & Hw); by apply Forall_cons in Hw as [? ?]).
    rewrite good_packet by done. unfold mbind at 1, ST_bind at 1. cbn zeta.
    change (id (pkt_bytes p)) with (pkt_bytes p). rewrite pkt_of_pkt_bytes by apply Hp.
    destruct (send_linked n fd s1 p (proj1 Hl1) Hp) as (s2 & -> & Hl2 & Hbl & Hu & Hw & Hc & Hci & Hwire).
    rewrite stamped_size, Z.eqb_refl. unfold mbind at 1, ST_bind at 1.
    destruct (on_node n _ s2) as [u s3] eqn:E3.
    assert (s3 = (on_node n _ s2).2) as Hs3 by (by rewrite E3). clear E3 u.
    destruct (linked_view n fd s2 s3) as (Hl3 & Hbl3 & Hu3);
      [rewrite Hs3; by apply link_on_node|subst s3; apply Hl2|subst s3; apply Hl2|done|].
    assert (m_world s3 = m_world s1) as Hw3 by (by rewrite Hs3).
    assert (m_binlog s3 = m_binlog s1 /\ m_cb_items s3 = m_cb_items s1) as [Hc3 Hci3] by (by rewrite Hs3).
    assert (io_wire (m_io s3) = io_wire (m_io s2)) as Hio3 by (by rewrite Hs3). clear Hs3.
    assert (linked_like n fd s s3) as Hl03.
    { eapply linked_like_trans; [exact Hl1|]. split_and!; [done|congruence..]. }
    destruct (IH fuel s3 Hl3) as (s4 & -> & Hl4 & Hb4 & Hw4); [|cbn in Hf; lia|].
    { destruct Hb1 as (bl & mq & fq & Hbl1 & Hr1 & Hq1 & Hwf1). exists bl, mq, fq.
      split_and!; try done; [congruence|]. by rewrite Hw3. }
    exists s4. split_and!; try done; [by eapply linked_like_trans|].
    rewrite Hw4, Hio3, Hwire, lookup_total_insert_eq, Hio, <- app_assoc. f_equal.
    unfold wire_bytes at 2. cbn [map concat]. f_equal.
    + unfold stamped. by rewrite (proj1 (proj2 Hl1)).
    + apply wire_bytes_same, Hl03.
Qed.

(** The events waiting for a node that may not have a backlog yet. *)
Definition waiting (n : nat) (s : merlin) (ps : list merlin_event) : Prop :=
  backlog n s ps \/ (node_binlog (m_nodes s !!! n) = None /\ ps = []).

Lemma waiting_entries n s ps :
  waiting n s ps -> entries n s = (u32 (Z.of_nat (length ps)), s).
Proof.
  unfold entries, get_node, gets, mbind, ST_bind, mret, ST_ret.
  intros [(bl & mq & fq & -> & Hr & Hq & _)|[-> ->]]; [|done].
  rewrite (num_entries_repr _ _ _ _ Hr), Hq. by rewrite length_map.
Qed.

Lemma waiting_same n s s' ps :
  node_binlog (m_nodes s' !!! n) = node_binlog (m_nodes s !!! n) -> m_world s' = m_world s ->
  waiting n s ps -> waiting n s' ps.
Proof.
  intros Hb Hw [(bl & mq & fq & Hbl & Hr & Hq & Hf)|[Hn ->]]; [left|right; by rewrite Hb].
  exists bl, mq, fq. rewrite Hb, Hw. done.
Qed.

(** Logging only moves the time of the last log line. *)
Lemma log_same n force s :
  let s' := (node_log_event_count n force s).2 in
  (forall m, link_view (m_nodes s' !!! m) = link_view (m_nodes s !!! m)) /\
  m_world s' = m_world s /\ m_io s' = m_io s /\ m_binlog s' = m_binlog s /\ m_cb_items s' = m_cb_items s.
Proof.
  unfold node_log_event_count, time_now, get_node, gets, mbind, ST_bind, mret, ST_ret.
  destruct (negb force && _ && _); [done|]. split; [|done]. by apply link_on_node.
Qed.

(** The header fields [node_send_event] sets. *)
Definition marked (p : merlin_event) : merlin_event :=
  p <| hdr ::= fun h => h <| h_sig := MERLIN_SIGNATURE |> <| h_protocol := MERLIN_PROTOCOL_VERSION |> |>.

Lemma marked_wf p : pkt_wf p -> pkt_wf (marked p).
Proof.
  intros (Hh & Hb & Hm). split_and!; [|done|done]. destruct Hh.
  constructor; cbn; unfold MERLIN_SIGNATURE, MERLIN_PROTOCOL_VERSION; try done; lia.
Qed.

Lemma wf_not_too_large p : pkt_wf p -> (MAX_PKT_SIZE <? packet_size p) = false.
Proof.
  intros (Hh & Hbd & Hm). apply Z.ltb_ge. pose proof (wf_len _ Hh).
  unfold packet_size, MAX_PKT_SIZE, MAX_BODY, HDR_SIZE in *. rewrite u32_small, s32_small; lia.
Qed.

(** Emptying the backlog, whether there is one or not. *)
Lemma drain_linked n fd s ps p :
  linked n fd s -> waiting n s ps -> Z.of_nat (length ps) < 2 ^ 32 ->
  exists r s', (e ← entries n; if e =? 0 then mret None else node_send_binlog n (Some p)) s = (r, s') /\
    linked_like n fd s s' /\ waiting n s' [] /\
    io_wire (m_io s') !!! fd = (io_wire (m_io s) !!! fd) ++ wire_bytes s ps.
Proof.
  intros Hl Hw Hn. unfold mbind, ST_bind. rewrite (waiting_entries n s ps Hw), u32_small by lia.
  destruct ps as [|p0 ps].
  - exists None, s. split; [done|]. split; [done|]. split; [done|]. unfold wire_bytes. cbn. by rewrite app_nil_r.
  - rewrite (proj2 (Z.eqb_neq _ 0)) by (cbn; lia). destruct Hw as [Hb|[_ Hnil]]; [|done].
    unfold node_send_binlog, mbind, ST_bind. rewrite (waiting_entries n s (p0 :: ps)) by (by left).
    rewrite u32_small, Nat2Z.id by lia.
    destruct (send_binlog_loop_linked n fd (Some p) (p0 :: ps) (S (length (p0 :: ps))) s Hl Hb)
      as (s' & -> & Hl' & Hb' & Hw'); [lia|]. exists (Some 0), s'. split_and!; try apply Hl'; try done. by left.
Qed.

(** C18.  Over a healthy connection (to a node that is connected and without encryption, over a descriptor that takes what it is
    given) events leave in order: [node_send_event] first sends the whole
    backlog, oldest event first, then the new event, each complete and once, leaves the
    backlog empty, and reports success.  In particular the loop over the backlog ends. *)
Theorem send_event_in_order n fd s ps p msec :
  linked n fd s -> waiting n s ps -> Z.of_nat (length ps) < 2 ^ 32 -> pkt_wf p ->
  let '((r, p'), s') := node_send_event n p msec s in
  r = 0 /\ p' = stamped s (marked p) /\ waiting n s' [] /\ linked n fd s' /\
  io_wire (m_io s') !!! fd =
    (io_wire (m_io s) !!! fd) ++ wire_bytes s ps ++ pkt_bytes (stamped s (marked p)).
Proof.
  intros Hl Hw Hn Hp. unfold node_send_event. fold (marked p).
  unfold mbind at 1, ST_bind at 1. destruct (log_same n false s) as (Hv & Hwo & Hio & Hbc & Hci).
  destruct (node_log_event_count n false s) as [u s0]. cbn [snd] in *.
  destruct (linked_view n fd s s0 Hv) as (Hl0 & Hb0 & Hu0); [rewrite Hio; apply Hl..|done|].
  pose proof (waiting_same n s s0 ps Hb0 Hwo Hw) as Hw0.
  rewrite wf_not_too_large by (by apply marked_wf). unfold get_node, gets.
  unfold mbind at 1, ST_bind at 1. cbn beta iota. rewrite (lk_sock _ _ _ Hl0), (lk_state _ _ _ Hl0).
  rewrite (proj2 (Z.ltb_ge fd 0)), (bool_decide_eq_true_2 (STATE_CONNECTED = STATE_CONNECTED)) by (done || apply Hl0).
  cbn [negb orb]. unfold mbind at 1, ST_bind at 1.
  replace ((if 0 <=? msec then lift_io (io_poll fd) else mret 1) s0) with (1, s0)
    by (destruct (0 <=? msec); [symmetry; by eapply poll_linked|done]).
  cbn [Z.eqb].
  destruct (drain_linked n fd s0 ps (marked p) Hl0 Hw0 Hn) as (r1 & s1 & Ed & Hl1 & Hw1 & Hwi1).
  unfold mbind, ST_bind in Ed |- *. rewrite (waiting_entries n s0 ps Hw0) in Ed |- *. rewrite Ed.
  rewrite (waiting_entries n s1 [] Hw1). change (negb (u32 (Z.of_nat (length [])) =? 0)) with false. cbn beta iota.
  destruct (send_linked n fd s1 (marked p) (proj1 Hl1) (marked_wf p Hp))
    as (s2 & -> & Hl2 & Hb2 & Hu2 & Hwo2 & _ & _ & Hwi2).
  rewrite stamped_size, Z.eqb_refl.
  assert (stamped s1 (marked p) = stamped s (marked p)) as Hst by (unfold stamped; by rewrite (proj1 (proj2 Hl1)), Hu0).
  destruct (on_node n _ s2) as [u3 s3] eqn:E3.
  assert (s3 = (on_node n _ s2).2) as Hs3 by (by rewrite E3). clear E3.
  destruct (linked_view n fd s2 s3) as (Hl3 & Hb3 & _);
    [rewrite Hs3; by apply link_on_node|subst s3; apply Hl2|subst s3; apply Hl2|done|].
  unfold mret, ST_ret. split_and!; try done.
  - eapply waiting_same; [| |exact Hw1]; [congruence|by subst s3].
  - assert (m_io s3 = m_io s2) as -> by (by subst s3).
    rewrite Hwi2, lookup_total_insert_eq, Hwi1, <- app_assoc, Hst, Hio. do 2 f_equal.
    by apply wire_bytes_same.
Qed.

(** ** Queueing for a node that is away *)

(** A call on the node's binlog, seen from outside. *)
Lemma on_binlog_spec {A} (d : A) n f s bl :
  node_binlog (m_nodes s !!! n) = Some bl ->
  let '(a, bl', w') := f bl (m_world s) in
  exists s', on_binlog d n f s = (a, s') /\ node_binlog (m_nodes s' !!! n) = Some bl' /\ m_world s' = w' /\
    m_io s' = m_io s /\ m_binlog s' = m_binlog s.
Proof.
  intros Hb. unfold on_binlog. rewrite Hb. destruct (f bl (m_world s)) as [[a bl'] w'].
  unfold on_node, modify. cbn beta iota. eexists. split; [reflexivity|]. split_and!; try done.
  cbn. by rewrite lookup_total_insert_eq.
Qed.

Lemma full_warning_repr bl w mq fq :
  binlog_repr bl w mq fq -> binlog_repr (binlog_full_warning bl).2 w mq fq.
Proof.
  intros [Hv Hm Hf Hs Hw]. unfold binlog_full_warning. destruct (should_warn_if_full bl); [|done].
  split; try done; [by eapply (mem_repr_same bl)|by eapply (file_repr_same bl)].
Qed.

(** The packets [node_binlog_add] does not store. *)
Definition transient (p : merlin_event) : bool :=
  (h_type (hdr p) =? CTRL_PACKET) &&
  ((h_code (hdr p) =? CTRL_ACTIVE) || (h_code (hdr p) =? CTRL_INACTIVE)).

Definition full_for (bl : binlog) (p : merlin_event) : Prop :=
  max_file_size bl < file_size bl + packet_size p /\
  (fd bl = None -> max_mem_size bl <= mem_size bl + packet_size p).

Lemma packet_mem_wf p : pkt_wf p -> packet_mem p = pkt_bytes p.
Proof. intros Hp. unfold packet_mem. rewrite packet_size_wf, Nat2Z.id by done. apply firstn_all. Qed.

Lemma backlog_on_stats n f s ps :
  (forall node, link_view (f node) = link_view node) -> backlog n s ps -> backlog n (on_node n f s).2 ps.
Proof.
  intros Hf (bl & mq & fq & Hbl & Hr & Hq & Hw). exists bl, mq, fq. split_and!; try done.
  pose proof (link_on_node n f s Hf n) as Hv. unfold link_view in Hv. congruence.
Qed.

Lemma backlog_log n s ps force : backlog n s ps -> backlog n (node_log_event_count n force s).2 ps.
Proof.
  unfold node_log_event_count, time_now, get_node, gets, mbind, ST_bind, mret, ST_ret.
  destruct (negb force && _ && _); [done|]. by apply backlog_on_stats.
Qed.

Lemma binlog_add_backlog n s ps p bl :
  backlog n s ps -> node_binlog (m_nodes s !!! n) = Some bl -> pkt_wf p -> transient p = false ->
  let '(r, s') := node_binlog_add n p s in
  r = 0 /\ m_io s' = m_io s /\
  (backlog n s' (ps ++ [p]) \/ (backlog n s' ps /\ full_for bl p)).
Proof.
  intros (bl0 & mq & fq & Hbl & Hr & Hq & Hw) Hbl' Hp Ht. assert (bl0 = bl) as -> by congruence.
  unfold node_binlog_add. fold (transient p). rewrite Ht.
  unfold node_create_binlog, get_node, gets, mbind, ST_bind, mret, ST_ret. rewrite Hbl. cbn [Z.eqb negb].
  pose proof (on_binlog_spec BINLOG_EADDRESS n (fun bl w => binlog_add bl (packet_mem p) (packet_size p) w) s bl Hbl) as Hob.
  rewrite packet_mem_wf, packet_size_wf in * by done.
  assert (ev_ok (pkt_bytes p)) as Hev by (unfold ev_ok; pose proof (pkt_len_bounds p Hp); lia).
  pose proof (add_repr bl (m_world s) mq fq (pkt_bytes p) Hr Hev) as Ha.
  destruct (binlog_add bl (pkt_bytes p) _ (m_world s)) as [[r bl1] w1].
  destruct Hob as (s1 & -> & Hbl1 & Hw1 & Hio1 & Hbc1).
  destruct Ha as [(-> & mq1 & fq1 & Hr1 & Hq1)|(-> & -> & -> & Hfull & Hmem)].
  - change (0 =? BINLOG_ENOSPC) with false. cbn [Z.ltb Z.compare].
    assert (backlog n s1 (ps ++ [p])) as Hb1.
    { exists bl1, mq1, fq1. rewrite Hw1. split_and!; try done; [|apply Forall_app; split; [done|by apply Forall_singleton]].
      rewrite Hq1, Hq, map_app. done. }
    match goal with |- context [on_node n ?f s1] => pose proof (backlog_on_stats n f s1 _ ltac:(done) Hb1) as Hb2;
      destruct (on_node n f s1) as [u s2] eqn:E2; cbn [snd] in Hb2 end.
    assert (m_io s2 = m_io s1) as Hio2 by (unfold on_node, modify in E2; by simplify_eq).
    pose proof (backlog_log n s2 _ false Hb2) as Hb3. destruct (log_same n false s2) as (_ & _ & Hio3 & _).
    destruct (node_log_event_count n false s2) as [u3 s3]. cbn [snd] in *.
    split_and!; [done|congruence|by left].
  - change (BINLOG_ENOSPC =? BINLOG_ENOSPC) with true. cbn beta iota.
    pose proof (on_binlog_spec false n (fun bl w => let '(b, bl) := binlog_full_warning bl in (b, bl, w)) s1 bl Hbl1) as Hob2.
    cbn beta in Hob2. destruct (binlog_full_warning bl) as [b bl2] eqn:Efw.
    destruct Hob2 as (s2 & -> & Hbl2 & Hw2 & Hio2 & _). split_and!; [done|congruence|right].
    split; [|unfold full_for; by rewrite packet_size_wf]. exists bl2, mq, fq. rewrite Hw2, Hw1. split_and!; try done.
    replace bl2 with (binlog_full_warning bl).2 by (by rewrite Efw). by apply full_warning_repr.
Qed.

(** An event for a node that is not connected goes to the end of its backlog, on disk or in
    memory, untouched; it is only left out, and the backlog kept as it was, when it would
    not fit the configured limits; nothing is written to a socket. *)
Theorem send_event_queues n s ps p msec bl :
  backlog n s ps -> node_binlog (m_nodes s !!! n) = Some bl -> pkt_wf p -> transient (marked p) = false ->
  sock (m_nodes s !!! n) < 0 \/ state_of (m_nodes s !!! n) <> STATE_CONNECTED ->
  let '((r, p'), s') := node_send_event n p msec s in
  r = 0 /\ p' = marked p /\ m_io s' = m_io s /\
  (backlog n s' (ps ++ [marked p]) \/ (backlog n s' ps /\ full_for bl (marked p))).
Proof.
  intros Hb Hbl Hp Ht Haway. unfold node_send_event. fold (marked p).
  unfold mbind at 1, ST_bind at 1. destruct (log_same n false s) as (Hv & Hwo & Hio & Hbc & Hci).
  pose proof (backlog_log n s ps false Hb) as Hb0.
  destruct (node_log_event_count n false s) as [u s0]. cbn [snd] in *.
  rewrite wf_not_too_large by (by apply marked_wf). unfold get_node, gets.
  unfold mbind at 1, ST_bind at 1. cbn beta iota. specialize (Hv n). unfold link_view in Hv.
  assert ((sock (m_nodes s0 !!! n) <? 0) || negb (state_of (m_nodes s0 !!! n) =?s STATE_CONNECTED) = true) as ->.
  { replace (sock (m_nodes s0 !!! n)) with (sock (m_nodes s !!! n)) by congruence.
    replace (state_of (m_nodes s0 !!! n)) with (state_of (m_nodes s !!! n)) by congruence.
    destruct Haway as [Hs|Hs]; [by rewrite (proj2 (Z.ltb_lt _ _))|].
    rewrite bool_decide_eq_false_2 by done. apply orb_true_r. }
  pose proof (binlog_add_backlog n s0 ps (marked p) bl Hb0 ltac:(congruence) (marked_wf p Hp) Ht) as Ha.
  unfold mbind, ST_bind, mret, ST_ret. destruct (node_binlog_add n (marked p) s0) as [r s1].
  destruct Ha as (-> & Hio1 & Ha). split_and!; try done. congruence.
Qed.

(** ** Taking a stream apart *)

(** module/net.c:253-257 net_input -- the loop, collecting the events it hands on; a buffer
    of [k] bytes holds fewer than [k + 1] packets. *)
Fixpoint take_events (fuel : nat) (n : nat) : M (list merlin_event) :=
  match fuel with
  | O => mret []
  | S fuel =>
      g ← node_get_event n;
      match g with Got p => ps ← take_events fuel n; mret (p :: ps) | _ => mret [] end
  end.

(** A piece of the stream arrives and the events it completes are taken. *)
Definition arrive (n : nat) (l : list byte) : M (list merlin_event) :=
  on_node n (fun node => node <| bq ::= fun q => q ++ l |>) ;;
  node ← get_node n;
  take_events (S (length (bq node))) n.

Fixpoint arrive_all (n : nat) (chunks : list (list byte)) : M (list merlin_event) :=
  match chunks with
  | [] => mret []
  | l :: ls => ps ← arrive n l; qs ← arrive_all n ls; mret (ps ++ qs)
  end.

Definition stream (ps : list merlin_event) : list byte := concat (map pkt_bytes ps).

Definition from_us (p : merlin_event) : Prop := pkt_wf p /\ h_sig (hdr p) = MERLIN_SIGNATURE.

(** The queue of node [n], which talks in clear, is [b]. *)
Definition queue_is (n : nat) (b : list byte) (s : merlin) : Prop :=
  bq (m_nodes s !!! n) = b /\ encrypted (m_nodes s !!! n) = false.

Lemma wf_size p : pkt_wf p -> HDR_SIZE +u h_len (hdr p) = Z.of_nat (length (pkt_bytes p)) /\
  HDR_SIZE + h_len (hdr p) = Z.of_nat (length (pkt_bytes p)).
Proof.
  intros (Hh & Hb & Hm). unfold pkt_bytes. rewrite length_app, length_hdr_bytes by done.
  pose proof (wf_len _ Hh). unfold MAX_BODY, HDR_SIZE in *. rewrite u32_small by lia. lia.
Qed.

(** Of a queue that starts a stream, the next packet is taken when it is complete and the
    queue is left alone when it is not. *)
Lemma get_event_stream n s b more ps :
  queue_is n b s -> Forall from_us ps -> b ++ more = stream ps ->
  match ps with
  | p :: ps' =>
      if (length (pkt_bytes p) <=? length b)%nat then
        exists b' s', node_get_event n s = (Got p, s') /\ queue_is n b' s' /\ b = pkt_bytes p ++ b' /\
          b' ++ more = stream ps'
      else node_get_event n s = (NoEvent, s)
  | [] => node_get_event n s = (NoEvent, s)
  end.
Proof.
  intros [Hq He] Hps Hb. unfold node_get_event, get_node, gets, mbind, ST_bind, mret, ST_ret. rewrite Hq.
  destruct ps as [|p ps].
  { apply app_nil in Hb as [-> _]. done. }
  apply Forall_cons in Hps as [[Hp Hsig] Hps]. cbn [stream map concat] in Hb.
  destruct (wf_size p Hp) as [Hs1 Hs2]. pose proof (length_hdr_bytes (hdr p) (proj1 Hp)) as Hh.
  destruct (Z.of_nat (length b) <? HDR_SIZE) eqn:E1.
  { apply Z.ltb_lt in E1. rewrite (proj2 (Nat.leb_gt _ _)); [done|].
    unfold pkt_bytes. rewrite length_app. unfold HDR_SIZE in E1. lia. }
  apply Z.ltb_ge in E1. unfold HDR_SIZE in E1.
  assert (exists k, b = hdr_bytes (hdr p) ++ k) as [k Hk].
  { exists (drop 128 b). rewrite <- (take_drop 128 b) at 1. f_equal.
    apply (f_equal (take 128)) in Hb. unfold pkt_bytes in Hb. rewrite <- app_assoc in Hb.
    rewrite take_app_le in Hb by lia. rewrite Hb, take_app_le by lia. by rewrite take_ge by lia. }
  assert (hdr_of_bytes b = hdr p) as -> by (rewrite Hk; apply hdr_of_bytes_app, Hp).
  rewrite Hs1, Hs2. destruct (length (pkt_bytes p) <=? length b)%nat eqn:E2.
  2: { apply Nat.leb_gt in E2. by rewrite (proj2 (Z.ltb_lt _ _)) by lia. }
  apply Nat.leb_le in E2. rewrite (proj2 (Z.ltb_ge _ _)), Hsig, Z.eqb_refl by lia. cbn [negb].
  assert (b = pkt_bytes p ++ drop (length (pkt_bytes p)) b) as Hsplit.
  { rewrite <- (take_drop (length (pkt_bytes p)) b) at 1. f_equal.
    apply (f_equal (take (length (pkt_bytes p)))) in Hb. rewrite take_app_le in Hb by lia.
    rewrite Hb, take_app_le by lia. apply firstn_all. }
  destruct (on_node n _ s) as [u s1] eqn:E3. rewrite Z.ltb_irrefl, Nat2Z.id.
  assert (m_nodes s1 !!! n = (m_nodes s !!! n) <| stats ::= fun st => st <| ev_read ::= fun e => u64 (e + 1) |> |>
    <| bq := drop (length (pkt_bytes p)) b |>) as Hn1.
  { assert (s1 = (on_node n _ s).2) as -> by (by rewrite E3). rewrite node_on_node, decide_True by done.
    by rewrite Nat2Z.id, Hq. }
  unfold node_decrypt, get_node, gets, mbind, ST_bind, mret, ST_ret. rewrite Hn1.
  cbn [encrypted upd eta_rec]. rewrite He. cbn [negb].
  exists (drop (length (pkt_bytes p)) b), s1. split_and!.
  - do 2 f_equal. rewrite Hsplit, take_app_length. apply pkt_of_pkt_bytes, Hp.
  - unfold queue_is. by rewrite Hn1.
  - done.
  - rewrite Hsplit, <- app_assoc in Hb. by apply app_inv_head in Hb.
Qed.

Lemma take_events_stream n ps : forall fuel s b more,
  queue_is n b s -> Forall from_us ps -> b ++ more = stream ps -> (length b < fuel)%nat ->
  exists ps1 ps2 b' s', take_events fuel n s = (ps1, s') /\ ps = ps1 ++ ps2 /\ queue_is n b' s' /\
    b' ++ more = stream ps2 /\ (more = [] -> ps2 = []).
Proof.
  induction ps as [|p ps IH]; intros fuel s b more Hq Hps Hb Hf; (destruct fuel as [|fuel]; [lia|]);
    cbn [take_events]; unfold mbind, ST_bind, mret, ST_ret;
    pose proof (get_event_stream n s b more _ Hq Hps Hb) as Hg; cbn beta iota in Hg.
  - rewrite Hg. exists [], [], b, s. done.
  - destruct (length (pkt_bytes p) <=? length b)%nat eqn:E.
    + destruct Hg as (b' & s1 & -> & Hq1 & -> & Hb1). apply Forall_cons in Hps as [[Hp Hs] Hps].
      pose proof (pkt_len_bounds p Hp). rewrite length_app in Hf.
      destruct (IH fuel s1 b' more Hq1 Hps Hb1) as (ps1 & ps2 & b2 & s2 & -> & -> & H2 & H3 & H4); [lia|].
      exists (p :: ps1), ps2, b2, s2. done.
    + rewrite Hg. exists [], (p :: ps), b, s. split_and!; try done. intros ->. exfalso.
      apply Nat.leb_gt in E. rewrite app_nil_r in Hb. subst b. cbn [stream map concat] in E.
      rewrite length_app in E. lia.
Qed.

(** C20.  Framing: however the bytes of a sequence of packets are cut up on their way, the
    receiving end takes exactly those packets out of its buffer, in order, each as soon as
    it is complete, and nothing is left when all have arrived. *)
Theorem stream_reassembled n chunks ps s :
  queue_is n [] s -> Forall from_us ps -> concat chunks = stream ps ->
  let '(got, s') := arrive_all n chunks s in got = ps /\ queue_is n [] s'.
Proof.
  intros Hq Hps Hc.
  assert (forall chunks ps s b, queue_is n b s -> Forall from_us ps -> b ++ concat chunks = stream ps ->
    (chunks = [] -> b = []) ->
    let '(got, s') := arrive_all n chunks s in got = ps /\ queue_is n [] s') as H.
  2: { by apply (H chunks ps s []). }
  clear. intros chunks. induction chunks as [|l ls IH]; intros ps s b Hq Hps Hb Hnil.
  - rewrite (Hnil eq_refl) in *. cbn in *. split; [|done].
    destruct ps as [|p ps]; [done|]. apply Forall_cons in Hps as [[Hp _] _]. pose proof (pkt_len_bounds p Hp).
    apply (f_equal length) in Hb. cbn [stream map concat] in Hb. rewrite length_app in Hb. cbn in Hb. lia.
  - cbn [arrive_all]. unfold arrive, get_node, gets, mbind, ST_bind, mret, ST_ret.
    destruct (on_node n _ s) as [u s1] eqn:E.
    assert (queue_is n (b ++ l) s1) as Hq1.
    { assert (s1 = (on_node n _ s).2) as -> by (by rewrite E). destruct Hq as [Hq He].
      unfold queue_is. rewrite node_on_node, decide_True by done. cbn. by rewrite Hq. }
    cbn [concat] in Hb. rewrite app_assoc in Hb. rewrite (proj1 Hq1).
    destruct (take_events_stream n ps (S (length (b ++ l))) s1 (b ++ l) (concat ls) Hq1 Hps Hb)
      as (ps1 & ps2 & b' & s2 & -> & -> & Hq2 & Hb2 & Hend); [lia|].
    apply Forall_app in Hps as [_ Hps2].
    pose proof (IH ps2 s2 b' Hq2 Hps2 Hb2) as Hr.
    destruct (arrive_all n ls s2) as [qs s3]. destruct Hr as [-> Hq3]; [|done].
    intros ->. specialize (Hend eq_refl) as ->. by apply app_nil in Hb2 as [-> _].
Qed.

(** ** Two peers compare their configurations *)

(** How a process sees a peer: it expects the peer to have its own configuration. *)
Definition peer_view (ours : merlin_nodeinfo) (node : merlin_node) : Prop :=
  type node = MODE_PEER /\ i_last_cfg_change (expected node) = i_last_cfg_change ours /\
  i_config_hash (expected node) = i_config_hash ours.

(** Two peers come to opposite conclusions about whose object configuration is newer: both
    find nothing to do exactly when their hashes are equal; otherwise one sees a newer
    configuration where the other sees an older one, by the time of the last change and,
    between equal times, by start time; only peers that started in the same microsecond
    with configurations of the same age both push. *)
Theorem oconf_cmp_opposite ia ib node_b node_a :
  peer_view ia node_b -> peer_view ib node_a ->
  - 2 ^ 31 < i_last_cfg_change ib - i_last_cfg_change ia < 2 ^ 31 ->
  let ra := node_oconf_cmp node_b ia ib in
  let rb := node_oconf_cmp node_a ib ia in
  (ra = 0 <-> i_config_hash ia = i_config_hash ib) /\ (rb = 0 <-> ra = 0) /\
  (i_last_cfg_change ia < i_last_cfg_change ib -> ra <> 0 -> 0 < ra /\ rb < 0) /\
  (i_last_cfg_change ia = i_last_cfg_change ib -> ra <> 0 ->
     (i_start ia = i_start ib /\ ra = -1 /\ rb = -1) \/ (i_start ia <> i_start ib /\ ra = - rb)).
Proof.
  intros (Ta & Ca & Ha) (Tb & Cb & Hb) Hd. unfold node_oconf_cmp. rewrite Ta, Tb, Ca, Cb, Ha, Hb.
  rewrite !s32_small by lia.
  rewrite (bool_decide_eq_false_2 (MODE_PEER = MODE_NOC)), (bool_decide_eq_false_2 (MODE_PEER = MODE_POLLER)) by done.
  destruct (decide (i_config_hash ia = i_config_hash ib)) as [E|E].
  - rewrite E, !bool_decide_eq_true_2 by done. split_and!; try done.
  - rewrite !bool_decide_eq_false_2 by congruence.
    destruct (i_start ia) as [sa ua], (i_start ib) as [sb ub]. cbn [tv_sec tv_usec].
    destruct (i_last_cfg_change ib - i_last_cfg_change ia =? 0) eqn:E1,
      (i_last_cfg_change ia - i_last_cfg_change ib =? 0) eqn:E2; rewrite ?Z.eqb_eq, ?Z.eqb_neq in *; try lia.
    + destruct (sa <? sb) eqn:L1, (sb <? sa) eqn:L2, (ua <? ub) eqn:L3, (ub <? ua) eqn:L4, (ua =? ub) eqn:L5,
        (ub =? ua) eqn:L6; rewrite ?Z.ltb_lt, ?Z.ltb_ge, ?Z.eqb_eq, ?Z.eqb_neq in *; try lia;
        (split_and!; [split; [lia|congruence]|lia|lia|]); intros _ _;
        first [right; split; [intros [= ? ?]; lia|lia]|left; split_and!; [f_equal; lia|lia|lia]].
    + split_and!; try lia. split; [lia|congruence].
Qed.

End Delivery.

(** ** Witnesses *)

#[local] Existing Instance QSort_insertion.
#[local] Existing Instance plain_sodium.

(** The installation of Pgroup with our counters set: one peer and one poller are connected. *)
Definition demo3 : merlin := Eval vm_compute in
  (on_node IPC (fun ipc => ipc <| info ::= fun i => i <| i_active_peers := 1 |> <| i_active_pollers := 1 |> |>) demo2).2.

Lemma node_counters_exact_witness :
  counters_ok demo3 /\ counters_ok (node_set_state 2 STATE_NEGOTIATING demo3).2 /\
  counters_ok (node_disconnect 2 demo3).2.
Proof.
  assert (counters_ok demo3) as H.
  { split_and!; [apply (bool_decide_unpack _); vm_compute; exact I|
      apply (bool_decide_unpack _); vm_compute; exact I|vm_compute; reflexivity|vm_compute; reflexivity|].
    intros [] Hty; try discriminate Hty; vm_compute; reflexivity. }
  split; [exact H|]. apply (node_counters_exact 2 STATE_NEGOTIATING demo3 H).
  apply (bool_decide_unpack _). vm_compute. exact I.
Defined.


Definition demo_event (k : nat) : merlin_event := demo_pkt 7 (replicate k Byte.x41).

Lemma demo_event_wf k : (k <= 100)%nat -> pkt_wf (demo_event k).
Proof. intros Hk. apply demo_pkt_wf; [lia|]. rewrite length_replicate. unfold MAX_BODY. lia. Qed.

(** A backlog of one event in 200 bytes of memory and one more in the file behind it. *)
Definition demo_waiting : list merlin_event := [demo_event 3; demo_event 5].
Definition demo_adds : list blop := map (fun p => OpAdd (pkt_bytes p)) demo_waiting.
Definition demo_log : binlog * world := Eval vm_compute in
  match binlog_create (Some demo_path) 200 1048576 BINLOG_UNLINK demo_world with
  | (Some bl, w) => let '(_, _, bl, w) := run demo_adds bl w in (bl, w)
  | (None, w) => (Binlog None 0 0 0 0 0 0 0 0 0 0 0 false false None None None None, w)
  end.
Definition demo_linked : merlin := (on_node 1 (fun n => n <| node_binlog := Some demo_log.1 |>) (demo3 <| m_world := demo_log.2 |>)).2.

Lemma demo_waiting_backlog : backlog 1 demo_linked demo_waiting.
Proof.
  destruct (create_run_repr demo_path 200 1048576 demo_world demo_adds) as (bl & w & E & H);
    [reflexivity|lia|lia|vm_compute; discriminate|repeat constructor; vm_compute; done|].
  assert (run demo_adds bl w = (map pkt_bytes demo_waiting, [], demo_log.1, demo_log.2)) as Er
    by (vm_compute in E; injection E as <- <-; vm_compute; reflexivity).
  rewrite Er in H. destruct H as (mq & fq & Hb & Hq & _). exists demo_log.1, mq, fq.
  split_and!; [reflexivity|exact Hb|symmetry; exact Hq|]. repeat constructor; apply demo_event_wf; lia.
Qed.

Lemma send_event_in_order_witness :
  (fd demo_log.1 <> None /\ mem_avail demo_log.1 <> 0) /\
  let '((r, p'), s') := node_send_event 1 (demo_event 7) 0 demo_linked in
  r = 0 /\ p' = stamped demo_linked (marked (demo_event 7)) /\ waiting 1 s' [] /\ linked 1 7 s' /\
  io_wire (m_io s') !!! 7 =
    (io_wire (m_io demo_linked) !!! 7) ++ wire_bytes demo_linked demo_waiting ++ pkt_bytes (stamped demo_linked (marked (demo_event 7))).
Proof.
  split; [split; vm_compute; discriminate|apply (send_event_in_order 1 7 demo_linked demo_waiting (demo_event 7) 0)].
  - constructor; vm_compute; try reflexivity; [discriminate|lia].
  - left. exact demo_waiting_backlog.
  - reflexivity.
  - apply demo_event_wf. lia.
Defined.

(** Node 2, which is away, with an empty backlog of 1 KiB of memory and 1 MiB of file. *)
Definition demo_away (bl : binlog) (w : world) : merlin :=
  (on_node 2 (fun n => n <| node_binlog := Some bl |>) (demo3 <| m_world := w |>)).2.

Lemma send_event_queues_witness :
  exists bl w, binlog_create (Some demo_path) 1024 1048576 BINLOG_UNLINK demo_world = (Some bl, w) /\
    let '((r, p'), s') := node_send_event 2 (demo_event 3) 0 (demo_away bl w) in
    r = 0 /\ p' = marked (demo_event 3) /\ m_io s' = m_io (demo_away bl w) /\
    (backlog 2 s' ([] ++ [marked (demo_event 3)]) \/
     (backlog 2 s' [] /\ full_for bl (marked (demo_event 3)))).
Proof.
  destruct (create_repr demo_path 1024 1048576 demo_world) as (bl & w & E & Hb & _);
    [reflexivity|lia|lia|vm_compute; discriminate|].
  exists bl, w. split; [exact E|].
  assert (m_nodes (demo_away bl w) !!! 2%nat = (m_nodes demo3 !!! 2%nat) <| node_binlog := Some bl |>) as Hn.
  { unfold demo_away. rewrite node_on_node, decide_True by reflexivity. reflexivity. }
  apply (send_event_queues 2 (demo_away bl w) [] (demo_event 3) 0 bl).
  - exists bl, [], []. rewrite Hn. split_and!; [reflexivity|exact Hb|reflexivity|constructor].
  - by rewrite Hn.
  - apply demo_event_wf. lia.
  - vm_compute. reflexivity.
  - left. rewrite Hn. vm_compute. reflexivity.
Defined.

Lemma stream_reassembled_witness :
  let ps := [demo_event 3; demo_event 0; demo_event 9] in
  let chunks := [take 100 (stream ps); take 200 (drop 100 (stream ps)); drop 300 (stream ps)] in
  let '(got, s') := arrive_all 1 chunks demo3 in got = ps /\ queue_is 1 [] s'.
Proof.
  intros ps chunks. apply (stream_reassembled 1 chunks ps demo3).
  - split; reflexivity.
  - repeat constructor; try (apply demo_event_wf; lia).
  - vm_compute. reflexivity.
Defined.

Definition demo_info (hash cfg start : Z) : merlin_nodeinfo :=
  zero_info <| i_config_hash := le_split 20 hash |> <| i_last_cfg_change := cfg |> <| i_start := TV start 0 |>.
Definition demo_peer (ours : merlin_nodeinfo) : merlin_node := zero_node <| type := MODE_PEER |> <| expected := ours |>.

Lemma oconf_cmp_opposite_witness :
  let ia := demo_info 1 500 10 in let ib := demo_info 2 500 20 in
  let ra := node_oconf_cmp (demo_peer ia) ia ib in
  let rb := node_oconf_cmp (demo_peer ib) ib ia in
  (ra = 0 <-> i_config_hash ia = i_config_hash ib) /\ (rb = 0 <-> ra = 0) /\
  (i_last_cfg_change ia < i_last_cfg_change ib -> ra <> 0 -> 0 < ra /\ rb < 0) /\
  (i_last_cfg_change ia = i_last_cfg_change ib -> ra <> 0 ->
     (i_start ia = i_start ib /\ ra = -1 /\ rb = -1) \/ (i_start ia <> i_start ib /\ ra = - rb)).
Proof.
  intros ia ib. apply (oconf_cmp_opposite ia ib (demo_peer ia) (demo_peer ib));
    [split_and!; reflexivity|split_and!; reflexivity|cbn; lia].
Defined.

(** ** Where the code goes wrong *)

(** The number of events in a node's backlog and what one descriptor has received. *)
Definition queued (n : nat) (s : merlin) : Z := (entries n s).1.

(** When the connection fails while the backlog is being sent, [node_send_binlog] puts the
    event back and queues the new event behind it, and [node_send_event], finding the
    backlog not empty, queues the new event again: two events become three. *)
Theorem failed_backlog_repeats_event :
  let away := (on_node 1 (fun n => n <| state_of := STATE_NONE |>) demo3).2 in
  let s := (node_send_event 1 (demo_event 3) 0 away).2 in
  let s := (on_node 1 (fun n => n <| state_of := STATE_CONNECTED |>) s).2 <| m_io := Io [] [SendErr] ∅ |> in
  let '((r, _), s') := node_send_event 1 (demo_event 5) 0 s in
  queued 1 s = 1 /\ r = 0 /\ queued 1 s' = 3.
Proof. vm_compute. auto. Qed.

(** A packet that fails authentication disconnects the node, and is then returned to the
    caller all the same. *)
Theorem forged_packet_is_returned :
  let s := (on_node 1 (fun n => n <| encrypted := true |> <| bq := pkt_bytes (demo_event 3) |>) demo3).2 in
  let '(g, s') := node_get_event 1 s in
  g = Got (demo_event 3) /\ state_of (m_nodes s' !!! 1%nat) = STATE_NONE.
Proof. vm_compute. auto. Qed.

(** The size of an incoming packet is computed modulo 2^32: a header that announces
    2^32 - 120 bytes is taken for a packet of 8 bytes, for which 8 bytes are allocated. *)
Theorem announced_size_wraps :
  let h := (hdr (demo_event 0)) <| h_len := 2 ^ 32 - 120 |> in
  let s := (on_node 1 (fun n => n <| bq := hdr_bytes h |>) demo3).2 in
  (node_get_event 1 s).1 = GotShort 8.
Proof. vm_compute. reflexivity. Qed.
