(* ===== verification/Control.v ===== *)
(** * Control: what the module does with the packets of other nodes

    Config synchronisation (module/script-helpers.c), the link to the daemon
    (shared/ipc.c, as the module uses it), control packets, forwarding and the periodic
    jobs of module/module.c.  Naemon's worker processes are [m_ran], the commands they were
    given; Naemon's event types are a class, and so is what is done with a decoded event. *)

From S2P Require Import Prelude Binlog Packet Io Merlin Pgroup Node.

(** The values of nebcallbacks.h that the module distinguishes. *)
Class NebCallbacks := {
  NEBCALLBACK_PROCESS_DATA : Z;
  NEBCALLBACK_NOTIFICATION_DATA : Z;
  NEBCALLBACK_CONTACT_NOTIFICATION_DATA : Z;
  NEBCALLBACK_CONTACT_NOTIFICATION_METHOD_DATA : Z;
  NEBCALLBACK_EXTERNAL_COMMAND_DATA : Z;
  NEBCALLBACK_PROGRAM_STATUS_DATA : Z;
  NEBCALLBACK_COMMENT_DATA : Z;
  NEBCALLBACK_CHECK_DATA : check_type -> Z;
  NEBCALLBACK_STATUS_DATA : check_type -> Z }.

Section Control.
Context {QS : QSort} {SD : Sodium} {NC : NebCallbacks}.

(** ** Config synchronisation *)

(** wproc_run_callback, of Naemon. *)
Definition wproc_run_callback (cmd : string) : M unit := modify (fun s => s <| m_ran ::= cons cmd |>).

(** The two commands of a node, and [&cs->push] or [&cs->fetch]. *)
Inductive child := PUSH | FETCH.

Definition child_cmd (cs : merlin_confsync) (c : child) : option string :=
  match c with PUSH => cs_push cs | FETCH => cs_fetch cs end.

Definition child_running (cs : merlin_confsync) (c : child) : bool :=
  match c with PUSH => cs_push_running cs | FETCH => cs_fetch_running cs end.

Definition set_running (c : child) (cs : merlin_confsync) : merlin_confsync :=
  match c with PUSH => cs <| cs_push_running := true |> | FETCH => cs <| cs_fetch_running := true |> end.

(** [cmd && strcmp (cmd, "no")] *)
Definition usable (cmd : option string) : bool :=
  match cmd with Some c => negb (String.eqb c "no") | None => false end.

(** module/script-helpers.c:148-185 csync_node_active -- the choice of the command. *)
Definition csync_child (ty : mode) (cs : merlin_confsync) (tdelta : Z) : option child :=
  let pick c := if usable (child_cmd cs c) then Some c else None in
  match ty with
  | MODE_NOC => pick FETCH
  | MODE_POLLER => pick PUSH
  | _ => if tdelta <? 0 then pick PUSH else if 0 <? tdelta then pick FETCH else None
  end.

(** module/script-helpers.c:217-220 csync_node_active -- running it, unless it is ":". *)
Definition run_child (n : nat) (c : child) : M unit :=
  node ← get_node n;
  let cmd := default ""%string (child_cmd (csync node) c) in
  if String.eqb cmd ":" then mret tt else
  on_node n (fun node => node <| csync ::= set_running c |>) ;;
  wproc_run_callback cmd.

(** module/script-helpers.c:108-221 csync_node_active *)
Definition csync_node_active (n : nat) (theirs : merlin_nodeinfo) (tdelta : Z) : M unit :=
  node ← get_node n;
  ours ← gets self_of;
  now ← time_now;
  let cs := csync node in
  let real_tdelta := s32 (i_last_cfg_change theirs - i_last_cfg_change (expected node)) in
  if bool_decide (cs_push cs = None) && bool_decide (cs_fetch cs = None) then node_disconnect n else
  if (type node =?s MODE_POLLER) && (0 <=? real_tdelta) &&
     negb (i_configured_peers ours =? i_active_peers ours) then mret tt else
  if negb (has_flag (flags node) MERLIN_NODE_CONNECT) && negb (cs_configured cs) then mret tt else
  match csync_child (type node) cs tdelta with
  | None => mret tt
  | Some c =>
      if child_running cs c then mret tt else
      if now - 30 <=? csync_last_attempt node then mret tt else
      on_node n (fun node => node <| csync_num_attempts ::= fun a => u32 (a + 1) |>
        <| csync_last_attempt := now |>) ;;
      run_child n c
  end.

(** module/script-helpers.c:228-270 csync_fetch -- [false] when it dereferences a NULL child. *)
Definition csync_fetch (n : nat) : M bool :=
  node ← get_node n;
  now ← time_now;
  if type node =?s MODE_POLLER then
    on_node n (fun node => node <| csync_last_attempt := now |>) ;; mret false
  else if negb (usable (cs_fetch (csync node))) then mret true else
  on_node n (fun node => node <| csync_last_attempt := now |>) ;;
  run_child n FETCH ;; mret true.

(** module/script-helpers.c:76-89 handle_csync_finished *)
Definition handle_csync_finished (n : nat) (c : child) : M unit :=
  on_node n (fun node => node <| csync ::= fun cs => match c with
    | PUSH => cs <| cs_push_running := false |> | FETCH => cs <| cs_fetch_running := false |> end |>).

(** module/script-helpers.c:276-278 update_cluster_config *)
Definition update_cluster_config : M unit :=
  c ← gets m_cluster_update;
  match c with Some cmd => wproc_run_callback cmd | None => mret tt end.

(** ** Control packets *)

(** module/module.c:336-421 handle_control -- of a known node; [false] when it crashes. *)
Definition handle_control (objver : Z) (n : nat) (pkt : merlin_event) : M bool :=
  let code := h_code (hdr pkt) in
  if code =? CTRL_INACTIVE then node_disconnect n ;; mret true
  else if code =? CTRL_ACTIVE then
    node ← get_node n;
    ours ← gets self_of;
    pgs ← gets m_pgroups;
    let prev_state := state_of node in
    let theirs := info_of_bytes (body pkt) in
    let total := match pgroup node with Some g => pg_total_nodes (pgs !!! g) | None => 0 end in
    if negb (node_compat_cmp objver pkt =? 0) then node_disconnect n ;; mret true else
    if negb (node_mconf_cmp (type node) total ours theirs =? 0) then
      on_node n (fun node => node <| incompatible_cluster_config := true |>) ;;
      node_disconnect n ;; mret true
    else
    on_node n (fun node => node <| incompatible_cluster_config := false |>) ;;
    let ret := node_oconf_cmp node ours theirs in
    if negb (ret =? 0) then csync_node_active n theirs ret ;; node_disconnect n ;; mret true else
    on_node n (fun node => node <| info := theirs |>) ;;
    (if prev_state =?s STATE_CONNECTED then mret tt else node_set_state n STATE_CONNECTED) ;;
    mret true
  else if code =? CTRL_INVALID_CLUSTER then update_cluster_config ;; mret true
  else if code =? CTRL_FETCH then csync_fetch n
  else mret true.

(** ** The daemon *)

(** shared/ipc.c:347-359 ipc_deinit -- of the module. *)
Definition ipc_deinit : M unit :=
  node_disconnect IPC ;;
  ls ← gets m_listen_sock;
  (if 0 <=? ls then sys_close ls else mret tt) ;;
  modify (fun s => s <| m_listen_sock := -1 |>).

(** socket(2), for the daemon's socket: the descriptor, or -1. *)
Definition ipc_socket : M Z := fun s =>
  match m_daemon s with
  | DaemonNoSocket => (-1, s)
  | DaemonRefuses fd | DaemonAccepts fd => (fd, s <| m_open ::= fun o => {[fd]} ∪ o |>)
  end.

(** shared/ipc.c:253-344 ipc_init -- of the module.  connect(2) on a socket that is not new
    gives EISCONN. *)
Definition ipc_init : M Z :=
  ipc ← get_node IPC;
  now ← time_now;
  path ← gets m_ipc_path;
  ls ← gets m_listen_sock;
  (if now <=? last_conn_attempt_logged ipc + 30 then mret tt
   else on_node IPC (fun ipc => ipc <| last_conn_attempt_logged := now |>)) ;;
  if bool_decide (path = None) then mret (-1) else
  let fresh := (ls =? -1) || (sock ipc =? -1) in
  ls ← (if fresh then
          fd ← ipc_socket; modify (fun s => s <| m_listen_sock := fd |>) ;; mret fd
        else mret ls);
  if ls <? 0 then mret (-1) else
  if negb fresh then mret 0 else
  d ← gets m_daemon;
  match d with
  | DaemonAccepts _ =>
      on_node IPC (fun ipc => ipc <| last_conn_attempt_logged := 0 |> <| sock := ls |>) ;;
      node_set_state IPC STATE_CONNECTED ;; mret 0
  | _ => ipc_deinit ;; mret (-1)
  end.

(** shared/ipc.c:128-133 ipc_reinit *)
Definition ipc_reinit : M Z := ipc_deinit ;; ipc_init.

(** shared/ipc.c:362-386 ipc_is_connected -- of the module. *)
Definition ipc_is_connected : M bool :=
  ipc ← get_node IPC;
  if sock ipc <? 0 then r ← ipc_reinit; mret (r =? 0)
  else node_set_state IPC STATE_CONNECTED ;; mret true.

(** shared/ipc.c:398-402 ipc_ctrl *)
Definition ipc_ctrl (code sel : Z) (data : list byte) : M Z :=
  ipc_is_connected ;; node_ctrl IPC code sel data.

(** shared/ipc.c:404-417 ipc_send_event *)
Definition ipc_send_event (pkt : merlin_event) : M (Z * merlin_event) :=
  ipc_is_connected ;;
  now ← time_now;
  us ← gets m_usec;
  '(r, pkt) ← node_send_event IPC (pkt <| hdr ::= fun h => h <| h_sent := TV now us |> |>) 0;
  mret (if r <? 0 then -1 else 0, pkt).

(** module/module.c:951-975 ipc_reaper -- what the daemon sends is read once and, whatever it is, costs it the
    connection. *)
Definition ipc_reaper : M unit :=
  rs ← gets m_recvs;
  modify (fun s => s <| m_recvs ::= @tail recv_res |>) ;;
  match rs with
  | [] | RecvAgain :: _ => mret tt
  | _ => node_disconnect IPC
  end.

(** shared/shared.h:146-159 daemon_wants *)
Definition daemon_wants (type : Z) : bool :=
  negb ((type =? NEBCALLBACK_NOTIFICATION_DATA) || (type =? NEBCALLBACK_CONTACT_NOTIFICATION_DATA) ||
        (type =? NEBCALLBACK_EXTERNAL_COMMAND_DATA) || (type =? NEBCALLBACK_PROGRAM_STATUS_DATA) ||
        (type =? NEBCALLBACK_COMMENT_DATA)).

(** ** Events of other nodes *)

(** The masters, peers and pollers of the node table. *)
Definition masters (s : merlin) : list nat := take (Z.to_nat (num_masters s)) (m_table s).
Definition peers (s : merlin) : list nat :=
  take (Z.to_nat (num_peers s)) (drop (Z.to_nat (num_masters s)) (m_table s)).
Definition pollers (s : merlin) : list nat :=
  take (Z.to_nat (num_pollers s)) (drop (Z.to_nat (num_masters s + num_peers s)) (m_table s)).

(** module/net.c:744-753 net_sendto *)
Definition net_sendto (n : nat) (pkt : merlin_event) : M (Z * merlin_event) := node_send_event n pkt 0.

(** Sending one packet to several nodes; the packet is shared by the calls. *)
Fixpoint sendto_all (ns : list nat) (pkt : merlin_event) : M merlin_event :=
  match ns with
  | [] => mret pkt
  | n :: ns => '(_, pkt) ← net_sendto n pkt; sendto_all ns pkt
  end.

(** module/net.c:755-768 net_sendto_many *)
Definition net_sendto_many (ns : list nat) (pkt : merlin_event) : M (Z * merlin_event) :=
  if bool_decide (ns = []) then mret (-1, pkt) else pkt ← sendto_all ns pkt; mret (0, pkt).

(** module/module.c:842-859 handle_event -- passing an event on. *)
Definition forward_event (n : nat) (pkt : merlin_event) : M merlin_event :=
  node ← get_node n;
  ms ← gets masters;
  ps ← gets pollers;
  nm ← gets num_masters;
  np ← gets num_pollers;
  if (type node =?s MODE_POLLER) && negb (nm =? 0) then '(_, pkt) ← net_sendto_many ms pkt; mret pkt
  else if (type node =?s MODE_MASTER) && negb (np =? 0) then
    if (h_type (hdr pkt) =? NEBCALLBACK_PROGRAM_STATUS_DATA) ||
       (h_type (hdr pkt) =? NEBCALLBACK_CONTACT_NOTIFICATION_METHOD_DATA) then mret pkt
    else sendto_all ps pkt
  else mret pkt.

(** module/module.c:804-947 handle_event -- [runcmd] and [deliver] decode the event and act on
    Naemon's objects.  A control packet that crashes the module gives -1. *)
Definition handle_event (objver : Z) (runcmd deliver : nat -> merlin_event -> M Z)
    (n : nat) (pkt : merlin_event) : M Z :=
  if bool_decide (n = IPC) then mret 0 else
  if h_type (hdr pkt) =? CTRL_PACKET then
    ok ← handle_control objver n pkt; mret (if ok : bool then 0 else -1)
  else if h_type (hdr pkt) =? RUNCMD_PACKET then runcmd n pkt
  else
  node ← get_node n;
  if negb (state_of node =?s STATE_CONNECTED) then mret 0 else
  pkt ← forward_event n pkt;
  node ← get_node n;
  let pkt := pkt <| hdr ::= fun h => h <| h_selection := u16 (node_id node) |> |> in
  on_node n (fun node => node
    <| info ::= fun i => if i_byte_order i =? 0 then i <| i_byte_order := u32 (-1) |> else i |>
    <| stats ::= fun st => st <| ev_read ::= fun e => u64 (e + 1) |>
                              <| by_read ::= fun b => u64 (b + packet_size pkt) |> |>) ;;
  node_log_event_count n false ;;
  pkt ← (if daemon_wants (h_type (hdr pkt)) then '(_, pkt) ← ipc_send_event pkt; mret pkt else mret pkt);
  if (h_type (hdr pkt) =? NEBCALLBACK_CONTACT_NOTIFICATION_METHOD_DATA) ||
     (h_type (hdr pkt) =? NEBCALLBACK_PROGRAM_STATUS_DATA) ||
     (h_type (hdr pkt) =? NEBCALLBACK_PROCESS_DATA) then mret 0
  else deliver n pkt.

(** ** Periodic jobs *)

(** module/module.c:1296-1311 send_pulse *)
Definition send_pulse : M unit :=
  node_send_ctrl_active IPC ;;
  k ← gets num_nodes;
  table ← gets m_table;
  for_each (take (Z.to_nat k) table) (fun n =>
    node ← get_node n;
    if state_of node =?s STATE_CONNECTED then node_send_ctrl_active n else mret tt).

(** module/net.c:776-790 disconnect_inactive -- the time since the last packet is an
    unsigned int. *)
Definition disconnect_inactive (n : nat) : M unit :=
  node ← get_node n;
  now ← time_now;
  let delta_receive_time := u32 (now - last_recv node) in
  if (sock node =? -1) || negb (state_of node =?s STATE_CONNECTED) then mret tt else
  if data_timeout node =? 0 then mret tt else
  if data_timeout node <=? delta_receive_time then node_disconnect n else mret tt.

(** module/module.c:1319-1333 disconnect_inactive_nodes *)
Definition disconnect_inactive_nodes : M unit :=
  k ← gets num_nodes;
  table ← gets m_table;
  for_each (take (Z.to_nat k) table) (fun n =>
    node ← get_node n;
    if state_of node =?s STATE_NONE then mret tt else disconnect_inactive n).

(** module/module.c:1339-1352 auto_del_last_seen_delta *)
Definition auto_del_last_seen_delta (s : merlin) (n : nat) : Z :=
  let node := m_nodes s !!! n in
  if last_action node <=? 0 then m_now s - connect_time (ipc_of s) else m_now s - last_action node.

(** The peer group of a node. *)
Definition group_of (s : merlin) (n : nat) : merlin_peer_group :=
  match pgroup (m_nodes s !!! n) with Some g => m_pgroups s !!! g | None => zero_pgroup end.

(** module/module.c:1358-1370 auto_delete_pgroup_recently_seen *)
Definition auto_delete_pgroup_recently_seen (s : merlin) (n : nat) : bool :=
  existsb (fun m => negb (bool_decide (m = n)) &&
    (auto_del_last_seen_delta s m <? s32 (m_pulse_interval s * 2))) (pg_nodes (group_of s n)).

(** module/module.c:1376-1413 should_auto_delete *)
Definition should_auto_delete (s : merlin) (n : nat) : bool :=
  let node := m_nodes s !!! n in
  if (0 <? auto_delete node) && negb (state_of node =?s STATE_CONNECTED) then
    if auto_delete node <? auto_del_last_seen_delta s n then
      if pg_total_nodes (group_of s n) =? 1 then false
      else if (pg_active_nodes (group_of s n) =? 0) && negb (auto_delete_pgroup_recently_seen s n) then false
      else true
    else false
  else false.

(** The names of the nodes to delete, each followed by a space. *)
Definition nodes_to_delete (s : merlin) : list nat :=
  List.filter (should_auto_delete s) (take (Z.to_nat (num_nodes s)) (m_table s)).

Definition AUTO_DELETE_BUFFER_SIZE : Z := 1024.

(** module/script-helpers.c:284-294 auto_delete_node_cmd *)
Definition auto_delete_node_cmd (names : string) : M unit :=
  let cmd := ("mon node remove " +:+ names +:+ " && sudo mon restart")%string in
  if AUTO_DELETE_BUFFER_SIZE <=? Z.of_nat (String.length cmd) then mret tt else wproc_run_callback cmd.

(** module/module.c:1422-1462 auto_delete_nodes -- [false] when the names are written beyond
    the end of the buffer: each snprintf may write as much as the whole buffer holds.  A
    single name is cut, and the command made of it does not fit. *)
Definition auto_delete_nodes : M bool :=
  ipc ← get_node IPC;
  if negb (state_of ipc =?s STATE_CONNECTED) then mret true else
  ns ← gets (fun s => map (fun n => name (m_nodes s !!! n)) (nodes_to_delete s));
  let names := foldr (fun n r => (n +:+ " " +:+ r)%string) ""%string ns in
  if AUTO_DELETE_BUFFER_SIZE <=? Z.of_nat (String.length names) then mret (Nat.eqb (length ns) 1) else
  (if bool_decide (ns = []) then mret tt else auto_delete_node_cmd names) ;; mret true.

(** ** What is synchronised *)

(** The command a call may run. *)
Lemma csync_child_sound ty cs tdelta c :
  csync_child ty cs tdelta = Some c ->
  usable (child_cmd cs c) = true /\
  match c with
  | PUSH => ty <> MODE_MASTER /\ (ty <> MODE_POLLER -> tdelta < 0)
  | FETCH => ty <> MODE_POLLER /\ (ty <> MODE_MASTER -> 0 < tdelta)
  end.
Proof.
  unfold csync_child. intros H.
  destruct ty; repeat (split_if_in H; simplify_eq); split_and!; try done; intros; lia.
Qed.

Lemma run_child_ran n c s :
  m_ran (run_child n c s).2 =
  (if String.eqb (default ""%string (child_cmd (csync (m_nodes s !!! n)) c)) ":" then m_ran s
   else default ""%string (child_cmd (csync (m_nodes s !!! n)) c) :: m_ran s) /\
  forall m, m_nodes (run_child n c s).2 !!! m =
    if bool_decide (m = n) && negb (String.eqb (default ""%string (child_cmd (csync (m_nodes s !!! n)) c)) ":")
    then (m_nodes s !!! m) <| csync ::= set_running c |> else m_nodes s !!! m.
Proof.
  unfold run_child, get_node, gets, mbind, ST_bind, mret, ST_ret. destruct (String.eqb _ ":"); cbn [negb].
  - split; [done|]. intros m. by rewrite andb_false_r.
  - split; [done|]. intros m. rewrite andb_true_r.
    destruct (on_node n _ s) as [u s1] eqn:E. cbn.
    change s1 with (u, s1).2. rewrite <- E, node_on_node. case_decide; subst.
    + by rewrite bool_decide_eq_true_2.
    + by rewrite bool_decide_eq_false_2.
Qed.

(** *** Only a synchronisation or an update of the cluster runs a command *)

Definition ran_is (r : list string) (s : merlin) : Prop := m_ran s = r.

Lemma ran_modify r f : (forall s, m_ran (f s) = m_ran s) -> preserves (ran_is r) (modify f).
Proof. intros Hf. apply preserves_modify. intros s. unfold ran_is. by rewrite Hf. Qed.

Lemma ran_node r n f : preserves (ran_is r) (on_node n f).
Proof. by apply ran_modify. Qed.

Lemma ran_assign r pg : preserves (ran_is r) (pgroup_assign_peer_ids pg).
Proof.
  intros s Hs. destruct (keeps_assign pg s s (keeps_refl s)) as [_ Ho].
  exact (eq_trans (f_equal m_ran Ho) Hs).
Qed.

Lemma ran_register r fd : preserves (ran_is r) (iobroker_register fd).
Proof. intros s. unfold iobroker_register. by destruct (fd <? 0). Qed.

#[local] Hint Resolve ran_node ran_assign ran_register : pres.
#[local] Hint Extern 5 (preserves (ran_is _) (modify _)) => apply ran_modify; by intros : pres.

Lemma ran_disconnect r n : preserves (ran_is r) (node_disconnect n).
Proof.
  unfold node_disconnect, node_log_event_count, iobroker_close, iobroker_unregister, sys_close,
    set_state_none, set_state_body, set_state_rest, ipc_action_handler, node_action_handler.
  preserve.
Qed.

(** C22.  A configuration is synchronised in the right direction, one command at a time: a
    node that reports another configuration makes the module run nothing, or one command
    that is configured and not "no", and then only when that command is not running already
    and the last attempt with this node is more than 30 seconds ago; a push never goes to a
    master, a fetch is never done from a poller, and between peers the side with the newer
    configuration pushes and the other one fetches.  The command is then running and the attempt stamped. *)
Theorem csync_one_command n theirs tdelta s :
  let node := m_nodes s !!! n in
  let s' := (csync_node_active n theirs tdelta s).2 in
  m_ran s' = m_ran s \/
  exists c cmd, m_ran s' = cmd :: m_ran s /\
    child_cmd (csync node) c = Some cmd /\ cmd <> "no"%string /\
    child_running (csync node) c = false /\ csync_last_attempt node + 30 < m_now s /\
    match c with
    | PUSH => type node <> MODE_MASTER /\ (type node <> MODE_POLLER -> tdelta < 0)
    | FETCH => type node <> MODE_POLLER /\ (type node <> MODE_MASTER -> 0 < tdelta)
    end /\
    child_running (csync (m_nodes s' !!! n)) c = true /\ csync_last_attempt (m_nodes s' !!! n) = m_now s.
Proof.
  cbn zeta. set (node := m_nodes s !!! n).
  unfold csync_node_active, get_node, time_now, gets, mbind, ST_bind, mret, ST_ret. fold node.
  destruct (bool_decide (cs_push _ = None) && _); [left; by apply ran_disconnect|].
  destruct (_ && negb (_ =? _)); [by left|]. destruct (_ && negb (cs_configured _)); [by left|].
  destruct (csync_child _ _ _) as [c|] eqn:Ec; [|by left].
  destruct (child_running _ c) eqn:Er; [by left|]. destruct (m_now s - 30 <=? _) eqn:Et; [by left|].
  apply csync_child_sound in Ec as [Hu Hd].
  match goal with |- context [on_node n ?f s] => set (g := f) end.
  destruct (on_node n g s) as [u s1] eqn:E.
  assert (m_ran s1 = m_ran s /\ m_nodes s1 !!! n = g node) as [Hr Hn].
  { change s1 with (u, s1).2. rewrite <- E. split; [done|]. by rewrite node_on_node, decide_True. }
  destruct (run_child_ran n c s1) as [H1 H2]. specialize (H2 n).
  rewrite Hn in H1, H2. rewrite bool_decide_eq_true_2 in H2 by done. cbn [andb] in H2.
  change (csync (g node)) with (csync node) in H1, H2. rewrite Hr in H1.
  destruct (child_cmd (csync node) c) as [cmd|] eqn:Ecmd; [|done]. cbn [default id] in H1, H2. unfold id in H1, H2.
  cbn [usable] in Hu. apply negb_true_iff, String.eqb_neq in Hu. apply Z.leb_gt in Et.
  destruct (String.eqb cmd ":") eqn:E1; [left; exact H1|right].
  exists c, cmd. cbn [negb] in H2. rewrite H1, H2. split_and!; try done; [lia|by destruct c].
Qed.

(** ** Becoming connected *)

(** Node information without what the numbering writes. *)
Definition numbered (i : merlin_nodeinfo) : merlin_nodeinfo :=
  i <| i_peer_id := 0 |> <| i_host_checks_handled := 0 |> <| i_service_checks_handled := 0 |>.

(** The node is connected with this information. *)
Definition linked (n : nat) (i : merlin_nodeinfo) (s : merlin) : Prop :=
  state_of (m_nodes s !!! n) = STATE_CONNECTED /\ numbered (info (m_nodes s !!! n)) = numbered i.

Lemma linked_assign n i pg s : linked n i s -> linked n i (pgroup_assign_peer_ids pg s).2.
Proof.
  intros [Hs Hi]. destruct (keeps_assign pg s s (keeps_refl s)) as [Hn _]. specialize (Hn n).
  split; [exact (eq_trans (f_equal state_of Hn) Hs)|exact (eq_trans (f_equal info Hn) Hi)].
Qed.

Lemma rest_linked n i prev s :
  n <> IPC -> linked n i s -> linked n i (set_state_rest (fun _ => mret tt) n STATE_CONNECTED prev s).2.
Proof.
  intros Hn Hl. unfold set_state_rest, node_action_handler, get_node, time_now, gets, mbind, ST_bind, mret, ST_ret.
  rewrite (bool_decide_eq_false_2 (n = IPC)), (bool_decide_eq_false_2 (STATE_CONNECTED = STATE_NEGOTIATING)) by done.
  cbn [andb]. rewrite !(proj1 Hl). rewrite (bool_decide_eq_true_2 (STATE_CONNECTED = STATE_CONNECTED)) by done. cbn [negb andb].
  rewrite (proj1 Hl). pose proof (linked_assign n i (pgroup (m_nodes s !!! n)) s Hl) as Ha.
  destruct (pgroup_assign_peer_ids _ s) as [u s1]. cbn [snd] in Ha.
  rewrite (proj1 Ha), (bool_decide_eq_true_2 (STATE_CONNECTED = STATE_CONNECTED)) by done. cbn [andb].
  destruct (0 <=? _); [|exact Ha]. unfold linked. rewrite node_on_node, decide_True by done. exact Ha.
Qed.

Lemma set_connected n s :
  n <> IPC -> state_of (m_nodes s !!! n) <> STATE_CONNECTED ->
  if state_of (m_nodes s !!! n) =?s STATE_NONE
  then state_of (m_nodes (node_set_state n STATE_CONNECTED s).2 !!! n) = STATE_NONE
  else linked n (info (m_nodes s !!! n)) (node_set_state n STATE_CONNECTED s).2.
Proof.
  intros Hn Hs. unfold node_set_state. rewrite set_state_eq.
  rewrite (bool_decide_eq_false_2 (_ = STATE_CONNECTED)), (bool_decide_eq_false_2 (n = IPC)) by done.
  rewrite (bool_decide_eq_false_2 (STATE_CONNECTED = STATE_NONE)) by done. cbn [negb andb].
  assert (transition_error (state_of (m_nodes s !!! n)) STATE_CONNECTED = (state_of (m_nodes s !!! n) =?s STATE_NONE)) as ->.
  { by destruct (state_of (m_nodes s !!! n)). }
  destruct (_ =?s STATE_NONE); [apply disconnect_state|].
  rewrite rest_quiet by (done || apply count_step_state). apply rest_linked; [done|].
  split; [apply count_step_state|]. unfold count_step, stamp_connect.
  rewrite (bool_decide_eq_true_2 (STATE_CONNECTED = STATE_CONNECTED)) by done.
  rewrite node_on_node, decide_True by done. cbn [info upd eta_rec].
  rewrite node_on_node, decide_False by done. rewrite node_on_node, decide_True by done. reflexivity.
Qed.


(** ** Nodes do not disturb each other *)

(** The node [m] but for its numbering, the clock and the node table. *)
Definition apart (m : nat) (x : merlin_node) (t : Z) (l : list nat) (s : merlin) : Prop :=
  strip (m_nodes s !!! m) = x /\ m_now s = t /\ m_table s = l.

Section Apart.
Context (m n : nat) (x : merlin_node) (t : Z) (l : list nat).
Context (Hmn : n <> m) (Hm : m <> IPC).

Lemma apart_node k f : k <> m -> preserves (apart m x t l) (on_node k f).
Proof.
  intros Hk s (Hx & Ht & Hl). split_and!; [|done..]. rewrite node_on_node, decide_False by done. exact Hx.
Qed.

Lemma apart_modify f :
  (forall s, m_nodes (f s) = m_nodes s /\ m_now (f s) = m_now s /\ m_table (f s) = m_table s) ->
  preserves (apart m x t l) (modify f).
Proof. intros Hf. apply preserves_modify. intros s. unfold apart. by destruct (Hf s) as (-> & -> & ->). Qed.

Lemma apart_lift_io {A} (c : ST io A) : preserves (apart m x t l) (lift_io c).
Proof. intros s. unfold apart, lift_io. by destruct (c (m_io s)). Qed.

Lemma apart_assign pg : preserves (apart m x t l) (pgroup_assign_peer_ids pg).
Proof.
  intros s (Hx & Ht & Hl). destruct (keeps_assign pg s s (keeps_refl s)) as [Hn Ho].
  split_and!; [exact (eq_trans (Hn m) Hx)|exact (eq_trans (f_equal m_now Ho) Ht)|
    exact (eq_trans (f_equal m_table Ho) Hl)].
Qed.

Lemma apart_register fd : preserves (apart m x t l) (iobroker_register fd).
Proof. intros s. unfold iobroker_register. by destruct (fd <? 0). Qed.

Lemma apart_random : preserves (apart m x t l) random_nonce.
Proof. intros s. unfold random_nonce. by destruct (m_random s). Qed.

#[local] Hint Resolve apart_lift_io apart_assign apart_register apart_random : pres.
#[local] Hint Extern 5 (preserves (apart _ _ _ _) (on_node _ _)) => apply apart_node; congruence : pres.
#[local] Hint Extern 5 (preserves (apart _ _ _ _) (modify _)) => apply apart_modify; by intros : pres.

Lemma apart_log force : preserves (apart m x t l) (node_log_event_count n force).
Proof. unfold node_log_event_count. preserve. Qed.

#[local] Hint Resolve apart_log : pres.

Lemma apart_disconnect : preserves (apart m x t l) (node_disconnect n).
Proof.
  unfold node_disconnect, iobroker_close, iobroker_unregister, sys_close,
    set_state_none, set_state_body, set_state_rest, ipc_action_handler, node_action_handler.
  preserve.
Qed.

#[local] Hint Resolve apart_disconnect : pres.

Lemma apart_send pkt len : preserves (apart m x t l) (node_send n pkt len).
Proof. unfold node_send, node_encrypt. preserve. Qed.

#[local] Hint Resolve apart_send : pres.

Lemma apart_on_binlog {A} (d : A) f : preserves (apart m x t l) (on_binlog d n f).
Proof.
  intros s Hs. unfold on_binlog. destruct (node_binlog _) as [bl|]; [|done].
  destruct (f bl (m_world s)) as [[a bl'] w].
  pose proof (apart_node n (fun node => node <| node_binlog := Some bl' |>) Hmn s Hs) as H.
  destruct (on_node n _ s) as [u s1]. exact H.
Qed.

#[local] Hint Resolve apart_on_binlog : pres.

Lemma apart_binlog_add pkt : preserves (apart m x t l) (node_binlog_add n pkt).
Proof. unfold node_binlog_add, node_create_binlog, wipe. preserve. Qed.

#[local] Hint Resolve apart_binlog_add : pres.

Lemma apart_entries : preserves (apart m x t l) (entries n).
Proof. unfold entries. preserve. Qed.

#[local] Hint Resolve apart_entries : pres.

Lemma apart_loop fuel : forall pkt, preserves (apart m x t l) (send_binlog_loop fuel n pkt).
Proof.
  induction fuel as [|fuel IH]; intros pkt; [apply preserves_ret|].
  cbn [send_binlog_loop]. unfold send_binlog_failed, wipe. preserve.
Qed.

#[local] Hint Resolve apart_loop : pres.

Lemma apart_send_event pkt msec : preserves (apart m x t l) (node_send_event n pkt msec).
Proof. unfold node_send_event, node_send_binlog. preserve. Qed.
End Apart.

Lemma apart_refl m s : apart m (strip (m_nodes s !!! m)) (m_now s) (m_table s) s.
Proof. done. Qed.

Lemma apart_sendto_all m x t l ns : forall pkt,
  m <> IPC -> m ∉ ns -> preserves (apart m x t l) (sendto_all ns pkt).
Proof.
  induction ns as [|n ns IH]; intros pkt Hm Hns; [apply preserves_ret|].
  apply not_elem_of_cons in Hns as [Hn Hns]. cbn. apply preserves_bind.
  - exact (apart_send_event m n x t l (not_eq_sym Hn) Hm pkt 0).
  - intros [_ p]. by apply IH.
Qed.

(** The node table holds masters, then peers, then pollers. *)
Definition table_typed (s : merlin) : Prop :=
  (forall n, n ∈ masters s -> type (m_nodes s !!! n) = MODE_MASTER) /\
  (forall n, n ∈ pollers s -> type (m_nodes s !!! n) = MODE_POLLER) /\ IPC ∉ m_table s.

(** C24.  Events are passed on between the tiers and never along one: an event of a poller goes
    to masters only, an event of a master to pollers only and an event of a peer to nobody.
    Every other node, and so every node of the sender's own type, is left as it was (backlog,
    counters, connection), so that an event cannot travel in circles. *)
Theorem forwarding_one_way n pkt s m :
  table_typed s -> m <> IPC ->
  match type (m_nodes s !!! n) with
  | MODE_POLLER => type (m_nodes s !!! m) <> MODE_MASTER
  | MODE_MASTER => type (m_nodes s !!! m) <> MODE_POLLER
  | _ => True
  end ->
  strip (m_nodes (forward_event n pkt s).2 !!! m) = strip (m_nodes s !!! m).
Proof.
  intros (Hma & Hpo & _) Hm Ht. unfold forward_event, net_sendto_many.
  cut (apart m (strip (m_nodes s !!! m)) (m_now s) (m_table s) (forward_event n pkt s).2).
  { by intros [H _]. }
  unfold forward_event, net_sendto_many, get_node, gets, mbind, ST_bind, mret, ST_ret.
  assert (Hrefl := apart_refl m s). destruct (type (m_nodes s !!! n)) eqn:E1.
  1, 3, 5: exact Hrefl.
  - change (MODE_NOC =?s MODE_POLLER) with false. change (MODE_NOC =?s MODE_NOC) with true. cbn [andb].
    destruct (negb _); [|exact Hrefl]. destruct (_ || _); [exact Hrefl|].
    apply apart_sendto_all; [done| |exact Hrefl]. intros Hin. by apply Ht, Hpo.
  - change (MODE_POLLER =?s MODE_POLLER) with true. change (MODE_POLLER =?s MODE_NOC) with false. cbn [andb].
    destruct (negb _); cbn beta; [|exact Hrefl]. destruct (bool_decide (masters s = [])); cbn beta; [exact Hrefl|].
    pose proof (apart_sendto_all m (strip (m_nodes s !!! m)) (m_now s) (m_table s) (masters s) pkt Hm) as H.
    specialize (H (fun Hin => Ht (Hma m Hin)) s Hrefl). by destruct (sendto_all _ pkt s).
Qed.

(** *** Silence *)

(** What [disconnect_inactive] asks. *)
Definition silent (s : merlin) (node : merlin_node) : bool :=
  (state_of node =?s STATE_CONNECTED) && negb (sock node =? -1) && negb (data_timeout node =? 0) &&
  (data_timeout node <=? m_now s - last_recv node).

Lemma disconnect_inactive_eq n s :
  0 <= m_now s - last_recv (m_nodes s !!! n) < 2 ^ 32 ->
  disconnect_inactive n s = if silent s (m_nodes s !!! n) then node_disconnect n s else (tt, s).
Proof.
  intros H. unfold disconnect_inactive, silent, get_node, time_now, gets, mbind, ST_bind, mret, ST_ret.
  rewrite u32_small by done. destruct (sock _ =? -1), (_ =?s STATE_CONNECTED), (data_timeout _ =? 0); cbn; try done.
  by destruct (_ <=? _).
Qed.

(** A node is heard of before now and less than 2^32 seconds ago. *)
Definition clock_ok (s : merlin) (n : nat) : Prop := 0 <= m_now s - last_recv (m_nodes s !!! n) < 2 ^ 32.

Lemma sweep_states ns : forall s,
  NoDup ns -> IPC ∉ ns -> Forall (clock_ok s) ns ->
  let s' := (for_each ns (fun n => node ← get_node n;
    if state_of node =?s STATE_NONE then mret tt else disconnect_inactive n) s).2 in
  (forall n, n ∈ ns -> state_of (m_nodes s' !!! n) =
    if silent s (m_nodes s !!! n) then STATE_NONE else state_of (m_nodes s !!! n)) /\
  (forall m, m <> IPC -> m ∉ ns -> apart m (strip (m_nodes s !!! m)) (m_now s) (m_table s) s').
Proof.
  induction ns as [|n ns IH]; intros s Hnd Hipc Hok.
  { cbn. split; [intros n Hn; by apply not_elem_of_nil in Hn|done]. }
  apply NoDup_cons in Hnd as [Hn Hnd]. apply not_elem_of_cons in Hipc as [Hni%not_eq_sym Hipc].
  apply Forall_cons in Hok as [Ho Hok]. cbn zeta.
  set (body := fun n => _ ← get_node n; _) in *.
  assert (exists s1, body n s = (tt, s1) /\
    state_of (m_nodes s1 !!! n) = (if silent s (m_nodes s !!! n) then STATE_NONE else state_of (m_nodes s !!! n)) /\
    forall m, m <> IPC -> n <> m -> apart m (strip (m_nodes s !!! m)) (m_now s) (m_table s) s1)
    as (s1 & E1 & Hs1 & Hap).
  { unfold body, get_node, gets, mbind, ST_bind, mret, ST_ret. destruct (_ =?s STATE_NONE) eqn:E.
    - exists s. apply bool_decide_eq_true in E. split_and!; [done| |done].
      rewrite E. by destruct (silent _ _).
    - rewrite disconnect_inactive_eq by done. destruct (silent s _) eqn:Es.
      + exists (node_disconnect n s).2. split_and!; [by destruct (node_disconnect n s) as [[] ?]|apply disconnect_state|].
        intros m Hm Hnm. by apply apart_disconnect.
      + exists s. split_and!; done. }
  assert (forall m, m <> IPC -> n <> m -> clock_ok s m -> clock_ok s1 m /\ silent s1 (m_nodes s1 !!! m) = silent s (m_nodes s !!! m)
    /\ state_of (m_nodes s1 !!! m) = state_of (m_nodes s !!! m)) as Hsame.
  { intros m Hm Hnm Hc. destruct (Hap m Hm Hnm) as (Hx & Ht & _). unfold clock_ok, silent. rewrite Ht.
    pose proof (f_equal last_recv Hx) as H1. pose proof (f_equal state_of Hx) as H2. pose proof (f_equal sock Hx) as H3.
    pose proof (f_equal data_timeout Hx) as H4. cbn [strip last_recv state_of sock data_timeout upd eta_rec] in H1, H2, H3, H4.
    by rewrite H1, H2, H3, H4. }
  cbn [for_each]. unfold mbind, ST_bind. rewrite E1.
  destruct (IH s1 Hnd Hipc) as [IH1 IH2].
  { apply Forall_forall. intros m Hin. rewrite Forall_forall in Hok.
    apply Hsame; [by intros ->|by intros ->|by apply Hok]. }
  fold body in IH1, IH2. split.
  - intros m [->|Hin]%elem_of_cons.
    + destruct (IH2 n Hni Hn) as (Hx & _). pose proof (f_equal state_of Hx) as Hx'.
      cbn [strip state_of upd eta_rec] in Hx'. by rewrite Hx'.
    + rewrite IH1 by done. destruct (Hsame m) as (_ & -> & ->); [by intros ->|by intros ->| |done].
      rewrite Forall_forall in Hok. by apply Hok.
  - intros m Hm [Hmn Hmns]%not_elem_of_cons.
    destruct (Hap m Hm ltac:(congruence)) as (<- & <- & <-). by apply IH2.
Qed.

(** The periodic check for silent nodes disconnects exactly the connected nodes that have
    a timeout and were last heard of that many seconds ago or more; no node
    loses its connection because of another one. *)
Theorem silent_nodes_disconnected s :
  NoDup (m_table s) -> IPC ∉ m_table s -> num_nodes s = Z.of_nat (length (m_table s)) ->
  Forall (clock_ok s) (m_table s) ->
  forall n, n ∈ m_table s ->
    state_of (m_nodes (disconnect_inactive_nodes s).2 !!! n) =
    if silent s (m_nodes s !!! n) then STATE_NONE else state_of (m_nodes s !!! n).
Proof.
  intros Hnd Hipc Hlen Hok. unfold disconnect_inactive_nodes. unfold mbind at 1 2, ST_bind at 1 2. cbn [gets].
  rewrite Hlen, Nat2Z.id, firstn_all. by apply sweep_states.
Qed.

(** *** Deleting nodes *)

Lemma should_delete_inv s n :
  should_auto_delete s n = true ->
  0 < auto_delete (m_nodes s !!! n) < auto_del_last_seen_delta s n /\
  state_of (m_nodes s !!! n) <> STATE_CONNECTED /\
  (pg_active_nodes (group_of s n) = 0 -> auto_delete_pgroup_recently_seen s n = true).
Proof.
  unfold should_auto_delete. intros H. destruct (0 <? _) eqn:E1; [|done]. cbn [andb] in H.
  destruct (_ =?s STATE_CONNECTED) eqn:E2; [done|]. cbn [negb] in H. apply bool_decide_eq_false in E2.
  destruct (_ <? auto_del_last_seen_delta s n) eqn:E3; [|done]. destruct (_ =? 1); [done|].
  split_and!; [lia|lia|done|]. intros E4. rewrite E4 in H.
  change (0 =? 0) with true in H. cbn [andb] in H. by destruct (auto_delete_pgroup_recently_seen s n).
Qed.

(** Automatic deletion never empties a peer group: whatever the nodes' state, the sweep
    spares at least one node of every group, provided nodes may be deleted only after an
    absence of two pulses or more and a group that counts active nodes has one (or
    ourselves). *)
Theorem auto_delete_spares_group s g :
  let pg := m_pgroups s !!! g in
  pg_nodes pg <> [] -> IPC ∉ m_table s -> 0 <= m_pulse_interval s < 2 ^ 30 ->
  (forall n, n ∈ pg_nodes pg -> pgroup (m_nodes s !!! n) = Some g /\
     (auto_delete (m_nodes s !!! n) = 0 \/ 2 * m_pulse_interval s <= auto_delete (m_nodes s !!! n))) ->
  (pg_active_nodes pg <> 0 -> exists n, n ∈ pg_nodes pg /\
     (n = IPC \/ state_of (m_nodes s !!! n) = STATE_CONNECTED)) ->
  exists n, n ∈ pg_nodes pg /\ n ∉ nodes_to_delete s.
Proof.
  intros pg Hne Hipc Hp Hn Hact.
  assert (Hdel : forall n, n ∈ nodes_to_delete s -> n ∈ m_table s /\ should_auto_delete s n = true).
  { intros n Hin. unfold nodes_to_delete in Hin. apply list_elem_of_In, List.filter_In in Hin as [Hin ?].
    apply list_elem_of_In in Hin. split; [|done]. by eapply elem_of_sublist, sublist_take. }
  destruct (decide (pg_active_nodes pg = 0)) as [Ha|Ha].
  - destruct (pg_nodes pg) as [|n l] eqn:El; [done|]. rewrite <- El in Hn |- *.
    assert (n ∈ pg_nodes pg) as Hin by (rewrite El; left).
    destruct (decide (n ∈ nodes_to_delete s)) as [Hd|Hd]; [|by exists n].
    apply Hdel in Hd as [_ Hd]. apply should_delete_inv in Hd as (_ & _ & Hr).
    unfold auto_delete_pgroup_recently_seen, group_of in Hr. rewrite (proj1 (Hn n Hin)) in Hr.
    specialize (Hr Ha). apply existsb_exists in Hr as (m & Hm%list_elem_of_In & Hr).
    apply andb_true_iff in Hr as [_ Hr]. rewrite s32_small in Hr by lia. exists m. split; [exact Hm|].
    intros Hd%Hdel. destruct Hd as [_ Hd]. apply should_delete_inv in Hd as (Hd & _).
    destruct (Hn m Hm) as [_ H]. lia.
  - destruct (Hact Ha) as (n & Hin & Hc). exists n. split; [done|]. intros Hd%Hdel.
    destruct Hd as [Ht Hd]. apply should_delete_inv in Hd as (_ & Hd & _). by destruct Hc as [->|].
Qed.

End Control.

(** ** A small installation *)

#[local] Existing Instances QSort_insertion plain_sodium.

(** The values of Naemon's nebcallbacks.h. *)
Definition naemon_callbacks : NebCallbacks :=
  {| NEBCALLBACK_PROCESS_DATA := 0; NEBCALLBACK_NOTIFICATION_DATA := 5;
     NEBCALLBACK_CONTACT_NOTIFICATION_DATA := 20; NEBCALLBACK_CONTACT_NOTIFICATION_METHOD_DATA := 21;
     NEBCALLBACK_EXTERNAL_COMMAND_DATA := 17; NEBCALLBACK_PROGRAM_STATUS_DATA := 11;
     NEBCALLBACK_COMMENT_DATA := 8;
     NEBCALLBACK_CHECK_DATA t := match t with HOST_CHECK => 7 | SERVICE_CHECK => 6 end;
     NEBCALLBACK_STATUS_DATA t := match t with HOST_CHECK => 12 | SERVICE_CHECK => 13 end |}.
#[local] Existing Instance naemon_callbacks.

(** Peer 1 introduces itself with our own configuration. *)
Definition demo_theirs : merlin_nodeinfo :=
  zero_info <| i_version := 1 |> <| i_word_size := 64 |> <| i_byte_order := 1234 |>
    <| i_configured_peers := 2 |> <| i_configured_pollers := 1 |> <| i_start := TV 300 0 |>.
Definition demo_active : merlin_event :=
  Event (blank_hdr <| h_type := CTRL_PACKET |> <| h_code := CTRL_ACTIVE |> <| h_len := 100 |>) (info_bytes demo_theirs).
Definition demo_negotiating : merlin :=
  Eval vm_compute in (on_node 1 (fun n => n <| state_of := STATE_NEGOTIATING |>) demo2).2.


Lemma forwarding_one_way_witness :
  strip (m_nodes (forward_event 3 demo_active demo2).2 !!! 1%nat) = strip (m_nodes demo2 !!! 1%nat).
Proof.
  apply (forwarding_one_way 3 demo_active demo2 1).
  - split_and!.
    + intros n Hn. vm_compute in Hn. by apply not_elem_of_nil in Hn.
    + intros n Hn. apply list_elem_of_In in Hn. vm_compute in Hn. destruct Hn as [<-|[]]. reflexivity.
    + apply (bool_decide_unpack _). vm_compute. exact I.
  - discriminate.
  - vm_compute. discriminate.
Defined.

(** Peer 1 has been silent for 25 seconds, the poller for 5. *)
Definition demo_silent : merlin :=
  Eval vm_compute in (on_node 3 (fun n => n <| data_timeout := 20 |> <| last_recv := 995 |>)
    (on_node 1 (fun n => n <| data_timeout := 20 |> <| last_recv := 975 |>) demo2).2).2.

Lemma silent_nodes_disconnected_witness :
  let s' := (disconnect_inactive_nodes demo_silent).2 in
  state_of (m_nodes s' !!! 1%nat) = STATE_NONE /\ state_of (m_nodes s' !!! 3%nat) = STATE_CONNECTED.
Proof.
  assert (H : forall n, n ∈ m_table demo_silent ->
    state_of (m_nodes (disconnect_inactive_nodes demo_silent).2 !!! n) =
    if silent demo_silent (m_nodes demo_silent !!! n) then STATE_NONE else state_of (m_nodes demo_silent !!! n)).
  { apply (silent_nodes_disconnected demo_silent).
    - apply (bool_decide_unpack _). vm_compute. exact I.
    - apply (bool_decide_unpack _). vm_compute. exact I.
    - vm_compute. reflexivity.
    - repeat constructor; vm_compute; (discriminate || reflexivity). }
  split; [rewrite (H 1%nat)|rewrite (H 3%nat)];
    first [vm_compute; reflexivity|apply (bool_decide_unpack _); vm_compute; exact I].
Defined.

(** The peers are gone for good, ourselves excepted. *)
Definition demo_gone : merlin :=
  Eval vm_compute in (on_node 1 (fun n => n <| state_of := STATE_NONE |> <| auto_delete := 60 |> <| last_action := 100 |>)
    (on_node 2 (fun n => n <| auto_delete := 60 |> <| last_action := 990 |>) demo2).2).2.

Lemma auto_delete_spares_group_witness :
  nodes_to_delete demo_gone = [1%nat] /\
  exists n, n ∈ pg_nodes (m_pgroups demo_gone !!! 0%nat) /\ n ∉ nodes_to_delete demo_gone.
Proof.
  split; [vm_compute; reflexivity|]. apply (auto_delete_spares_group demo_gone 0).
  - vm_compute. discriminate.
  - apply (bool_decide_unpack _). vm_compute. exact I.
  - vm_compute. split; [discriminate|reflexivity].
  - intros n Hn. apply list_elem_of_In in Hn. vm_compute in Hn.
    destruct Hn as [<-|[<-|[<-|[]]]]; vm_compute; (split; [reflexivity|]); first [left; reflexivity|right; discriminate].
  - intros _. exists IPC. split; [apply (bool_decide_unpack _); vm_compute; exact I|by left].
Defined.

(** ** Where the code goes wrong *)

(** CTRL_FETCH from a poller: the module says it will not fetch, and dereferences the
    command it has not chosen. *)
Theorem fetch_from_poller_crashes :
  let pkt := Event (blank_hdr <| h_type := CTRL_PACKET |> <| h_code := CTRL_FETCH |>) [] in
  (handle_control 0 3 pkt demo2).1 = false.
Proof. vm_compute. reflexivity. Qed.

(** A clock that is set back by one second makes a node that has just been heard of look
    silent for 2^32 - 1 seconds. *)
Theorem clock_back_disconnects :
  let s := (on_node 1 (fun n => n <| data_timeout := 20 |> <| last_recv := m_now demo2 + 1 |>) demo2).2 in
  state_of (m_nodes s !!! 1%nat) = STATE_CONNECTED /\
  state_of (m_nodes (disconnect_inactive_nodes s).2 !!! 1%nat) = STATE_NONE.
Proof. vm_compute. auto. Qed.

(** When the daemon goes away, its socket is closed once by [node_disconnect] and, under a
    number that may have been given to a node since, again by [ipc_deinit]. *)
Theorem daemon_loss_closes_a_node :
  let up := (ipc_init (demo2 <| m_daemon := DaemonAccepts 9 |> <| m_ipc_path := Some "/ipc"%string |>)).2 in
  let down := (node_disconnect IPC up).2 in
  (* the descriptor 9 is free, and the next connection of node 1 gets it *)
  let reused := (on_node 1 (fun n => n <| sock := 9 |>) down).2 <| m_open ::= fun o => {[9]} ∪ o |> in
  let s := (ipc_is_connected (reused <| m_daemon := DaemonAccepts 10 |>)).2 in
  9 ∈ m_open up /\ 9 ∉ m_open down /\ 9 ∈ m_open reused /\
  sock (m_nodes s !!! 1%nat) = 9 /\ 9 ∉ m_open s.
Proof.
  cbn zeta. split_and!; try (apply (bool_decide_unpack _); vm_compute; exact I); vm_compute; reflexivity.
Qed.

(** A byte from the daemon is taken for an error, and the daemon disconnected. *)
Theorem daemon_data_disconnects :
  let s := (on_node IPC (fun ipc => ipc <| state_of := STATE_CONNECTED |> <| sock := 9 |>) demo2).2
             <| m_recvs := [RecvData [Byte.x01]] |> in
  state_of (m_nodes (ipc_reaper s).2 !!! IPC) = STATE_NONE.
Proof. vm_compute. reflexivity. Qed.

(** Two names of 600 characters are more than the buffer of 1024 holds. *)
Theorem auto_delete_overruns :
  let long := String.string_of_list_ascii (replicate 600 "a"%char) in
  let s := (on_node IPC (fun n => n <| state_of := STATE_CONNECTED |>)
    (on_node 1 (fun n => n <| name := long |>) (on_node 2 (fun n => n <| name := long |> <| last_action := 100 |>) demo_gone).2).2).2 in
  (auto_delete_nodes s).1 = false.
Proof. vm_compute. reflexivity. Qed.
