(* ===== verification/Net.v ===== *)
(** * Connections between nodes: module/net.c

    Connecting to nodes, accepting their connections, recognising who connects, choosing
    one of two connections, and reading what arrives.  What the kernel answers during a
    handler is the class [Kernel]. *)

From S2P Require Import Prelude Binlog Packet Io Merlin Pgroup Node Control.

(** A socket address as the kernel stores it; addresses and ports are compared as stored. *)
Record sockaddr := SockAddr { s_addr : Z; s_port : Z }.

#[export] Instance sockaddr_eq_dec : EqDecision sockaddr.
Proof. solve_decision. Defined.

(** The answers of the system calls of one handler: names and errors of descriptors, and
    what socket, bind and connect return (an errno on failure). *)
Class Kernel := {
  getsockname : Z -> option sockaddr;
  getpeername : Z -> Z + sockaddr;
  so_error : Z -> Z + Z;
  new_socket : Z;
  bind_errno : option Z;
  connect_errno : option Z }.

(** ntohs(3) on the little-endian machines the project builds for. *)
Definition ntohs (p : Z) : Z := Z.lor (Z.shiftl (Z.land p 0xff) 8) (Z.shiftr p 8).

Definition EBADF : Z := 9.
Definition EADDRINUSE : Z := 98.
Definition ENOTCONN : Z := 107.
Definition EALREADY : Z := 114.
Definition EINPROGRESS : Z := 115.
Definition MERLIN_CONNECT_TIMEOUT : Z := 20.
Definition MERLIN_CONNECT_INTERVAL : Z := 5.

Section Net.
Context {QS : QSort} {SD : Sodium} {NC : NebCallbacks} {KE : Kernel}.

(** ** Who is it? *)

(** module/net.c:30-33 net_source_port *)
Definition net_source_port (s : merlin) (node : merlin_node) : Z := u16 (sin_port node + m_default_port s).

(** module/net.c:132-149 find_node -- the loop. *)
Fixpoint find_node_loop (s : merlin) (ns : list nat) (addr port : Z) (first : option nat) : option nat :=
  match ns with
  | [] => first
  | n :: ns =>
      let node := m_nodes s !!! n in
      if (sin_addr node =? addr) && negb (valid_uuid (uuid node)) then
        if port =? net_source_port s node then Some n
        else find_node_loop s ns addr port
               (if bool_decide (first = None) && negb (has_flag (flags node) MERLIN_NODE_FIXED_SRCPORT)
                then Some n else first)
      else find_node_loop s ns addr port first
  end.

(** module/net.c:124-159 find_node *)
Definition find_node (addr port : Z) (s : merlin) : option nat :=
  find_node_loop s (take (Z.to_nat (num_nodes s)) (m_table s)) addr port None.

(** ** One connection *)

(** errno and result of getpeername and of getsockopt: a call that succeeds leaves errno. *)
Definition peer_status (fd : Z) : bool * Z :=
  match getpeername fd with inl e => (false, e) | inr _ => (true, 0) end.

(** module/net.c:167-231 net_is_connected *)
Definition net_is_connected (n : nat) : M bool :=
  node ← get_node n;
  now ← time_now;
  if sock node <? 0 then mret false else
  if state_of node =?s STATE_CONNECTED then mret true else
  if state_of node =?s STATE_NONE then mret false else
  let '(gpnok, gpnerr) := peer_status (sock node) in
  let '(gsook, gsoerr, optval) :=
    match so_error (sock node) with inl e => (false, e, 0) | inr v => (true, gpnerr, v) end in
  if gpnok && gsook && (optval =? 0) && (gpnerr =? 0) && (gsoerr =? 0) then mret true else
  if negb (optval =? 0) then node_disconnect n ;; mret false else
  (if negb gsook && negb (gsoerr =? ENOTCONN) then node_disconnect n else mret tt) ;;
  if negb gpnok && negb (gpnerr =? ENOTCONN) then mret false else
  node ← get_node n;
  (if last_conn_attempt node + MERLIN_CONNECT_TIMEOUT <? now then node_disconnect n else mret tt) ;;
  mret false.

(** module/net.c:325-331 net_negotiate_socket -- when the two connections are the same. *)
Definition kill_both (n : nat) (lis : Z) : M Z :=
  on_node n (fun node => node <| last_conn_attempt_logged := 0 |>) ;;
  node_disconnect n ;;
  iobroker_close lis ;;
  on_node n (fun node => node <| sock := -1 |>) ;;
  mret (-1).

(** module/net.c:271-332 net_negotiate_socket *)
Definition net_negotiate_socket (n : nat) (con lis : Z) : M Z :=
  if con <? 0 then mret lis else
  if lis <? 0 then mret con else
  match getsockname lis, getpeername con with
  | None, _ => mret con
  | Some _, inl _ => mret lis
  | Some l, inr c =>
      if s_addr c <? s_addr l then mret con
      else if s_addr l <? s_addr c then mret lis
      else if s_port c <? s_port l then mret con
      else if s_port l <? s_port c then mret lis
      else kill_both n lis
  end.

(** module/net.c:341-389 conn_writable *)
Definition conn_writable (sd : Z) (n : nat) : M unit :=
  iobroker_unregister sd ;;
  node ← get_node n;
  if sock node <? 0 then
    on_node n (fun node => node <| sock := sd |> <| conn_sock := -1 |>) ;;
    ok ← net_is_connected n;
    if negb ok then node_disconnect n ;; sys_close sd else
    iobroker_register sd ;; node_set_state n STATE_NEGOTIATING
  else
    sel_sd ← net_negotiate_socket n (conn_sock node) (sock node);
    if sel_sd <? 0 then node_disconnect n else
    node ← get_node n;
    (if sel_sd =? conn_sock node then iobroker_close (sock node)
     else if sel_sd =? sock node then iobroker_close (conn_sock node) else mret tt) ;;
    on_node n (fun node => node <| sock := sel_sd |> <| conn_sock := -1 |>) ;;
    node_set_state n STATE_NEGOTIATING ;;
    node ← get_node n;
    iobroker_register (sock node) ;; mret tt.

(** socket(2). *)
Definition sys_socket : M Z := fun s =>
  if new_socket <? 0 then (-1, s) else (new_socket, s <| m_open ::= fun o => {[new_socket]} ∪ o |>).

(** module/net.c:409-438 net_try_connect -- the reasons not to try. *)
Definition try_blocked (now : Z) (node : merlin_node) : bool :=
  negb (has_flag (flags node) MERLIN_NODE_CONNECT) ||
  match state_of node with
  | STATE_CONNECTED | STATE_PENDING => true
  | STATE_NEGOTIATING => 0 <=? conn_sock node
  | STATE_NONE => false
  end ||
  (now <? last_conn_attempt node + MERLIN_CONNECT_INTERVAL).

(** module/net.c:475-483 net_try_connect -- a fixed source port that cannot be had. *)
Definition bind_fails (node : merlin_node) : bool :=
  has_flag (flags node) MERLIN_NODE_FIXED_SRCPORT &&
  match bind_errno with Some e => (e =? EBADF) || (e =? EADDRINUSE) | None => false end.

(** module/net.c:502-541 net_try_connect -- connecting [fd], which is [node->conn_sock]. *)
Definition start_connect (n : nat) (fd : Z) : M Z :=
  let drop_fd := sys_close fd ;; on_node n (fun node => node <| conn_sock := -1 |>) in
  let register :=
    r ← iobroker_register fd;
    if r <? 0 then node_disconnect n ;; drop_fd ;; mret (-1) else mret 0 in
  match connect_errno with
  | None => register
  | Some e =>
      if (e =? EINPROGRESS) || (e =? EALREADY) then node_set_state n STATE_PENDING ;; register
      else drop_fd ;; node_disconnect n ;; mret (-1)
  end.

(** module/net.c:398-542 net_try_connect *)
Definition net_try_connect (n : nat) : M Z :=
  node ← get_node n;
  now ← time_now;
  (if last_conn_attempt_logged node + 30 <=? now
   then on_node n (fun node => node <| last_conn_attempt_logged := now |>) else mret tt) ;;
  if try_blocked now node then mret 0 else
  on_node n (fun node => node <| last_conn_attempt := now |>) ;;
  (if conn_sock node <? 0 then
     node_disconnect n ;;
     fd ← sys_socket;
     on_node n (fun node => node <| conn_sock := fd |>)
   else mret tt) ;;
  node ← get_node n;
  if conn_sock node <? 0 then mret (-1) else
  if bind_fails node then
    sys_close (conn_sock node) ;; on_node n (fun node => node <| conn_sock := -1 |>) ;; mret (-1)
  else start_connect n (conn_sock node).

(** module/net.c:545-582 node_accept *)
Definition node_accept (sd : Z) (n : nat) : M Z :=
  node ← get_node n;
  (match state_of node with
   | STATE_NEGOTIATING | STATE_CONNECTED | STATE_PENDING =>
       if 0 <=? sock node then
         sel_sd ← net_negotiate_socket n (sock node) sd;
         if negb (sel_sd =? sd) then sys_close sd else mret tt
       else mret tt
   | STATE_NONE => node_disconnect n ;; on_node n (fun node => node <| sock := sd |>)
   end) ;;
  node_set_state n STATE_NEGOTIATING ;;
  node ← get_node n;
  iobroker_register (sock node) ;;
  mret sd.

(** ** Reading

    On what is done with an event, as in [handle_event]. *)

Section Reading.
Context (objver : Z) (runcmd deliver : nat -> merlin_event -> M Z).

(** module/net.c:253-257 net_input -- the loop; each packet takes its size off the queue. *)
Fixpoint input_loop (fuel : nat) (n : nat) (events : Z) : M (option Z) :=
  match fuel with
  | O => mret None
  | S fuel =>
      g ← node_get_event n;
      match g with
      | Got p => handle_event objver runcmd deliver n p ;; input_loop fuel n (events + 1)
      | _ => mret (Some events)
      end
  end.

(** module/net.c:238-262 net_input *)
Definition net_input (n : nat) : M (option Z) :=
  len ← node_recv n;
  if len <? 0 then mret (Some 0) else
  now ← time_now;
  on_node n (fun node => node <| stats ::= fun st => st <| by_read ::= fun b => u64 (b + len) |> |>
    <| last_recv := now |>) ;;
  node ← get_node n;
  input_loop (S (length (bq node))) n 0.

(** module/net.c:19-24 find_uuid_ctx -- an unidentified connection. *)
Record find_uuid_ctx := UuidCtx { ctx_bq : list byte; ctx_sock : Z }.

(** A read into the buffer queue of an unidentified connection. *)
Definition ctx_read (ctx : find_uuid_ctx) : M (list byte) := fun s =>
  match m_recvs s with
  | RecvData l :: rs => (ctx_bq ctx ++ l, s <| m_recvs := rs |>)
  | _ :: rs => (ctx_bq ctx, s <| m_recvs := rs |>)
  | [] => (ctx_bq ctx, s)
  end.

(** module/net.c:80-93 find_node_uuid -- the loop. *)
Definition node_with_uuid (s : merlin) (from : list byte) : option nat :=
  List.find (fun n => let node := m_nodes s !!! n in
    valid_uuid (uuid node) && bool_decide (c_str from = c_str (uuid node)))
    (take (Z.to_nat (num_nodes s)) (m_table s)).

(** module/net.c:38-122 find_node_uuid -- the lock, which only the expiry of the same connection
    takes, is free. *)
Definition find_node_uuid (ctx : find_uuid_ctx) : M Z :=
  let sd := ctx_sock ctx in
  iobroker_unregister sd ;;
  q ← ctx_read ctx;
  if Z.of_nat (length q) <? HDR_SIZE then sys_close sd ;; mret 0 else
  let h := hdr_of_bytes q in
  found ← gets (fun s => node_with_uuid s (h_from_uuid h));
  match found with
  | None => sys_close sd ;; mret 0
  | Some n =>
      on_node n (fun node => node <| bq := q |>) ;;
      pkt ← (if HDR_SIZE +u h_len h <=? Z.of_nat (length q) then node_get_event n else mret NoEvent);
      result ← node_accept sd n;
      (match pkt with Got p => handle_event objver runcmd deliver n p | _ => mret 0 end) ;;
      mret result
  end.

End Reading.

(** module/net.c:587-619 uuid_socket_timeout -- when its time has come. *)
Definition uuid_socket_timeout (ctx : find_uuid_ctx) : M unit :=
  iobroker_unregister (ctx_sock ctx) ;; sys_close (ctx_sock ctx).

(** accept(2): the descriptor and the address it comes from. *)
Definition accepted : Type := option (Z * sockaddr).

(** module/net.c:625-680 net_accept_one -- also returns the context it waits with for the uuid. *)
Definition net_accept_one (a : accepted) : M (Z * option find_uuid_ctx) :=
  match a with
  | None => mret (-1, None)
  | Some (fd, from) =>
      modify (fun s => s <| m_open ::= fun o => {[fd]} ∪ o |>) ;;
      node ← gets (find_node (s_addr from) (ntohs (s_port from)));
      uuids ← gets m_uuid_nodes;
      match node with
      | Some n => r ← node_accept fd n; mret (r, None)
      | None =>
          if 0 <? uuids then r ← iobroker_register fd; mret (r, Some (UuidCtx [] fd))
          else sys_close fd ;; mret (0, None)
      end
  end.

(** module/net.c:685-698 net_deinit *)
Definition net_deinit : M Z :=
  k ← gets num_nodes;
  table ← gets m_table;
  for_each (take (Z.to_nat k) table) node_disconnect ;;
  fd ← gets m_net_sock;
  iobroker_close fd ;; sys_close fd ;;
  modify (fun s => s <| m_net_sock := -1 |>) ;; mret 0.

(** module/net.c:703-741 net_init -- [listens] is the result of listen. *)
Definition net_init (listens : bool) : M Z :=
  k ← gets num_nodes;
  if k =? 0 then mret 0 else
  fd ← sys_socket;
  modify (fun s => s <| m_net_sock := fd |>) ;;
  if fd <? 0 then mret (-1) else
  match bind_errno with
  | Some _ => mret (-1)
  | None => if negb listens then mret (-1) else r ← iobroker_register fd; mret (if r <? 0 then -1 else 0)
  end.

(** module/module.c:1260-1288 connect_to_all -- [resolved] is what the resolver knows of a name. *)
Definition connect_to_all (resolved : string -> Z) : M unit :=
  up ← ipc_is_connected;
  (if up : bool then mret 0 else ipc_init) ;;
  k ← gets num_nodes;
  table ← gets m_table;
  for_each (take (Z.to_nat k) table) (fun n =>
    node ← get_node n;
    if (state_of node =?s STATE_CONNECTED) || (state_of node =?s STATE_PENDING) then mret tt else
    (if sin_addr node =? 0 then on_node n (fun node => node <| sin_addr := resolved (name node) |>) else mret tt) ;;
    net_try_connect n ;; mret tt).

(** ** Recognising a node by its address *)

(** A node that may be recognised by its address, exactly or by the address alone. *)
Definition by_address (s : merlin) (addr : Z) (n : nat) : Prop :=
  sin_addr (m_nodes s !!! n) = addr /\ valid_uuid (uuid (m_nodes s !!! n)) = false.
Definition exact_port (s : merlin) (port : Z) (n : nat) : Prop := net_source_port s (m_nodes s !!! n) = port.
Definition any_port (s : merlin) (n : nat) : Prop :=
  has_flag (flags (m_nodes s !!! n)) MERLIN_NODE_FIXED_SRCPORT = false.

Lemma find_node_loop_spec s addr port ns : forall first,
  match find_node_loop s ns addr port first with
  | Some n =>
      (n ∈ ns /\ by_address s addr n /\ exact_port s port n) \/
      (Forall (fun m => by_address s addr m -> ~ exact_port s port m) ns /\
       (first = Some n \/ (first = None /\ n ∈ ns /\ by_address s addr n /\ any_port s n)))
  | None => first = None /\ Forall (fun m => by_address s addr m -> ~ exact_port s port m /\ ~ any_port s m) ns
  end.
Proof.
  induction ns as [|n ns IH]; intros first; cbn [find_node_loop].
  { destruct first; [right; split; [constructor|by left]|by split]. }
  set (node := m_nodes s !!! n).
  destruct ((sin_addr node =? addr) && negb (valid_uuid (uuid node))) eqn:E.
  - apply andb_true_iff in E as [E1%Z.eqb_eq E2%negb_true_iff].
    assert (Hb : by_address s addr n) by done.
    destruct (port =? net_source_port s node) eqn:E3.
    { apply Z.eqb_eq in E3. left. split_and!; [left|done|done]. }
    apply Z.eqb_neq in E3. assert (Hx : ~ exact_port s port n) by (unfold exact_port; fold node; congruence).
    set (first' := if bool_decide (first = None) && _ then Some n else first). specialize (IH first').
    assert (Hf : first = None /\ first' = Some n /\ any_port s n \/
                 first' = first /\ (first = None -> ~ any_port s n)).
    { unfold first', any_port. fold node. destruct first as [x|]; [by right|].
      rewrite bool_decide_eq_true_2 by done. destruct (has_flag _ _); [right|left]; cbn; auto. }
    destruct (find_node_loop s ns addr port first') as [k|].
    + destruct IH as [(Hk & ?)|(Hall & IH)]; [left; split; [by right|done]|right].
      split; [constructor; [by intros _|done]|].
      destruct Hf as [(-> & Hf & Ha)|(Hf & Ha)]; rewrite Hf in IH.
      * right. destruct IH as [IH|[? _]]; [|done]. injection IH as ->. split_and!; [done|left|done|done].
      * destruct IH as [IH|(? & ? & ? & ?)]; [left; congruence|right]. split_and!; [congruence|by right|done|done].
    + destruct IH as [H1 H2]. destruct Hf as [(_ & Hf & _)|(Hf & Ha)]; [congruence|].
      split; [congruence|]. constructor; [intros _; split; [done|apply Ha; congruence]|done].
  - assert (Hb : ~ by_address s addr n).
    { intros [H1 H2]. fold node in H1, H2. rewrite H1, Z.eqb_refl, H2 in E. done. }
    specialize (IH first). destruct (find_node_loop s ns addr port first) as [k|].
    + destruct IH as [(Hk & ?)|(Hall & IH)]; [left; split; [by right|done]|right].
      split; [by constructor|]. destruct IH as [?|(? & ? & ? & ?)]; [by left|right]. split_and!; [done|by right|done..].
    + destruct IH as [-> Hall]. split; [done|by constructor].
Qed.

(** An inbound connection is attributed by address and port: to a node with that address
    and the source port its port prescribes if there is one, otherwise to a node with that
    address that does not insist on its source port, never to one that is
    identified by a uuid, and to nobody only when no node qualifies. *)
Theorem find_node_best_match s addr port :
  let table := take (Z.to_nat (num_nodes s)) (m_table s) in
  match find_node addr port s with
  | Some n => n ∈ table /\ by_address s addr n /\
      (exact_port s port n \/
       (any_port s n /\ Forall (fun m => by_address s addr m -> ~ exact_port s port m) table))
  | None => Forall (fun m => by_address s addr m -> ~ exact_port s port m /\ ~ any_port s m) table
  end.
Proof.
  cbn zeta. unfold find_node. pose proof (find_node_loop_spec s addr port (take (Z.to_nat (num_nodes s)) (m_table s)) None) as H.
  destruct (find_node_loop _ _ _ _ _) as [n|]; [|apply H].
  destruct H as [(?&?&?)|(Hall & [?|(_ & ? & ? & ?)])]; [by auto|done|by auto].
Qed.

Lemma kill_both_state n lis s :
  (kill_both n lis s).1 = -1 /\ state_of (m_nodes (kill_both n lis s).2 !!! n) = STATE_NONE.
Proof.
  unfold kill_both, mbind, ST_bind, mret, ST_ret. destruct (on_node n _ s) as [u s1].
  pose proof (disconnect_state n s1) as H. destruct (node_disconnect n s1) as [u2 s2].
  pose proof (in_close n (fun x => x = STATE_NONE) lis s2 H) as H2. destruct (iobroker_close lis s2) as [u3 s3].
  destruct (on_node n _ s3) as [u4 s4] eqn:E. split; [done|]. cbn [snd].
  change s4 with (u4, s4).2. rewrite <- E, node_on_node, decide_True by done. exact H2.
Qed.

(** ** Accepting a connection *)

(** The node [n] holds the descriptor [sd], or has been disconnected and [sd] closed. *)
Definition held (n : nat) (sd : Z) (st : state) (s : merlin) : Prop :=
  (state_of (m_nodes s !!! n) = st /\ sock (m_nodes s !!! n) = sd /\ sd ∈ m_open s) \/
  (state_of (m_nodes s !!! n) = STATE_NONE /\ sock (m_nodes s !!! n) = -1 /\ sd ∉ m_open s /\ sd ∉ m_iob s).

Section Held.
Context (n : nat) (sd : Z) (st : state).
Context (Hn : n <> IPC) (Hsd : 0 <= sd) (Hst : st <> STATE_CONNECTED).

Lemma held_node m f :
  (forall node, state_of (f node) = state_of node /\ sock (f node) = sock node) -> preserves (held n sd st) (on_node m f).
Proof.
  intros Hf s Hs. unfold held. rewrite !node_on_node. case_decide; subst; [|exact Hs].
  destruct (Hf (m_nodes s !!! m)) as [-> ->]. exact Hs.
Qed.

Lemma held_modify f :
  (forall s, m_nodes (f s) = m_nodes s /\ m_open (f s) = m_open s /\ m_iob (f s) = m_iob s) ->
  preserves (held n sd st) (modify f).
Proof. intros Hf. apply preserves_modify. intros s. unfold held. by destruct (Hf s) as (-> & -> & ->). Qed.

Lemma held_lift_io {A} (c : ST io A) : preserves (held n sd st) (lift_io c).
Proof. intros s. unfold held, lift_io. by destruct (c (m_io s)). Qed.

Lemma held_random : preserves (held n sd st) random_nonce.
Proof. intros s. unfold random_nonce. by destruct (m_random s). Qed.

(** A node that is not connected goes to [STATE_NONE] without further ado. *)
Lemma set_none_idle s :
  state_of (m_nodes s !!! n) <> STATE_CONNECTED ->
  exists s', set_state_none n s = (tt, s') /\
    m_nodes s' !!! n = (m_nodes s !!! n) <| state_of := STATE_NONE |> /\
    m_open s' = m_open s /\ m_iob s' = m_iob s /\ m_now s' = m_now s.
Proof.
  intros Hs. unfold set_state_none. rewrite set_state_eq. destruct (_ =?s STATE_NONE) eqn:E.
  - exists s. apply bool_decide_eq_true in E. split_and!; [done| |done..].
    destruct (m_nodes s !!! n); cbn in E |- *. by rewrite E.
  - rewrite (bool_decide_eq_true_2 (STATE_NONE = STATE_NONE)) by done. cbn [negb andb].
    unfold set_state_rest, get_node, gets, mbind, ST_bind, mret, ST_ret.
    rewrite (bool_decide_eq_false_2 (STATE_NONE = STATE_NEGOTIATING)) by done. cbn [andb].
    rewrite count_step_state. rewrite (bool_decide_eq_false_2 (STATE_NONE = STATE_CONNECTED)) by done.
    rewrite (bool_decide_eq_false_2 _ Hs). cbn [negb andb]. change (stamp_connect n STATE_NONE s) with s.
    exists (count_step n STATE_NONE s). split_and!; [done| |done..].
    unfold count_step. rewrite node_on_node, decide_True, node_on_node, decide_False by done. reflexivity.
Qed.

(** After a disconnection nothing of the descriptor is left. *)
Lemma disconnect_gone s :
  state_of (m_nodes s !!! n) <> STATE_CONNECTED ->
  let s' := (node_disconnect n s).2 in
  m_nodes s' !!! n = (m_nodes s !!! n) <| sock := -1 |> <| state_of := STATE_NONE |> <| last_recv := 0 |>
    <| info := zero_info |> <| bq := [] |> /\
  m_open s' = m_open s ∖ {[sock (m_nodes s !!! n)]} /\ m_iob s' = m_iob s ∖ {[sock (m_nodes s !!! n)]} /\
  m_now s' = m_now s.
Proof.
  intros Hs. cbn zeta. unfold node_disconnect, get_node, gets, mbind, ST_bind, mret, ST_ret.
  rewrite (bool_decide_eq_false_2 _ Hs), (bool_decide_eq_false_2 (n = IPC)) by done.
  set (fd := sock (m_nodes s !!! n)). destruct (iobroker_close fd s) as [u1 s1] eqn:E1.
  assert (H1 : m_nodes s1 = m_nodes s /\ m_iob s1 = m_iob s ∖ {[fd]} /\ m_open s1 = m_open s ∖ {[fd]} /\ m_now s1 = m_now s).
  { change s1 with (u1, s1).2. rewrite <- E1. done. }
  clear E1. destruct H1 as (Hn1 & Hi1 & Ho1 & Ht1).
  destruct (on_node n (fun node => node <| sock := -1 |>) s1) as [u2 s2] eqn:E2.
  assert (H2 : m_nodes s2 !!! n = (m_nodes s !!! n) <| sock := -1 |> /\ m_iob s2 = m_iob s1 /\ m_open s2 = m_open s1 /\ m_now s2 = m_now s1).
  { change s2 with (u2, s2).2. rewrite <- E2. split; [|done]. rewrite node_on_node, decide_True, Hn1 by done. done. }
  clear E2. destruct H2 as (Hn2 & Hi2 & Ho2 & Ht2).
  destruct (set_none_idle s2) as (s3 & -> & Hn3 & Ho3 & Hi3 & Ht3); [rewrite Hn2; exact Hs|]. cbn beta iota.
  rewrite node_on_node, decide_True, Hn3, Hn2 by done.
  split_and!; [reflexivity|exact (eq_trans Ho3 (eq_trans Ho2 Ho1))|exact (eq_trans Hi3 (eq_trans Hi2 Hi1))|
    exact (eq_trans Ht3 (eq_trans Ht2 Ht1))].
Qed.

Lemma held_disconnect : preserves (held n sd st) (node_disconnect n).
Proof.
  intros s Hs.
  assert (Hc : state_of (m_nodes s !!! n) <> STATE_CONNECTED) by (destruct Hs as [[-> _]|[-> _]]; done).
  destruct (disconnect_gone s Hc) as (H1 & H3 & H4 & _). right. rewrite H1, H3, H4. cbn [state_of sock upd eta_rec].
  destruct Hs as [(_ & -> & _)|(_ & -> & Ho & Hi)]; split_and!; try done; set_solver.
Qed.

#[local] Hint Resolve held_lift_io held_random held_disconnect : pres.
#[local] Hint Extern 5 (preserves (held _ _ _) (on_node _ _)) => apply held_node; by intros : pres.
#[local] Hint Extern 5 (preserves (held _ _ _) (modify _)) => apply held_modify; by intros : pres.

Lemma held_send_active : preserves (held n sd st) (node_send_ctrl_active n).
Proof. unfold node_send_ctrl_active, node_ctrl, node_send, node_encrypt. preserve. Qed.
End Held.

(** A connection from a node that was not connected is taken over completely: either the
    node negotiates on the new descriptor, which is open and watched for input, or the
    introduction could not be sent and the node is disconnected and the descriptor closed
    and no longer watched.  No descriptor is lost. *)
Theorem accept_takes_socket n sd s :
  n <> IPC -> 0 <= sd -> state_of (m_nodes s !!! n) = STATE_NONE ->
  sd ∈ m_open s -> sd <> sock (m_nodes s !!! n) ->
  let '(r, s') := node_accept sd n s in
  r = sd /\ held n sd STATE_NEGOTIATING s' /\
  (state_of (m_nodes s' !!! n) = STATE_NEGOTIATING -> sd ∈ m_iob s').
Proof.
  intros Hn Hsd Hst Ho Hne. unfold node_accept, get_node, gets, mbind, ST_bind, mret, ST_ret. rewrite Hst.
  destruct (disconnect_gone n Hn s) as (Hn1 & Ho1 & _ & _); [by rewrite Hst|].
  destruct (node_disconnect n s) as [u1 s1]. cbn [snd] in Hn1, Ho1.
  destruct (on_node n (fun node => node <| sock := sd |>) s1) as [u2 s2] eqn:E2.
  assert (H2 : state_of (m_nodes s2 !!! n) = STATE_NONE /\ sock (m_nodes s2 !!! n) = sd /\ sd ∈ m_open s2).
  { change s2 with (u2, s2).2. rewrite <- E2, node_on_node, decide_True, Hn1 by done. split_and!; [done..|].
    change (m_open _) with (m_open s1). rewrite Ho1. set_solver. }
  clear E2. destruct H2 as (Hs2 & Hk2 & Ho2).
  assert (H3 : held n sd STATE_NEGOTIATING (node_set_state n STATE_NEGOTIATING s2).2).
  { unfold node_set_state. rewrite set_state_eq, Hs2. rewrite (bool_decide_eq_false_2 (n = IPC)) by done.
    change (STATE_NONE =?s STATE_NEGOTIATING) with false. change (STATE_NEGOTIATING =?s STATE_NONE) with false.
    change (transition_error STATE_NONE STATE_NEGOTIATING) with false. cbn [negb andb].
    change (stamp_connect n STATE_NEGOTIATING s2) with s2.
    assert (H : held n sd STATE_NEGOTIATING (count_step n STATE_NEGOTIATING s2)).
    { left. rewrite count_step_state. split; [done|]. unfold count_step. rewrite node_on_node, decide_True by done.
      rewrite node_on_node, decide_False by done. by split. }
    revert H. generalize (count_step n STATE_NEGOTIATING s2). intros s3 H. unfold set_state_rest, get_node, gets, mbind, ST_bind, mret, ST_ret.
    rewrite (bool_decide_eq_false_2 (n = IPC)) by done. change (STATE_NEGOTIATING =?s STATE_NEGOTIATING) with true. cbn [negb andb].
    apply (held_send_active n sd STATE_NEGOTIATING Hn Hsd ltac:(done)) in H.
    destruct (node_send_ctrl_active n s3) as [u4 s4]. cbn [snd] in H.
    assert (state_of (m_nodes s4 !!! n) <> STATE_CONNECTED) as Hc by (destruct H as [[-> _]|[-> _]]; done).
    rewrite (bool_decide_eq_false_2 _ Hc). exact H. }
  destruct (node_set_state n STATE_NEGOTIATING s2) as [u3 s3]. cbn [snd] in H3.
  unfold iobroker_register. destruct H3 as [(H4 & H5 & H6)|(H4 & H5 & H6 & H7)]; rewrite H5.
  - rewrite (proj2 (Z.ltb_ge sd 0) Hsd). split; [done|]. split; [left; by split_and!|]. intros _. cbn. set_solver.
  - change (-1 <? 0) with true. cbn beta iota. split; [done|]. split; [right; by split_and!|]. rewrite H4. done.
Qed.

(** ** Connecting *)

(** A node at rest, with a connection attempt at [fd] noted at the time [t]. *)
Definition resting (n : nat) (fd t : Z) (s : merlin) : Prop :=
  let node := m_nodes s !!! n in
  state_of node = STATE_NONE /\ sock node = -1 /\ conn_sock node = fd /\ last_conn_attempt node = t.

Lemma resting_node n m f fd t s :
  (forall node, state_of (f node) = state_of node /\ sock (f node) = sock node /\
     conn_sock (f node) = conn_sock node /\ last_conn_attempt (f node) = last_conn_attempt node) ->
  resting n fd t s -> resting n fd t (on_node m f s).2.
Proof.
  intros Hf. unfold resting. rewrite node_on_node. case_decide; subst; [|done].
  by destruct (Hf (m_nodes s !!! m)) as (-> & -> & -> & ->).
Qed.

(** Leaving an attempt: the descriptor is closed and forgotten. *)
Lemma drop_attempt n fd t s :
  resting n fd t s ->
  let s' := (on_node n (fun node => node <| conn_sock := -1 |>) (sys_close fd s).2).2 in
  resting n (-1) t s' /\ m_open s' = m_open s ∖ {[fd]}.
Proof.
  intros (H1 & H2 & H3 & H4). cbn zeta. split; [|done]. unfold resting. rewrite node_on_node, decide_True by done. done.
Qed.

Lemma resting_disconnect n fd t s :
  n <> IPC -> resting n fd t s ->
  resting n fd t (node_disconnect n s).2 /\ m_open (node_disconnect n s).2 = m_open s ∖ {[-1]}.
Proof.
  intros Hn (H1 & H2 & H3 & H4). destruct (disconnect_gone n Hn s) as (Hx & Ho & _ & _); [by rewrite H1|].
  rewrite Ho, H2. split; [|done]. unfold resting. by rewrite Hx.
Qed.

(** A node at rest becomes pending. *)
Lemma set_pending n fd t s :
  n <> IPC -> resting n fd t s ->
  exists s', node_set_state n STATE_PENDING s = (tt, s') /\
    m_nodes s' !!! n = (m_nodes s !!! n) <| state_of := STATE_PENDING |> /\ m_open s' = m_open s.
Proof.
  intros Hn (Hs & _). exists (count_step n STATE_PENDING s). split_and!; [| |done].
  - unfold node_set_state. rewrite set_state_eq, Hs. rewrite (bool_decide_eq_false_2 (n = IPC)) by done.
    change (STATE_NONE =?s STATE_PENDING) with false. change (STATE_PENDING =?s STATE_NONE) with false.
    change (transition_error STATE_NONE STATE_PENDING) with false. cbn [negb andb].
    change (stamp_connect n STATE_PENDING s) with s.
    unfold set_state_rest, get_node, gets, mbind, ST_bind, mret, ST_ret.
    change (STATE_PENDING =?s STATE_NEGOTIATING) with false. cbn [andb]. cbn beta iota.
    rewrite count_step_state. reflexivity.
  - unfold count_step. rewrite node_on_node, decide_True, node_on_node, decide_False by done. reflexivity.
Qed.

(** What an attempt may lead to: the descriptor [fd] is being connected and watched, or it
    is closed and the node as before. *)
Definition attempted (n : nat) (fd t : Z) (open : gset Z) (r : Z) (s : merlin) : Prop :=
  let node := m_nodes s !!! n in
  sock node = -1 /\ last_conn_attempt node = t /\
  ((r = 0 /\ conn_sock node = fd /\ fd ∈ m_iob s /\ fd ∈ m_open s /\
    state_of node = if bool_decide (connect_errno = None) then STATE_NONE else STATE_PENDING) \/
   (r = -1 /\ conn_sock node = -1 /\ state_of node = STATE_NONE /\ m_open s ⊆ open)).

Lemma start_connect_outcome n fd t s :
  n <> IPC -> 0 <= fd -> fd ∈ m_open s -> resting n fd t s ->
  attempted n fd t (m_open s ∖ {[fd]}) (start_connect n fd s).1 (start_connect n fd s).2.
Proof.
  intros Hn Hfd Ho Hr. unfold start_connect, attempted.
  destruct connect_errno as [e|] eqn:Ee; cbn [option_eq].
  - rewrite (bool_decide_eq_false_2 (Some e = None)) by done. destruct (_ || _).
    + destruct (set_pending n fd t s Hn Hr) as (s1 & E1 & Hn1 & Ho1).
      unfold mbind, ST_bind, mret, ST_ret, iobroker_register. rewrite E1. cbn beta iota.
      rewrite (proj2 (Z.ltb_ge fd 0) Hfd). cbn [fst snd]. change (0 <? 0) with false. cbn [fst snd].
      destruct Hr as (H1 & H2 & H3 & H4). cbn [m_nodes m_iob m_open upd eta_rec]. rewrite Hn1, Ho1. cbn [sock last_conn_attempt conn_sock state_of upd eta_rec].
      split_and!; [done|done|]. left. split_and!; [done|done|set_solver|done|done].
    + unfold mbind, ST_bind, mret, ST_ret. destruct (drop_attempt n fd t s Hr) as [Hr2 Ho2].
      destruct (sys_close fd s) as [u1 s1]. cbn [snd] in Hr2, Ho2. destruct (on_node n _ s1) as [u2 s2]. cbn [snd] in Hr2, Ho2.
      destruct (resting_disconnect n (-1) t s2 Hn Hr2) as [(H1 & H2 & H3 & H4) Ho3].
      destruct (node_disconnect n s2) as [u3 s3]. cbn [fst snd] in *. rewrite Ho3, Ho2.
      split_and!; [done|done|]. right. split_and!; [done..|set_solver].
  - rewrite (bool_decide_eq_true_2 (@None Z = None)) by done.
    unfold mbind, ST_bind, mret, ST_ret, iobroker_register.
    rewrite (proj2 (Z.ltb_ge fd 0) Hfd). change (0 <? 0) with false. cbn [fst snd].
    destruct Hr as (H1 & H2 & H3 & H4). split_and!; [done|done|]. left. split_and!; [done|done|cbn; set_solver|done|done].
Qed.

(** A new socket for a node that has none to connect with. *)
Lemma fresh_attempt n t s :
  n <> IPC -> state_of (m_nodes s !!! n) <> STATE_CONNECTED -> last_conn_attempt (m_nodes s !!! n) = t ->
  let s' := (node_disconnect n ;; fd ← sys_socket; on_node n (fun node => node <| conn_sock := fd |>)) s in
  let fd := if new_socket <? 0 then -1 else new_socket in
  resting n fd t s'.2 /\ m_open s'.2 = (if new_socket <? 0 then ∅ else {[fd]}) ∪ m_open s ∖ {[sock (m_nodes s !!! n)]}.
Proof.
  intros Hn Hs Ht. cbn zeta. unfold mbind, ST_bind. destruct (disconnect_gone n Hn s Hs) as (Hx & Ho & _ & _).
  destruct (node_disconnect n s) as [u1 s1]. cbn [snd] in Hx, Ho. unfold sys_socket, resting.
  destruct (new_socket <? 0); rewrite node_on_node, decide_True by done; cbn [m_nodes m_open upd eta_rec on_node modify snd];
    rewrite Hx, Ho; split; try done; set_solver.
Qed.

(** Connection attempts are bounded and leave nothing behind.  A node that must not be
    connected to, is connected or being connected, or was tried less than 5 seconds ago is left
    alone (apart from the time of the log line).  Otherwise the attempt is stamped, the old connection given up, and either one new descriptor is being connected,
    recorded in the node and watched, or the attempt failed and no descriptor was gained. *)
Theorem try_connect_outcome n s :
  n <> IPC -> new_socket ∉ m_open s ->
  let node := m_nodes s !!! n in
  let '(r, s') := net_try_connect n s in
  if try_blocked (m_now s) node then
    r = 0 /\ m_open s' = m_open s /\ m_iob s' = m_iob s /\
    (m_nodes s' !!! n) <| last_conn_attempt_logged := 0 |> = node <| last_conn_attempt_logged := 0 |>
  else conn_sock node < 0 -> attempted n new_socket (m_now s) (m_open s) r s'.
Proof.
  intros Hn Hnew. cbn zeta. set (node := m_nodes s !!! n).
  unfold net_try_connect, get_node, time_now, gets. unfold mbind at 1 2 3, ST_bind at 1 2 3. fold node.
  set (log := if _ <=? m_now s then _ else _).
  assert (Hlog : exists s0, log s = (tt, s0) /\ m_open s0 = m_open s /\ m_iob s0 = m_iob s /\ exists z, m_nodes s0 !!! n = node <| last_conn_attempt_logged := z |>).
  { unfold log. destruct (_ <=? _).
    - exists (on_node n (fun node => node <| last_conn_attempt_logged := m_now s |>) s).2. split_and!; [done..|].
      exists (m_now s). rewrite node_on_node, decide_True by done. done.
    - exists s. split_and!; [done..|]. exists (last_conn_attempt_logged node). unfold node. by destruct (m_nodes s !!! n). }
  destruct Hlog as (s0 & -> & Ho0 & Hi0 & z & Hn0). clear log.
  destruct (try_blocked (m_now s) node) eqn:Eb.
  { split_and!; [done..|]. by rewrite Hn0. }
  assert (Hst : state_of node <> STATE_CONNECTED).
  { intros E. unfold try_blocked in Eb. rewrite E in Eb. rewrite orb_true_r in Eb. done. }
  unfold mbind at 1, ST_bind at 1.
  destruct (on_node n (fun node => node <| last_conn_attempt := m_now s |>) s0) as [u1 s1] eqn:E1.
  assert (H1 : m_nodes s1 !!! n = node <| last_conn_attempt_logged := z |> <| last_conn_attempt := m_now s |> /\ m_open s1 = m_open s0).
  { change s1 with (u1, s1).2. rewrite <- E1. split; [|done]. rewrite node_on_node, decide_True, Hn0 by done. done. }
  clear E1. destruct H1 as [Hn1 Ho1].
  destruct (conn_sock node <? 0) eqn:Ec.
  2: { apply Z.ltb_ge in Ec. match goal with |- let '(_, _) := ?e in _ => destruct e as [r s2] end. intros H. lia. }
  destruct (fresh_attempt n (m_now s) s1 Hn) as [Hr Ho]; [rewrite Hn1; exact Hst|by rewrite Hn1|].
  unfold mbind at 1, ST_bind at 1.
  destruct ((node_disconnect n ;; _) s1) as [u2 s2]. cbn [snd] in Hr, Ho. rewrite Ho1, Ho0 in Ho.
  unfold mbind at 1, ST_bind at 1. set (nd := m_nodes s2 !!! n). pose proof Hr as (Hr1 & Hr2 & Hr3 & Hr4). fold nd in Hr1, Hr2, Hr3, Hr4.
  destruct (new_socket <? 0) eqn:En.
  { rewrite Hr3. change (-1 <? 0) with true. cbn. intros _. split_and!; [done..|]. right. split_and!; [done..|set_solver]. }
  rewrite Hr3, En. apply Z.ltb_ge in En. destruct (bind_fails nd).
  - destruct (drop_attempt n new_socket (m_now s) s2 Hr) as [(K1 & K2 & K3 & K4) K5].
    unfold mbind, ST_bind, mret, ST_ret. destruct (sys_close new_socket s2) as [u3 s3]. cbn [snd] in *.
    destruct (on_node n _ s3) as [u4 s4]. cbn [snd] in *. intros _. split_and!; [done..|].
    right. split_and!; [done..|]. rewrite K5, Ho. set_solver.
  - pose proof (start_connect_outcome n new_socket (m_now s) s2 Hn En) as H. rewrite Ho in H.
    specialize (H ltac:(set_solver) Hr). destruct (start_connect n new_socket s2) as [r s3]. cbn [fst snd] in H. intros _.
    destruct H as (K1 & K2 & K3). split_and!; [done..|]. destruct K3 as [K3|(K3 & K4 & K5 & K6)]; [by left|right].
    split_and!; [done..|set_solver].
Qed.

End Net.

(** ** Choosing one of two connections *)

(** The descriptor [fd] of a process is one end of a connection. *)
Definition is_end (k : Kernel) (fd : Z) (local remote : sockaddr) : Prop :=
  0 <= fd /\ @getsockname k fd = Some local /\ @getpeername k fd = inr remote.

Section Negotiation.
Context {QS : QSort} {SD : Sodium}.

(** C7.  Two nodes that connect to each other at the same time keep the same connection.  Let
    A listen on [la] and B on [lb], and let each have two connections with the other: the
    one it made ([con]) and the one it accepted ([lis]).  Then both keep the connection A
    made, or both the one B made, namely the one to the lower listening address and
    port; when the two addresses are equal both give up. *)
Theorem negotiation_agrees (kA kB : Kernel) nA nB sA sB conA lisA conB lisB ca cb la lb :
  is_end kA conA ca lb -> is_end kA lisA la cb -> is_end kB conB cb la -> is_end kB lisB lb ca ->
  let '(rA, sA') := net_negotiate_socket (KE := kA) nA conA lisA sA in
  let '(rB, sB') := net_negotiate_socket (KE := kB) nB conB lisB sB in
  if bool_decide (la = lb) then
    rA = -1 /\ rB = -1 /\ state_of (m_nodes sA' !!! nA) = STATE_NONE /\ state_of (m_nodes sB' !!! nB) = STATE_NONE
  else
    sA' = sA /\ sB' = sB /\
    if (s_addr lb <? s_addr la) || ((s_addr lb =? s_addr la) && (s_port lb <? s_port la))
    then rA = conA /\ rB = lisB else rA = lisA /\ rB = conB.
Proof.
  intros (H1 & _ & HA1) (H2 & HA2 & _) (H3 & _ & HB1) (H4 & HB2 & _).
  unfold net_negotiate_socket. rewrite HA1, HA2, HB1, HB2.
  rewrite (proj2 (Z.ltb_ge conA 0) H1), (proj2 (Z.ltb_ge lisA 0) H2),
    (proj2 (Z.ltb_ge conB 0) H3), (proj2 (Z.ltb_ge lisB 0) H4). cbn iota.
  destruct la as [aA pA], lb as [aB pB]. cbn [s_addr s_port].
  destruct (bool_decide (SockAddr aA pA = SockAddr aB pB)) eqn:E.
  - apply bool_decide_eq_true in E as [= <- <-]. rewrite !Z.ltb_irrefl.
    pose proof (kill_both_state nA lisA sA) as HA. pose proof (kill_both_state nB lisB sB) as HB.
    destruct (kill_both nA lisA sA) as [rA sA'], (kill_both nB lisB sB) as [rB sB'].
    destruct HA as [HA HA2'], HB as [HB HB2']. cbn beta iota. split_and!; assumption.
  - apply bool_decide_eq_false in E.
    destruct (aB <? aA) eqn:E1, (aA <? aB) eqn:E2, (aB =? aA) eqn:E3; cbn [orb andb]; try lia; try done.
    destruct (pB <? pA) eqn:E4, (pA <? pB) eqn:E5; try lia; try done.
    exfalso. apply E. f_equal; lia.
Qed.
End Negotiation.

(** ** A small installation *)

#[local] Existing Instances QSort_insertion plain_sodium naemon_callbacks.

Definition demo_kernel (names : gmap Z (sockaddr * sockaddr)) (sk : Z) (con : option Z) : Kernel :=
  {| getsockname fd := fst <$> names !! fd;
     getpeername fd := match names !! fd with Some (_, r) => inr r | None => inl ENOTCONN end;
     so_error fd := inr 0; new_socket := sk; bind_errno := None; connect_errno := con |}.

(** Two hosts, 10.0.0.1 and 10.0.0.2, both listening on port 15551. *)
Definition demo_kA : Kernel :=
  demo_kernel (list_to_map [(3, (SockAddr 1 40000, SockAddr 2 15551)); (4, (SockAddr 1 15551, SockAddr 2 50000))]) 8 (Some EINPROGRESS).
Definition demo_kB : Kernel :=
  demo_kernel (list_to_map [(5, (SockAddr 2 50000, SockAddr 1 15551)); (6, (SockAddr 2 15551, SockAddr 1 40000))]) 8 (Some EINPROGRESS).

Lemma negotiation_agrees_witness :
  (net_negotiate_socket (KE := demo_kA) 1 3 4 demo2).1 = 4 /\ (net_negotiate_socket (KE := demo_kB) 1 5 6 demo2).1 = 5.
Proof.
  assert (H := negotiation_agrees demo_kA demo_kB 1 1 demo2 demo2 3 4 5 6
    (SockAddr 1 40000) (SockAddr 2 50000) (SockAddr 1 15551) (SockAddr 2 15551)
    ltac:(split_and!; [lia|reflexivity..]) ltac:(split_and!; [lia|reflexivity..])
    ltac:(split_and!; [lia|reflexivity..]) ltac:(split_and!; [lia|reflexivity..])).
  destruct (net_negotiate_socket (KE := demo_kA) 1 3 4 demo2) as [rA sA].
  destruct (net_negotiate_socket (KE := demo_kB) 1 5 6 demo2) as [rB sB].
  change (bool_decide (SockAddr 1 15551 = SockAddr 2 15551)) with false in H. cbn [s_addr s_port] in H.
  exact (proj2 (proj2 H)).
Defined.

(** A new connection has the descriptor 8. *)
Definition demo_inbound : merlin := Eval vm_compute in demo2 <| m_open := {[8]} |>.

Lemma accept_takes_socket_witness :
  let '(r, s') := node_accept (KE := demo_kA) 8 2 demo_inbound in
  r = 8 /\ held 2 8 STATE_NEGOTIATING s' /\ (state_of (m_nodes s' !!! 2%nat) = STATE_NEGOTIATING -> 8 ∈ m_iob s').
Proof.
  apply (accept_takes_socket (KE := demo_kA) 2 8 demo_inbound); try discriminate; try lia; vm_compute; reflexivity.
Defined.

Lemma try_connect_outcome_witness :
  let '(r, s') := net_try_connect (KE := demo_kA) 2 demo2 in attempted (KE := demo_kA) 2 8 1000 (m_open demo2) r s'.
Proof.
  assert (H := try_connect_outcome (KE := demo_kA) 2 demo2 ltac:(discriminate)
    ltac:(apply (bool_decide_unpack _); vm_compute; exact I)). cbn zeta in H.
  destruct (net_try_connect (KE := demo_kA) 2 demo2) as [r s'].
  change (try_blocked (m_now demo2) (m_nodes demo2 !!! 2%nat)) with false in H. apply H. vm_compute. reflexivity.
Defined.

(** ** Where the code goes wrong *)

(** The node we are connecting to connects to us: the connection it made is neither used
    nor closed, and the node is negotiating without a descriptor. *)
Theorem accept_while_pending_leaks :
  let s := (on_node 2 (fun n => n <| state_of := STATE_PENDING |> <| conn_sock := 5 |>) demo_inbound).2 in
  let s' := (node_accept (KE := demo_kA) 8 2 s).2 in
  8 ∈ m_open s' /\ 8 ∉ m_iob s' /\ sock (m_nodes s' !!! 2%nat) = -1 /\
  state_of (m_nodes s' !!! 2%nat) = STATE_NEGOTIATING.
Proof.
  cbn zeta. split_and!; first [vm_compute; reflexivity|apply (bool_decide_unpack _); vm_compute; exact I].
Qed.

(** A second connection from a connected node costs it the first one, and whichever of
    the two was chosen is not used. *)
Theorem second_connection_disconnects :
  let s' := (node_accept (KE := demo_kA) 8 1 demo_inbound).2 in
  state_of (m_nodes demo_inbound !!! 1%nat) = STATE_CONNECTED /\
  state_of (m_nodes s' !!! 1%nat) = STATE_NONE /\ sock (m_nodes s' !!! 1%nat) = -1.
Proof. vm_compute. auto. Qed.

(** A connection that is established at once leaves the node in [STATE_NONE], for which
    [net_is_connected] says no: when the descriptor is reported writable it is closed. *)
Theorem immediate_connect_dropped :
  let k := demo_kernel (list_to_map [(8, (SockAddr 1 40000, SockAddr 2 15551))]) 8 None in
  let s := (net_try_connect (KE := k) 2 demo2).2 in
  let s' := (conn_writable (KE := k) 8 2 s).2 in
  conn_sock (m_nodes s !!! 2%nat) = 8 /\ 8 ∈ m_open s /\ 8 ∉ m_open s' /\ state_of (m_nodes s' !!! 2%nat) = STATE_NONE.
Proof.
  cbn zeta. split_and!; first [vm_compute; reflexivity|apply (bool_decide_unpack _); vm_compute; exact I].
Qed.

(** What follows the first packet of a node that is recognised by its uuid is kept for
    later, and thrown away when the connection is accepted. *)
Theorem uuid_accept_drops_queue :
  let id := replicate 36 Byte.x61 ++ [Byte.x00] in
  let pkt := Event ((hdr demo_active) <| h_from_uuid := id |> <| h_sig := MERLIN_SIGNATURE |>) (body demo_active) in
  let s := (on_node 2 (fun n => n <| uuid := id |>) demo_inbound).2
    <| m_recvs := [RecvData (pkt_bytes pkt ++ take 100 (pkt_bytes pkt))] |> in
  let s' := (find_node_uuid (KE := demo_kA) 0 (fun _ _ => mret 0) (fun _ _ => mret 0) (UuidCtx [] 8) s).2 in
  state_of (m_nodes s' !!! 2%nat) = STATE_CONNECTED /\ bq (m_nodes s' !!! 2%nat) = [].
Proof. vm_compute. auto. Qed.
