(* ===== verification/Codec.v ===== *)
(** * Events on the wire: shared/codec.c

    A structure of Naemon's holds pointers to strings.  Encoding copies the structure into
    the body of a packet, the strings behind it, and replaces each pointer by the offset of
    its string; decoding turns the offsets into pointers into the packet.  The layout of the
    structures is Naemon's and the compiler's: it is the class [CStructs].  The memory the
    pointers of the sender point into gives, for an address, the string it holds. *)

From S2P Require Import Prelude Packet.

#[local] Open Scope nat_scope.

(** ** Layout *)

(** shared/codec.c:19-23 hook_info_struct -- [ptrs] without the unused entries. *)
Record hook_info_struct := HookInfo { hi_strings : nat; hi_offset : nat; hi_ptrs : list nat }.

(** shared/codec.c:23-181 hook_info -- by callback type: the structure, the number of strings and
    the members that point to them; types that are not sent have none. *)
Definition hook_table : list (string * nat * list string) :=
  [
   ("nebstruct_process_data", 0%nat, []);
   ("nebstruct_timed_event_data", 0%nat, []);
   ("nebstruct_log_data", 1%nat, ["data"]);
   ("nebstruct_system_command_data", 2%nat, ["command_line"; "output"]);
   ("nebstruct_event_handler_data", 4%nat, ["host_name"; "service_description";
      "command_line"; "output"]);
   ("nebstruct_notification_data", 5%nat, ["host_name"; "service_description"; "output";
      "ack_author"; "ack_data"]);
   ("merlin_service_status", 5%nat, ["host_name"; "service_description";
      "state.plugin_output"; "state.long_plugin_output"; "state.perf_data"]);
   ("merlin_host_status", 4%nat, ["name"; "state.plugin_output"; "state.long_plugin_output";
      "state.perf_data"]);
   ("nebstruct_comment_data", 4%nat, ["host_name"; "service_description"; "author_name";
      "comment_data"]);
   ("nebstruct_downtime_data", 4%nat, ["host_name"; "service_description"; "author_name";
      "comment_data"]);
   ("nebstruct_flapping_data", 2%nat, ["host_name"; "service_description"]);
   ("nebstruct_program_status_data", 2%nat, ["global_host_event_handler";
      "global_service_event_handler"]);
   ("merlin_host_status", 4%nat, ["name"; "state.plugin_output"; "state.long_plugin_output";
      "state.perf_data"]);
   ("merlin_service_status", 5%nat, ["host_name"; "service_description";
      "state.plugin_output"; "state.long_plugin_output"; "state.perf_data"]);
   ("", 0%nat, []);
   ("", 0%nat, []);
   ("", 0%nat, []);
   ("nebstruct_external_command_data", 2%nat, ["command_string"; "command_args"]);
   ("", 0%nat, []);
   ("", 0%nat, []);
   ("nebstruct_contact_notification_data", 6%nat, ["host_name"; "service_description";
      "contact_name"; "output"; "ack_author"; "ack_data"]);
   ("nebstruct_contact_notification_method_data", 7%nat, ["host_name"; "service_description";
      "contact_name"; "command_name"; "output"; "ack_author"; "ack_data"]);
   ("nebstruct_acknowledgement_data", 4%nat, ["host_name"; "service_description";
      "author_name"; "comment_data"]);
   ("nebstruct_statechange_data", 3%nat, ["host_name"; "service_description"; "output"]);
   ("", 0%nat, []);
   ("", 0%nat, [])
  ]%string.

(** Eight bytes per pointer, inside the structure, not at its start, and apart. *)
Definition apart_slots (p q : nat) : bool := (p + 8 <=? q) || (q + 8 <=? p).

Fixpoint slots_apart (ptrs : list nat) : bool :=
  match ptrs with [] => true | p :: ps => forallb (apart_slots p) ps && slots_apart ps end.

Definition layout_ok (size : nat) (ptrs : list nat) : bool :=
  (Z.of_nat size <=? MAX_BODY)%Z && forallb (fun p => (0 <? p) && (p + 8 <=? size)) ptrs && slots_apart ptrs.

(** sizeof and offsetof, and the number of callback types of nebcallbacks.h. *)
Class CStructs := {
  sizeof : string -> nat;
  offsetof : string -> string -> nat;
  NEBCALLBACK_NUMITEMS : Z;
  layouts_ok : forall st k fs, (st, k, fs) ∈ hook_table -> st <> ""%string ->
    layout_ok (sizeof st) (map (offsetof st) fs) = true }.

(** ** Memory *)

(** memcpy into a buffer, and a pointer in it. *)
Definition write_at (o : nat) (l buf : list byte) : list byte := take o buf ++ l ++ drop (o + length l) buf.
Definition get_ptr (p : nat) (buf : list byte) : Z := num p 8 buf.
Definition put_ptr (p : nat) (v : Z) (buf : list byte) : list byte := write_at p (le_split 8 v) buf.

Section Codec.
Context {CS : CStructs}.

(** An entry of the table. *)
Definition hook_entry (e : string * nat * list string) : hook_info_struct :=
  let '(st, k, fs) := e in
  if String.eqb st "" then HookInfo 0 0 [] else HookInfo k (sizeof st) (map (offsetof st) fs).

(** shared/node.h:274-277 merlin_runcmd -- packed: an int and a pointer. *)
Definition runcmd_info : hook_info_struct := HookInfo 1 12 [4].

(** shared/codec.c:224-245 merlin_encode -- the layout of a type; [None] when there is none. *)
Definition layout_of (cb_type : Z) : option hook_info_struct :=
  if (cb_type =? RUNCMD_PACKET)%Z then Some runcmd_info
  else if ((cb_type <? 0) || (NEBCALLBACK_NUMITEMS <=? cb_type))%Z then None
  else Some (match hook_table !! Z.to_nat cb_type with Some e => hook_entry e | None => HookInfo 0 0 [] end).

(** ** Encoding *)

(** shared/codec.c:252-292 merlin_encode -- the loop over the strings. *)
Fixpoint encode_strings (mem : Z -> list byte) (ptrs : list nat) (buflen offset : nat) (buf : list byte) : nat * list byte :=
  match ptrs with
  | [] => (offset, buf)
  | p :: ps =>
      let sp := get_ptr p buf in
      if (sp =? 0)%Z then encode_strings mem ps buflen offset buf
      else if buflen <=? offset then (offset, foldl (fun b q => put_ptr q 0 b) buf (p :: ps))
      else
        let len := length (mem sp) in
        let len := if buflen - offset - 1 <? len then buflen - offset - 1 else len in
        let buf := write_at offset (take len (mem sp) ++ [Byte.x00]) buf in
        encode_strings mem ps buflen (offset + len + 1) (put_ptr p (Z.of_nat offset) buf)
  end.

(** shared/codec.c:219-308 merlin_encode -- [buf] is the buffer of [buflen] bytes before; also
    returns the buffer. *)
Definition merlin_encode (mem : Z -> list byte) (data : option (list byte)) (cb_type : Z) (buf : list byte) (buflen : nat) : nat * list byte :=
  match data, layout_of cb_type with
  | Some d, Some hi =>
      let buf := write_at 0 (take (hi_offset hi) d) buf in
      let '(offset, buf) := encode_strings mem (take (hi_strings hi) (hi_ptrs hi)) buflen (hi_offset hi) buf in
      (if offset mod 8 =? 0 then offset else offset + (8 - offset mod 8), buf)
  | _, _ => (0, buf)
  end.

(** ** Decoding *)

(** shared/codec.c:340-367 merlin_decode -- the loop; [ds] is the address of the buffer.  Offsets
    are compared as signed numbers. *)
Fixpoint decode_strings (ds len : Z) (i : nat) (ptrs : list nat) (buf : list byte) (ret : Z) : Z * list byte :=
  match ptrs with
  | [] => (ret, buf)
  | p :: ps =>
      if p =? 0 then decode_strings ds len (S i) ps buf ret else
      let ptr := get_ptr p buf in
      if (ptr =? 0)%Z then decode_strings ds len (S i) ps buf ret
      else if (len <? s64 ptr)%Z then
        decode_strings ds len (S i) ps (put_ptr p 0 buf) (Z.lor ret (Z.shiftl 1 (Z.of_nat i)))
      else decode_strings ds len (S i) ps (put_ptr p (u64 (ptr + ds)) buf) ret
  end.

(** shared/codec.c:321-372 merlin_decode -- also returns the buffer. *)
Definition merlin_decode (ds len cb_type : Z) (buf : list byte) : Z * list byte :=
  if ((ds =? 0) || (len =? 0))%Z then ((-1)%Z, buf) else
  match layout_of cb_type with
  | None => ((-1)%Z, buf)
  | Some hi => decode_strings ds len 0 (take (hi_strings hi) (hi_ptrs hi)) buf 0
  end.

(** ** Reading what was written *)

Lemma lookup_write_at o l buf i :
  o + length l <= length buf ->
  write_at o l buf !! i = if decide (o <= i < o + length l) then l !! (i - o) else buf !! i.
Proof.
  intros H. unfold write_at. destruct (decide (i < o)).
  - rewrite decide_False by lia. rewrite lookup_app_l by (rewrite length_take; lia).
    by rewrite lookup_take, decide_True by lia.
  - rewrite lookup_app_r by (rewrite length_take; lia). rewrite length_take, Nat.min_l by lia.
    destruct (decide (i < o + length l)).
    + rewrite decide_True by lia. by rewrite lookup_app_l by lia.
    + rewrite decide_False by lia. rewrite lookup_app_r, lookup_drop by lia. f_equal. lia.
Qed.

Lemma length_write_at o l buf : o + length l <= length buf -> length (write_at o l buf) = length buf.
Proof. intros H. unfold write_at. rewrite !length_app, length_take, length_drop. lia. Qed.

Lemma lookup_field a n (buf : list byte) i : field a n buf !! i = if decide (i < n) then buf !! (a + i) else None.
Proof. unfold field. rewrite lookup_take. case_decide; [apply lookup_drop|done]. Qed.

Lemma field_write_other a n o l buf :
  o + length l <= length buf -> a + n <= o \/ o + length l <= a ->
  field a n (write_at o l buf) = field a n buf.
Proof.
  intros H Ho. apply list_eq. intros i. rewrite !lookup_field. case_decide; [|done].
  rewrite lookup_write_at by done. by rewrite decide_False by lia.
Qed.

Lemma field_write_same o l buf : o + length l <= length buf -> field o (length l) (write_at o l buf) = l.
Proof.
  intros H. apply list_eq. intros i. rewrite lookup_field. case_decide.
  - rewrite lookup_write_at, decide_True by lia. f_equal. lia.
  - symmetry. apply lookup_ge_None. lia.
Qed.

Lemma length_ptr v : length (le_split 8 v) = 8.
Proof. apply length_le_split. Qed.

Lemma put_ptr_length p v buf : p + 8 <= length buf -> length (put_ptr p v buf) = length buf.
Proof. intros H. apply length_write_at. by rewrite length_ptr. Qed.

Lemma get_put_same p v buf : p + 8 <= length buf -> get_ptr p (put_ptr p v buf) = (v mod 2 ^ 64)%Z.
Proof.
  intros H. unfold get_ptr, num, put_ptr. rewrite <- (length_ptr v) at 1.
  rewrite field_write_same by (by rewrite length_ptr). apply le_combine_split.
Qed.

Lemma field_put_other a n p v buf :
  p + 8 <= length buf -> a + n <= p \/ p + 8 <= a -> field a n (put_ptr p v buf) = field a n buf.
Proof. intros H Ho. apply field_write_other; rewrite length_ptr; lia. Qed.

Lemma get_put_other q p v buf :
  p + 8 <= length buf -> apart_slots p q = true -> get_ptr q (put_ptr p v buf) = get_ptr q buf.
Proof.
  intros H Ha. unfold get_ptr, num. rewrite field_put_other; [done|done|]. unfold apart_slots in Ha.
  apply orb_true_iff in Ha as [?%Nat.leb_le|?%Nat.leb_le]; lia.
Qed.

(** ** Slots *)

Lemma slots_apart_spec ptrs p ps : slots_apart (ptrs ++ p :: ps) = true ->
  (forall q, q ∈ ptrs ++ ps -> apart_slots p q = true).
Proof.
  induction ptrs as [|r rs IH]; cbn; intros H q Hq.
  - apply andb_true_iff in H as [H _]. rewrite forallb_forall in H. apply H. by apply list_elem_of_In.
  - apply andb_true_iff in H as [H1 H2]. apply elem_of_cons in Hq as [->|Hq]; [|by apply IH].
    rewrite forallb_forall in H1. specialize (H1 p). unfold apart_slots in H1 |- *. rewrite orb_comm. apply H1.
    apply in_app_iff. right. by left.
Qed.

(** ** What is sent of the strings

    The strings of a structure, [None] for a NULL pointer, and what the buffer takes of
    them: each as far as there is room for it and its terminator, none when it is full. *)

Definition strings_of (mem : Z -> list byte) (ptrs : list nat) (buf : list byte) : list (option (list byte)) :=
  map (fun p => if (get_ptr p buf =? 0)%Z then None else Some (mem (get_ptr p buf))) ptrs.

Fixpoint kept (ss : list (option (list byte))) (buflen offset : nat) : list (option (list byte)) * nat :=
  match ss with
  | [] => ([], offset)
  | None :: ss => let '(ks, o) := kept ss buflen offset in (None :: ks, o)
  | Some s :: ss' =>
      if buflen <=? offset then (map (fun _ => None) ss, offset)
      else
        let s := take (buflen - offset - 1) s in
        let '(ks, o) := kept ss' buflen (offset + length s + 1) in (Some s :: ks, o)
  end.

(** The room the strings need. *)
Definition room (ss : list (option (list byte))) : nat :=
  foldr (fun s r => match s with Some s => length s + 1 + r | None => r end) 0 ss.

Lemma kept_all ss buflen : forall offset, offset + room ss <= buflen -> kept ss buflen offset = (ss, offset + room ss).
Proof.
  induction ss as [|[s|] ss IH]; intros offset H; cbn [kept room foldr] in *.
  - f_equal. lia.
  - fold (room ss) in *. rewrite (proj2 (Nat.leb_gt _ _)) by lia.
    rewrite take_ge by lia. rewrite IH by lia. f_equal. lia.
  - fold (room ss) in *. by rewrite IH by lia.
Qed.

(** A string in the buffer, and what encoding makes of a pointer. *)
Definition string_at (buf : list byte) (o : nat) (s : list byte) : Prop := field o (length s + 1) buf = s ++ [Byte.x00].

Definition encoded (lo hi : nat) (buf : list byte) (p : nat) (k : option (list byte)) : Prop :=
  match k with
  | None => get_ptr p buf = 0%Z
  | Some s => exists o, get_ptr p buf = Z.of_nat o /\ lo <= o /\ o + length s + 1 <= hi /\ string_at buf o s
  end.

(** Away from the slots. *)
Definition away (a n : nat) (ptrs : list nat) : Prop := forall p, p ∈ ptrs -> a + n <= p \/ p + 8 <= a.

Lemma clear_slots ptrs size : forall buf,
  size <= length buf -> Forall (fun p => p + 8 <= size) ptrs -> slots_apart ptrs = true ->
  let buf' := foldl (fun b q => put_ptr q 0 b) buf ptrs in
  length buf' = length buf /\ (forall a n, away a n ptrs -> field a n buf' = field a n buf) /\
  Forall (fun p => get_ptr p buf' = 0%Z) ptrs.
Proof.
  induction ptrs as [|p ps IH]; intros buf Hs Hp Ha; [by split_and!|]. cbn [foldl].
  apply Forall_cons in Hp as [Hp Hps]. pose proof (slots_apart_spec [] p ps Ha) as Hap.
  cbn in Ha. apply andb_true_iff in Ha as [_ Ha].
  assert (Hl : length (put_ptr p 0 buf) = length buf) by (apply put_ptr_length; lia).
  destruct (IH (put_ptr p 0 buf) ltac:(lia) Hps Ha) as (H1 & H2 & H3). split_and!.
  - lia.
  - intros a n Haw. rewrite H2 by (intros q Hq; apply Haw; by right). apply field_put_other; [lia|]. apply Haw. by left.
  - constructor; [|done]. unfold get_ptr, num. rewrite H2.
    + apply get_put_same. lia.
    + intros q Hq. specialize (Hap q Hq). unfold apart_slots in Hap. apply orb_true_iff in Hap as [?%Nat.leb_le|?%Nat.leb_le]; lia.
Qed.

Lemma away_apart p ps : (forall q, q ∈ ps -> apart_slots p q = true) -> away p 8 ps.
Proof.
  intros H q Hq. specialize (H q Hq). unfold apart_slots in H. apply orb_true_iff in H as [?%Nat.leb_le|?%Nat.leb_le]; lia.
Qed.

Lemma strings_of_ext mem ptrs buf buf' :
  (forall p, p ∈ ptrs -> get_ptr p buf = get_ptr p buf') -> strings_of mem ptrs buf = strings_of mem ptrs buf'.
Proof. intros H. apply map_ext_in. intros p Hp%list_elem_of_In. by rewrite H. Qed.

Lemma encoded_none lo hi buf ptrs :
  Forall (fun p => get_ptr p buf = 0%Z) ptrs -> Forall2 (encoded lo hi buf) ptrs (map (fun _ => None) ptrs).
Proof. induction 1; constructor; done. Qed.

(** Storing a string and its offset. *)
Lemma store_string p offset k buf :
  p + 8 <= offset -> offset + length k + 1 <= length buf -> (Z.of_nat (length buf) < 2 ^ 32)%Z ->
  let buf1 := put_ptr p (Z.of_nat offset) (write_at offset (k ++ [Byte.x00]) buf) in
  length buf1 = length buf /\ get_ptr p buf1 = Z.of_nat offset /\ string_at buf1 offset k /\
  (forall a n, a + n <= offset -> away a n [p] -> field a n buf1 = field a n buf).
Proof.
  intros Hp Ho Hb buf1. assert (Hw : length (k ++ [Byte.x00]) = length k + 1) by by rewrite length_app.
  assert (Hl : length (write_at offset (k ++ [Byte.x00]) buf) = length buf) by (rewrite length_write_at; lia).
  unfold buf1. split_and!.
  - rewrite put_ptr_length; lia.
  - rewrite get_put_same by lia. apply Z.mod_small. lia.
  - unfold string_at. rewrite field_put_other by lia. rewrite <- Hw. apply field_write_same. lia.
  - intros a n Han Haw. rewrite field_put_other; [|lia|apply Haw; by left]. apply field_write_other; lia.
Qed.

(** The bytes a string is cut to. *)
Lemma cut_string (s : list byte) room :
  take (if room <? length s then room else length s) s = take room s /\
  (if room <? length s then room else length s) = length (take room s).
Proof.
  rewrite length_take. destruct (room <? length s) eqn:E; [apply Nat.ltb_lt in E|apply Nat.ltb_ge in E].
  - split; [done|lia].
  - split; [by rewrite !take_ge by lia|lia].
Qed.

(** The loop does what [kept] says, and leaves the rest of the buffer alone. *)
Lemma encode_strings_spec mem size buflen ptrs : forall offset buf,
  length buf = buflen -> size <= offset <= buflen -> (Z.of_nat buflen < 2 ^ 32)%Z ->
  Forall (fun p => p + 8 <= size) ptrs -> slots_apart ptrs = true ->
  let '(off', buf') := encode_strings mem ptrs buflen offset buf in
  let '(ks, off2) := kept (strings_of mem ptrs buf) buflen offset in
  off' = off2 /\ offset <= off' <= buflen /\ length buf' = buflen /\
  (forall a n, a + n <= offset -> away a n ptrs -> field a n buf' = field a n buf) /\
  Forall2 (encoded offset off' buf') ptrs ks.
Proof.
  induction ptrs as [|p ps IH]; intros offset buf Hl Ho Hb Hp Ha; cbn [encode_strings strings_of map kept].
  { split_and!; [done|lia|lia|done|done|constructor]. }
  pose proof (slots_apart_spec [] p ps Ha) as Hap. pose proof Hp as [Hp1 Hps]%Forall_cons. pose proof Ha as Ha'.
  cbn in Ha'. apply andb_true_iff in Ha' as [_ Ha'].
  destruct (get_ptr p buf =? 0)%Z eqn:E0.
  { specialize (IH offset buf Hl Ho Hb Hps Ha'). destruct (encode_strings mem ps buflen offset buf) as [off' buf'].
    fold (strings_of mem ps buf). destruct (kept (strings_of mem ps buf) buflen offset) as [ks off2].
    destruct IH as (H1 & H2 & H3 & H4 & H5). split_and!; [done|lia|lia|done| |].
    - intros a n Han Haw. apply H4; [done|]. intros q Hq. apply Haw. by right.
    - constructor; [|done]. cbn. unfold get_ptr, num. rewrite H4; [by apply Z.eqb_eq|lia|by apply away_apart]. }
  destruct (buflen <=? offset) eqn:E1.
  { destruct (clear_slots (p :: ps) size buf ltac:(lia) Hp Ha) as (H1 & H2 & H3).
    split_and!; [done|lia|lia|lia| |].
    - intros a n _. apply H2.
    - rewrite map_map. exact (encoded_none offset offset _ (p :: ps) H3). }
  apply Nat.leb_gt in E1. fold (strings_of mem ps buf).
  destruct (cut_string (mem (get_ptr p buf)) (buflen - offset - 1)) as [-> ->].
  set (k := take (buflen - offset - 1) (mem (get_ptr p buf))).
  assert (Hk : length k <= buflen - offset - 1) by (unfold k; rewrite length_take; lia).
  destruct (store_string p offset k buf ltac:(lia) ltac:(lia) ltac:(lia)) as (Hl1 & Hg1 & Hs1 & Hf1).
  set (buf1 := put_ptr p _ _) in *. rewrite Hl in Hl1.
  assert (Hss : strings_of mem ps buf = strings_of mem ps buf1).
  { apply strings_of_ext. intros q Hq. unfold get_ptr, num. symmetry. rewrite Hf1; [done| |].
    - rewrite Forall_forall in Hps. specialize (Hps q Hq). lia.
    - intros r [->|[]%elem_of_nil]%elem_of_cons. pose proof (away_apart p ps Hap q Hq). lia. }
  rewrite Hss. specialize (IH (offset + length k + 1) buf1 Hl1 ltac:(lia) Hb Hps Ha').
  destruct (encode_strings mem ps buflen (offset + length k + 1) buf1) as [off' buf'].
  destruct (kept (strings_of mem ps buf1) buflen (offset + length k + 1)) as [ks off2].
  destruct IH as (H1 & H2 & H3 & H4 & H5). split_and!; [done|lia|lia|done| |].
  - intros a n Han Haw. rewrite H4; [|lia|intros q Hq; apply Haw; by right]. apply Hf1; [done|].
    intros q [->|[]%elem_of_nil]%elem_of_cons. apply Haw. by left.
  - constructor.
    + exists offset. split_and!; [|lia|lia|].
      * rewrite <- Hg1. unfold get_ptr, num. by rewrite H4; [|lia|by apply away_apart].
      * unfold string_at. rewrite H4; [exact Hs1|lia|].
        intros q Hq. rewrite Forall_forall in Hps. specialize (Hps q Hq). lia.
    + eapply Forall2_impl; [exact H5|]. intros q [t|]; [|done]. intros (o & ? & ? & ? & ?). exists o. split_and!; (done || lia).
Qed.

(** ** Decoding what was encoded *)

(** Offsets inside the packet become pointers into it; nothing else changes. *)
Lemma decode_strings_spec ds len size ptrs : forall i buf ret,
  (0 <= ds)%Z -> (0 <= len)%Z -> (ds + len < 2 ^ 63)%Z -> size <= length buf ->
  Forall (fun p => 0 < p /\ p + 8 <= size) ptrs -> slots_apart ptrs = true ->
  Forall (fun p => (0 <= get_ptr p buf <= len)%Z) ptrs ->
  let '(r, buf') := decode_strings ds len i ptrs buf ret in
  r = ret /\ length buf' = length buf /\ (forall a n, away a n ptrs -> field a n buf' = field a n buf) /\
  Forall (fun p => get_ptr p buf' = if (get_ptr p buf =? 0)%Z then 0%Z else (ds + get_ptr p buf)%Z) ptrs.
Proof.
  induction ptrs as [|p ps IH]; intros i buf ret Hds Hlen Hsum Hs Hp Ha Hg; cbn [decode_strings]; [by split_and!|].
  pose proof (slots_apart_spec [] p ps Ha) as Hap. apply Forall_cons in Hp as [[Hp0 Hp1] Hps].
  cbn in Ha. apply andb_true_iff in Ha as [_ Ha]. apply Forall_cons in Hg as [Hg Hgs].
  rewrite (proj2 (Nat.eqb_neq p 0)) by lia. destruct (get_ptr p buf =? 0)%Z eqn:E0.
  { specialize (IH (S i) buf ret Hds Hlen Hsum Hs Hps Ha Hgs). destruct (decode_strings _ _ _ _ _ _) as [r buf'].
    destruct IH as (H1 & H2 & H3 & H4). split_and!; [done|done| |].
    - intros a n Haw. apply H3. intros q Hq. apply Haw. by right.
    - constructor; [|done]. rewrite E0. unfold get_ptr, num. rewrite H3 by by apply away_apart. by apply Z.eqb_eq. }
  assert (s64 (get_ptr p buf) = get_ptr p buf) as ->.
  { unfold s64. rewrite Z.mod_small by lia. lia. }
  rewrite (proj2 (Z.ltb_ge _ _)) by lia. set (buf1 := put_ptr p _ buf).
  assert (Hl1 : length buf1 = length buf) by (apply put_ptr_length; lia).
  assert (Hg1 : forall q, q ∈ ps -> get_ptr q buf1 = get_ptr q buf).
  { intros q Hq. apply get_put_other; [lia|]. by apply Hap. }
  specialize (IH (S i) buf1 ret Hds Hlen Hsum ltac:(lia) Hps Ha).
  destruct (decode_strings _ _ _ _ _ _) as [r buf']. destruct IH as (H1 & H2 & H3 & H4).
  { apply Forall_forall. intros q Hq. rewrite Hg1 by done. rewrite Forall_forall in Hgs. by apply Hgs. }
  split_and!; [done|lia| |].
  - intros a n Haw. rewrite H3 by (intros q Hq; apply Haw; by right). apply field_put_other; [lia|]. apply Haw. by left.
  - constructor.
    + rewrite E0. unfold get_ptr at 1, num. rewrite H3 by by apply away_apart. fold (num p 8 buf1) (get_ptr p buf1).
      unfold buf1. rewrite get_put_same by lia. change (2 ^ 64)%Z with (2 ^ 64)%Z. rewrite Z.mod_small; unfold u64; rewrite Z.mod_small; lia.
    + apply Forall_forall. intros q Hq. rewrite Forall_forall in H4. rewrite H4 by done. by rewrite Hg1.
Qed.

(** The layouts the functions use. *)
Definition slots_ok (hi : hook_info_struct) : Prop :=
  (Z.of_nat (hi_offset hi) <= MAX_BODY)%Z /\ hi_strings hi = length (hi_ptrs hi) /\
  Forall (fun p => 0 < p /\ p + 8 <= hi_offset hi) (hi_ptrs hi) /\ slots_apart (hi_ptrs hi) = true.

Lemma layout_slots cb_type hi : layout_of cb_type = Some hi -> slots_ok hi.
Proof.
  assert (Hz : slots_ok (HookInfo 0 0 [])) by (by split_and!).
  unfold layout_of. destruct (cb_type =? RUNCMD_PACKET)%Z.
  { intros [= <-]. by split_and!; [|done|repeat constructor; lia|done]. }
  destruct (_ || _)%bool; [done|]. intros [= <-].
  destruct (hook_table !! _) as [[[st k] fs]|] eqn:E; [|done]. cbn [hook_entry].
  destruct (String.eqb st "") eqn:Es; [done|]. apply String.eqb_neq in Es.
  apply list_elem_of_lookup_2 in E.
  assert (k = length fs) as ->.
  { assert (Forall (fun e => e.1.2 = length e.2) hook_table) as H by (repeat constructor).
    rewrite Forall_forall in H. apply (H _ E). }
  pose proof (layouts_ok st _ fs E Es) as H. unfold layout_ok in H.
  rewrite !andb_true_iff in H. destruct H as [[H1%Z.leb_le H2] H3].
  split_and!; cbn [hi_offset hi_strings hi_ptrs]; [done|by rewrite length_map| |done].
  rewrite forallb_forall in H2. apply Forall_forall. intros p Hp%list_elem_of_In. specialize (H2 p Hp).
  apply andb_true_iff in H2 as [?%Nat.ltb_lt ?%Nat.leb_le]. lia.
Qed.

(** ** Both ends *)

Definition BODY : nat := Z.to_nat MAX_BODY.

Lemma BODY_Z : Z.of_nat BODY = MAX_BODY.
Proof. unfold BODY. by rewrite Z2Nat.id. Qed.

Lemma BODY_8 : exists q, BODY = q * 8.
Proof.
  exists (Z.to_nat (MAX_BODY / 8)). apply Nat2Z.inj. rewrite BODY_Z, Nat2Z.inj_mul, Z2Nat.id by done. done.
Qed.

#[local] Opaque BODY.

(** The receiver finds the string [k], in its packet at the address [ds], through the pointer [p]. *)
Definition decoded (ds : Z) (buf : list byte) (p : nat) (k : option (list byte)) : Prop :=
  match k with
  | None => get_ptr p buf = 0%Z
  | Some s => exists o, get_ptr p buf = (ds + Z.of_nat o)%Z /\ o + length s < length buf /\ c_str (drop o buf) = s
  end.

Lemma string_at_c_str buf o s : string_at buf o s -> Forall (fun c => c <> Byte.x00) s -> c_str (drop o buf) = s.
Proof.
  unfold string_at, field. intros H Hs. rewrite <- (take_drop (length s + 1) (drop o buf)), H, <- app_assoc.
  by apply c_str_app_nul.
Qed.

Lemma kept_forall (P : list byte -> Prop) ss buflen : (forall s n, P s -> P (take n s)) -> forall offset,
  Forall (fun s => match s with Some s => P s | None => True end) ss ->
  Forall (fun s => match s with Some s => P s | None => True end) (kept ss buflen offset).1.
Proof.
  intros HP. induction ss as [|[s|] ss IH]; intros offset Hs; cbn [kept]; [constructor|..].
  - apply Forall_cons in Hs as [Hs Hss]. destruct (buflen <=? offset).
    + cbn. constructor; [done|]. clear. induction ss; constructor; done.
    + specialize (IH (offset + length (take (buflen - offset - 1) s) + 1) Hss).
      destruct (kept ss buflen _) as [ks o]. constructor; [by apply HP|exact IH].
  - apply Forall_cons in Hs as [_ Hss]. specialize (IH offset Hss). destruct (kept ss buflen offset) as [ks o]. by constructor.
Qed.

Lemma field_take a n m (buf : list byte) : a + n <= m -> field a n (take m buf) = field a n buf.
Proof. intros H. apply list_eq. intros i. rewrite !lookup_field. case_decide; [|done]. by rewrite lookup_take, decide_True by lia. Qed.

(** [offset] rounded up to a multiple of eight. *)
Lemma round_up o : let n := if o mod 8 =? 0 then o else o + (8 - o mod 8) in n mod 8 = 0 /\ o <= n < o + 8.
Proof.
  cbn zeta. pose proof (Nat.div_mod_eq o 8). pose proof (Nat.mod_upper_bound o 8 ltac:(lia)).
  destruct (o mod 8 =? 0) eqn:E; [apply Nat.eqb_eq in E; lia|]. apply Nat.eqb_neq in E. split; [|lia].
  replace (o + (8 - o mod 8)) with ((o / 8 + 1) * 8) by lia. apply Nat.Div0.mod_mul.
Qed.

Lemma round_up_body o : o <= BODY -> (if o mod 8 =? 0 then o else o + (8 - o mod 8)) <= BODY.
Proof.
  intros Ho. destruct (round_up o) as [H1 H2]. set (n := if o mod 8 =? 0 then o else o + (8 - o mod 8)) in *.
  destruct BODY_8 as [q Hq]. pose proof (Nat.div_mod_eq n 8). nia.
Qed.

(** What encoding leaves in the buffer. *)
Lemma merlin_encode_spec mem data cb_type hi buf :
  layout_of cb_type = Some hi -> length data = hi_offset hi -> length buf = BODY ->
  let '(n, b) := merlin_encode mem (Some data) cb_type buf BODY in
  let '(ks, o) := kept (strings_of mem (hi_ptrs hi) data) BODY (hi_offset hi) in
  length b = BODY /\ n mod 8 = 0 /\ hi_offset hi <= o <= n /\ n <= BODY /\
  (forall a k, a + k <= hi_offset hi -> away a k (hi_ptrs hi) -> field a k b = field a k data) /\
  Forall2 (encoded (hi_offset hi) o b) (hi_ptrs hi) ks.
Proof.
  intros Hly Hd Hb. destruct (layout_slots cb_type hi Hly) as (Hsz & Hn & Hp & Ha). rewrite <- BODY_Z in Hsz.
  unfold merlin_encode. rewrite Hly, Hn, firstn_all, take_ge by lia. set (b0 := write_at 0 data buf).
  assert (Hl0 : length b0 = BODY) by (unfold b0; rewrite length_write_at; lia).
  assert (Hf0 : forall a k, a + k <= hi_offset hi -> field a k b0 = field a k data).
  { intros a k Hak. rewrite <- (field_take a k (hi_offset hi) b0) by done. f_equal. unfold b0, write_at. rewrite take_0, app_nil_l.
    rewrite <- Hd. apply take_app_length. }
  assert (strings_of mem (hi_ptrs hi) b0 = strings_of mem (hi_ptrs hi) data) as Hss.
  { apply strings_of_ext. intros p Hpp. unfold get_ptr, num. rewrite Hf0; [done|]. rewrite Forall_forall in Hp. by apply Hp. }
  assert (Hlt : (Z.of_nat BODY < 2 ^ 32)%Z) by (rewrite BODY_Z; done).
  pose proof (encode_strings_spec mem (hi_offset hi) BODY (hi_ptrs hi) (hi_offset hi) b0 Hl0 ltac:(lia) Hlt) as H.
  rewrite Hss in H. destruct (encode_strings _ _ _ _ _) as [off b]. destruct (kept _ _ _) as [ks o].
  destruct H as (-> & Ho & Hlb & Hf & Hk); [|done|].
  { eapply Forall_impl; [exact Hp|]. intros p [_ ?]. done. }
  destruct (round_up o) as [Hr1 Hr2]. pose proof (round_up_body o ltac:(lia)) as Hr3.
  split_and!; [done|done|lia|lia|done| |done]. intros a k Hak Haw. by rewrite Hf, Hf0.
Qed.

(** The strings of a sender have no NUL inside, and the receiver's packet lies in user space. *)
Definition c_memory (mem : Z -> list byte) : Prop := forall a, Forall (fun c => c <> Byte.x00) (mem a).
Definition user_address (ds : Z) : Prop := (0 < ds)%Z /\ (ds + MAX_BODY < 2 ^ 63)%Z.

Lemma encoded_pointer lo hi buf p k : 0 < lo -> encoded lo hi buf p k ->
  (0 <= get_ptr p buf <= Z.of_nat hi)%Z /\ (get_ptr p buf = 0%Z <-> k = None).
Proof. destruct k as [s|]; cbn; [intros Hlo (o & -> & ? & ? & _)|intros Hlo ->]; split; (lia || split; (done || lia)). Qed.

(** Pointers, strings and the rest of the structure after a trip from sender to receiver. *)
Lemma codec_trip mem data cb_type hi buf ds :
  layout_of cb_type = Some hi -> 0 < hi_offset hi -> length data = hi_offset hi -> length buf = BODY ->
  c_memory mem -> user_address ds ->
  let '(n, b) := merlin_encode mem (Some data) cb_type buf BODY in
  let '(r, b') := merlin_decode ds (Z.of_nat n) cb_type (take n b) in
  n <= BODY /\ n mod 8 = 0 /\ r = 0%Z /\
  (forall a k, a + k <= hi_offset hi -> away a k (hi_ptrs hi) -> field a k b' = field a k data) /\
  Forall2 (decoded ds b') (hi_ptrs hi) (kept (strings_of mem (hi_ptrs hi) data) BODY (hi_offset hi)).1.
Proof.
  intros Hly Hpos Hd Hb Hmem [Hds1 Hds2]. destruct (layout_slots cb_type hi Hly) as (Hsz & Hn & Hp & Ha).
  pose proof (merlin_encode_spec mem data cb_type hi buf Hly Hd Hb) as He.
  assert (Hnul : Forall (fun s => match s with Some s => Forall (fun c => c <> Byte.x00) s | None => True end)
    (kept (strings_of mem (hi_ptrs hi) data) BODY (hi_offset hi)).1).
  { apply kept_forall; [intros s m; apply Forall_take|]. apply Forall_forall. intros s Hs.
    unfold strings_of in Hs. apply list_elem_of_In, in_map_iff in Hs as (p & <- & _). by destruct (_ =? 0)%Z. }
  destruct (merlin_encode mem (Some data) cb_type buf BODY) as [n b].
  destruct (kept _ _ _) as [ks o]. destruct He as (Hlb & Hmod & Ho & HnB & Hf & Hk). cbn [fst] in *.
  unfold merlin_decode. rewrite (proj2 (Z.eqb_neq ds 0)), (proj2 (Z.eqb_neq (Z.of_nat n) 0)), Hly, Hn, firstn_all by lia. cbn [orb].
  assert (Hlt : length (take n b) = n) by (rewrite length_take; lia).
  assert (Hgt : forall p, p ∈ hi_ptrs hi -> get_ptr p (take n b) = get_ptr p b).
  { intros p Hpp. unfold get_ptr, num. rewrite field_take; [done|]. rewrite Forall_forall in Hp. specialize (Hp p Hpp). lia. }
  rewrite <- BODY_Z in Hds2.
  pose proof (decode_strings_spec ds (Z.of_nat n) (hi_offset hi) (hi_ptrs hi) 0 (take n b) 0 ltac:(lia) ltac:(lia) ltac:(lia) ltac:(lia) Hp Ha) as H.
  destruct (decode_strings _ _ _ _ _ _) as [r b']. destruct H as (-> & Hl' & Hf' & Hg').
  { apply Forall_forall. intros p Hpp. rewrite Hgt by done. apply list_elem_of_lookup in Hpp as [i Hi].
    destruct (Forall2_lookup_l _ _ _ _ _ Hk Hi) as (k & _ & Hk'). apply encoded_pointer in Hk'; [lia|done]. }
  split_and!; [lia|done|done| |].
  - intros a k Hak Haw. rewrite Hf', field_take, Hf; (done || lia).
  - apply Forall2_same_length_lookup. split; [by eapply Forall2_length|]. intros i p k Hi Hki.
    pose proof (Forall2_lookup_lr _ _ _ _ _ _ Hk Hi Hki) as He. rewrite Forall_forall in Hg'. rewrite Forall_forall in Hnul.
    specialize (Hg' p (list_elem_of_lookup_2 _ _ _ Hi)). rewrite Hgt in Hg' by by eapply list_elem_of_lookup_2.
    destruct (encoded_pointer _ _ _ _ _ Hpos He) as [_ Hz]. destruct k as [s|]; cbn [decoded].
    + destruct (get_ptr p b =? 0)%Z eqn:Ez; [apply Z.eqb_eq in Ez; discriminate (proj1 Hz Ez)|].
      destruct He as (o' & Heq & Hlo & Hhi & Hs). exists o'. rewrite Heq in Hg'. split_and!; [done|lia|].
      apply string_at_c_str; [|exact (Hnul _ (list_elem_of_lookup_2 _ _ _ Hki))].
      unfold string_at. rewrite Hf'; [by rewrite field_take by lia|].
      intros q Hq. rewrite Forall_forall in Hp. specialize (Hp q Hq). lia.
    + by rewrite (proj2 Hz eq_refl) in Hg'.
Qed.

(** What is kept of a string is a prefix of it. *)
Lemma kept_prefix mem ptrs data buflen : forall offset,
  Forall2 (fun p k => (get_ptr p data = 0%Z -> k = None) /\
    (forall s, k = Some s -> s `prefix_of` mem (get_ptr p data))) ptrs
    (kept (strings_of mem ptrs data) buflen offset).1.
Proof.
  induction ptrs as [|p ps IH]; intros offset; cbn [strings_of map kept]; [constructor|].
  fold (strings_of mem ps data). destruct (get_ptr p data =? 0)%Z eqn:E; cbn [kept].
  - specialize (IH offset). destruct (kept _ _ _) as [ks o]. constructor; [done|exact IH].
  - apply Z.eqb_neq in E. destruct (buflen <=? offset).
    + cbn [fst map]. constructor; [done|]. unfold strings_of. rewrite map_map. clear. induction ps; by constructor.
    + set (s := take _ (mem _)). specialize (IH (offset + length s + 1)). destruct (kept _ _ _) as [ks o].
      constructor; [|exact IH]. split; [done|]. intros t [= <-]. apply prefix_take.
Qed.

(** C31.  Encoding and decoding preserve an event.  When the structure and its strings fit in the
    body of a packet, the receiver, wherever its packet lies in memory, finds through every
    pointer of the structure the string the sender had there, NULL where the sender had
    NULL, and every other byte of the structure as it was; decoding reports no error. *)
Theorem codec_roundtrip mem data cb_type hi buf ds :
  layout_of cb_type = Some hi -> 0 < hi_offset hi -> length data = hi_offset hi -> length buf = BODY ->
  c_memory mem -> user_address ds ->
  hi_offset hi + room (strings_of mem (hi_ptrs hi) data) <= BODY ->
  let '(n, b) := merlin_encode mem (Some data) cb_type buf BODY in
  let '(r, b') := merlin_decode ds (Z.of_nat n) cb_type (take n b) in
  r = 0%Z /\ Forall2 (decoded ds b') (hi_ptrs hi) (strings_of mem (hi_ptrs hi) data) /\
  (forall k, k < hi_offset hi -> away k 1 (hi_ptrs hi) -> b' !! k = data !! k).
Proof.
  intros Hly Hpos Hd Hb Hmem Hds Hroom. pose proof (codec_trip mem data cb_type hi buf ds Hly Hpos Hd Hb Hmem Hds) as H.
  rewrite kept_all in H by done. destruct (merlin_encode _ _ _ _ _) as [n b], (merlin_decode _ _ _ _) as [r b'].
  destruct H as (_ & _ & Hr & Hf & Hk). split_and!; [done|done|]. intros k Hlt Haw.
  specialize (Hf k 1 ltac:(lia) Haw). apply (f_equal (fun l => l !! 0)) in Hf. rewrite !lookup_field, !Nat.add_0_r in Hf. exact Hf.
Qed.

(** C32.  Whatever the strings, encoding stays inside the body of the packet and gives a length
    that is a multiple of eight and at most the size of the body; decoding reports no error
    and finds, for each pointer, a prefix of the sender's string or NULL, and NULL wherever
    the sender had NULL. *)
Theorem codec_truncates mem data cb_type hi buf ds :
  layout_of cb_type = Some hi -> 0 < hi_offset hi -> length data = hi_offset hi -> length buf = BODY ->
  c_memory mem -> user_address ds ->
  let '(n, b) := merlin_encode mem (Some data) cb_type buf BODY in
  let '(r, b') := merlin_decode ds (Z.of_nat n) cb_type (take n b) in
  length b = BODY /\ n <= BODY /\ n mod 8 = 0 /\ r = 0%Z /\
  forall p, p ∈ hi_ptrs hi -> exists k, decoded ds b' p k /\
    (get_ptr p data = 0%Z -> k = None) /\ (forall s, k = Some s -> s `prefix_of` mem (get_ptr p data)).
Proof.
  intros Hly Hpos Hd Hb Hmem Hds. pose proof (codec_trip mem data cb_type hi buf ds Hly Hpos Hd Hb Hmem Hds) as H.
  pose proof (merlin_encode_spec mem data cb_type hi buf Hly Hd Hb) as He.
  pose proof (kept_prefix mem (hi_ptrs hi) data BODY (hi_offset hi)) as Hpre.
  destruct (merlin_encode _ _ _ _ _) as [n b], (merlin_decode _ _ _ _) as [r b'].
  destruct (kept _ _ _) as [ks o]. destruct He as (Hlb & _). destruct H as (H1 & H2 & H3 & _ & H4). cbn [fst] in *.
  split_and!; [done..|]. intros p Hp. apply list_elem_of_lookup in Hp as [i Hi].
  destruct (Forall2_lookup_l _ _ _ _ _ H4 Hi) as (k & Hk & Hdec). exists k. split; [done|].
  exact (Forall2_lookup_lr _ _ _ _ _ _ Hpre Hi Hk).
Qed.

End Codec.

(** ** A machine *)

(** The position of a member among the strings of its structure. *)
Fixpoint position (f : string) (fs : list string) : nat :=
  match fs with [] => 0 | g :: fs => if String.eqb f g then 0 else S (position f fs) end.

Definition members (st : string) : list string :=
  match List.find (fun e => String.eqb e.1.1 st) hook_table with Some e => e.2 | None => [] end.

(** Structures that start with 32 bytes of numbers and continue with their strings. *)
Definition demo_structs : CStructs.
Proof.
  refine {| sizeof st := 32 + 8 * length (members st);
            offsetof st f := 32 + 8 * position f (members st);
            NEBCALLBACK_NUMITEMS := 26 |}.
  assert (H : Forall (fun e => String.eqb e.1.1 "" || layout_ok (32 + 8 * length (members e.1.1))
    (map (fun f => 32 + 8 * position f (members e.1.1)) e.2) = true) hook_table).
  { repeat constructor. }
  intros st k fs Hin Hne. rewrite Forall_forall in H. specialize (H _ Hin). cbn [fst snd] in H.
  apply orb_true_iff in H as [H|H]; [by apply String.eqb_eq in H|exact H].
Defined.
#[local] Existing Instance demo_structs.

(** A flapping event of the service "load" of host "h0" : the pointers 1000 and 2000. *)
Definition demo_mem (a : Z) : list byte :=
  if (a =? 1000)%Z then [Byte.x68; Byte.x30]
  else if (a =? 2000)%Z then [Byte.x6c; Byte.x6f; Byte.x61; Byte.x64] else [].
Definition demo_flapping : list byte := replicate 32 Byte.x07 ++ le_split 8 1000 ++ le_split 8 2000.
Definition demo_layout : hook_info_struct := HookInfo 2 48 [32; 40].

Lemma demo_c_memory : c_memory demo_mem.
Proof. intros a. unfold demo_mem. repeat case_match; repeat constructor; discriminate. Qed.

Lemma codec_roundtrip_witness :
  let '(n, b) := merlin_encode demo_mem (Some demo_flapping) 10 (replicate BODY Byte.x00) BODY in
  let '(r, b') := merlin_decode 4096 (Z.of_nat n) 10 (take n b) in
  r = 0%Z /\ Forall2 (decoded 4096 b') [32; 40]
    [Some [Byte.x68; Byte.x30]; Some [Byte.x6c; Byte.x6f; Byte.x61; Byte.x64]] /\
  (forall k, k < 48 -> away k 1 [32; 40] -> b' !! k = demo_flapping !! k).
Proof.
  apply (codec_roundtrip demo_mem demo_flapping 10 demo_layout (replicate BODY Byte.x00) 4096).
  - reflexivity.
  - cbn. lia.
  - reflexivity.
  - apply length_replicate.
  - exact demo_c_memory.
  - split; [lia|reflexivity].
  - change (56 <= BODY). apply Nat2Z.inj_le. rewrite BODY_Z. discriminate.
Defined.

Lemma codec_truncates_witness :
  let '(n, b) := merlin_encode demo_mem (Some demo_flapping) 10 (replicate BODY Byte.x00) BODY in
  let '(r, b') := merlin_decode 4096 (Z.of_nat n) 10 (take n b) in
  length b = BODY /\ n <= BODY /\ n mod 8 = 0 /\ r = 0%Z /\
  forall p, p ∈ [32; 40] -> exists k, decoded 4096 b' p k /\
    (get_ptr p demo_flapping = 0%Z -> k = None) /\
    (forall s, k = Some s -> s `prefix_of` demo_mem (get_ptr p demo_flapping)).
Proof.
  apply (codec_truncates demo_mem demo_flapping 10 demo_layout (replicate BODY Byte.x00) 4096).
  - reflexivity.
  - cbn. lia.
  - reflexivity.
  - apply length_replicate.
  - exact demo_c_memory.
  - split; [lia|reflexivity].
Defined.

(** ** Where the code goes wrong *)

(** A received command (an int and one pointer) with the given offset in place of the pointer. *)
Definition received (ptr : Z) : list byte := replicate 4 Byte.x00 ++ le_split 8 ptr ++ replicate 4 Byte.x00.

(** The check of an offset against the length of the packet lets the length itself pass, one byte
    beyond the end, and, being a comparison of signed numbers, every offset from 2^63 on: the
    string of a forged packet may lie anywhere before the packet. *)
Theorem decode_accepts_wild_offsets :
  let '(r1, b1) := merlin_decode 4096 16 RUNCMD_PACKET (received 16) in
  let '(r2, b2) := merlin_decode 4096 16 RUNCMD_PACKET (received (2 ^ 64 - 1000)) in
  r1 = 0%Z /\ get_ptr 4 b1 = (4096 + 16)%Z /\ r2 = 0%Z /\ get_ptr 4 b2 = (4096 - 1000)%Z.
Proof. vm_compute. auto. Qed.
