(* ===== verification/Checks.v ===== *)
(** * Who runs a check, and checks that never came: module/module.c

    The node that last ran the check of each object, with the number of checks per node,
    and the expiry of checks: every check is given a time, and when no result has come by
    then the object is expired and counted against the node that should have run it. *)

From S2P Require Import Prelude Merlin Pgroup.

(** ** Operations *)

Definition get_checks : M checks := gets m_checks.
Definition on_checks (f : checks -> checks) : M unit := modify (fun s => s <| m_checks ::= f |>).

(** [node->host_checks] or [node->service_checks], of a node and of untracked_checks_node. *)
Definition add_checks (t : check_type) (d : Z) (node : merlin_node) : merlin_node :=
  match t with
  | HOST_CHECK => node <| n_host_checks ::= fun c => u32 (c + d) |>
  | SERVICE_CHECK => node <| n_service_checks ::= fun c => u32 (c + d) |>
  end.

Definition add_untracked (t : check_type) (d : Z) (u : Z * Z) : Z * Z :=
  match t with HOST_CHECK => (u32 (u.1 + d), u.2) | SERVICE_CHECK => (u.1, u32 (u.2 + d)) end.

(** module/module.c:73-144 set_host_check_node -- and set_service_check_node; the log lines apart,
    for which alone the flags and the responsible node are used. *)
Definition set_check_node (n : nat) (o : object) : M unit :=
  ck ← get_checks;
  let old := ck_node ck !! o in
  if bool_decide (old = Some n) then mret tt else
  (match old with
   | Some m => on_node m (add_checks o.1 (-1))
   | None => on_checks (fun ck => ck <| ck_untracked ::= add_untracked o.1 (-1) |>)
   end) ;;
  on_node n (add_checks o.1 1) ;;
  on_checks (fun ck => ck <| ck_node ::= <[o := n]> |>).

(** [node->assigned.expired.hosts] or [.services], an int32_t. *)
Definition add_expired (t : check_type) (d : Z) (node : merlin_node) : merlin_node :=
  node <| expired ::= fun a => match t with
    | HOST_CHECK => a <| hosts ::= fun c => s32 (c + d) |>
    | SERVICE_CHECK => a <| services ::= fun c => s32 (c + d) |> end |>.

(** module/module.c:146-188 unexpire_host -- and unexpire_service.  destroy_event frees the event. *)
Definition unexpire (o : object) : M unit :=
  ck ← get_checks;
  (match ck_expired ck !! o with
   | Some last =>
       on_node (ex_node last) (add_expired o.1 (-1)) ;;
       on_checks (fun ck => ck <| ck_events ::= List.filter (fun x => negb (bool_decide (x = o))) |>
                               <| ck_expired ::= delete o |>)
   | None => mret tt
   end) ;;
  on_checks (fun ck => ck <| ck_expiry ::= delete o |>).

(** module/module.c:190-290 expire_event -- of an event that was not cancelled: [last_check] is that
    of the object, [window] its check_window, [start] Naemon's event_start. *)
Definition expire_event (evt : merlin_expired_check) (last_check window start : Z) : M unit :=
  let o := (ex_type evt, ex_object evt) in
  on_checks (fun ck => ck <| ck_expiry ::= delete o |>) ;;
  ck ← get_checks;
  let last := ck_expired ck !! o in
  let previous_check_time := ex_added evt - window in
  if (previous_check_time <? start) || (previous_check_time <=? last_check) then
    (match last with Some l => on_node (ex_node l) (add_expired o.1 (-1)) | None => mret tt end) ;;
    unexpire o
  else
  match last with
  | Some l =>
      if bool_decide (ex_node l = ex_node evt) then mret tt else
      on_node (ex_node l) (add_expired o.1 (-1)) ;;
      on_node (ex_node evt) (add_expired o.1 1) ;;
      on_checks (fun ck => ck <| ck_expired ::= <[o := evt]> |>)
  | None =>
      on_checks (fun ck => ck <| ck_events ::= cons o |>) ;;
      on_node (ex_node evt) (add_expired o.1 1) ;;
      on_checks (fun ck => ck <| ck_expired ::= <[o := evt]> |>)
  end.

(** module/module.c:292-330 schedule_expiration_event -- [timeout] and [interval] are those of the
    check; returns the delay the event is scheduled with, if it is. *)
Definition schedule_expiration_event (n : nat) (o : object) (timeout interval : Z) : M (option Z) :=
  ck ← get_checks;
  if bool_decide (is_Some (ck_expiry ck !! o)) then mret None else
  now ← time_now;
  node ← get_node n;
  on_checks (fun ck => ck <| ck_expiry ::= <[o := ExpiredCheck n o.2 now o.1]> |>) ;;
  mret (Some (timeout + interval + data_timeout node)).

(** ** Counting *)

(** The entries of a map that satisfy [P]. *)
Definition count {A} (P : object -> A -> bool) (m : gmap object A) : Z :=
  Z.of_nat (size (filter (fun kv => P kv.1 kv.2 = true) m)).

Definition one (b : bool) : Z := if b then 1 else 0.

Lemma count_insert {A} (P : object -> A -> bool) o x m :
  count P (<[o := x]> m) = one (P o x) + count P (delete o m).
Proof.
  unfold count. rewrite <- insert_delete_eq. set (m' := delete o m).
  assert (Hm : m' !! o = None) by apply lookup_delete_eq.
  destruct (P o x) eqn:E.
  - rewrite map_filter_insert_True by done. rewrite map_size_insert_None; [cbn [one]; lia|].
    apply map_lookup_filter_None. left. done.
  - rewrite map_filter_insert_False by (cbn; congruence). by rewrite delete_id.
Qed.

Lemma count_delete {A} (P : object -> A -> bool) o y m :
  m !! o = Some y -> count P m = one (P o y) + count P (delete o m).
Proof. intros H. rewrite <- (insert_id m o y H) at 1. rewrite count_insert. done. Qed.

Lemma count_delete_None {A} (P : object -> A -> bool) o m :
  m !! o = None -> count P (delete o m) = count P m.
Proof. intros H. by rewrite delete_id. Qed.

(** ** The owners of the checks *)

(** Equality of sums modulo 2^32. *)
Ltac modular := unfold u32; repeat (rewrite Zminus_mod_idemp_l || rewrite Zplus_mod_idemp_l); f_equal; lia.

Definition tally (t : check_type) (node : merlin_node) : Z :=
  match t with HOST_CHECK => n_host_checks node | SERVICE_CHECK => n_service_checks node end.
Definition untracked (t : check_type) (ck : checks) : Z :=
  match t with HOST_CHECK => (ck_untracked ck).1 | SERVICE_CHECK => (ck_untracked ck).2 end.

(** The objects of a type that a node owns, and those that anybody owns. *)
Definition owned (t : check_type) (n : nat) (ck : checks) : Z :=
  count (fun o m => bool_decide (o.1 = t) && bool_decide (m = n)) (ck_node ck).
Definition tracked (t : check_type) (ck : checks) : Z := count (fun o _ => bool_decide (o.1 = t)) (ck_node ck).

(** The counters are exact, modulo the width of an unsigned int. *)
Definition owners_ok (s : merlin) : Prop :=
  (forall t n, tally t (m_nodes s !!! n) = u32 (owned t n (m_checks s))) /\
  (forall t, untracked t (m_checks s) = u32 (- tracked t (m_checks s))).

Lemma tally_add t t' d node :
  tally t (add_checks t' d node) = if bool_decide (t = t') then u32 (tally t node + d) else tally t node.
Proof. by destruct t, t'. Qed.

Lemma untracked_add t t' d u :
  untracked t u = match t with HOST_CHECK => (ck_untracked u).1 | SERVICE_CHECK => (ck_untracked u).2 end /\
  match t with HOST_CHECK => (add_untracked t' d (ck_untracked u)).1 | SERVICE_CHECK => (add_untracked t' d (ck_untracked u)).2 end
  = if bool_decide (t = t') then u32 (untracked t u + d) else untracked t u.
Proof. by destruct t, t'. Qed.

(** The effect of an assignment on the nodes, and none on the tables. *)
Lemma on_node_checks n f s : exists s', on_node n f s = (tt, s') /\ m_checks s' = m_checks s /\ m_now s' = m_now s /\
  forall k, m_nodes s' !!! k = if bool_decide (k = n) then f (m_nodes s !!! n) else m_nodes s !!! k.
Proof.
  exists (on_node n f s).2. split_and!; [done..|]. intros k. rewrite node_on_node.
  case_decide; [by rewrite bool_decide_eq_true_2|by rewrite bool_decide_eq_false_2].
Qed.

(** What [set_check_node] does to the counters. *)
Lemma set_check_node_spec n o s :
  ck_node (m_checks s) !! o <> Some n ->
  let s' := (set_check_node n o s).2 in
  ck_node (m_checks s') = <[o := n]> (ck_node (m_checks s)) /\
  (forall t k, tally t (m_nodes s' !!! k) =
     let before := tally t (m_nodes s !!! k) in
     let less := if bool_decide (t = o.1) && bool_decide (ck_node (m_checks s) !! o = Some k) then u32 (before - 1) else before in
     if bool_decide (t = o.1) && bool_decide (k = n) then u32 (less + 1) else less) /\
  (forall t, untracked t (m_checks s') =
     if bool_decide (t = o.1) && bool_decide (ck_node (m_checks s) !! o = None)
     then u32 (untracked t (m_checks s) - 1) else untracked t (m_checks s)).
Proof.
  intros Hne. cbn zeta. unfold set_check_node, get_checks, gets, mbind, ST_bind, mret, ST_ret.
  rewrite (bool_decide_eq_false_2 _ Hne). destruct (ck_node (m_checks s) !! o) as [m|] eqn:Eo.
  - destruct (on_node_checks m (add_checks o.1 (-1)) s) as (s1 & -> & Hc1 & _ & Hn1).
    destruct (on_node_checks n (add_checks o.1 1) s1) as (s2 & -> & Hc2 & _ & Hn2).
    unfold on_checks, modify. cbn [m_checks m_nodes ck_node ck_untracked untracked snd upd eta_rec]. rewrite Hc2, Hc1.
    split_and!; [done| |].
    + intros t k. rewrite Hn2. assert (m <> n) as Hmn by congruence.
      destruct (decide (k = n)) as [->|Hk].
      * rewrite (bool_decide_eq_true_2 (n = n)), andb_true_r, tally_add, Hn1, (bool_decide_eq_false_2 (n = m)) by congruence.
        rewrite (bool_decide_eq_false_2 (Some m = Some n)), andb_false_r by congruence. done.
      * rewrite (bool_decide_eq_false_2 (k = n)), andb_false_r, Hn1 by done. destruct (decide (k = m)) as [->|Hkm].
        -- rewrite (bool_decide_eq_true_2 (m = m)), (bool_decide_eq_true_2 (Some m = Some m)), andb_true_r by done.
           by rewrite tally_add.
        -- rewrite (bool_decide_eq_false_2 (k = m)), (bool_decide_eq_false_2 (Some m = Some k)), andb_false_r by congruence. done.
    + intros t. by rewrite (bool_decide_eq_false_2 (Some m = None)), andb_false_r by done.
  - destruct (on_node_checks n (add_checks o.1 1) (on_checks (fun ck => ck <| ck_untracked ::= add_untracked o.1 (-1) |>) s).2)
      as (s2 & E2 & Hc2 & _ & Hn2).
    unfold on_checks, modify in *. cbn [snd] in *. rewrite E2.
    cbn [m_checks m_nodes ck_node ck_untracked untracked snd upd eta_rec] in *. rewrite Hc2. cbn [ck_node ck_untracked].
    split_and!; [done| |].
    + intros t k. rewrite Hn2. rewrite (bool_decide_eq_false_2 (None = Some k)), andb_false_r by done.
      destruct (decide (k = n)) as [->|Hk].
      * by rewrite (bool_decide_eq_true_2 (n = n)), andb_true_r, tally_add by done.
      * by rewrite (bool_decide_eq_false_2 (k = n)), andb_false_r by done.
    + intros t. rewrite (bool_decide_eq_true_2 (None = None)), andb_true_r by done.
      apply (untracked_add t o.1 (-1) (m_checks s)).
Qed.

(** C33.  The numbers of checks per node are exact: handing the check of an object to a node moves
    one unit from the previous owner (or the untracked checks) to the new one, so
    that at all times a node's counter is the number of objects whose check it ran last, and the
    object now belongs to that node. *)
Theorem check_owners_exact n o s :
  owners_ok s -> owners_ok (set_check_node n o s).2 /\ ck_node (m_checks (set_check_node n o s).2) !! o = Some n.
Proof.
  intros [Ht Hu]. destruct (decide (ck_node (m_checks s) !! o = Some n)) as [E|E].
  { unfold set_check_node, get_checks, gets, mbind, ST_bind, mret, ST_ret. rewrite bool_decide_eq_true_2 by done. done. }
  destruct (set_check_node_spec n o s E) as (H1 & H2 & H3). split; [|rewrite H1; apply lookup_insert_eq].
  set (c := ck_node (m_checks s)) in *. split.
  - intros t k. rewrite H2, Ht. unfold owned. rewrite H1, count_insert. fold c. cbn [fst].
    set (P := fun (o : object) (m : nat) => bool_decide (o.1 = t) && bool_decide (m = k)).
    assert (HP : forall x, P o x = bool_decide (o.1 = t) && bool_decide (x = k)) by done.
    destruct (c !! o) as [m|] eqn:Eo.
    + rewrite (count_delete P o m c Eo). rewrite ?HP. rewrite !(bool_decide_ext (t = o.1) (o.1 = t)) by done.
      rewrite (bool_decide_ext (Some m = Some k) (m = k)), (bool_decide_ext (k = n) (n = k)) by (split; congruence).
      destruct (bool_decide (o.1 = t)), (bool_decide (m = k)) eqn:E1, (bool_decide (n = k)) eqn:E2; cbn [andb one]; modular.
    + rewrite <- (count_delete_None P o c Eo). rewrite (bool_decide_ext (t = o.1) (o.1 = t)) by done.
      rewrite (bool_decide_eq_false_2 (None = Some k)), andb_false_r by done.
      rewrite (bool_decide_ext (k = n) (n = k)) by (split; congruence). rewrite ?HP.
      destruct (bool_decide (o.1 = t)), (bool_decide (n = k)); cbn [andb one]; modular.
  - intros t. rewrite H3, Hu. unfold tracked. rewrite H1, count_insert. fold c. cbn [fst].
    set (P := fun (o : object) (_ : nat) => bool_decide (o.1 = t)).
    assert (HP : forall x, P o x = bool_decide (o.1 = t)) by done. rewrite (bool_decide_ext (t = o.1) (o.1 = t)) by done.
    destruct (c !! o) as [m|] eqn:Eo.
    + rewrite (bool_decide_eq_false_2 (Some m = None)), andb_false_r by done.
      by rewrite (count_delete P o m c Eo).
    + rewrite (bool_decide_eq_true_2 (None = None)), andb_true_r by done. rewrite <- (count_delete_None P o c Eo).
      rewrite ?HP. destruct (bool_decide (o.1 = t)); cbn [one]; modular.
Qed.

(** ** Expired checks *)

Definition lapsed (t : check_type) (node : merlin_node) : Z :=
  match t with HOST_CHECK => hosts (expired node) | SERVICE_CHECK => services (expired node) end.

(** The expired objects of a type that are counted against a node. *)
Definition missed (t : check_type) (n : nat) (m : gmap object merlin_expired_check) : Z :=
  count (fun o e => bool_decide (o.1 = t) && bool_decide (ex_node e = n)) m.

(** The counters are exact, and the list holds each expired object once. *)
Definition expired_ok (s : merlin) : Prop :=
  (forall t n, lapsed t (m_nodes s !!! n) = missed t n (ck_expired (m_checks s))) /\
  NoDup (ck_events (m_checks s)) /\
  (forall o, o ∈ ck_events (m_checks s) <-> is_Some (ck_expired (m_checks s) !! o)).

(** There is room for one more in an int32_t. *)
Definition expired_room (s : merlin) : Prop := Z.of_nat (size (ck_expired (m_checks s))) + 1 < 2 ^ 31.

Lemma lapsed_add t t' d node :
  lapsed t (add_expired t' d node) = if bool_decide (t = t') then s32 (lapsed t node + d) else lapsed t node.
Proof. by destruct t, t'. Qed.

Lemma count_range {A} (P : object -> A -> bool) m : 0 <= count P m <= Z.of_nat (size m).
Proof. unfold count. split; [lia|]. apply Nat2Z.inj_le, map_size_filter. Qed.

Lemma missed_range t n m : 0 <= missed t n m <= Z.of_nat (size m).
Proof. apply count_range. Qed.

Lemma missed_insert t n o e m :
  missed t n (<[o := e]> m) = one (bool_decide (o.1 = t) && bool_decide (ex_node e = n)) + missed t n (delete o m).
Proof. apply (count_insert (fun o e => bool_decide (o.1 = t) && bool_decide (ex_node e = n))). Qed.

Lemma missed_delete t n o e m :
  m !! o = Some e -> missed t n m = one (bool_decide (o.1 = t) && bool_decide (ex_node e = n)) + missed t n (delete o m).
Proof. apply (count_delete (fun o e => bool_decide (o.1 = t) && bool_decide (ex_node e = n))). Qed.

(** One unit off the counter of a node, as the object leaves the table. *)
Lemma uncount o e s s1 :
  expired_ok s -> expired_room s -> ck_expired (m_checks s) !! o = Some e ->
  (forall k, m_nodes s1 !!! k = if bool_decide (k = ex_node e) then add_expired o.1 (-1) (m_nodes s !!! ex_node e) else m_nodes s !!! k) ->
  forall t k, lapsed t (m_nodes s1 !!! k) = missed t k (delete o (ck_expired (m_checks s))).
Proof.
  intros (Hl & _) Hroom He Hn t k. rewrite Hn. pose proof (missed_range t k (ck_expired (m_checks s))) as Hr.
  pose proof (missed_range t k (delete o (ck_expired (m_checks s)))) as Hr'.
  pose proof (missed_delete t k o e _ He) as Hm. unfold expired_room in Hroom.
  destruct (decide (k = ex_node e)) as [->|Hk].
  - rewrite bool_decide_eq_true_2, lapsed_add, Hl by done.
    rewrite (bool_decide_eq_true_2 (ex_node e = ex_node e)), andb_true_r in Hm by done.
    rewrite (bool_decide_ext (t = o.1) (o.1 = t)) by done.
    destruct (bool_decide (o.1 = t)); cbn [one] in Hm; [rewrite s32_small; lia|lia].
  - rewrite bool_decide_eq_false_2, Hl by done.
    rewrite (bool_decide_eq_false_2 (ex_node e = k)), andb_false_r in Hm by congruence. cbn [one] in Hm. lia.
Qed.

(** One unit on the counter of a node, as the object enters the table. *)
Lemma recount o e m (nodes nodes1 : gmap nat merlin_node) :
  m !! o = None -> Z.of_nat (size m) + 1 < 2 ^ 31 ->
  (forall t k, lapsed t (nodes !!! k) = missed t k m) ->
  (forall k, nodes1 !!! k = if bool_decide (k = ex_node e) then add_expired o.1 1 (nodes !!! ex_node e) else nodes !!! k) ->
  forall t k, lapsed t (nodes1 !!! k) = missed t k (<[o := e]> m).
Proof.
  intros Ho Hroom Hl Hn t k. rewrite Hn, missed_insert, (delete_id m o Ho). pose proof (missed_range t k m) as Hr.
  destruct (decide (k = ex_node e)) as [->|Hk].
  - rewrite bool_decide_eq_true_2, andb_true_r, lapsed_add, Hl by done.
    rewrite (bool_decide_ext (t = o.1) (o.1 = t)) by done.
    destruct (bool_decide (o.1 = t)); cbn [one]; [rewrite s32_small; lia|lia].
  - rewrite bool_decide_eq_false_2, Hl by done.
    rewrite (bool_decide_eq_false_2 (ex_node e = k)), andb_false_r by congruence. done.
Qed.

Lemma on_checks_spec f s : exists s', on_checks f s = (tt, s') /\ m_nodes s' = m_nodes s /\ m_checks s' = f (m_checks s).
Proof. by exists (on_checks f s).2. Qed.

Lemma unexpire_ok o s : expired_ok s -> expired_room s -> expired_ok (unexpire o s).2.
Proof.
  intros Hok Hroom. pose proof Hok as (Hl & Hnd & Hev).
  unfold unexpire, get_checks, gets, mbind, ST_bind, mret, ST_ret.
  destruct (ck_expired (m_checks s) !! o) as [e|] eqn:Eo; [|done].
  destruct (on_node_checks (ex_node e) (add_expired o.1 (-1)) s) as (s1 & -> & Hc1 & _ & Hn1).
  match goal with |- context [on_checks ?f s1] => destruct (on_checks_spec f s1) as (s2 & -> & Hn2 & Hc2) end.
  match goal with |- context [on_checks ?f s2] => destruct (on_checks_spec f s2) as (s3 & -> & Hn3 & Hc3) end.
  unfold expired_ok. cbn [snd]. rewrite Hc3, Hc2, Hn3, Hn2, Hc1. cbn [ck_events ck_expired upd eta_rec]. split_and!.
  - exact (uncount o e s s1 Hok Hroom Eo Hn1).
  - apply NoDup_ListNoDup, List.NoDup_filter. by apply NoDup_ListNoDup.
  - intros x. rewrite list_elem_of_In, List.filter_In, <- list_elem_of_In, Hev, negb_true_iff, bool_decide_eq_false.
    destruct (decide (x = o)) as [->|Hne].
    + rewrite lookup_delete_eq. split; [tauto|]. intros H%is_Some_None. done.
    + rewrite lookup_delete_ne by congruence. tauto.
Qed.

(** Whether an expiry finds that the check came after all, while the object is still listed. *)
Definition late_recovery (evt : merlin_expired_check) (last_check window start : Z) (s : merlin) : bool :=
  ((ex_added evt - window <? start) || (ex_added evt - window <=? last_check)) &&
  bool_decide (is_Some (ck_expired (m_checks s) !! (ex_type evt, ex_object evt))).

Lemma expire_event_ok evt last_check window start s :
  expired_ok s -> expired_room s -> late_recovery evt last_check window start s = false ->
  expired_ok (expire_event evt last_check window start s).2.
Proof.
  intros Hok Hroom Hlate. set (o := (ex_type evt, ex_object evt)).
  unfold expire_event. fold o. unfold mbind at 1, ST_bind at 1.
  destruct (on_checks _ s) as [u1 s1] eqn:E1.
  assert (Hs1 : m_nodes s1 = m_nodes s /\ ck_expired (m_checks s1) = ck_expired (m_checks s) /\ ck_events (m_checks s1) = ck_events (m_checks s)).
  { change s1 with (u1, s1).2. by rewrite <- E1. }
  clear E1. destruct Hs1 as (Hn & Hx & He).
  assert (Hok1 : expired_ok s1) by (unfold expired_ok; by rewrite Hn, Hx, He).
  assert (Hroom1 : expired_room s1) by (unfold expired_room; by rewrite Hx).
  unfold late_recovery in Hlate. fold o in Hlate. rewrite <- Hx in Hlate. clear Hn Hx He Hok Hroom.
  unfold get_checks, gets. unfold mbind at 1, ST_bind at 1. destruct (_ || _) eqn:Ec.
  { cbn [andb] in Hlate. apply bool_decide_eq_false in Hlate.
    destruct (ck_expired (m_checks s1) !! o) as [l|] eqn:Eo; [exfalso; apply Hlate; by eexists|]. by apply unexpire_ok. }
  pose proof Hok1 as (Hl & Hnd & Hev). destruct (ck_expired (m_checks s1) !! o) as [l|] eqn:Eo.
  - destruct (bool_decide (ex_node l = ex_node evt)); [done|].
    unfold mbind, ST_bind.
    destruct (on_node_checks (ex_node l) (add_expired o.1 (-1)) s1) as (s2 & -> & Hc2 & _ & Hn2).
    destruct (on_node_checks (ex_node evt) (add_expired o.1 1) s2) as (s3 & -> & Hc3 & _ & Hn3).
    match goal with |- context [on_checks ?f s3] => destruct (on_checks_spec f s3) as (s4 & -> & Hn4 & Hc4) end.
    unfold expired_ok. cbn [snd]. rewrite Hc4, Hc3, Hc2, Hn4. cbn [ck_events ck_expired upd eta_rec]. split_and!; [|done|].
    + rewrite <- (insert_delete_eq _ o evt). eapply recount; [apply lookup_delete_eq| | |exact Hn3].
      * unfold expired_room in Hroom1. rewrite map_size_delete, Eo. lia.
      * exact (uncount o l s1 s2 Hok1 Hroom1 Eo Hn2).
    + intros x. rewrite Hev. destruct (decide (x = o)) as [->|Hne]; [rewrite lookup_insert_eq, Eo|rewrite lookup_insert_ne by congruence; done].
      split; by eexists.
  - unfold mbind, ST_bind.
    match goal with |- context [on_checks ?f s1] => destruct (on_checks_spec f s1) as (s2 & -> & Hn2 & Hc2) end.
    destruct (on_node_checks (ex_node evt) (add_expired o.1 1) s2) as (s3 & -> & Hc3 & _ & Hn3).
    match goal with |- context [on_checks ?f s3] => destruct (on_checks_spec f s3) as (s4 & -> & Hn4 & Hc4) end.
    unfold expired_ok. cbn [snd]. rewrite Hc4, Hc3, Hc2, Hn4. cbn [ck_events ck_expired upd eta_rec]. split_and!.
    + eapply recount; [exact Eo|exact Hroom1|exact Hl|]. rewrite <- Hn2. exact Hn3.
    + constructor; [|done]. rewrite Hev, Eo. by intros H%is_Some_None.
    + intros x. rewrite elem_of_cons, Hev. destruct (decide (x = o)) as [->|Hne].
      * rewrite lookup_insert_eq. split; [by eexists|by left].
      * rewrite lookup_insert_ne by congruence. split; [by intros [?|?]|by right].
Qed.

(** The numbers of expired checks are exact: scheduling an expiry, a check result that
    comes in, and an expiry (whether it finds a new orphan, one that moved to another node
    or one already counted) keep each node's counter equal to the number of
    objects listed as expired against it, and the list free of repetitions.  The one exception
    is an expiry that finds the check has come while the object is still listed. *)
Theorem expired_counts_exact s :
  expired_ok s -> expired_room s ->
  (forall o, expired_ok (unexpire o s).2 /\ ck_expired (m_checks (unexpire o s).2) !! o = None) /\
  (forall n o timeout interval, expired_ok (schedule_expiration_event n o timeout interval s).2) /\
  (forall evt last_check window start, late_recovery evt last_check window start s = false ->
     expired_ok (expire_event evt last_check window start s).2).
Proof.
  intros Hok Hroom. split_and!.
  - intros o. split; [by apply unexpire_ok|].
    unfold unexpire, get_checks, gets, mbind, ST_bind, mret, ST_ret, on_checks, modify.
    destruct (ck_expired (m_checks s) !! o) as [e|] eqn:Eo; [|exact Eo].
    destruct (on_node _ _ s) as [u s1]. apply lookup_delete_eq.
  - intros n o timeout interval. unfold schedule_expiration_event, get_checks, gets, mbind, ST_bind.
    destruct (bool_decide _); exact Hok.
  - intros evt lc w st. by apply expire_event_ok.
Qed.

(** ** A small installation *)

(** What holds of every node in the store, and of a node that is not, holds of all. *)
Lemma total_forall (P : merlin_node -> Prop) (m : gmap nat merlin_node) :
  P zero_node -> map_Forall (fun _ x => P x) m -> forall n, P (m !!! n).
Proof.
  intros H0 Hm n. rewrite lookup_total_alt. destruct (m !! n) as [x|] eqn:E; [exact (Hm n x E)|exact H0].
Qed.

Lemma demo_owners : owners_ok demo0.
Proof.
  split; [|by intros []]. intros t n. change (owned t n (m_checks demo0)) with 0.
  cut (n_host_checks (m_nodes demo0 !!! n) = 0 /\ n_service_checks (m_nodes demo0 !!! n) = 0).
  { intros [H1 H2]. by destruct t. }
  apply (total_forall (fun x => n_host_checks x = 0 /\ n_service_checks x = 0)); [done|].
  apply (bool_decide_unpack _). vm_compute. exact I.
Qed.

Lemma demo_expired : expired_ok demo0.
Proof.
  split_and!; [|constructor|].
  - intros t n. change (missed t n (ck_expired (m_checks demo0))) with 0.
    cut (hosts (expired (m_nodes demo0 !!! n)) = 0 /\ services (expired (m_nodes demo0 !!! n)) = 0).
    { intros [H1 H2]. by destruct t. }
    apply (total_forall (fun x => hosts (expired x) = 0 /\ services (expired x) = 0)); [done|].
    apply (bool_decide_unpack _). vm_compute. exact I.
  - intros o. change (ck_expired (m_checks demo0)) with (∅ : gmap object merlin_expired_check). rewrite lookup_empty.
    split; [by intros H%not_elem_of_nil|by intros H%is_Some_None].
Qed.

Lemma check_owners_exact_witness :
  let s' := (set_check_node 1 (HOST_CHECK, 2) demo0).2 in
  owners_ok s' /\ ck_node (m_checks s') !! (HOST_CHECK, 2) = Some 1%nat.
Proof. exact (check_owners_exact 1 (HOST_CHECK, 2) demo0 demo_owners). Defined.

(** The check of host 2 by node 1, which never came. *)
Definition demo_evt : merlin_expired_check := ExpiredCheck 1 2 900 HOST_CHECK.

Lemma expired_counts_exact_witness :
  expired_ok (expire_event demo_evt 0 100 0 demo0).2 /\
  lapsed HOST_CHECK (m_nodes (expire_event demo_evt 0 100 0 demo0).2 !!! 1%nat) = 1.
Proof.
  split; [|vm_compute; reflexivity].
  exact (proj2 (proj2 (expired_counts_exact demo0 demo_expired eq_refl)) demo_evt 0 100 0 eq_refl).
Defined.

(** ** Where the code goes wrong *)

(** An expiry that finds the check has come, of an object that is listed as expired, takes one
    unit off the node itself and another one in [unexpire_host]: the counter becomes negative. *)
Theorem late_recovery_counts_twice :
  let s := (expire_event demo_evt 0 100 0 demo0).2 in
  let s' := (expire_event (demo_evt <| ex_added := 950 |>) 960 100 0 s).2 in
  lapsed HOST_CHECK (m_nodes s !!! 1%nat) = 1 /\
  lapsed HOST_CHECK (m_nodes s' !!! 1%nat) = -1 /\ ck_events (m_checks s') = [].
Proof. vm_compute. auto. Qed.
