(* ===== verification/Hooks.v ===== *)
(** * Naemon's events: module/hooks.c

    What the module does when Naemon is about to run a check, has processed one, is about to
    notify or to run an event handler: who acts, and which nodes are told.  The bodies of
    the packets are what shared/codec.c makes of Naemon's structures; they are arguments. *)

From S2P Require Import Prelude Binlog Packet Io Merlin Pgroup Node Control Checks.

Definition MAGIC_NONET : Z := 0xffff.
Definition DEST_BROADCAST : Z := 0xffff.
Definition DEST_MAGIC : Z := 0xfff0.
Definition DEST_POLLERS : Z := DEST_MAGIC + 2.
Definition DEST_PEERS : Z := DEST_MAGIC + 4.
Definition DEST_MASTERS : Z := DEST_MAGIC + 8.
Definition DEST_PEERS_MASTERS : Z := Z.lor DEST_PEERS DEST_MASTERS.

(** What a hook tells Naemon. *)
Inductive neb_result := NebRet (r : Z) | NEBERROR_CALLBACKCANCEL | NEBERROR_CALLBACKOVERRIDE.

(** The stages of a check, of a notification and of an event handler. *)
Inductive check_stage := CHECK_PRECHECK | CHECK_PROCESSED | CHECK_OTHER.
Inductive notification_stage := NOTIFICATION_START | NOTIFICATION_END | NOTIFICATION_OTHER.

Section Hooks.
Context {QS : QSort} {SD : Sodium} {NC : NebCallbacks}.

Definition get_hooks : M hooks_state := gets m_hooks.
Definition on_hooks (f : hooks_state -> hooks_state) : M unit := modify (fun s => s <| m_hooks ::= f |>).

(** ** Selections *)

(** The nodes of a selection; none for an id that is not valid; or what lies behind the table. *)
Inductive selected := NoSelection | Selected (ns : list nat) | Beyond.

(** shared/node.c:176-182 nodes_by_sel_id -- the id one past the last passes the test and reads beyond the table. *)
Definition nodes_by_sel_id (sel : Z) (s : merlin) : selected :=
  if (sel <? 0) || (Z.of_nat (length (hk_selections (m_hooks s))) <? sel) then NoSelection
  else match hk_selections (m_hooks s) !! Z.to_nat sel with
       | Some x => if bool_decide (sel_nodes x = []) then NoSelection else Selected (sel_nodes x)
       | None => Beyond
       end.

(** shared/node.c:192-205 get_sel_id *)
Definition get_sel_id (name : option (list ascii)) (s : merlin) : Z :=
  match name with
  | None => -1
  | Some nm =>
      match list_find (fun x => sel_name x = nm) (hk_selections (m_hooks s)) with
      | Some (i, _) => Z.of_nat i
      | None => -1
      end
  end.

(** module/hooks.c:170-175 get_selection -- of a host. *)
Definition get_selection (host : string) (s : merlin) : Z :=
  match hk_host_sel (m_hooks s) !! host with
  | Some i => Z.land (Z.of_nat i) 0xffff
  | None => DEST_PEERS_MASTERS
  end.

(** ** Sending *)

(** module/hooks.c:39-64 is_dupe *)
Definition is_dupe (pkt : merlin_event) : M bool :=
  hk ← get_hooks;
  let last := hk_last_pkt hk in
  if negb (hk_check_dupes hk) then mret false else
  if negb (h_type (hdr last) =? h_type (hdr pkt)) then mret false else
  if negb (packet_size last =? packet_size pkt) then mret false else
  if bool_decide (pkt_bytes last = pkt_bytes pkt) then
    on_hooks (fun hk => hk <| hk_dupes ::= fun d => u64 (d + 1) |>
      <| hk_dupe_bytes ::= fun b => u64 (b + packet_size pkt) |>) ;; mret true
  else mret false.

(** What the header of a packet says about where it goes: nowhere, to everyone the module
    marked it for, or to masters and peers and a selection of pollers. *)
Inductive route := To (ns : list nat) | ToSelection (ns : list nat) | ToUnknown | ToBeyond.

(** module/hooks.c:108-168 send_generic -- the nodes a packet is for. *)
Definition route_of (pkt : merlin_event) (s : merlin) : route :=
  let sel := h_selection (hdr pkt) in
  if num_nodes s =? 0 then To []
  else if h_code (hdr pkt) =? MAGIC_NONET then To []
  else if Z.land sel 0xfff0 =? 0xfff0 then
    To ((if Z.land sel DEST_MASTERS =? DEST_MASTERS then masters s else []) ++
        (if Z.land sel DEST_PEERS =? DEST_PEERS then peers s else []) ++
        (if Z.land sel DEST_POLLERS =? DEST_POLLERS then pollers s else []))
  else if (sel =? CTRL_GENERIC) && (h_type (hdr pkt) =? CTRL_PACKET) then
    To (take (Z.to_nat (num_nodes s)) (m_table s))
  else if (num_masters s +u num_peers s =? num_nodes s) || (num_pollers s =? 0) then
    To (take (Z.to_nat (num_masters s +u num_peers s)) (m_table s))
  else match nodes_by_sel_id sel s with
       | NoSelection => ToUnknown
       | Selected l => ToSelection l
       | Beyond => ToBeyond
       end.

(** module/hooks.c:66-168 send_generic -- [enc] is the encoded event.  The test of line 78, of
    [!pkt->hdr.code] against MAGIC_NONET, never holds.  A packet for an unknown selection
    still goes to masters and peers, and so does one for what lies behind the table of selections, before the
    behaviour is undefined. *)
Definition send_generic (pkt : merlin_event) (enc : list byte) : M Z :=
  s ← gets (fun s => s);
  let wants := daemon_wants (h_type (hdr pkt)) in
  if ((num_nodes s =? 0) || (h_code (hdr pkt) =? MAGIC_NONET)) && negb wants then mret 0 else
  let pkt := Event ((hdr pkt) <| h_len := Z.of_nat (length enc) |>) enc in
  if bool_decide (enc = []) then mret (-1) else
  dupe ← is_dupe pkt;
  if dupe : bool then mret 0 else
  '(result, pkt) ← (if wants then
      '(r, pkt) ← ipc_send_event pkt;
      on_hooks (fun hk => hk <| hk_last_pkt := if r <? 0 then Event blank_hdr [] else pkt |>) ;;
      mret (r, pkt)
    else mret (0, pkt));
  s ← gets (fun s => s);
  let higher := take (Z.to_nat (num_masters s +u num_peers s)) (m_table s) in
  match route_of pkt s with
  | To ns => sendto_all ns pkt ;; mret 0
  | ToSelection ns => sendto_all (higher ++ ns) pkt ;; mret result
  | ToUnknown => sendto_all higher pkt ;; mret (-1)
  | ToBeyond => sendto_all higher pkt ;; on_hooks (fun hk => hk <| hk_undefined := true |>) ;; mret (-1)
  end.

(** module/hooks.c:184-231 send_host_status -- and send_service_status; [enc] is the encoded status. *)
Definition send_status (t : check_type) (pkt : merlin_event) (id : Z) (enc : list byte) : M Z :=
  on_hooks (fun hk => if bool_decide (hk_last_obj hk !! t = Some id) then hk <| hk_check_dupes := true |>
    else hk <| hk_check_dupes := false |> <| hk_last_obj ::= <[t := id]> |>) ;;
  send_generic pkt enc.

(** module/hooks.c:248-272 hold_notification_packet -- [enc] is the encoded notification. *)
Definition hold_notification_packet (pkt : merlin_event) (enc : list byte) : M Z :=
  hk ← get_hooks;
  match hk_held hk with
  | Some _ => mret (-1)
  | None => on_hooks (fun hk => hk <| hk_held := Some (pkt, enc) |>) ;; mret 0
  end.

(** module/hooks.c:279-305 flush_notification *)
Definition flush_notification : M Z :=
  hk ← get_hooks;
  match hk_held hk with
  | None => mret (-1)
  | Some (pkt, enc) =>
      send_generic pkt enc ;; on_hooks (fun hk => hk <| hk_held := None |>) ;; mret 0
  end.

(** ** Who acts *)

(** module/hooks.c:233-236 should_run_check *)
Definition should_run_check (s : merlin) (id : Z) : bool :=
  assigned_peer id (i_active_peers (self_of s) +u 1) =? peer_id (ipc_of s).

(** module/hooks.c:311-321 pgroup_num_notify *)
Definition pgroup_num_notify (s : merlin) (n : nat) : Z :=
  let pg := group_of s n in
  Z.of_nat (length (List.filter (fun m => has_flag (flags (m_nodes s !!! m)) MERLIN_NODE_NOTIFIES)
    (take (Z.to_nat (pg_active_nodes pg)) (pg_nodes pg)))).

(** The node an object belongs to. *)
Definition owner (t : check_type) (id : Z) : M nat :=
  match t with HOST_CHECK => pgroup_host_node id | SERVICE_CHECK => pgroup_service_node id end.

(** module/hooks.c:327-442 hook_service_result -- and hook_host_result.  [h] is the host of the
    object, [end_time] when the check ended, [enc] the encoded status. *)
Definition hook_result (t : check_type) (stage : check_stage) (pkt : merlin_event) (id : Z) (h : host)
    (timeout interval end_time : Z) (enc : list byte) : M neb_result :=
  match stage with
  | CHECK_PRECHECK =>
      node ← owner t id;
      schedule_expiration_event node (t, id) timeout interval ;;
      hk ← get_hooks;
      if negb (bool_decide (node = IPC)) then mret NEBERROR_CALLBACKCANCEL
      else if node_blocked_hostgroup node (hk_blocked hk) true h then mret NEBERROR_CALLBACKCANCEL
      else on_hooks (fun hk => hk <| hk_self ::= fun c => <[t := u64 ((c !!! t) + 1)]> c |>) ;; mret (NebRet 0)
  | CHECK_PROCESSED =>
      let pkt := pkt <| hdr ::= fun h => h <| h_selection := DEST_PEERS_MASTERS |> |> in
      unexpire (t, id) ;;
      on_hooks (fun hk => hk <| hk_last_check ::= <[(t, id) := end_time]> |>) ;;
      hk ← get_hooks;
      match hk_sender hk, hk_recv hk with
      | Some sender, Some ty =>
          if (ty =? NEBCALLBACK_CHECK_DATA t) || (ty =? NEBCALLBACK_STATUS_DATA t) then
            set_check_node sender (t, id) ;; mret (NebRet 0)
          else
            set_check_node IPC (t, id) ;;
            ret ← send_status t pkt id enc; flush_notification ;; mret (NebRet ret)
      | _, _ =>
          set_check_node IPC (t, id) ;;
          ret ← send_status t pkt id enc; flush_notification ;; mret (NebRet ret)
      end
  | CHECK_OTHER => mret (NebRet 0)
  end.

(** module/hooks.c:925-937 hook_contact_notification_method *)
Definition hook_contact_notification_method (stage : notification_stage) (pkt : merlin_event) (enc : list byte) : M neb_result :=
  match stage with
  | NOTIFICATION_END =>
      r ← send_generic (pkt <| hdr ::= fun h => h <| h_selection := DEST_PEERS_MASTERS |> |>) enc; mret (NebRet r)
  | _ => mret (NebRet 0)
  end.

(** module/hooks.c:948-978 hook_event_handler -- [start] tells the start of a handler. *)
Definition hook_event_handler (start : bool) (t : check_type) (id : Z) : M neb_result :=
  if negb start then mret (NebRet 0) else
  node ← owner t id;
  mret (if bool_decide (node = IPC) then NebRet 0 else NEBERROR_CALLBACKOVERRIDE).

(** One more in a cell of merlin_notify_stats. *)
Definition count_notification (key : Z * check_type * Z) (f : merlin_notify_stats -> merlin_notify_stats) : M unit :=
  on_hooks (fun hk => hk <| hk_stats ::= fun m => <[key := f (default (NotifyStats 0 0 0 0 0) (m !! key))]> m |>).

(** module/hooks.c:1048-1111 hook_notification -- at the start of a notification; [reason] and [ck] are
    the reason and the type of the last check. *)
Definition notification_start (t : check_type) (id reason ck : Z) : M neb_result :=
  node ← owner t id;
  s ← gets (fun s => s);
  let key := (reason, t, ck) in
  let own := m_nodes s !!! node in
  let sent := count_notification key (fun n => n <| ns_sent ::= fun c => u64 (c + 1) |>) ;; mret (NebRet 0) in
  let peer := count_notification key (fun n => n <| ns_peer ::= fun c => u64 (c + 1) |>) ;; mret NEBERROR_CALLBACKCANCEL in
  if negb (i_active_masters (self_of s) =? 0) && negb (has_flag (flags (ipc_of s)) MERLIN_NODE_NOTIFIES) then
    count_notification key (fun n => n <| ns_master ::= fun c => u64 (c + 1) |>) ;; mret NEBERROR_CALLBACKCANCEL
  else if bool_decide (node = IPC) then sent
  else if type own =?s MODE_POLLER then
    if has_flag (flags own) MERLIN_NODE_NOTIFIES then
      count_notification key (fun n => n <| ns_poller ::= fun c => u64 (c + 1) |>) ;; mret NEBERROR_CALLBACKCANCEL
    else if ((num_peers s =? 0) || should_run_check s id) && (pgroup_num_notify s node =? 0) then sent
    else peer
  else if type own =?s MODE_PEER then peer
  else sent.

(** module/hooks.c:985-1112 hook_notification -- [custom] tells NOTIFICATION_CUSTOM; [enc] is the
    encoded notification. *)
Definition hook_notification (stage : notification_stage) (t : check_type) (id reason ck : Z) (custom : bool)
    (pkt : merlin_event) (enc : list byte) : M neb_result :=
  match stage with
  | NOTIFICATION_END =>
      s ← gets (fun s => s);
      let hk := m_hooks s in
      let pkt := pkt <| hdr ::= fun h => h <| h_selection := DEST_PEERS_MASTERS |> |> in
      match hk_sender hk, hk_recv hk with
      | Some sender, Some ty =>
          let pkt := if ty =? NEBCALLBACK_EXTERNAL_COMMAND_DATA then pkt
            else pkt <| hdr ::= fun h => h <| h_selection := u16 (get_sel_id (hostgroups (m_nodes s !!! sender)) s) |> |> in
          r ← send_generic pkt enc; mret (NebRet r)
      | _, _ =>
          r ← (if custom then send_generic pkt enc else hold_notification_packet pkt enc); mret (NebRet r)
      end
  | NOTIFICATION_START => notification_start t id reason ck
  | NOTIFICATION_OTHER => mret (NebRet 0)
  end.

(** ** One of us *)

(** How the peer with number [i] of [k] sees an installation in which all peers are up: its
    own group is numbered, it is there under its number, and everybody else is a peer. *)
Record peer_view (k i : Z) (s : merlin) : Prop := {
  pv_pos : 0 < k;
  pv_group : group_ok s (default 0%nat (pgroup (m_nodes s !!! IPC)));
  pv_active : pg_active_nodes (m_pgroups s !!! default 0%nat (pgroup (m_nodes s !!! IPC))) = k;
  pv_numbered : forall j n, pg_nodes (m_pgroups s !!! default 0%nat (pgroup (m_nodes s !!! IPC))) !! j = Some n ->
    peer_id (m_nodes s !!! n) = Z.of_nat j /\ (n <> IPC -> type (m_nodes s !!! n) = MODE_PEER);
  pv_self : IPC ∈ pg_nodes (m_pgroups s !!! default 0%nat (pgroup (m_nodes s !!! IPC)));
  pv_id : peer_id (m_nodes s !!! IPC) = i;
  pv_peers : i_active_peers (self_of s) = k - 1;
  pv_small : k < 2 ^ 32 }.

(** The host [id] is checked by the peers themselves. *)
Definition own_host (id : Z) (s : merlin) : Prop :=
  let g := default 0%nat (pgroup (m_nodes s !!! IPC)) in
  host_group s id = g /\ pg_host_id_table (m_pgroups s !!! g) = None.

Lemma own_host_node k i id s :
  peer_view k i s -> own_host id s ->
  exists n, pgroup_host_node id s = (n, s) /\ (n = IPC <-> id mod k = i) /\
    (n <> IPC -> type (m_nodes s !!! n) = MODE_PEER).
Proof.
  intros V [Hg Ht]. destruct V as [Hpos Hok Hact Hnum Hself Hid _ _]. rewrite host_node_eq, Hg, Ht. cbn zeta.
  set (g := default 0%nat _) in *. rewrite Hact. unfold assigned_peer. rewrite (proj2 (Z.eqb_neq k 0)) by lia.
  pose proof (Z.mod_pos_bound id k Hpos) as Hm. destruct Hok as [Hr Hk]. fold g in Hr. rewrite Hact in Hr.
  destruct (lookup_lt_is_Some_2 (pg_nodes (m_pgroups s !!! g)) (Z.to_nat (id mod k))) as [n Hn]; [lia|].
  rewrite (list_lookup_total_correct _ _ _ Hn). exists n. destruct (Hnum _ _ Hn) as [Hp Hty].
  split; [done|]. split; [|done]. split.
  - intros ->. lia.
  - intros E. apply list_elem_of_lookup in Hself as [j Hj]. destruct (Hnum _ _ Hj) as [Hpj _].
    assert (j = Z.to_nat (id mod k)) as -> by lia. congruence.
Qed.

(** What the precheck of a host, the start of its event handler and the start of a notification about it give Naemon. *)
Definition check_answer (s : merlin) (id : Z) (h : host) (pkt : merlin_event) (timeout interval : Z) : neb_result :=
  (hook_result HOST_CHECK CHECK_PRECHECK pkt id h timeout interval 0 [] s).1.
Definition handler_answer (s : merlin) (id : Z) : neb_result := (hook_event_handler true HOST_CHECK id s).1.
Definition notification_answer (s : merlin) (id reason ck : Z) (custom : bool) (pkt : merlin_event) (enc : list byte) : neb_result :=
  (hook_notification NOTIFICATION_START HOST_CHECK id reason ck custom pkt enc s).1.

Lemma schedule_nodes n o t v s :
  exists s', (schedule_expiration_event n o t v s).2 = s' /\ m_nodes s' = m_nodes s /\ m_hooks s' = m_hooks s.
Proof.
  eexists. split; [reflexivity|]. unfold schedule_expiration_event, get_checks, gets, mbind, ST_bind.
  by destruct (bool_decide _).
Qed.

Lemma check_owner s n id h pkt t v : pgroup_host_node id s = (n, s) ->
  check_answer s id h pkt t v =
  if bool_decide (n = IPC) && negb (node_blocked_hostgroup IPC (hk_blocked (m_hooks s)) true h) then NebRet 0 else NEBERROR_CALLBACKCANCEL.
Proof.
  intros Hn. unfold check_answer, hook_result, owner, get_hooks, gets, mbind, ST_bind, mret, ST_ret. rewrite Hn.
  destruct (schedule_nodes n (HOST_CHECK, id) t v s) as (s2 & E & _ & Hh).
  destruct (schedule_expiration_event n (HOST_CHECK, id) t v s) as [x s3]. cbn [snd] in E. subst s3. rewrite Hh.
  destruct (bool_decide_reflect (n = IPC)) as [->|]; [|done]. by destruct (node_blocked_hostgroup _ _ _ _).
Qed.

Lemma handler_owner s n id : pgroup_host_node id s = (n, s) ->
  handler_answer s id = if bool_decide (n = IPC) then NebRet 0 else NEBERROR_CALLBACKOVERRIDE.
Proof.
  intros Hn. unfold handler_answer, hook_event_handler, owner, mbind, ST_bind, mret, ST_ret. cbn [negb]. by rewrite Hn.
Qed.

(** Notifications are not left to the masters. *)
Definition may_notify (s : merlin) : bool :=
  (i_active_masters (self_of s) =? 0) || has_flag (flags (ipc_of s)) MERLIN_NODE_NOTIFIES.

Lemma notification_answer_eq s n id reason ck custom pkt enc :
  pgroup_host_node id s = (n, s) ->
  notification_answer s id reason ck custom pkt enc =
  if negb (may_notify s) then NEBERROR_CALLBACKCANCEL
  else if bool_decide (n = IPC) then NebRet 0
  else if type (m_nodes s !!! n) =?s MODE_POLLER then
    if has_flag (flags (m_nodes s !!! n)) MERLIN_NODE_NOTIFIES then NEBERROR_CALLBACKCANCEL
    else if ((num_peers s =? 0) || should_run_check s id) && (pgroup_num_notify s n =? 0) then NebRet 0
    else NEBERROR_CALLBACKCANCEL
  else if type (m_nodes s !!! n) =?s MODE_PEER then NEBERROR_CALLBACKCANCEL else NebRet 0.
Proof.
  intros Hn. unfold notification_answer, hook_notification, notification_start, owner, gets, mbind, ST_bind, mret, ST_ret. rewrite Hn.
  unfold may_notify. rewrite negb_orb. destruct (_ && negb _); [done|].
  destruct (bool_decide (n = IPC)); [done|]. destruct (_ =?s MODE_POLLER).
  - destruct (has_flag (flags (m_nodes s !!! n)) _); [done|]. by destruct (_ && _).
  - by destruct (_ =?s MODE_PEER).
Qed.

(** C35.  In a group of peers that are all connected, every host of their own is looked after by one
    of them and by one only: there is one peer that lets the checks of the host run, but those of host groups it blocks, runs
    its event handlers and, unless notifications are left to its masters, sends its notifications, for every reason, every type of
    check and also custom ones; every other peer cancels each of these checks and notifications and overrides the handlers. *)
Theorem host_handled_once (views : list merlin) id h pkt timeout interval :
  views <> [] ->
  (forall i s, views !! i = Some s -> peer_view (Z.of_nat (length views)) (Z.of_nat i) s /\ own_host id s) ->
  exists i, (i < length views)%nat /\ forall j s, views !! j = Some s ->
    check_answer s id h pkt timeout interval =
      (if bool_decide (j = i) && negb (node_blocked_hostgroup IPC (hk_blocked (m_hooks s)) true h) then NebRet 0 else NEBERROR_CALLBACKCANCEL) /\
    handler_answer s id = (if bool_decide (j = i) then NebRet 0 else NEBERROR_CALLBACKOVERRIDE) /\
    forall reason ck custom pkt' enc, notification_answer s id reason ck custom pkt' enc =
      if bool_decide (j = i) && may_notify s then NebRet 0 else NEBERROR_CALLBACKCANCEL.
Proof.
  intros Hne Hv. set (k := Z.of_nat (length views)).
  assert (Hk : 0 < k) by (unfold k; destruct views; [done|cbn; lia]).
  pose proof (Z.mod_pos_bound id k Hk) as Hm. exists (Z.to_nat (id mod k)). split; [lia|].
  intros j s Hj. destruct (Hv j s Hj) as (V & Ho). fold k in V.
  destruct (own_host_node k (Z.of_nat j) id s V Ho) as (n & Hn & Hipc & Hty).
  assert (bool_decide (j = Z.to_nat (id mod k)) = bool_decide (n = IPC)) as -> by (apply bool_decide_ext; rewrite Hipc; lia).
  rewrite (check_owner s n id h pkt timeout interval Hn), (handler_owner s n id Hn). split_and!; [done..|].
  intros reason ck custom pkt' enc. rewrite (notification_answer_eq s n id reason ck custom pkt' enc Hn).
  destruct (may_notify s); cbn [negb]; [|by rewrite andb_false_r]. rewrite andb_true_r.
  destruct (bool_decide_reflect (n = IPC)) as [|Hnn]; [done|]. by rewrite (Hty Hnn).
Qed.

(** The host belongs to a poller that is up. *)
Definition poller_host (id : Z) (n : nat) (s : merlin) : Prop :=
  pgroup_host_node id s = (n, s) /\ n <> IPC /\ type (m_nodes s !!! n) = MODE_POLLER.

(** Of connected peers the one whose number the id of the host gives notifies about it. *)
Lemma should_run_numbered k j s id : peer_view k (Z.of_nat j) s -> num_peers s = k - 1 -> 0 < k -> 0 <= id mod k < k -> Z.of_nat j < k ->
  (num_peers s =? 0) || should_run_check s id = bool_decide (j = Z.to_nat (id mod k)).
Proof.
  intros V Hpeers Hk Hm Hlt. unfold should_run_check, assigned_peer, ipc_of. rewrite (pv_peers _ _ _ V), (pv_id _ _ _ V).
  pose proof (pv_small _ _ _ V). rewrite u32_small by lia. replace (k - 1 + 1) with k by lia.
  rewrite (proj2 (Z.eqb_neq k 0)) by lia. destruct (num_peers s =? 0) eqn:E; cbn [orb].
  - apply Z.eqb_eq in E. rewrite bool_decide_eq_true_2; [done|]. assert (k = 1) as -> by lia. rewrite Z.mod_1_r. lia.
  - destruct (Z.eqb_spec (id mod k) (Z.of_nat j)); [rewrite bool_decide_eq_true_2 by lia|rewrite bool_decide_eq_false_2 by lia]; done.
Qed.

(** C36.  A host that is checked by a poller is notified about once.  When the poller sends
    notifications itself, each of its masters cancels them all.  When neither it nor any active poller
    of its group does, and all masters are connected, there is one of them that sends the notifications, for every reason and type of
    check and also custom ones, unless it leaves them to masters of its own; each of the others cancels them all. *)
Theorem poller_host_notified_once (views : list merlin) id :
  views <> [] ->
  (forall i s, views !! i = Some s -> peer_view (Z.of_nat (length views)) (Z.of_nat i) s /\
    num_peers s = Z.of_nat (length views) - 1) ->
  ((forall i s, views !! i = Some s -> exists n, poller_host id n s /\
    has_flag (flags (m_nodes s !!! n)) MERLIN_NODE_NOTIFIES = true) ->
   forall i s reason ck custom pkt enc, views !! i = Some s ->
     notification_answer s id reason ck custom pkt enc = NEBERROR_CALLBACKCANCEL) /\
    ((forall i s, views !! i = Some s -> exists n, poller_host id n s /\
    has_flag (flags (m_nodes s !!! n)) MERLIN_NODE_NOTIFIES = false /\ pgroup_num_notify s n = 0) ->
   exists i, (i < length views)%nat /\ forall j s reason ck custom pkt enc, views !! j = Some s ->
     notification_answer s id reason ck custom pkt enc =
     if bool_decide (j = i) && may_notify s then NebRet 0 else NEBERROR_CALLBACKCANCEL).
Proof.
  intros Hne Hv. set (k := Z.of_nat (length views)) in *.
  assert (Hk : 0 < k) by (unfold k; destruct views; [done|cbn; lia]). split.
  - intros Hp i s reason ck custom pkt enc Hi. destruct (Hp i s Hi) as (n & (Hn & Hni & Hty) & Hfl).
    rewrite (notification_answer_eq s n id reason ck custom pkt enc Hn), bool_decide_eq_false_2, Hty, Hfl by done. by destruct (negb _).
  - intros Hp. pose proof (Z.mod_pos_bound id k Hk) as Hm. exists (Z.to_nat (id mod k)). split; [lia|].
    intros j s reason ck custom pkt enc Hj. destruct (Hp j s Hj) as (n & (Hn & Hni & Hty) & Hfl & Hnum). destruct (Hv j s Hj) as (V & Hpeers).
    rewrite (notification_answer_eq s n id reason ck custom pkt enc Hn), (bool_decide_eq_false_2 (n = IPC)), Hty, Hfl, Hnum by done.
    destruct (may_notify s); cbn [negb]; [|by rewrite andb_false_r]. rewrite andb_true_r.
    change (MODE_POLLER =?s MODE_POLLER) with true. cbv iota.
    rewrite (should_run_numbered k j s id V Hpeers Hk Hm); [by rewrite andb_true_r|]. apply lookup_lt_Some in Hj. unfold k. lia.
Qed.

(** ** Where a packet goes *)

(** What a computation returns, whatever the state. *)
Definition yields {A} (P : A -> Prop) (c : M A) : Prop := forall s, P (c s).1.

Lemma yields_ret {A} (P : A -> Prop) a : P a -> yields P (mret a).
Proof. intros H s. exact H. Qed.

Lemma yields_bind {A B} (Q : A -> Prop) (P : B -> Prop) (c : M A) k :
  yields Q c -> (forall a, Q a -> yields P (k a)) -> yields P (c ≫= k).
Proof. intros Hc Hk s. unfold mbind, ST_bind. specialize (Hc s). destruct (c s) as [a s1]. by apply Hk. Qed.

Lemma yields_any {A} (c : M A) : yields (fun _ => True) c.
Proof. done. Qed.

(** The body of a packet and the parts of its header that decide where it goes, which sending does not change. *)
Definition same_route (p : merlin_event) (rp : Z * merlin_event) : Prop :=
  h_selection (hdr rp.2) = h_selection (hdr p) /\ h_code (hdr rp.2) = h_code (hdr p) /\ h_type (hdr rp.2) = h_type (hdr p) /\ body rp.2 = body p.

Lemma node_send_route n pkt len : yields (same_route pkt) (node_send n pkt len).
Proof.
  unfold node_send. repeat (apply (yields_bind (fun _ => True)); [apply yields_any|intros ? _] || case_match); by apply yields_ret.
Qed.

Lemma node_send_event_route n pkt ms : yields (same_route pkt) (node_send_event n pkt ms).
Proof.
  unfold node_send_event. set (q := pkt <| hdr ::= _ |>).
  assert (Hq : forall r, same_route pkt (r, q)) by done.
  assert (Hqueue : yields (same_route pkt) (r ← node_binlog_add n q; mret (r, q))).
  { apply (yields_bind (fun _ => True)); [apply yields_any|]. intros r _. by apply yields_ret. }
  repeat lazymatch goal with
    | |- yields _ (node_send _ _ _ ≫= _) =>
        apply (yields_bind (same_route q)); [apply node_send_route|intros [result p] Hp]
    | |- yields _ (_ ≫= _) => first [exact Hqueue|apply (yields_bind (fun _ => True)); [apply yields_any|intros ? _]]
    | |- yields _ (if ?b then _ else _) => destruct b
    end; try (by apply yields_ret); try exact Hqueue; apply yields_ret; exact Hp.
Qed.

(** What decides the routes, and the node [m] but for its numbering. *)
Definition aside (m : nat) (x : merlin_node) (c : Z * Z * Z) (l : list nat) (sel : list node_selection) (s : merlin) : Prop :=
  strip (m_nodes s !!! m) = x /\ conf (self_of s) = c /\ m_table s = l /\ hk_selections (m_hooks s) = sel.

Lemma conf_count_info ty add i : conf (count_info ty add i) = conf i.
Proof. by destruct ty, i. Qed.

Section Aside.
Context (m : nat) (x : merlin_node) (c : Z * Z * Z) (l : list nat) (sel : list node_selection) (Hm : m <> IPC).

Lemma aside_ipc f : (forall n, conf (info (f n)) = conf (info n)) -> preserves (aside m x c l sel) (on_node IPC f).
Proof.
  intros Hf s (Hx & Hc & Ht). split_and!; [| |by destruct Ht..].
  - rewrite node_on_node, decide_False by done. exact Hx.
  - unfold self_of, ipc_of in *. rewrite node_on_node, decide_True, Hf by done. exact Hc.
Qed.

Lemma aside_modify f :
  (forall s, m_nodes (f s) = m_nodes s /\ m_hooks (f s) = m_hooks s /\ m_table (f s) = m_table s) ->
  preserves (aside m x c l sel) (modify f).
Proof.
  intros Hf. apply preserves_modify. intros s. unfold aside, self_of, ipc_of. by destruct (Hf s) as (-> & -> & ->).
Qed.

Lemma aside_lift_io {A} (k : ST io A) : preserves (aside m x c l sel) (lift_io k).
Proof. intros s. unfold aside, lift_io. by destruct (k (m_io s)). Qed.

Lemma aside_register fd : preserves (aside m x c l sel) (iobroker_register fd).
Proof. intros s. unfold iobroker_register. by destruct (fd <? 0). Qed.

Lemma aside_random : preserves (aside m x c l sel) random_nonce.
Proof. intros s. unfold random_nonce. by destruct (m_random s). Qed.

Lemma aside_socket : preserves (aside m x c l sel) ipc_socket.
Proof. intros s. unfold ipc_socket. by destruct (m_daemon s). Qed.

#[local] Hint Resolve aside_lift_io aside_register aside_random aside_socket : pres.
#[local] Hint Extern 5 (preserves (aside _ _ _ _ _) (on_node IPC _)) =>
  apply aside_ipc; intros []; solve [apply conf_count_info|repeat case_match; reflexivity] : pres.
#[local] Hint Extern 5 (preserves (aside _ _ _ _ _) (modify _)) => apply aside_modify; by intros : pres.

Lemma aside_log force : preserves (aside m x c l sel) (node_log_event_count IPC force).
Proof. unfold node_log_event_count. preserve. Qed.

#[local] Hint Resolve aside_log : pres.

Lemma aside_rest send st prev :
  preserves (aside m x c l sel) (send IPC) -> preserves (aside m x c l sel) (set_state_rest send IPC st prev).
Proof. intros H. unfold set_state_rest, ipc_action_handler. rewrite (bool_decide_eq_true_2 (IPC = IPC)) by done. preserve. Qed.

Lemma aside_body disc send st :
  preserves (aside m x c l sel) (disc IPC) -> preserves (aside m x c l sel) (send IPC) ->
  preserves (aside m x c l sel) (set_state_body disc send IPC st).
Proof. intros H1 H2. pose proof (aside_rest send). unfold set_state_body, get_node, time_now. preserve. Qed.

Lemma aside_disconnect : preserves (aside m x c l sel) (node_disconnect IPC).
Proof.
  pose proof (aside_body (fun _ => mret tt) (fun _ => mret tt) STATE_NONE (preserves_ret _ _) (preserves_ret _ _)).
  unfold node_disconnect, iobroker_close, iobroker_unregister, sys_close, set_state_none.
  rewrite (bool_decide_eq_true_2 (IPC = IPC)) by done. preserve.
Qed.

#[local] Hint Resolve aside_disconnect : pres.

Lemma aside_send pkt len : preserves (aside m x c l sel) (node_send IPC pkt len).
Proof. unfold node_send, node_encrypt. preserve. Qed.

#[local] Hint Resolve aside_send : pres.

Lemma aside_on_binlog {A} (d : A) f : preserves (aside m x c l sel) (on_binlog d IPC f).
Proof.
  intros s Hs. unfold on_binlog. destruct (node_binlog _) as [bl|]; [|done].
  destruct (f bl (m_world s)) as [[a bl'] w].
  lazymatch goal with |- aside _ _ _ _ _ (let '(_, _) := on_node IPC ?g s in _).2 =>
    pose proof (aside_ipc g (fun _ => eq_refl) s Hs) as H; destruct (on_node IPC g s) as [u s1] end.
  exact H.
Qed.

#[local] Hint Resolve aside_on_binlog : pres.

Lemma aside_binlog_add pkt : preserves (aside m x c l sel) (node_binlog_add IPC pkt).
Proof. unfold node_binlog_add, node_create_binlog, wipe. preserve. Qed.

Lemma aside_entries : preserves (aside m x c l sel) (entries IPC).
Proof. unfold entries. preserve. Qed.

#[local] Hint Resolve aside_binlog_add aside_entries : pres.

Lemma aside_loop fuel : forall pkt, preserves (aside m x c l sel) (send_binlog_loop fuel IPC pkt).
Proof.
  induction fuel as [|fuel IH]; intros pkt; [apply preserves_ret|].
  cbn [send_binlog_loop]. unfold send_binlog_failed, wipe. preserve.
Qed.

#[local] Hint Resolve aside_loop : pres.

Lemma aside_send_event pkt msec : preserves (aside m x c l sel) (node_send_event IPC pkt msec).
Proof. unfold node_send_event, node_send_binlog. preserve. Qed.

Lemma aside_set_state st : preserves (aside m x c l sel) (node_set_state IPC st).
Proof.
  unfold node_set_state. apply aside_body; [apply aside_disconnect|]. unfold node_send_ctrl_active, node_ctrl. preserve.
Qed.

#[local] Hint Resolve aside_send_event aside_set_state : pres.

Lemma aside_ipc_send_event pkt : preserves (aside m x c l sel) (ipc_send_event pkt).
Proof. unfold ipc_send_event, ipc_is_connected, ipc_reinit, ipc_init, ipc_deinit, sys_close. preserve. Qed.
End Aside.

(** The nodes a packet goes to. *)
Definition upper (s : merlin) : list nat := take (Z.to_nat (num_masters s +u num_peers s)) (m_table s).
Definition reached (pkt : merlin_event) (s : merlin) : list nat :=
  match route_of pkt s with To ns => ns | ToSelection ns => upper s ++ ns | ToUnknown | ToBeyond => upper s end.

Lemma aside_counts m x l sel s s' :
  aside m x (conf (self_of s)) l sel s' ->
  num_masters s' = num_masters s /\ num_peers s' = num_peers s /\ num_pollers s' = num_pollers s.
Proof. intros (_ & Hc & _). unfold num_masters, num_peers, num_pollers. by injection Hc. Qed.

Lemma route_stable m x pkt p r s s' :
  same_route pkt (r, p) -> aside m x (conf (self_of s)) (m_table s) (hk_selections (m_hooks s)) s' ->
  route_of p s' = route_of pkt s /\ upper s' = upper s.
Proof.
  intros (H1 & H2 & H3 & _) Ha. destruct (aside_counts _ _ _ _ _ _ Ha) as (Em & Ep & El). destruct Ha as (_ & _ & Ht & Hs).
  cbn [snd] in *. unfold route_of, upper, masters, peers, pollers, nodes_by_sel_id, num_nodes.
  by rewrite H1, H2, H3, Em, Ep, El, Ht, Hs.
Qed.

Lemma ipc_send_event_route pkt : yields (same_route pkt) (ipc_send_event pkt).
Proof.
  unfold ipc_send_event. do 3 (apply (yields_bind (fun _ => True)); [apply yields_any|intros ? _]).
  eapply yields_bind; [apply node_send_event_route|]. intros [r p] H. apply yields_ret. exact H.
Qed.

(** Masters, peers and pollers, as the counters have them, make up the table and are of these types; selections are of pollers. *)
Record routable (s : merlin) : Prop := Routable {
  ro_typed : table_typed s;
  ro_peers : forall n, n ∈ peers s -> type (m_nodes s !!! n) = MODE_PEER;
  ro_table : m_table s = masters s ++ peers s ++ pollers s;
  ro_masters : num_masters s = Z.of_nat (length (masters s));
  ro_num_peers : num_peers s = Z.of_nat (length (peers s));
  ro_pollers : num_pollers s = Z.of_nat (length (pollers s));
  ro_small : Z.of_nat (length (m_table s)) < 2 ^ 32;
  ro_selections : forall x n, x ∈ hk_selections (m_hooks s) -> n ∈ sel_nodes x -> n ∈ pollers s }.

(** The nodes a packet is meant for.  From 0xfff0 on a selection has a bit each for pollers, peers and masters; below it is the number of
    a group of pollers, and the packet is for all masters and peers and for the pollers of the group, or for all pollers when it is a control packet
    for group 0. *)
Definition meant_for (pkt : merlin_event) (s : merlin) (m : nat) : Prop :=
  let sel := h_selection (hdr pkt) in
  m ∈ m_table s /\ h_code (hdr pkt) <> MAGIC_NONET /\
  match type (m_nodes s !!! m) with
  | MODE_MASTER => 0xfff0 <= sel -> Z.testbit sel 3 = true
  | MODE_PEER => 0xfff0 <= sel -> Z.testbit sel 2 = true
  | MODE_POLLER =>
      0xfff0 <= sel /\ Z.testbit sel 1 = true \/
      sel = 0 /\ h_type (hdr pkt) = CTRL_PACKET \/
      exists x, sel < 0xfff0 /\ hk_selections (m_hooks s) !! Z.to_nat sel = Some x /\ m ∈ sel_nodes x
  | _ => False
  end.

Lemma magic_selection sel : 0 <= sel < 2 ^ 16 ->
  (Z.land sel 0xfff0 =? 0xfff0) = (0xfff0 <=? sel) /\
  (0xfff0 <= sel -> (Z.land sel DEST_MASTERS =? DEST_MASTERS) = Z.testbit sel 3 /\
     (Z.land sel DEST_PEERS =? DEST_PEERS) = Z.testbit sel 2 /\ (Z.land sel DEST_POLLERS =? DEST_POLLERS) = Z.testbit sel 1).
Proof.
  intros Hs. assert (Hb : 0xfff0 <= sel -> exists r, (r < 16)%nat /\ sel = 0xfff0 + Z.of_nat r) by (intros; exists (Z.to_nat (sel - 0xfff0)); lia).
  split.
  - destruct (Z.leb_spec 0xfff0 sel) as [H|H].
    + destruct (Hb H) as (r & Hr & ->). clear -Hr. do 16 (destruct r as [|r]; [reflexivity|]). lia.
    + apply Z.eqb_neq. intros E. assert (Z.land sel 0xfff0 <= sel); [|lia].
      rewrite (Z.land_comm sel). apply Z.ldiff_le; [lia|]. rewrite Z.ldiff_land. apply Z.bits_inj'. intros n Hn.
      rewrite !Z.land_spec, Z.lnot_spec, Z.bits_0 by done. by destruct (Z.testbit 0xfff0 n), (Z.testbit sel n).
  - intros H. destruct (Hb H) as (r & Hr & ->). clear -Hr. do 16 (destruct r as [|r]; [done|]). lia.
Qed.

Lemma upper_routable s : routable s -> upper s = masters s ++ peers s.
Proof.
  intros [_ _ Ht Hm Hp _ Hs _]. unfold upper. rewrite Ht in Hs |- *. rewrite !length_app in Hs.
  rewrite u32_small by lia. rewrite Hm, Hp, <- Nat2Z.inj_add, Nat2Z.id, <- length_app, app_assoc. apply take_app_length.
Qed.

(** The parts of the table are the nodes of a type. *)
Lemma parts_typed s m : routable s ->
  (m ∈ masters s <-> m ∈ m_table s /\ type (m_nodes s !!! m) = MODE_MASTER) /\
  (m ∈ peers s <-> m ∈ m_table s /\ type (m_nodes s !!! m) = MODE_PEER) /\
  (m ∈ pollers s <-> m ∈ m_table s /\ type (m_nodes s !!! m) = MODE_POLLER).
Proof.
  intros [(Tm & Tl & _) Tp Ht _ _ _ _ _]. rewrite Ht, !elem_of_app. pose proof (Tm m). pose proof (Tp m). pose proof (Tl m).
  split_and!; (split; [tauto|intros [[?|[?|?]] ?]; first [done|exfalso; intuition congruence]]).
Qed.

(** A poller is selected by its group. *)
Lemma selected_meant s sel : 0 <= sel -> sel <> Z.of_nat (length (hk_selections (m_hooks s))) ->
  match nodes_by_sel_id sel s with
  | NoSelection => forall x m, hk_selections (m_hooks s) !! Z.to_nat sel = Some x -> m ∉ sel_nodes x
  | Selected l => exists x, hk_selections (m_hooks s) !! Z.to_nat sel = Some x /\ l = sel_nodes x
  | Beyond => False
  end.
Proof.
  intros Hs Hne. unfold nodes_by_sel_id. rewrite (proj2 (Z.ltb_ge sel 0)) by done. cbn [orb].
  destruct (Z.ltb_spec (Z.of_nat (length (hk_selections (m_hooks s)))) sel) as [Hl|Hl].
  - intros x m Hx. apply lookup_lt_Some in Hx. lia.
  - destruct (lookup_lt_is_Some_2 (hk_selections (m_hooks s)) (Z.to_nat sel)) as [x Hx]; [lia|]. rewrite Hx.
    destruct (bool_decide_reflect (sel_nodes x = [])) as [E|]; [|eauto]. intros y m [= <-]. rewrite E. apply not_elem_of_nil.
Qed.

(** The pollers that a selection asks for. *)
Definition wanted_poller (pkt : merlin_event) (s : merlin) (m : nat) : Prop :=
  let sel := h_selection (hdr pkt) in
  0xfff0 <= sel /\ Z.testbit sel 1 = true \/ sel = 0 /\ h_type (hdr pkt) = CTRL_PACKET \/
  exists x, sel < 0xfff0 /\ hk_selections (m_hooks s) !! Z.to_nat sel = Some x /\ m ∈ sel_nodes x.

Lemma meant_parts pkt s m : routable s ->
  meant_for pkt s m <-> h_code (hdr pkt) <> MAGIC_NONET /\
    (m ∈ masters s /\ (0xfff0 <= h_selection (hdr pkt) -> Z.testbit (h_selection (hdr pkt)) 3 = true) \/
     m ∈ peers s /\ (0xfff0 <= h_selection (hdr pkt) -> Z.testbit (h_selection (hdr pkt)) 2 = true) \/
     m ∈ pollers s /\ wanted_poller pkt s m).
Proof.
  intros R. destruct (parts_typed s m R) as (-> & -> & ->). unfold meant_for. fold (wanted_poller pkt s m).
  destruct (type (m_nodes s !!! m)); intuition discriminate.
Qed.

(** The nodes that the code selects are those the packet is meant for. *)
Lemma reached_meant pkt s m : routable s -> 0 <= h_selection (hdr pkt) < 2 ^ 16 ->
  (0 < num_pollers s -> h_selection (hdr pkt) <> Z.of_nat (length (hk_selections (m_hooks s)))) ->
  m ∈ reached pkt s <-> meant_for pkt s m.
Proof.
  intros R Hs Hne. rewrite (meant_parts pkt s m R). pose proof (upper_routable s R) as Hu. destruct (magic_selection _ Hs) as [Hmag Hbits].
  destruct R as [_ _ Ht Em Ep El Hsm Hsel].
  assert (Hn : num_nodes s = Z.of_nat (length (m_table s)) /\ num_masters s +u num_peers s = Z.of_nat (length (masters s ++ peers s))).
  { unfold num_nodes. rewrite Em, Ep, El. rewrite Ht in Hsm |- *. rewrite !length_app in Hsm |- *. rewrite !u32_small, ?length_app; lia. }
  destruct Hn as [Hn Hmp]. unfold reached, route_of. fold (upper s). rewrite Hmag, Hu, Hn, Hmp. unfold wanted_poller.
  set (sel := h_selection (hdr pkt)) in *.
  assert (Hin : m ∈ m_table s <-> m ∈ masters s \/ m ∈ peers s \/ m ∈ pollers s) by (rewrite Ht, !elem_of_app; tauto).
  destruct (Z.eqb_spec (Z.of_nat (length (m_table s))) 0) as [H0|H0].
  { assert (m ∉ m_table s) by (destruct (m_table s); [apply not_elem_of_nil|cbn in H0; lia]). rewrite elem_of_nil. tauto. }
  destruct (Z.eqb_spec (h_code (hdr pkt)) MAGIC_NONET) as [Hc|Hc]; [rewrite elem_of_nil; tauto|].
  destruct (Z.leb_spec 0xfff0 sel) as [Hm|Hm].
  { destruct (Hbits Hm) as (-> & -> & ->). rewrite !elem_of_app.
    assert (forall (b : bool) (l : list nat), m ∈ (if b then l else []) <-> b = true /\ m ∈ l) as Hif
      by (intros [] l; rewrite ?elem_of_nil; intuition discriminate).
    assert (~ exists x, sel < 65520 /\ hk_selections (m_hooks s) !! Z.to_nat sel = Some x /\ m ∈ sel_nodes x) by (intros (x & ? & _); lia).
    assert (sel <> 0) by lia. rewrite !Hif. tauto. }
  assert (~ 65520 <= sel) as Hm' by lia. change CTRL_GENERIC with 0.
  destruct ((sel =? 0) && (h_type (hdr pkt) =? CTRL_PACKET)) eqn:Hg.
  { apply andb_true_iff in Hg as [?%Z.eqb_eq ?%Z.eqb_eq]. rewrite Nat2Z.id, firstn_all. tauto. }
  assert (~ (sel = 0 /\ h_type (hdr pkt) = CTRL_PACKET)) by (intros [E1 E2]; rewrite E1, E2 in Hg; done).
  destruct ((_ =? _) || (num_pollers s =? 0)) eqn:Ha.
  - assert (pollers s = []) as Hp.
    { apply nil_length_inv. apply orb_true_iff in Ha as [Ha|Ha]; apply Z.eqb_eq in Ha; [|lia]. rewrite Ht, !length_app in Ha. lia. }
    rewrite Hp, elem_of_nil, elem_of_app. tauto.
  - apply orb_false_iff in Ha as [_ Ha%Z.eqb_neq]. pose proof (selected_meant s sel ltac:(lia) (Hne ltac:(lia))) as Hsm'.
    destruct (nodes_by_sel_id sel s) as [|l|]; [..|done].
    + assert (~ exists x, sel < 65520 /\ hk_selections (m_hooks s) !! Z.to_nat sel = Some x /\ m ∈ sel_nodes x) by (intros (x & _ & ? & ?); by eapply Hsm').
      rewrite elem_of_app. tauto.
    + destruct Hsm' as (x & Hx & ->). assert ((exists y, sel < 65520 /\ hk_selections (m_hooks s) !! Z.to_nat sel = Some y /\ m ∈ sel_nodes y) <-> m ∈ sel_nodes x) as ->
        by (split; [intros (y & _ & Hy & ?); congruence|eauto]).
      assert (m ∈ sel_nodes x -> m ∈ pollers s) by (apply Hsel; by eapply list_elem_of_lookup_2). rewrite !elem_of_app. tauto.
Qed.

(** Sending, as handing one packet to some nodes. *)
Lemma send_generic_parts pkt enc s : let whole := Event ((hdr pkt) <| h_len := Z.of_nat (length enc) |>) enc in
  route_of pkt s <> ToBeyond ->
  exists ns p s1, (send_generic pkt enc s).2 = (sendto_all ns p s1).2 /\
    ((enc = [] \/ (is_dupe whole s).1 = true) /\ ns = [] \/ forall m, m ∈ ns <-> m ∈ reached pkt s) /\ same_route whole (0, p) /\
    (forall m, m <> IPC -> strip (m_nodes s1 !!! m) = strip (m_nodes s !!! m)).
Proof.
  intros p0 Hb. unfold send_generic, gets, mbind, ST_bind. cbv beta iota. fold p0.
  destruct (((num_nodes s =? 0) || _) && negb _) eqn:Eq.
  { apply andb_true_iff in Eq as [Eq _]. exists [], p0, s. split; [done|]. split; [right|done].
    intros m. unfold reached, route_of. destruct (num_nodes s =? 0); [done|]. cbn [orb] in Eq. by rewrite Eq. }
  destruct (bool_decide_reflect (enc = [])) as [He|He]; [exists [], p0, s; split; [done|]; split; [by auto|done]|].
  assert (H1 : (is_dupe p0 s).1 = true /\ m_nodes (is_dupe p0 s).2 = m_nodes s \/ (is_dupe p0 s).1 = false /\ forall m, aside m (strip (m_nodes s !!! m)) (conf (self_of s)) (m_table s) (hk_selections (m_hooks s)) (is_dupe p0 s).2).
  { unfold is_dupe, get_hooks, gets, mbind, ST_bind. cbv beta iota. repeat (destruct (negb _) || destruct (bool_decide _)); first [left; by split|right; by split]. }
  destruct (is_dupe p0 s) as [[] s1]; cbn [fst snd] in H1.
  { destruct H1 as [[_ H1]|[? _]]; [|done]. exists [], p0, s1. split; [done|]. split; [by auto|]. split; [done|]. intros m _. by rewrite H1. }
  destruct H1 as [[? _]|[_ H1]]; [done|].
  lazymatch goal with |- context [(let '(_, _) := ?c in _).2 = _] => destruct c as [[r p] s2] eqn:E2 end.
  assert (H2 : same_route p0 (r, p) /\ forall m, m <> IPC -> aside m (strip (m_nodes s !!! m)) (conf (self_of s)) (m_table s) (hk_selections (m_hooks s)) s2).
  { unfold mret, ST_ret in E2. destruct (daemon_wants _); [|injection E2 as <- <- <-; by auto].
    pose proof (ipc_send_event_route p0 s1) as Hs. pose proof (fun m Hm => aside_ipc_send_event m _ _ _ _ Hm p0 s1 (H1 m)) as Hp.
    destruct (ipc_send_event p0 s1) as [[r' p'] s']. cbn in Hs, Hp. injection E2 as <- <- <-. split; [exact Hs|exact Hp]. }
  destruct H2 as [Hp H2]. destruct (route_stable 1 _ p0 p r s s2 Hp (H2 1%nat ltac:(done))) as [Er Eu].
  change (route_of p0 s) with (route_of pkt s) in Er. fold (upper s2). rewrite Er, Eu. unfold reached.
  destruct (route_of pkt s) as [ns|ns| |]; [exists ns, p, s2|exists (upper s ++ ns), p, s2|exists (upper s), p, s2|done].
  all: split; [by destruct (sendto_all _ p s2)|]; split; [by right|]; split; [exact Hp|]; intros m Hm; apply (H2 m Hm).
Qed.

(** C39.  A packet is sent to the nodes it is meant for and to nobody else.  With a node table as the configuration makes it, the sending
    of an event comes down to handing the packet with the encoded event in it to some nodes one after the other, and these are the ones its header asks for
    (masters, peers and pollers by the bits of a magic selection; all of them for a control packet for group 0; else masters, peers and the pollers
    of the group), or none when nothing could be encoded or the packet is found to be a duplicate.  A node it is not meant for, other
    than the daemon, is left exactly as it was but for its number: nothing is queued for it and its connection stays.  The one id of a
    group that makes the code read beyond its table is left aside. *)
Theorem send_generic_reach pkt enc s :
  routable s -> 0 <= h_selection (hdr pkt) < 2 ^ 16 ->
  (0 < num_pollers s -> h_selection (hdr pkt) <> Z.of_nat (length (hk_selections (m_hooks s)))) ->
  let whole := Event ((hdr pkt) <| h_len := Z.of_nat (length enc) |>) enc in
  exists ns p s1, (send_generic pkt enc s).2 = (sendto_all ns p s1).2 /\
    ((enc = [] \/ (is_dupe whole s).1 = true) /\ ns = [] \/ forall m, m ∈ ns <-> meant_for pkt s m) /\
    body p = enc /\ h_type (hdr p) = h_type (hdr pkt) /\ h_code (hdr p) = h_code (hdr pkt) /\ h_selection (hdr p) = h_selection (hdr pkt) /\
    (forall m, m <> IPC -> strip (m_nodes s1 !!! m) = strip (m_nodes s !!! m)) /\
    forall m, m <> IPC -> ~ meant_for pkt s m -> strip (m_nodes (send_generic pkt enc s).2 !!! m) = strip (m_nodes s !!! m).
Proof.
  intros R Hs Hne whole. pose proof (fun m => reached_meant pkt s m R Hs Hne) as Hr.
  destruct (send_generic_parts pkt enc s) as (ns & p & s1 & E & Hns & (P1 & P2 & P3 & P4) & Hst).
  { intros Eb. unfold route_of in Eb. repeat (case_match; try done).
    lazymatch goal with H : nodes_by_sel_id _ _ = Beyond, H2 : (_ || (num_pollers s =? 0)) = false |- _ =>
      apply orb_false_iff in H2 as [_ H2%Z.eqb_neq]; pose proof (selected_meant s (h_selection (hdr pkt)) ltac:(lia)) as Hx; rewrite H in Hx; apply Hx, Hne end.
    destruct R. lia. }
  exists ns, p, s1. split; [exact E|].
  assert (Hmeant : forall m, m ∈ ns -> meant_for pkt s m) by (intros m Hin; destruct Hns as [[_ ->]|Hns]; [by apply elem_of_nil in Hin|by rewrite <- Hr, <- Hns]).
  split_and!; try done.
  - destruct Hns as [|Hns]; [by left|right]. intros m. by rewrite Hns.
  - intros m Hm Hn. rewrite E, <- (Hst m Hm). apply (apart_sendto_all m _ _ _ ns p Hm (fun Hin => Hn (Hmeant m Hin)) s1 (apart_refl m s1)).
Qed.

End Hooks.

(** ** Two peers and their poller *)

#[local] Existing Instances QSort_insertion plain_sodium naemon_callbacks.

(** The peer that was started at [mine], while the other was at [theirs]; [fl] are the flags of
    the poller. *)
Definition pair_view (fl mine theirs : Z) : merlin :=
  let s := demo0 <| m_table := [1; 3]%nat |>
    <| m_nodes := list_to_map (M := gmap nat merlin_node) [
         (0%nat, demo_ipc <| info ::= fun i => i <| i_start := TV mine 0 |> <| i_configured_peers := 1 |> <| i_active_peers := 1 |> |>);
         (1%nat, demo_node MODE_PEER STATE_CONNECTED theirs None);
         (3%nat, (demo_node MODE_POLLER STATE_CONNECTED 50 (Some (str "hg"))) <| flags := fl |>)] |> in
  (pgroup_assign_peer_ids (Some 1%nat) (pgroup_assign_peer_ids (Some 0%nat) (pgroup_init s).2).2).2.

Definition older_view : merlin := Eval vm_compute in pair_view 0 100 200.
Definition younger_view : merlin := Eval vm_compute in pair_view 0 200 100.

Lemma pair_views i s :
  [older_view; younger_view] !! i = Some s ->
  peer_view 2 (Z.of_nat i) s /\ may_notify s = true /\ num_peers s = 1 /\
  own_host 2 s /\ poller_host 3 3 s /\ has_flag (flags (m_nodes s !!! 3%nat)) MERLIN_NODE_NOTIFIES = false /\
  pgroup_num_notify s 3 = 0.
Proof.
  destruct i as [|[|i]]; [| |done]; intros [= <-];
    (split; [split; try (apply group_okb_ok); try (vm_compute; reflexivity)|
             split_and!; try (vm_compute; reflexivity); try (left; vm_compute; reflexivity)]);
    try (intros [|[|j]] n [= <-]; vm_compute; intuition congruence);
    try (apply (bool_decide_unpack _); vm_compute; exact I); vm_compute; intuition congruence.
Qed.

Lemma host_handled_once_witness :
  exists i, (i < 2)%nat /\ forall j s, [older_view; younger_view] !! j = Some s ->
    check_answer s 2 inhabitant (Event blank_hdr []) 60 300 =
      (if bool_decide (j = i) && negb (node_blocked_hostgroup IPC (hk_blocked (m_hooks s)) true inhabitant) then NebRet 0 else NEBERROR_CALLBACKCANCEL) /\
    handler_answer s 2 = (if bool_decide (j = i) then NebRet 0 else NEBERROR_CALLBACKOVERRIDE) /\
    forall reason ck custom pkt enc, notification_answer s 2 reason ck custom pkt enc =
      if bool_decide (j = i) && may_notify s then NebRet 0 else NEBERROR_CALLBACKCANCEL.
Proof.
  apply (host_handled_once [older_view; younger_view] 2 inhabitant (Event blank_hdr []) 60 300); [discriminate|].
  intros i s H. destruct (pair_views i s H) as (V & _ & _ & Ho & _). auto.
Defined.

Lemma poller_host_notified_once_witness :
  exists i, (i < 2)%nat /\ forall j s reason ck custom pkt enc, [older_view; younger_view] !! j = Some s ->
    notification_answer s 3 reason ck custom pkt enc = if bool_decide (j = i) && may_notify s then NebRet 0 else NEBERROR_CALLBACKCANCEL.
Proof.
  apply (poller_host_notified_once [older_view; younger_view] 3); [discriminate| |].
  - intros i s H. destruct (pair_views i s H) as (V & _ & Hn & _). auto.
  - intros i s H. exists 3%nat. destruct (pair_views i s H) as (_ & _ & _ & _ & Hp & Hf & Hz). auto.
Defined.

(** A result of a check, as the hook marks it. *)
Definition demo_result : merlin_event := Event (blank_hdr <| h_type := 7 |> <| h_selection := DEST_PEERS_MASTERS |>) [].

Lemma older_routable : routable older_view.
Proof.
  split; [split_and!| |vm_compute; reflexivity..|].
  1,2,4: apply Forall_forall; apply (bool_decide_unpack _); vm_compute; exact I.
  - apply (bool_decide_unpack _). vm_compute. exact I.
  - intros x n Hx. vm_compute in Hx. set_solver.
Qed.

(** The other peer gets it and the poller does not. *)
Lemma send_generic_reach_witness :
  (meant_for demo_result older_view 1 /\ ~ meant_for demo_result older_view 3) /\
  exists ns p s1, (send_generic demo_result [Byte.x01] older_view).2 = (sendto_all ns p s1).2 /\
    (([Byte.x01] = [] \/ (is_dupe (Event ((hdr demo_result) <| h_len := 1 |>) [Byte.x01]) older_view).1 = true) /\ ns = [] \/
     forall m, m ∈ ns <-> meant_for demo_result older_view m) /\
    body p = [Byte.x01] /\ h_type (hdr p) = h_type (hdr demo_result) /\ h_code (hdr p) = h_code (hdr demo_result) /\
    h_selection (hdr p) = h_selection (hdr demo_result) /\
    (forall m, m <> IPC -> strip (m_nodes s1 !!! m) = strip (m_nodes older_view !!! m)) /\
    forall m, m <> IPC -> ~ meant_for demo_result older_view m ->
      strip (m_nodes (send_generic demo_result [Byte.x01] older_view).2 !!! m) = strip (m_nodes older_view !!! m).
Proof.
  split; [split; vm_compute; [set_solver|intuition (try discriminate); destruct_and?; naive_solver]|].
  apply (send_generic_reach demo_result [Byte.x01] older_view); [apply older_routable|vm_compute; split; [discriminate|reflexivity]|vm_compute; discriminate].
Defined.

(** Duplicates are looked for and not found: sending a packet to the daemon signs and stamps it,
    and it is that packet the next one is compared with, before that one is signed. *)
Theorem duplicates_not_found :
  let s1 := (send_status HOST_CHECK demo_result 2 [Byte.x01] older_view).2 in
  let s2 := (send_status HOST_CHECK demo_result 2 [Byte.x01] s1).2 in
  hk_check_dupes (m_hooks s2) = true /\ body (hk_last_pkt (m_hooks s1)) = [Byte.x01] /\
  hk_dupes (m_hooks s2) = 0 /\ m_now s2 = m_now s1.
Proof. vm_compute. done. Qed.
