(* ===== verification/Commands.v ===== *)
(** * Comments, downtime and commands: the rest of module/hooks.c

    What the module does with Naemon's comments, downtimes and external commands, and the
    entry point Naemon calls.  Naemon's commands are an inductive type with one constructor
    for each command the switch names; Naemon's lookups of hosts and services are a class. *)

From S2P Require Import Prelude Binlog Packet Io Merlin Pgroup Node Control Checks Hooks.

(** Naemon's lookups: the id of a host by its name, of a service by the name of its host and
    its description. *)
Class Naemon := {
  find_host : string -> option Z;
  find_service : string -> string -> option Z }.

Definition DEST_PEERS_POLLERS : Z := Z.lor DEST_POLLERS DEST_PEERS.

(** The external commands of Naemon that the switch names. *)
Inductive command :=
  | CMD_DEL_HOST_COMMENT | CMD_DEL_SVC_COMMENT | CMD_ADD_HOST_COMMENT | CMD_ADD_SVC_COMMENT
  | CMD_DEL_HOST_DOWNTIME | CMD_DEL_SVC_DOWNTIME | CMD_ACKNOWLEDGE_HOST_PROBLEM
  | CMD_ACKNOWLEDGE_SVC_PROBLEM | CMD_SCHEDULE_HOST_DOWNTIME | CMD_SCHEDULE_SVC_DOWNTIME
  | CMD_SCHEDULE_AND_PROPAGATE_TRIGGERED_HOST_DOWNTIME | CMD_SCHEDULE_AND_PROPAGATE_HOST_DOWNTIME
  | CMD_ENABLE_SVC_CHECK | CMD_DISABLE_SVC_CHECK | CMD_SCHEDULE_SVC_CHECK | CMD_DELAY_SVC_NOTIFICATION
  | CMD_DELAY_HOST_NOTIFICATION | CMD_ENABLE_HOST_SVC_CHECKS | CMD_DISABLE_HOST_SVC_CHECKS
  | CMD_SCHEDULE_HOST_SVC_CHECKS | CMD_DELAY_HOST_SVC_NOTIFICATIONS | CMD_DEL_ALL_HOST_COMMENTS
  | CMD_DEL_ALL_SVC_COMMENTS | CMD_ENABLE_SVC_NOTIFICATIONS | CMD_DISABLE_SVC_NOTIFICATIONS
  | CMD_ENABLE_HOST_NOTIFICATIONS | CMD_DISABLE_HOST_NOTIFICATIONS | CMD_ENABLE_HOST_SVC_NOTIFICATIONS
  | CMD_DISABLE_HOST_SVC_NOTIFICATIONS | CMD_ENABLE_PASSIVE_SVC_CHECKS | CMD_DISABLE_PASSIVE_SVC_CHECKS
  | CMD_ENABLE_HOST_EVENT_HANDLER | CMD_DISABLE_HOST_EVENT_HANDLER | CMD_ENABLE_SVC_EVENT_HANDLER
  | CMD_DISABLE_SVC_EVENT_HANDLER | CMD_ENABLE_HOST_CHECK | CMD_DISABLE_HOST_CHECK
  | CMD_START_OBSESSING_OVER_SVC_CHECKS | CMD_STOP_OBSESSING_OVER_SVC_CHECKS
  | CMD_REMOVE_HOST_ACKNOWLEDGEMENT | CMD_REMOVE_SVC_ACKNOWLEDGEMENT
  | CMD_SCHEDULE_FORCED_HOST_SVC_CHECKS | CMD_SCHEDULE_FORCED_SVC_CHECK
  | CMD_ENABLE_HOST_FLAP_DETECTION | CMD_DISABLE_HOST_FLAP_DETECTION | CMD_ENABLE_SVC_FLAP_DETECTION
  | CMD_DISABLE_SVC_FLAP_DETECTION | CMD_DISABLE_PASSIVE_HOST_CHECKS | CMD_SCHEDULE_HOST_CHECK
  | CMD_SCHEDULE_FORCED_HOST_CHECK | CMD_CHANGE_HOST_EVENT_HANDLER | CMD_CHANGE_SVC_EVENT_HANDLER
  | CMD_CHANGE_HOST_CHECK_COMMAND | CMD_CHANGE_SVC_CHECK_COMMAND
  | CMD_CHANGE_NORMAL_HOST_CHECK_INTERVAL | CMD_CHANGE_NORMAL_SVC_CHECK_INTERVAL
  | CMD_CHANGE_RETRY_SVC_CHECK_INTERVAL | CMD_CHANGE_MAX_HOST_CHECK_ATTEMPTS
  | CMD_CHANGE_MAX_SVC_CHECK_ATTEMPTS | CMD_ENABLE_HOST_AND_CHILD_NOTIFICATIONS
  | CMD_DISABLE_HOST_AND_CHILD_NOTIFICATIONS | CMD_ENABLE_HOST_FRESHNESS_CHECKS
  | CMD_DISABLE_HOST_FRESHNESS_CHECKS | CMD_SET_HOST_NOTIFICATION_NUMBER
  | CMD_SET_SVC_NOTIFICATION_NUMBER | CMD_CHANGE_HOST_CHECK_TIMEPERIOD
  | CMD_CHANGE_SVC_CHECK_TIMEPERIOD | CMD_CHANGE_CUSTOM_HOST_VAR | CMD_CHANGE_CUSTOM_SVC_VAR
  | CMD_ENABLE_CONTACT_HOST_NOTIFICATIONS | CMD_DISABLE_CONTACT_HOST_NOTIFICATIONS
  | CMD_ENABLE_CONTACT_SVC_NOTIFICATIONS | CMD_DISABLE_CONTACT_SVC_NOTIFICATIONS
  | CMD_ENABLE_CONTACTGROUP_HOST_NOTIFICATIONS | CMD_DISABLE_CONTACTGROUP_HOST_NOTIFICATIONS
  | CMD_ENABLE_CONTACTGROUP_SVC_NOTIFICATIONS | CMD_DISABLE_CONTACTGROUP_SVC_NOTIFICATIONS
  | CMD_CHANGE_RETRY_HOST_CHECK_INTERVAL | CMD_CHANGE_HOST_NOTIFICATION_TIMEPERIOD
  | CMD_CHANGE_SVC_NOTIFICATION_TIMEPERIOD | CMD_CHANGE_CONTACT_HOST_NOTIFICATION_TIMEPERIOD
  | CMD_CHANGE_CONTACT_SVC_NOTIFICATION_TIMEPERIOD | CMD_CHANGE_HOST_MODATTR | CMD_CHANGE_SVC_MODATTR
  | CMD_DEL_DOWNTIME_BY_HOST_NAME | CMD_SEND_CUSTOM_HOST_NOTIFICATION | CMD_PROCESS_HOST_CHECK_RESULT
  | CMD_SEND_CUSTOM_SVC_NOTIFICATION | CMD_PROCESS_SERVICE_CHECK_RESULT
  | CMD_SCHEDULE_HOSTGROUP_HOST_DOWNTIME | CMD_SCHEDULE_HOSTGROUP_SVC_DOWNTIME
  | CMD_ENABLE_HOSTGROUP_SVC_NOTIFICATIONS | CMD_DISABLE_HOSTGROUP_SVC_NOTIFICATIONS
  | CMD_ENABLE_HOSTGROUP_HOST_NOTIFICATIONS | CMD_DISABLE_HOSTGROUP_HOST_NOTIFICATIONS
  | CMD_ENABLE_HOSTGROUP_SVC_CHECKS | CMD_DISABLE_HOSTGROUP_SVC_CHECKS
  | CMD_ENABLE_HOSTGROUP_HOST_CHECKS | CMD_DISABLE_HOSTGROUP_HOST_CHECKS
  | CMD_ENABLE_HOSTGROUP_PASSIVE_SVC_CHECKS | CMD_DISABLE_HOSTGROUP_PASSIVE_SVC_CHECKS
  | CMD_ENABLE_HOSTGROUP_PASSIVE_HOST_CHECKS | CMD_DISABLE_HOSTGROUP_PASSIVE_HOST_CHECKS
  | CMD_SCHEDULE_SERVICEGROUP_HOST_DOWNTIME | CMD_SCHEDULE_SERVICEGROUP_SVC_DOWNTIME
  | CMD_ENABLE_SERVICEGROUP_SVC_NOTIFICATIONS | CMD_DISABLE_SERVICEGROUP_SVC_NOTIFICATIONS
  | CMD_ENABLE_SERVICEGROUP_HOST_NOTIFICATIONS | CMD_DISABLE_SERVICEGROUP_HOST_NOTIFICATIONS
  | CMD_ENABLE_SERVICEGROUP_SVC_CHECKS | CMD_DISABLE_SERVICEGROUP_SVC_CHECKS
  | CMD_ENABLE_SERVICEGROUP_HOST_CHECKS | CMD_DISABLE_SERVICEGROUP_HOST_CHECKS
  | CMD_ENABLE_SERVICEGROUP_PASSIVE_SVC_CHECKS | CMD_DISABLE_SERVICEGROUP_PASSIVE_SVC_CHECKS
  | CMD_ENABLE_SERVICEGROUP_PASSIVE_HOST_CHECKS | CMD_DISABLE_SERVICEGROUP_PASSIVE_HOST_CHECKS
  | CMD_OTHER (n : Z).

(** How a command is treated: not at all, as one for a host, as one that the owner of an object
    has to carry out (a custom notification or a check result), as one for a host
    group, for a service group, or for everyone. *)
Inductive command_kind :=
  CmdElsewhere | CmdHost | CmdOwner (t : check_type) (custom : bool) | CmdHostgroup | CmdServicegroup | CmdGlobal.

(** module/hooks.c:583-704 hook_external_command -- the cases of the switch, with those from 858 on. *)
Definition kind_of (c : command) : command_kind :=
  match c with
  | CMD_DEL_HOST_COMMENT | CMD_DEL_SVC_COMMENT | CMD_ADD_HOST_COMMENT | CMD_ADD_SVC_COMMENT
  | CMD_DEL_HOST_DOWNTIME | CMD_DEL_SVC_DOWNTIME => CmdElsewhere
  | CMD_ACKNOWLEDGE_HOST_PROBLEM | CMD_ACKNOWLEDGE_SVC_PROBLEM | CMD_SCHEDULE_HOST_DOWNTIME
  | CMD_SCHEDULE_SVC_DOWNTIME | CMD_SCHEDULE_AND_PROPAGATE_TRIGGERED_HOST_DOWNTIME
  | CMD_SCHEDULE_AND_PROPAGATE_HOST_DOWNTIME | CMD_ENABLE_SVC_CHECK | CMD_DISABLE_SVC_CHECK
  | CMD_SCHEDULE_SVC_CHECK | CMD_DELAY_SVC_NOTIFICATION | CMD_DELAY_HOST_NOTIFICATION
  | CMD_ENABLE_HOST_SVC_CHECKS | CMD_DISABLE_HOST_SVC_CHECKS | CMD_SCHEDULE_HOST_SVC_CHECKS
  | CMD_DELAY_HOST_SVC_NOTIFICATIONS | CMD_DEL_ALL_HOST_COMMENTS | CMD_DEL_ALL_SVC_COMMENTS
  | CMD_ENABLE_SVC_NOTIFICATIONS | CMD_DISABLE_SVC_NOTIFICATIONS | CMD_ENABLE_HOST_NOTIFICATIONS
  | CMD_DISABLE_HOST_NOTIFICATIONS | CMD_ENABLE_HOST_SVC_NOTIFICATIONS
  | CMD_DISABLE_HOST_SVC_NOTIFICATIONS | CMD_ENABLE_PASSIVE_SVC_CHECKS | CMD_DISABLE_PASSIVE_SVC_CHECKS
  | CMD_ENABLE_HOST_EVENT_HANDLER | CMD_DISABLE_HOST_EVENT_HANDLER | CMD_ENABLE_SVC_EVENT_HANDLER
  | CMD_DISABLE_SVC_EVENT_HANDLER | CMD_ENABLE_HOST_CHECK | CMD_DISABLE_HOST_CHECK
  | CMD_START_OBSESSING_OVER_SVC_CHECKS | CMD_STOP_OBSESSING_OVER_SVC_CHECKS
  | CMD_REMOVE_HOST_ACKNOWLEDGEMENT | CMD_REMOVE_SVC_ACKNOWLEDGEMENT
  | CMD_SCHEDULE_FORCED_HOST_SVC_CHECKS | CMD_SCHEDULE_FORCED_SVC_CHECK
  | CMD_ENABLE_HOST_FLAP_DETECTION | CMD_DISABLE_HOST_FLAP_DETECTION | CMD_ENABLE_SVC_FLAP_DETECTION
  | CMD_DISABLE_SVC_FLAP_DETECTION | CMD_DISABLE_PASSIVE_HOST_CHECKS | CMD_SCHEDULE_HOST_CHECK
  | CMD_SCHEDULE_FORCED_HOST_CHECK | CMD_CHANGE_HOST_EVENT_HANDLER | CMD_CHANGE_SVC_EVENT_HANDLER
  | CMD_CHANGE_HOST_CHECK_COMMAND | CMD_CHANGE_SVC_CHECK_COMMAND
  | CMD_CHANGE_NORMAL_HOST_CHECK_INTERVAL | CMD_CHANGE_NORMAL_SVC_CHECK_INTERVAL
  | CMD_CHANGE_RETRY_SVC_CHECK_INTERVAL | CMD_CHANGE_MAX_HOST_CHECK_ATTEMPTS
  | CMD_CHANGE_MAX_SVC_CHECK_ATTEMPTS | CMD_ENABLE_HOST_AND_CHILD_NOTIFICATIONS
  | CMD_DISABLE_HOST_AND_CHILD_NOTIFICATIONS | CMD_ENABLE_HOST_FRESHNESS_CHECKS
  | CMD_DISABLE_HOST_FRESHNESS_CHECKS | CMD_SET_HOST_NOTIFICATION_NUMBER
  | CMD_SET_SVC_NOTIFICATION_NUMBER | CMD_CHANGE_HOST_CHECK_TIMEPERIOD
  | CMD_CHANGE_SVC_CHECK_TIMEPERIOD | CMD_CHANGE_CUSTOM_HOST_VAR | CMD_CHANGE_CUSTOM_SVC_VAR
  | CMD_ENABLE_CONTACT_HOST_NOTIFICATIONS | CMD_DISABLE_CONTACT_HOST_NOTIFICATIONS
  | CMD_ENABLE_CONTACT_SVC_NOTIFICATIONS | CMD_DISABLE_CONTACT_SVC_NOTIFICATIONS
  | CMD_ENABLE_CONTACTGROUP_HOST_NOTIFICATIONS | CMD_DISABLE_CONTACTGROUP_HOST_NOTIFICATIONS
  | CMD_ENABLE_CONTACTGROUP_SVC_NOTIFICATIONS | CMD_DISABLE_CONTACTGROUP_SVC_NOTIFICATIONS
  | CMD_CHANGE_RETRY_HOST_CHECK_INTERVAL | CMD_CHANGE_HOST_NOTIFICATION_TIMEPERIOD
  | CMD_CHANGE_SVC_NOTIFICATION_TIMEPERIOD | CMD_CHANGE_CONTACT_HOST_NOTIFICATION_TIMEPERIOD
  | CMD_CHANGE_CONTACT_SVC_NOTIFICATION_TIMEPERIOD | CMD_CHANGE_HOST_MODATTR | CMD_CHANGE_SVC_MODATTR
  | CMD_DEL_DOWNTIME_BY_HOST_NAME => CmdHost
  | CMD_SEND_CUSTOM_HOST_NOTIFICATION => CmdOwner HOST_CHECK true
  | CMD_PROCESS_HOST_CHECK_RESULT => CmdOwner HOST_CHECK false
  | CMD_SEND_CUSTOM_SVC_NOTIFICATION => CmdOwner SERVICE_CHECK true
  | CMD_PROCESS_SERVICE_CHECK_RESULT => CmdOwner SERVICE_CHECK false
  | CMD_SCHEDULE_HOSTGROUP_HOST_DOWNTIME | CMD_SCHEDULE_HOSTGROUP_SVC_DOWNTIME
  | CMD_ENABLE_HOSTGROUP_SVC_NOTIFICATIONS | CMD_DISABLE_HOSTGROUP_SVC_NOTIFICATIONS
  | CMD_ENABLE_HOSTGROUP_HOST_NOTIFICATIONS | CMD_DISABLE_HOSTGROUP_HOST_NOTIFICATIONS
  | CMD_ENABLE_HOSTGROUP_SVC_CHECKS | CMD_DISABLE_HOSTGROUP_SVC_CHECKS
  | CMD_ENABLE_HOSTGROUP_HOST_CHECKS | CMD_DISABLE_HOSTGROUP_HOST_CHECKS
  | CMD_ENABLE_HOSTGROUP_PASSIVE_SVC_CHECKS | CMD_DISABLE_HOSTGROUP_PASSIVE_SVC_CHECKS
  | CMD_ENABLE_HOSTGROUP_PASSIVE_HOST_CHECKS | CMD_DISABLE_HOSTGROUP_PASSIVE_HOST_CHECKS
  => CmdHostgroup
  | CMD_SCHEDULE_SERVICEGROUP_HOST_DOWNTIME | CMD_SCHEDULE_SERVICEGROUP_SVC_DOWNTIME
  | CMD_ENABLE_SERVICEGROUP_SVC_NOTIFICATIONS | CMD_DISABLE_SERVICEGROUP_SVC_NOTIFICATIONS
  | CMD_ENABLE_SERVICEGROUP_HOST_NOTIFICATIONS | CMD_DISABLE_SERVICEGROUP_HOST_NOTIFICATIONS
  | CMD_ENABLE_SERVICEGROUP_SVC_CHECKS | CMD_DISABLE_SERVICEGROUP_SVC_CHECKS
  | CMD_ENABLE_SERVICEGROUP_HOST_CHECKS | CMD_DISABLE_SERVICEGROUP_HOST_CHECKS
  | CMD_ENABLE_SERVICEGROUP_PASSIVE_SVC_CHECKS | CMD_DISABLE_SERVICEGROUP_PASSIVE_SVC_CHECKS
  | CMD_ENABLE_SERVICEGROUP_PASSIVE_HOST_CHECKS | CMD_DISABLE_SERVICEGROUP_PASSIVE_HOST_CHECKS
  => CmdServicegroup
  | CMD_OTHER _ => CmdGlobal
  end.

(** Stages of a comment. *)
Inductive comment_stage := COMMENT_ADD | COMMENT_LOAD | COMMENT_DELETE.

(** The text before the first semicolon and, if there is one, the text after it. *)
Fixpoint cut_semicolon (s : string) : string * option string :=
  match s with
  | EmptyString => (EmptyString, None)
  | String c s => if Ascii.eqb c ";" then (EmptyString, Some s)
                  else let '(h, t) := cut_semicolon s in (String c h, t)
  end.

Definition to (sel : Z) (pkt : merlin_event) : merlin_event := pkt <| hdr ::= fun h => h <| h_selection := sel |> |>.
Definition nonet (pkt : merlin_event) : merlin_event := pkt <| hdr ::= fun h => h <| h_code := MAGIC_NONET |> |>.

Section Commands.
Context {QS : QSort} {SD : Sodium} {NC : NebCallbacks} {NL : Naemon}.

(** module/hooks.c:450-513 hook_comment *)
Definition hook_comment (stage : comment_stage) (c : comment) (pkt : merlin_event) (enc : list byte) : M neb_result :=
  s ← gets (fun s => s);
  let hk := m_hooks s in
  match stage, hk_sender hk with
  | COMMENT_ADD, _ => mret (NebRet 0)
  | _, Some _ => mret (NebRet 0)
  | _, None =>
      let deleted := match stage with COMMENT_DELETE => true | _ => false end in
      let own := bool_decide (cm_entry c = DOWNTIME_COMMENT) || bool_decide (cm_entry c = ACKNOWLEDGEMENT_COMMENT) in
      let pkt := if own && negb deleted then nonet pkt else pkt in
      let pkt := if negb (h_code (hdr pkt) =? MAGIC_NONET) && bool_decide (hk_block_comment hk = Some c)
                 then nonet pkt else to (get_selection (cm_host c) s) pkt in
      r ← send_generic pkt enc; mret (NebRet r)
  end.

(** module/hooks.c:515-538 hook_downtime -- [cancelled] tells NEBATTR_DOWNTIME_STOP_CANCELLED. *)
Definition hook_downtime (cancelled : bool) (h : string) (pkt : merlin_event) (enc : list byte) : M neb_result :=
  s ← gets (fun s => s);
  if bool_decide (hk_sender (m_hooks s) <> None) then mret (NebRet 0) else
  r ← send_generic (if cancelled then to (get_selection h s) pkt else nonet pkt) enc; mret (NebRet r).

(** shared/node.c:151-161 node_selection_by_name -- its id. *)
Definition node_selection_by_name (nm : string) (s : merlin) : option nat :=
  fst <$> list_find (fun x => sel_name x = str nm) (hk_selections (m_hooks s)).

(** module/hooks.c:177-182 get_hostgroup_selection *)
Definition get_hostgroup_selection (key : string) (s : merlin) : Z :=
  match node_selection_by_name key s with
  | Some i => Z.land (Z.of_nat i) 0xffff
  | None => DEST_PEERS_POLLERS
  end.

(** module/hooks.c:540-567 get_cmd_selection *)
Definition get_cmd_selection (cmd : option string) (hostgroup : bool) (s : merlin) : Z :=
  match cmd with
  | None => DEST_PEERS_POLLERS
  | Some c => if hostgroup then get_hostgroup_selection (cut_semicolon c).1 s else get_selection (cut_semicolon c).1 s
  end.

(** What becomes of a command: it is run here and sent on, only sent on, or only run. *)
Inductive verdict := RunAndSend | OnlySend | OnlyRun.

(** module/hooks.c:739-769 hook_external_command -- who sends a custom notification; the same at 815-845. *)
Definition custom_notification (t : check_type) (id : Z) : M verdict :=
  node ← owner t id;
  s ← gets (fun s => s);
  mret (if negb (i_active_masters (self_of s) =? 0) && negb (has_flag (flags (ipc_of s)) MERLIN_NODE_NOTIFIES) then OnlySend
        else if bool_decide (node = IPC) then OnlyRun
        else if type (m_nodes s !!! node) =?s MODE_POLLER then
          if ((num_peers s =? 0) || should_run_check s id) && (pgroup_num_notify s node =? 0) then OnlyRun else OnlySend
        else RunAndSend).

(** The object a command names, [None] when the arguments have no object. *)
Definition command_object (t : check_type) (args : string) : option (option Z) :=
  match t, cut_semicolon args with
  | _, (_, None) => None
  | HOST_CHECK, (h, Some _) => Some (find_host h)
  | SERVICE_CHECK, (h, Some rest) =>
      match cut_semicolon rest with
      | (_, None) => None
      | (d, Some _) => Some (find_service h d)
      end
  end.

(** module/hooks.c:705-849 hook_external_command -- the commands for the owner of an object. *)
Definition owner_verdict (t : check_type) (custom : bool) (args : string) : M verdict :=
  match command_object t args with
  | None => mret RunAndSend
  | Some None => mret OnlySend
  | Some (Some id) =>
      if custom then custom_notification t id
      else node ← owner t id; mret (if bool_decide (node = IPC) then RunAndSend else OnlySend)
  end.

(** module/hooks.c:851-923 hook_external_command -- all of it; [start] tells NEBTYPE_EXTERNALCOMMAND_START.
    The cases before 851 are above.  [None]: the process crashes in strchr. *)
Definition hook_external_command (start : bool) (cmd : command) (args : option string) (pkt : merlin_event)
    (enc : list byte) : M (option neb_result) :=
  if negb start then mret (Some (NebRet 0)) else
  s ← gets (fun s => s);
  let here := bool_decide (hk_sender (m_hooks s) = None) in
  let aim sel := if here then to sel pkt else pkt in
  let finish pkt v :=
    send_generic (if here then pkt else nonet pkt) enc ;;
    mret (Some (match v with OnlySend => NEBERROR_CALLBACKCANCEL | _ => NebRet 0 end)) in
  match kind_of cmd with
  | CmdElsewhere => mret (Some (NebRet 0))
  | CmdHost => finish (aim (get_cmd_selection args false s)) RunAndSend
  | CmdOwner t custom =>
      match args with
      | None => mret None
      | Some a =>
          v ← owner_verdict t custom a;
          match v with
          | OnlyRun => mret (Some (NebRet 0))
          | _ => finish (aim (get_cmd_selection args false s)) v
          end
      end
  | CmdHostgroup => finish (aim (get_cmd_selection args true s)) RunAndSend
  | CmdServicegroup => finish (aim DEST_PEERS_POLLERS) RunAndSend
  | CmdGlobal =>
      if u32 (num_peers s + num_pollers s) =? 0 then mret (Some (NebRet 0)) else finish (aim DEST_PEERS_POLLERS) RunAndSend
  end.

Definition lift_some (c : M neb_result) : M (option neb_result) := r ← c; mret (Some r).

(** What Naemon tells the module about. *)
Inductive neb_data :=
| NotificationData (stage : notification_stage) (t : check_type) (id reason ck : Z) (custom : bool)
| ContactNotificationMethodData (stage : notification_stage)
| CheckData (t : check_type) (stage : check_stage) (id : Z) (h : host) (timeout interval end_time : Z)
| CommentData (stage : comment_stage) (c : comment)
| DowntimeData (cancelled : bool) (h : string)
| ExternalCommandData (start : bool) (cmd : command) (args : option string)
| FlappingData | ProgramStatusData | ProcessData
| StatusData (t : check_type)
| EventHandlerData (start : bool) (t : check_type) (id : Z)
| OtherData.

(** module/hooks.c:1114-1224 merlin_mod_hook -- [data] is what Naemon passes with the callback [cb], [enc]
    what it is encoded as. *)
Definition merlin_mod_hook (cb : Z) (data : option neb_data) (enc : list byte) : M (option neb_result) :=
  items ← gets m_cb_items;
  match data with
  | None => mret (Some (NebRet (-1)))
  | Some d =>
      if (cb <? 0) || (items <? cb) then mret (Some (NebRet (-1))) else
      on_hooks (fun hk => hk <| hk_check_dupes := false |>) ;;
      now ← time_now;
      hk ← get_hooks;
      (if (hk_last_pulse hk =? 0) || (15 <? now - hk_last_pulse hk) then node_send_ctrl_active IPC else mret tt) ;;
      on_hooks (fun hk => hk <| hk_last_pulse := now |>) ;;
      let pkt := Event (blank_hdr <| h_type := cb |> <| h_selection := DEST_BROADCAST |>) [] in
      match d with
      | NotificationData stage t id reason ck custom => lift_some (hook_notification stage t id reason ck custom pkt enc)
      | ContactNotificationMethodData stage => lift_some (hook_contact_notification_method stage pkt enc)
      | CheckData t stage id h timeout interval end_time => lift_some (hook_result t stage pkt id h timeout interval end_time enc)
      | CommentData stage c => lift_some (hook_comment stage c pkt enc)
      | DowntimeData cancelled h => lift_some (hook_downtime cancelled h pkt enc)
      | ExternalCommandData start cmd args => hook_external_command start cmd args pkt enc
      | FlappingData | ProgramStatusData | ProcessData =>
          r ← send_generic (nonet pkt) enc; mret (Some (NebRet r))
      | StatusData _ | OtherData => mret (Some (NebRet 0))
      | EventHandlerData start t id => lift_some (hook_event_handler start t id)
      end
  end.

(** ** What came from the network is not sent on *)

Lemma send_generic_silent pkt enc s :
  h_code (hdr pkt) = MAGIC_NONET -> daemon_wants (h_type (hdr pkt)) = false -> send_generic pkt enc s = (0, s).
Proof.
  intros Hc Hw. unfold send_generic, gets, mbind, ST_bind, mret, ST_ret. rewrite Hc, Hw, Z.eqb_refl, orb_true_r. done.
Qed.

Lemma owner_pure t id s : (owner t id s).2 = s.
Proof.
  assert (H : preserves (eq s) (owner t id)); [|symmetry; by apply H]. unfold owner.
  destruct t; unfold pgroup_host_node, pgroup_service_node, pgroup_by_host_id, pgroup_by_service_id, ipc_pgroup, pgroup_node;
    preserve.
Qed.

Lemma owner_verdict_pure t custom a s : (owner_verdict t custom a s).2 = s.
Proof.
  unfold owner_verdict, custom_notification, gets, mbind, ST_bind, mret, ST_ret.
  destruct (command_object t a) as [[id|]|]; try done. pose proof (owner_pure t id s) as H.
  destruct custom; destruct (owner t id s) as [n s1]; exact H.
Qed.

Lemma command_not_wanted : daemon_wants NEBCALLBACK_EXTERNAL_COMMAND_DATA = false.
Proof. unfold daemon_wants. rewrite Z.eqb_refl, !orb_true_r. done. Qed.

(** C37.  Comments, downtimes and commands that come from another node go no further: while an
    event of a node is being handled, the hooks for them send nothing to anyone and change
    nothing, whatever the command, so that no event runs in circles. *)
Theorem received_events_stay s n pkt enc :
  hk_sender (m_hooks s) = Some n ->
  (forall stage c, (hook_comment stage c pkt enc s).2 = s) /\
  (forall cancelled h, (hook_downtime cancelled h pkt enc s).2 = s) /\
  (forall start cmd args, h_type (hdr pkt) = NEBCALLBACK_EXTERNAL_COMMAND_DATA ->
     (hook_external_command start cmd args pkt enc s).2 = s).
Proof.
  intros Hs. split; [|split].
  - intros stage c. unfold hook_comment, gets, mbind, ST_bind, mret, ST_ret. rewrite Hs. by destruct stage.
  - intros b h. unfold hook_downtime, gets, mbind, ST_bind, mret, ST_ret. by rewrite Hs.
  - intros start cmd args Ht. unfold hook_external_command, gets, mbind, ST_bind, mret, ST_ret.
    destruct start; [cbn [negb]|done]. rewrite Hs, bool_decide_eq_false_2 by done.
    assert (Hsend : send_generic (nonet pkt) enc s = (0, s)).
    { apply send_generic_silent; [done|]. cbn. rewrite Ht. apply command_not_wanted. }
    destruct (kind_of cmd) as [| |t custom| | |]; rewrite ?Hsend; try done; [|].
    2: { destruct (_ =? 0); [done|]. by rewrite Hsend. }
    destruct args as [a|]; [|done]. pose proof (owner_verdict_pure t custom a s) as H.
    destruct (owner_verdict t custom a s) as [v s1]. cbn in H. subst s1. by destruct v; rewrite ?Hsend.
Qed.

(** ** Check results are taken by one node *)

(** The command lets Naemon go on with it, or stops it. *)
Definition command_runs (s : merlin) (cmd : command) (a : string) (pkt : merlin_event) (enc : list byte) : option bool :=
  match (hook_external_command true cmd (Some a) pkt enc s).1 with
  | Some (NebRet 0) => Some true
  | Some NEBERROR_CALLBACKCANCEL => Some false
  | _ => None
  end.

(** C38.  A check result for a host of their own that reaches all the peers of a connected group as a
    command is taken by exactly one of them: the peer that owns the host lets Naemon process
    the command and every other one cancels it.  A result for a host that a
    peer does not know is cancelled, and one without a host is left to Naemon. *)
Theorem check_result_command_once (views : list merlin) a pkt enc :
  views <> [] ->
  (forall i s, views !! i = Some s -> peer_view (Z.of_nat (length views)) (Z.of_nat i) s /\
     forall id, command_object HOST_CHECK a = Some (Some id) -> own_host id s) ->
  match command_object HOST_CHECK a with
  | Some (Some _) => exists i, (i < length views)%nat /\ forall j s, views !! j = Some s ->
      command_runs s CMD_PROCESS_HOST_CHECK_RESULT a pkt enc = Some (bool_decide (j = i))
  | Some None => forall j s, views !! j = Some s -> command_runs s CMD_PROCESS_HOST_CHECK_RESULT a pkt enc = Some false
  | None => forall j s, views !! j = Some s -> command_runs s CMD_PROCESS_HOST_CHECK_RESULT a pkt enc = Some true
  end.
Proof.
  intros Hne Hv.
  assert (Hrun : forall s v, owner_verdict HOST_CHECK false a s = (v, s) -> v <> OnlyRun ->
    command_runs s CMD_PROCESS_HOST_CHECK_RESULT a pkt enc = Some (match v with OnlySend => false | _ => true end)).
  { intros s v E Hvr. unfold command_runs, hook_external_command, gets, mbind, ST_bind, mret, ST_ret. cbn [negb kind_of].
    rewrite E. destruct v; [| |done]; by destruct (send_generic _ enc s). }
  destruct (command_object HOST_CHECK a) as [[id|]|] eqn:E.
  2: { intros j s _. apply (Hrun s OnlySend); [|done]. unfold owner_verdict. by rewrite E. }
  2: { intros j s _. apply (Hrun s RunAndSend); [|done]. unfold owner_verdict. by rewrite E. }
  set (k := Z.of_nat (length views)). assert (Hk : 0 < k) by (unfold k; destruct views; [done|cbn; lia]).
  pose proof (Z.mod_pos_bound id k Hk) as Hm. exists (Z.to_nat (id mod k)). split; [lia|]. intros j s Hj.
  destruct (Hv j s Hj) as (V & Ho). fold k in V.
  destruct (own_host_node k (Z.of_nat j) id s V (Ho id eq_refl)) as (n & Hn & Hipc & _).
  rewrite (Hrun s (if bool_decide (n = IPC) then RunAndSend else OnlySend)).
  - f_equal. destruct (decide (n = IPC)) as [Hi|Hi].
    + rewrite (bool_decide_eq_true_2 (n = IPC)), bool_decide_eq_true_2; [done| |done]. apply Hipc in Hi. lia.
    + rewrite (bool_decide_eq_false_2 (n = IPC)), bool_decide_eq_false_2; [done| |done]. intros ->. apply Hi, Hipc. lia.
  - unfold owner_verdict. rewrite E. unfold owner, mbind, ST_bind, mret, ST_ret. by rewrite Hn.
  - by case_bool_decide.
Qed.

End Commands.

(** ** The two peers of Hooks.v *)

#[local] Existing Instances QSort_insertion plain_sodium naemon_callbacks.

Definition demo_naemon : Naemon :=
  {| find_host h := host_id <$> List.find (fun x => String.eqb (host_name x) h) (m_hosts demo0);
     find_service _ _ := None |}.
#[local] Existing Instance demo_naemon.

Definition demo_command : merlin_event := Event (blank_hdr <| h_type := 17 |> <| h_selection := DEST_BROADCAST |>) [].

Lemma received_events_stay_witness :
  (hook_external_command true CMD_ENABLE_HOST_CHECK (Some "h2;x"%string) demo_command [Byte.x01]
     (older_view <| m_hooks ::= fun hk => hk <| hk_sender := Some 1%nat |> |>)).2 =
  older_view <| m_hooks ::= fun hk => hk <| hk_sender := Some 1%nat |> |>.
Proof.
  apply (received_events_stay (older_view <| m_hooks ::= fun hk => hk <| hk_sender := Some 1%nat |> |>) 1
    demo_command [Byte.x01]); reflexivity.
Defined.

Lemma check_result_command_once_witness :
  exists i, (i < 2)%nat /\ forall j s, [older_view; younger_view] !! j = Some s ->
    command_runs s CMD_PROCESS_HOST_CHECK_RESULT "h2;0;fine" demo_command [Byte.x01] = Some (bool_decide (j = i)).
Proof.
  pose proof (check_result_command_once [older_view; younger_view] "h2;0;fine" demo_command [Byte.x01]) as H.
  assert (E : command_object HOST_CHECK "h2;0;fine" = Some (Some 2)) by (vm_compute; reflexivity).
  rewrite E in H. apply H; [discriminate|].
  intros i s Hi. destruct (pair_views i s Hi) as (V & _ & _ & Ho & _). split; [exact V|].
  intros id [= <-]. exact Ho.
Defined.
