(* ===== verification/Objects.v ===== *)
(** * Events of other nodes applied to Naemon: module/module.c

    What the module does with a decoded event: check results are handed to Naemon, status
    updates are copied into Naemon's objects, notifications, commands, comments, downtimes and
    flapping are applied.  The state is Naemon's objects as far as the module reads or writes
    them, and the calls into Naemon, the latest first. *)

From Stdlib Require Import QArith.
From S2P Require Import Prelude Binlog Packet Io Merlin Pgroup Node Control Checks Hooks Commands.
#[local] Open Scope Z_scope.

(** shared/shared.h:72-126 monitored_object_state -- doubles are rationals, a NULL text is [None]. *)
Record monitored_object_state := ObjState {
  s_initial_state : Z; s_flap_detection_enabled : Z; s_low_flap_threshold : Q;
  s_high_flap_threshold : Q; s_check_freshness : Z; s_freshness_threshold : Z;
  s_process_performance_data : Z; s_checks_enabled : Z; s_accept_passive_checks : Z;
  s_event_handler_enabled : Z; s_obsess : Z; s_problem_has_been_acknowledged : Z;
  s_acknowledgement_type : Z; s_check_type : Z; s_current_state : Z; s_last_state : Z;
  s_last_hard_state : Z; s_state_type : Z; s_current_attempt : Z; s_hourly_value : Z;
  s_current_event_id : Z; s_last_event_id : Z; s_current_problem_id : Z; s_last_problem_id : Z;
  s_latency : Q; s_execution_time : Q; s_notifications_enabled : Z; s_last_notification : Z;
  s_next_notification : Z; s_next_check : Z; s_should_be_scheduled : Z; s_last_check : Z;
  s_last_state_change : Z; s_last_hard_state_change : Z; s_last_time_up : Z; s_last_time_down : Z;
  s_last_time_unreachable : Z; s_has_been_checked : Z; s_current_notification_number : Z;
  s_current_notification_id : Z; s_check_flapping_recovery_notification : Z;
  s_scheduled_downtime_depth : Z; s_pending_flex_downtime : Z; s_state_history : list Z;
  s_state_history_index : Z; s_is_flapping : Z; s_flapping_comment_id : Z;
  s_percent_state_change : Q; s_modified_attributes : Z; s_notified_on : Z;
  s_plugin_output : option string; s_long_plugin_output : option string;
  s_perf_data : option string }.

#[export] Instance eta_monitored_object_state : Eta monitored_object_state := fun r =>
  ObjState (s_initial_state r) (s_flap_detection_enabled r) (s_low_flap_threshold r)
  (s_high_flap_threshold r) (s_check_freshness r) (s_freshness_threshold r)
  (s_process_performance_data r) (s_checks_enabled r) (s_accept_passive_checks r)
  (s_event_handler_enabled r) (s_obsess r) (s_problem_has_been_acknowledged r)
  (s_acknowledgement_type r) (s_check_type r) (s_current_state r) (s_last_state r)
  (s_last_hard_state r) (s_state_type r) (s_current_attempt r) (s_hourly_value r)
  (s_current_event_id r) (s_last_event_id r) (s_current_problem_id r) (s_last_problem_id r)
  (s_latency r) (s_execution_time r) (s_notifications_enabled r) (s_last_notification r)
  (s_next_notification r) (s_next_check r) (s_should_be_scheduled r) (s_last_check r)
  (s_last_state_change r) (s_last_hard_state_change r) (s_last_time_up r) (s_last_time_down r)
  (s_last_time_unreachable r) (s_has_been_checked r) (s_current_notification_number r)
  (s_current_notification_id r) (s_check_flapping_recovery_notification r)
  (s_scheduled_downtime_depth r) (s_pending_flex_downtime r) (s_state_history r)
  (s_state_history_index r) (s_is_flapping r) (s_flapping_comment_id r) (s_percent_state_change r)
  (s_modified_attributes r) (s_notified_on r) (s_plugin_output r) (s_long_plugin_output r)
  (s_perf_data r).

Definition zero_state : monitored_object_state :=
  ObjState 0 0 0 0 0 0 0 0 0 0 0 0 0 0 0 0 0 0 0 0 0 0 0 0 0 0 0 0 0 0 0 0 0 0 0 0 0 0 0 0 0 0 0 []
  0 0 0 0 0 0 None None None.

(** module/module.h:75-119 MOD2NET_STATE_VARS -- into a structure that was cleared. *)
Definition MOD2NET_STATE_VARS (nag : monitored_object_state) : monitored_object_state :=
  ObjState 0 (s_flap_detection_enabled nag) 0 0 (s_check_freshness nag) 0
  (s_process_performance_data nag) (s_checks_enabled nag) (s_accept_passive_checks nag)
  (s_event_handler_enabled nag) (s_obsess nag) (s_problem_has_been_acknowledged nag)
  (s_acknowledgement_type nag) (s_check_type nag) (s_current_state nag) (s_last_state nag)
  (s_last_hard_state nag) (s_state_type nag) (s_current_attempt nag) 0 (s_current_event_id nag)
  (s_last_event_id nag) (s_current_problem_id nag) (s_last_problem_id nag) (s_latency nag)
  (s_execution_time nag) (s_notifications_enabled nag) (s_last_notification nag)
  (s_next_notification nag) 0 0 (s_last_check nag) (s_last_state_change nag)
  (s_last_hard_state_change nag) 0 0 0 (s_has_been_checked nag) (s_current_notification_number nag)
  (s_current_notification_id nag) (s_check_flapping_recovery_notification nag)
  (s_scheduled_downtime_depth nag) (s_pending_flex_downtime nag) (s_state_history nag)
  (s_state_history_index nag) (s_is_flapping nag) (s_flapping_comment_id nag)
  (s_percent_state_change nag) (s_modified_attributes nag) (s_notified_on nag)
  (s_plugin_output nag) (s_long_plugin_output nag) (s_perf_data nag).

(** module/module.h:134-191 NET2MOD_STATE_VARS -- the new texts are copies, the old ones are freed. *)
Definition NET2MOD_STATE_VARS (nag mrln : monitored_object_state) : monitored_object_state :=
  ObjState (s_initial_state nag) (s_flap_detection_enabled mrln) (s_low_flap_threshold nag)
  (s_high_flap_threshold nag) (s_check_freshness mrln) (s_freshness_threshold nag)
  (s_process_performance_data mrln) (s_checks_enabled mrln) (s_accept_passive_checks mrln)
  (s_event_handler_enabled mrln) (s_obsess mrln) (s_problem_has_been_acknowledged mrln)
  (s_acknowledgement_type mrln) (s_check_type mrln) (s_current_state mrln) (s_last_state mrln)
  (s_last_hard_state mrln) (s_state_type mrln) (s_current_attempt mrln) (s_hourly_value nag)
  (s_current_event_id mrln) (s_last_event_id mrln) (s_current_problem_id mrln)
  (s_last_problem_id mrln) (s_latency mrln) (s_execution_time mrln) (s_notifications_enabled mrln)
  (s_last_notification mrln) (s_next_notification mrln) (s_next_check nag)
  (s_should_be_scheduled nag) (s_last_check mrln) (s_last_state_change mrln)
  (s_last_hard_state_change mrln) (s_last_time_up nag) (s_last_time_down nag)
  (s_last_time_unreachable nag) (s_has_been_checked nag) (s_current_notification_number mrln)
  (s_current_notification_id mrln) (s_check_flapping_recovery_notification mrln)
  (s_scheduled_downtime_depth mrln) (s_pending_flex_downtime mrln) (s_state_history mrln)
  (s_state_history_index mrln) (s_is_flapping mrln) (s_flapping_comment_id nag)
  (s_percent_state_change mrln) (s_modified_attributes mrln) (s_notified_on mrln)
  (s_plugin_output mrln) (s_long_plugin_output mrln) (s_perf_data mrln).

(** A comment with all that is compared when it is to be deleted. *)
Record full_comment := FullComment { fc_comment : comment; fc_source : Z; fc_expire_time : Z; fc_entry_time : Z }.

#[export] Instance full_comment_eq_dec : EqDecision full_comment.
Proof. solve_decision. Defined.

(** A host or service of Naemon. *)
Record nag_object := NagObject { o_state : monitored_object_state; o_no_more_notifications : Z; o_comments : list (Z * full_comment) }.

#[export] Instance eta_nag_object : Eta nag_object := fun r => NagObject (o_state r) (o_no_more_notifications r) (o_comments r).
#[export] Instance inhabited_nag_object : Inhabited nag_object := populate (NagObject zero_state 0 []).

(** Naemon's check_result, as the module fills it in. *)
Record check_result := CheckResult {
  cr_object_check_type : check_type; cr_host_name : string; cr_service_description : option string; cr_source : string;
  cr_return_code : Z; cr_check_type : Z; cr_scheduled_check : bool; cr_latency : Q; cr_start_time : timeval;
  cr_finish_time : timeval; cr_early_timeout : bool; cr_exited_ok : bool; cr_output : option string }.

(** The calls into Naemon; those for comments with the comment that is blocked meanwhile. *)
Inductive naemon_call :=
| process_check_result (cr : check_result)
| process_external_command2 (cmd : command) (entry_time : Z) (args : option string)
| add_new_comment (c : full_comment) (blocked : option comment)
| delete_comment (t : check_type) (id : Z) (blocked : option comment)
| delete_downtime (h : string) (svc : option string) (start : Z) (data : option string).

Record objects := Objects { os_objs : gmap object nag_object; os_calls : list naemon_call; os_block : option comment }.

#[export] Instance eta_objects : Eta objects := fun r => Objects (os_objs r) (os_calls r) (os_block r).

Abbreviation OM := (ST objects).

Definition call (c : naemon_call) : OM unit := modify (fun s => s <| os_calls ::= cons c |>).
Definition get_obj (o : object) : OM nag_object := gets (fun s => os_objs s !!! o).
Definition on_obj (o : object) (f : nag_object -> nag_object) : OM unit :=
  modify (fun s => s <| os_objs ::= fun m => <[o := f (m !!! o)]> m |>).

(** What Naemon says to a check result, its bits for the states that were notified about, and two of its commands. *)
Class NaemonActs := {
  check_result_ret : check_result -> Z;
  add_notified_on : Z -> Z -> Z;
  CMD_RESTART_PROCESS : Z;
  CMD_SHUTDOWN_PROCESS : Z }.

Section Objects.
Context {NC : NebCallbacks} {NL : Naemon} {NA : NaemonActs}.

(** ** Check results *)

(** module/module.c:423-452 concatenate_output *)
Definition concatenate_output (plugin long perf : option string) : option string :=
  match plugin, long, perf with
  | None, None, None => None
  | _, _, _ => Some (default "" plugin ++ match long with Some l => String "010" l | None => "" end ++
                     match perf with Some p => "|" ++ p | None => "" end)%string
  end.

(** A double as a time_t. *)
Definition Q_trunc (q : Q) : Z := Z.quot (Qnum q) (Zpos (Qden q)).

(** module/module.c:455-473 handle_checkresult -- [cr] is what is filled in so far. *)
Definition handle_checkresult (t : check_type) (h : string) (d : option string) (code : Z) (source : string)
    (st : monitored_object_state) : OM Z :=
  let whole := Q_trunc (s_execution_time st) in
  let cr := CheckResult t h d source code (s_check_type st) true (s_latency st) (TV (s_last_check st) 0)
    (TV (s_last_check st + whole) (Q_trunc (1000000 * (s_execution_time st - inject_Z whole))%Q)) false true
    (concatenate_output (s_plugin_output st) (s_long_plugin_output st) (s_perf_data st)) in
  call (process_check_result cr) ;; mret (check_result_ret cr).

(** The id of a host, or of a service when there is a description. *)
Definition find_object (h : string) (d : option string) : option object :=
  match d with
  | None => pair HOST_CHECK <$> find_host h
  | Some x => pair SERVICE_CHECK <$> find_service h x
  end.

(** module/module.c:475-558 handle_host_result -- and handle_service_result, which [d], the description, tells.
    [ty] is the type of the packet, [source] the name of the node. *)
Definition handle_result (source : string) (ty : Z) (h : string) (d : option string) (st : monitored_object_state) : OM Z :=
  let t := if d then SERVICE_CHECK else HOST_CHECK in
  match find_object h d with
  | None => mret (-1)
  | Some o =>
      obj ← get_obj o;
      if s_last_check st <? s_last_check (o_state obj) then mret 0
      else if ty =? NEBCALLBACK_CHECK_DATA t then
        handle_checkresult t h d
          (match t with HOST_CHECK => if s_current_state st =? 0 then 0 else 2 | SERVICE_CHECK => s_current_state st end) source st
      else on_obj o (fun obj => obj <| o_state := NET2MOD_STATE_VARS (o_state obj) st |>) ;; mret 0
  end.

(** module/module.c:560-584 handle_notification_data -- the number of the notification, when the last was and
    the next is, whether there are more, and the state. *)
Definition handle_notification_data (h : string) (d : option string) (number last next no_more state : Z) : OM Z :=
  match find_object h d with
  | None => mret (-1)
  | Some o =>
      on_obj o (fun obj => obj <| o_state ::= fun s => s <| s_current_notification_number := s32 number |>
          <| s_last_notification := last |> <| s_next_notification := next |>
          <| s_notified_on ::= fun n => add_notified_on n state |> |>
        <| o_no_more_notifications := no_more |>) ;;
      mret 0
  end.

(** ** Commands *)

(** module/module.c:586-617 handle_external_command *)
Definition handle_external_command (cmd : command) (entry_time : Z) (args : option string) : OM Z :=
  if match cmd with CMD_OTHER n => (n =? CMD_RESTART_PROCESS) || (n =? CMD_SHUTDOWN_PROCESS) | _ => false end then mret 0 else
  match cmd with
  | CMD_DEL_HOST_COMMENT | CMD_DEL_SVC_COMMENT => mret 0
  | _ => call (process_external_command2 cmd entry_time args) ;; mret 1
  end.

(** ** Comments and downtime *)

(** module/hooks.c:1301-1304 merlin_set_block_comment *)
Definition merlin_set_block_comment (c : option comment) : OM unit := modify (fun s => s <| os_block := c |>).

(** A call for a comment, with what is blocked. *)
Definition call_blocking (c : comment) (f : option comment -> naemon_call) : OM unit :=
  merlin_set_block_comment (Some c) ;;
  b ← gets os_block;
  call (f b) ;;
  merlin_set_block_comment None.

(** module/module.c:619-650 matching_comment *)
Definition matching_comment (cmnt ds : full_comment) : bool := bool_decide (cmnt = ds).

(** module/module.c:684-707 handle_comment_data -- deleting the comments of an object that match. *)
Definition delete_matching (ds : full_comment) (l : list (Z * full_comment)) : OM unit :=
  for_each l (fun '(id, c) =>
    if matching_comment c ds then call_blocking (fc_comment ds) (delete_comment (cm_type (fc_comment c)) id) else mret tt).

(** module/module.c:652-736 handle_comment_data -- [deleted] tells NEBTYPE_COMMENT_DELETE.  [None]: a comment of one type for
    an object of the other makes the process crash. *)
Definition handle_comment_data (deleted : bool) (ds : full_comment) : OM (option Z) :=
  let c := fc_comment ds in
  match find_object (cm_host c) (cm_service c) with
  | None => mret (Some 0)
  | Some o =>
      if deleted then
        if negb (bool_decide (o.1 = cm_type c)) then mret None else
        obj ← get_obj o; delete_matching ds (o_comments obj) ;; mret (Some 0)
      else if bool_decide (cm_entry c = ACKNOWLEDGEMENT_COMMENT) || bool_decide (cm_entry c = DOWNTIME_COMMENT) then mret (Some 0)
      else call_blocking c (add_new_comment ds) ;; mret (Some 0)
  end.

(** module/module.c:738-758 handle_downtime_data -- [ended] tells NEBTYPE_DOWNTIME_DELETE or _STOP. *)
Definition handle_downtime_data (ended : bool) (h : string) (svc : option string) (start : Z) (data : option string) : OM Z :=
  if negb ended then mret 0 else call (delete_downtime h svc start data) ;; mret 0.

(** module/module.c:760-800 handle_flapping_data *)
Definition handle_flapping_data (starting : bool) (h : string) (d : option string) : OM Z :=
  match find_object h d with
  | None => mret 0
  | Some o =>
      on_obj o (fun obj => obj <| o_state ::= fun s => s <| s_is_flapping := if starting then 1 else 0 |> |>) ;;
      obj ← get_obj o;
      let id := s_flapping_comment_id (o_state obj) in
      (if negb starting && negb (id =? 0) then b ← gets os_block; call (delete_comment o.1 id b) else mret tt) ;;
      mret 1
  end.

(** ** Status updates *)

(** C21.  A status update makes an object here what it is there.  An update that is older than our last check
    changes nothing.  Otherwise what we would send about the object afterwards is what was
    received, but for [has_been_checked] and the id of the flapping comment, which stay
    our own, and the members that are not sent are untouched.  Either way the time of
    the last check never goes back, no other object changes and Naemon is not called. *)
Theorem status_synchronised source ty h d a s o :
  find_object h d = Some o -> ty <> NEBCALLBACK_CHECK_DATA (if d then SERVICE_CHECK else HOST_CHECK) ->
  let b := o_state (os_objs s !!! o) in
  let '(r, s') := handle_result source ty h d (MOD2NET_STATE_VARS a) s in
  let b' := o_state (os_objs s' !!! o) in
  r = 0 /\ s_last_check b <= s_last_check b' /\ os_calls s' = os_calls s /\
  (forall p, p <> o -> os_objs s' !!! p = os_objs s !!! p) /\
  if s_last_check a <? s_last_check b then s' = s
  else MOD2NET_STATE_VARS b' = (MOD2NET_STATE_VARS a)
         <| s_has_been_checked := s_has_been_checked b |> <| s_flapping_comment_id := s_flapping_comment_id b |> /\
       NET2MOD_STATE_VARS b' (MOD2NET_STATE_VARS b) = b.
Proof.
  intros Ho Ht b. unfold handle_result, get_obj, on_obj, modify, gets, mbind, ST_bind, mret, ST_ret. rewrite Ho.
  change (o_state (os_objs s !!! o)) with b. change (s_last_check (MOD2NET_STATE_VARS a)) with (s_last_check a).
  destruct (s_last_check a <? s_last_check b) eqn:E; [split_and!; [done|apply Z.le_refl|done..]|].
  rewrite (proj2 (Z.eqb_neq ty _) Ht). cbn [os_calls os_objs upd eta_rec eta_objects].
  rewrite lookup_total_insert_eq. cbn [o_state upd eta_rec eta_nag_object]. fold b. split_and!; [done| |done| |done|by destruct b].
  - apply Z.ltb_ge in E. exact E.
  - intros p Hp. by rewrite lookup_total_insert_ne.
Qed.

(** A check result that is not too old is handed to Naemon, and nothing else is done with it. *)
Lemma result_handed_on source h d st s o :
  find_object h d = Some o -> s_last_check (o_state (os_objs s !!! o)) <= s_last_check st ->
  exists cr, handle_result source (NEBCALLBACK_CHECK_DATA (if d then SERVICE_CHECK else HOST_CHECK)) h d st s =
    (check_result_ret cr, s <| os_calls ::= cons (process_check_result cr) |>) /\
  cr_host_name cr = h /\ cr_service_description cr = d /\ tv_sec (cr_start_time cr) = s_last_check st.
Proof.
  intros Ho Hl. unfold handle_result, handle_checkresult, call, get_obj, modify, gets, mbind, ST_bind, mret, ST_ret. rewrite Ho.
  rewrite (proj2 (Z.ltb_ge _ _) Hl), Z.eqb_refl. eexists. split; [reflexivity|done].
Qed.

(** Received comments are blocked exactly while Naemon deals with them. *)
Lemma delete_matching_calls ds l s :
  os_block s = None ->
  (delete_matching ds l s).2 = s <| os_calls ::= app (map (fun p => delete_comment (cm_type (fc_comment ds)) p.1 (Some (fc_comment ds)))
    (rev (List.filter (fun p => matching_comment p.2 ds) l))) |>.
Proof.
  unfold delete_matching. revert s. induction l as [|[id c] l IH]; intros s Hb; [by destruct s|].
  cbn [for_each List.filter snd]. unfold mbind, ST_bind. destruct (matching_comment c ds) eqn:Hc.
  - apply bool_decide_eq_true in Hc as ->. unfold call_blocking, merlin_set_block_comment, call, modify, gets, mbind, ST_bind. cbn.
    rewrite IH by done. destruct s as [m k b]. cbn in *. subst b. by rewrite map_app, <- app_assoc.
  - cbn. by apply IH.
Qed.

(** ** A decoded event *)

(** What was decoded. *)
Inductive received :=
| RecvResult (h : string) (d : option string) (st : monitored_object_state)
| RecvNotification (h : string) (d : option string) (number last next no_more state : Z)
| RecvCommand (cmd : command) (entry_time : Z) (args : option string)
| RecvComment (deleted : bool) (c : full_comment)
| RecvDowntime (ended : bool) (h : string) (svc : option string) (start : Z) (data : option string)
| RecvFlapping (starting : bool) (h : string) (d : option string)
| RecvOther.

(** module/module.c:907-946 handle_event -- the handler of a decoded event of type [ty] from the node
    [source]; [None] is a crash. *)
Definition handle_received (source : string) (ty : Z) (ev : received) : OM (option Z) :=
  match ev with
  | RecvResult h d st => r ← handle_result source ty h d st; mret (Some r)
  | RecvNotification h d number last next no_more state =>
      r ← handle_notification_data h d number last next no_more state; mret (Some r)
  | RecvCommand cmd t args => r ← handle_external_command cmd t args; mret (Some r)
  | RecvComment deleted c => handle_comment_data deleted c
  | RecvDowntime ended h svc start data => r ← handle_downtime_data ended h svc start data; mret (Some r)
  | RecvFlapping starting h d => r ← handle_flapping_data starting h d; mret (Some r)
  | RecvOther => mret (Some 0)
  end.

End Objects.

(** ** Two servers *)

#[local] Existing Instances naemon_callbacks demo_naemon.

Definition demo_acts : NaemonActs :=
  {| check_result_ret _ := 0; add_notified_on n st := Z.lor n (Z.shiftl 1 st); CMD_RESTART_PROCESS := 13; CMD_SHUTDOWN_PROCESS := 14 |}.
#[local] Existing Instance demo_acts.

Definition demo_there : monitored_object_state :=
  zero_state <| s_last_check := 900 |> <| s_current_state := 2 |> <| s_plugin_output := Some "down"%string |>.
Definition demo_here : objects :=
  Objects {[ (HOST_CHECK, 2) := NagObject (zero_state <| s_last_check := 800 |> <| s_next_check := 1000 |>) 0 [] ]} [] None.

Lemma status_synchronised_witness :
  let '(r, s') := handle_result "Merlin peer twin" 12 "h2" None (MOD2NET_STATE_VARS demo_there) demo_here in
  r = 0 /\ s_current_state (o_state (os_objs s' !!! (HOST_CHECK, 2))) = 2 /\
  s_next_check (o_state (os_objs s' !!! (HOST_CHECK, 2))) = 1000.
Proof.
  pose proof (status_synchronised "Merlin peer twin" 12 "h2" None demo_there demo_here (HOST_CHECK, 2)) as H.
  destruct (handle_result "Merlin peer twin" 12 "h2" None (MOD2NET_STATE_VARS demo_there) demo_here) as [r s'] eqn:E.
  destruct H as (Hr & _ & _ & _ & H); [vm_compute; reflexivity|vm_compute; discriminate|].
  change (s_last_check demo_there <? s_last_check (o_state (os_objs demo_here !!! (HOST_CHECK, 2)))) with false in H.
  destruct H as [H1 H2]. split; [exact Hr|]. split.
  - exact (f_equal s_current_state H1).
  - exact (f_equal s_next_check H2).
Defined.

(** ** Where the code goes wrong *)

(** A comment that claims to be for a host and has a service is deleted from the host that was not looked up. *)
Theorem mixed_comment_crashes (NL : Naemon) : forall s,
  find_service "h1" "s1" = Some 1 ->
  (handle_comment_data true (FullComment (Comment USER_COMMENT HOST_CHECK false false "h1" "a" "b" (Some "s1"%string)) 0 0 0) s).1 = None.
Proof. intros s H. unfold handle_comment_data, find_object. cbn [cm_host cm_service fc_comment]. rewrite H. reflexivity. Qed.

(** A status update does not tell that an object has been checked. *)
Theorem has_been_checked_not_taken :
  s_has_been_checked (NET2MOD_STATE_VARS zero_state (MOD2NET_STATE_VARS (zero_state <| s_has_been_checked := 1 |>))) = 0.
Proof. reflexivity. Qed.
