(* ===== verification/Cfgfile.v ===== *)
(** * Configuration files: shared/cfgfile.c

    A configuration file is lines of "key = value" and compounds "name {" ... "}", nested as
    the user likes.  The source overwrites separators in its copy of the file with NULs and
    keeps pointers into it; here the texts those pointers stand for are cut out of the rest
    of the file.  A file with a NUL byte is not a text, and is not modelled. *)

From S2P Require Import Prelude.

Abbreviation text := (list ascii).

Definition NL : ascii := "010".
Definition CR : ascii := "013".
Definition TAB : ascii := "009".

(** shared/cfgfile.c:14-16 ISSPACE *)
Definition ISSPACE (c : ascii) : bool := Ascii.eqb c " " || Ascii.eqb c TAB || Ascii.eqb c CR.

(** What separates a key from its value. *)
Definition is_sep (c : ascii) : bool := ISSPACE c || Ascii.eqb c "=".

(** The longest prefix of characters that satisfy [p], and the rest. *)
Fixpoint span (p : ascii -> bool) (l : text) : text * text :=
  match l with
  | [] => ([], [])
  | c :: l' => if p c then let '(a, b) := span p l' in (c :: a, b) else ([], l)
  end.

(** A text without the white space at its end. *)
Fixpoint rstrip (l : text) : text :=
  match l with
  | [] => []
  | c :: l => match rstrip l with [] => if ISSPACE c then [] else [c] | r => c :: r end
  end.

(** shared/cfgfile.h:7-13 cfg_var *)
Record cfg_var := Var { v_line : Z; v_key : text; v_value : option text; v_key_len : Z; v_value_len : Z }.

(** shared/cfgfile.h:15-25 cfg_comp -- [parent] is where the compound is found: in the list of its parent
    once it is closed, below its parent on the stack of open compounds before. *)
Inductive cfg_comp := Comp (c_name : text) (c_start : Z) (c_vars : list cfg_var) (c_nest : list cfg_comp).

Definition c_name (c : cfg_comp) : text := let '(Comp n _ _ _) := c in n.
Definition c_start (c : cfg_comp) : Z := let '(Comp _ s _ _) := c in s.
Definition c_vars (c : cfg_comp) : list cfg_var := let '(Comp _ _ v _) := c in v.
Definition c_nest (c : cfg_comp) : list cfg_comp := let '(Comp _ _ _ n) := c in n.

(** What parsing ends with: the compound, [cfg_error] and exit, or behaviour that C leaves
    undefined (a byte before the start of a buffer is read) or that is not modelled (NUL).
    [CfgLoop] is a loop that was cut off, which never happens. *)
Inductive cfg_result (A : Type) := CfgOk (a : A) | CfgExit | CfgUndefined | CfgNul | CfgLoop.
Arguments CfgOk {A} a.
Arguments CfgExit {A}.
Arguments CfgUndefined {A}.
Arguments CfgNul {A}.
Arguments CfgLoop {A}.

Definition cfg_bind {A B} (r : cfg_result A) (k : A -> cfg_result B) : cfg_result B :=
  match r with
  | CfgOk a => k a
  | CfgExit => CfgExit | CfgUndefined => CfgUndefined | CfgNul => CfgNul | CfgLoop => CfgLoop
  end.

(** shared/cfgfile.c:74-95 start_compound -- an empty name has the byte before it looked at. *)
Definition start_compound (name : text) (line : Z) : option cfg_comp :=
  if bool_decide (name = []) then None else Some (Comp (rstrip name) line [] []).

(** shared/cfgfile.c:97-107 close_compound -- on the stack of open compounds. *)
Definition close_compound (stack : list cfg_comp) : option (list cfg_comp) :=
  match stack with
  | c :: Comp n s v cs :: up => Some (Comp n s v (cs ++ [c]) :: up)
  | _ => None
  end.

(** shared/cfgfile.c:109-125 add_var *)
Definition add_var (v : cfg_var) (stack : list cfg_comp) : list cfg_comp :=
  match stack with
  | Comp n s vs cs :: up => Comp n s (vs ++ [Var (v_line v) (v_key v) (rstrip <$> v_value v) (v_key_len v) (v_value_len v)]) cs :: up
  | [] => []
  end.

(** shared/cfgfile.c:217-237 parse_file -- the key and the value of a line; [l] is what is left of the line. *)
Definition split_var (line : Z) (l : text) : cfg_var :=
  match l with
  | [] => Var line [] None 0 0
  | c :: cs =>
      let '(k, r) := span (fun c => negb (is_sep c)) cs in
      let '(_, val) := span is_sep r in
      Var line (c :: k) (if bool_decide (val = []) then None else Some val)
        (if bool_decide (r = []) then 0 else Z.of_nat (length (c :: k))) (Z.of_nat (length val))
  end.

(** The state of the loop: the text that is left, the byte before it, the line number, whether
    [v.key] is set, which at the start of a turn means to an empty text, and the compounds. *)
Record cfg_state := Cfg { cf_rest : text; cf_prev : option ascii; cf_lnum : Z; cf_key : bool; cf_stack : list cfg_comp }.

Definition prev_chars (prev : option ascii) : text := match prev with Some c => [c] | None => [] end.

(** shared/cfgfile.c:211-215 parse_file -- what remains of a line without a semicolon at its end; [prev]
    is the byte before the line, [None] at the start of the file. *)
Definition strip_semicolon (prev : option ascii) (l : text) : option text :=
  if bool_decide (last l = Some ";"%char) then
    match last (prev_chars prev ++ removelast l) with
    | None => None
    | Some b => Some (if Ascii.eqb b "\" then l else rstrip (removelast l))
    end
  else Some l.

(** shared/cfgfile.c:190-246 parse_file -- a line that is neither empty nor a comment nor the end of a
    compound; [l] is the line, [rest] what follows it. *)
Definition parse_line (st : cfg_state) (prev : option ascii) (lnum : Z) (l rest : text) : cfg_result cfg_state :=
  let l := rstrip l in
  if bool_decide (last l = Some "{"%char) then
    match start_compound (rstrip (removelast l)) lnum with
    | None => CfgUndefined
    | Some c => CfgOk (Cfg rest (Some NL) lnum false (c :: cf_stack st))
    end
  else match strip_semicolon prev l with
    | None => CfgUndefined
    | Some l =>
        if cf_key st then CfgOk (Cfg rest (Some NL) lnum true (cf_stack st))
        else if bool_decide (l = []) then CfgOk (Cfg rest (Some NL) lnum true (cf_stack st))
        else CfgOk (Cfg rest (Some NL) lnum false (add_var (split_var lnum l) (cf_stack st)))
    end.

(** shared/cfgfile.c:161-188 parse_file -- one turn of the loop. *)
Definition parse_turn (st : cfg_state) : cfg_result cfg_state :=
  let lnum := cf_lnum st + 1 in
  let '(sp, r) := span ISSPACE (cf_rest st) in
  let prev := last (prev_chars (cf_prev st) ++ sp) in
  match r with
  | [] => CfgOk (Cfg [] prev lnum (cf_key st) (cf_stack st))
  | c :: r' =>
      if Ascii.eqb c NL then CfgOk (Cfg r' (Some NL) lnum false (cf_stack st))
      else if Ascii.eqb c "#" then
        CfgOk (Cfg (tail (span (fun c => negb (Ascii.eqb c NL)) r').2) (Some NL) lnum (cf_key st) (cf_stack st))
      else if Ascii.eqb c "}" then
        match close_compound (cf_stack st) with
        | None => CfgExit
        | Some stack => CfgOk (Cfg (tail r') (head r') lnum false stack)
        end
      else
        match span (fun c => negb (Ascii.eqb c NL) && negb (Ascii.eqb c "000")) r with
        | (l, e :: rest) => if Ascii.eqb e NL then parse_line st prev lnum l rest else CfgNul
        | (l, []) => CfgNul
        end
  end.

(** shared/cfgfile.c:158-160 parse_file -- the loop; the last byte of the text is the newline that
    cfg_read_file forces. *)
Fixpoint parse_loop (fuel : nat) (st : cfg_state) : cfg_result (list cfg_comp) :=
  match cf_rest st with
  | [] | [_] => CfgOk (cf_stack st)
  | _ => match fuel with
         | O => CfgLoop
         | S fuel => cfg_bind (parse_turn st) (parse_loop fuel)
         end
  end.

(** Every turn but those that end the parsing takes a character off the text. *)
Definition parse_text (path t : text) : cfg_result (list cfg_comp) :=
  match start_compound path 0 with
  | None => CfgUndefined
  | Some c => parse_loop (length t) (Cfg (t ++ [NL]) None 0 false [c])
  end.

(** What one read(2) gives: an error, or bytes, none at the end of the file. *)
Inductive read_res := ReadErr | ReadData (l : text).

(** shared/cfgfile.c:51-64 cfg_read_file -- the loop, on the results of the coming reads: each is stored
    at the length of the one before it. *)
Fixpoint read_loop (buf : text) (rd total : nat) (reads : list read_res) : option text :=
  match reads with
  | [] => if bool_decide (total = length buf) then Some buf else None
  | ReadErr :: _ => None
  | ReadData l :: reads =>
      let l := take (length buf - rd) l in
      let buf := take rd buf ++ l ++ drop (rd + length l) buf in
      let total := (total + length l)%nat in
      if bool_decide (total < length buf)%nat && negb (bool_decide (l = [])) then read_loop buf (length l) total reads
      else if bool_decide (total = length buf) then Some buf else None
  end.

(** shared/cfgfile.c:20-72 cfg_read_file -- [None] for a file that cannot be opened; [uninit] is what malloc
    returned, as long as the file. *)
Definition cfg_read_file (uninit : text) (file : option (list read_res)) : option text :=
  match file with None => None | Some reads => read_loop uninit 0 0 reads end.

(** shared/cfgfile.c:140-157 parse_file -- the loop is [parse_text]. *)
Definition parse_file (path uninit : text) (file : option (list read_res)) : cfg_result (option (list cfg_comp)) :=
  match cfg_read_file uninit file with
  | None => CfgOk None
  | Some t => cfg_bind (parse_text path t) (fun s => CfgOk (Some s))
  end.

(** shared/cfgfile.c:337-352 cfg_parse_file *)
Definition cfg_parse_file (path : option text) (uninit : text) (file : option (list read_res)) : cfg_result (option cfg_comp) :=
  match path with
  | None => CfgOk None
  | Some p =>
      cfg_bind (parse_file p uninit file) (fun r =>
        match r with
        | Some [c] => CfgOk (Some c)
        | Some _ => CfgExit
        | None => CfgOk None
        end)
  end.

(** ** The parser stops *)

Lemma span_length p l : (length (span p l).1 + length (span p l).2 = length l)%nat.
Proof. induction l as [|c l IH]; [done|]. cbn. destruct (p c); [|done]. destruct (span p l). cbn in *. lia. Qed.

Lemma span_snd p l : (length (span p l).2 <= length l)%nat.
Proof. pose proof (span_length p l). lia. Qed.

Lemma tail_le {A} (l : list A) : (length (tail l) <= length l)%nat.
Proof. destruct l; cbn; lia. Qed.

Lemma parse_line_rest st prev ln l rest st' : parse_line st prev ln l rest = CfgOk st' -> cf_rest st' = rest.
Proof.
  unfold parse_line. intros H. repeat case_match; simplify_eq; done.
Qed.

(** A turn takes at least one character off the text. *)
Lemma parse_turn_shorter st st' :
  parse_turn st = CfgOk st' -> cf_rest st <> [] -> (length (cf_rest st') < length (cf_rest st))%nat.
Proof.
  unfold parse_turn. intros H Hne. pose proof (span_length ISSPACE (cf_rest st)) as Hs.
  destruct (span ISSPACE (cf_rest st)) as [sp r]. cbn [fst snd] in Hs. destruct r as [|c r'].
  { simplify_eq. cbn in *. destruct (cf_rest st); [done|cbn; lia]. }
  destruct (Ascii.eqb c NL); [simplify_eq; cbn in *; lia|].
  destruct (Ascii.eqb c "#").
  { simplify_eq. cbn [cf_rest]. set (q := span _ r').
    pose proof (tail_le q.2). pose proof (span_snd (fun c => negb (Ascii.eqb c NL)) r'). fold q in H0. cbn in Hs. lia. }
  destruct (Ascii.eqb c "}").
  { destruct (close_compound _); simplify_eq. cbn. pose proof (tail_le r'). cbn in Hs. lia. }
  set (q := span _ (c :: r')) in H. pose proof (span_snd (fun c => negb (Ascii.eqb c NL) && negb (Ascii.eqb c "000")) (c :: r')) as Hq.
  fold q in Hq. destruct q as [l [|e rest]]; [done|]. destruct (Ascii.eqb e NL); [|done].
  apply parse_line_rest in H as ->. cbn in *. lia.
Qed.

Lemma parse_turn_no_loop st : parse_turn st <> CfgLoop.
Proof.
  unfold parse_turn, parse_line. repeat case_match; done.
Qed.

(** C40.  Parsing a file always ends: whatever the text, the loop reaches the end of the file, an error, or
    the one construct that C leaves undefined, within as many turns as the text has
    characters, since every turn moves on by at least one. *)
Theorem parse_terminates path t : parse_text path t <> CfgLoop.
Proof.
  unfold parse_text. destruct (start_compound path 0) as [c|]; [|done].
  assert (H : forall fuel st, (length (cf_rest st) <= S fuel)%nat -> parse_loop fuel st <> CfgLoop).
  { induction fuel as [|fuel IH]; intros st Hst.
    - destruct (cf_rest st) as [|x [|y r]] eqn:E; cbn [parse_loop]; rewrite E; try done. cbn in Hst. lia.
    - cbn [parse_loop]. destruct (cf_rest st) as [|x [|y r]] eqn:E; [done..|].
      pose proof (parse_turn_no_loop st) as Hn. pose proof (parse_turn_shorter st) as Hl.
      destruct (parse_turn st) as [st'| | | |]; try done. cbn. apply IH. specialize (Hl st' eq_refl).
      rewrite E in Hl. specialize (Hl ltac:(done)). cbn in *. lia. }
  apply H. cbn. rewrite length_app. cbn. lia.
Qed.

(** ** Printing and parsing *)

Definition plain (c : ascii) : bool := negb (Ascii.eqb c NL) && negb (Ascii.eqb c "000").

(** A text that can start a line and whose end is not taken for something else. *)
Definition line_ok (l : text) : bool :=
  match l with
  | [] => false
  | c :: _ => negb (ISSPACE c) && negb (Ascii.eqb c "#") && negb (Ascii.eqb c "}")
  end && forallb plain l &&
  match last l with Some c => negb (ISSPACE c) | None => false end.

Definition end_ok (l : text) : bool :=
  match last l with Some c => negb (Ascii.eqb c "{") && negb (Ascii.eqb c ";") | None => false end.

(** Keys without separators, values that start with no separator. *)
Definition var_ok (v : cfg_var) : bool :=
  forallb (fun c => negb (is_sep c)) (tail (v_key v)) &&
  match v_value v with
  | None => line_ok (v_key v) && end_ok (v_key v)
  | Some x => line_ok (v_key v ++ str " = " ++ x) && end_ok x && negb (bool_decide (v_key v = [])) &&
      match x with c :: _ => negb (is_sep c) | [] => false end
  end.

Fixpoint comp_ok (c : cfg_comp) : bool :=
  let '(Comp n _ vs cs) := c in line_ok n && forallb var_ok vs && forallb comp_ok cs.

Definition var_text (v : cfg_var) : text :=
  v_key v ++ match v_value v with Some x => str " = " ++ x | None => [] end.

(** The lines of a compound, every one indented by [ind]. *)
Definition print_line (ind l : text) : text := ind ++ l ++ [NL].

Fixpoint print_body (ind : text) (c : cfg_comp) : text :=
  let '(Comp _ _ vs cs) := c in
  concat (map (fun v => print_line ind (var_text v)) vs) ++
  concat (map (fun c => print_line ind (c_name c ++ str " {") ++ print_body ind c ++ print_line ind (str "}")) cs).

(** Compounds without line numbers and lengths. *)
Definition erase_var (v : cfg_var) : cfg_var := Var 0 (v_key v) (v_value v) 0 0.
Fixpoint erase (c : cfg_comp) : cfg_comp :=
  let '(Comp n _ vs cs) := c in Comp n 0 (map erase_var vs) (map erase cs).

Lemma span_all p a c b : forallb p a = true -> p c = false -> span p (a ++ c :: b) = (a, c :: b).
Proof.
  intros Ha Hc. induction a as [|x a IH]; cbn; [by rewrite Hc|]. cbn in Ha. apply andb_true_iff in Ha as [-> Ha].
  by rewrite IH.
Qed.

Lemma span_none p c b : p c = false -> span p (c :: b) = ([], c :: b).
Proof. intros H. cbn. by rewrite H. Qed.

Lemma rstrip_id l c : last l = Some c -> ISSPACE c = false -> rstrip l = l.
Proof.
  revert c. induction l as [|x l IH]; intros c Hl Hc; [done|]. cbn. destruct l as [|y l].
  - cbn in *. simplify_eq. by rewrite Hc.
  - rewrite (IH c) by done. done.
Qed.

Lemma rstrip_space l c x : last l = Some c -> ISSPACE c = false -> ISSPACE x = true -> rstrip (l ++ [x]) = l.
Proof.
  revert c. induction l as [|y l IH]; intros c Hl Hc Hx; [done|]. cbn. destruct l as [|z l].
  - cbn in *. rewrite Hx. simplify_eq. by rewrite Hc.
  - rewrite (IH c) by done. done.
Qed.

Lemma line_ok_inv l : line_ok l = true -> exists c l' e, l = c :: l' /\ last l = Some e /\ ISSPACE c = false /\
  Ascii.eqb c NL = false /\ Ascii.eqb c "#" = false /\ Ascii.eqb c "}" = false /\ forallb plain l = true /\ ISSPACE e = false.
Proof.
  unfold line_ok. rewrite !andb_true_iff. intros [[H1 H2] H3]. destruct l as [|c l]; [done|].
  destruct (last (c :: l)) as [e|] eqn:E; [|done]. rewrite !andb_true_iff, !negb_true_iff in H1. rewrite negb_true_iff in H3.
  exists c, l, e. cbn in H2. apply andb_true_iff in H2 as [Hp H2]. unfold plain in Hp. rewrite andb_true_iff, !negb_true_iff in Hp.
  destruct H1 as [[? ?] ?], Hp. split_and!; try done. cbn. unfold plain. rewrite H4, H5. done.
Qed.

(** A turn on an indented line. *)
Lemma turn_line ind l rest prev ln key stack :
  forallb ISSPACE ind = true -> line_ok l = true ->
  parse_turn (Cfg (print_line ind l ++ rest) prev ln key stack) =
  parse_line (Cfg (print_line ind l ++ rest) prev ln key stack) (last (prev_chars prev ++ ind)) (ln + 1) l rest.
Proof.
  intros Hi Hl. destruct (line_ok_inv l Hl) as (c & l' & e & -> & He & Hs & Hn & Hh & Hb & Hp & _).
  unfold parse_turn, print_line. cbn [cf_rest cf_prev cf_lnum cf_key cf_stack]. rewrite <- !app_assoc. cbn [app].
  rewrite (span_all ISSPACE ind c) by done. rewrite Hn, Hh, Hb.
  pose proof (span_all plain (c :: l') NL rest Hp eq_refl) as E. unfold plain in E. cbn [app] in E. rewrite E. done.
Qed.

Lemma start_compound_ok n ln : line_ok n = true -> start_compound n ln = Some (Comp n ln [] []).
Proof.
  intros H. destruct (line_ok_inv n H) as (c & l & e & -> & He & _ & _ & _ & _ & _ & Hs). unfold start_compound.
  rewrite bool_decide_eq_false_2 by done. by rewrite (rstrip_id _ e).
Qed.

Lemma turn_open ind n rest prev ln key stack :
  forallb ISSPACE ind = true -> line_ok n = true ->
  parse_turn (Cfg (print_line ind (n ++ str " {") ++ rest) prev ln key stack) =
  CfgOk (Cfg rest (Some NL) (ln + 1) false (Comp n (ln + 1) [] [] :: stack)).
Proof.
  intros Hi Hn. destruct (line_ok_inv n Hn) as (c & l & e & E & He & Hc & H1 & H2 & H3 & Hp & Hs).
  rewrite turn_line; [|done|].
  2: { unfold line_ok. rewrite forallb_app, Hp, last_app. subst n. cbn [app]. rewrite Hc, H2, H3. done. }
  unfold parse_line. rewrite (rstrip_id _ "{"%char) by (rewrite ?last_app; done).
  rewrite bool_decide_eq_true_2 by (by rewrite last_app).
  change (str " {") with ([" "%char] ++ ["{"%char]). rewrite app_assoc, removelast_last.
  rewrite (rstrip_space n e) by done. by rewrite start_compound_ok.
Qed.

Lemma turn_close ind rest prev ln key c n s v cs up :
  forallb ISSPACE ind = true ->
  parse_turn (Cfg (print_line ind (str "}") ++ rest) prev ln key (c :: Comp n s v cs :: up)) =
  CfgOk (Cfg rest (Some NL) (ln + 1) false (Comp n s v (cs ++ [c]) :: up)).
Proof.
  intros Hi. unfold parse_turn, print_line. cbn [cf_rest cf_prev cf_lnum cf_key cf_stack]. rewrite <- !app_assoc.
  cbn [app str String.list_ascii_of_string]. by rewrite (span_all ISSPACE ind "}").
Qed.

Lemma var_line_ok v : var_ok v = true -> line_ok (var_text v) = true /\ end_ok (var_text v) = true.
Proof.
  unfold var_ok, var_text. rewrite andb_true_iff. intros [_ H]. destruct (v_value v) as [x|].
  - rewrite !andb_true_iff in H. destruct H as [[[H1 H2] _] _]. split; [done|]. unfold end_ok in *.
    destruct (last x) as [c|] eqn:E; [|done]. by rewrite !last_app, E.
  - rewrite app_nil_r. by apply andb_true_iff in H.
Qed.

Lemma split_var_ok ln v :
  var_ok v = true -> erase_var (split_var ln (var_text v)) = erase_var v /\ var_text v <> [].
Proof.
  unfold var_ok, var_text, erase_var. rewrite andb_true_iff. intros [Hk H].
  destruct (v_key v) as [|k ks] eqn:Ek.
  { exfalso. destruct (v_value v); [|done]. rewrite !andb_true_iff in H. destruct H as [[_ H] _]. done. }
  cbn in Hk. destruct (v_value v) as [x|].
  - rewrite !andb_true_iff in H. destruct H as [_ Hx]. destruct x as [|c x]; [done|]. apply negb_true_iff in Hx.
    split; [|done]. cbn [app split_var].
    change (str " = " ++ c :: x) with (" "%char :: "="%char :: " "%char :: c :: x).
    rewrite (span_all _ ks " "%char) by done.
    pose proof (span_all is_sep [" "%char; "="%char; " "%char] c x eq_refl Hx) as E. cbn [app] in E. rewrite E. done.
  - split; [|done]. rewrite app_nil_r. cbn [split_var].
    assert (E : span (fun c => negb (is_sep c)) ks = (ks, [])).
    { clear -Hk. induction ks as [|c ks IH]; [done|]. cbn in *. apply andb_true_iff in Hk as [-> Hk]. by rewrite IH. }
    by rewrite E.
Qed.

Lemma turn_var ind v rest prev ln n s vs cs up :
  forallb ISSPACE ind = true -> var_ok v = true ->
  exists v', erase_var v' = erase_var v /\
  parse_turn (Cfg (print_line ind (var_text v) ++ rest) prev ln false (Comp n s vs cs :: up)) =
  CfgOk (Cfg rest (Some NL) (ln + 1) false (Comp n s (vs ++ [v']) cs :: up)).
Proof.
  intros Hi Hv. destruct (var_line_ok v Hv) as [Hl He]. destruct (line_ok_inv _ Hl) as (c & l & e & _ & Hlast & _ & _ & _ & _ & _ & Hs).
  rewrite turn_line by done. unfold parse_line. rewrite (rstrip_id _ e) by done.
  unfold end_ok in He. rewrite Hlast in He. rewrite andb_true_iff, !negb_true_iff, !Ascii.eqb_neq in He.
  rewrite Hlast, bool_decide_eq_false_2 by (destruct He; congruence).
  unfold strip_semicolon. rewrite Hlast, (bool_decide_eq_false_2 (Some e = Some ";"%char)) by (destruct He; congruence).
  cbn [cf_key cf_stack]. destruct (split_var_ok (ln + 1) v Hv) as [Hsp Hne]. rewrite bool_decide_eq_false_2 by done.
  eexists. split; [|reflexivity]. unfold erase_var in *. cbn. injection Hsp as -> Hval. f_equal.
  rewrite Hval. destruct (v_value v) as [x|] eqn:Ev; [|done]. cbn. f_equal.
  unfold var_text in Hlast. rewrite Ev, !last_app in Hlast. destruct (last x) as [y|] eqn:Ex; [|].
  - simplify_eq. by apply (rstrip_id _ e).
  - apply last_None in Ex as ->. done.
Qed.

(** What the parser goes through. *)
Abbreviation turns :=
  (rtc (fun a b => parse_turn a = CfgOk b /\ (1 < length (cf_rest a))%nat)).

Lemma turns_loop st st' fuel :
  turns st st' -> cf_rest st' = [NL] -> (length (cf_rest st) <= S fuel)%nat -> parse_loop fuel st = CfgOk (cf_stack st').
Proof.
  intros H. revert fuel. induction H as [st|a b st' [Ht Hl] _ IH]; intros fuel Hr Hf.
  - destruct fuel; cbn [parse_loop]; by rewrite Hr.
  - pose proof (parse_turn_shorter a b Ht) as Hs. destruct fuel as [|fuel]; [lia|]. cbn [parse_loop].
    destruct (cf_rest a) as [|x [|y r]] eqn:E; cbn in Hl; [lia|lia|]. rewrite Ht. cbn. apply IH; [done|].
    specialize (Hs ltac:(done)). cbn in *. lia.
Qed.

Lemma turns_vars ind vs rest prev ln n s done cs up :
  forallb ISSPACE ind = true -> forallb var_ok vs = true -> rest <> [] ->
  exists vs' prev' ln', map erase_var vs' = map erase_var vs /\
  turns (Cfg (concat (map (fun v => print_line ind (var_text v)) vs) ++ rest) prev ln false (Comp n s done cs :: up))
        (Cfg rest prev' ln' false (Comp n s (done ++ vs') cs :: up)).
Proof.
  intros Hi. revert prev ln done. induction vs as [|v vs IH]; intros prev ln done Hv Hr.
  - exists [], prev, ln. rewrite app_nil_r. split; [done|constructor].
  - cbn in Hv. apply andb_true_iff in Hv as [Hv Hvs]. cbn [map concat]. rewrite <- app_assoc.
    destruct (turn_var ind v (concat (map (fun v => print_line ind (var_text v)) vs) ++ rest) prev ln n s done cs up Hi Hv) as (v' & Ev & Et).
    destruct (IH (Some NL) (ln + 1) (done ++ [v']) Hvs Hr) as (vs' & p' & l' & Evs & Ht).
    exists (v' :: vs'), p', l'. rewrite <- app_assoc in Ht. split; [cbn; by f_equal|].
    eapply rtc_l; [|exact Ht]. split; [exact Et|]. cbn. unfold print_line. rewrite !length_app. cbn.
    destruct rest; [done|]. cbn. lia.
Qed.

Definition print_nest (ind : text) (c : cfg_comp) : text :=
  print_line ind (c_name c ++ str " {") ++ print_body ind c ++ print_line ind (str "}").

(** Induction on compounds and the compounds in them. *)
Lemma cfg_comp_ind' (P : cfg_comp -> Prop) :
  (forall n s vs cs, Forall P cs -> P (Comp n s vs cs)) -> forall c, P c.
Proof.
  intros H. fix IH 1. intros [n s vs cs]. apply H. induction cs as [|c cs IHcs]; constructor; [apply IH|exact IHcs].
Qed.

Lemma turns_body ind c : forallb ISSPACE ind = true -> comp_ok c = true ->
  forall rest prev ln n s up, rest <> [] ->
  exists vs' cs' prev' ln', map erase_var vs' = map erase_var (c_vars c) /\ map erase cs' = map erase (c_nest c) /\
  turns (Cfg (print_body ind c ++ rest) prev ln false (Comp n s [] [] :: up))
        (Cfg rest prev' ln' false (Comp n s vs' cs' :: up)).
Proof.
  intros Hi. induction c as [nm st vs cs IH] using cfg_comp_ind'. intros Hok rest prev ln n s up Hr.
  cbn [comp_ok] in Hok. rewrite !andb_true_iff in Hok. destruct Hok as [[_ Hvs] Hcs]. cbn [print_body c_vars c_nest].
  change (fun c => print_line ind (c_name c ++ str " {") ++ print_body ind c ++ print_line ind (str "}")) with (print_nest ind).
  rewrite <- app_assoc.
  destruct (turns_vars ind vs (concat (map (print_nest ind) cs) ++ rest) prev ln n s [] [] up Hi Hvs) as (vs' & p1 & l1 & Evs & T1).
  { destruct rest; [done|]. destruct (concat _); done. }
  cbn [app] in T1. exists vs'.
  cut (forall done p l, exists cs' p' l', map erase cs' = map erase cs /\
    turns (Cfg (concat (map (print_nest ind) cs) ++ rest) p l false (Comp n s vs' done :: up))
          (Cfg rest p' l' false (Comp n s vs' (done ++ cs') :: up))).
  { intros H. destruct (H [] p1 l1) as (cs' & p' & l' & Ecs & T2). exists cs', p', l'. split_and!; [done..|].
    etrans; [exact T1|exact T2]. }
  clear T1. induction IH as [|c cs Hc _ IHcs]; intros done p l.
  - exists [], p, l. rewrite app_nil_r. split; [done|constructor].
  - cbn in Hcs. apply andb_true_iff in Hcs as [Hc1 Hcs]. cbn [map concat]. unfold print_nest at 1. rewrite <- !app_assoc.
    set (rest1 := concat (map (print_nest ind) cs) ++ rest) in *.
    assert (Hr1 : rest1 <> []) by (unfold rest1; destruct rest; [done|]; by destruct (concat _)).
    assert (Hname : line_ok (c_name c) = true) by (destruct c; cbn in Hc1; rewrite !andb_true_iff in Hc1; apply Hc1).
    destruct (Hc Hc1 (print_line ind (str "}") ++ rest1) (Some NL) (l + 1) (c_name c) (l + 1) (Comp n s vs' done :: up))
      as (vsc & csc & p2 & l2 & Ev & Ec & T2); [destruct ind; done|].
    destruct (IHcs Hcs (done ++ [Comp (c_name c) (l + 1) vsc csc]) (Some NL) (l2 + 1)) as (cs' & p3 & l3 & Ecs & T3).
    exists (Comp (c_name c) (l + 1) vsc csc :: cs'), p3, l3. rewrite <- app_assoc in T3. split.
    + cbn. f_equal; [|done]. destruct c. cbn in *. by rewrite Ev, Ec.
    + eapply rtc_l; [split; [apply turn_open; done|]|].
      { cbn. unfold print_line. rewrite !length_app. cbn. lia. }
      etrans; [exact T2|]. eapply rtc_l; [split; [apply turn_close; done|]|exact T3].
      cbn [cf_rest]. unfold print_line. rewrite !length_app. change (length (str "}")) with 1%nat. cbn [length].
      destruct rest1; [done|]. cbn [length]. lia.
Qed.

(** C15.  What is printed is what is parsed.  The lines of a compound, every one indented as one likes, are
    read back as the same compound, whatever the nesting: the same name, the same
    variables in the same order with their values, and the same compounds inside. *)
Theorem cfg_roundtrip ind c uninit :
  forallb ISSPACE ind = true -> comp_ok c = true -> length uninit = length (print_body ind c) ->
  exists c', cfg_parse_file (Some (c_name c)) uninit (Some [ReadData (print_body ind c)]) = CfgOk (Some c') /\ erase c' = erase c.
Proof.
  intros Hi Hok Hlen. set (t := print_body ind c) in *.
  assert (Hread : read_loop uninit 0 0 [ReadData t] = Some t).
  { cbn. rewrite Nat.sub_0_r, Hlen, firstn_all, (drop_ge uninit) by lia. rewrite app_nil_r.
    rewrite (bool_decide_eq_false_2 (length t < length t)%nat) by lia. by rewrite (bool_decide_eq_true_2 (length t = length t)). }
  assert (Hname : line_ok (c_name c) = true) by (destruct c; cbn in Hok; rewrite !andb_true_iff in Hok; apply Hok).
  destruct (turns_body ind c Hi Hok [NL] None 0 (c_name c) 0 []) as (vs & cs & p & l & Ev & Ec & T); [done|].
  exists (Comp (c_name c) 0 vs cs). split; [|destruct c; cbn in *; by rewrite Ev, Ec].
  unfold cfg_parse_file, parse_file, cfg_read_file. rewrite Hread. unfold parse_text.
  rewrite start_compound_ok by done. fold t in T. rewrite (turns_loop _ _ (length t) T); [done|done|].
  cbn. rewrite length_app. cbn. lia.
Qed.

(** ** A configuration *)

Definition demo_conf : cfg_comp :=
  Comp (str "merlin.conf") 0 [Var 0 (str "ipc_socket") (Some (str "/run/ipc.sock")) 0 0; Var 0 (str "log") None 0 0]
    [Comp (str "poller p1") 0 [Var 0 (str "address") (Some (str "10.0.0.1")) 0 0; Var 0 (str "hostgroup") (Some (str "a, b")) 0 0]
       [Comp (str "object_config") 0 [Var 0 (str "push") (Some (str "mon oconf push")) 0 0] []];
     Comp (str "peer x") 0 [] []].

Lemma cfg_roundtrip_witness :
  exists c', cfg_parse_file (Some (str "merlin.conf")) (replicate (length (print_body [TAB] demo_conf)) "?"%char)
    (Some [ReadData (print_body [TAB] demo_conf)]) = CfgOk (Some c') /\ erase c' = demo_conf.
Proof.
  apply (cfg_roundtrip [TAB] demo_conf); [vm_compute; reflexivity..|]. apply length_replicate.
Defined.

(** ** Where the code goes wrong *)

(** A line with nothing but a semicolon hides the variables behind it, up to the next empty line. *)
Theorem lone_semicolon_hides :
  exists c, parse_text (str "f") (str "a=1" ++ [NL] ++ str " ;" ++ [NL] ++ str "b=2" ++ [NL; NL] ++ str "c=3") = CfgOk [c] /\
    map v_key (c_vars c) = [str "a"; str "c"].
Proof. eexists. split; vm_compute; reflexivity. Qed.

(** The character behind a closing brace is skipped, another closing brace too. *)
Theorem second_brace_skipped :
  (cfg_parse_file (Some (str "f")) (replicate 10 "?"%char)
     (Some [ReadData (str "a {" ++ [NL] ++ str "b{" ++ [NL] ++ str "}}" ++ [NL])])) = CfgExit.
Proof. vm_compute. reflexivity. Qed.

(** A file that arrives in three parts is put together wrongly, and taken for complete. *)
Theorem short_reads_garble :
  cfg_read_file (str "???") (Some [ReadData (str "a"); ReadData (str "b"); ReadData (str "c")]) = Some (str "ac?").
Proof. vm_compute. reflexivity. Qed.
