(* ===== verification/Config.v ===== *)
(** * Reading the configuration

    What the module makes of a parsed configuration file: the text helpers of
    shared/shared.c, the options of shared/configuration.c, shared/ipc.c and module/module.c,
    and the nodes and selections of shared/node.c, from which the node table is built.
    Log levels and files only change what is logged, for which see [Logging].  Files with keys,
    name resolution and paths are the class [ConfigEnv]. *)

From S2P Require Import Prelude Binlog Packet Io Merlin Pgroup Node Control Cfgfile.

(** ** Text *)

Definition isblank (c : ascii) : bool := Ascii.eqb c " " || Ascii.eqb c TAB.
Definition isspace (c : ascii) : bool := let n := Z.of_N (N_of_ascii c) in (n =? 32) || (9 <=? n) && (n <=? 13).
Definition toupper (c : ascii) : ascii :=
  let n := N_of_ascii c in if (97 <=? n)%N && (n <=? 122)%N then ascii_of_N (n - 32) else c.
Definition tolower (c : ascii) : ascii :=
  let n := N_of_ascii c in if (65 <=? n)%N && (n <=? 90)%N then ascii_of_N (n + 32) else c.

(** [strcmp (a, "...") == 0] and [prefixcmp (a, "...") == 0]. *)
Definition equals (a : text) (b : string) : bool := text_eqb a (str b).
Definition starts (a : text) (b : string) : bool := has_prefix (str b) a.

(** shared/shared.c:25-37 next_word *)
Definition next_word (s : text) : option text :=
  let r := (span (fun c => negb (isblank c)) s).2 in
  let w := (span (fun c => isblank c || Ascii.eqb c ",") r).2 in
  if bool_decide (w = []) then None else Some w.

(** The value of a digit, 36 for what is none. *)
Definition digit_value (c : ascii) : Z :=
  let n := Z.of_N (N_of_ascii (tolower c)) in
  if (48 <=? n) && (n <=? 57) then n - 48 else if (97 <=? n) && (n <=? 122) then n - 87 else 36.

Definition digits_value (base : Z) (l : text) : Z := foldl (fun a c => a * base + digit_value c) 0 l.

(** The base a number is written in and what is left of it behind a prefix 0x, for strtol(3) with base 0. *)
Definition detect_base (s : text) : Z * text :=
  match s with
  | "0"%char :: x :: c :: r =>
      if Ascii.eqb (tolower x) "x" && (digit_value c <? 16) then (16, c :: r) else (8, s)
  | "0"%char :: _ => (8, s)
  | _ => (10, s)
  end.

(** strtol(3) without the bounds: the sign, the number, whether there was one, and the rest. *)
Definition strtol_raw (base : Z) (s : text) : bool * Z * bool * text :=
  let r := (span isspace s).2 in
  let '(neg, r) := match r with c :: r' => if Ascii.eqb c "-" then (true, r') else if Ascii.eqb c "+" then (false, r') else (false, r)
                   | [] => (false, []) end in
  let '(base, r) := if base =? 0 then detect_base r else (base, r) in
  let '(d, rest) := span (fun c => digit_value c <? base) r in
  if bool_decide (d = []) then (false, 0, false, s) else (neg, digits_value base d, true, rest).

(** strtol(3) and strtoull(3) on 64 bits, with the rest of the text. *)
Definition strtol (s : text) : Z * text :=
  let '(neg, v, _, rest) := strtol_raw 10 s in
  (Z.max (- 2 ^ 63) (Z.min (2 ^ 63 - 1) (if neg then - v else v)), rest).
Definition strtoull (base : Z) (s : text) : Z * text :=
  let '(neg, v, _, rest) := strtol_raw base s in
  (if 2 ^ 64 - 1 <? v then 2 ^ 64 - 1 else u64 (if neg then - v else v), rest).
Definition atoi (s : text) : Z := s32 (strtol s).1.

(** shared/shared.c:72-85 strtobool -- of a text that is not empty. *)
Definition strtobool (s : text) : bool :=
  match s with
  | [] => false
  | c :: r =>
      let c := tolower c in
      if Ascii.eqb c "y" || Ascii.eqb c "t" || Ascii.eqb c "1" then true
      else if Ascii.eqb c "o" && match r with d :: _ => Ascii.eqb (tolower d) "n" | [] => false end then true
      else negb (atoi s =? 0)
  end.

(** shared/shared.c:189-221 callback_list -- the names; their ids are Naemon's. *)
Definition callback_names : list text := map str
  ["PROCESS"; "TIMED_EVENT"; "LOG"; "SYSTEM_COMMAND"; "EVENT_HANDLER"; "NOTIFICATION"; "SERVICE_CHECK"; "HOST_CHECK";
   "COMMENT"; "DOWNTIME"; "FLAPPING"; "PROGRAM_STATUS"; "HOST_STATUS"; "SERVICE_STATUS"; "ADAPTIVE_PROGRAM";
   "ADAPTIVE_HOST"; "ADAPTIVE_SERVICE"; "EXTERNAL_COMMAND"; "AGGREGATED_STATUS"; "RETENTION"; "CONTACT_NOTIFICATION";
   "CONTACT_NOTIFICATION_METHOD"; "ACKNOWLEDGEMENT"; "STATE_CHANGE"; "CONTACT_STATUS"; "ADAPTIVE_CONTACT"]%string.

(** What reading the configuration asks of others: the ids of Naemon's callbacks by their
    position in [callback_names]; addresses by name; the key shared with a node by the file of
    its public key; whether our private key can be read; the path of the daemon's socket, [None]
    when it is refused; inet_pton; the address as text. *)
Class ConfigEnv := {
  callback_number : nat -> Z;
  resolve : text -> option Z;
  shared_key : text -> option (list byte);
  private_key_ok : text -> bool;
  sock_path : text -> option string;
  inet_pton : text -> option Z;
  inet_ntoa : Z -> string;
  split_dir : text -> string }.

(** ** The state *)

(** The globals of the process that the configuration sets, besides those of the module's state. *)
Record config := Config {
  cg_merlin : merlin; cg_event_mask : Z; cg_use_database : bool; cg_log_reports : bool; cg_log_notifications : bool;
  cg_csync : merlin_confsync; cg_default_addr : Z; cg_split_dir : option string }.

#[export] Instance eta_config : Eta config := fun r =>
  Config (cg_merlin r) (cg_event_mask r) (cg_use_database r) (cg_log_reports r) (cg_log_notifications r)
    (cg_csync r) (cg_default_addr r) (cg_split_dir r).

(** Code that reads and writes them and may leave the process. *)
Definition CM (A : Type) : Type := config -> cfg_result (A * config).
#[export] Instance CM_ret : MRet CM := fun A a c => CfgOk (a, c).
#[export] Instance CM_bind : MBind CM := fun A B k m c => cfg_bind (m c) (fun '(a, c) => k a c).

Definition cgets {A} (f : config -> A) : CM A := fun c => CfgOk (f c, c).
Definition cmod (f : config -> config) : CM unit := fun c => CfgOk (tt, f c).
Definition cfg_error {A} : CM A := fun _ => CfgExit.
Definition cfg_crash {A} : CM A := fun _ => CfgUndefined.

(** On the module's state. *)
Definition mmod (f : merlin -> merlin) : CM unit := cmod (fun c => c <| cg_merlin ::= f |>).
Definition set_node (n : nat) (f : merlin_node -> merlin_node) : CM unit :=
  mmod (fun s => s <| m_nodes ::= fun ns => <[n := f (ns !!! n)]> ns |>).

Fixpoint each {A} (f : A -> CM unit) (l : list A) : CM unit :=
  match l with [] => mret tt | x :: l => f x ;; each f l end.

Section Config.
Context {QS : QSort} {CE : ConfigEnv}.

(** ** Events *)

(** shared/shared.c:240-268 callback_id -- a name of 100 characters writes behind the buffer. *)
Definition callback_id (orig_name : text) : option Z :=
  if (100 <? length orig_name)%nat then Some (-1)
  else if (length orig_name =? 100)%nat then None
  else Some match list_find (fun n => n = map toupper orig_name) callback_names with
            | Some (i, _) => callback_number i
            | None => -1
            end.

(** What a list of events comes to: a mask, a refusal, or reading behind its end. *)
Inductive filter_result := FilterMask (m : Z) | FilterRefused | FilterAll | FilterOverrun.

(** module/module.c:1074-1099 parse_event_filter -- the loop. *)
Fixpoint filter_loop (fuel : nat) (s : text) (mask : Z) : filter_result :=
  match fuel with
  | O => FilterOverrun
  | S fuel =>
      let s := (span (fun c => Ascii.eqb c "," || Ascii.eqb c " ") s).2 in
      if bool_decide (s = []) then FilterOverrun else
      let '(w, r) := span (fun c => negb (Ascii.eqb c ",")) s in
      if equals w "all" then FilterAll else
      match callback_id w with
      | None => FilterOverrun
      | Some code =>
          if (0 <=? code) && (code <? 32) then
            let mask := Z.lor mask (Z.shiftl 1 code) in
            if bool_decide (r = []) then FilterMask mask else filter_loop fuel r mask
          else FilterRefused
      end
  end.

(** module/module.c:1057-1104 parse_event_filter -- [FilterAll]: the mask is all ones, and what is returned is -1. *)
Definition parse_event_filter (s : option text) : filter_result :=
  match s with
  | None | Some [] => FilterRefused
  | Some s => filter_loop (S (length s)) s 0
  end.

(** ** Options *)

(** The value of a variable that is used without a check for NULL. *)
Definition value (v : cfg_var) : CM text := match v_value v with Some x => mret x | None => cfg_crash end.

(** shared/configuration.c:16-24 config_key_expires *)
Definition config_key_expires (key : text) : bool := equals key "ipc_debug_write" || equals key "ipc_debug_read".

(** shared/configuration.c:94-111 read_positive_number *)
Definition read_positive_number (s : text) : option Z :=
  if match s with c :: _ => Ascii.eqb c "-" | [] => false end then None else
  let '(_, _, found, rest) := strtol_raw 10 s in
  if bool_decide (rest = []) && found then Some (strtoull 10 s).1 else None.

(** shared/configuration.c:116-144 grok_binlog_var *)
Definition grok_binlog_var (key : text) (val : option text) : CM bool :=
  let text_of (k : text -> CM bool) := match val with Some v => k v | None => cfg_crash end in
  let set f := mmod (fun s => s <| m_binlog ::= f |>) ;; mret true in
  if equals key "binlog_dir" then text_of (fun v => set (fun b => b <| bc_dir := String.string_of_list_ascii v |>))
  else if equals key "binlog_max_memory_size" then
    text_of (fun v => match read_positive_number v with Some n => set (fun b => b <| bc_max_memory := n |>) | None => mret false end)
  else if equals key "binlog_max_file_size" then
    text_of (fun v => match read_positive_number v with Some n => set (fun b => b <| bc_max_file := n |>) | None => mret false end)
  else if equals key "binlog_persist" then text_of (fun v => set (fun b => b <| bc_persist := negb (atoi v =? 0) |>))
  else mret false.

(** shared/logging.c:11-68 log_grok_var -- whether the option is one; its effect is on logging. *)
Definition log_grok_var (key : text) (v : option text) : bool :=
  bool_decide (v <> None) &&
  (equals key "log_levels" || equals key "log_level" || equals key "use_syslog" || equals key "log_file").

(** The texts between commas that are not empty, as strtok_r takes them. *)
Fixpoint tokens (fuel : nat) (s : text) : list text :=
  match fuel with
  | O => []
  | S fuel =>
      let s := (span (fun c => Ascii.eqb c ",") s).2 in
      if bool_decide (s = []) then [] else
      let '(w, r) := span (fun c => negb (Ascii.eqb c ",")) s in w :: tokens fuel r
  end.

(** shared/ipc.c:198-251 ipc_grok_var -- a uuid is stored in [ipc], blocked host groups are put in front of
    the ones there are. *)
Definition ipc_grok_var (key : text) (v : option text) : CM bool :=
  match v with
  | None => mret false
  | Some v =>
      if equals key "ipc_socket" then
        match sock_path v with
        | Some p => mmod (fun s => s <| m_ipc_path := Some p |>) ;; mret true
        | None => mret false
        end
      else if equals key "ipc_privatekey" then mret (private_key_ok v)
      else if equals key "ipc_uuid" then
        if negb (length v =? 36)%nat then mret false else
        set_node IPC (fun ipc => ipc <| uuid ::= fun u => strcpy u (map byte_of_ascii v) |>) ;; mret true
      else if equals key "ipc_blocked_hostgroups" then
        match get_sorted_csstr v with
        | CsOverflow => cfg_crash
        | CsStr l =>
            mmod (fun s => s <| m_hooks ::= fun hk => hk <| hk_blocked ::= fun b => reverse (tokens (length l) l) ++ b |> |>) ;; mret true
        end
      else mret (equals key "ipc_binlog" || equals key "ipc_binlog_dir" || equals key "ipc_backlog_dir")
  end.

(** shared/configuration.c:151-202 grok_common_var *)
Definition grok_common_var (v : cfg_var) : CM bool :=
  let key := v_key v in
  if equals key "pulse_interval" then
    x ← value v;
    let n := s32 (strtoull 10 x).1 in
    mmod (fun s => s <| m_pulse_interval := if n =? 0 then 10 else n |>) ;; mret true
  else if config_key_expires key then mret true
  else if starts key "ipc_" then
    ok ← ipc_grok_var key (v_value v); if ok : bool then mret true else cfg_error
  else if starts key "log_" || equals key "use_syslog" then
    if log_grok_var key (v_value v) then mret true else cfg_error
  else if starts key "binlog_" then
    ok ← grok_binlog_var key (v_value v); if ok : bool then mret true else cfg_error
  else if starts key "oconfsplit_" then
    if equals key "oconfsplit_dir" then
      x ← value v; cmod (fun c => c <| cg_split_dir := Some (split_dir x) |>) ;; mret true
    else cfg_error
  else mret false.

(** shared/configuration.c:31-44 grok_db_compound -- other options are for the daemon. *)
Definition grok_db_var (v : cfg_var) : CM unit :=
  let key := v_key v in
  if equals key "log_report_data" then x ← value v; cmod (fun c => c <| cg_log_reports := strtobool x |>)
  else if starts key "log_notification" then x ← value v; cmod (fun c => c <| cg_log_notifications := strtobool x |>)
  else if starts key "track_current" then mret tt
  else if equals key "enabled" then x ← value v; cmod (fun c => c <| cg_use_database := strtobool x |>)
  else mret tt.

(** shared/configuration.c:26-30 grok_db_compound *)
Definition grok_db_compound (comp : cfg_comp) : CM unit :=
  cmod (fun c => c <| cg_use_database := true |>) ;; each grok_db_var (c_vars comp).

(** shared/configuration.c:64-81 grok_confsync_compound -- the loop; strdup of no value crashes. *)
Fixpoint grok_confsync_vars (vs : list cfg_var) (cs : merlin_confsync) : option merlin_confsync :=
  match vs with
  | [] => Some cs
  | v :: vs =>
      let cmd f := match v_value v with Some x => grok_confsync_vars vs (f (Some (String.string_of_list_ascii x))) | None => None end in
      if equals (v_key v) "push" then cmd (fun x => cs <| cs_push := x |>)
      else if equals (v_key v) "fetch" || equals (v_key v) "pull" then cmd (fun x => cs <| cs_fetch := x |>)
      else grok_confsync_vars vs cs
  end.

(** shared/configuration.c:52-63 grok_confsync_compound -- the whole structure is reset first. *)
Definition grok_confsync_compound (comp : cfg_comp) : option merlin_confsync :=
  grok_confsync_vars (c_vars comp) zero_csync.

(** ** Selections and nodes *)

(** The text without blanks at its end. *)
Fixpoint rstrip_blank (l : text) : text :=
  match l with
  | [] => []
  | c :: l => match rstrip_blank l with [] => if isblank c then [] else [c] | r => c :: r end
  end.

(** shared/node.c:226-259 add_one_selection *)
Definition add_one_selection (nm : text) (n : nat) : CM unit :=
  let nm := rstrip_blank nm in
  mmod (fun s => s <| m_hooks ::= fun hk => hk <| hk_selections ::= fun sels =>
    match list_find (fun x => sel_name x = nm) sels with
    | Some (i, x) => <[i := x <| sel_nodes ::= cons n |>]> sels
    | None => sels ++ [Selection nm [n]]
    end |> |>).

(** The names of a list of host groups: what is between commas, without the blanks before it. *)
Fixpoint hostgroup_names (fuel : nat) (s : text) : list text :=
  let '(w, r) := span (fun c => negb (Ascii.eqb c ",")) s in
  match fuel, r with
  | S fuel, _ :: r => w :: hostgroup_names fuel (span isblank r).2
  | _, _ => [w]
  end.

(** shared/node.c:261-278 add_selection *)
Definition add_selection (s : text) (n : nat) : CM unit :=
  each (fun w => add_one_selection w n) (hostgroup_names (length s) s).

(** shared/node.c:407-416 node_config_flags *)
Definition node_config_flags : list (Z * text) :=
  [(MERLIN_NODE_TAKEOVER, str "TAKEOVER"); (MERLIN_NODE_CONNECT, str "CONNECT"); (MERLIN_NODE_NOTIFIES, str "NOTIFIES");
   (MERLIN_NODE_FIXED_SRCPORT, str "FIXED_SRCPORT")].

(** shared/node.c:418-443 grok_node_flag *)
Definition grok_node_flag (fl : Z) (key v : text) : option Z :=
  match List.find (fun x => text_eqb (map tolower key) (map tolower x.2)) node_config_flags with
  | None => None
  | Some (code, _) => Some (if strtobool v then Z.lor fl code else Z.land fl (Z.lnot code))
  end.

(** What the loop over the variables of a node keeps: the address, and whether there were host groups. *)
Record node_vars := NodeVars { nv_address : option text; nv_selected : bool }.

(** shared/node.c:472-551 grok_node -- one variable of the node [n]. *)
Definition grok_node_var (n : nat) (nv : node_vars) (v : cfg_var) : CM node_vars :=
  let key := v_key v in
  ty ← cgets (fun c => type (m_nodes (cg_merlin c) !!! n));
  match v_value v with
  | None => cfg_error
  | Some x =>
      if negb (ty =?s MODE_MASTER) && (equals key "hostgroup" || equals key "hostgroups") then
        set_node n (fun node => node <| hostgroups := Some x |>) ;;
        add_selection x n ;; mret (NodeVars (nv_address nv) true)
      else if equals key "address" || equals key "host" then mret (NodeVars (Some x) (nv_selected nv))
      else if equals key "port" then
        if u16 (atoi x) =? 0 then cfg_error
        else set_node n (fun node => node <| sin_port := u16 (atoi x) |>) ;; mret nv
      else if equals key "data_timeout" then
        if bool_decide ((strtol x).2 = []) then set_node n (fun node => node <| data_timeout := u32 (strtol x).1 |>) ;; mret nv
        else cfg_error
      else if equals key "max_sync_attempts" then mret nv
      else if equals key "encrypted" then set_node n (fun node => node <| encrypted := atoi x =? 1 |>) ;; mret nv
      else if equals key "publickey" then
        match shared_key x with
        | None => cfg_error
        | Some k => set_node n (fun node => node <| sharedkey := k |>) ;; mret nv
        end
      else if equals key "uuid" then
        if negb (length x =? 36)%nat then cfg_error else
        mmod (fun s => s <| m_uuid_nodes ::= fun u => u + 1 |>) ;;
        set_node n (fun node => node <| uuid ::= fun u => strcpy u (map byte_of_ascii x) |>) ;; mret nv
      else if equals key "auto_delete" then
        if negb (ty =?s MODE_POLLER) then mret nv
        else if bool_decide ((strtol x).2 = []) then set_node n (fun node => node <| auto_delete := u32 (strtol x).1 |>) ;; mret nv
        else cfg_error
      else if equals key "accept_runcmd" then set_node n (fun node => node <| accept_runcmd := atoi x =? 1 |>) ;; mret nv
      else
        fl ← cgets (fun c => flags (m_nodes (cg_merlin c) !!! n));
        match grok_node_flag fl key x with
        | None => cfg_error
        | Some fl => set_node n (fun node => node <| flags := fl |>) ;; mret nv
        end
  end.

Fixpoint grok_node_vars (n : nat) (nv : node_vars) (vs : list cfg_var) : CM node_vars :=
  match vs with [] => mret nv | v :: vs => nv ← grok_node_var n nv v; grok_node_vars n nv vs end.

(** shared/node.c:560-573 grok_node -- one compound of the node [n]: marked as configured, and then reset. *)
Definition grok_node_comp (n : nat) (comp : cfg_comp) : CM unit :=
  if equals (c_name comp) "object_config" then
    match grok_confsync_compound comp with
    | None => cfg_crash
    | Some cs => set_node n (fun node => node <| csync := cs |>)
    end
  else if equals (c_name comp) "sync" then mret tt
  else cfg_error.

Definition default_flags (ty : mode) (fl : Z) : Z :=
  match ty with
  | MODE_MASTER => MERLIN_NODE_DEFAULT_MASTER_FLAGS
  | MODE_PEER => MERLIN_NODE_DEFAULT_PEER_FLAGS
  | MODE_POLLER => MERLIN_NODE_DEFAULT_POLLER_FLAGS
  | _ => fl
  end.

(** shared/node.c:445-579 grok_node -- [nm] is the name, [None] when the compound has none: then the address
    is looked up under it and the process crashes. *)
Definition grok_node (comp : cfg_comp) (nm : option text) (n : nat) : CM unit :=
  pulse ← cgets (fun c => m_pulse_interval (cg_merlin c));
  set_node n (fun node => node <| flags := default_flags (type node) (flags node) |> <| data_timeout := u32 (pulse * 2) |>
    <| encrypted := false |> <| auto_delete := 0 |>) ;;
  nv ← grok_node_vars n (NodeVars None false) (c_vars comp);
  match match nv_address nv with Some a => Some a | None => nm end with
  | None => cfg_crash
  | Some address =>
      (match resolve address with Some a => set_node n (fun node => node <| sin_addr := a |>) | None => mret tt end) ;;
      each (grok_node_comp n) (c_nest comp) ;;
      set_node n (fun node => node <| last_action := -1 |>) ;;
      ty ← cgets (fun c => type (m_nodes (cg_merlin c) !!! n));
      if (ty =?s MODE_POLLER) && negb (nv_selected nv) then cfg_error else mret tt
  end.

(** A compound is a node of a type, a compound for others, or an error. *)
Inductive comp_kind := CompNode (ty : mode) | CompOther | CompUnknown.

(** shared/node.c:603-627 node_grok_config -- what a compound is, by its name. *)
Definition kind_of_comp (nm : text) : comp_kind :=
  if starts nm "module" || starts nm "test" || starts nm "daemon" then CompOther
  else if starts nm "poller" || starts nm "slave" then CompNode MODE_POLLER
  else if starts nm "peer" then CompNode MODE_PEER
  else if starts nm "noc" || starts nm "master" then CompNode MODE_MASTER
  else CompUnknown.

(** shared/node.c:600-636 node_grok_config -- one compound; the nodes so far are 1 to [k]. *)
Definition grok_config_comp (k : nat) (comp : cfg_comp) : CM nat :=
  let n := S k in
  match kind_of_comp (c_name comp) with
  | CompOther => mret k
  | CompUnknown => cfg_error
  | CompNode ty =>
      let nm := next_word (c_name comp) in
      mmod (fun s => s <| m_nodes ::= <[n := zero_node <| type := ty |> <| flags := default_flags ty 0 |>]> |>) ;;
      grok_node comp nm n ;;
      set_node n (fun node => node <| name := match nm with Some w => String.string_of_list_ascii w | None => inet_ntoa (sin_addr node) end |>
        <| sock := -1 |> <| info := zero_info |>) ;;
      mret n
  end.

Fixpoint grok_config_comps (k : nat) (comps : list cfg_comp) : CM nat :=
  match comps with [] => mret k | c :: comps => k ← grok_config_comp k c; grok_config_comps k comps end.

(** The nodes of a type among 1 to [k], in order. *)
Definition of_type (ty : mode) (k : nat) (s : merlin) : list nat :=
  List.filter (fun n => type (m_nodes s !!! n) =?s ty) (seq 1 k).

Definition number_nodes (l : list nat) (s : merlin) : merlin :=
  foldl (fun s '(i, n) => s <| m_nodes ::= fun ns => <[n := (ns !!! n) <| node_id := Z.of_nat i |> <| incompatible_cluster_config := false |>]> ns |>)
    s (imap pair l).

(** shared/node.c:352-405 create_node_tree -- the counters are zero when the module starts, so that the three parts
    of the table follow each other. *)
Definition create_node_tree (k : nat) (s : merlin) : merlin :=
  let ms := of_type MODE_MASTER k s in
  let ps := of_type MODE_PEER k s in
  let pls := of_type MODE_POLLER k s in
  let more l := fun c => u32 (c + Z.of_nat (length l)) in
  let s := (on_node IPC (fun ipc => ipc <| info ::= fun i => i <| i_configured_masters ::= more ms |>
    <| i_configured_peers ::= more ps |> <| i_configured_pollers ::= more pls |> |>) s).2 in
  number_nodes (ms ++ ps ++ pls) (s <| m_table := ms ++ ps ++ pls |>).

(** shared/node.c:581-639 node_grok_config *)
Definition node_grok_config (comp : cfg_comp) : CM unit :=
  k ← grok_config_comps 0 (c_nest comp);
  mmod (create_node_tree k).

(** ** The module *)

(** module/module.c:1112-1156 grok_module_compound -- one variable; the masks of events to handle and to ignore. *)
Definition grok_module_var (masks : Z * Z) (v : cfg_var) : CM (Z * Z) :=
  let key := v_key v in
  if equals key "ipc_reap_interval" then mret masks
  else if equals key "event_mask" then
    x ← value v; cmod (fun c => c <| cg_event_mask := u32 (strtoull 0 x).1 |>) ;; mret masks
  else if equals key "handle_events" then
    match parse_event_filter (v_value v) with FilterMask m => mret (m, masks.2) | FilterOverrun => cfg_crash | _ => cfg_error end
  else if equals key "ignore_events" then
    match parse_event_filter (v_value v) with FilterMask m => mret (masks.1, m) | FilterOverrun => cfg_crash | _ => cfg_error end
  else if equals key "notifies" then
    x ← value v;
    set_node IPC (fun ipc => ipc <| flags ::= fun f =>
      if strtobool x then Z.lor f MERLIN_NODE_NOTIFIES else Z.land f (Z.lnot MERLIN_NODE_NOTIFIES) |>) ;; mret masks
  else if equals key "cluster_update" then
    x ← value v; mmod (fun s => s <| m_cluster_update := Some (String.string_of_list_ascii x) |>) ;; mret masks
  else
    ok ← grok_common_var v;
    if ok : bool then mret masks else
    if log_grok_var key (v_value v) then mret masks else
    ok ← ipc_grok_var key (v_value v);
    if ok : bool then mret masks else cfg_error.

Fixpoint grok_module_vars (masks : Z * Z) (vs : list cfg_var) : CM (Z * Z) :=
  match vs with [] => mret masks | v :: vs => masks ← grok_module_var masks v; grok_module_vars masks vs end.

(** module/module.c:1106-1160 grok_module_compound *)
Definition grok_module_compound (comp : cfg_comp) : CM unit :=
  '(handle, ignore) ← grok_module_vars (2 ^ 32 - 1, 0) (c_vars comp);
  cmod (fun c => c <| cg_event_mask := Z.land handle (Z.land (Z.lnot ignore) (2 ^ 32 - 1)) |>).

(** module/module.c:1166-1184 grok_daemon_compound -- one variable. *)
Definition grok_daemon_var (v : cfg_var) : CM unit :=
  if equals (v_key v) "port" then
    x ← value v;
    let '(p, rest) := strtoull 0 x in
    if (u16 p <? 1) || negb (bool_decide (rest = [])) then cfg_error else mmod (fun s => s <| m_default_port := u16 p |>)
  else if equals (v_key v) "address" then
    x ← value v;
    match inet_pton x with Some a => cmod (fun c => c <| cg_default_addr := a |>) | None => cfg_error end
  else mret tt.

(** module/module.c:1185-1195 grok_daemon_compound -- one compound. *)
Definition grok_daemon_comp (comp : cfg_comp) : CM unit :=
  if starts (c_name comp) "database" then grok_db_compound comp
  else if starts (c_name comp) "object_config" then
    match grok_confsync_compound comp with
    | None => cfg_crash
    | Some cs => cmod (fun c => c <| cg_csync := cs |>)
    end
  else mret tt.

(** module/module.c:1162-1196 grok_daemon_compound *)
Definition grok_daemon_compound (comp : cfg_comp) : CM unit :=
  each grok_daemon_var (c_vars comp) ;; each grok_daemon_comp (c_nest comp).

(** module/module.c:1204-1247 read_config -- of the parsed file, [None] when it cannot be read; the timeout of the
    node for untracked checks is not kept. *)
Definition read_config (file : option cfg_comp) : CM Z :=
  match file with
  | None => mret (-1)
  | Some config =>
      each (fun v => grok_common_var v ;; mret tt) (c_vars config) ;;
      each (fun comp => if starts (c_name comp) "module" then grok_module_compound comp
                        else if starts (c_name comp) "daemon" then grok_daemon_compound comp
                        else mret tt) (c_nest config) ;;
      node_grok_config config ;; mret 0
  end.

(** module/module.c:989-1011 host_hash_table_add_host -- the host is given to a selection unless it has one. *)
Definition host_hash_table_add_host (sel : nat) (h : nat) : M unit :=
  s ← gets (fun s => s);
  let nm := host_name (m_hosts s !!! h) in
  match hk_host_sel (m_hooks s) !! nm with
  | Some _ => mret tt
  | None => modify (fun s => s <| m_hooks ::= fun hk => hk <| hk_host_sel ::= <[nm := sel]> |> |>)
  end.

(** module/module.c:1013-1055 setup_host_hash_tables *)
Definition setup_host_hash_tables : M unit :=
  modify (fun s => s <| m_hooks ::= fun hk => hk <| hk_host_sel := ∅ |> |>) ;;
  s ← gets (fun s => s);
  let sels := hk_selections (m_hooks s) in
  if bool_decide (m_hostgroups s = []) || (num_pollers s =? 0) || bool_decide (sels = []) then mret tt else
  for_each (m_hostgroups s) (fun '(nm, members) =>
    match list_find (fun x => sel_name x = nm) sels with
    | None => mret tt
    | Some (i, _) => for_each members (host_hash_table_add_host i)
    end).

(** ** What follows *)

(** A command of the daemon's compound with the name of the node. *)
Definition global_cmd (cmd : string) (nm : string) : string := (cmd ++ " " ++ nm)%string.

Definition INADDR_LOOPBACK_NET : Z := 0x0100007f.

(** module/module.c:1610-1646 post_process_nodes -- what a node gets from us and from the defaults. *)
Definition post_process_defaults (global : merlin_confsync) (n : nat) : M unit :=
  ipc ← get_node IPC;
  port ← gets m_default_port;
  on_node n (fun node => node
    <| expected ::= fun e => e <| i_last_cfg_change := i_last_cfg_change (info ipc) |> |>
    <| expected ::= fun e => if type node =?s MODE_PEER then e <| i_config_hash := i_config_hash (info ipc) |> else e |>
    <| csync ::= fun cs =>
         if negb (type node =?s MODE_MASTER) && negb (cs_configured cs)
         then match cs_push global with Some c => cs <| cs_push := Some (global_cmd c (name node)) |> | None => cs end else cs |>
    <| csync ::= fun cs =>
         if (type node =?s MODE_MASTER) && negb (cs_configured cs)
         then match cs_fetch global with Some c => cs <| cs_fetch := Some (global_cmd c (name node)) |> | None => cs end else cs |>
    <| sin_port ::= fun p => if p =? 0 then port else p |>
    <| bq := [] |>).

Definition fix_srcport (n : nat) : M unit := on_node n (fun node => node <| flags ::= fun f => Z.lor f MERLIN_NODE_FIXED_SRCPORT |>).

(** module/module.c:1652-1685 post_process_nodes -- nodes with the address of another one keep their source port. *)
Definition post_process_ports (n : nat) (later : list nat) : M unit :=
  node ← get_node n;
  if has_flag (flags node) MERLIN_NODE_FIXED_SRCPORT then mret tt
  else if sin_addr node =? INADDR_LOOPBACK_NET then fix_srcport n
  else for_each later (fun x =>
    nx ← get_node x;
    if sin_addr node =? sin_addr nx then fix_srcport n ;; fix_srcport x else mret tt).

(** module/module.c:1603-1686 post_process_nodes -- the nodes from one on. *)
Fixpoint post_process (global : merlin_confsync) (ns : list nat) : M unit :=
  match ns with
  | [] => mret tt
  | n :: later =>
      post_process_defaults global n ;;
      node_binlog_read_saved n ;;
      post_process_ports n later ;;
      post_process global later
  end.

Definition post_process_nodes (global : merlin_confsync) : M unit :=
  s ← gets (fun s => s);
  post_process global (take (Z.to_nat (num_nodes s)) (m_table s)).

(** ** Reading a node touches no other *)

(** From [c] to [c'] only the node [n] was changed, and neither its type nor that it has host groups. *)
Definition node_at (c : config) (n : nat) : merlin_node := m_nodes (cg_merlin c) !!! n.

Definition frame (n : nat) (c c' : config) : Prop :=
  (forall m, m <> n -> node_at c' m = node_at c m) /\ type (node_at c' n) = type (node_at c n) /\
  (hostgroups (node_at c n) <> None -> hostgroups (node_at c' n) <> None).

Definition moves {A} (n : nat) (m : CM A) : Prop := forall c a c', m c = CfgOk (a, c') -> frame n c c'.

Section Moves.
Context (n : nat).

Lemma frame_refl c : frame n c c.
Proof. done. Qed.

Lemma frame_trans c1 c2 c3 : frame n c1 c2 -> frame n c2 c3 -> frame n c1 c3.
Proof.
  intros (H1 & H2 & H3) (K1 & K2 & K3). split_and!; [|congruence|auto].
  intros m Hm. rewrite K1, H1 by done. done.
Qed.

Lemma moves_ret {A} (a : A) : moves n (mret a).
Proof. intros c x c' H. injection H as _ <-. apply frame_refl. Qed.

Lemma moves_gets {A} (f : config -> A) : moves n (cgets f).
Proof. intros c x c' H. injection H as _ <-. apply frame_refl. Qed.

Lemma moves_stop {A} : moves n (@cfg_error A) /\ moves n (@cfg_crash A).
Proof. done. Qed.

Lemma moves_bind {A B} (m : CM A) (k : A -> CM B) : moves n m -> (forall a, moves n (k a)) -> moves n (m ≫= k).
Proof.
  intros Hm Hk c b c' H. unfold mbind, CM_bind, cfg_bind in H. destruct (m c) as [[a c1]| | | |] eqn:E; try done.
  eapply frame_trans; [by eapply Hm|by eapply Hk].
Qed.

Lemma moves_mmod f : (forall s, m_nodes (f s) = m_nodes s) -> moves n (mmod f).
Proof. intros Hf c x c' H. injection H as _ <-. unfold frame, node_at. cbn. by rewrite !Hf. Qed.

Lemma moves_set f :
  (forall x, type (f x) = type x /\ (hostgroups x <> None -> hostgroups (f x) <> None)) -> moves n (set_node n f).
Proof.
  intros Hf c x c' H. injection H as _ <-. unfold frame, node_at. cbn. split_and!.
  - intros m Hm. by rewrite lookup_total_insert_ne.
  - rewrite lookup_total_insert_eq. apply Hf.
  - rewrite lookup_total_insert_eq. apply Hf.
Qed.

Lemma moves_each {A} (f : A -> CM unit) l : (forall x, moves n (f x)) -> moves n (each f l).
Proof. intros Hf. induction l as [|x l IH]; [apply moves_ret|]. cbn. by apply moves_bind. Qed.
End Moves.

Create HintDb moves.
#[local] Hint Resolve moves_ret moves_gets moves_each : moves.
#[local] Hint Extern 1 (moves _ cfg_error) => apply moves_stop : moves.
#[local] Hint Extern 1 (moves _ cfg_crash) => apply moves_stop : moves.
#[local] Hint Extern 2 (moves _ (mmod _)) => apply moves_mmod; by intros : moves.
#[local] Hint Extern 2 (moves _ (set_node _ _)) => apply moves_set; intros []; cbn; done : moves.

Ltac moving := repeat first [ solve [auto with moves] | apply moves_bind; [|intros] | case_match ].

Lemma moves_selection n s : moves n (add_selection s n).
Proof. unfold add_selection, add_one_selection. apply moves_each. intros x. moving. Qed.
#[local] Hint Resolve moves_selection : moves.

Lemma moves_node_var n nv v : moves n (grok_node_var n nv v).
Proof. unfold grok_node_var. moving. Qed.

Lemma moves_node_vars n vs : forall nv, moves n (grok_node_vars n nv vs).
Proof. induction vs as [|v vs IH]; intros nv; [apply moves_ret|]. cbn. apply moves_bind; [apply moves_node_var|auto]. Qed.

Lemma moves_node_comp n c : moves n (grok_node_comp n c).
Proof. unfold grok_node_comp. moving. Qed.

(** Host groups were read when the variables say so. *)
Lemma selected_var n nv v c nv' c' :
  grok_node_var n nv v c = CfgOk (nv', c') -> nv_selected nv' = true ->
  nv_selected nv = true \/ hostgroups (node_at c' n) <> None.
Proof.
  intros H Hs. unfold grok_node_var in H. destruct (v_value v) as [x|]; [|done].
  unfold mbind at 1, CM_bind at 1, cgets at 1, cfg_bind at 1 in H.
  destruct (negb _ && _).
  - right. unfold mbind, CM_bind, cfg_bind, set_node, mmod, cmod in H.
    lazymatch type of H with context [add_selection x n ?c1] => set (c1' := c1) in H end.
    pose proof (moves_selection n x c1') as Hm. destruct (add_selection x n c1') as [[u c2]| | | |]; try done.
    injection H as <- <-. destruct (Hm u c2 eq_refl) as (_ & _ & Hh). apply Hh. unfold node_at, c1'. cbn.
    by rewrite lookup_total_insert_eq.
  - left. repeat (case_match; try done); unfold mbind, CM_bind, cfg_bind, set_node, mmod, cmod, cgets, mret, CM_ret in H;
      repeat (case_match; try done); by injection H as <- _.
Qed.

Lemma selected_vars n vs : forall nv c nv' c',
  grok_node_vars n nv vs c = CfgOk (nv', c') -> nv_selected nv' = true ->
  nv_selected nv = true \/ hostgroups (node_at c' n) <> None.
Proof.
  induction vs as [|v vs IH]; intros nv c nv' c' H Hs; [injection H as <- _; by left|].
  cbn in H. unfold mbind, CM_bind, cfg_bind in H. destruct (grok_node_var n nv v c) as [[nv1 c1]| | | |] eqn:E; try done.
  destruct (IH _ _ _ _ H Hs) as [H1|H1]; [|by right].
  destruct (selected_var _ _ _ _ _ _ E H1) as [|H2]; [by left|]. right.
  by apply (moves_node_vars n vs nv1 c1 nv' c' H).
Qed.

(** What a node is after its compound was read. *)
Lemma grok_node_frame comp nm n c u c' :
  grok_node comp nm n c = CfgOk (u, c') ->
  frame n c c' /\ (type (node_at c n) = MODE_POLLER -> hostgroups (node_at c' n) <> None).
Proof.
  unfold grok_node. intros H. unfold mbind, CM_bind, cfg_bind in H. cbn [cgets] in H.
  destruct (set_node n _ c) as [[u1 c1]| | | |] eqn:E1; try done.
  assert (F1 : frame n c c1) by (eapply moves_set, E1; intros []; cbn; done).
  destruct (grok_node_vars n _ (c_vars comp) c1) as [[nv c2]| | | |] eqn:E2; try done.
  pose proof (moves_node_vars n _ _ _ _ _ E2) as F2.
  destruct (match nv_address nv with Some a => Some a | None => nm end) as [addr|]; [|done].
  lazymatch type of H with match ?m with _ => _ end = _ => destruct m as [[u3 c3]| | | |] eqn:E3 end; try done.
  assert (F3 : frame n c2 c3).
  { destruct (resolve addr); [eapply moves_set, E3; intros []; cbn; done|injection E3 as _ <-; apply frame_refl]. }
  destruct (each (grok_node_comp n) (c_nest comp) c3) as [[u4 c4]| | | |] eqn:E4; try done.
  pose proof (moves_each n _ _ (moves_node_comp n) _ _ _ E4) as F4.
  destruct (set_node n _ c4) as [[u5 c5]| | | |] eqn:E5; try done.
  assert (F5 : frame n c4 c5) by (eapply moves_set, E5; intros []; cbn; done).
  unfold cgets in H. pose proof (frame_trans n _ _ _ F1 F2) as G2. pose proof (frame_trans n _ _ _ G2 F3) as G3.
  pose proof (frame_trans n _ _ _ G3 F4) as G4. pose proof (frame_trans n _ _ _ G4 F5) as G5.
  assert (c' = c5) as -> by (destruct (_ && _); [done|by injection H]).
  split; [exact G5|]. intros Hty. change (m_nodes (cg_merlin c5) !!! n) with (node_at c5 n) in H.
  rewrite (proj1 (proj2 G5)), Hty in H. change (MODE_POLLER =?s MODE_POLLER) with true in H. cbn [andb] in H.
  destruct (nv_selected nv) eqn:Es; [|done].
  destruct (selected_vars _ _ _ _ _ _ E2 Es) as [|Hh]; [done|].
  apply F5, F4, F3, Hh.
Qed.

(** The types of the nodes a list of compounds describes. *)
Definition node_types (comps : list cfg_comp) : list mode :=
  omap (fun c => match kind_of_comp (c_name c) with CompNode ty => Some ty | _ => None end) comps.

(** The nodes 1 to [k] have these types, pollers have host groups, and [ipc] is as it was. *)
Definition nodes_read (ipc : merlin_node) (tys : list mode) (k : nat) (c : config) : Prop :=
  node_at c IPC = ipc /\ k = length tys /\
  forall i ty, tys !! i = Some ty ->
    type (node_at c (S i)) = ty /\ (ty = MODE_POLLER -> hostgroups (node_at c (S i)) <> None).

Lemma grok_comp_read ipc tys k comp c k' c' :
  nodes_read ipc tys k c -> grok_config_comp k comp c = CfgOk (k', c') -> nodes_read ipc (tys ++ node_types [comp]) k' c'.
Proof.
  intros (Hi & Hk & Hn) H. unfold grok_config_comp in H. unfold node_types. cbn [omap list_omap].
  destruct (kind_of_comp (c_name comp)) as [ty| |]; [|injection H as <- <-; by rewrite app_nil_r|done].
  unfold mbind, CM_bind, cfg_bind in H. cbn [mmod cmod] in H.
  set (c1 := c <| cg_merlin ::= _ |>) in H.
  assert (N1 : node_at c1 (S k) = zero_node <| type := ty |> <| flags := default_flags ty 0 |>).
  { unfold node_at, c1. cbn. by rewrite lookup_total_insert_eq. }
  assert (O1 : forall m, m <> S k -> node_at c1 m = node_at c m).
  { intros m Hm. unfold node_at, c1. cbn. by rewrite lookup_total_insert_ne. }
  destruct (grok_node comp _ (S k) c1) as [[u c2]| | | |] eqn:E2; try done.
  destruct (grok_node_frame _ _ _ _ _ _ E2) as [F2 Hh].
  destruct (set_node (S k) _ c2) as [[u3 c3]| | | |] eqn:E3; try done.
  assert (F3 : frame (S k) c2 c3) by (eapply moves_set, E3; intros []; cbn; done).
  injection H as <- <-. pose proof (frame_trans _ _ _ _ F2 F3) as (Go & Gt & _). split_and!.
  - rewrite Go, O1 by done. exact Hi.
  - rewrite length_app. cbn. lia.
  - intros i ty' Hl. destruct (decide (i = k)) as [->|Hne].
    + rewrite lookup_app_r, Hk, Nat.sub_diag in Hl by lia. injection Hl as <-. rewrite Gt, N1. split; [done|].
      intros ->. apply F3, Hh. by rewrite N1.
    + assert (i < length tys)%nat as Hlt by (apply lookup_lt_Some in Hl; rewrite length_app in Hl; cbn in Hl; lia).
      rewrite lookup_app_l in Hl by done. rewrite Go, O1 by lia. by apply Hn.
Qed.

Lemma grok_comps_read ipc comps : forall tys k c k' c',
  nodes_read ipc tys k c -> grok_config_comps k comps c = CfgOk (k', c') -> nodes_read ipc (tys ++ node_types comps) k' c'.
Proof.
  induction comps as [|comp comps IH]; intros tys k c k' c' Hr H.
  { injection H as <- <-. by rewrite app_nil_r. }
  cbn in H. unfold mbind, CM_bind, cfg_bind in H. destruct (grok_config_comp k comp c) as [[k1 c1]| | | |] eqn:E; try done.
  pose proof (IH _ _ _ _ _ (grok_comp_read _ _ _ _ _ _ _ Hr E) H) as H1.
  rewrite <- app_assoc in H1. unfold node_types in *. by rewrite <- omap_app in H1.
Qed.

(** ** The node table *)

Lemma number_nodes_spec l s :
  NoDup l ->
  m_table (number_nodes l s) = m_table s /\
  (forall n, n ∉ l -> m_nodes (number_nodes l s) !!! n = m_nodes s !!! n) /\
  (forall i n, l !! i = Some n -> m_nodes (number_nodes l s) !!! n =
     (m_nodes s !!! n) <| node_id := Z.of_nat i |> <| incompatible_cluster_config := false |>).
Proof.
  intros Hnd. unfold number_nodes. induction l as [|x l IH] using rev_ind; [done|].
  rewrite imap_app, foldl_app. apply NoDup_app in Hnd as (Hl & Hx & _). destruct (IH Hl) as (Ht & Ho & Hi). cbn [imap foldl].
  set (s1 := foldl _ s (imap pair l)) in *. cbn. rewrite Nat.add_0_r. split_and!.
  - exact Ht.
  - intros n Hn. rewrite lookup_total_insert_ne by set_solver. apply Ho. set_solver.
  - intros i n Hn. destruct (decide (i = length l)) as [->|Hne].
    + rewrite lookup_app_r, Nat.sub_diag in Hn by lia. injection Hn as ->. rewrite lookup_total_insert_eq.
      rewrite (Ho n); [done|]. intros Hin. apply (Hx n Hin). set_solver.
    + assert (i < length l)%nat by (apply lookup_lt_Some in Hn; rewrite length_app in Hn; cbn in Hn; lia).
      rewrite lookup_app_l in Hn by done. rewrite lookup_total_insert_ne; [by apply Hi|].
      intros ->. apply (Hx n); [by eapply list_elem_of_lookup_2|set_solver].
Qed.

Lemma of_type_elem ty k s n : n ∈ of_type ty k s <-> (1 <= n <= k)%nat /\ type (m_nodes s !!! n) = ty.
Proof.
  unfold of_type. rewrite !list_elem_of_In, filter_In, in_seq. rewrite bool_decide_eq_true. intuition lia.
Qed.

Lemma of_type_nodup ty k s : NoDup (of_type ty k s).
Proof. unfold of_type. apply NoDup_ListNoDup, List.NoDup_filter, seq_NoDup. Qed.

(** The three parts of the table do not overlap. *)
Lemma parts_nodup k s : NoDup (of_type MODE_MASTER k s ++ of_type MODE_PEER k s ++ of_type MODE_POLLER k s).
Proof.
  rewrite !NoDup_app. split_and!; try apply of_type_nodup.
  - intros n. rewrite elem_of_app, !of_type_elem. intros [_ H] [[_ K]|[_ K]]; congruence.
  - intros n. rewrite !of_type_elem. intros [_ H] [_ K]. congruence.
Qed.

Lemma of_type_length ty k s tys :
  k = length tys -> (forall i t, tys !! i = Some t -> type (m_nodes s !!! S i) = t) ->
  length (of_type ty k s) = length (List.filter (fun t => t =?s ty) tys).
Proof.
  intros -> H. unfold of_type. assert (E : tys = map (fun n => type (m_nodes s !!! n)) (seq 1 (length tys))).
  { apply list_eq. intros i. destruct (tys !! i) as [t|] eqn:E.
    - rewrite list_lookup_fmap, lookup_seq_lt by (by eapply lookup_lt_Some). cbn. by rewrite (H i t E).
    - apply lookup_ge_None in E. symmetry. apply lookup_ge_None. by rewrite length_map, length_seq. }
  rewrite E at 2. clear E H. induction (seq 1 (length tys)) as [|n l IH]; [done|]. cbn. destruct (_ =?s ty); cbn; by rewrite IH.
Qed.

(** The places of a type in a list of types, from 1 on. *)
Definition places (ty : mode) (tys : list mode) : list nat := List.filter (fun n => tys !! (n - 1)%nat =?s Some ty) (seq 1 (length tys)).

Lemma of_type_places ty k s tys :
  k = length tys -> (forall i t, tys !! i = Some t -> type (m_nodes s !!! S i) = t) -> of_type ty k s = places ty tys.
Proof.
  intros -> H. unfold of_type, places. apply List.filter_ext_in. intros n Hn%in_seq. apply bool_decide_ext.
  destruct (lookup_lt_is_Some_2 tys (n - 1)) as [t Ht]; [lia|]. rewrite Ht. pose proof (H _ _ Ht) as E.
  replace (S (n - 1)) with n in E by lia. rewrite E. split; congruence.
Qed.

(** How many nodes of a type a list of types has. *)
Definition count_type (ty : mode) (tys : list mode) : Z := Z.of_nat (length (List.filter (fun t => t =?s ty) tys)).

Lemma count_type_le ty tys : 0 <= count_type ty tys <= Z.of_nat (length tys).
Proof. unfold count_type. split; [lia|]. apply inj_le. induction tys as [|t l IH]; cbn; [lia|]. destruct (_ =?s _); cbn; lia. Qed.

(** A compound of a node is for a master, a peer or a poller. *)
Lemma node_types_tier comps t : t ∈ node_types comps -> t = MODE_MASTER \/ t = MODE_PEER \/ t = MODE_POLLER.
Proof.
  unfold node_types. rewrite list_elem_of_omap. intros (c & _ & Hc). unfold kind_of_comp in Hc. repeat case_match; simplify_eq; auto.
Qed.

Lemma node_types_length comps : (length (node_types comps) <= length comps)%nat.
Proof. unfold node_types. induction comps as [|c l IH]; cbn; [lia|]. destruct (kind_of_comp _); cbn; lia. Qed.

(** The table that is built from nodes that were read. *)
Lemma tree_spec ipc tys k c :
  nodes_read ipc tys k c -> conf (info ipc) = (0, 0, 0) -> Z.of_nat (length tys) < 2 ^ 32 ->
  let s := create_node_tree k (cg_merlin c) in
  let ms := of_type MODE_MASTER k (cg_merlin c) in
  let ps := of_type MODE_PEER k (cg_merlin c) in
  let pls := of_type MODE_POLLER k (cg_merlin c) in
  m_table s = ms ++ ps ++ pls /\
  conf (self_of s) = (Z.of_nat (length ms), Z.of_nat (length ps), Z.of_nat (length pls)) /\
  (forall i n, m_table s !! i = Some n -> node_id (m_nodes s !!! n) = Z.of_nat i) /\
  (forall n, n ∈ m_table s -> type (m_nodes s !!! n) = type (node_at c n) /\ hostgroups (m_nodes s !!! n) = hostgroups (node_at c n)).
Proof.
  intros (Hi & Hk & Hn) Hc Hlen s ms ps pls. unfold create_node_tree in s. fold ms ps pls in s.
  lazymatch (eval cbv delta [s] in s) with number_nodes _ ?b => set (t := b) in s end.
  destruct (number_nodes_spec _ t (parts_nodup k (cg_merlin c))) as (Ht & Ho & Hin). fold ms ps pls in Ht, Ho, Hin. fold s in Ht, Ho, Hin.
  assert (Hz : forall n, n ∈ ms ++ ps ++ pls -> n <> IPC).
  { intros n Hn0 ->. rewrite !elem_of_app in Hn0. unfold ms, ps, pls, IPC in Hn0. rewrite !of_type_elem in Hn0. lia. }
  assert (Ht0 : m_table s = ms ++ ps ++ pls) by (rewrite Ht; done).
  assert (Hother : forall n, n <> IPC -> m_nodes t !!! n = node_at c n).
  { intros n Hne. unfold t. cbn. by rewrite lookup_total_insert_ne. }
  assert (Hl : forall ty, Z.of_nat (length (of_type ty k (cg_merlin c))) <= Z.of_nat (length tys)).
  { intros ty. rewrite (of_type_length ty k _ tys Hk) by (intros i t0 Ht1; by apply Hn). apply count_type_le. }
  split_and!.
  - exact Ht0.
  - unfold self_of, ipc_of. rewrite (Ho IPC) by (intros H; by apply (Hz IPC)). unfold t. cbn. rewrite lookup_total_insert_eq.
    unfold conf. cbn. change (m_nodes (cg_merlin c) !!! IPC) with (node_at c IPC). rewrite Hi. injection Hc as -> -> ->.
    pose proof (Hl MODE_MASTER). pose proof (Hl MODE_PEER). pose proof (Hl MODE_POLLER).
    rewrite !u32_small by (unfold ms, ps, pls; lia). done.
  - intros i n Hin0. rewrite Ht0 in Hin0. by rewrite (Hin i n Hin0).
  - intros n Hn0. rewrite Ht0 in Hn0. pose proof (Hz n Hn0) as Hne. apply list_elem_of_lookup in Hn0 as [i Hi0].
    rewrite (Hin i n Hi0). cbn. by rewrite Hother.
Qed.

(** C2.  The nodes of the configuration file make up the node table.  When a module whose counters are 0, as they are at its start,
    accepts a configuration, its table is the masters, then the peers, then the pollers, and each of these parts holds the nodes
    of exactly the compounds of its type, in the order of the file (node number n is what the n-th compound of a node describes); so
    every node of the file is in the table, once.  A node's id is its place in the table; the counters of
    configured nodes are the numbers of compounds and so the lengths of the parts; and every poller has host groups.  This is
    what forwarding and routing of events rely on. *)
Theorem node_table_read comp c u c' :
  conf (self_of (cg_merlin c)) = (0, 0, 0) -> Z.of_nat (length (c_nest comp)) < 2 ^ 32 ->
  node_grok_config comp c = CfgOk (u, c') ->
  let s := cg_merlin c' in
  let tys := node_types (c_nest comp) in
  table_typed s /\ (forall n, n ∈ peers s -> type (m_nodes s !!! n) = MODE_PEER) /\
  NoDup (m_table s) /\ m_table s = masters s ++ peers s ++ pollers s /\
  masters s = places MODE_MASTER tys /\ peers s = places MODE_PEER tys /\ pollers s = places MODE_POLLER tys /\
  m_table s ≡ₚ seq 1 (length tys) /\
  conf (self_of s) = (count_type MODE_MASTER tys, count_type MODE_PEER tys, count_type MODE_POLLER tys) /\
  (forall i n, m_table s !! i = Some n -> node_id (m_nodes s !!! n) = Z.of_nat i) /\
  (forall n, n ∈ pollers s -> hostgroups (m_nodes s !!! n) <> None).
Proof.
  intros Hc Hlen H s tys. unfold node_grok_config, mbind, CM_bind, cfg_bind in H.
  destruct (grok_config_comps 0 (c_nest comp) c) as [[k c1]| | | |] eqn:E; try done. injection H as _ <-.
  assert (R0 : nodes_read (node_at c IPC) [] 0 c) by (split_and!; done).
  pose proof (grok_comps_read _ _ _ _ _ _ _ R0 E) as R. cbn [app] in R. fold tys in R.
  assert (Hlt : Z.of_nat (length tys) < 2 ^ 32) by (unfold tys; pose proof (node_types_length (c_nest comp)); lia).
  destruct (tree_spec _ _ _ _ R Hc Hlt) as (Ht & Hcf & Hid & Hnode). change (create_node_tree k (cg_merlin c1)) with s in Ht, Hcf, Hid, Hnode.
  set (ms := of_type MODE_MASTER k (cg_merlin c1)) in *. set (ps := of_type MODE_PEER k (cg_merlin c1)) in *.
  set (pls := of_type MODE_POLLER k (cg_merlin c1)) in *. destruct R as (_ & Hk & Hn).
  assert (Hm : num_masters s = Z.of_nat (length ms)) by (unfold num_masters; by injection Hcf).
  assert (Hp : num_peers s = Z.of_nat (length ps)) by (unfold num_peers; by injection Hcf).
  assert (Hl : num_pollers s = Z.of_nat (length pls)) by (unfold num_pollers; by injection Hcf).
  assert (Ems : masters s = ms) by (unfold masters; rewrite Hm, Nat2Z.id, Ht; apply take_app_length).
  assert (Eps : peers s = ps) by (unfold peers; rewrite Hm, Hp, !Nat2Z.id, Ht, drop_app_length; apply take_app_length).
  assert (Epl : pollers s = pls).
  { unfold pollers. rewrite Hm, Hp, Hl, Nat2Z.id, Ht, app_assoc. rewrite <- Nat2Z.inj_add, Nat2Z.id, <- length_app, drop_app_length. by rewrite firstn_all. }
  assert (Hty : forall ty n, n ∈ of_type ty k (cg_merlin c1) -> n ∈ ms ++ ps ++ pls -> type (m_nodes s !!! n) = ty).
  { intros ty n Hin Hin2. rewrite <- Ht in Hin2. destruct (Hnode n Hin2) as [-> _]. apply of_type_elem in Hin. apply Hin. }
  rewrite Ems, Eps, Epl. unfold table_typed. rewrite Ems, Epl, Ht. split_and!.
  - intros n Hn0. apply Hty; [done|set_solver].
  - intros n Hn0. apply Hty; [done|set_solver].
  - intros Hin. rewrite !elem_of_app in Hin. unfold ms, ps, pls in Hin. rewrite !of_type_elem in Hin. unfold IPC in Hin. lia.
  - intros n Hn0. apply Hty; [done|set_solver].
  - apply parts_nodup.
  - done.
  - by apply of_type_places; [|intros i t Hi; apply Hn].
  - by apply of_type_places; [|intros i t Hi; apply Hn].
  - by apply of_type_places; [|intros i t Hi; apply Hn].
  - apply NoDup_Permutation; [apply NoDup_ListNoDup, parts_nodup|apply seq_NoDup|]. intros n. rewrite <- !list_elem_of_In. unfold ms, ps, pls.
    rewrite !elem_of_app, !of_type_elem, elem_of_seq. split; [lia|]. intros Hr.
    destruct (lookup_lt_is_Some_2 tys (n - 1)) as [t Ht1]; [lia|]. destruct (Hn _ _ Ht1) as [Hty1 _].
    replace (S (n - 1)) with n in Hty1 by lia. change (m_nodes (cg_merlin c1) !!! n) with (node_at c1 n). rewrite Hty1.
    destruct (node_types_tier _ _ (list_elem_of_lookup_2 _ _ _ Ht1)) as [-> |[-> | ->]]; intuition lia.
  - rewrite Hcf. unfold count_type. unfold ms, ps, pls. rewrite !(of_type_length _ k _ tys Hk) by (intros i t Hi; by apply Hn). done.
  - intros i n Hi. rewrite <- Ht in Hi. by apply Hid.
  - intros n Hn0. assert (n ∈ m_table s) as Hin by (rewrite Ht; set_solver). destruct (Hnode n Hin) as [_ ->].
    apply of_type_elem in Hn0 as [Hr Hty0]. destruct n as [|i]; [lia|].
    destruct (lookup_lt_is_Some_2 tys i) as [t Hi]; [lia|]. destruct (Hn i t Hi) as [Ht1 Hh]. apply Hh. rewrite <- Ht1. exact Hty0.
Qed.

End Config.

(** ** A configuration file *)

#[local] Existing Instance QSort_insertion.

Definition demo_env : ConfigEnv :=
  {| callback_number i := Z.of_nat i; resolve _ := Some 0x0a00000a; shared_key _ := None; private_key_ok _ := false;
     sock_path t := Some (String.string_of_list_ascii t); inet_pton _ := None; inet_ntoa _ := "10.0.0.10"%string;
     split_dir t := String.string_of_list_ascii t |}.
#[local] Existing Instance demo_env.

(** The module before it has read anything. *)
Definition demo_blank : config :=
  Config (demo0 <| m_nodes := {[ IPC := zero_node <| flags := MERLIN_NODE_DEFAULT_IPC_FLAGS |> ]} |> <| m_table := [] |>)
    0 false true true zero_csync 0 None.

Definition lines (l : list string) : text := concat (map (fun s => str s ++ [NL]) l).

(** What the process makes of the text of a file. *)
Definition load (t : text) : cfg_result (Z * config) :=
  cfg_bind (cfg_parse_file (Some (str "merlin.conf")) (replicate (length t) "?"%char) (Some [ReadData t]))
    (fun o => read_config o demo_blank).

Definition demo_file : text := lines
  ["log_level = info;"; "daemon {"; " object_config {"; "  push = mon push;"; " }"; "}"; "poller north {";
   " hostgroup = oslo, bergen;"; " port = 15551"; "}"; "master head {"; " address = 10.0.0.1"; "}"; "peer twin {";
   " object_config {"; " }"; "}"]%string.

Definition demo_parsed : cfg_comp := Eval vm_compute in
  match parse_text (str "merlin.conf") demo_file with CfgOk [c] => c | _ => Comp [] 0 [] [] end.

Lemma node_table_read_witness :
  exists c', node_grok_config demo_parsed demo_blank = CfgOk (tt, c') /\
    m_table (cg_merlin c') = [2; 3; 1]%nat /\ NoDup (m_table (cg_merlin c')) /\
    (masters (cg_merlin c'), peers (cg_merlin c'), pollers (cg_merlin c')) = ([2], [3], [1])%nat /\
    conf (self_of (cg_merlin c')) = (1, 1, 1).
Proof.
  destruct (node_grok_config demo_parsed demo_blank) as [[[] c']| | | |] eqn:E; try (vm_compute in E; discriminate E).
  exists c'. split; [reflexivity|].
  assert (E1 : m_table (cg_merlin c') = [2; 3; 1]%nat).
  { assert (E2 : match node_grok_config demo_parsed demo_blank with
                 | CfgOk (_, c) => m_table (cg_merlin c) | _ => [] end = [2; 3; 1]%nat) by (vm_compute; reflexivity).
    rewrite E in E2. exact E2. }
  split; [exact E1|].
  destruct (node_table_read demo_parsed demo_blank tt c') as (_ & _ & Hnd & _ & Hms & Hps & Hpl & _ & Hc & _);
    [vm_compute; reflexivity|vm_compute; reflexivity|exact E|].
  split; [exact Hnd|]. rewrite Hms, Hps, Hpl, Hc. split; vm_compute; reflexivity.
Defined.

(** ** Where the code goes wrong *)

(** An empty [object_config] is meant to keep a node from being synchronised: that the node has one is
    noted, and forgotten when the compound is read, so that the node gets the default command. *)
Theorem empty_compound_forgotten :
  match load demo_file with
  | CfgOk (_, c) => csync (m_nodes (post_process_nodes (cg_csync c) (cg_merlin c)).2 !!! 3%nat) =
      zero_csync <| cs_push := Some "mon push twin"%string |>
  | _ => False
  end.
Proof. vm_compute. reflexivity. Qed.

(** [handle_events = all] is understood and then refused, because what is returned for it is negative. *)
Theorem all_events_refused :
  load (lines ["module {"; " handle_events = all"; "}"]%string) = CfgExit /\
  parse_event_filter (Some (str "all")) = FilterAll.
Proof. vm_compute. auto. Qed.

(** [event_mask] is read and then overwritten. *)
Theorem event_mask_overwritten :
  match load (lines ["module {"; " event_mask = 0x80"; "}"]%string) with
  | CfgOk (_, c) => cg_event_mask c = 2 ^ 32 - 1
  | _ => False
  end.
Proof. vm_compute. reflexivity. Qed.

(** A comma at the end of a list of events makes the parser read on behind it. *)
Theorem trailing_comma_overruns : parse_event_filter (Some (str "comment,")) = FilterOverrun.
Proof. vm_compute. reflexivity. Qed.
