(* ===== verification/Misc.v ===== *)
(** * The hash of the configuration

    module/misc.c: which files the object configuration of Naemon consists of, when the last of
    them was changed, and the hash of their contents by which nodes compare configurations.
    The file system is a record, so that two servers can be compared; the functions of Naemon
    that make paths absolute are the class [Nspath].  An indeterminate value that is used, or
    memory outside a buffer, gives [None]. *)

From S2P Require Import Prelude Sha1 Pgroup Cfgfile Config.

(** ** Files *)

(** What stat(2) says of a file; it follows symbolic links. *)
Inductive file_kind := S_IFREG | S_IFDIR | S_IFLNK | S_IFOTHER.
Record stat := Stat { st_kind : file_kind; st_mtime : Z }.

(** Directories and files by their absolute paths: [fs_enter] is opendir and chdir together
    with the working directory that results, [fs_readdir] has the names in the order of
    readdir(3), [fs_read] is a file that is opened and read. *)
Record filesystem := Fs {
  fs_enter : text -> option text; fs_readdir : text -> list text;
  fs_stat : text -> option stat; fs_read : text -> option (list byte) }.

(** Naemon's nspath_absolute, and dirname of nspath_real. *)
Class Nspath := {
  nspath_absolute : text -> text -> text;
  nspath_dirname : text -> text }.

(** The lists of module/module.h; [None] is a stat that was never filled in. *)
Abbreviation file_list := (list (text * option stat)).

Definition NUL : ascii := "000".

(** A loop over a list in which a turn can end in undefined behaviour. *)
Fixpoint fold_opt {A B} (f : A -> B -> option B) (l : list A) (b : B) : option B :=
  match l with [] => Some b | x :: l => b ← f x b; fold_opt f l b end.

Section Misc.
Context {QS : QSort} {NP : Nspath}.

(** ** The main configuration file *)

Definition text_of_bytes (l : list byte) : text := map (fun b => ascii_of_N (Byte.to_N b)) l.

(** The loop from a newline backwards, on the reversed text before it.  [None]: it ran over the
    start of the buffer. *)
Fixpoint zero_back (back : text) : option text :=
  match back with
  | [] => None
  | c :: back' => if isspace c then zero_back back' ≫= fun r => Some (NUL :: r) else Some back
  end.

(** module/misc.c:64-73 read_strip_split -- the loop over the buffer, the part behind reversed. *)
Fixpoint strip_lines (back rest : text) : option text :=
  match rest with
  | [] => Some (reverse back)
  | c :: rest =>
      if Ascii.eqb c NL then zero_back back ≫= fun back => strip_lines (NUL :: back) rest
      else strip_lines (c :: back) rest
  end.

(** module/misc.c:34-76 read_strip_split -- [inl tt]: the file cannot be read; a read delivers
    the whole file. *)
Definition read_strip_split (fs : filesystem) (fname : text) : unit + option text :=
  match fs_stat fs fname, fs_read fs fname with
  | Some _, Some b => inr (strip_lines [] (text_of_bytes b))
  | _, _ => inl tt
  end.

(** The strings of a buffer, one behind the other.  [None]: the last one has no end. *)
Fixpoint buffer_strings (cur buf : text) : option (list text) :=
  match buf with
  | [] => if bool_decide (cur = []) then Some [] else None
  | c :: buf =>
      if Ascii.eqb c NUL then buffer_strings [] buf ≫= fun r => Some (reverse cur :: r)
      else buffer_strings (c :: cur) buf
  end.

(** ** Directories *)

(** module/misc.c:130-131 recurse_cfg_dir *)
Definition is_cfg (d : text) : bool :=
  (4 <=? length d)%nat && text_eqb (drop (length d - 4) d) (str ".cfg").

(** [wd/d] *)
Definition in_dir (wd d : text) : text := wd ++ str "/" ++ d.

(** module/misc.c:109-140 recurse_cfg_dir -- one entry of the directory [wd]; a failing stat
    leaves the result of the previous one.  [rec] is the recursive call, [deep] the test of
    the depth. *)
Definition dir_entry (fs : filesystem) (rec : text -> file_list -> option file_list) (deep : bool)
    (wd d : text) (a : file_list * option stat) : option (file_list * option stat) :=
  if equals d "." || equals d ".." then Some a else
  let st := match fs_stat fs (in_dir wd d) with Some x => Some x | None => a.2 end in
  match st with
  | None => None
  | Some k =>
      match st_kind k with
      | S_IFDIR => if deep then Some (a.1, st) else rec (in_dir wd d) a.1 ≫= fun l => Some (l, st)
      | S_IFOTHER => Some (a.1, st)
      | _ => Some (if is_cfg d then (in_dir wd d, st) :: a.1 else a.1, st)
      end
  end.

(** module/misc.c:84-147 recurse_cfg_dir -- NULL, the empty list, for a directory that cannot be
    entered.  The depth grows by two at each level, so [max_depth] is enough fuel. *)
Fixpoint recurse_cfg_dir (fs : filesystem) (fuel : nat) (max_depth depth : Z) (path : text)
    (list : file_list) : option file_list :=
  match fs_enter fs path with
  | None => Some []
  | Some wd =>
      let depth := depth + 1 in
      let rec := match fuel with
                 | O => fun _ _ => None
                 | S fuel => recurse_cfg_dir fs fuel max_depth (depth + 1)
                 end in
      fold_opt (dir_entry fs rec (depth >=? max_depth) wd) (fs_readdir fs wd) (list, None)
        ≫= fun a => Some a.1
  end.

Definition cfg_dir (fs : filesystem) (dir : text) (list : file_list) : option file_list :=
  recurse_cfg_dir fs 4 4 0 dir list.

(** module/misc.c:167-194 get_cfg_files -- one line. *)
Definition cfg_line (fs : filesystem) (base_path line : text) (list : file_list) : option file_list :=
  if starts line "cfg_file=" then
    let name := nspath_absolute (drop 9 line) base_path in
    Some ((name, fs_stat fs name) :: list)
  else if starts line "cfg_dir=" then
    cfg_dir fs (nspath_absolute (drop 8 line) base_path) list
  else Some list.

(** module/misc.c:152-201 get_cfg_files *)
Definition get_cfg_files (fs : filesystem) (f : text) (list : file_list) : option file_list :=
  match read_strip_split fs f with
  | inl _ => Some []
  | inr buf =>
      buf ← buf;
      if bool_decide (buf = []) then Some [] else
      lines ← buffer_strings [] buf;
      fold_opt (cfg_line fs (nspath_dirname f)) lines list
  end.

(** ** The two results *)

(** module/misc.c:211-214 get_last_cfg_change *)
Definition newer (e : text * option stat) (mt : Z) : option Z :=
  st ← e.2; Some (if st_mtime st >? mt then st_mtime st else mt).

(** module/misc.c:204-221 get_last_cfg_change *)
Definition get_last_cfg_change (fs : filesystem) (config_file : text) : option Z :=
  l ← get_cfg_files fs config_file []; fold_opt newer l 0.

(** module/misc.c:223-229 flist_cmp *)
Definition flist_cmp (a b : text * option stat) : Z := strcmp a.1 b.1.

(** module/misc.c:232-250 hash_add_file *)
Definition hash_add_file (fs : filesystem) (path : text) (ctx : blk_SHA_CTX) : Z * blk_SHA_CTX :=
  match fs_read fs path with
  | None => (-1, ctx)
  | Some b => (0, blk_SHA1_Update ctx b)
  end.

(** module/misc.c:252-278 get_sorted_oconf_files *)
Definition get_sorted_oconf_files (fs : filesystem) (config_file : text) : option file_list :=
  l ← get_cfg_files fs config_file []; Some (qsort flist_cmp l).

(** module/misc.c:285-304 get_config_hash *)
Definition get_config_hash (fs : filesystem) (config_file : text) (mem : blk_SHA_CTX) : option (list byte) :=
  l ← get_sorted_oconf_files fs config_file;
  Some (blk_SHA1_Final (foldl (fun ctx e => (hash_add_file fs e.1 ctx).2) (blk_SHA1_Init mem) l)).

End Misc.

(** ** What a directory holds *)

(** Every entry of a directory can be examined, and every directory below another be entered. *)
Definition readable (fs : filesystem) : Prop :=
  (forall wd d, d ∈ fs_readdir fs wd -> is_Some (fs_stat fs (in_dir wd d))) /\
  (forall p k, fs_stat fs p = Some k -> st_kind k = S_IFDIR -> is_Some (fs_enter fs p)).

(** The same files on two servers, whose directories may list them in different orders. *)
Definition same_tree (fs1 fs2 : filesystem) : Prop :=
  (forall p, fs_enter fs1 p = fs_enter fs2 p) /\ (forall p, fs_stat fs1 p = fs_stat fs2 p) /\
  (forall p, fs_read fs1 p = fs_read fs2 p) /\
  (forall p, Permutation (fs_readdir fs1 p) (fs_readdir fs2 p)).

(** The files an entry stands for, and those of a directory with its subdirectories. *)
Definition entry_files (fs : filesystem) (sub : text -> file_list) (deep : bool) (wd d : text) : file_list :=
  if equals d "." || equals d ".." then [] else
  match fs_stat fs (in_dir wd d) with
  | None => []
  | Some k =>
      match st_kind k with
      | S_IFDIR => if deep then [] else sub (in_dir wd d)
      | S_IFOTHER => []
      | _ => if is_cfg d then [(in_dir wd d, Some k)] else []
      end
  end.

Fixpoint tree_files (fs : filesystem) (fuel : nat) (max_depth depth : Z) (path : text) : file_list :=
  match fs_enter fs path with
  | None => []
  | Some wd =>
      flat_map (entry_files fs
        (match fuel with O => fun _ => [] | S fuel => tree_files fs fuel max_depth (depth + 2) end)
        (depth + 1 >=? max_depth) wd) (fs_readdir fs wd)
  end.

Lemma dir_entry_files fs rec sub deep wd d l st :
  is_Some (fs_stat fs (in_dir wd d)) ->
  (forall l, deep = false -> (exists k, fs_stat fs (in_dir wd d) = Some k /\ st_kind k = S_IFDIR) ->
    rec (in_dir wd d) l = Some (reverse (sub (in_dir wd d)) ++ l)) ->
  exists st', dir_entry fs rec deep wd d (l, st) = Some (reverse (entry_files fs sub deep wd d) ++ l, st').
Proof.
  intros [k Hk] Hrec. unfold dir_entry, entry_files. destruct (equals d "." || equals d ".."); [by eexists|].
  rewrite Hk. cbn [fst snd]. destruct (st_kind k) eqn:Ek; try (destruct (is_cfg d); by eexists).
  destruct deep; [by eexists|]. rewrite Hrec by eauto. by eexists.
Qed.

Lemma fold_entries_files fs rec sub deep wd names l st :
  readable fs -> (forall d, d ∈ names -> d ∈ fs_readdir fs wd) ->
  (forall p l, deep = false -> is_Some (fs_enter fs p) -> rec p l = Some (reverse (sub p) ++ l)) ->
  exists st', fold_opt (dir_entry fs rec deep wd) names (l, st)
    = Some (reverse (flat_map (entry_files fs sub deep wd) names) ++ l, st').
Proof.
  intros Hr Hn Hrec. revert l st. induction names as [|d names IH]; intros l st; [by eexists|].
  cbn [fold_opt flat_map]. destruct (dir_entry_files fs rec sub deep wd d l st) as [st1 E].
  - apply Hr, Hn. by left.
  - intros l' Hd (k & Hk & Hdir). apply Hrec; [done|]. by eapply Hr.
  - rewrite E. cbn [mbind option_bind].
    destruct (IH (fun d' Hd => Hn d' (list_elem_of_further d' d names Hd)) (reverse (entry_files fs sub deep wd d) ++ l) st1) as [st2 E2].
    exists st2. etrans; [exact E2|]. by rewrite reverse_app, <- app_assoc.
Qed.

Lemma recurse_files fs fuel max_depth depth path l :
  readable fs -> max_depth - depth <= Z.of_nat fuel -> is_Some (fs_enter fs path) ->
  recurse_cfg_dir fs fuel max_depth depth path l = Some (reverse (tree_files fs fuel max_depth depth path) ++ l).
Proof.
  intros Hr. revert depth path l. induction fuel as [|fuel IH]; intros depth path l Hf [wd Hwd];
    cbn [recurse_cfg_dir tree_files]; rewrite Hwd.
  - assert (depth + 1 >=? max_depth = true) as -> by lia.
    destruct (fold_entries_files fs (fun _ _ => None) (fun _ => []) true wd (fs_readdir fs wd) l None) as [st ->]; done.
  - replace (depth + 1 + 1) with (depth + 2) by lia.
    destruct (fold_entries_files fs (recurse_cfg_dir fs fuel max_depth (depth + 2))
      (tree_files fs fuel max_depth (depth + 2)) (depth + 1 >=? max_depth) wd (fs_readdir fs wd) l None) as [st ->]; try done.
    intros p l' Hd Hp. apply IH; [lia|done].
Qed.

Lemma flat_map_perm {A B} (f g : A -> list B) l k :
  Permutation l k -> (forall x, Permutation (f x) (g x)) -> Permutation (flat_map f l) (flat_map g k).
Proof.
  intros Hp Hfg. induction Hp as [|x l k _ IH|x y l|l k m _ IH1 _ IH2]; cbn.
  - done.
  - by rewrite Hfg, IH.
  - rewrite !Hfg, !app_assoc, (Permutation_app_comm (g y)). apply Permutation_app_head.
    clear -Hfg. induction l; cbn; [done|by rewrite Hfg, IHl].
  - rewrite IH1, <- IH2. clear -Hfg. induction k; cbn; [done|by rewrite <- Hfg, IHk].
Qed.

Lemma tree_files_perm fs1 fs2 fuel max_depth depth path :
  same_tree fs1 fs2 ->
  Permutation (tree_files fs1 fuel max_depth depth path) (tree_files fs2 fuel max_depth depth path).
Proof.
  intros (He & Hs & Hr & Hd). revert depth path. induction fuel as [|fuel IH]; intros depth path;
    cbn [tree_files]; rewrite He; destruct (fs_enter fs2 path) as [wd|]; try done;
    (apply flat_map_perm; [done|]); intros d; unfold entry_files; rewrite Hs; repeat case_match; done.
Qed.

Lemma readable_same fs1 fs2 : same_tree fs1 fs2 -> readable fs1 -> readable fs2.
Proof.
  intros (He & Hs & _ & Hd) [H1 H2]. split.
  - intros wd d Hin. rewrite <- Hs. apply H1. by rewrite Hd.
  - intros p k. rewrite <- Hs, <- He. apply H2.
Qed.

Section Misc.
Context {QS : QSort} {NP : Nspath}.

Lemma cfg_line_perm fs1 fs2 base line l1 l2 :
  same_tree fs1 fs2 -> readable fs1 -> Permutation l1 l2 ->
  option_Forall2 Permutation (cfg_line fs1 base line l1) (cfg_line fs2 base line l2).
Proof.
  intros Ht Hr Hl. unfold cfg_line. destruct (starts line "cfg_file="); [|destruct (starts line "cfg_dir=")].
  - destruct Ht as (_ & Hs & _). rewrite Hs. by constructor; apply perm_skip.
  - set (p := nspath_absolute _ _). unfold cfg_dir. pose proof (readable_same _ _ Ht Hr) as Hr2.
    destruct (fs_enter fs1 p) as [wd|] eqn:E.
    + rewrite !recurse_files; try done; try (eexists; done); [|rewrite <- (proj1 Ht), E; by eexists].
      constructor. by rewrite !reverse_Permutation, (tree_files_perm _ fs2), Hl.
    + cbn. rewrite E, <- (proj1 Ht), E. by constructor.
  - by constructor.
Qed.

Lemma get_cfg_files_perm fs1 fs2 f :
  same_tree fs1 fs2 -> readable fs1 ->
  option_Forall2 Permutation (get_cfg_files fs1 f []) (get_cfg_files fs2 f []).
Proof.
  intros Ht Hr. pose proof Ht as (_ & Hs & Hrd & _). unfold get_cfg_files, read_strip_split.
  rewrite Hs, Hrd. destruct (fs_stat fs2 f); [|by constructor]. destruct (fs_read fs2 f); [|by constructor].
  destruct (strip_lines [] _) as [buf|]; cbn; [|constructor]. case_bool_decide; [by constructor|].
  destruct (buffer_strings [] buf) as [ls|]; cbn; [|constructor].
  assert (Permutation (@nil (text * option stat)) []) as Hl by done. revert Hl. generalize (@nil (text * option stat)) at 1 3.
  generalize (@nil (text * option stat)). induction ls as [|line ls IH]; intros l2 l1 Hl; cbn; [by constructor|].
  destruct (cfg_line_perm fs1 fs2 (nspath_dirname f) line l1 l2 Ht Hr Hl); cbn; [by apply IH|constructor].
Qed.

Lemma newer_perm l1 l2 mt : Permutation l1 l2 -> fold_opt newer l1 mt = fold_opt newer l2 mt.
Proof.
  intros Hp. revert mt. induction Hp as [|x l k _ IH|x y l|l k m _ IH1 _ IH2]; intros mt; cbn.
  - done.
  - destruct (newer x mt); cbn; [apply IH|done].
  - destruct x as [n1 [a|]], y as [n2 [b|]]; cbn; try done. f_equal.
    destruct (st_mtime a >? mt) eqn:?, (st_mtime b >? mt) eqn:?, (st_mtime a >? st_mtime b) eqn:?,
      (st_mtime b >? st_mtime a) eqn:?; rewrite ?Heqb0, ?Heqb1, ?Heqb2, ?Heqb3; lia.
  - by rewrite IH1.
Qed.

(** Hashing a list of files is hashing what can be read of them, in order. *)
Lemma hash_files_fips fs (l : file_list) mem :
  length (sha_W mem) = 64%nat ->
  blk_SHA1_Final (foldl (fun ctx e => (hash_add_file fs e.1 ctx).2) (blk_SHA1_Init mem) l)
  = fips_sha1 (concat (omap (fs_read fs) l.*1)).
Proof.
  intros Hm. rewrite <- (final_repr (foldl blk_SHA1_Update (blk_SHA1_Init mem) (omap (fs_read fs) l.*1))).
  - f_equal. generalize (blk_SHA1_Init mem). induction l as [|[n st] l IH]; intros ctx; [done|].
    cbn. unfold hash_add_file. cbn [fst]. destruct (fs_read fs n); cbn; apply IH.
  - by apply (updates_repr _ _ []), init_repr.
Qed.

Lemma flist_cmp_total : cmp_total flist_cmp.
Proof.
  pose proof strcmp_total as [H1 H2]. split; [intros x y; apply H1|intros x y z; apply H2].
Qed.

Lemma sorted_names l : StronglySorted (fun a b => strcmp a b <= 0) (qsort flist_cmp l).*1.
Proof.
  pose proof (qsort_sorted flist_cmp l flist_cmp_total) as Hs.
  induction Hs as [|e k Hk IH He]; cbn; constructor; [done|]. by apply Forall_fmap.
Qed.

Lemma sorted_names_perm l1 l2 : Permutation l1 l2 -> (qsort flist_cmp l1).*1 = (qsort flist_cmp l2).*1.
Proof.
  intros Hp. assert (AntiSymm eq (fun a b => strcmp a b <= 0)) as Has by (intros a b; apply strcmp_antisym).
  eapply (StronglySorted_unique (fun a b => strcmp a b <= 0)); [apply sorted_names..|].
  by rewrite !qsort_perm, Hp.
Qed.

(** C14.  The configuration hash depends on the files alone.  On two servers with the same files,
    whatever order their directories are listed in, the hash is the same and so is the time of the
    last change; it is the SHA-1 of the contents of the files that the main configuration file
    names, directly or by directories searched in depth, in the order of their paths.  The
    directories below those named must be readable. *)
Theorem config_hash_canonical (fs1 fs2 : filesystem) (f : text) (mem1 mem2 : blk_SHA_CTX)
    (Hr : readable fs1) (Ht : same_tree fs1 fs2)
    (H1 : length (sha_W mem1) = 64%nat) (H2 : length (sha_W mem2) = 64%nat) :
  get_config_hash fs1 f mem1 = get_config_hash fs2 f mem2 /\
  get_last_cfg_change fs1 f = get_last_cfg_change fs2 f /\
  forall l, get_cfg_files fs1 f [] = Some l -> exists names,
    Permutation names l.*1 /\ StronglySorted (fun a b => strcmp a b <= 0) names /\
    get_config_hash fs1 f mem1 = Some (fips_sha1 (concat (omap (fs_read fs1) names))).
Proof.
  pose proof (get_cfg_files_perm fs1 fs2 f Ht Hr) as Hp.
  unfold get_config_hash, get_sorted_oconf_files, get_last_cfg_change. split_and!.
  - destruct Hp as [l1 l2 Hp|]; cbn [mbind option_bind]; [|done]. rewrite !hash_files_fips, (sorted_names_perm _ _ Hp) by done.
    do 3 f_equal. apply list_omap_ext. apply Forall2_same_length_lookup. split; [done|].
    intros i x y Hx Hy. simplify_eq. apply Ht.
  - destruct Hp as [l1 l2 Hp|]; cbn; [by apply newer_perm|done].
  - intros l ->. cbn [mbind option_bind]. exists (qsort flist_cmp l).*1. rewrite hash_files_fips by done.
    split_and!; [by rewrite qsort_perm|apply sorted_names|done].
Qed.

End Misc.

(** ** Two servers *)

#[export] Instance demo_nspath : Nspath := {|
  nspath_absolute p base := match p with "/"%char :: _ => p | _ => in_dir base p end;
  nspath_dirname _ := str "/etc" |}.

Fixpoint assoc {A} (l : list (string * A)) (p : text) : option A :=
  match l with [] => None | (n, a) :: l => if text_eqb (str n) p then Some a else assoc l p end.

Definition bytes_of (s : string) : list byte :=
  map (fun c => default Byte.x00 (Byte.of_N (N_of_ascii c))) (str s).

(** Directories with their entries and whether they can be entered, and files with their contents. *)
Definition demo_fs (dirs : list (string * (bool * list string))) (files : list (string * string)) : filesystem := {|
  fs_enter p := match assoc dirs p with Some (true, _) => Some p | _ => None end;
  fs_readdir p := match assoc dirs p with Some (_, l) => map str l | None => [] end;
  fs_stat p := match assoc dirs p, assoc files p with
    | Some _, _ => Some (Stat S_IFDIR 0)
    | None, Some c => Some (Stat S_IFREG (Z.of_nat (String.length c)))
    | None, None => None
    end;
  fs_read p := bytes_of <$> assoc files p |}.

Definition main_cfg : string :=
  String.append "# main" (String.append (String NL "cfg_dir=/etc/conf.d  ") (String NL (String.append "cfg_file=extra.cfg" (String NL "")))).

Definition server_files : list (string * string) :=
  [("/etc/naemon.cfg", main_cfg); ("/etc/extra.cfg", "extra"); ("/etc/conf.d/a.cfg", "aa");
   ("/etc/conf.d/b.cfg", "bbb"); ("/etc/conf.d/b.txt", "no"); ("/etc/conf.d/sub/c.cfg", "cccc")]%string.

Definition server1 : filesystem := demo_fs
  [("/etc/conf.d", (true, ["."; "a.cfg"; "sub"; "b.txt"; "b.cfg"])); ("/etc/conf.d/sub", (true, [".."; "c.cfg"]))]%string
  (("/etc/conf.d/.", "") :: ("/etc/conf.d/sub/..", "") :: server_files)%string.
Definition server2 : filesystem := demo_fs
  [("/etc/conf.d", (true, ["b.cfg"; "sub"; "."; "b.txt"; "a.cfg"])); ("/etc/conf.d/sub", (true, ["c.cfg"; ".."]))]%string
  (("/etc/conf.d/.", "") :: ("/etc/conf.d/sub/..", "") :: server_files)%string.

Lemma assoc_in {A} (l : list (string * A)) p a : assoc l p = Some a -> exists n, (n, a) ∈ l /\ p = str n.
Proof.
  induction l as [|[n b] l IH]; cbn; [done|]. destruct (text_eqb (str n) p) eqn:E.
  - intros [= ->]. apply text_eqb_eq in E as <-. exists n. split; [left|done].
  - intros H. destruct (IH H) as (m & Hm & ->). exists m. split; [by right|done].
Qed.

(** What makes [demo_fs] readable can be computed. *)
Lemma demo_readable dirs files :
  forallb (fun d => d.2.1 && forallb (fun n => bool_decide (is_Some (fs_stat (demo_fs dirs files) (in_dir (str d.1) (str n))))) d.2.2)
    dirs = true -> readable (demo_fs dirs files).
Proof.
  rewrite forallb_forall. intros H. split.
  - intros wd d. cbn [fs_readdir demo_fs]. destruct (assoc dirs wd) as [[b l]|] eqn:E; [|by intros ?%elem_of_nil].
    apply assoc_in in E as (n & Hn & ->). apply list_elem_of_In in Hn. specialize (H _ Hn). cbn [fst snd] in H.
    apply andb_true_iff in H as [_ H]. rewrite forallb_forall in H.
    intros (m & -> & Hm)%list_elem_of_fmap. apply list_elem_of_In in Hm. by apply H, bool_decide_eq_true in Hm.
  - intros p k. cbn. destruct (assoc dirs p) as [[b l]|] eqn:E; [|by destruct (assoc files p); intros [= <-]].
    apply assoc_in in E as (n & Hn & ->). apply list_elem_of_In in Hn. specialize (H _ Hn). cbn in H.
    apply andb_true_iff in H as [-> _]. by eexists.
Qed.

Lemma demo_same (dirs1 dirs2 : list (string * (bool * list string))) files :
  Forall2 (fun d e => d.1 = e.1 /\ d.2.1 = e.2.1 /\ Permutation d.2.2 e.2.2) dirs1 dirs2 ->
  same_tree (demo_fs dirs1 files) (demo_fs dirs2 files).
Proof.
  intros H. assert (forall p, option_Forall2 (fun d e => d.1 = e.1 /\ Permutation d.2 e.2) (assoc dirs1 p) (assoc dirs2 p)) as Ha.
  { intros p. induction H as [|[n [b l]] [m [c k]] ds es (A & B & C) _ IH]; cbn in *; subst; [constructor|].
    destruct (text_eqb _ p); [by constructor|done]. }
  split_and!; intros p; cbn; destruct (Ha p) as [[b l] [c k] [E1 E2]|]; cbn in *; subst; try done.
  by apply fmap_Permutation.
Qed.

Lemma servers_same : same_tree server1 server2.
Proof.
  apply demo_same. repeat constructor; cbn; try done.
  all: apply (bool_decide_unpack _); vm_compute; exact I.
Qed.

Lemma config_hash_canonical_witness :
  get_config_hash (QS := QSort_insertion) server1 (str "/etc/naemon.cfg") ctx0
    = get_config_hash (QS := QSort_insertion) server2 (str "/etc/naemon.cfg") ctx0 /\
  get_config_hash (QS := QSort_insertion) server1 (str "/etc/naemon.cfg") ctx0
    = Some (fips_sha1 (bytes_of "aabbbccccextra")).
Proof.
  split; [|vm_compute; reflexivity].
  apply (config_hash_canonical (QS := QSort_insertion) server1 server2 (str "/etc/naemon.cfg") ctx0 ctx0).
  - apply demo_readable. vm_compute. reflexivity.
  - apply servers_same.
  - reflexivity.
  - reflexivity.
Defined.

(** A subdirectory that cannot be entered throws away the files found before it, so that the
    hash of the same files depends on the order of the directory. *)
Theorem closed_directory_drops_files :
  let dir l := demo_fs [("/etc/conf.d", (true, l)); ("/etc/conf.d/sub", (false, []))]%string server_files in
  let hash l := get_config_hash (QS := QSort_insertion) (dir l) (str "/etc/naemon.cfg") ctx0 in
  hash ["a.cfg"; "sub"; "b.cfg"]%string = Some (fips_sha1 (bytes_of "bbbextra")) /\
  hash ["b.cfg"; "sub"; "a.cfg"]%string = Some (fips_sha1 (bytes_of "aaextra")).
Proof. split; vm_compute; reflexivity. Qed.

(** The depth is counted twice, so that files in the third subdirectory are not found. *)
Theorem third_level_not_searched :
  let fs := demo_fs
    [("/etc/conf.d", (true, ["1"])); ("/etc/conf.d/1", (true, ["2"; "x.cfg"])); ("/etc/conf.d/1/2", (true, ["3"; "y.cfg"]));
     ("/etc/conf.d/1/2/3", (true, ["z.cfg"]))]%string
    [("/etc/conf.d/1/x.cfg", ""); ("/etc/conf.d/1/2/y.cfg", ""); ("/etc/conf.d/1/2/3/z.cfg", "")]%string in
  fmap (map fst) (cfg_dir fs (str "/etc/conf.d") []) = Some [str "/etc/conf.d/1/x.cfg"; str "/etc/conf.d/1/2/y.cfg"].
Proof. vm_compute. reflexivity. Qed.

(** A main file that begins with an empty line makes the loop read in front of the buffer, one
    without a final newline behind it. *)
Theorem main_file_overruns :
  let fs c := demo_fs [] [("/etc/naemon.cfg", c)]%string in
  get_cfg_files (fs (String NL main_cfg)) (str "/etc/naemon.cfg") [] = None /\
  get_cfg_files (fs "cfg_file=/etc/a.cfg"%string) (str "/etc/naemon.cfg") [] = None.
Proof. split; vm_compute; reflexivity. Qed.
