(* ===== verification/Oconfsplit.v ===== *)
(** * The object configuration of a poller

    module/oconfsplit.c: for every poller a file is written with the hosts of the poller's host
    groups and all that these need.  Naemon's objects are numbered within their tables, as the
    bitmaps of the code number them, and refer to each other by number.  The functions of Naemon
    that print an object are a class; the file is first a list of what is printed, and then
    the text. *)

From S2P Require Import Prelude Sha1 Binlog Packet Io Merlin Pgroup Control Cfgfile Config Misc.

(** ** Naemon's objects *)

(** What hosts and services have in common. *)
Record slaves := Slaves {
  sl_event_handler : option nat; sl_check_command : option nat; sl_check_period : option nat;
  sl_notification_period : option nat; sl_contact_groups : list nat; sl_contacts : list nat }.

#[export] Instance inhabited_slaves : Inhabited slaves := populate (Slaves None None None None [] []).

Record contact := Contact {
  c_host_notification_period : option nat; c_service_notification_period : option nat;
  c_host_notification_commands : list (option nat); c_service_notification_commands : list (option nat) }.

Record dependency := Dependency {
  dep_master : nat; dep_period : option nat }.

Record escalation := Escalation {
  es_period : option nat; es_contact_groups : list nat; es_contacts : list nat }.

Record oservice := Service {
  sv_host : nat; sv_description : text; sv_slaves : slaves; sv_parents : list nat;
  sv_exec_deps : list nat; sv_notify_deps : list nat; sv_escalations : list nat }.

Record ohost := OHost {
  oh_name : text; oh_slaves : slaves; oh_parents : list nat; oh_services : list nat;
  oh_exec_deps : list nat; oh_notify_deps : list nat; oh_escalations : list nat }.

Record ogroup := Group { g_name : text; g_members : list nat }.

#[export] Instance inhabited_contact : Inhabited contact := populate (Contact None None [] []).
#[export] Instance inhabited_dependency : Inhabited dependency := populate (Dependency 0 None).
#[export] Instance inhabited_escalation : Inhabited escalation := populate (Escalation None [] []).
#[export] Instance inhabited_oservice : Inhabited oservice := populate (Service 0 [] inhabitant [] [] [] []).
#[export] Instance inhabited_ohost : Inhabited ohost := populate (OHost [] inhabitant [] [] [] [] []).
#[export] Instance inhabited_ogroup : Inhabited ogroup := populate (Group [] []).

(** The tables: time periods with their exclusions, contact groups with their members. *)
Record oconf := Oconf {
  o_timeperiods : list (list (option nat)); o_contacts : list contact; o_contactgroups : list (list nat);
  o_hosts : list ohost; o_services : list oservice; o_hostdeps : list dependency;
  o_servicedeps : list dependency; o_hostescalations : list escalation;
  o_serviceescalations : list escalation; o_hostgroups : list ogroup; o_servicegroups : list ogroup;
  o_global_commands : list (option nat) }.

(** What is printed.  A host is printed from a copy with the parents given here, a dependency
    with the host or service it is found at, and groups with the members given here. *)
Inductive entry :=
  | E_command (c : nat) | E_timeperiod (t : nat) | E_contact (c : nat) | E_contactgroup (g : nat)
  | E_host (h : nat) (parents : list nat) | E_service (s : nat)
  | E_hostdependency (h d : nat) | E_servicedependency (s d : nat)
  | E_hostescalation (h e : nat) | E_serviceescalation (s e : nat)
  | E_hostgroup (g : nat) (members : list nat) | E_servicegroup (g : nat) (members : list nat).

#[export] Instance entry_eq_dec : EqDecision entry.
Proof. solve_decision. Defined.

(** Naemon's printing of an object, and what a temporary service made by create_service and
    setup_service_variables refers to: what the original does, or nothing. *)
Class Fcache := {
  fcache : entry -> list byte;
  tmp_slaves : slaves -> slaves;
  tmp_slaves_sub : forall sl,
    (forall c, sl_event_handler (tmp_slaves sl) = Some c -> sl_event_handler sl = Some c) /\
    (forall c, sl_check_command (tmp_slaves sl) = Some c -> sl_check_command sl = Some c) /\
    (forall t, sl_check_period (tmp_slaves sl) = Some t -> sl_check_period sl = Some t) /\
    (forall t, sl_notification_period (tmp_slaves sl) = Some t -> sl_notification_period sl = Some t) /\
    (forall g, g ∈ sl_contact_groups (tmp_slaves sl) -> g ∈ sl_contact_groups sl) /\
    (forall c, c ∈ sl_contacts (tmp_slaves sl) -> c ∈ sl_contacts sl) }.

(** module/oconfsplit.c:13-22 map -- the tracker bitmaps, with [sp_htrack] for htrack and the
    text printed so far.  The map of service groups is not used. *)
Record split := Split {
  sp_hosts : gset nat; sp_commands : gset nat; sp_contactgroups : gset nat; sp_contacts : gset nat;
  sp_timeperiods : gset nat; sp_hostgroups : gset nat; sp_htrack : gset nat; sp_out : list entry }.

#[export] Instance eta_split : Eta split := fun r =>
  Split (sp_hosts r) (sp_commands r) (sp_contactgroups r) (sp_contacts r) (sp_timeperiods r)
    (sp_hostgroups r) (sp_htrack r) (sp_out r).

(** module/oconfsplit.c:426-432 split_config -- bitmap_clear of each, and an empty file. *)
Definition clear_split : split := Split ∅ ∅ ∅ ∅ ∅ ∅ ∅ [].

Abbreviation SP := (ST split).

Definition emit (e : entry) : SP unit := modify (fun s => s <| sp_out ::= fun o => o ++ [e] |>).

(** What making, renaming and dating the temporary file of a poller is going to give, with the
    name mkstemp(3) chooses. *)
Inductive split_io :=
  | NoTempFile | NoStream (tmp : text) | RenameFails (tmp : text) | UtimesFails (tmp : text)
  | AllWell (tmp : text).

(** The module, the directory with the configurations of pollers (contents and time of change),
    the temporary files left behind, and what the coming calls are going to give. *)
Record splitting := Splitting {
  so_merlin : merlin; so_files : gmap text (list byte * option Z); so_temps : list text;
  so_io : list split_io }.

#[export] Instance eta_splitting : Eta splitting := fun r =>
  Splitting (so_merlin r) (so_files r) (so_temps r) (so_io r).

Definition split_fs (s : splitting) : filesystem :=
  Fs (fun _ => None) (fun _ => []) (fun _ => None) (fun p => fst <$> so_files s !! p).

Section Oconfsplit.
Context {QS : QSort} {FC : Fcache} (oc : oconf).

(** module/oconfsplit.c:54-61 nsplit_cache_command *)
Definition nsplit_cache_command (cmd : option nat) : SP unit :=
  match cmd with
  | None => mret tt
  | Some c =>
      set ← gets sp_commands;
      if bool_decide (c ∈ set) then mret tt else
      emit (E_command c) ;; modify (fun s => s <| sp_commands ::= fun m => {[c]} ∪ m |>)
  end.

(** module/oconfsplit.c:69-79 map_hostgroup_hosts *)
Definition map_hostgroup_hosts (hg_name : text) : SP Z :=
  match list_find (fun g => g_name g = hg_name) (o_hostgroups oc) with
  | None => mret (-1)
  | Some (_, hg) => modify (fun s => s <| sp_hosts ::= fun m => list_to_set (g_members hg) ∪ m |>) ;; mret 0
  end.

(** module/oconfsplit.c:81-91 nsplit_cache_timeperiod -- marked before its exclusions, so that
    no more calls are nested than there are time periods. *)
Fixpoint cache_timeperiod (fuel : nat) (tp : option nat) : SP unit :=
  match tp with
  | None => mret tt
  | Some t =>
      set ← gets sp_timeperiods;
      if bool_decide (t ∈ set) then mret tt else
      match fuel with
      | O => mret tt
      | S fuel =>
          modify (fun s => s <| sp_timeperiods ::= fun m => {[t]} ∪ m |>) ;;
          emit (E_timeperiod t) ;;
          for_each (o_timeperiods oc !!! t) (cache_timeperiod fuel)
      end
  end.

Definition nsplit_cache_timeperiod (tp : option nat) : SP unit :=
  cache_timeperiod (length (o_timeperiods oc)) tp.

(** module/oconfsplit.c:93-104 nsplit_cache_hostdependencies *)
Definition nsplit_cache_hostdependencies (h : nat) (olist : list nat) : SP unit :=
  for_each olist (fun d =>
    let dep := o_hostdeps oc !!! d in
    set ← gets sp_hosts;
    if bool_decide (dep_master dep ∈ set) then
      nsplit_cache_timeperiod (dep_period dep) ;; emit (E_hostdependency h d)
    else mret tt).

(** module/oconfsplit.c:106-116 nsplit_cache_servicedependencies *)
Definition nsplit_cache_servicedependencies (s : nat) (olist : list nat) : SP unit :=
  for_each olist (fun d =>
    let dep := o_servicedeps oc !!! d in
    set ← gets sp_hosts;
    if negb (bool_decide (sv_host (o_services oc !!! dep_master dep) ∈ set)) then mret tt else
    nsplit_cache_timeperiod (dep_period dep) ;; emit (E_servicedependency s d)).

(** module/oconfsplit.c:118-139 nsplit_cache_contacts *)
Definition nsplit_cache_contacts (cm_list : list nat) : SP unit :=
  for_each cm_list (fun cm =>
    let c := o_contacts oc !!! cm in
    set ← gets sp_contacts;
    if bool_decide (cm ∈ set) then mret tt else
    nsplit_cache_timeperiod (c_host_notification_period c) ;;
    nsplit_cache_timeperiod (c_service_notification_period c) ;;
    for_each (c_host_notification_commands c) nsplit_cache_command ;;
    for_each (c_service_notification_commands c) nsplit_cache_command ;;
    modify (fun s => s <| sp_contacts ::= fun m => {[cm]} ∪ m |>) ;;
    emit (E_contact cm)).

(** module/oconfsplit.c:141-151 nsplit_cache_contactgroups *)
Definition nsplit_cache_contactgroups (cm : list nat) : SP unit :=
  for_each cm (fun cg =>
    set ← gets sp_contactgroups;
    if bool_decide (cg ∈ set) then mret tt else
    nsplit_cache_contacts (o_contactgroups oc !!! cg) ;;
    modify (fun s => s <| sp_contactgroups ::= fun m => {[cg]} ∪ m |>) ;;
    emit (E_contactgroup cg)).

(** module/oconfsplit.c:158-166 nsplit_cache_slaves *)
Definition nsplit_cache_slaves (o : slaves) : SP unit :=
  nsplit_cache_command (sl_event_handler o) ;;
  nsplit_cache_command (sl_check_command o) ;;
  nsplit_cache_timeperiod (sl_check_period o) ;;
  nsplit_cache_timeperiod (sl_notification_period o) ;;
  nsplit_cache_contactgroups (sl_contact_groups o) ;;
  nsplit_cache_contacts (sl_contacts o).

(** module/oconfsplit.c:211-217 nsplit_cache_host -- and 239-245 for services: one escalation. *)
Definition nsplit_cache_escalation (es : escalation) (printed : entry) : SP unit :=
  nsplit_cache_timeperiod (es_period es) ;;
  nsplit_cache_contactgroups (es_contact_groups es) ;;
  nsplit_cache_contacts (es_contacts es) ;;
  emit printed.

(** module/oconfsplit.c:219-247 nsplit_cache_host -- one service: the temporary copy is made
    without the parents of other hosts, and the original printed. *)
Definition cache_service (sm : nat) : SP unit :=
  let s := o_services oc !!! sm in
  nsplit_cache_slaves (tmp_slaves (sv_slaves s)) ;;
  emit (E_service sm) ;;
  nsplit_cache_slaves (sv_slaves s) ;;
  nsplit_cache_servicedependencies sm (sv_exec_deps s) ;;
  nsplit_cache_servicedependencies sm (sv_notify_deps s) ;;
  for_each (sv_escalations s) (fun e =>
    nsplit_cache_escalation (o_serviceescalations oc !!! e) (E_serviceescalation sm e)).

(** module/oconfsplit.c:169-260 nsplit_cache_host *)
Definition nsplit_cache_host (hst : nat) : SP unit :=
  let h := o_hosts oc !!! hst in
  track ← gets sp_htrack;
  if bool_decide (hst ∈ track) then mret tt else
  modify (fun s => s <| sp_htrack ::= fun m => {[hst]} ∪ m |>) ;;
  nsplit_cache_slaves (oh_slaves h) ;;
  set ← gets sp_hosts;
  emit (E_host hst (filter (fun p => p ∈ set) (oh_parents h))) ;;
  nsplit_cache_hostdependencies hst (oh_exec_deps h) ;;
  nsplit_cache_hostdependencies hst (oh_notify_deps h) ;;
  for_each (oh_escalations h) (fun e =>
    nsplit_cache_escalation (o_hostescalations oc !!! e) (E_hostescalation hst e)) ;;
  for_each (oh_services h) cache_service.

(** module/oconfsplit.c:278-295 service_cmp *)
Definition service_cmp (a b : nat) : Z :=
  let sa := o_services oc !!! a in let sb := o_services oc !!! b in
  let val := strcmp (oh_name (o_hosts oc !!! sv_host sb)) (oh_name (o_hosts oc !!! sv_host sa)) in
  if val =? 0 then strcmp (sv_description sb) (sv_description sa) else val.

(** module/oconfsplit.c:302-320 nsplit_partial_groups -- one host group, with
    partial_hostgroup of lines 262-271. *)
Definition partial_hostgroup (g : nat) : SP unit :=
  done ← gets sp_hostgroups;
  if bool_decide (g ∈ done) then mret tt else
  set ← gets sp_hosts;
  let members := filter (fun h => h ∈ set) (g_members (o_hostgroups oc !!! g)) in
  if bool_decide (members = []) then mret tt else emit (E_hostgroup g members).

(** module/oconfsplit.c:322-342 nsplit_partial_groups -- one service group: the members are
    prepended to a list, sorted (g_list_sort) and added. *)
Definition partial_servicegroup (g : nat) : SP unit :=
  set ← gets sp_hosts;
  let members_list := reverse (filter (fun s => sv_host (o_services oc !!! s) ∈ set)
                                 (g_members (o_servicegroups oc !!! g))) in
  let members := qsort service_cmp members_list in
  if bool_decide (members = []) then mret tt else emit (E_servicegroup g members).

(** module/oconfsplit.c:297-344 nsplit_partial_groups *)
Definition nsplit_partial_groups : SP unit :=
  for_each (seq 0 (length (o_hostgroups oc))) partial_hostgroup ;;
  for_each (seq 0 (length (o_servicegroups oc))) partial_servicegroup.

(** module/oconfsplit.c:355-365 nsplit_cache_stuff -- tagging the hosts; it ends at an unknown group. *)
Fixpoint tag_groups (groups : list text) : SP Z :=
  match groups with
  | [] => mret 0
  | grp :: groups => r ← map_hostgroup_hosts grp; if r <? 0 then mret (-1) else tag_groups groups
  end.

(** module/oconfsplit.c:367-376 nsplit_cache_stuff -- writing a group that was found before. *)
Definition write_group (grp : text) : SP unit :=
  match list_find (fun g => g_name g = grp) (o_hostgroups oc) with
  | None => mret tt
  | Some (g, hg) =>
      emit (E_hostgroup g (g_members hg)) ;;
      modify (fun s => s <| sp_hostgroups ::= fun m => {[g]} ∪ m |>) ;;
      for_each (g_members hg) nsplit_cache_host
  end.

(** module/oconfsplit.c:346-379 nsplit_cache_stuff *)
Definition nsplit_cache_stuff (orig_groups : option text) : SP Z :=
  match orig_groups with
  | None => mret 1
  | Some groups =>
      r ← tag_groups (split_commas groups);
      if r <? 0 then mret (-1) else
      for_each (split_commas groups) write_group ;; mret 0
  end.

(** module/oconfsplit.c:434-452 split_config -- what is printed for one poller, and whether
    anything is kept of it. *)
Definition split_poller (groups : option text) : SP bool :=
  for_each (o_global_commands oc) nsplit_cache_command ;;
  r ← nsplit_cache_stuff groups;
  if r <? 0 then mret false else nsplit_partial_groups ;; mret true.

(** ** The files *)

Context (poller_config_dir : text) (mem : blk_SHA_CTX).

(** module/oconfsplit.c:408-408 split_config *)
Definition outfile_of (n : merlin_node) : text := poller_config_dir ++ str (name n) ++ str ".cfg".

Definition leave_temp (tmp : text) : ST splitting unit :=
  modify (fun s => s <| so_temps ::= cons tmp |>).

(** module/oconfsplit.c:454-466 split_config -- behind the rename. *)
Definition date_and_hash (i : nat) (outfile : text) (dated : bool) : ST splitting unit :=
  if negb dated then mret tt else
  modify (fun s => s <| so_files ::= alter (fun f => (f.1, Some (i_last_cfg_change (self_of (so_merlin s))))) outfile |>) ;;
  s ← gets id;
  let '(_, ctx) := hash_add_file (split_fs s) outfile (blk_SHA1_Init mem) in
  modify (fun s => s <| so_merlin ::= fun m => (on_node i (fun n =>
    n <| expected ::= fun e => e <| i_config_hash := blk_SHA1_Final ctx |> |>) m).2 |>).

(** module/oconfsplit.c:397-467 split_config -- one poller. *)
Definition split_node (i : nat) : ST splitting unit :=
  ios ← gets so_io;
  modify (fun s => s <| so_io ::= drop 1 |>) ;;
  n ← gets (fun s => m_nodes (so_merlin s) !!! i);
  let '(ok, sp) := split_poller (hostgroups n) clear_split in
  let content := concat (map fcache (sp_out sp)) in
  let replace := modify (fun s => s <| so_files ::= <[outfile_of n := (content, None)]> |>) in
  match head ios with
  | None | Some NoTempFile => mret tt
  | Some (NoStream tmp) => leave_temp tmp
  | Some (RenameFails tmp) => leave_temp tmp
  | Some (UtimesFails tmp) => if negb ok then leave_temp tmp else replace ;; date_and_hash i (outfile_of n) false
  | Some (AllWell tmp) => if negb ok then leave_temp tmp else replace ;; date_and_hash i (outfile_of n) true
  end.

(** module/oconfsplit.c:381-478 split_config *)
Definition split_config : ST splitting Z :=
  poller_table ← gets (fun s => pollers (so_merlin s));
  for_each poller_table split_node ;;
  mret 0.

End Oconfsplit.

(** ** What a configuration must hold *)

Inductive ref :=
  | R_command (c : nat) | R_timeperiod (t : nat) | R_contact (c : nat) | R_contactgroup (g : nat)
  | R_host (h : nat) | R_service (s : nat).

#[export] Instance ref_eq_dec : EqDecision ref.
Proof. solve_decision. Defined.

(** Hosts and services make up the configuration, the others are there because of them. *)
Definition small (r : ref) : bool := match r with R_host _ | R_service _ => false | _ => true end.

Definition commands_of (l : list (option nat)) : list ref := omap (fmap R_command) l.
Definition periods_of (l : list (option nat)) : list ref := omap (fmap R_timeperiod) l.

Definition slaves_refs (sl : slaves) : list ref :=
  commands_of [sl_event_handler sl; sl_check_command sl] ++
  periods_of [sl_check_period sl; sl_notification_period sl] ++
  map R_contactgroup (sl_contact_groups sl) ++ map R_contact (sl_contacts sl).

Definition escalation_refs (e : escalation) : list ref :=
  periods_of [es_period e] ++ map R_contactgroup (es_contact_groups e) ++ map R_contact (es_contacts e).

(** The object that an entry of a configuration defines. *)
Definition defs (e : entry) : option ref :=
  match e with
  | E_command c => Some (R_command c) | E_timeperiod t => Some (R_timeperiod t)
  | E_contact c => Some (R_contact c) | E_contactgroup g => Some (R_contactgroup g)
  | E_host h _ => Some (R_host h) | E_service s => Some (R_service s)
  | _ => None
  end.

Section Needs.
Context (oc : oconf).

(** What a command, time period, contact or contact group refers to. *)
Definition req (r : ref) : list ref :=
  match r with
  | R_timeperiod t => periods_of (o_timeperiods oc !!! t)
  | R_contact c =>
      let c := o_contacts oc !!! c in
      periods_of [c_host_notification_period c; c_service_notification_period c] ++
      commands_of (c_host_notification_commands c) ++ commands_of (c_service_notification_commands c)
  | R_contactgroup g => map R_contact (o_contactgroups oc !!! g)
  | _ => []
  end.

(** What an entry refers to.  The parents of a service are left out. *)
Definition needs (e : entry) : list ref :=
  match e with
  | E_command c => req (R_command c) | E_timeperiod t => req (R_timeperiod t)
  | E_contact c => req (R_contact c) | E_contactgroup g => req (R_contactgroup g)
  | E_host h ps => slaves_refs (oh_slaves (o_hosts oc !!! h)) ++ map R_host ps
  | E_service s => slaves_refs (sv_slaves (o_services oc !!! s)) ++ [R_host (sv_host (o_services oc !!! s))]
  | E_hostdependency h d =>
      periods_of [dep_period (o_hostdeps oc !!! d)] ++ [R_host h; R_host (dep_master (o_hostdeps oc !!! d))]
  | E_servicedependency s d =>
      periods_of [dep_period (o_servicedeps oc !!! d)] ++ [R_service s; R_service (dep_master (o_servicedeps oc !!! d))]
  | E_hostescalation h e => escalation_refs (o_hostescalations oc !!! e) ++ [R_host h]
  | E_serviceescalation s e => escalation_refs (o_serviceescalations oc !!! e) ++ [R_service s]
  | E_hostgroup _ ms => map R_host ms
  | E_servicegroup _ ms => map R_service ms
  end.

(** The small objects that a service and a host bring along when the hosts [H] are taken. *)
Definition service_roots (H : gset nat) (s : nat) : list ref :=
  let sv := o_services oc !!! s in
  let dep d := if bool_decide (sv_host (o_services oc !!! dep_master (o_servicedeps oc !!! d)) ∈ H)
               then periods_of [dep_period (o_servicedeps oc !!! d)] else [] in
  slaves_refs (sv_slaves sv) ++ flat_map dep (sv_exec_deps sv ++ sv_notify_deps sv) ++
  flat_map (fun e => escalation_refs (o_serviceescalations oc !!! e)) (sv_escalations sv).

Definition host_roots (H : gset nat) (h : nat) : list ref :=
  let hs := o_hosts oc !!! h in
  let dep d := if bool_decide (dep_master (o_hostdeps oc !!! d) ∈ H)
               then periods_of [dep_period (o_hostdeps oc !!! d)] else [] in
  slaves_refs (oh_slaves hs) ++ flat_map dep (oh_exec_deps hs ++ oh_notify_deps hs) ++
  flat_map (fun e => escalation_refs (o_hostescalations oc !!! e)) (oh_escalations hs) ++
  flat_map (service_roots H) (oh_services hs).

(** What a poller with the hosts [H] needs: what its hosts bring along, the global commands, and
    what these refer to, and so on. *)
Inductive needed (H : gset nat) : ref -> Prop :=
  | needed_global r : r ∈ commands_of (o_global_commands oc) -> needed H r
  | needed_host h r : h ∈ H -> r ∈ host_roots H h -> needed H r
  | needed_req r r' : needed H r -> r' ∈ req r -> needed H r'.

(** Every reference that the tables hold to a small object. *)
Definition all_refs : list ref :=
  flat_map periods_of (o_timeperiods oc) ++
  flat_map (fun c => periods_of [c_host_notification_period c; c_service_notification_period c]) (o_contacts oc) ++
  flat_map (fun h => slaves_refs (oh_slaves h)) (o_hosts oc) ++
  flat_map (fun s => slaves_refs (sv_slaves s)) (o_services oc) ++
  flat_map (fun d => periods_of [dep_period d]) (o_hostdeps oc ++ o_servicedeps oc) ++
  flat_map escalation_refs (o_hostescalations oc ++ o_serviceescalations oc).

(** What Naemon guarantees of its objects: services belong to the hosts that list them, and the
    services and time periods that are referred to exist. *)
Record wf : Prop := Wf {
  wf_service_host : forall h x, x ∈ oh_services (o_hosts oc !!! h) ->
    (x < length (o_services oc))%nat /\ sv_host (o_services oc !!! x) = h;
  wf_in_host : forall x, (x < length (o_services oc))%nat -> x ∈ oh_services (o_hosts oc !!! sv_host (o_services oc !!! x));
  wf_masters : forall x d, d ∈ sv_exec_deps (o_services oc !!! x) ++ sv_notify_deps (o_services oc !!! x) ->
    (dep_master (o_servicedeps oc !!! d) < length (o_services oc))%nat;
  wf_members : forall g x, x ∈ g_members (o_servicegroups oc !!! g) -> (x < length (o_services oc))%nat;
  wf_periods : forall t, R_timeperiod t ∈ all_refs -> (t < length (o_timeperiods oc))%nat }.

(** ** What the walk does to the trackers and the file *)

(** [P]: an object that is needed; the tables hold every time period. *)
Context {QS : QSort} {FC : Fcache} (WF : wf) (H : gset nat) (P : ref -> Prop).
Hypothesis P_req : forall r r', P r -> r' ∈ req r -> P r'.
Hypothesis P_period : forall t, P (R_timeperiod t) -> (t < length (o_timeperiods oc))%nat.

Definition marked (s : split) (r : ref) : Prop :=
  match r with
  | R_command c => c ∈ sp_commands s | R_timeperiod t => t ∈ sp_timeperiods s
  | R_contact c => c ∈ sp_contacts s | R_contactgroup g => g ∈ sp_contactgroups s
  | R_host h => h ∈ H | R_service x => (x < length (o_services oc))%nat /\ sv_host (o_services oc !!! x) ∈ H
  end.

(** From [s] to [s'] the entries [new] were printed, among them the hosts and services [T]: every
    other object was needed and not marked, is marked now and printed once, and what the
    entries refer to is marked or about to be printed. *)
Record extends (T : list ref) (new : list entry) (s s' : split) : Prop := Ext {
  ex_out : sp_out s' = sp_out s ++ new;
  ex_hosts : sp_hosts s' = sp_hosts s;
  ex_tops : filter (fun r => small r = false) (omap defs new) = T;
  ex_marked : forall r, small r = true -> marked s' r <-> marked s r \/ r ∈ omap defs new;
  ex_fresh : forall r, small r = true -> r ∈ omap defs new -> ~ marked s r /\ P r;
  ex_once : NoDup (filter (fun r => small r = true) (omap defs new));
  ex_needs : forall e r, e ∈ new -> r ∈ needs e -> marked s' r }.

Definition grows (T : list ref) (s s' : split) : Prop := exists new, extends T new s s'.

Lemma big_marked s s' r : small r = false -> marked s r -> marked s' r.
Proof. by destruct r. Qed.

Lemma grows_mono T s s' r : grows T s s' -> marked s r -> marked s' r.
Proof.
  intros [new E] Hm. destruct (small r) eqn:Hr; [|by eapply big_marked].
  apply (ex_marked _ _ _ _ E); auto.
Qed.

Lemma grows_refl s : grows [] s s.
Proof.
  exists []. constructor; cbn; try done.
  - by rewrite app_nil_r.
  - intros r _. rewrite elem_of_nil. tauto.
  - by intros r _ ?%elem_of_nil.
  - constructor.
  - by intros e r ?%elem_of_nil.
Qed.

Lemma grows_trans T1 T2 s1 s2 s3 : grows T1 s1 s2 -> grows T2 s2 s3 -> grows (T1 ++ T2) s1 s3.
Proof.
  intros [n1 E1] [n2 E2].
  assert (forall r, marked s2 r -> marked s3 r) as Hm by (intros r; apply (grows_mono T2); by exists n2).
  exists (n1 ++ n2). destruct E1 as [A1 A2 A3 A4 A5 A6 A7], E2 as [B1 B2 B3 B4 B5 B6 B7]. constructor.
  - by rewrite B1, A1, app_assoc.
  - congruence.
  - rewrite omap_app, filter_app. congruence.
  - intros r Hr. rewrite omap_app, elem_of_app, (B4 r Hr), (A4 r Hr). tauto.
  - intros r Hr. rewrite omap_app, elem_of_app. intros [Hi|Hi]; [by apply A5|].
    destruct (B5 r Hr Hi) as [Hn Hp]. split; [|done]. rewrite (A4 r Hr) in Hn. tauto.
  - rewrite omap_app, filter_app. apply NoDup_app. split_and!; [done| |done].
    intros r [Hr Hi]%list_elem_of_filter [_ Hi2]%list_elem_of_filter.
    destruct (B5 r Hr Hi2) as [Hn _]. apply Hn, A4; auto.
  - intros e r [He|He]%elem_of_app Hr; eauto.
Qed.

(** The new entries printed around one that defines nothing small. *)
Lemma grows_emit T1 T2 e s1 s2 s3 s4 :
  grows T1 s1 s2 -> grows T2 s3 s4 -> s3 = (emit e s2).2 -> (forall r, defs e = Some r -> small r = false) ->
  (forall r, r ∈ needs e -> marked s4 r) ->
  grows (T1 ++ option_list (defs e) ++ T2) s1 s4.
Proof.
  intros [n1 E1] [n2 E2] -> Hd He.
  assert (forall r, marked s2 r -> marked s4 r) as Hm.
  { intros r Hr. apply (grows_mono T2 (emit e s2).2); [by exists n2|]. by destruct r. }
  assert (forall r, small r = true -> r ∉ option_list (defs e)) as Hno.
  { intros r Hr Hi. destruct (defs e) as [r'|] eqn:Ed; cbn in Hi; [|by apply elem_of_nil in Hi].
    apply list_elem_of_singleton in Hi as ->. rewrite (Hd r' eq_refl) in Hr. done. }
  exists (n1 ++ [e] ++ n2). destruct E1 as [A1 A2 A3 A4 A5 A6 A7], E2 as [B1 B2 B3 B4 B5 B6 B7].
  assert (omap defs (n1 ++ [e] ++ n2) = omap defs n1 ++ option_list (defs e) ++ omap defs n2) as Ho.
  { rewrite omap_app. f_equal. cbn. by destruct (defs e). }
  assert (forall r, marked (emit e s2).2 r <-> marked s2 r) as Hs by (by intros []).
  constructor; rewrite ?Ho.
  - rewrite B1. cbn. by rewrite A1, <- !app_assoc.
  - by rewrite B2.
  - rewrite !filter_app, A3, B3. do 2 f_equal. destruct (defs e) as [r|]; [|done]. cbn.
    rewrite decide_True; [done|by apply Hd].
  - intros r Hr. rewrite !elem_of_app, (B4 r Hr), Hs, (A4 r Hr). pose proof (Hno r Hr). tauto.
  - intros r Hr. rewrite !elem_of_app. intros [Hi|[Hi|Hi]]; [by apply A5|by destruct (Hno r Hr)|].
    destruct (B5 r Hr Hi) as [Hn Hp]. split; [|done]. rewrite Hs, (A4 r Hr) in Hn. tauto.
  - rewrite !filter_app. assert (filter (fun r => small r = true) (option_list (defs e)) = []) as ->.
    { destruct (defs e) as [r|]; [|done]. cbn. rewrite decide_False; [done|]. by rewrite (Hd r eq_refl). }
    cbn. apply NoDup_app. split_and!; [done| |done].
    intros r [Hr Hi]%list_elem_of_filter [_ Hi2]%list_elem_of_filter.
    destruct (B5 r Hr Hi2) as [Hn _]. apply Hn, Hs, A4; auto.
  - intros e' r Hi Hr. rewrite !elem_of_app, list_elem_of_singleton in Hi.
    destruct Hi as [Hi|[->|Hi]]; [apply Hm; eauto|auto|eauto].
Qed.

(** Marking and printing a small object. *)
Definition entry_of (r : ref) : entry :=
  match r with
  | R_command c => E_command c | R_timeperiod t => E_timeperiod t | R_contact c => E_contact c
  | R_contactgroup g => E_contactgroup g | R_host h => E_host h [] | R_service x => E_service x
  end.

Definition mark (r : ref) (s : split) : split :=
  match r with
  | R_command c => s <| sp_commands ::= fun m => {[c]} ∪ m |>
  | R_timeperiod t => s <| sp_timeperiods ::= fun m => {[t]} ∪ m |>
  | R_contact c => s <| sp_contacts ::= fun m => {[c]} ∪ m |>
  | R_contactgroup g => s <| sp_contactgroups ::= fun m => {[g]} ∪ m |>
  | _ => s
  end.

Definition add (r : ref) (s : split) : split := (emit (entry_of r) (mark r s)).2.

Lemma marked_add r r' s : small r = true -> marked (add r s) r' <-> marked s r' \/ r' = r.
Proof.
  intros Hr. destruct r, r'; cbn in *; try done; rewrite ?elem_of_union, ?elem_of_singleton;
    try (split; [intros [->|?]|intros [?|[= ->]]]; auto); split; intros; try tauto; destruct H0; done.
Qed.

Lemma grows_add T r s s' :
  small r = true -> ~ marked s r -> P r -> grows T (add r s) s' -> (forall r', r' ∈ req r -> marked s' r') ->
  grows T s s'.
Proof.
  intros Hr Hn Hp [new E] Hq. pose proof (grows_mono T (add r s) s') as Hm.
  exists (entry_of r :: new). destruct E as [A1 A2 A3 A4 A5 A6 A7].
  assert (omap defs (entry_of r :: new) = r :: omap defs new) as Ho by (by destruct r).
  constructor; rewrite ?Ho.
  - rewrite A1. destruct r; cbn; by rewrite <- app_assoc.
  - rewrite A2. by destruct r.
  - rewrite filter_cons_False; [done|]. by rewrite Hr.
  - intros r' Hr'. rewrite (A4 r' Hr'), (marked_add r r' s Hr), elem_of_cons. tauto.
  - intros r' Hr' [->|Hi]%elem_of_cons; [done|]. destruct (A5 r' Hr' Hi) as [Hn' Hp'].
    rewrite marked_add in Hn' by done. tauto.
  - rewrite filter_cons_True by done. constructor; [|done]. intros [_ Hi]%list_elem_of_filter.
    destruct (A5 r Hr Hi) as [Hn' _]. apply Hn', marked_add; auto.
  - intros e r' [->|Hi]%elem_of_cons Hr'; [|eauto]. apply Hq. by destruct r.
Qed.

(** A step prints the hosts and services [T] and leaves the objects [R] marked. *)
Definition adds {A} (T R : list ref) (c : SP A) : Prop :=
  forall s, sp_hosts s = H -> grows T s (c s).2 /\ forall r, r ∈ R -> marked (c s).2 r.

Lemma grows_hosts T s s' : grows T s s' -> sp_hosts s' = sp_hosts s.
Proof. intros [new E]. apply E. Qed.

Lemma adds_ret {A} (a : A) : adds [] [] (mret a).
Proof. intros s _. split; [apply grows_refl|by intros r ?%elem_of_nil]. Qed.

Lemma adds_seq {A B} T1 T2 R1 R2 (c : SP A) (d : SP B) :
  adds T1 R1 c -> adds T2 R2 d -> adds (T1 ++ T2) (R1 ++ R2) (c ;; d).
Proof.
  intros Hc Hd s Hs. cbn. unfold mbind, ST_bind. destruct (Hc s Hs) as [G1 M1]. destruct (c s) as [a s1]; cbn in *.
  destruct (Hd s1) as [G2 M2]; [by rewrite (grows_hosts _ _ _ G1)|]. split; [by eapply grows_trans|].
  intros r [Hr|Hr]%elem_of_app; [|auto]. eapply grows_mono; eauto.
Qed.

Lemma adds_for_each {X} (T R : X -> list ref) (l : list X) (f : X -> SP unit) :
  (forall x, x ∈ l -> adds (T x) (R x) (f x)) -> adds (flat_map T l) (flat_map R l) (for_each l f).
Proof.
  induction l as [|x l IH]; intros Hf; [apply adds_ret|]. cbn. apply adds_seq; [apply Hf; left|].
  apply IH. intros y Hy. apply Hf. by right.
Qed.

(** Loops over objects that are not hosts or services. *)
Lemma adds_loop {X} (R : X -> list ref) (l : list X) (f : X -> SP unit) :
  (forall x, x ∈ l -> adds [] (R x) (f x)) -> adds [] (flat_map R l) (for_each l f).
Proof.
  intros Hf. replace (@nil ref) with (flat_map (fun _ : X => @nil ref) l); [by apply adds_for_each|].
  clear. by induction l.
Qed.

Lemma adds_weaken {A} T R R' (c : SP A) : (forall r, r ∈ R' -> r ∈ R) -> adds T R c -> adds T R' c.
Proof. intros Hsub Hc s Hs. destruct (Hc s Hs). split; auto. Qed.

Lemma adds_ext {A} T R (c d : SP A) : (forall s, (c s).2 = (d s).2) -> adds T R c -> adds T R d.
Proof. intros He Hc s Hs. rewrite <- He. by apply Hc. Qed.

(** Printing something that needs what is marked before or after. *)
Lemma adds_emit {A B} T1 T2 R1 R2 (c : SP A) (d : SP B) e :
  adds T1 R1 c -> adds T2 R2 d -> (forall r, defs e = Some r -> small r = false) ->
  (forall r, r ∈ needs e -> r ∈ R1 ++ R2 \/ small r = false /\ forall s, marked s r) ->
  adds (T1 ++ option_list (defs e) ++ T2) (R1 ++ R2) (c ;; emit e ;; d).
Proof.
  intros Hc Hd He Hn s Hs. cbn. unfold mbind, ST_bind. destruct (Hc s Hs) as [G1 M1].
  destruct (c s) as [a s1]; cbn in *. set (s2 := (emit e s1).2).
  destruct (Hd s2) as [G2 M2]; [cbn; by rewrite (grows_hosts _ _ _ G1)|].
  assert (forall r, r ∈ R1 ++ R2 -> marked (d s2).2 r) as HR.
  { intros r [Hr|Hr]%elem_of_app; [|auto]. eapply grows_mono; [exact G2|]. specialize (M1 r Hr). by destruct r. }
  split; [|done]. eapply grows_emit; try done. intros r Hr. destruct (Hn r Hr) as [?|[_ ?]]; auto.
Qed.

Lemma adds_emit_last {A} R (c : SP A) e :
  adds [] R c -> (forall r, defs e = Some r -> small r = false) ->
  (forall r, r ∈ needs e -> r ∈ R \/ small r = false /\ forall s, marked s r) ->
  adds (option_list (defs e)) R (c ;; emit e).
Proof.
  intros Hc He Hn s Hs. pose proof (adds_emit [] [] R [] c (mret tt) e Hc (adds_ret tt) He) as Hx.
  rewrite app_nil_r, app_nil_r in Hx. specialize (Hx Hn s Hs). cbn in *. unfold mbind, ST_bind in *.
  destruct (c s). exact Hx.
Qed.

(** The rest of a function that caches [r], which is not marked, when [R] is marked already. *)
Definition caches (r : ref) (R : list ref) (k : SP unit) : Prop :=
  forall s, sp_hosts s = H -> ~ marked s r -> (forall r', r' ∈ R -> marked s r') ->
  grows [] s (k s).2 /\ marked (k s).2 r.

Lemma caches_seq {A} r R R1 (c : SP A) k :
  adds [] R1 c -> (forall s, marked (c s).2 r -> marked s r) -> caches r (R1 ++ R) k -> caches r R (c ;; k).
Proof.
  intros Hc Hf Hk s Hs Hn HR. destruct (Hc s Hs) as [G M]. specialize (Hf s).
  cbn. unfold mbind, ST_bind. destruct (c s) as [a s1]; cbn in *. destruct (Hk s1) as [G2 M2].
  - by rewrite (grows_hosts _ _ _ G).
  - auto.
  - intros r' [Hr|Hr]%elem_of_app; [auto|]. eapply grows_mono; eauto.
  - split; [|done]. by apply (grows_trans [] [] s s1).
Qed.

Lemma caches_last r R k :
  small r = true -> P r -> (forall r', r' ∈ req r -> r' ∈ R) -> (forall s, (k s).2 = add r s) -> caches r R k.
Proof.
  intros Hr Hp Hq Hk s Hs Hn HR. rewrite Hk. split; [|by apply marked_add; auto].
  apply (grows_add [] r s); try done; [apply grows_refl|]. intros r' Hr'. apply marked_add; auto.
Qed.

Lemma adds_cached r (f : split -> gset nat) x (k : SP unit) :
  (forall s, marked s r <-> x ∈ f s) -> caches r [] k ->
  adds [] [r] (set ← gets f; if bool_decide (x ∈ set) then mret tt else k).
Proof.
  intros Hf Hk s Hs.
  change ((set ← gets f; if bool_decide (x ∈ set) then mret tt else k) s)
    with ((if bool_decide (x ∈ f s) then mret tt else k) s).
  case_bool_decide as Hin; [split; [apply grows_refl|]|].
  - intros r' ->%list_elem_of_singleton. by apply Hf.
  - destruct (Hk s Hs) as [G M]; [by rewrite Hf|by intros ? ?%elem_of_nil|]. split; [done|].
    by intros r' ->%list_elem_of_singleton.
Qed.

(** ** The operations *)

Lemma commands_one c : commands_of [c] = match c with Some c => [R_command c] | None => [] end.
Proof. by destruct c. Qed.

Lemma periods_one t : periods_of [t] = match t with Some t => [R_timeperiod t] | None => [] end.
Proof. by destruct t. Qed.

Lemma commands_flat l : commands_of l = flat_map (fun c => commands_of [c]) l.
Proof. induction l as [|[c|] l IH]; [done|..]; cbn; by f_equal. Qed.

Lemma periods_flat l : periods_of l = flat_map (fun c => periods_of [c]) l.
Proof. induction l as [|[c|] l IH]; [done|..]; cbn; by f_equal. Qed.

Lemma flat_map_single {A B} (f : A -> B) l : flat_map (fun x => [f x]) l = map f l.
Proof. induction l; cbn; by f_equal. Qed.

Lemma cache_command_adds c : Forall P (commands_of [c]) -> adds [] (commands_of [c]) (nsplit_cache_command c).
Proof.
  destruct c as [c|]; [|intros _; apply adds_ret]. intros Hp. apply (proj1 (Forall_singleton P _)) in Hp.
  apply adds_cached; [done|]. apply caches_last; try done; by intros ? ?%elem_of_nil.
Qed.

(** How many time periods are not marked yet. *)
Definition unmarked (s : split) : nat := size (set_seq (C := gset nat) 0 (length (o_timeperiods oc)) ∖ sp_timeperiods s).

Lemma unmarked_grows T s s' : grows T s s' -> (unmarked s' <= unmarked s)%nat.
Proof.
  intros G. unfold unmarked. apply subseteq_size. intros t [Ht Hn]%elem_of_difference. apply elem_of_difference. split; [done|].
  intros Hm. by apply Hn, (grows_mono T s s' (R_timeperiod t)).
Qed.

Lemma unmarked_add t s :
  (t < length (o_timeperiods oc))%nat -> t ∉ sp_timeperiods s -> (unmarked (add (R_timeperiod t) s) < unmarked s)%nat.
Proof.
  intros Ht Hn. unfold unmarked. apply subset_size. split.
  - cbn. set_solver.
  - intros Hsub. assert (t ∈ set_seq (C := gset nat) 0 (length (o_timeperiods oc)) ∖ sp_timeperiods s) as Hin.
    { apply elem_of_difference. split; [|done]. apply elem_of_set_seq. lia. }
    apply Hsub in Hin. cbn in Hin. set_solver.
Qed.

(** The recursion over exclusions, cyclic ones too, has enough fuel. *)
Lemma cache_timeperiod_grows fuel tp s :
  sp_hosts s = H -> Forall P (periods_of [tp]) -> (unmarked s <= fuel)%nat ->
  grows [] s (cache_timeperiod oc fuel tp s).2 /\
  forall r, r ∈ periods_of [tp] -> marked (cache_timeperiod oc fuel tp s).2 r.
Proof.
  revert tp s. induction fuel as [|fuel IH]; intros [t|] s Hs Hp Hf;
    try (split; [apply grows_refl|by intros r ?%elem_of_nil]).
  all: apply (proj1 (Forall_singleton P _)) in Hp; pose proof (P_period t Hp) as Hlt.
  all: cbn; unfold mbind, ST_bind, gets; case_bool_decide as Hin; cbn.
  1, 3: split; [apply grows_refl|]; by intros r ->%list_elem_of_singleton.
  - pose proof (unmarked_add t s Hlt Hin). lia.
  - pose proof (unmarked_add t s Hlt Hin) as Hlt'. change (emit _ _) with (tt, add (R_timeperiod t) s). cbn [snd].
    assert (forall l s1, sp_hosts s1 = H -> Forall P (periods_of l) -> (unmarked s1 <= fuel)%nat ->
      grows [] s1 (for_each l (cache_timeperiod oc fuel) s1).2 /\
      forall r, r ∈ periods_of l -> marked (for_each l (cache_timeperiod oc fuel) s1).2 r) as Hloop.
    { clear -IH. intros l. induction l as [|x l IHl]; intros s1 Hs1 Hp1 Hf1; [split; [apply grows_refl|by intros r ?%elem_of_nil]|].
      rewrite periods_flat in *. cbn [flat_map] in *. rewrite <- periods_flat in *. apply Forall_app in Hp1 as [Hp1 Hp2].
      cbn. unfold mbind, ST_bind. destruct (IH x s1 Hs1 Hp1 Hf1) as [G1 M1].
      destruct (cache_timeperiod oc fuel x s1) as [[] s2]; cbn in *.
      pose proof (unmarked_grows _ _ _ G1). pose proof (grows_hosts _ _ _ G1).
      destruct (IHl s2) as [G2 M2]; [congruence|done|lia|]. split; [by apply (grows_trans [] [] s1 s2)|].
      intros r [Hr|Hr]%elem_of_app; [|auto]. eapply grows_mono; eauto. }
    destruct (Hloop (o_timeperiods oc !!! t) (add (R_timeperiod t) s)) as [G M].
    + done.
    + apply Forall_forall. intros r Hr. by apply (P_req (R_timeperiod t)).
    + lia.
    + split; [by apply (grows_add [] (R_timeperiod t) s)|]. intros r ->%list_elem_of_singleton.
      eapply grows_mono; [exact G|]. apply marked_add; auto.
Qed.

Lemma nsplit_cache_timeperiod_adds tp :
  Forall P (periods_of [tp]) -> adds [] (periods_of [tp]) (nsplit_cache_timeperiod oc tp).
Proof.
  intros Hp s Hs. apply cache_timeperiod_grows; try done. unfold unmarked.
  etrans; [apply subseteq_size, subseteq_difference_l; reflexivity|]. by rewrite size_set_seq.
Qed.

Lemma command_frame (Q : split -> Prop) c :
  (forall e s, Q s -> Q (emit e s).2) -> (forall n s, Q s -> Q (mark (R_command n) s)) ->
  preserves Q (nsplit_cache_command c).
Proof.
  intros He Hm. unfold nsplit_cache_command. preserve; [exact (He _)|]. apply preserves_modify. intros s. apply (Hm n).
Qed.

Lemma timeperiod_frame (Q : split -> Prop) fuel tp :
  (forall e s, Q s -> Q (emit e s).2) -> (forall n s, Q s -> Q (mark (R_timeperiod n) s)) ->
  preserves Q (cache_timeperiod oc fuel tp).
Proof.
  intros He Hm. revert tp. induction fuel as [|fuel IH]; intros [t|]; cbn; preserve.
  - apply preserves_modify. intros s. apply (Hm t).
  - exact (He _).
  - by apply preserves_for_each.
Qed.

Lemma contacts_frame (Q : split -> Prop) l :
  (forall e s, Q s -> Q (emit e s).2) -> (forall n s, Q s -> Q (mark (R_command n) s)) ->
  (forall n s, Q s -> Q (mark (R_timeperiod n) s)) -> (forall n s, Q s -> Q (mark (R_contact n) s)) ->
  preserves Q (nsplit_cache_contacts oc l).
Proof.
  intros He Hc Ht Hm. apply preserves_for_each. intros c. preserve;
    try (by apply timeperiod_frame); try (apply preserves_for_each; intros; by apply command_frame); [|exact (He _)].
  apply preserves_modify. intros s. apply (Hm c).
Qed.

Lemma Forall_P_app l k : Forall P (l ++ k) -> Forall P l /\ Forall P k.
Proof. apply Forall_app. Qed.

Lemma P_reqs r : P r -> Forall P (req r).
Proof. intros Hp. apply Forall_forall. intros r' Hr. by eapply P_req. Qed.

Lemma flat_map_Forall {X} (R : X -> list ref) l x : Forall P (flat_map R l) -> x ∈ l -> Forall P (R x).
Proof. rewrite !Forall_forall. intros Hp Hx r Hr. apply Hp, list_elem_of_In, in_flat_map. exists x. by rewrite <- !list_elem_of_In. Qed.

Lemma commands_adds l : Forall P (commands_of l) -> adds [] (commands_of l) (for_each l nsplit_cache_command).
Proof.
  rewrite commands_flat. intros Hp. apply adds_loop. intros c Hc. apply cache_command_adds.
  by apply (flat_map_Forall (fun c => commands_of [c]) l).
Qed.

Lemma frame_marked (Q : split -> gset nat) r x {A} (c : SP A) :
  (forall s, marked s r <-> x ∈ Q s) -> (forall X, preserves (fun s => Q s = X) c) ->
  forall s, marked (c s).2 r -> marked s r.
Proof. intros Hq Hc s. rewrite !Hq. by rewrite (Hc (Q s) s eq_refl). Qed.

Lemma contacts_adds l : Forall P (map R_contact l) -> adds [] (map R_contact l) (nsplit_cache_contacts oc l).
Proof.
  rewrite <- flat_map_single. intros Hp. apply adds_loop. intros c Hc.
  pose proof (flat_map_Forall (fun x => [R_contact x]) l c Hp Hc) as Hpc. apply (proj1 (Forall_singleton P _)) in Hpc.
  pose proof (P_reqs _ Hpc) as Hreq. cbn [req] in Hreq. set (ct := o_contacts oc !!! c) in *.
  apply Forall_app in Hreq as [Hq1 Hq2]. apply Forall_app in Hq2 as [Hq2 Hq3].
  rewrite periods_flat in Hq1. cbn [flat_map] in Hq1. apply Forall_app in Hq1 as [Hq0 Hq1]. rewrite app_nil_r in Hq1.
  apply adds_cached; [done|].
  assert (forall {A} (d : SP A), (forall X, preserves (fun s => sp_contacts s = X) d) ->
    forall s, marked (d s).2 (R_contact c) -> marked s (R_contact c)) as Hfr by (intros; by eapply (frame_marked sp_contacts _ c)).
  eapply caches_seq; [by apply nsplit_cache_timeperiod_adds|by apply Hfr; intros; apply timeperiod_frame|].
  eapply caches_seq; [by apply nsplit_cache_timeperiod_adds|by apply Hfr; intros; apply timeperiod_frame|].
  eapply caches_seq; [by apply commands_adds|by apply Hfr; intros; apply preserves_for_each; intros; apply command_frame|].
  eapply caches_seq; [by apply commands_adds|by apply Hfr; intros; apply preserves_for_each; intros; apply command_frame|].
  apply caches_last; try done. cbn [req]. fold ct. rewrite (periods_flat [_; _]). cbn [flat_map]. clear. set_solver.
Qed.

Lemma contactgroups_adds l :
  Forall P (map R_contactgroup l) -> adds [] (map R_contactgroup l) (nsplit_cache_contactgroups oc l).
Proof.
  rewrite <- flat_map_single. intros Hp. apply adds_loop. intros c Hc.
  pose proof (flat_map_Forall (fun x => [R_contactgroup x]) l c Hp Hc) as Hpc. apply (proj1 (Forall_singleton P _)) in Hpc.
  pose proof (P_reqs _ Hpc) as Hreq. cbn [req] in Hreq. apply adds_cached; [done|].
  eapply caches_seq; [by apply contacts_adds| |].
  - apply (frame_marked sp_contactgroups _ c); [done|]. intros X. by apply contacts_frame.
  - apply caches_last; try done. cbn [req]. set_solver.
Qed.

Ltac split_P :=
  repeat match goal with
  | Hp : Forall P (_ ++ _) |- _ => apply Forall_P_app in Hp as [? ?]
  end.

Lemma two_commands a b : commands_of [a; b] = commands_of [a] ++ commands_of [b].
Proof. by destruct a, b. Qed.

Lemma two_periods a b : periods_of [a; b] = periods_of [a] ++ periods_of [b].
Proof. by destruct a, b. Qed.

Lemma slaves_adds sl : Forall P (slaves_refs sl) -> adds [] (slaves_refs sl) (nsplit_cache_slaves oc sl).
Proof.
  unfold slaves_refs. rewrite two_commands, two_periods, <- !app_assoc. intros Hp. split_P.
  do 2 (apply (adds_seq [] []); [by apply cache_command_adds|]).
  do 2 (apply (adds_seq [] []); [by apply nsplit_cache_timeperiod_adds|]).
  apply (adds_seq [] []); [by apply contactgroups_adds|by apply contacts_adds].
Qed.

Lemma escalation_adds es e :
  Forall P (escalation_refs es) -> defs e = None ->
  (forall r, r ∈ needs e -> r ∈ escalation_refs es \/ small r = false /\ forall s, marked s r) ->
  adds [] (escalation_refs es) (nsplit_cache_escalation oc es e).
Proof.
  intros Hp Hd Hn. apply (adds_ext [] _ ((nsplit_cache_timeperiod oc (es_period es) ;;
    nsplit_cache_contactgroups oc (es_contact_groups es) ;; nsplit_cache_contacts oc (es_contacts es)) ;; emit e)).
  { intros s. unfold nsplit_cache_escalation. cbn. unfold mbind, ST_bind.
    destruct (nsplit_cache_timeperiod oc (es_period es) s) as [[] s1].
    by destruct (nsplit_cache_contactgroups oc (es_contact_groups es) s1). }
  rewrite <- (app_nil_r []). change (@nil ref) with (option_list (@None ref)) at 1. rewrite <- Hd, app_nil_r.
  apply adds_emit_last; [|by rewrite Hd|done]. unfold escalation_refs in *. split_P.
  apply (adds_seq [] []); [by apply nsplit_cache_timeperiod_adds|].
  apply (adds_seq [] []); [by apply contactgroups_adds|by apply contacts_adds].
Qed.

Lemma adds_gets_hosts {A} T R (k : gset nat -> SP A) : adds T R (k H) -> adds T R (set ← gets sp_hosts; k set).
Proof. intros Hk s Hs. specialize (Hk s Hs). change ((set ← gets sp_hosts; k set) s) with (k (sp_hosts s) s). by rewrite Hs. Qed.

Lemma adds_emit_hosts {A B} T1 T2 R1 R2 (c : SP A) (d : SP B) (e : gset nat -> entry) :
  adds T1 R1 c -> adds T2 R2 d -> (forall r, defs (e H) = Some r -> small r = false) ->
  (forall r, r ∈ needs (e H) -> r ∈ R1 ++ R2 \/ small r = false /\ forall s, marked s r) ->
  adds (T1 ++ option_list (defs (e H)) ++ T2) (R1 ++ R2) (c ;; set ← gets sp_hosts; emit (e set) ;; d).
Proof.
  intros Hc Hd He Hn s Hs. destruct (adds_emit T1 T2 R1 R2 c d (e H) Hc Hd He Hn s Hs) as [G M].
  assert (sp_hosts (c s).2 = H) as Hs1 by (rewrite (grows_hosts T1 s (c s).2); [done|by apply Hc]).
  revert G M. cbn. unfold mbind, ST_bind, gets. destruct (c s) as [a s1]; cbn in *. by rewrite Hs1.
Qed.

Lemma hostdependencies_adds h l :
  h ∈ H -> let R d := if bool_decide (dep_master (o_hostdeps oc !!! d) ∈ H)
                      then periods_of [dep_period (o_hostdeps oc !!! d)] else [] in
  Forall P (flat_map R l) -> adds [] (flat_map R l) (nsplit_cache_hostdependencies oc h l).
Proof.
  intros Hh R Hp. apply adds_loop. intros d Hd. apply adds_gets_hosts.
  assert (Forall P (R d)) as Hp' by (by eapply flat_map_Forall).
  unfold R in *. case_bool_decide as Ht; [|apply adds_ret].
  apply (adds_emit_last (periods_of [dep_period (o_hostdeps oc !!! d)]) _ (E_hostdependency h d));
    [by apply nsplit_cache_timeperiod_adds|done|].
  intros r. cbn [needs]. rewrite elem_of_app, elem_of_cons, list_elem_of_singleton. intros [?|[-> | ->]]; auto.
Qed.

Lemma servicedependencies_adds x l :
  (x < length (o_services oc))%nat -> sv_host (o_services oc !!! x) ∈ H ->
  (forall d, d ∈ l -> (dep_master (o_servicedeps oc !!! d) < length (o_services oc))%nat) ->
  let R d := if bool_decide (sv_host (o_services oc !!! dep_master (o_servicedeps oc !!! d)) ∈ H)
             then periods_of [dep_period (o_servicedeps oc !!! d)] else [] in
  Forall P (flat_map R l) -> adds [] (flat_map R l) (nsplit_cache_servicedependencies oc x l).
Proof.
  intros Hx Hh Hm R Hp. apply adds_loop. intros d Hd. apply adds_gets_hosts.
  assert (Forall P (R d)) as Hp' by (by eapply flat_map_Forall).
  unfold R in *. case_bool_decide as Ht; cbn [negb]; [|apply adds_ret].
  apply (adds_emit_last (periods_of [dep_period (o_servicedeps oc !!! d)]) _ (E_servicedependency x d));
    [by apply nsplit_cache_timeperiod_adds|done|].
  intros r. cbn [needs]. rewrite elem_of_app, elem_of_cons, list_elem_of_singleton. pose proof (Hm d Hd).
  intros [?|[-> | ->]]; [by left|by right..].
Qed.

Lemma tmp_slaves_refs sl r : r ∈ slaves_refs (tmp_slaves sl) -> r ∈ slaves_refs sl.
Proof.
  destruct (tmp_slaves_sub sl) as (A & B & C & D & E & F). unfold slaves_refs.
  rewrite !two_commands, !two_periods, !commands_one, !periods_one, !elem_of_app, !list_elem_of_fmap.
  intros [[Hr|Hr]|[[Hr|Hr]|[(y & -> & Hr)|(y & -> & Hr)]]]; [..|by eauto 8|by eauto 8].
  all: case_match eqn:Ex; [|by apply elem_of_nil in Hr]; apply list_elem_of_singleton in Hr as ->.
  1: left; left; by rewrite (A _ eq_refl), list_elem_of_singleton.
  1: left; right; by rewrite (B _ eq_refl), list_elem_of_singleton.
  1: right; left; left; by rewrite (C _ eq_refl), list_elem_of_singleton.
  right; left; right; by rewrite (D _ eq_refl), list_elem_of_singleton.
Qed.

Lemma service_adds x :
  (x < length (o_services oc))%nat -> sv_host (o_services oc !!! x) ∈ H -> Forall P (service_roots H x) ->
  adds [R_service x] (service_roots H x) (cache_service oc x).
Proof.
  intros Hx Hh. unfold service_roots. rewrite flat_map_app, <- app_assoc. intros Hp. split_P.
  eapply (adds_weaken [R_service x] (slaves_refs (tmp_slaves (sv_slaves (o_services oc !!! x))) ++ _));
    [|unfold cache_service; apply (adds_emit [] [] _ _ _ _ (E_service x)); [| | |]].
  - intros r Hr. rewrite elem_of_app. right. exact Hr.
  - apply slaves_adds. apply Forall_forall. intros r Hr%tmp_slaves_refs. rewrite Forall_forall in H0. auto.
  - apply (adds_seq [] []); [by apply slaves_adds|].
    apply (adds_seq [] []); [apply servicedependencies_adds; auto; intros; apply (wf_masters WF x), elem_of_app; auto|].
    apply (adds_seq [] []); [apply servicedependencies_adds; auto; intros; apply (wf_masters WF x), elem_of_app; auto|].
    apply adds_loop. intros e He. apply escalation_adds; [|done|];
      [by eapply (flat_map_Forall (fun e => escalation_refs (o_serviceescalations oc !!! e))); eassumption|].
    intros r. cbn [needs]. rewrite elem_of_app, list_elem_of_singleton. intros [?| ->]; [by auto|by right].
  - by intros r [= <-].
  - intros r. cbn [needs]. rewrite !elem_of_app, list_elem_of_singleton. intros [?| ->]; [by auto|by right].
Qed.

(** What is done for a host behind the test of htrack. *)
Definition host_rest (h : nat) : SP unit :=
  let hs := o_hosts oc !!! h in
  nsplit_cache_slaves oc (oh_slaves hs) ;;
  set ← gets sp_hosts;
  emit (E_host h (filter (fun p => p ∈ set) (oh_parents hs))) ;;
  nsplit_cache_hostdependencies oc h (oh_exec_deps hs) ;;
  nsplit_cache_hostdependencies oc h (oh_notify_deps hs) ;;
  for_each (oh_escalations hs) (fun e =>
    nsplit_cache_escalation oc (o_hostescalations oc !!! e) (E_hostescalation h e)) ;;
  for_each (oh_services hs) (cache_service oc).

Lemma cache_host_run h s :
  nsplit_cache_host oc h s
  = (if bool_decide (h ∈ sp_htrack s) then mret tt else host_rest h) 
      (if bool_decide (h ∈ sp_htrack s) then s else s <| sp_htrack ::= fun m => {[h]} ∪ m |>).
Proof. unfold nsplit_cache_host, mbind, ST_bind, gets. by case_bool_decide. Qed.

Lemma host_rest_adds h :
  h ∈ H -> Forall P (host_roots H h) ->
  adds (R_host h :: map R_service (oh_services (o_hosts oc !!! h))) (host_roots H h) (host_rest h).
Proof.
  intros Hh. unfold host_roots. rewrite flat_map_app, <- app_assoc. intros Hp. split_P.
  set (T := map _ _). apply (adds_emit_hosts [] T _ _ _ _
    (fun set => E_host h (filter (fun p => p ∈ set) (oh_parents (o_hosts oc !!! h))))).
  - by apply slaves_adds.
  - apply (adds_seq [] T); [by apply hostdependencies_adds|].
    apply (adds_seq [] T); [by apply hostdependencies_adds|].
    apply (adds_seq [] T).
    + apply adds_loop. intros e He. apply escalation_adds; [|done|];
        [by eapply (flat_map_Forall (fun e => escalation_refs (o_hostescalations oc !!! e))); eassumption|].
      intros r. cbn [needs]. rewrite elem_of_app, list_elem_of_singleton. intros [?| ->]; [by auto|by right].
    + unfold T. rewrite <- flat_map_single. apply adds_for_each. intros x Hx. destruct (wf_service_host WF h x Hx) as [? Hsv].
      apply service_adds; [done|by rewrite Hsv|].
      by eapply flat_map_Forall; eassumption.
  - by intros r [= <-].
  - intros r. cbn [needs]. rewrite !elem_of_app, list_elem_of_fmap.
    intros [?|(y & -> & [Hy _]%list_elem_of_filter)]; auto.
Qed.

(** A host that was not written yet is, with all its services. *)
Lemma host_grows h s :
  sp_hosts s = H -> h ∈ H -> Forall P (host_roots H h) ->
  grows (if bool_decide (h ∈ sp_htrack s) then [] else R_host h :: map R_service (oh_services (o_hosts oc !!! h)))
    s (nsplit_cache_host oc h s).2.
Proof.
  intros Hs Hh Hp. rewrite cache_host_run. case_bool_decide as Hin; [apply grows_refl|].
  destruct (host_rest_adds h Hh Hp (s <| sp_htrack ::= fun m => {[h]} ∪ m |>)) as [[new [A1 A2 A3 A4 A5 A6 A7]] _]; [done|].
  by exists new.
Qed.

(** The tests of htrack and of the groups are not disturbed by what is cached in between. *)
Definition neutral (Q : split -> Prop) : Prop :=
  (forall e s, Q s -> Q (emit e s).2) /\ (forall r s, Q s -> Q (mark r s)).

#[local] Hint Extern 5 (preserves _ (nsplit_cache_command _)) => apply command_frame; eauto : pres.
#[local] Hint Extern 5 (preserves _ (nsplit_cache_timeperiod _ _)) => apply timeperiod_frame; eauto : pres.
#[local] Hint Extern 5 (preserves _ (nsplit_cache_contacts _ _)) => apply contacts_frame; eauto : pres.
#[local] Hint Extern 6 (preserves _ (emit _)) => unfold preserves; eauto : pres.

Lemma contactgroups_frame Q l : neutral Q -> preserves Q (nsplit_cache_contactgroups oc l).
Proof.
  intros [He Hm]. apply preserves_for_each. intros g. preserve.
  apply preserves_modify. intros s. apply (Hm (R_contactgroup g)).
Qed.
#[local] Hint Resolve contactgroups_frame : pres.

Lemma slaves_frame Q sl : neutral Q -> preserves Q (nsplit_cache_slaves oc sl).
Proof. intros HQ. pose proof HQ as [He Hm]. unfold nsplit_cache_slaves. preserve. Qed.
#[local] Hint Resolve slaves_frame : pres.

Lemma escalation_frame Q es e : neutral Q -> preserves Q (nsplit_cache_escalation oc es e).
Proof. intros HQ. pose proof HQ as [He Hm]. unfold nsplit_cache_escalation. preserve. Qed.
#[local] Hint Resolve escalation_frame preserves_for_each : pres.

Lemma host_rest_frame Q h : neutral Q -> preserves Q (host_rest h).
Proof.
  intros HQ. pose proof HQ as [He Hm]. unfold host_rest. preserve; apply preserves_for_each; intros; preserve.
  all: apply preserves_for_each; intros; preserve.
Qed.

Lemma cache_host_track h s :
  sp_htrack (nsplit_cache_host oc h s).2 = if bool_decide (h ∈ sp_htrack s) then sp_htrack s else {[h]} ∪ sp_htrack s.
Proof.
  rewrite cache_host_run. case_bool_decide; [done|].
  apply (host_rest_frame (fun s' => sp_htrack s' = {[h]} ∪ sp_htrack s)); [|done].
  split; [done|]. by intros [] ?.
Qed.

(** ** The groups *)

Definition host_tops (h : nat) : list ref := R_host h :: map R_service (oh_services (o_hosts oc !!! h)).

(** The hosts [hs] were written, and with them those of [ms] all have been. *)
Record walked (hs ms : list nat) (s s' : split) : Prop := Walked {
  wk_grows : grows (flat_map host_tops hs) s s';
  wk_once : NoDup hs;
  wk_fresh : forall h, h ∈ hs -> h ∉ sp_htrack s;
  wk_track : forall h, h ∈ sp_htrack s' <-> h ∈ sp_htrack s \/ h ∈ hs;
  wk_members : forall h, h ∈ ms -> h ∈ sp_htrack s';
  wk_within : forall h, h ∈ hs -> h ∈ ms;
  wk_roots : forall h r, h ∈ hs -> r ∈ host_roots H h -> marked s' r }.

Lemma walked_refl s : walked [] [] s s.
Proof.
  constructor; try (by intros ? ?%elem_of_nil); try (by intros ? ? ?%elem_of_nil); [apply grows_refl|constructor|set_solver].
Qed.

Lemma walked_trans hs1 hs2 ms1 ms2 s1 s2 s3 :
  walked hs1 ms1 s1 s2 -> walked hs2 ms2 s2 s3 -> walked (hs1 ++ hs2) (ms1 ++ ms2) s1 s3.
Proof.
  intros [A1 A2 A3 A4 A5 A6 A7] [B1 B2 B3 B4 B5 B6 B7]. constructor.
  - rewrite flat_map_app. by eapply grows_trans.
  - apply NoDup_app. split_and!; try done. intros h Hh Hh2. apply (B3 h Hh2), A4. auto.
  - intros h [Hh|Hh]%elem_of_app; [auto|]. intros Hi. apply (B3 h Hh), A4. auto.
  - intros h. rewrite B4, A4, elem_of_app. tauto.
  - intros h [Hh|Hh]%elem_of_app; [|auto]. apply B4. auto.
  - intros h. rewrite !elem_of_app. intros [?|?]; auto.
  - intros h r [Hh|Hh]%elem_of_app Hr; [|eauto]. eapply grows_mono; eauto.
Qed.

Hypothesis P_roots : forall h, h ∈ H -> Forall P (host_roots H h).

Lemma host_walked h s : sp_hosts s = H -> h ∈ H -> exists hs, walked hs [h] s (nsplit_cache_host oc h s).2.
Proof.
  intros Hs Hh. pose proof (host_grows h s Hs Hh (P_roots h Hh)) as Hg. pose proof (cache_host_track h s) as Ht.
  case_bool_decide as Hin.
  - exists []. constructor; rewrite ?Ht; try (by intros ? ?%elem_of_nil); try (by intros ? ? ?%elem_of_nil); [done|constructor|set_solver..].
  - exists [h]. constructor; rewrite ?Ht; [cbn; by rewrite app_nil_r|apply NoDup_singleton|set_solver..|].
    intros h' r ->%list_elem_of_singleton Hr. rewrite cache_host_run, bool_decide_eq_false_2 by done.
    by apply host_rest_adds; auto.
Qed.

Lemma walked_for_each {X} (mem : X -> list nat) (f : X -> SP unit) l s :
  sp_hosts s = H ->
  (forall x s, x ∈ l -> sp_hosts s = H -> exists hs, walked hs (mem x) s (f x s).2) ->
  exists hs, walked hs (flat_map mem l) s (for_each l f s).2.
Proof.
  revert s. induction l as [|x l IH]; intros s Hs Hf; [exists []; apply walked_refl|].
  destruct (Hf x s) as [hs1 W1]; [left|done|]. cbn. unfold mbind, ST_bind. destruct (f x s) as [[] s1]; cbn in *.
  destruct (IH s1) as [hs2 W2].
  - by rewrite (grows_hosts _ _ _ (wk_grows _ _ _ _ W1)).
  - intros y s' Hy. apply Hf. by right.
  - exists (hs1 ++ hs2). by eapply walked_trans.
Qed.

Definition members_of (n : text) : list nat :=
  match list_find (fun g => g_name g = n) (o_hostgroups oc) with Some (_, hg) => g_members hg | None => [] end.

Lemma grows_group g e s s' T :
  grows T (s <| sp_out ::= fun o => o ++ [e] |> <| sp_hostgroups ::= fun m => {[g]} ∪ m |>) s' ->
  defs e = None -> (forall r, r ∈ needs e -> small r = false /\ forall s, marked s r) -> grows T s s'.
Proof.
  intros G Hd Hn. destruct G as [new [A1 A2 A3 A4 A5 A6 A7]].
  change T with ([] ++ option_list (@None ref) ++ T). rewrite <- Hd.
  eapply (grows_emit [] T e s s (emit e s).2); [apply grows_refl| |done|by rewrite Hd|].
  - exists new. constructor; done.
  - intros r Hr. by apply Hn.
Qed.

Lemma group_walked n s :
  sp_hosts s = H -> (forall h, h ∈ members_of n -> h ∈ H) -> is_Some (list_find (fun g => g_name g = n) (o_hostgroups oc)) ->
  exists hs, walked hs (members_of n) s (write_group oc n s).2.
Proof.
  unfold members_of, write_group. intros Hs Hm [[g hg] Hg]. rewrite Hg in *.
  set (s1 := s <| sp_out ::= fun o => o ++ [E_hostgroup g (g_members hg)] |> <| sp_hostgroups ::= fun m => {[g]} ∪ m |>).
  destruct (walked_for_each (fun h => [h]) (nsplit_cache_host oc) (g_members hg) s1 Hs) as [hs W].
  { intros h s' Hh Hs'. apply host_walked; auto. }
  exists hs. rewrite (flat_map_single id), map_id in W. destruct W as [W1 W2 W3 W4 W5 W6 W7]. constructor; try done.
  eapply grows_group; [exact W1|done|]. intros r (h & -> & Hh)%list_elem_of_fmap. split; [done|]. intros s'. by apply Hm.
Qed.

Lemma adds_gets {A B} T R (f : split -> B) (k : B -> SP A) : (forall b, adds T R (k b)) -> adds T R (b ← gets f; k b).
Proof. intros Hk s Hs. exact (Hk (f s) s Hs). Qed.

(** Groups that consist of taken hosts, or services of these. *)
Lemma adds_group e :
  defs e = None -> (forall r, r ∈ needs e -> small r = false /\ forall s, marked s r) -> adds [] [] (emit e).
Proof.
  intros Hd Hn s Hs. split; [|by intros ? ?%elem_of_nil].
  pose proof (grows_emit [] [] e s s (emit e s).2 (emit e s).2 (grows_refl s) (grows_refl _) eq_refl) as Hx.
  rewrite Hd in Hx. apply Hx; [done|]. intros r Hr. by apply Hn.
Qed.

Lemma partial_groups_adds : adds [] [] (nsplit_partial_groups oc).
Proof.
  assert (forall l (f : nat -> SP unit), (forall g, adds [] [] (f g)) -> adds [] [] (for_each l f)) as Hloop.
  { intros l f Hf. replace (@nil ref) with (flat_map (fun _ : nat => @nil ref) l) at 2 by (clear; by induction l).
    by apply adds_loop. }
  apply (adds_seq [] [] [] []); apply Hloop; intros g.
  - unfold partial_hostgroup. apply adds_gets. intros d. case_bool_decide; [apply adds_ret|]. apply adds_gets_hosts.
    case_bool_decide; [apply adds_ret|]. apply adds_group; [done|].
    intros r (h & -> & [Hh _]%list_elem_of_filter)%list_elem_of_fmap. done.
  - unfold partial_servicegroup. apply adds_gets_hosts.
    case_bool_decide; [apply adds_ret|]. apply adds_group; [done|].
    intros r (x & -> & Hx)%list_elem_of_fmap. rewrite qsort_perm, reverse_Permutation, list_elem_of_filter in Hx.
    destruct Hx as [Hx Hg]. split; [done|]. intros s. split; [by apply (wf_members WF g)|done].
Qed.

End Needs.

(** ** The whole file *)

Section Whole.
Context {QS : QSort} {FC : Fcache} (oc : oconf).

(** The hosts of groups. *)
Definition tagged (names : list text) : gset nat := list_to_set (flat_map (members_of oc) names).

Definition known (n : text) : Prop := is_Some (list_find (fun g => g_name g = n) (o_hostgroups oc)).

Lemma tag_groups_known names s :
  Forall known names -> tag_groups oc names s = (0, s <| sp_hosts := tagged names ∪ sp_hosts s |>).
Proof.
  intros Hk. revert s. induction Hk as [|n names [[g hg] Hn] Hrest IH]; intros s; cbn.
  - unfold tagged. cbn. rewrite union_empty_l_L. by destruct s.
  - unfold map_hostgroup_hosts, mbind, ST_bind. rewrite Hn. cbn. rewrite IH. cbn.
    assert (tagged names ∪ (list_to_set (g_members hg) ∪ sp_hosts s) = tagged (n :: names) ∪ sp_hosts s) as ->; [|done].
    unfold tagged. cbn. unfold members_of at 2. rewrite Hn, list_to_set_app_L. clear. set_solver.
Qed.

Lemma tag_groups_unknown names s : ~ Forall known names -> (tag_groups oc names s).1 = -1.
Proof.
  revert s. induction names as [|n names IH]; intros s Hk; [by destruct Hk|]. cbn.
  unfold map_hostgroup_hosts, mbind, ST_bind. destruct (list_find _ _) as [[g hg]|] eqn:E; [|done]. cbn.
  apply IH. intros Hf. apply Hk. constructor; [|done]. unfold known. by rewrite E.
Qed.

(** Caching commands does not look at the tagged hosts. *)
Lemma commands_hosts l X s :
  (for_each l nsplit_cache_command (s <| sp_hosts := X |>)).2 = (for_each l nsplit_cache_command s).2 <| sp_hosts := X |>.
Proof.
  revert s. induction l as [|[c|] l IH]; intros s; cbn; [done| |apply IH]. unfold mbind, ST_bind, gets. cbn.
  case_bool_decide; cbn; [apply IH|]. etrans; [|apply IH]. done.
Qed.

Lemma total_refs {A} `{!Inhabited A} (f : A -> list ref) (l : list A) i r :
  f inhabitant = [] -> r ∈ f (l !!! i) -> r ∈ flat_map f l.
Proof.
  intros H0 Hr. destruct (l !! i) as [a|] eqn:E.
  - rewrite (list_lookup_total_correct _ _ _ E) in Hr. apply list_elem_of_In, in_flat_map. exists a.
    rewrite <- !list_elem_of_In. split; [by eapply list_elem_of_lookup_2|done].
  - rewrite list_lookup_total_alt, E in Hr. cbn in Hr. rewrite H0 in Hr. by apply elem_of_nil in Hr.
Qed.

Lemma in_flat {A} (f : A -> list ref) l r : r ∈ flat_map f l <-> exists a, a ∈ l /\ r ∈ f a.
Proof. rewrite list_elem_of_In, in_flat_map. by setoid_rewrite list_elem_of_In. Qed.

Lemma not_period_command t l : R_timeperiod t ∉ commands_of l.
Proof. induction l as [|[c|] l IH]; cbn; [apply not_elem_of_nil| |done]. rewrite elem_of_cons. intros [[=]|?]; done. Qed.

(** The time periods that are needed are in the table. *)
Lemma req_all t r : R_timeperiod t ∈ req oc r -> R_timeperiod t ∈ all_refs oc.
Proof.
  unfold all_refs. destruct r as [c|x|c|g|h|x]; cbn [req]; try (by intros ?%elem_of_nil).
  - intros Hr. apply elem_of_app. left. by apply (total_refs periods_of _ x).
  - rewrite !elem_of_app. intros [Hr|[Hr|Hr]]; [|by apply not_period_command in Hr..].
    right. left. by apply (total_refs (fun c => periods_of [c_host_notification_period c; c_service_notification_period c]) _ c).
  - intros (y & [=] & _)%list_elem_of_fmap.
Qed.

(** Where the references of hosts and services are in [all_refs]. *)
Lemma all_refs_parts r :
  (exists h, r ∈ slaves_refs (oh_slaves (o_hosts oc !!! h))) \/ (exists x, r ∈ slaves_refs (sv_slaves (o_services oc !!! x))) \/
  (exists d, r ∈ periods_of [dep_period (o_hostdeps oc !!! d)]) \/ (exists d, r ∈ periods_of [dep_period (o_servicedeps oc !!! d)]) \/
  (exists e, r ∈ escalation_refs (o_hostescalations oc !!! e)) \/ (exists e, r ∈ escalation_refs (o_serviceescalations oc !!! e)) ->
  r ∈ all_refs oc.
Proof.
  unfold all_refs. rewrite !flat_map_app. intros Hr.
  assert (r ∈ flat_map (fun h => slaves_refs (oh_slaves h)) (o_hosts oc) \/
    r ∈ flat_map (fun s => slaves_refs (sv_slaves s)) (o_services oc) \/
    r ∈ flat_map (fun d => periods_of [dep_period d]) (o_hostdeps oc) \/
    r ∈ flat_map (fun d => periods_of [dep_period d]) (o_servicedeps oc) \/
    r ∈ flat_map escalation_refs (o_hostescalations oc) \/ r ∈ flat_map escalation_refs (o_serviceescalations oc)) as Hf.
  { destruct Hr as [[i Hr]|[[i Hr]|[[i Hr]|[[i Hr]|[[i Hr]|[i Hr]]]]]].
    1: left. 2: right; left. 3: do 2 right; left. 4: do 3 right; left. 5: do 4 right; left. 6: do 5 right.
    all: by eapply (total_refs _ _ i). }
  repeat first [rewrite elem_of_app|setoid_rewrite elem_of_app]. tauto.
Qed.

Lemma in_flat_if {A} (b : A -> bool) (f : A -> list ref) l r :
  r ∈ flat_map (fun a => if b a then f a else []) l -> exists a, r ∈ f a.
Proof. rewrite in_flat. intros (a & _ & Ha). exists a. destruct (b a); [done|by apply elem_of_nil in Ha]. Qed.

Lemma service_roots_all H x r : r ∈ service_roots oc H x -> r ∈ all_refs oc.
Proof.
  unfold service_roots. rewrite elem_of_app, elem_of_app. intros Hr. apply all_refs_parts.
  destruct Hr as [Hr|[Hr%in_flat_if|Hr]]; [by eauto|by eauto 6|].
  apply in_flat in Hr as (e & _ & Hr). by eauto 8.
Qed.

Lemma host_roots_all H h r : r ∈ host_roots oc H h -> r ∈ all_refs oc.
Proof.
  unfold host_roots. rewrite elem_of_app, elem_of_app, elem_of_app. intros Hr.
  destruct Hr as [Hr|[Hr%in_flat_if|[Hr|Hr]]]; [apply all_refs_parts; by eauto..| |].
  - apply in_flat in Hr as (e & _ & Hr). apply all_refs_parts. by eauto 8.
  - apply in_flat in Hr as (x & _ & Hr). by eapply service_roots_all.
Qed.

Lemma needed_period H t : wf oc -> needed oc H (R_timeperiod t) -> (t < length (o_timeperiods oc))%nat.
Proof.
  intros WF Hn. apply (wf_periods _ WF). inversion Hn as [r Hr|h r Hh Hr|r r' Hr Hq]; subst.
  - by apply not_period_command in Hr.
  - by eapply host_roots_all.
  - by eapply req_all.
Qed.

Lemma commands_keep_hosts l s : sp_hosts (for_each l nsplit_cache_command s).2 = sp_hosts s.
Proof.
  apply (preserves_for_each (fun s' => sp_hosts s' = sp_hosts s)); [|done].
  intros c. by apply command_frame.
Qed.

Lemma split_poller_run groups :
  let names := split_commas groups in
  Forall known names ->
  split_poller oc (Some groups) clear_split
  = (true, (nsplit_partial_groups oc (for_each names (write_group oc)
      (for_each (o_global_commands oc) nsplit_cache_command (clear_split <| sp_hosts := tagged names |>)).2).2).2).
Proof.
  intros names Hk. rewrite commands_hosts. pose proof (commands_keep_hosts (o_global_commands oc) clear_split) as Hh.
  unfold split_poller, nsplit_cache_stuff, mbind, ST_bind.
  destruct (for_each (o_global_commands oc) nsplit_cache_command clear_split) as [[] s1]. cbn [snd] in *.
  fold names. rewrite (tag_groups_known names s1 Hk), Hh. cbn [clear_split sp_hosts]. rewrite union_empty_r_L. cbn [Z.ltb].
  cbn. destruct (for_each names (write_group oc) _) as [[] s2]. cbn. by destruct (nsplit_partial_groups oc s2) as [[] s3].
Qed.

(** Everything that was printed for a poller. *)
Lemma split_poller_grows groups :
  let names := split_commas groups in let H := tagged names in
  wf oc -> Forall known names ->
  exists s hs, split_poller oc (Some groups) clear_split = (true, s) /\
    grows oc H (needed oc H) (flat_map (host_tops oc) hs) (clear_split <| sp_hosts := H |>) s /\
    NoDup hs /\ (forall h, h ∈ hs <-> h ∈ H) /\
    (forall r, r ∈ commands_of (o_global_commands oc) -> marked oc H s r) /\
    (forall h r, h ∈ H -> r ∈ host_roots oc H h -> marked oc H s r).
Proof.
  intros names H WF Hk. set (P := needed oc H).
  assert (forall r r', P r -> r' ∈ req oc r -> P r') as P_req by (intros; by eapply needed_req).
  assert (forall t, P (R_timeperiod t) -> (t < length (o_timeperiods oc))%nat) as P_period by (intros; by eapply needed_period).
  assert (forall h, h ∈ H -> Forall P (host_roots oc H h)) as P_roots.
  { intros h Hh. apply Forall_forall. intros r Hr. by apply (needed_host oc H h). }
  set (s0 := clear_split <| sp_hosts := H |>).
  destruct (commands_adds oc H P (o_global_commands oc)) with (s := s0) as [G1 M1]; [|done|].
  { apply Forall_forall. intros r Hr. by apply needed_global. }
  set (s1 := (for_each (o_global_commands oc) nsplit_cache_command s0).2) in *.
  assert (sp_hosts s1 = H) as Hs1 by apply (grows_hosts _ _ _ _ _ _ G1).
  destruct (walked_for_each oc WF H P P_req P_period (members_of oc) (write_group oc) names s1 Hs1) as [hs W].
  { intros n s Hn Hs. rewrite Forall_forall in Hk. apply group_walked; auto; [|by apply Hk].
    intros h Hh. apply elem_of_list_to_set, list_elem_of_In, in_flat_map. exists n. by rewrite <- !list_elem_of_In. }
  set (s2 := (for_each names (write_group oc) s1).2) in *. destruct W as [W1 W2 W3 W4 W5 W6 W7].
  destruct (partial_groups_adds oc WF H P s2) as [G3 _]; [by rewrite (grows_hosts _ _ _ _ _ _ W1)|].
  exists (nsplit_partial_groups oc s2).2, hs.
  assert (forall h, h ∈ hs <-> h ∈ H) as Hhs.
  { intros h. unfold H, tagged. rewrite elem_of_list_to_set. split; [apply W6|]. intros Hh%W5%W4.
    destruct Hh as [Hh|?]; [|done]. exfalso. revert Hh. unfold s1.
    assert (preserves (fun s => sp_htrack s = ∅) (for_each (o_global_commands oc) nsplit_cache_command)) as Hp.
    { apply preserves_for_each. intros c. by apply command_frame. }
    rewrite (Hp s0 eq_refl). apply not_elem_of_empty. }
  split_and!; try done.
  - by apply split_poller_run.
  - rewrite <- (app_nil_l (flat_map _ _)), <- (app_nil_r (flat_map _ _)).
    eapply grows_trans; [exact G1|]. by eapply grows_trans.
  - intros r Hr. eapply grows_mono; [exact G3|]. eapply grows_mono; [exact W1|]. auto.
  - intros h r Hh Hr. eapply grows_mono; [exact G3|]. apply (W7 h); [by apply Hhs|done].
Qed.

(** C6.  The file that is written for a poller is a complete and minimal configuration.  When the
    poller's host groups exist: the hosts in it are those of the groups, each once and with all its
    services; every command, time period, contact and contact group that they need, directly or
    through others and also through time periods that exclude each other in a circle, is in it, once,
    and no other; and whatever is referred to in the file, by parents of hosts, dependencies,
    escalations and groups too, is defined in it, the parents of services excepted. *)
Theorem poller_config_complete (groups : text) (WF : wf oc)
    (Hk : Forall known (split_commas groups)) :
  let H := tagged (split_commas groups) in
  exists s hs, split_poller oc (Some groups) clear_split = (true, s) /\
    let defined := omap defs (sp_out s) in
    NoDup hs /\ (forall h, h ∈ hs <-> h ∈ H) /\
    filter (fun r => small r = false) defined = flat_map (host_tops oc) hs /\
    NoDup (filter (fun r => small r = true) defined) /\
    (forall r, small r = true -> r ∈ defined <-> needed oc H r) /\
    (forall e r, e ∈ sp_out s -> r ∈ needs oc e -> r ∈ defined).
Proof.
  intros H. destruct (split_poller_grows groups WF Hk) as (s & hs & Hrun & G & Hnd & Hhs & Hglob & Hroot).
  exists s, hs. destruct G as [new [A1 A2 A3 A4 A5 A6 A7]]. cbn in A1. fold H in A4, A5, A7, Hhs, Hglob, Hroot.
  assert (forall r, small r = true -> marked oc H s r <-> r ∈ omap defs (sp_out s)) as Hm.
  { intros r Hr. rewrite A1, (A4 r Hr). split; [intros [Hc|?]; [|done]|by right]. destruct r; cbn in Hc; by try apply elem_of_empty in Hc. }
  assert (forall h x, h ∈ H -> x ∈ host_tops oc h -> x ∈ omap defs (sp_out s)) as Htop.
  { intros h x Hh Hx. assert (x ∈ filter (fun r => small r = false) (omap defs new)) as Hf.
    { rewrite A3. apply list_elem_of_In, in_flat_map. exists h. rewrite <- !list_elem_of_In. by rewrite Hhs. }
    rewrite A1. by apply list_elem_of_filter in Hf as [_ Hf]. }
  split; [exact Hrun|]. cbn zeta. split_and!; try done; [by rewrite A1|by rewrite A1| |].
  - intros r Hr. split; [rewrite A1; intros Hi; by apply A5|].
    intros Hn. induction Hn as [r Hg|h r Hh Hg|r r' Hn IH Hq]; [by apply Hm; auto|by apply Hm; eauto|].
    apply Hm; [done|]. destruct (small r) eqn:Er; [|by destruct r; try done; apply elem_of_nil in Hq].
    specialize (IH eq_refl). rewrite A1 in IH. apply list_elem_of_omap in IH as (e & He & Hd).
    apply (A7 e); [done|]. by destruct e; cbn in Hd; simplify_eq.
  - intros e r He Hr. rewrite A1 in He. pose proof (A7 e r He Hr) as Hx.
    destruct (small r) eqn:Er; [by apply Hm|]. destruct r as [| | | |h|x]; try done; cbn in Hx.
    + apply (Htop h); [done|]. left.
    + destruct Hx as [Hlt Hx]. apply (Htop _ _ Hx). right. by apply list_elem_of_fmap_2, (wf_in_host _ WF).
Qed.

(** A poller with an unknown host group gets no file. *)
Lemma unknown_group_skipped groups s :
  ~ Forall known (split_commas groups) -> (split_poller oc (Some groups) s).1 = false.
Proof.
  intros Hk. unfold split_poller, nsplit_cache_stuff, mbind, ST_bind.
  destruct (for_each (o_global_commands oc) nsplit_cache_command s) as [[] s1].
  pose proof (tag_groups_unknown (split_commas groups) s1 Hk) as Ht.
  destruct (tag_groups oc (split_commas groups) s1) as [r s2]. cbn in Ht. by subst.
Qed.

End Whole.

(** ** The files of all pollers *)

Section Files.
Context {QS : QSort} {FC : Fcache} (oc : oconf) (dir : text) (mem : blk_SHA_CTX).
Hypothesis Hmem : length (sha_W mem) = 64%nat.

(** What is written for a poller. *)
Definition poller_text (n : merlin_node) : list byte :=
  concat (map fcache (sp_out (split_poller oc (hostgroups n) clear_split).2)).

(** The file of [n] is in place, and its hash is what the module expects of the poller at [i]. *)
Definition split_done (i : nat) (n : merlin_node) (s : splitting) : Prop :=
  so_files s !! outfile_of dir n = Some (poller_text n, Some (i_last_cfg_change (self_of (so_merlin s)))) /\
  i_config_hash (expected (m_nodes (so_merlin s) !!! i)) = fips_sha1 (poller_text n).

Lemma split_node_well i s tmp ios :
  let n := m_nodes (so_merlin s) !!! i in
  so_io s = AllWell tmp :: ios -> (split_poller oc (hostgroups n) clear_split).1 = true ->
  (split_node oc dir mem i s).2 = Splitting
    (on_node i (fun n' => n' <| expected ::= fun e => e <| i_config_hash := fips_sha1 (poller_text n) |> |>) (so_merlin s)).2
    (<[outfile_of dir n := (poller_text n, Some (i_last_cfg_change (self_of (so_merlin s))))]> (so_files s)) (so_temps s) ios.
Proof.
  intros n Hio Hok. unfold split_node, mbind, ST_bind, gets, modify. cbn. rewrite Hio. cbn. fold n.
  unfold poller_text. destruct (split_poller oc (hostgroups n) clear_split) as [ok sp] eqn:Esp. cbn in Hok. subst. cbn.
  set (content := concat (map fcache (sp_out sp))).
  assert (fips_sha1 content = blk_SHA1_Final (blk_SHA1_Update (blk_SHA1_Init mem) content)) as ->.
  { symmetry. apply final_repr, (update_repr _ []), init_repr, Hmem. }
  unfold date_and_hash, mbind, ST_bind, modify, gets. cbn. unfold hash_add_file. cbn.
  rewrite alter_insert_eq, lookup_insert_eq. cbn. done.
Qed.

Lemma split_loop l s :
  NoDup l -> NoDup (map (fun i => outfile_of dir (m_nodes (so_merlin s) !!! i)) l) ->
  (length l <= length (so_io s))%nat -> Forall (fun r => exists tmp, r = AllWell tmp) (so_io s) ->
  Forall (fun i => (split_poller oc (hostgroups (m_nodes (so_merlin s) !!! i)) clear_split).1 = true) l ->
  let s' := (for_each l (split_node oc dir mem) s).2 in
  (forall i, i ∈ l -> split_done i (m_nodes (so_merlin s) !!! i) s') /\
  (forall i, i ∉ l -> m_nodes (so_merlin s') !!! i = m_nodes (so_merlin s) !!! i) /\
  (forall f, f ∉ map (fun i => outfile_of dir (m_nodes (so_merlin s) !!! i)) l -> so_files s' !! f = so_files s !! f) /\
  self_of (so_merlin s') = self_of (so_merlin s) /\ so_temps s' = so_temps s.
Proof.
  revert s. induction l as [|i l IH]; intros s Hnd Hout Hlen Hio Hok; [split_and!; try done; by intros ? ?%elem_of_nil|].
  destruct (so_io s) as [|r ios] eqn:Eio; [cbn in Hlen; lia|]. apply Forall_cons in Hio as [[tmp ->] Hio].
  apply Forall_cons in Hok as [Hoki Hok]. apply NoDup_cons in Hnd as [Hi Hnd]. cbn [map] in Hout.
  apply NoDup_cons in Hout as [Hoi Hout]. pose proof (split_node_well i s tmp ios Eio Hoki) as Hstep.
  cbn [for_each]. unfold mbind, ST_bind. destruct (split_node oc dir mem i s) as [[] s1]. cbn [snd] in Hstep.
  set (n := m_nodes (so_merlin s) !!! i) in *.
  assert (forall j, m_nodes (so_merlin s1) !!! j = if decide (j = i) then n <| expected ::= fun e => e <| i_config_hash := fips_sha1 (poller_text n) |> |>
    else m_nodes (so_merlin s) !!! j) as Hn1.
  { intros j. subst s1. cbn [so_merlin]. apply node_on_node. }
  assert (self_of (so_merlin s1) = self_of (so_merlin s)) as Hself.
  { unfold self_of, ipc_of. rewrite Hn1. case_decide as Hd; [|done]. unfold n. by rewrite <- Hd. }
  assert (forall j, j ∈ l -> m_nodes (so_merlin s1) !!! j = m_nodes (so_merlin s) !!! j) as Hsame.
  { intros j Hj. rewrite Hn1, decide_False; [done|]. by intros ->. }
  assert (map (fun i => outfile_of dir (m_nodes (so_merlin s1) !!! i)) l
    = map (fun i => outfile_of dir (m_nodes (so_merlin s) !!! i)) l) as Hmap.
  { apply map_ext_in. intros j Hj. by rewrite Hsame by (by apply list_elem_of_In). }
  destruct (IH s1) as (A & B & C & D & E); [done|by rewrite Hmap|subst s1; cbn in *; lia|by subst s1| |].
  { apply Forall_forall. intros j Hj. rewrite Hsame by done. rewrite Forall_forall in Hok. by apply Hok. }
  rewrite Hmap in C. split_and!.
  - intros j [->|Hj]%elem_of_cons; [|rewrite <- (Hsame j Hj); by apply A]. fold n. unfold split_done. rewrite C, D, Hself by done.
    rewrite B by done. split; [subst s1; cbn; by rewrite lookup_insert_eq|]. by rewrite Hn1, decide_True.
  - intros j [Hji Hj]%not_elem_of_cons. rewrite B, Hn1, decide_False; done.
  - intros f Hf. cbn [map] in Hf. apply not_elem_of_cons in Hf as [Hf1 Hf2]. rewrite C by done. subst s1; cbn.
    by rewrite lookup_insert_ne.
  - by rewrite D.
  - rewrite E. by subst s1.
Qed.

(** The hash that the module expects of a poller is the hash of the file it wrote for it, which
    carries the time of the last change; no other node is touched. *)
Theorem split_config_hashes s :
  let ps := pollers (so_merlin s) in
  NoDup ps -> NoDup (map (fun i => outfile_of dir (m_nodes (so_merlin s) !!! i)) ps) ->
  (length ps <= length (so_io s))%nat -> Forall (fun r => exists tmp, r = AllWell tmp) (so_io s) ->
  Forall (fun i => (split_poller oc (hostgroups (m_nodes (so_merlin s) !!! i)) clear_split).1 = true) ps ->
  let s' := (split_config oc dir mem s).2 in
  (forall i, i ∈ ps -> split_done i (m_nodes (so_merlin s) !!! i) s') /\
  (forall i, i ∉ ps -> m_nodes (so_merlin s') !!! i = m_nodes (so_merlin s) !!! i).
Proof.
  intros ps H1 H2 H3 H4 H5. destruct (split_loop ps s H1 H2 H3 H4 H5) as (A & B & _). cbn zeta.
  unfold split_config, mbind, ST_bind, gets. fold ps. destruct (for_each ps _ s) as [[] s1]. done.
Qed.

End Files.

(** ** Checking tables *)

Definition wf_check (oc : oconf) : bool :=
  let nh := length (o_hosts oc) in let ns := length (o_services oc) in
  forallb (fun h => forallb (fun x => (x <? ns)%nat && (sv_host (o_services oc !!! x) =? h)%nat) (oh_services (o_hosts oc !!! h))) (seq 0 nh) &&
  forallb (fun x => bool_decide (x ∈ oh_services (o_hosts oc !!! sv_host (o_services oc !!! x)))) (seq 0 ns) &&
  forallb (fun x => forallb (fun d => (dep_master (o_servicedeps oc !!! d) <? ns)%nat)
    (sv_exec_deps (o_services oc !!! x) ++ sv_notify_deps (o_services oc !!! x))) (seq 0 ns) &&
  forallb (fun g => forallb (fun x => (x <? ns)%nat) (g_members (o_servicegroups oc !!! g))) (seq 0 (length (o_servicegroups oc))) &&
  forallb (fun r => match r with R_timeperiod t => (t <? length (o_timeperiods oc))%nat | _ => true end) (all_refs oc).

(** A property of the lists in a table's entries, checked entry by entry. *)
Lemma table_check {A X} `{!Inhabited A} (l : list A) (f : A -> list X) (p : nat -> X -> bool) i x :
  f inhabitant = [] -> forallb (fun i => forallb (p i) (f (l !!! i))) (seq 0 (length l)) = true ->
  x ∈ f (l !!! i) -> p i x = true.
Proof.
  intros H0 Hc Hx. destruct (decide (i < length l)%nat) as [Hi|Hi].
  - rewrite forallb_forall in Hc. specialize (Hc i ltac:(apply in_seq; lia)). rewrite forallb_forall in Hc.
    by apply Hc, list_elem_of_In.
  - rewrite list_lookup_total_alt, lookup_ge_None_2 in Hx by lia. cbn in Hx. rewrite H0 in Hx. by apply elem_of_nil in Hx.
Qed.

Lemma wf_check_sound oc : wf_check oc = true -> wf oc.
Proof.
  unfold wf_check. rewrite !andb_true_iff. intros [[[[H1 H2] H3] H4] H5]. constructor.
  - intros h x Hx. pose proof (table_check (o_hosts oc) oh_services
      (fun h x => (x <? length (o_services oc))%nat && (sv_host (o_services oc !!! x) =? h)%nat) h x eq_refl H1 Hx) as Hc.
    apply andb_true_iff in Hc as [?%Nat.ltb_lt ?%Nat.eqb_eq]. done.
  - intros x Hx. rewrite forallb_forall in H2. specialize (H2 x ltac:(apply in_seq; lia)). by apply bool_decide_eq_true in H2.
  - intros x d Hd. apply Nat.ltb_lt.
    exact (table_check (o_services oc) (fun s => sv_exec_deps s ++ sv_notify_deps s)
      (fun _ d => (dep_master (o_servicedeps oc !!! d) <? length (o_services oc))%nat) x d eq_refl H3 Hd).
  - intros g x Hx. apply Nat.ltb_lt.
    exact (table_check (o_servicegroups oc) g_members (fun _ x => (x <? length (o_services oc))%nat) g x eq_refl H4 Hx).
  - intros t Ht%list_elem_of_In. rewrite forallb_forall in H5. apply Nat.ltb_lt, (H5 _ Ht).
Qed.

(** ** A small installation *)

#[export] Instance demo_fcache : Fcache.
Proof. refine {| fcache e := match e with E_host h _ => [Byte.x48] | E_service _ => [Byte.x53] | _ => [Byte.x2e] end; tmp_slaves sl := sl |}. done. Defined.

(** Hosts web, db and router; the time periods exclude each other; the service of web depends
    on that of db and has a parent on router. *)
Definition demo_oconf : oconf := {|
  o_timeperiods := [[Some 1]; [Some 0]; []]; o_contacts := [Contact (Some 0) None [Some 2] []; Contact None None [] []];
  o_contactgroups := [[0]; [1]];
  o_hosts := [OHost (str "web") (Slaves None (Some 0) (Some 1) None [0] []) [1; 2] [0] [0] [] [];
              OHost (str "db") (Slaves (Some 1) (Some 0) None None [] [0]) [] [1] [] [] [];
              OHost (str "router") (Slaves None (Some 4) (Some 2) None [1] []) [] [2] [] [] []];
  o_services := [Service 0 (str "http") (Slaves None (Some 3) None None [] []) [2] [0] [] [];
                 Service 1 (str "sql") (Slaves None (Some 3) None None [] []) [] [] [] [];
                 Service 2 (str "snmp") (Slaves None None None None [] []) [] [] [] []];
  o_hostdeps := [Dependency 1 None]; o_servicedeps := [Dependency 1 (Some 0)];
  o_hostescalations := []; o_serviceescalations := [];
  o_hostgroups := [Group (str "servers") [0; 1]; Group (str "network") [2; 0]; Group (str "other") [2]];
  o_servicegroups := [Group (str "all") [0; 1; 2]]; o_global_commands := [Some 5; None] |}%nat.

Lemma poller_config_complete_witness :
  wf demo_oconf /\ Forall (known demo_oconf) (split_commas (str "servers")) /\
  exists s hs, split_poller (QS := QSort_insertion) demo_oconf (Some (str "servers")) clear_split = (true, s) /\
    filter (fun r => small r = false) (omap defs (sp_out s)) = flat_map (host_tops demo_oconf) hs.
Proof.
  assert (wf demo_oconf) as WF by (apply wf_check_sound; vm_compute; reflexivity).
  assert (Forall (known demo_oconf) (split_commas (str "servers"))) as Hk by (repeat constructor; by eexists).
  split; [exact WF|]. split; [exact Hk|].
  destruct (poller_config_complete (QS := QSort_insertion) demo_oconf (str "servers") WF Hk) as (s & hs & Hrun & _ & _ & Htop & _).
  exists s, hs. split; [exact Hrun|exact Htop].
Defined.

(** The file of the example: the time periods once each, the router neither as a parent nor in a group. *)
Example servers_file :
  sp_out (split_poller (QS := QSort_insertion) demo_oconf (Some (str "servers")) clear_split).2
  = [E_command 5; E_hostgroup 0 [0; 1]; E_command 0; E_timeperiod 1; E_timeperiod 0; E_command 2; E_contact 0;
     E_contactgroup 0; E_host 0 [1]; E_hostdependency 0 0; E_command 3; E_service 0; E_servicedependency 0 0;
     E_command 1; E_host 1 []; E_service 1; E_hostgroup 1 [0]; E_servicegroup 0 [0; 1]]%nat.
Proof. vm_compute. reflexivity. Qed.

(** The parents of a service on hosts that are not taken are removed from the temporary copy, but
    the original is printed: the service [snmp] that [http] is printed with is not in the file. *)
Theorem foreign_service_parent_kept :
  let out := sp_out (split_poller (QS := QSort_insertion) demo_oconf (Some (str "servers")) clear_split).2 in
  E_service 0 ∈ out /\ 2%nat ∈ sv_parents (o_services demo_oconf !!! 0%nat) /\ E_service 2 ∉ out.
Proof. cbn zeta. rewrite servers_file. split; [set_solver|]. split; [left|set_solver]. Qed.

(** A host group that is listed twice is printed twice. *)
Theorem repeated_group_printed_twice :
  filter (fun e => e = E_hostgroup 0 [0; 1]%nat)
    (sp_out (split_poller (QS := QSort_insertion) demo_oconf (Some (str "servers,servers")) clear_split).2)
  = [E_hostgroup 0 [0; 1]; E_hostgroup 0 [0; 1]]%nat.
Proof. vm_compute. reflexivity. Qed.

(** A poller without host groups gets a file without hosts: the failure to cache anything is 1,
    and only negative results are failures. *)
Theorem no_groups_no_hosts :
  split_poller (QS := QSort_insertion) demo_oconf None clear_split
  = (true, clear_split <| sp_commands := {[5%nat]} |> <| sp_out := [E_command 5] |>).
Proof. vm_compute. reflexivity. Qed.
