(* ===== verification/Queries.v ===== *)
(** * Questions from users, and commands run for other nodes

    module/queries.c, module/runcmd.c and module/testif_qh.c: the module answers questions that
    come over Naemon's query socket, passes a command on to another node, and runs a command
    another node asks for and sends the output back.  What is printed is kept as a list of texts
    and numbers per socket; Naemon's worker processes and its queue of events are lists of what
    was handed to them.  Parsing key-value strings is Naemon's, the class [Kvvec]. *)

From S2P Require Import Prelude Sha1 Binlog Packet Io Merlin Pgroup Node Control Codec Cfgfile Config Misc.

(** ** Data *)

(** Naemon's ekvstr_to_kvvec and kvvec_fetch_str_str, its names for the reasons of notifications,
    and how the name of a host or service is printed. *)
Class Kvvec := {
  kvvec_fetch : text -> string -> option text;
  notification_reason_name : Z -> text;
  object_names : object -> text }.

(** What nsock_printf prints. *)
Inductive piece := Txt (t : text) | Num (z : Z).

(** module/runcmd.h:6-10 runcmd_ctx -- with the merlin_runcmd it points to; [None] is NULL. *)
Record runcmd_ctx := RuncmdCtx {
  rc_sd : Z; rc_content : option text; rc_node : nat; rc_type : Z }.

#[export] Instance eta_runcmd_ctx : Eta runcmd_ctx := fun r =>
  RuncmdCtx (rc_sd r) (rc_content r) (rc_node r) (rc_type r).

(** The events scheduled with Naemon. *)
Inductive job := SendRuncmd (ctx : runcmd_ctx) | SendCtrlFetch (n : nat).

(** The module, what was printed on which socket, the events scheduled, and the commands given to
    worker processes with the context of their callback, the latest first. *)
Record qh := Qh {
  q_merlin : merlin; q_said : list (Z * list piece); q_jobs : list job;
  q_children : list (text * runcmd_ctx) }.

#[export] Instance eta_qh : Eta qh := fun r => Qh (q_merlin r) (q_said r) (q_jobs r) (q_children r).

Abbreviation Q := (ST qh).

Definition lift_m {A} (c : M A) : Q A := fun s => let '(a, m) := c (q_merlin s) in (a, s <| q_merlin := m |>).
Definition nsock_printf (sd : Z) (l : list piece) : Q unit := modify (fun s => s <| q_said ::= cons (sd, l) |>).
Definition schedule_event (j : job) : Q unit := modify (fun s => s <| q_jobs ::= cons j |>).
Definition say (s : string) : list piece := [Txt (str s ++ [NL])].

Definition RUNCMD_CMD : Z := 20.
Definition RUNCMD_RESP : Z := 21.

Definition bytes_of_text (t : text) : list byte := map (fun c => default Byte.x00 (Byte.of_N (N_of_ascii c))) t.

(** shared/node.c:694-710 node_type *)
Definition node_type (n : merlin_node) : string :=
  match type n with
  | MODE_LOCAL => "local" | MODE_NOC => "master" | MODE_PEER => "peer" | MODE_POLLER => "poller"
  | MODE_INTERNAL => "internal"
  end.

Section Queries.
Context {QS : QSort} {SD : Sodium} {CS : CStructs} {KV : Kvvec}.

(** ** Packets with commands *)

(** Where the sender's string lies in its memory. *)
Definition content_at : Z := 4096.

(** The structure merlin_runcmd: a descriptor and a pointer, packed. *)
Definition runcmd_struct (ctx : runcmd_ctx) : list byte :=
  le_split 4 (rc_sd ctx) ++ le_split 8 (match rc_content ctx with Some _ => content_at | None => 0 end).

Definition runcmd_memory (ctx : runcmd_ctx) (a : Z) : list byte :=
  match rc_content ctx with Some c => if a =? content_at then bytes_of_text c else [] | None => [] end.

(** module/runcmd.c:16-24 send_runcmd_cmd -- the packet, whose memory is cleared before. *)
Definition runcmd_pkt (ctx : runcmd_ctx) (now us : Z) : merlin_event :=
  let '(n, b) := merlin_encode (runcmd_memory ctx) (Some (runcmd_struct ctx)) RUNCMD_PACKET (replicate BODY Byte.x00) BODY in
  Event (blank_hdr <| h_sig := MERLIN_SIGNATURE |> <| h_protocol := MERLIN_PROTOCOL_VERSION |>
    <| h_sent := TV now us |> <| h_type := RUNCMD_PACKET |> <| h_code := u16 (rc_type ctx) |>
    <| h_len := Z.of_nat n |>) (take n b).

(** module/runcmd.c:11-37 send_runcmd_cmd *)
Definition send_runcmd_cmd (ctx : runcmd_ctx) : Q unit :=
  now ← lift_m time_now;
  us ← lift_m (gets m_usec);
  let pkt := runcmd_pkt ctx now us in
  if h_len (hdr pkt) >? MAX_BODY then mret tt else
  lift_m (node_send (rc_node ctx) pkt (packet_size pkt)) ;;
  mret tt.

(** module/runcmd.c:39-52 runcmd_wproc_callback -- [wpres] is the output in the worker's response,
    if there is a response. *)
Definition runcmd_wproc_callback (wpres : option (option text)) (ctx : runcmd_ctx) : Q unit :=
  let content := match wpres with Some buf => buf | None => Some (str "Failed to get command") end in
  send_runcmd_cmd (ctx <| rc_type := RUNCMD_RESP |> <| rc_content := content |>).

(** The structure in a packet at the address [ds], once merlin_decode_event has made pointers of
    the offsets; [None] when that reports an error. *)
Definition pkt_runcmd (ds : Z) (pkt : merlin_event) : option (Z * option text) :=
  let '(r, buf) := merlin_decode ds (h_len (hdr pkt)) RUNCMD_PACKET (body pkt) in
  if negb (r =? 0) then None else
  let p := get_ptr 4 buf in
  Some (s32 (num 0 4 buf), if p =? 0 then None else Some (text_of_bytes (c_str (drop (Z.to_nat (p - ds)) buf)))).

(** module/queries.c:85-92 runcmd_callback *)
Definition runcmd_callback (sd : Z) (content : option text) : Q Z :=
  nsock_printf sd [Txt (match content with Some c => c | None => str "(null)" end)] ;; mret 0.

(** module/runcmd.c:79-79 handle_runcmd_event *)
Definition cmd_prefix : text := str "/usr/bin/mon qh query --single '@runcmd run ".

(** module/runcmd.c:96-105 handle_runcmd_event *)
Definition full_cmd (content : text) : text := cmd_prefix ++ content ++ str "'".

(** module/runcmd.c:54-127 handle_runcmd_event -- for the packet at [ds], with the decoding in
    module/module.c:830-835 before it.  [None]: the string pointer is NULL and is copied. *)
Definition handle_runcmd_event (ds : Z) (n : nat) (pkt : merlin_event) : Q (option Z) :=
  match pkt_runcmd ds pkt with
  | None => mret (Some 0)
  | Some (sd, content) =>
      node ← lift_m (get_node n);
      if h_code (hdr pkt) =? RUNCMD_CMD then
        if negb (encrypted node) then mret (Some 0) else
        if negb (type node =?s MODE_PEER) && negb (type node =?s MODE_MASTER) then mret (Some 0) else
        if negb (accept_runcmd node) then mret (Some 0) else
        match content with
        | None => mret None
        | Some c =>
            modify (fun s => s <| q_children ::= cons (full_cmd c, RuncmdCtx sd (Some c) n 0) |>) ;;
            mret (Some 0)
        end
      else if h_code (hdr pkt) =? RUNCMD_RESP then r ← runcmd_callback sd content; mret (Some r)
      else mret (Some 0)
  end.

(** ** Requests *)

(** The node of that name in the table. *)
Definition find_by_name (node_name : text) (s : merlin) : option nat :=
  snd <$> list_find (fun n => str (name (m_nodes s !!! n)) = node_name) (take (Z.to_nat (num_nodes s)) (m_table s)).

(** strchr (buf, ';') + 1 *)
Fixpoint after_semicolon (t : text) : option text :=
  match t with [] => None | c :: t => if Ascii.eqb c ";" then Some t else after_semicolon t end.

(** module/queries.c:95-174 remote_runcmd -- [None]: the node's name is missing and is compared. *)
Definition remote_runcmd (sd : Z) (buf : text) : Q (option Z) :=
  if negb (starts buf "node=") then
    nsock_printf sd (say "outstd=runcmd must start with the node") ;; mret (Some 1) else
  match kvvec_fetch buf "node" with
  | None => mret None
  | Some node_name =>
      found ← lift_m (gets (find_by_name node_name));
      match found with
      | None =>
          nsock_printf sd [Txt (str "outstd=Could not find node: "); Txt node_name; Txt (str " does it exist?" ++ [NL])] ;;
          mret (Some 1)
      | Some n =>
          node ← lift_m (get_node n);
          if negb (encrypted node) then
            nsock_printf sd (say "outstd=Encryption must be enbled to use SSH-less test this check on nodes with connect set to no") ;;
            mret (Some 1)
          else if negb (state_of node =?s STATE_CONNECTED) then
            nsock_printf sd [Txt (str "outstd=Node "); Txt (str (name node)); Txt (str " in not connected" ++ [NL])] ;; mret (Some 1)
          else if type node =?s MODE_MASTER then
            nsock_printf sd (say "outstd=Sending commands from pollers is forbidden") ;; mret (Some 1)
          else
            match after_semicolon buf with
            | None => nsock_printf sd (say "outstd=Error while parsing command") ;; mret (Some 1)
            | Some content =>
                schedule_event (SendRuncmd (RuncmdCtx sd (Some content) n RUNCMD_CMD)) ;; mret (Some 0)
            end
      end
  end.

(** module/queries.c:177-180 send_ctrl_fetch *)
Definition send_ctrl_fetch (n : nat) : Q unit := lift_m (node_ctrl n CTRL_FETCH CTRL_GENERIC []) ;; mret tt.

(** strstr *)
Fixpoint contains (sub t : text) : bool :=
  has_prefix sub t || match t with [] => false | _ :: t => contains sub t end.

(** module/queries.c:224-230 remote_fetch *)
Definition fetch_all (ty : mode) : Q unit :=
  ns ← lift_m (gets (fun s => take (Z.to_nat (num_nodes s)) (m_table s)));
  for_each ns (fun n =>
    node ← lift_m (get_node n);
    if (state_of node =?s STATE_CONNECTED) && (type node =?s ty) then schedule_event (SendCtrlFetch n) else mret tt).

(** module/queries.c:186-255 remote_fetch *)
Definition remote_fetch (sd : Z) (buf : text) : Q Z :=
  (if negb (starts buf "node=") && negb (starts buf "type=") then
     nsock_printf sd (say "command must start with node= or type=") else mret tt) ;;
  let node_name := if contains (str "node=;") buf then None else kvvec_fetch buf "node" in
  let type_str := if contains (str "type=;") buf then None else kvvec_fetch buf "type" in
  match type_str, node_name with
  | Some t, _ =>
      if equals t "poller" then fetch_all MODE_POLLER ;; mret 0
      else if equals t "master" then nsock_printf sd (say "Masters shouldn't fetch from pollers.") ;; mret 1
      else if equals t "peer" then fetch_all MODE_PEER ;; mret 0
      else nsock_printf sd [Txt (str "Unknown node type: "); Txt t; Txt [NL]] ;; mret 1
  | None, Some node_name =>
      found ← lift_m (gets (find_by_name node_name));
      match found with
      | None => nsock_printf sd [Txt (str "Could not find node: "); Txt node_name; Txt (str " does it exist?" ++ [NL])] ;; mret 1
      | Some n =>
          node ← lift_m (get_node n);
          if negb (state_of node =?s STATE_CONNECTED) then
            nsock_printf sd [Txt (str "Node "); Txt (str (name node)); Txt (str " is not connected" ++ [NL])] ;; mret 0
          else schedule_event (SendCtrlFetch n) ;; mret 0
      end
  | None, None => mret 0
  end.

(** ** Statistics *)

(** module/queries.c:12-28 dump_cbstats -- cb_count[i].in is never counted, so that every row is empty. *)
Definition dump_cbstats (n : merlin_node) (sd : Z) : Q unit :=
  nsock_printf sd [Txt (str "name="); Txt (str (name n)); Txt (str ";type="); Txt (str (node_type n)); Txt (str ";"); Txt [NL]].

(** module/queries.c:41-44 dump_notify_stats -- the values in the order in which they are passed. *)
Definition notify_line (a : Z) (b : check_type) (c : Z) (mns : merlin_notify_stats) : list piece :=
  [Txt (str "type="); Txt (str (if bool_decide (b = SERVICE_CHECK) then "SERVICE" else "HOST"));
   Txt (str ";reason="); Txt (notification_reason_name a);
   Txt (str ";checktype="); Txt (str (if c =? 0 then "ACTIVE" else "PASSIVE"));
   Txt (str ";peer="); Num (ns_peer mns); Txt (str ";poller="); Num (ns_poller mns);
   Txt (str ";master="); Num (ns_net mns); Txt (str ";net="); Num (ns_master mns);
   Txt (str ";sent="); Num (ns_sent mns); Txt [NL]].

(** module/queries.c:30-49 dump_notify_stats *)
Definition dump_notify_stats (sd : Z) : Q unit :=
  for_each (map Z.of_nat (seq 0 9)) (fun a => for_each [HOST_CHECK; SERVICE_CHECK] (fun b =>
    for_each [0; 1] (fun c =>
      st ← lift_m (gets (fun s => hk_stats (m_hooks s)));
      nsock_printf sd (notify_line a b c (default (NotifyStats 0 0 0 0 0) (st !! (a, b, c))))))).

(** module/queries.c:51-63 help *)
Definition help (sd : Z) : Q unit :=
  nsock_printf sd (concat (map say
    ["I answer questions regarding the merlin *module*, not the daemon";
     "nodeinfo      Print info about all nodes I know about";
     "cbstats       Print callback statistics for each node";
     "notify-stats  Print notification statistics";
     "expired       Print information regarding expired events";
     "runcmd        Runs a runcmd (test this check) on a remote node";
     "remote-fetch  Tells a remote node to execute mon oconf fetch"]%string)).

(** module/queries.c:65-82 dump_expired *)
Definition dump_expired (sd : Z) : Q unit :=
  ck ← lift_m (gets m_checks);
  for_each (ck_events ck) (fun o =>
    match ck_expired ck !! o with
    | None => mret tt
    | Some mec =>
        node ← lift_m (get_node (ex_node mec));
        nsock_printf sd [Txt (object_names o); Txt (str "added="); Num (ex_added mec);
          Txt (str ";responsible="); Txt (str (name node)); Txt [NL]]
    end).

(** ** Tests *)

(** g_ascii_xdigit_value *)
Definition xdigit_value (c : ascii) : Z := let v := digit_value c in if v <? 16 then v else -1.

(** module/testif_qh.c:50-53 merlin_testif_qh *)
Fixpoint hex_bytes (k : nat) (t : text) : list byte :=
  match k, t with
  | S k, a :: b :: t => byte.of_Z (u8 (Z.lor (Z.shiftl (xdigit_value a) 4) (xdigit_value b))) :: hex_bytes k t
  | _, _ => []
  end.

(** module/testif_qh.c:15-26 merlin_testif_udpate_hash *)
Definition merlin_testif_udpate_hash (n : nat) (if_name ty : text) (newhash : list byte) (last_cfg_change : Z) : M unit :=
  node ← get_node n;
  if negb (bool_decide (if_name = str (name node))) then mret tt else
  let set i := i <| i_config_hash := newhash |> <| i_last_cfg_change := last_cfg_change |> in
  if equals ty "expected" then on_node n (fun node => node <| expected ::= set |>)
  else if equals ty "info" then on_node n (fun node => node <| info ::= set |>)
  else mret tt.

(** g_strsplit_set (buf, " ", 0) *)
Fixpoint split_blanks (s : text) : list text :=
  match s with
  | [] => [[]]
  | c :: s =>
      if Ascii.eqb c " " then [] :: split_blanks s
      else match split_blanks s with p :: ps => (c :: p) :: ps | [] => [[c]] end
  end.

(** module/testif_qh.c:28-65 merlin_testif_qh -- without the line that prints the hash. *)
Definition merlin_testif_qh (buf : text) : Q Z :=
  match split_blanks buf with
  | [set; ty; hash; if_name; hex; change] =>
      if equals set "set" && equals hash "hash" then
        let bytes := hex_bytes 20 hex in
        let newhash := bytes ++ replicate (20 - length bytes) Byte.x00 in
        let last_cfg_change := s64 (strtoull 10 change).1 in
        lift_m (merlin_testif_udpate_hash IPC if_name ty newhash last_cfg_change) ;;
        ns ← lift_m (gets (fun s => take (Z.to_nat (num_nodes s)) (m_table s)));
        for_each ns (fun n => lift_m (merlin_testif_udpate_hash n if_name ty newhash last_cfg_change)) ;;
        mret 200
      else mret 400
  | _ => mret 400
  end.

(** ** The query handler *)

(** module/queries.c:258-312 merlin_qh -- [nodeinfo] prints the fields of a node with its number, as [Nodeinfo] has it.  [None] where
    remote_runcmd crashes. *)
Definition merlin_qh (nodeinfo : nat -> Z -> Z -> Q unit) (sd : Z) (buf : text) : Q (option Z) :=
  all ← lift_m (gets (fun s => IPC :: take (Z.to_nat (num_nodes s)) (m_table s)));
  if bool_decide (buf = []) then help sd ;; mret (Some 0) else
  if equals buf "nodeinfo" then for_each (imap pair all) (fun p => nodeinfo p.2 sd (Z.of_nat p.1)) ;; mret (Some 0) else
  if starts buf "help" then help sd ;; mret (Some 0) else
  if equals buf "cbstats" then
    for_each all (fun n => node ← lift_m (get_node n); dump_cbstats node sd) ;; mret (Some 0) else
  if equals buf "expired" then dump_expired sd ;; mret (Some 0) else
  if equals buf "notify-stats" then dump_notify_stats sd ;; mret (Some 0) else
  if starts buf "runcmd " then r ← remote_runcmd sd (drop 7 buf); mret (match r with Some _ => Some 0 | None => None end) else
  if starts buf "remote-fetch " then remote_fetch sd (drop 13 buf) ;; mret (Some 0) else
  if starts buf "testif " then r ← merlin_testif_qh (drop 7 buf); mret (Some r) else
  mret (Some 400).

End Queries.

(** ** Packets *)

Lemma text_bytes t : text_of_bytes (bytes_of_text t) = t.
Proof.
  unfold text_of_bytes, bytes_of_text. rewrite map_map. rewrite <- (map_id t) at 2. apply map_ext.
  by intros [[] [] [] [] [] [] [] []].
Qed.

(** A text that a C string can hold. *)
Definition c_text (t : text) : Prop := Forall (fun c => c <> NUL) t.

Lemma c_text_bytes t : c_text t -> Forall (fun b => b <> Byte.x00) (bytes_of_text t).
Proof.
  intros Ht. apply Forall_fmap. eapply Forall_impl; [exact Ht|]. cbn.
  by intros [[] [] [] [] [] [] [] []].
Qed.

Section Trip.
Context {CS : CStructs}.

(** The text fits in a packet behind the structure. *)
Definition fits (c : text) : Prop := (12 + (length c + 1) <= BODY)%nat.

Lemma runcmd_trip ctx c now us ds :
  rc_content ctx = Some c -> c_text c -> fits c -> - 2 ^ 31 <= rc_sd ctx < 2 ^ 31 -> user_address ds ->
  pkt_runcmd ds (runcmd_pkt ctx now us) = Some (rc_sd ctx, Some c).
Proof.
  intros Hc Hn Hf Hsd Hds. unfold pkt_runcmd, runcmd_pkt.
  assert (layout_of RUNCMD_PACKET = Some runcmd_info) as Hl by done.
  assert (c_memory (runcmd_memory ctx)) as Hm.
  { intros a. unfold runcmd_memory. rewrite Hc. destruct (a =? content_at); [by apply c_text_bytes|constructor]. }
  assert (length (runcmd_struct ctx) = 12%nat) as Hlen by (unfold runcmd_struct; by rewrite length_app, !length_le_split).
  pose proof (codec_trip (runcmd_memory ctx) (runcmd_struct ctx) RUNCMD_PACKET runcmd_info (replicate BODY Byte.x00) ds
    Hl ltac:(cbn; lia) Hlen ltac:(apply length_replicate) Hm Hds) as Ht.
  assert (strings_of (runcmd_memory ctx) (hi_ptrs runcmd_info) (runcmd_struct ctx) = [Some (bytes_of_text c)]) as Hs.
  { cbn [hi_ptrs runcmd_info strings_of map]. unfold runcmd_struct, runcmd_memory. rewrite Hc. reflexivity. }
  rewrite Hs, kept_all in Ht.
  - destruct (merlin_encode _ _ _ _ _) as [k b].
    match goal with |- context [merlin_decode ds ?x RUNCMD_PACKET ?y] =>
      change x with (Z.of_nat k); change y with (take k b) end.
    destruct (merlin_decode ds (Z.of_nat k) RUNCMD_PACKET (take k b)) as [r b'].
    destruct Ht as (_ & _ & -> & Hfield & Hk). cbn [Z.eqb negb].
    apply Forall2_cons_1 in Hk as [(o & Hp & Ho & Hstr) _]. rewrite Hp.
    destruct Hds as [Hd0 Hd1]. rewrite (proj2 (Z.eqb_neq _ 0)) by lia.
    replace (Z.to_nat (ds + Z.of_nat o - ds)) with o by lia. rewrite Hstr, text_bytes.
    f_equal. f_equal. unfold num. rewrite (Hfield 0%nat 4%nat); [|cbn; lia|].
    + unfold runcmd_struct, field. rewrite drop_0, take_app_length'; [|by rewrite length_le_split].
      rewrite le_combine_split. unfold s32. change (2 ^ (Z.of_nat 4 * 8)) with (2 ^ 32). rewrite Zplus_mod_idemp_l.
      rewrite Z.mod_small; lia.
    + intros p ->%list_elem_of_singleton. cbn. lia.
  - cbn. unfold bytes_of_text. rewrite length_map. unfold fits in Hf. lia.
Qed.

End Trip.

(** ** Commands of other nodes *)

(** What a shell sees outside single quotes. *)
Fixpoint unquoted (inside : bool) (t : text) : text :=
  match t with
  | [] => []
  | c :: t => if Ascii.eqb c "'" then unquoted (negb inside) t
              else if inside then unquoted inside t else c :: unquoted inside t
  end.

Lemma unquoted_inside t k : "'"%char ∉ t -> unquoted true (t ++ k) = unquoted true k.
Proof.
  induction t as [|c t IH]; cbn; [done|]. intros [Hc Ht]%not_elem_of_cons.
  destruct (Ascii.eqb_spec c "'"); [by subst|auto].
Qed.

Section Remote.
Context {QS : QSort} {SD : Sodium} {CS : CStructs} {KV : Kvvec}.

(** The node may have commands run here. *)
Definition may_run (n : merlin_node) : Prop :=
  encrypted n = true /\ (type n = MODE_PEER \/ type n = MODE_MASTER) /\ accept_runcmd n = true.

Lemma may_run_iff n :
  may_run n <-> negb (encrypted n) = false /\ negb (type n =?s MODE_PEER) && negb (type n =?s MODE_MASTER) = false /\
    negb (accept_runcmd n) = false.
Proof.
  unfold may_run. rewrite andb_false_iff, !negb_false_iff, !bool_decide_eq_true. tauto.
Qed.

Lemma handle_runcmd_run ds n pkt s sd c :
  pkt_runcmd ds pkt = Some (sd, Some c) -> h_code (hdr pkt) = RUNCMD_CMD -> may_run (m_nodes (q_merlin s) !!! n) ->
  handle_runcmd_event ds n pkt s = (Some 0, s <| q_children ::= cons (full_cmd c, RuncmdCtx sd (Some c) n 0) |>).
Proof.
  intros Hp Hc (H1 & H2 & H3)%may_run_iff. unfold handle_runcmd_event, mbind, ST_bind, lift_m, get_node, gets.
  rewrite Hp. cbn. rewrite Hc, H1, H2, H3. cbn. by destruct s.
Qed.

Lemma handle_runcmd_answer ds n pkt s sd c :
  pkt_runcmd ds pkt = Some (sd, Some c) -> h_code (hdr pkt) = RUNCMD_RESP ->
  handle_runcmd_event ds n pkt s = (Some 0, s <| q_said ::= cons (sd, [Txt c]) |>).
Proof.
  intros Hp Hc. unfold handle_runcmd_event, mbind, ST_bind, lift_m, get_node, gets.
  rewrite Hp. cbn. rewrite Hc. cbn. by destruct s.
Qed.

(** C29.  Commands of other nodes are run under conditions.  Whatever packet comes from a node, a
    command is started only when the connection to the node is encrypted, the node is a peer or
    a master and the configuration allows it; then it is one command, the query that runs the
    text of the packet, and a text without quotes does not get out of the quotes it is put in.
    The state of the module does not change. *)
Theorem runcmd_guarded (ds : Z) (n : nat) (pkt : merlin_event) (s : qh) :
  let s' := (handle_runcmd_event ds n pkt s).2 in
  q_merlin s' = q_merlin s /\ q_jobs s' = q_jobs s /\
  (q_children s' <> q_children s -> may_run (m_nodes (q_merlin s) !!! n) /\ h_code (hdr pkt) = RUNCMD_CMD /\
    exists sd c, pkt_runcmd ds pkt = Some (sd, Some c) /\
      q_children s' = (full_cmd c, RuncmdCtx sd (Some c) n 0) :: q_children s /\
      ("'"%char ∉ c -> unquoted false (full_cmd c) = str "/usr/bin/mon qh query --single ")).
Proof.
  cbn zeta. unfold handle_runcmd_event. destruct (pkt_runcmd ds pkt) as [[sd content]|]; [|done].
  unfold mbind, ST_bind, lift_m, get_node, gets. cbn. set (node := m_nodes (q_merlin s) !!! n).
  destruct (h_code (hdr pkt) =? RUNCMD_CMD) eqn:Ec; [|by destruct (h_code (hdr pkt) =? RUNCMD_RESP); cbn].
  destruct (negb (encrypted node)) eqn:E1; [by cbn|].
  destruct (negb (type node =?s MODE_PEER) && negb (type node =?s MODE_MASTER)) eqn:E2; [by cbn|].
  destruct (negb (accept_runcmd node)) eqn:E3; [by cbn|]. destruct content as [c|]; [|by cbn]. cbn.
  split_and!; [done..|]. intros _. split; [by apply may_run_iff|]. split; [by apply Z.eqb_eq|].
  exists sd, c. split_and!; try done. intros Hq. unfold full_cmd, cmd_prefix. cbn. by rewrite unquoted_inside.
Qed.

(** C9.  The answer to a command comes back to who asked.  A command sent to a node that may be
    asked is run there as it was given, and when its output is sent back it is printed on
    the socket of the request: neither the descriptor nor the texts are changed on the way, as
    long as they fit in a packet. *)
Theorem runcmd_answered (a b : qh) (here there : nat) (sd : Z) (cmd out : text) (ds1 ds2 now1 us1 now2 us2 : Z)
    (Hsd : - 2 ^ 31 <= sd < 2 ^ 31) (Hcmd : c_text cmd) (Hout : c_text out) (Fcmd : fits cmd) (Fout : fits out)
    (H1 : user_address ds1) (H2 : user_address ds2) (Hrun : may_run (m_nodes (q_merlin b) !!! here)) :
  let question := runcmd_pkt (RuncmdCtx sd (Some cmd) there RUNCMD_CMD) now1 us1 in
  exists ctx b', handle_runcmd_event ds1 here question b = (Some 0, b') /\
    q_children b' = (full_cmd cmd, ctx) :: q_children b /\ rc_node ctx = here /\
    let answer := runcmd_pkt (ctx <| rc_type := RUNCMD_RESP |> <| rc_content := Some out |>) now2 us2 in
    handle_runcmd_event ds2 there answer a = (Some 0, a <| q_said ::= cons (sd, [Txt out]) |>).
Proof.
  set (q := RuncmdCtx sd (Some cmd) there RUNCMD_CMD).
  pose proof (runcmd_trip q cmd now1 us1 ds1 eq_refl Hcmd Fcmd Hsd H1) as Hq.
  exists (RuncmdCtx sd (Some cmd) here 0). eexists. split; [apply (handle_runcmd_run _ _ _ _ _ _ Hq); [|done]|].
  - unfold runcmd_pkt. by destruct (merlin_encode _ _ _ _ _).
  - split; [done|]. split; [done|]. cbn zeta. pose (r := RuncmdCtx sd (Some out) here RUNCMD_RESP).
    apply handle_runcmd_answer; [by apply (runcmd_trip r out)|]. unfold runcmd_pkt. by destruct (merlin_encode _ _ _ _ _).
Qed.

(** ** Requests *)

(** A command is only passed on to a node of that name that is connected, encrypted and not a
    master, and then without the part that names the node. *)
Theorem remote_runcmd_target sd buf s :
  let s' := (remote_runcmd sd buf s).2 in
  q_merlin s' = q_merlin s /\
  (q_jobs s' <> q_jobs s -> exists n content,
    n ∈ m_table (q_merlin s) /\ kvvec_fetch buf "node" = Some (str (name (m_nodes (q_merlin s) !!! n))) /\
    encrypted (m_nodes (q_merlin s) !!! n) = true /\ state_of (m_nodes (q_merlin s) !!! n) = STATE_CONNECTED /\
    type (m_nodes (q_merlin s) !!! n) <> MODE_MASTER /\ after_semicolon buf = Some content /\
    q_jobs s' = SendRuncmd (RuncmdCtx sd (Some content) n RUNCMD_CMD) :: q_jobs s).
Proof.
  cbn zeta. unfold remote_runcmd. destruct (negb (starts buf "node=")); [by cbn|].
  destruct (kvvec_fetch buf "node") as [nm|] eqn:Ek; [|done].
  unfold mbind, ST_bind, lift_m, get_node, gets. cbn.
  unfold find_by_name. destruct (list_find _ _) as [[i n]|] eqn:Ef; cbn; [|done].
  apply list_find_Some in Ef as (Hi & Hn & _). set (node := m_nodes (q_merlin s) !!! n) in *.
  destruct (encrypted node) eqn:E1; cbn; [|done].
  case_bool_decide as E2; cbn; [|done]. case_bool_decide as E3; cbn; [done|].
  destruct (after_semicolon buf) as [content|] eqn:E4; cbn; [|done].
  split; [done|]. intros _. exists n, content. split_and!; try done; [|by subst].
  apply list_elem_of_lookup_2 in Hi. by eapply subseteq_take.
Qed.

(** CTRL_FETCH by type goes to all the connected nodes of the type, each once, and to no other. *)
Theorem fetch_all_targets ty s :
  q_jobs (fetch_all ty s).2 = reverse (map SendCtrlFetch (filter (fun n =>
    state_of (m_nodes (q_merlin s) !!! n) = STATE_CONNECTED /\ type (m_nodes (q_merlin s) !!! n) = ty)
    (take (Z.to_nat (num_nodes (q_merlin s))) (m_table (q_merlin s))))) ++ q_jobs s /\
  q_merlin (fetch_all ty s).2 = q_merlin s.
Proof.
  set (f := fun n => node ← lift_m (get_node n); if (state_of node =?s STATE_CONNECTED) && (type node =?s ty)
    then schedule_event (SendCtrlFetch n) else mret tt).
  assert (fetch_all ty s = for_each (take (Z.to_nat (num_nodes (q_merlin s))) (m_table (q_merlin s))) f s) as ->
    by (by destruct s).
  generalize (take (Z.to_nat (num_nodes (q_merlin s))) (m_table (q_merlin s))). intros l.
  assert (forall n t, f n t = (tt, if decide (state_of (m_nodes (q_merlin t) !!! n) = STATE_CONNECTED /\
    type (m_nodes (q_merlin t) !!! n) = ty) then t <| q_jobs ::= cons (SendCtrlFetch n) |> else t)) as Hf.
  { intros n [m said jobs ch]. unfold f, mbind, ST_bind, lift_m, get_node, gets. cbn.
    destruct (decide _) as [[-> ->]|E]; [by rewrite !bool_decide_eq_true_2|].
    destruct (_ && _) eqn:Eb; [|done]. apply andb_true_iff in Eb. rewrite !bool_decide_eq_true in Eb. done. }
  clearbody f. revert s. induction l as [|n l IH]; intros s; [done|]. cbn [for_each]. unfold mbind, ST_bind. rewrite Hf.
  case_decide as E; destruct (IH (if decide (state_of (m_nodes (q_merlin s) !!! n) = STATE_CONNECTED /\
    type (m_nodes (q_merlin s) !!! n) = ty) then s <| q_jobs ::= cons (SendCtrlFetch n) |> else s)) as [IH1 IH2].
  - rewrite decide_True in IH1, IH2 by done. split; [|exact IH2]. etrans; [exact IH1|].
    rewrite filter_cons_True by done. cbn [map]. by rewrite reverse_cons, <- app_assoc.
  - rewrite decide_False in IH1, IH2 by done. split; [|exact IH2]. by rewrite filter_cons_False.
Qed.

End Remote.

(** ** Two nodes *)

Definition demo_kvvec : Kvvec := {| kvvec_fetch _ _ := None; notification_reason_name _ := []; object_names _ := [] |}.

(** A node with one master, over an encrypted connection, from which commands are accepted. *)
Definition asked_node : merlin_node :=
  zero_node <| name := "master" |> <| type := MODE_MASTER |> <| state_of := STATE_CONNECTED |> <| encrypted := true |>
    <| accept_runcmd := true |>.

Definition asked (m : merlin) : qh := Qh (m <| m_nodes := {[1%nat := asked_node]} |>) [] [] [].

Lemma fits_short c : Z.of_nat (length c) < 1000 -> fits c.
Proof.
  intros Hc. unfold fits. apply Nat2Z.inj_le. rewrite BODY_Z. assert (1013 <= MAX_BODY) by (vm_compute; discriminate). lia.
Qed.

Lemma runcmd_answered_witness :
  let asks := Qh demo_negotiating [] [] [] in
  exists ctx b', q_children b' = (full_cmd (str "check_ping"), ctx) :: [] /\
    handle_runcmd_event (CS := demo_structs) 65536 2%nat
      (runcmd_pkt (CS := demo_structs) (ctx <| rc_type := RUNCMD_RESP |> <| rc_content := Some (str "OK") |>) 7 0) asks
    = (Some 0, asks <| q_said ::= cons (12, [Txt (str "OK")]) |>).
Proof.
  destruct (runcmd_answered (CS := demo_structs) (Qh demo_negotiating [] [] []) (asked demo_negotiating) 1 2 12
    (str "check_ping") (str "OK") 8192 65536 5 0 7 0) as (ctx & b' & _ & Hc & _ & Ha).
  - lia.
  - repeat constructor; done.
  - repeat constructor; done.
  - apply fits_short. cbn. lia.
  - apply fits_short. cbn. lia.
  - split; reflexivity.
  - split; reflexivity.
  - split; [reflexivity|]. split; [right; reflexivity|reflexivity].
  - exists ctx, b'. split; [exact Hc|exact Ha].
Defined.

(** ** What the checks leave open *)

(** A quote in the text ends the quoting, and the shell runs what follows. *)
Theorem quoted_command_escapes :
  unquoted false (full_cmd (str "x'; reboot; 'y")) = str "/usr/bin/mon qh query --single ; reboot; ".
Proof. reflexivity. Qed.

(** An answer is accepted from any node, asked or not, and written to the descriptor it names. *)
Theorem unasked_answer_written :
  let evil := RuncmdCtx 3 (Some (str "data")) 1 RUNCMD_RESP in
  let s := Qh (demo_negotiating <| m_nodes := {[1%nat := zero_node <| type := MODE_POLLER |>]} |>) [] [] [] in
  (handle_runcmd_event (CS := demo_structs) 8192 1 (runcmd_pkt (CS := demo_structs) evil 0 0) s).2
  = s <| q_said := [(3, [Txt (str "data")])] |>.
Proof. vm_compute. reflexivity. Qed.

(** A command packet without a text crashes the receiver. *)
Theorem missing_command_crashes :
  (handle_runcmd_event (CS := demo_structs) 8192 1
    (runcmd_pkt (CS := demo_structs) (RuncmdCtx 3 None 1 RUNCMD_CMD) 0 0) (asked demo_negotiating)).1 = None.
Proof. vm_compute. reflexivity. Qed.

(** The counters of notifications held back for the master and for the network change places. *)
Theorem notify_stats_swapped (a : Z) (b : check_type) (c : Z) mns :
  drop 10 (notify_line (KV := demo_kvvec) a b c mns)
  = [Txt (str ";master="); Num (ns_net mns); Txt (str ";net="); Num (ns_master mns);
     Txt (str ";sent="); Num (ns_sent mns); Txt [NL]].
Proof. reflexivity. Qed.
