(* ===== verification/Slist.v ===== *)
(** * Sorted lists

    tools/slist.c: arrays of pointers that the tools sort with qsort(3) and search by bisection.
    The items are of a type [A] with the comparison function the list was made with.  The memory
    of a list is an array of slots; [None] as a result stands for a write or read outside of
    it. *)

From S2P Require Import Prelude.

Section Slist.
Context {QS : QSort} {A : Type} (compare : A -> A -> Z).

(** tools/slist.c:7-12 sorted_list -- [sl_list] is the array of slots, NULL when there is none. *)
Record slist := SList {
  sl_list : option (list (option A)); sl_alloc : Z; sl_pos : Z; sl_is_sorted : bool }.

(** The items of a list. *)
Definition slots (sl : slist) : list (option A) := default [] (sl_list sl).
Definition items (sl : slist) : list A := omap id (take (Z.to_nat (sl_pos sl)) (slots sl)).

(** Putting sorted items back into the first slots. *)
Definition put_items (l : list A) (array : list (option A)) : list (option A) :=
  map Some l ++ drop (length l) array.

(** tools/slist.c:14-23 slist_sort *)
Definition slist_sort (sl : slist) : slist :=
  if bool_decide (sl_list sl = None) || (sl_pos sl =? 0) || sl_is_sorted sl then sl else
  SList (Some (put_items (qsort compare (items sl)) (slots sl))) (sl_alloc sl) (sl_pos sl) true.

(** tools/slist.c:42-56 slist_find_pos -- the range at least halves in every turn, so its length is
    enough fuel. *)
Fixpoint bisect (fuel : nat) (array : list (option A)) (key : A) (low high : Z) : option Z :=
  match fuel with
  | O => Some (-1)
  | S fuel =>
      if high - low >? 0 then
        let mid := low + (high - low) / 2 in
        match array !! Z.to_nat mid with
        | Some (Some x) =>
            let value := compare key x in
            if value >? 0 then bisect fuel array key (mid + 1) high
            else if value <? 0 then bisect fuel array key low mid
            else Some (s32 mid)
        | _ => None
        end
      else Some (-1)
  end.

(** tools/slist.c:29-58 slist_find_pos -- also returns the list, which may have been sorted. *)
Definition slist_find_pos (sl : slist) (key : A) : option (Z * slist) :=
  if (sl_pos sl =? 0) || bool_decide (sl_list sl = None) then Some (-1, sl) else
  let sl := if sl_is_sorted sl then sl else slist_sort sl in
  r ← bisect (S (Z.to_nat (sl_pos sl))) (slots sl) key 0 (sl_pos sl);
  Some (r, sl).

(** tools/slist.c:60-67 slist_find *)
Definition slist_find (sl : slist) (key : A) : option (option A * slist) :=
  '(slot, sl) ← slist_find_pos sl key;
  if slot <? 0 then Some (None, sl) else
  x ← slots sl !! Z.to_nat slot;
  Some (x, sl).

(** tools/slist.c:69-82 slist_grow -- realloc(3) keeps the slots there were. *)
Definition slist_grow (sl : slist) (hint : Z) : slist :=
  if hint =? 0 then sl else
  SList (Some (slots sl ++ replicate (Z.to_nat hint) None)) (u32 (sl_alloc sl + hint)) (sl_pos sl) (sl_is_sorted sl).

(** tools/slist.c:84-103 slist_push -- [None]: the slot is not in the array. *)
Definition slist_push (sl : slist) (item : A) : option slist :=
  let sl := if sl_pos sl >=? u32 (sl_alloc sl - 1) then slist_grow sl 5 else sl in
  let pos := Z.to_nat (sl_pos sl) in
  if (pos <? length (slots sl))%nat then
    let array := <[pos := Some item]> (slots sl) in
    let out_of_order :=
      sl_is_sorted sl && negb (sl_pos sl =? 0) &&
      match array !! (pos - 1)%nat with Some (Some last) => compare last item >? 0 | _ => false end in
    Some (SList (Some array) (sl_alloc sl) (u32 (sl_pos sl + 1)) (if out_of_order then false else sl_is_sorted sl))
  else None.

(** tools/slist.c:105-115 slist_pop *)
Definition slist_pop (sl : slist) : option A * slist :=
  if sl_pos sl =? 0 then (None, sl) else
  let pos := Z.to_nat (sl_pos sl - 1) in
  (mjoin (slots sl !! pos),
   SList (Some (<[pos := None]> (slots sl))) (sl_alloc sl) (sl_pos sl - 1) (sl_is_sorted sl)).

(** tools/slist.c:117-130 slist_init *)
Definition slist_init (hint : Z) : slist :=
  let sl := SList None 0 0 false in if hint =? 0 then sl else slist_grow sl hint.

(** tools/slist.c:132-144 slist_set_list -- [list] is not NULL. *)
Definition slist_set_list (sl : slist) (list : list A) (sorted : bool) : Z * slist :=
  if bool_decide (list = []) then (-1, sl) else
  let sl := SList (Some (map Some list)) 0 (Z.of_nat (length list)) (sl_is_sorted sl) in
  (0, if sorted then sl else slist_sort sl).

(** tools/slist.c:146-156 slist_release *)
Definition slist_release (sl : slist) : slist := SList None 0 0 true.

(** tools/slist.c:158-167 slist_free_items -- the items that are freed, and the list. *)
Definition slist_free_items (sl : slist) : list A * slist :=
  match sl_list sl with
  | None => ([], sl)
  | Some _ => (items sl, SList (sl_list sl) (sl_alloc sl) 0 (sl_is_sorted sl))
  end.

(** tools/slist.c:183-189 slist_entries *)
Definition slist_entries (sl : slist) : Z := sl_pos sl.

(** tools/slist.c:200-209 slist_walk *)
Definition slist_walk {S} (sl : slist) (cb : A -> ST S unit) : ST S unit := for_each (items sl) cb.

(** ** Well-formed lists *)

Definition ordered (l : list A) : Prop := StronglySorted (fun x y => compare x y <= 0) l.

(** The first [sl_pos] slots hold items, in order when the list says so, and there is room as far
    as the list says. *)
Record slist_ok (sl : slist) : Prop := SlistOk {
  so_pos : 0 <= sl_pos sl < 2 ^ 31;
  so_alloc : 0 <= sl_alloc sl < 2 ^ 31;
  so_items : exists l, map Some l = take (Z.to_nat (sl_pos sl)) (slots sl) /\ length l = Z.to_nat (sl_pos sl) /\
    (sl_is_sorted sl = true -> ordered l);
  so_room : sl_alloc sl <= Z.of_nat (length (slots sl)) }.

Lemma omap_id_some (l : list A) : omap id (map Some l) = l.
Proof. induction l; cbn; by f_equal. Qed.

Lemma ok_items sl : slist_ok sl ->
  map Some (items sl) = take (Z.to_nat (sl_pos sl)) (slots sl) /\ length (items sl) = Z.to_nat (sl_pos sl) /\
  (sl_is_sorted sl = true -> ordered (items sl)).
Proof. intros [_ _ (l & Hl & Hn & Ho) _]. unfold items. rewrite <- Hl, omap_id_some. by rewrite Hl. Qed.

Lemma slot_item sl i : slist_ok sl -> (i < Z.to_nat (sl_pos sl))%nat -> slots sl !! i = Some (items sl !! i).
Proof.
  intros Hok Hi. destruct (ok_items sl Hok) as (Hm & Hn & _).
  rewrite <- (lookup_take_lt (slots sl) (Z.to_nat (sl_pos sl))), <- Hm by done.
  destruct (items sl !! i) as [x|] eqn:E.
  - change (map Some) with (fmap (M := list) (@Some A)). by rewrite list_lookup_fmap, E.
  - apply lookup_ge_None in E. lia.
Qed.

End Slist.

Lemma StronglySorted_lookup {A} (R : A -> A -> Prop) (l : list A) i j x y :
  StronglySorted R l -> l !! i = Some x -> l !! j = Some y -> (i < j)%nat -> R x y.
Proof.
  intros Hs. revert i j. induction Hs as [|a l Hl IH Ha]; intros i j Hi Hj Hij; [done|].
  destruct j as [|j]; [lia|]. destruct i as [|i]; cbn in *; [|eapply (IH i j); try done; lia].
  simplify_eq. rewrite Forall_forall in Ha. apply Ha. by eapply list_elem_of_lookup_2.
Qed.

Section SlistSearch.
Context {QS : QSort} {A : Type} (compare : A -> A -> Z).

(** What qsort(3) and the bisection ask of a comparison function. *)
Hypothesis Htot : cmp_total compare.
Hypothesis Hsgn : forall x y, Z.sgn (compare x y) = - Z.sgn (compare y x).

Lemma lookup_fmap_some (l : list A) i : map Some l !! i = Some <$> l !! i.
Proof. revert i. induction l as [|x l IH]; intros [|i]; cbn; done. Qed.

Lemma slots_some (a : list (option A)) b c d : slots (SList (Some a) b c d) = a.
Proof. done. Qed.

(** The search in an ordered array ends, whatever it looks for, and finds it if it is there. *)
Lemma bisect_spec array (l : list A) n key :
  map Some l = take n array -> length l = n -> Z.of_nat n < 2 ^ 31 -> ordered compare l ->
  forall fuel low high, 0 <= low <= high -> high <= Z.of_nat n -> high - low < Z.of_nat fuel ->
  (forall i x, l !! i = Some x -> Z.of_nat i < low -> compare key x > 0) ->
  (forall i x, l !! i = Some x -> high <= Z.of_nat i -> compare key x < 0) ->
  exists r, bisect compare fuel array key low high = Some r /\
    (r = -1 /\ (forall x, x ∈ l -> compare key x <> 0) \/
     0 <= r < Z.of_nat n /\ exists x, l !! Z.to_nat r = Some x /\ compare key x = 0).
Proof.
  intros Harr Hlen Hn Hord. destruct Htot as [_ Htr].
  assert (forall i j x y, (i <= j)%nat -> l !! i = Some x -> l !! j = Some y -> compare x y <= 0) as Hle.
  { intros i j x y Hij Hi Hj. destruct (decide (i = j)) as [->|].
    - simplify_eq. specialize (Hsgn x x). lia.
    - eapply (StronglySorted_lookup (fun x y => compare x y <= 0)); [exact Hord|exact Hi|exact Hj|lia]. }
  induction fuel as [|fuel IH]; intros low high Hlh Hhn Hf Hlow Hhigh; [lia|]. cbn [bisect].
  destruct (high - low >? 0) eqn:E.
  - set (mid := low + (high - low) / 2). assert (low <= mid < high) as Hmid.
    { unfold mid. pose proof (Z.div_lt (high - low) 2). pose proof (Z.div_pos (high - low) 2). lia. }
    destruct (lookup_lt_is_Some_2 l (Z.to_nat mid)) as [x Hx]; [lia|].
    assert (array !! Z.to_nat mid = Some (Some x)) as ->.
    { rewrite <- (lookup_take_lt array n), <- Harr, lookup_fmap_some, Hx by lia. done. }
    destruct (compare key x >? 0) eqn:E1; [|destruct (compare key x <? 0) eqn:E2].
    + apply IH; [lia..| |done]. intros i y Hy Hi. destruct (Z.le_gt_cases (compare key y) 0); [|lia].
      pose proof (Hle i (Z.to_nat mid) y x ltac:(lia) Hy Hx) as Hyx. pose proof (Htr key y x). lia.
    + apply IH; [lia..|done|]. intros i y Hy Hi. pose proof (Hle (Z.to_nat mid) i x y ltac:(lia) Hx Hy) as Hxy.
      pose proof (Htr key x y ltac:(lia) Hxy). destruct (decide (compare key y = 0)) as [E0|]; [|lia].
      pose proof (Hsgn key y) as S1. pose proof (Hsgn key x) as S2. pose proof (Htr x y key Hxy). lia.
    + exists (s32 mid). split; [done|]. right. rewrite s32_small by lia. split; [lia|].
      exists x. split; [done|lia].
  - exists (-1). split; [done|]. left. split; [done|]. intros x [i Hi]%list_elem_of_lookup.
    destruct (Z.lt_ge_cases (Z.of_nat i) low); [specialize (Hlow i x Hi)|specialize (Hhigh i x Hi)]; lia.
Qed.

(** ** The operations keep a list well-formed *)

Lemma sort_ok sl : slist_ok compare sl ->
  slist_ok compare (slist_sort compare sl) /\ Permutation (items (slist_sort compare sl)) (items sl) /\
  (sl_pos sl <> 0 -> sl_is_sorted (slist_sort compare sl) = true) /\ sl_pos (slist_sort compare sl) = sl_pos sl /\
  sl_alloc (slist_sort compare sl) = sl_alloc sl.
Proof.
  intros Hok. destruct (ok_items compare sl Hok) as (Hm & Hn & Ho). unfold slist_sort.
  destruct (bool_decide (sl_list sl = None)) eqn:E1; [|destruct (sl_pos sl =? 0) eqn:E2; [|destruct (sl_is_sorted sl) eqn:E3]]; cbn [orb].
  - split_and!; try done. intros Hp. apply bool_decide_eq_true in E1. unfold slots in Hm. rewrite E1 in Hm. cbn in Hm.
    rewrite take_nil in Hm. apply (f_equal length) in Hm. rewrite length_map in Hm. cbn in Hm. destruct Hok. lia.
  - split_and!; try done. intros. lia.
  - done.
  - set (q := qsort compare (items sl)). assert (Permutation q (items sl)) as Hq by apply qsort_perm.
    assert (length q = Z.to_nat (sl_pos sl)) as Hlq by (by rewrite Hq).
    assert (take (Z.to_nat (sl_pos sl)) (put_items q (slots sl)) = map Some q) as Ht.
    { unfold put_items. rewrite take_app_length'; [done|]. by rewrite length_map. }
    assert (length (put_items q (slots sl)) = length (slots sl)) as Hl.
    { unfold put_items. rewrite length_app, length_map, length_drop.
      assert (length q <= length (slots sl))%nat; [|lia]. rewrite Hlq.
      apply (f_equal length) in Hm. rewrite length_map, length_take in Hm. lia. }
    split_and!; try done.
    + destruct Hok as [H1 H2 _ H4]. constructor; cbn [sl_pos sl_alloc sl_is_sorted]; [done|done| |].
      * exists q. rewrite slots_some, Ht. split_and!; [done|done|]. intros _. by apply qsort_sorted.
      * by rewrite slots_some, Hl.
    + unfold items at 1. rewrite slots_some. cbn [sl_pos]. by rewrite Ht, omap_id_some.
Qed.

Lemma push_ok sl item :
  slist_ok compare sl -> sl_pos sl < sl_alloc sl -> sl_alloc sl < 2 ^ 30 ->
  exists sl', slist_push compare sl item = Some sl' /\ slist_ok compare sl' /\ items sl' = items sl ++ [item] /\
    sl_pos sl' = sl_pos sl + 1 /\ sl_pos sl' < sl_alloc sl' <= sl_alloc sl + 5.
Proof.
  intros Hok Hlt Hb. unfold slist_push. destruct Hok as [P1 P2 P3 P4] eqn:Eok. clear Eok.
  set (sl1 := if sl_pos sl >=? u32 (sl_alloc sl - 1) then slist_grow sl 5 else sl).
  assert (exists k, slots sl1 = slots sl ++ k /\ sl_pos sl1 = sl_pos sl /\ sl_is_sorted sl1 = sl_is_sorted sl /\
    sl_alloc sl <= sl_alloc sl1 <= sl_alloc sl + 5 /\ sl_alloc sl1 <= Z.of_nat (length (slots sl1)) /\
    sl_pos sl + 1 < sl_alloc sl1) as (k & Hk & Hp & Hso & Ha & Hal & Hroom).
  { unfold sl1. rewrite u32_small by lia. destruct (sl_pos sl >=? sl_alloc sl - 1) eqn:E.
    - exists (replicate 5 None). unfold slist_grow. cbn [Z.eqb sl_pos sl_alloc sl_is_sorted]. rewrite slots_some, u32_small, length_app, length_replicate by lia. split_and!; try done; lia.
    - exists []. rewrite app_nil_r. split_and!; try done; lia. }
  rewrite Hp, Hso. set (pos := Z.to_nat (sl_pos sl)).
  rewrite (proj2 (Nat.ltb_lt _ _)) by lia. eexists. split; [reflexivity|].
  assert (slist_ok compare sl) as Hok' by (by constructor). destruct (ok_items compare sl Hok') as (Hm & Hn & Ho).
  assert (length (take pos (slots sl)) = pos) as Htl by (unfold pos; rewrite <- Hm, length_map; lia).
  assert (take (S pos) (<[pos := Some item]> (slots sl1)) = map Some (items sl ++ [item])) as Ht.
  { rewrite (take_S_r _ _ (Some item)) by (apply list_lookup_insert_eq; lia).
    rewrite take_insert_ge, map_app, Hm, Hk by lia. fold pos. rewrite take_app_le; [done|].
    rewrite length_take in Htl. lia. }
  assert (Z.to_nat (u32 (sl_pos sl + 1)) = S pos) as Hs by (rewrite u32_small by lia; unfold pos; lia).
  split_and!.
  - constructor; rewrite ?slots_some; cbn [sl_pos sl_alloc sl_is_sorted]; [rewrite u32_small; lia|lia| |rewrite length_insert; lia].
    exists (items sl ++ [item]). rewrite Hs, Ht. split_and!; [done|rewrite length_app; cbn; unfold pos; lia|].
    intros Hfin. destruct (sl_is_sorted sl); [|by destruct (_ && _)]. specialize (Ho eq_refl).
    apply StronglySorted_app_2; [|done|repeat constructor].
    intros x y Hx ->%list_elem_of_singleton. destruct (sl_pos sl =? 0) eqn:E0.
    { apply list_elem_of_lookup in Hx as [i Hi]. apply lookup_lt_Some in Hi. lia. }
    cbn [andb negb] in Hfin. destruct (items sl !! (pos - 1)%nat) as [last|] eqn:El; [|apply lookup_ge_None in El; lia].
    rewrite list_lookup_insert_ne, Hk, lookup_app_l, (slot_item compare sl) in Hfin by (rewrite ?length_take in Htl; lia || done).
    rewrite El in Hfin. destruct (compare last item >? 0) eqn:Ec; [done|].
    apply list_elem_of_lookup in Hx as [i Hi]. pose proof (lookup_lt_Some _ _ _ Hi).
    destruct Htot as [_ Htr]. apply (Htr x last item); [|lia]. destruct (decide (i = (pos - 1)%nat)) as [->|].
    + simplify_eq. pose proof (Hsgn x x). lia.
    + eapply (StronglySorted_lookup (fun x y => compare x y <= 0)); [exact Ho|exact Hi|exact El|lia].
  - unfold items at 1. rewrite slots_some. cbn [sl_pos]. by rewrite Hs, Ht, omap_id_some.
  - cbn [sl_pos]. by rewrite u32_small by lia.
  - cbn [sl_pos sl_alloc]. rewrite u32_small; lia.
  - cbn [sl_alloc]. lia.
Qed.

Fixpoint push_all (sl : slist (A := A)) (xs : list A) : option slist :=
  match xs with [] => Some sl | x :: xs => sl ← slist_push compare sl x; push_all sl xs end.

Lemma push_all_ok xs : forall sl,
  slist_ok compare sl -> sl_pos sl < sl_alloc sl -> sl_alloc sl + 5 * Z.of_nat (length xs) < 2 ^ 30 ->
  exists sl', push_all sl xs = Some sl' /\ slist_ok compare sl' /\ items sl' = items sl ++ xs.
Proof.
  induction xs as [|x xs IH]; intros sl Hok Hlt Hb; cbn [push_all length] in *.
  - exists sl. by rewrite app_nil_r.
  - destruct (push_ok sl x Hok Hlt ltac:(lia)) as (sl1 & -> & Hok1 & Hit & Hp & Ha). cbn [mbind option_bind].
    destruct (IH sl1 Hok1 ltac:(lia) ltac:(lia)) as (sl2 & -> & Hok2 & Hit2). exists sl2. split_and!; try done.
    by rewrite Hit2, Hit, <- app_assoc.
Qed.

Lemma init_ok hint : 0 < hint < 2 ^ 30 ->
  slist_ok compare (slist_init hint) /\ items (slist_init (A := A) hint) = [] /\ sl_pos (slist_init (A := A) hint) = 0 /\
  sl_alloc (slist_init (A := A) hint) = hint.
Proof.
  intros Hh. unfold slist_init, slist_grow. rewrite (proj2 (Z.eqb_neq hint 0)) by lia.
  cbn [sl_alloc sl_pos sl_is_sorted]. rewrite Z.add_0_l, u32_small by lia. split_and!; try done.
  constructor; rewrite ?slots_some; cbn [sl_pos sl_alloc sl_is_sorted]; try lia.
  - by exists [].
  - rewrite length_app, length_replicate. lia.
Qed.

(** A list that was filled by adding items, in any order, finds by bisection what is in it: an item
    equal to the key when there is one, and nothing otherwise.  Searching sorts the list but
    loses nothing. *)
Theorem slist_search hint xs key :
  0 < hint < 2 ^ 20 -> Z.of_nat (length xs) < 2 ^ 20 ->
  exists sl r sl', push_all (slist_init hint) xs = Some sl /\ slist_find compare sl key = Some (r, sl') /\
    slist_ok compare sl' /\ Permutation (items sl') xs /\
    match r with Some x => x ∈ xs /\ compare key x = 0 | None => forall x, x ∈ xs -> compare key x <> 0 end.
Proof.
  intros Hh Hxs. destruct (init_ok hint ltac:(lia)) as (Hok0 & Hi0 & Hp0 & Ha0).
  destruct (push_all_ok xs (slist_init hint) Hok0 ltac:(lia) ltac:(lia)) as (sl & Hpush & Hok & Hit).
  rewrite Hi0 in Hit. cbn in Hit. exists sl. destruct (ok_items compare sl Hok) as (Hm & Hn & _). rewrite Hit in Hn, Hm.
  unfold slist_find, slist_find_pos.
  destruct ((sl_pos sl =? 0) || bool_decide (sl_list sl = None)) eqn:E.
  - exists None, sl. split_and!; try done; [by rewrite Hit|]. assert (xs = []) as ->.
    { apply length_zero_iff_nil. rewrite Hn. apply orb_true_iff in E as [E|E]; [lia|].
      apply bool_decide_eq_true in E. unfold slots in Hm. rewrite E in Hm. cbn in Hm. rewrite take_nil in Hm.
      apply (f_equal length) in Hm. rewrite length_map in Hm. cbn in Hm. lia. }
    by intros x ?%elem_of_nil.
  - apply orb_false_iff in E as [E1 E2]. destruct (sort_ok sl Hok) as (Hok1 & Hperm & Hsorted & Hpos & _).
    set (sl1 := if sl_is_sorted sl then sl else slist_sort compare sl).
    assert (slist_ok compare sl1 /\ Permutation (items sl1) xs /\ sl_is_sorted sl1 = true /\ sl_pos sl1 = sl_pos sl) as (Hok2 & Hp2 & Hs2 & Hpos2).
    { unfold sl1. destruct (sl_is_sorted sl) eqn:Es; [by rewrite Hit|]. split_and!; try done; [by rewrite Hperm, Hit|apply Hsorted; lia]. }
    destruct (ok_items compare sl1 Hok2) as (Hm2 & Hn2 & Ho2). specialize (Ho2 Hs2). destruct Hok2 as [P1 P2 P3 P4] eqn:Ek. clear Ek.
    destruct (bisect_spec (slots sl1) (items sl1) (Z.to_nat (sl_pos sl1)) key Hm2 Hn2 ltac:(lia) Ho2 (S (Z.to_nat (sl_pos sl1)))
      0 (sl_pos sl1)) as (r & Hr & Hcase); try lia.
    { intros i x Hi Hge. apply lookup_lt_Some in Hi. lia. }
    cbn [mbind option_bind]. rewrite Hr. cbn [mbind option_bind].
    destruct Hcase as [[-> Hnone]|[Hr2 (x & Hx & Hc)]].
    + exists None, sl1. split_and!; try done. intros x Hx. apply Hnone. by rewrite Hp2.
    + rewrite (proj2 (Z.ltb_ge r 0)) by lia. rewrite (slot_item compare sl1) by (done || lia). rewrite Hx. cbn [mbind option_bind].
      exists (Some x), sl1. split_and!; try done. rewrite <- Hp2. by eapply list_elem_of_lookup_2.
Qed.

End SlistSearch.

(** ** What does not work *)

(** The first item of a list made without a hint is written to where no memory is, since the
    room of 0 minus one is a large number. *)
Theorem push_without_hint (x : Z) : slist_push Z.sub (slist_init 0) x = None.
Proof. reflexivity. Qed.

(** The same happens behind a list that was set. *)
Theorem push_behind_set_list :
  slist_push Z.sub (slist_set_list (QS := QSort_insertion) Z.sub (slist_init 5) [3; 1; 2] false).2 4 = None.
Proof. vm_compute. reflexivity. Qed.

(** A list that was in order before another one is set is taken to be in order still: the new items
    are not sorted, and not found. *)
Theorem set_list_not_sorted :
  let sl := (slist_set_list (QS := QSort_insertion) Z.sub (slist_release (slist_init 5)) [3; 1; 2] false).2 in
  items sl = [3; 1; 2] /\ fst <$> slist_find (QS := QSort_insertion) Z.sub sl 3 = Some None.
Proof. vm_compute. done. Qed.
