(* ===== verification/Shared.v ===== *)
(** * Helpers on text and numbers: shared/shared.c

    Cutting a text at a character, intervals such as 1h 30m, bytes in hexadecimal, durations.  Those
    that only reading the configuration uses are in [Config].  strtod(3) is the class [Strtod]; a
    double is a rational. *)

From Stdlib Require Import QArith Qround.
From S2P Require Import Prelude Packet Cfgfile Config Misc.
#[local] Open Scope Z_scope.

(** ** Numbers in text *)

Definition digit (n : Z) : ascii := ascii_of_N (48 + Z.to_N n).
Definition isdigit (c : ascii) : bool := (48 <=? N_of_ascii c)%N && (N_of_ascii c <=? 57)%N.

Fixpoint dec_digits (fuel : nat) (n : Z) : text :=
  match fuel with
  | O => []
  | S fuel => if n <? 10 then [digit n] else dec_digits fuel (n / 10) ++ [digit (n mod 10)]
  end.

(** %d and %lu; a number has no more decimal digits than binary ones. *)
Definition dec (n : Z) : text :=
  if n <? 0 then "-"%char :: dec_digits (S (Z.to_nat (Z.log2 (- n)))) (- n) else dec_digits (S (Z.to_nat (Z.log2 n))) n.
(** %03lu *)
Definition dec3 (n : Z) : text := replicate (3 - length (dec n)) "0"%char ++ dec n.

(** ** Cutting *)

(** NULL, the pieces, or a write behind the array. *)
Inductive exploded := ExplodeNull | Exploded (pieces : list text) | ExplodeOverrun.

(** shared/shared.c:51-54 str_explode -- how many times strchr finds [delim] behind the first character. *)
Definition count_entries (delim : ascii) (str : text) : nat := S (length (filter (fun c => c = delim) (tail str))).

(** shared/shared.c:59-63 str_explode -- [room] entries are left in the array; [cur] is the piece so far,
    the latest character first. *)
Fixpoint fill_entries (delim : ascii) (room : nat) (cur str : text) : option (list text) :=
  match str with
  | [] => Some [reverse cur]
  | c :: l =>
      if Ascii.eqb c delim then
        match room with O => None | S room => cons (reverse cur) <$> fill_entries delim room [] l end
      else fill_entries delim room (c :: cur) l
  end.

(** shared/shared.c:42-66 str_explode *)
Definition str_explode (str : option text) (delim : ascii) : exploded :=
  match str with
  | None | Some [] => ExplodeNull
  | Some t => match fill_entries delim (pred (count_entries delim t)) [] t with
              | Some l => Exploded l | None => ExplodeOverrun end
  end.

(** ** Intervals *)

(** shared/shared.c:100-101 grok_seconds -- the factor of a suffix. *)
Definition suffix_factor (c : ascii) : option Z :=
  if Ascii.eqb c "s" then Some 1 else if Ascii.eqb c "m" then Some 60 else if Ascii.eqb c "h" then Some 3600
  else if Ascii.eqb c "d" then Some (3600 * 24) else if Ascii.eqb c "w" then Some (3600 * 24 * 7) else None.

(** The number at the start of a text and the rest of it.  Documented: the rest is part of the text; with no
    number the value is zero; decimal digits are a number, which a blank or one of the suffixes ends. *)
Class Strtod := {
  strtod : text -> Q * text;
  strtod_rest : forall p, (length (strtod p).2 <= length p)%nat;
  strtod_none : forall p, length (strtod p).2 = length p -> Qeq (strtod p).1 0;
  strtod_dec : forall n c rest, 0 <= n <= 2 ^ 53 -> isblank c || bool_decide (is_Some (suffix_factor c)) ->
    strtod (dec n ++ c :: rest) = (inject_Z n, c :: rest) }.

(** A double added to a long. *)
Definition long_of (q : Q) : Z := Z.quot (Qnum q) (Z.pos (Qden q)).
Definition add_double (res : Z) (val : Q) : Z := long_of (inject_Z res + val).

Definition skip_blanks (p : text) : text := (span isblank p).2.

(** shared/shared.c:153-154 grok_seconds -- to the next blank or digit. *)
Definition skip_suffix (p : text) : text := (span (fun c => negb (isblank c) && negb (isdigit c)) p).2.

(** [GrokLoop] stands for a loop that needs more turns. *)
Inductive grok_result := GrokOk (n : Z) | GrokError | GrokLoop.

Section Grok.
Context {SD : Strtod}.

(** shared/shared.c:109-157 grok_seconds *)
Fixpoint grok_loop (fuel : nat) (p : text) (res : Z) : grok_result :=
  match fuel with
  | O => GrokLoop
  | S fuel =>
      if bool_decide (p = []) then GrokOk res else
      let p := skip_blanks p in
      if bool_decide (p = []) then GrokOk res else
      let '(val, endp) := strtod p in
      if Qeq_bool val 0 && (length endp =? length p)%nat then GrokError else
      match skip_blanks endp with
      | [] => GrokOk (add_double res val)
      | c :: l =>
          match suffix_factor c with
          | None => grok_loop fuel (c :: l) (add_double res val)
          | Some f =>
              let res := add_double res (val * inject_Z f) in
              match skip_suffix (c :: l) with
              | [] => GrokOk res
              | p => grok_loop fuel p res
              end
          end
      end
  end.

(** shared/shared.c:98-161 grok_seconds -- a turn takes at least one character. *)
Definition grok_seconds (p : option text) : grok_result :=
  match p with None => GrokError | Some p => grok_loop (S (length p)) p 0 end.

End Grok.

(** ** Bytes *)

Definition hex_digits : text := str "0123456789abcdef".
Definition hex_digit (n : N) : ascii := nth (N.to_nat n) hex_digits "0"%char.

(** shared/shared.c:170-187 tohex -- 20 bytes at most. *)
Definition tohex (data : list byte) : text :=
  flat_map (fun b => [hex_digit (N.shiftr (Byte.to_N b) 4); hex_digit (N.land (Byte.to_N b) 15)]) (take 20 data).

(** ** Durations *)

Record timeval := Timeval { tv_sec : Z; tv_usec : Z }.

(** shared/shared.c:379-381 tv_delta -- thousands are taken away; 20 divisions are enough for 64 bits. *)
Fixpoint shorten (fuel : nat) (usecs : Z) : Z :=
  match fuel with O => usecs | S fuel => if 1000 <? usecs then shorten fuel (usecs / 1000) else usecs end.

(** shared/shared.c:369-390 tv_delta -- weeks, days, hours, minutes, seconds and what is printed behind the point. *)
Definition tv_parts (start stop : timeval) : Z * Z * Z * Z * Z * Z :=
  let less := tv_usec stop <? tv_usec start in
  let secs := u64 (tv_sec stop - tv_sec start - if less then 1 else 0) in
  let stop_usec := if less then tv_usec stop + 1000000 else tv_usec stop in
  let usecs := shorten 20 (u64 (stop_usec - tv_usec start)) in
  let weeks := secs / 604800 in let secs := secs - weeks * 604800 in
  let days := secs / 86400 in let secs := secs - days * 86400 in
  let hours := secs / 3600 in let secs := secs - hours * 3600 in
  let mins := secs / 60 in let secs := secs - mins * 60 in
  (weeks, days, hours, mins, secs, usecs).

(** shared/shared.c:364-405 tv_delta *)
Definition tv_delta (start stop : timeval) : text :=
  let '(weeks, days, hours, mins, secs, usecs) := tv_parts start stop in
  let seconds := dec secs ++ str "." ++ dec3 usecs ++ str "s" in
  let minutes := dec mins ++ str "m " ++ seconds in
  let hour := dec hours ++ str "h " ++ minutes in
  let day := dec days ++ str "d " ++ hour in
  if (mins =? 0) && (hours =? 0) && (days =? 0) then seconds
  else if (hours =? 0) && (days =? 0) then minutes
  else if days =? 0 then hour
  else if weeks =? 0 then day
  else dec weeks ++ str "w " ++ day.

(** ** Names *)

(** shared/shared.c:223-238 callback_name *)
Definition callback_name (numitems id : Z) : text :=
  if (id <? 0) || (numitems - 1 <? id) then
    if id =? CTRL_PACKET then str "CTRL_PACKET" else str "(invalid/unknown " ++ dec id ++ str ")"
  else callback_names !!! Z.to_nat id.

(** shared/shared.c:271-282 control_names *)
Definition control_names : list text := map str
  ["CTRL_NOTHING"; "CTRL_PULSE"; "CTRL_INACTIVE"; "CTRL_ACTIVE"; "CTRL_PATHS"; "CTRL_STALL"; "CTRL_RESUME"; "CTRL_STOP";
   "CTRL_INVALID_CLUSTER"; "CTRL_FETCH"]%string.

(** shared/shared.c:283-290 ctrl_name -- [code] is unsigned. *)
Definition ctrl_name (code : Z) : text :=
  if Z.of_nat (length control_names) <=? code then str "(invalid/unknown)"
  else if code =? CTRL_GENERIC then str "CTRL_GENERIC" else control_names !!! Z.to_nat code.

(** ** Cutting, again *)

Fixpoint join (delim : ascii) (l : list text) : text :=
  match l with [] => [] | [t] => t | t :: l => t ++ delim :: join delim l end.

Lemma join_cons delim t l : l <> [] -> join delim (t :: l) = t ++ delim :: join delim l.
Proof. by destruct l. Qed.

Lemma fill_spec delim str : forall room cur, delim ∉ cur ->
  length (filter (fun c => c = delim) str) = room ->
  exists l, fill_entries delim room cur str = Some l /\ l <> [] /\ join delim l = reverse cur ++ str /\ Forall (fun t => delim ∉ t) l.
Proof.
  induction str as [|c str IH]; intros room cur Hcur Hroom; cbn [fill_entries].
  - exists [reverse cur]. split_and!; [done..| |]; [by rewrite app_nil_r|]. constructor; [by rewrite elem_of_reverse|done].
  - rewrite filter_cons in Hroom. destruct (Ascii.eqb_spec c delim) as [->|Hc].
    + rewrite decide_True in Hroom by done. cbn in Hroom. destruct room as [|room]; [done|]. injection Hroom as Hroom.
      destruct (IH room [] (not_elem_of_nil _) Hroom) as (l & -> & Hne & Hj & Hf). eexists. split; [reflexivity|].
      rewrite join_cons by done. rewrite Hj. split_and!; [done..|]. constructor; [by rewrite elem_of_reverse|done].
    + rewrite decide_False in Hroom by done.
      destruct (IH room (c :: cur) ltac:(set_solver) Hroom) as (l & -> & Hne & Hj & Hf). exists l. split_and!; [done..| |done].
      by rewrite Hj, reverse_cons, <- app_assoc.
Qed.

(** A text that does not begin with the delimiter is cut at every delimiter, and nowhere else. *)
Theorem explode_join delim c t : c <> delim ->
  exists l, str_explode (Some (c :: t)) delim = Exploded l /\ join delim l = c :: t /\ Forall (fun p => delim ∉ p) l.
Proof.
  intros Hc. unfold str_explode, count_entries. cbn [tail pred].
  destruct (fill_spec delim (c :: t) (length (filter (fun x => x = delim) t)) [] (not_elem_of_nil _)) as (l & -> & _ & Hj & Hf).
  - by rewrite filter_cons_False.
  - by exists l.
Qed.

(** The first character is not looked at when the entries are counted: a text that begins with
    the delimiter always has one piece too many for its array. *)
Theorem leading_delimiter_overruns delim t : str_explode (Some (delim :: t)) delim = ExplodeOverrun.
Proof.
  unfold str_explode, count_entries. cbn [tail pred].
  assert (forall t room cur, (length (filter (fun c => c = delim) t) > room)%nat -> fill_entries delim room cur t = None) as H.
  { clear. induction t as [|c t IH]; intros room cur; [cbn; lia|]. rewrite filter_cons. cbn [fill_entries].
    destruct (Ascii.eqb_spec c delim) as [->|Hc].
    - rewrite decide_True by done. cbn [length]. destruct room; [done|]. intros Hr. rewrite IH by lia. done.
    - rewrite decide_False by done. intros. by apply IH. }
  rewrite H; [done|]. rewrite filter_cons_True by done. cbn. lia.
Qed.

(** ** Intervals, again *)

Section Intervals.
Context {SD : Strtod}.

Lemma skip_blanks_length p : (length (skip_blanks p) <= length p)%nat.
Proof. apply span_snd. Qed.
Lemma skip_suffix_length p : (length (skip_suffix p) <= length p)%nat.
Proof. apply span_snd. Qed.

(** The loop ends: every turn that goes on has taken a character. *)
Lemma grok_loop_ends fuel : forall p res, (length p < fuel)%nat -> grok_loop fuel p res <> GrokLoop.
Proof.
  induction fuel as [|fuel IH]; intros p res Hp; [lia|]. cbn [grok_loop].
  destruct (bool_decide (p = [])); [done|]. pose proof (skip_blanks_length p) as H1.
  destruct (bool_decide (skip_blanks p = [])); [done|].
  pose proof (strtod_rest (skip_blanks p)) as H2. pose proof (strtod_none (skip_blanks p)) as H3.
  destruct (strtod (skip_blanks p)) as [val endp]. cbn [fst snd] in *.
  destruct (Qeq_bool val 0 && (length endp =? length (skip_blanks p))%nat) eqn:E; [done|].
  assert (length endp < length (skip_blanks p))%nat as H4.
  { destruct (Nat.eq_dec (length endp) (length (skip_blanks p))) as [Heq|]; [|lia].
    apply Qeq_bool_iff in H3; [|done]. by rewrite H3, Heq, Nat.eqb_refl in E. }
  pose proof (skip_blanks_length endp) as H5. destruct (skip_blanks endp) as [|c l] eqn:El; [done|].
  destruct (suffix_factor c).
  - pose proof (skip_suffix_length (c :: l)) as H6. destruct (skip_suffix (c :: l)); [done|]. apply IH. lia.
  - apply IH. lia.
Qed.

Theorem grok_seconds_ends p : grok_seconds p <> GrokLoop.
Proof. destruct p as [p|]; [|done]. apply grok_loop_ends. lia. Qed.
End Intervals.

(** ** Numbers in text, again *)

Lemma digit_value_digit n : 0 <= n < 10 -> digit_value (digit n) = n /\ isdigit (digit n) = true /\ isblank (digit n) = false.
Proof.
  intros Hn. assert (Forall (fun k => digit_value (digit (Z.of_nat k)) = Z.of_nat k /\ isdigit (digit (Z.of_nat k)) = true /\
    isblank (digit (Z.of_nat k)) = false) (seq 0 10)) as Hall by (repeat constructor).
  rewrite Forall_forall in Hall. specialize (Hall (Z.to_nat n)). rewrite Z2Nat.id in Hall by lia. apply Hall, elem_of_seq. lia.
Qed.

Lemma dec_digits_spec fuel : forall n, 0 <= n < 10 ^ Z.of_nat fuel -> (0 < fuel)%nat ->
  digits_value 10 (dec_digits fuel n) = n /\ Forall (fun c => isdigit c = true) (dec_digits fuel n) /\ dec_digits fuel n <> [].
Proof.
  induction fuel as [|fuel IH]; intros n Hn Hf; [lia|]. cbn [dec_digits]. destruct (Z.ltb_spec n 10) as [Hl|Hl].
  - destruct (digit_value_digit n ltac:(lia)) as (H1 & H2 & _). unfold digits_value. cbn. rewrite H1. split_and!; [lia| |done]. by constructor.
  - assert (0 < fuel)%nat as Hf' by (destruct fuel; [change (10 ^ Z.of_nat 1) with 10 in Hn; lia|lia]).
    rewrite Nat2Z.inj_succ, Z.pow_succ_r in Hn by lia.
    destruct (IH (n / 10)) as (H1 & H2 & H3); [split; [apply Z.div_pos; lia|apply Z.div_lt_upper_bound; lia]|done|].
    destruct (digit_value_digit (n mod 10) ltac:(apply Z.mod_pos_bound; lia)) as (H4 & H5 & _).
    unfold digits_value in *. rewrite foldl_app, H1. cbn. rewrite H4. split_and!.
    + pose proof (Z.div_mod n 10). lia.
    + apply Forall_app. split; [done|by constructor].
    + by destruct (dec_digits fuel (n / 10)).
Qed.

Lemma dec_spec n : 0 <= n -> digits_value 10 (dec n) = n /\ Forall (fun c => isdigit c = true) (dec n) /\ dec n <> [].
Proof.
  intros Hn. unfold dec. destruct (Z.ltb_spec n 0); [lia|]. apply dec_digits_spec; [|lia]. split; [done|].
  rewrite Nat2Z.inj_succ, Z2Nat.id by apply Z.log2_nonneg. destruct (Z.eq_dec n 0) as [->|Hp]; [done|].
  pose proof (Z.log2_spec n ltac:(lia)) as [_ Hlog]. eapply Z.lt_le_trans; [exact Hlog|]. apply Z.pow_le_mono_l. lia.
Qed.

(** Intervals as they are written: numbers with suffixes, and blanks between them. *)
Section Terms.
Context {SD : Strtod}.

Fixpoint show_terms (l : list (Z * ascii)) : text :=
  match l with
  | [] => []
  | [(n, c)] => dec n ++ [c]
  | (n, c) :: l => dec n ++ c :: " "%char :: show_terms l
  end.

Definition term_ok (t : Z * ascii) : Prop := 0 <= t.1 <= 2 ^ 53 /\ is_Some (suffix_factor t.2).
Definition term_value (t : Z * ascii) : Z := t.1 * default 0 (suffix_factor t.2).

Lemma add_product res n f : add_double res (inject_Z n * inject_Z f) = res + n * f.
Proof. unfold add_double, long_of. cbn. rewrite Z.quot_1_r. lia. Qed.

Lemma skip_blanks_dec n rest : 0 <= n -> skip_blanks (dec n ++ rest) = dec n ++ rest /\ dec n ++ rest <> [].
Proof.
  intros Hn. destruct (dec_spec n Hn) as (_ & Hd & Hne). destruct (dec n) as [|c l]; [done|].
  apply Forall_cons in Hd as [Hc _]. split; [|done]. unfold skip_blanks. cbn [span app].
  assert (isblank c = false) as ->; [|done]. revert Hc. unfold isblank, isdigit.
  destruct (Ascii.eqb_spec c " ") as [->|]; [done|]. destruct (Ascii.eqb_spec c TAB) as [->|]; done.
Qed.

Lemma suffix_not_blank c : is_Some (suffix_factor c) -> isblank c = false /\ isdigit c = false.
Proof.
  intros [f Hf]. revert Hf. unfold suffix_factor.
  repeat match goal with |- context [Ascii.eqb c ?d] => destruct (Ascii.eqb_spec c d) as [->|]; [done|] end. done.
Qed.

(** One turn of the loop. *)
Lemma grok_turn fuel (blank : bool) n c f rest res : 0 <= n <= 2 ^ 53 -> suffix_factor c = Some f -> rest = [] \/ head rest = Some " "%char ->
  grok_loop (S fuel) ((if blank then [" "%char] else []) ++ dec n ++ c :: rest) res =
  match rest with [] => GrokOk (res + n * f) | _ => grok_loop fuel rest (res + n * f) end.
Proof.
  intros Hn Hf Hrest. destruct (suffix_not_blank c) as [Hb Hd]; [by rewrite Hf|].
  destruct (skip_blanks_dec n (c :: rest)) as [Hs Hne]; [lia|].
  assert (skip_blanks ((if blank then [" "%char] else []) ++ dec n ++ c :: rest) = dec n ++ c :: rest) as Hs'.
  { destruct blank; [|done]. unfold skip_blanks in *. cbn [app span]. change (isblank " ") with true. cbn iota. by destruct (span isblank _). }
  cbn [grok_loop]. rewrite Hs'. rewrite bool_decide_false by (destruct blank; done). rewrite bool_decide_false by done.
  rewrite strtod_dec by (done || (rewrite Hf; by rewrite bool_decide_true, orb_true_r)).
  assert ((length (c :: rest) =? length (dec n ++ c :: rest))%nat = false) as ->.
  { apply Nat.eqb_neq. rewrite length_app. destruct (dec_spec n) as (_ & _ & H); [lia|]. destruct (dec n); [done|cbn; lia]. }
  rewrite andb_false_r. unfold skip_blanks at 1. cbn [span]. rewrite Hb. cbn [snd]. rewrite Hf, add_product.
  unfold skip_suffix. cbn [span]. rewrite Hb, Hd. cbn [negb andb].
  destruct rest as [|r rest]; [done|]. destruct Hrest as [|[= ->]]; [done|]. done.
Qed.

Definition total (l : list (Z * ascii)) : Z := foldr (fun t a => term_value t + a) 0 l.

Lemma grok_terms l : forall fuel blank res, Forall term_ok l -> l <> [] -> (length l <= fuel)%nat ->
  grok_loop fuel ((if blank : bool then [" "%char] else []) ++ show_terms l) res = GrokOk (res + total l).
Proof.
  induction l as [|[n c] l IH]; intros fuel blank res Hl Hne Hf; [done|]. destruct fuel as [|fuel]; [cbn in Hf; lia|].
  apply Forall_cons in Hl as [[Hn [f Hc]] Hl]. cbn [fst snd] in *.
  assert (total ((n, c) :: l) = n * f + total l) as -> by (cbn; unfold term_value; cbn [fst snd]; by rewrite Hc).
  destruct l as [|t l].
  - cbn [show_terms]. rewrite (grok_turn _ _ _ _ f) by auto. f_equal. cbn. lia.
  - change (show_terms ((n, c) :: t :: l)) with (dec n ++ c :: " "%char :: show_terms (t :: l)).
    rewrite (grok_turn _ _ _ _ f) by auto. change (" "%char :: ?x) with ([" "%char] ++ x).
    rewrite (IH fuel true) by (done || (cbn in Hf |- *; lia)). f_equal. lia.
Qed.

Lemma show_length l : Forall term_ok l -> (length l <= length (show_terms l))%nat.
Proof.
  induction l as [|[n c] l IH]; intros Hl; [done|]. apply Forall_cons in Hl as [_ Hl]. specialize (IH Hl).
  destruct l as [|t l]; [cbn; rewrite length_app; cbn; lia|].
  change (show_terms ((n, c) :: t :: l)) with (dec n ++ c :: " "%char :: show_terms (t :: l)). rewrite length_app. cbn in *. lia.
Qed.

(** An interval that is written with suffixes is the sum of its terms. *)
Theorem grok_seconds_sum l : Forall term_ok l -> grok_seconds (Some (show_terms l)) = GrokOk (total l).
Proof.
  intros Hl. destruct (decide (l = [])) as [->|Hne]; [done|]. unfold grok_seconds.
  pose proof (show_length l Hl). apply (grok_terms l _ false 0); auto.
Qed.
End Terms.

(** ** Decimal numbers, for the examples *)

Definition strtod_decimal (p : text) : Q * text :=
  let '(d, rest) := span isdigit p in if bool_decide (d = []) then (0%Q, p) else (inject_Z (digits_value 10 d), rest).

Lemma span_digits p l rest : Forall (fun c => p c = true) l -> match rest with c :: _ => p c = false | [] => True end -> span p (l ++ rest) = (l, rest).
Proof.
  intros Hl Hr. induction Hl as [|c l Hc Hl IH]; cbn; [destruct rest; cbn; [done|by rewrite Hr]|]. by rewrite Hc, IH.
Qed.

#[export] Program Instance demo_strtod : Strtod := {| strtod := strtod_decimal |}.
Next Obligation.
  intros p. unfold strtod_decimal. pose proof (span_snd isdigit p) as H. destruct (span isdigit p) as [d r]. by destruct (bool_decide _).
Qed.
Next Obligation.
  intros p. unfold strtod_decimal. pose proof (span_length isdigit p) as H. destruct (span isdigit p) as [d r]. cbn in *.
  destruct d; cbn; [done|]. cbn in H. lia.
Qed.
Next Obligation.
  intros n c rest Hn Hc. unfold strtod_decimal. destruct (dec_spec n) as (Hv & Hd & Hne); [lia|].
  rewrite (span_digits isdigit (dec n)); [|done|].
  - rewrite bool_decide_false by done. by rewrite Hv.
  - apply orb_prop_elim in Hc as [Hc|Hc].
    + revert Hc. unfold isblank. destruct (Ascii.eqb_spec c " ") as [->|]; [done|]. by destruct (Ascii.eqb_spec c TAB) as [->|].
    + apply bool_decide_unpack in Hc. by apply suffix_not_blank.
Qed.

Example one_hour : grok_seconds (Some (str "1h 3m 4s")) = GrokOk 3784 /\ grok_seconds (Some (str "90")) = GrokOk 90 /\
  grok_seconds (Some (str "h")) = GrokError.
Proof. vm_compute. done. Qed.

(** ** Bytes and durations, again *)

Lemma hex_byte_inj a b :
  hex_digit (N.shiftr (Byte.to_N a) 4) = hex_digit (N.shiftr (Byte.to_N b) 4) ->
  hex_digit (N.land (Byte.to_N a) 15) = hex_digit (N.land (Byte.to_N b) 15) -> a = b.
Proof.
  set (h := fun x => hex_digit (N.shiftr (Byte.to_N x) 4)). set (l := fun x => hex_digit (N.land (Byte.to_N x) 15)).
  set (back := fun (x y : ascii) => Byte.of_N (Z.to_N (digit_value x * 16 + digit_value y))).
  assert (forall x, back (h x) (l x) = Some x) as H by (intros []; reflexivity).
  intros Eh El. assert (back (h a) (l a) = back (h b) (l b)) as E by (unfold h, l; by rewrite Eh, El).
  rewrite !H in E. congruence.
Qed.

(** Hashes that print alike are the same. *)
Theorem tohex_inj a : forall b, (length a <= 20)%nat -> (length b <= 20)%nat -> tohex a = tohex b -> a = b.
Proof.
  intros b Ha Hb. unfold tohex. rewrite !take_ge by done. clear Ha Hb.
  revert b. induction a as [|x a IH]; intros [|y b]; [done..|]. cbn [flat_map app]. intros [= Eh El E].
  f_equal; [by apply hex_byte_inj|by apply IH].
Qed.

(** The parts of a duration add up to it. *)
Theorem tv_parts_sum start stop weeks days hours mins secs usecs :
  0 <= tv_usec start < 1000000 -> 0 <= tv_usec stop < 1000000 ->
  0 <= tv_sec stop - tv_sec start - (if tv_usec stop <? tv_usec start then 1 else 0) < 2 ^ 64 ->
  tv_parts start stop = (weeks, days, hours, mins, secs, usecs) ->
  tv_sec stop - tv_sec start - (if tv_usec stop <? tv_usec start then 1 else 0) =
    weeks * 604800 + days * 86400 + hours * 3600 + mins * 60 + secs /\
  0 <= days < 7 /\ 0 <= hours < 24 /\ 0 <= mins < 60 /\ 0 <= secs < 60 /\ 0 <= weeks.
Proof.
  intros H1 H2 H3. unfold tv_parts, u64. rewrite (Z.mod_small _ _ H3). set (e := tv_sec stop - _ - _) in *. clearbody e.
  intros [= <- <- <- <- <- <-]. Z.div_mod_to_equations. lia.
Qed.

(** A thousandth of a second is what 1000 microseconds are, but fewer are printed as they are. *)
Theorem microseconds_shown_as_milliseconds : tv_delta (Timeval 0 0) (Timeval 0 500) = str "0.500s" /\
  tv_delta (Timeval 0 0) (Timeval 0 500000) = str "0.500s" /\ tv_delta (Timeval 0 0) (Timeval 0 1000) = str "0.1000s".
Proof. vm_compute. done. Qed.

(** Weeks are not looked at unless there are days, hours or minutes too. *)
Theorem whole_week_shown_as_nothing : tv_delta (Timeval 0 0) (Timeval (2 * 604800) 0) = str "0.000s".
Proof. vm_compute. done. Qed.

(** Every code has its name, and none is the first of the table. *)
Example code_names : ctrl_name 0 = str "CTRL_GENERIC" /\ ctrl_name 9 = str "CTRL_FETCH" /\ ctrl_name 10 = str "(invalid/unknown)".
Proof. vm_compute. done. Qed.
