(* ===== verification/Dlist.v ===== *)
(** * Doubly linked lists: shared/dlist.c

    Entries live in a heap and are named by their address, 0 standing for NULL, as are data.  The
    address a new entry gets is an argument, 0 when there is no memory.  A computation that uses an
    address at which there is no entry has no result. *)

From S2P Require Import Prelude.
#[local] Open Scope nat_scope.

(** shared/dlist.h:63-67 dlist_entry *)
Record dlist_entry := DEntry { d_data : Z; dlist_next : nat; dlist_prev : nat }.
#[export] Instance eta_dlist_entry : Eta dlist_entry := fun r => DEntry (d_data r) (dlist_next r) (dlist_prev r).

Abbreviation heap := (gmap nat dlist_entry).

(** Computations on the heap. *)
Definition HM (A : Type) : Type := heap -> option (A * heap).
#[export] Instance HM_ret : MRet HM := fun A a h => Some (a, h).
#[export] Instance HM_bind : MBind HM := fun A B k c h => match c h with Some (a, h) => k a h | None => None end.

Definition load (p : nat) : HM dlist_entry := fun h => e ← h !! p; Some (e, h).
Definition store (p : nat) (f : dlist_entry -> dlist_entry) : HM unit := fun h => e ← h !! p; Some (tt, alter f p h).
Definition free (p : nat) : HM unit := fun h => if decide (p = 0) then Some (tt, h) else e ← h !! p; Some (tt, delete p h).
Definition alloc (le : nat) (e : dlist_entry) : HM unit := fun h => Some (tt, <[le := e]> h).
Definition when (b : bool) (c : HM unit) : HM unit := if b then c else mret tt.
Definition isnull (p : nat) : bool := p =? 0.

(** shared/dlist.c:6-13 dlist_mkentry *)
Definition dlist_mkentry (le : nat) (data : Z) : HM nat :=
  when (negb (isnull le)) (alloc le (DEntry data 0 0)) ;; mret le.

(** shared/dlist.c:15-17 dlist_create_entry *)
Definition dlist_create_entry (le : nat) (data : Z) : HM nat := dlist_mkentry le data.

(** shared/dlist.c:19-35 dlist_insert *)
Definition dlist_insert (le : nat) (list : nat) (data : Z) : HM nat :=
  le ← dlist_mkentry le data;
  if isnull le then mret 0 else
  when (negb (isnull list))
    (e ← load list;
     when (negb (isnull (dlist_prev e))) (store (dlist_prev e) (fun r => r <| dlist_next := le |>)) ;;
     store le (fun r => r <| dlist_prev := dlist_prev e |>) ;;
     store le (fun r => r <| dlist_next := list |>) ;;
     store list (fun r => r <| dlist_prev := le |>)) ;;
  mret le.

(** shared/dlist.c:37-56 dlist_append *)
Definition dlist_append (le : nat) (list : nat) (data : Z) : HM nat :=
  if isnull list then dlist_insert le list data else
  le ← dlist_mkentry le data;
  if isnull le then mret 0 else
  e ← load list;
  when (negb (isnull (dlist_next e))) (store (dlist_next e) (fun r => r <| dlist_prev := le |>)) ;;
  store le (fun r => r <| dlist_next := dlist_next e |>) ;;
  store le (fun r => r <| dlist_prev := list |>) ;;
  store list (fun r => r <| dlist_next := le |>) ;;
  mret le.

(** shared/dlist.c:58-77 dlist_remove -- also gives the new head. *)
Definition dlist_remove (head : option nat) (entry : nat) : HM (Z * option nat) :=
  if isnull entry then mret (0%Z, head) else
  e ← load entry;
  let head := match head with
              | Some h => Some (if h =? entry then if isnull (dlist_prev e) then dlist_next e else dlist_prev e else h)
              | None => None end in
  when (negb (isnull (dlist_prev e))) (store (dlist_prev e) (fun r => r <| dlist_next := dlist_next e |>)) ;;
  when (negb (isnull (dlist_next e))) (store (dlist_next e) (fun r => r <| dlist_prev := dlist_prev e |>)) ;;
  free entry ;;
  mret (d_data e, head).

(** shared/dlist.c:85-91 dlist_find -- the test of an entry, and of the second loop too. *)
Definition matches (cmp : Z -> Z -> Z) (data d : Z) : bool :=
  ((d =? data) || (negb (d =? 0) && negb (data =? 0) && (cmp d data =? 0)))%Z.

(** shared/dlist.h:86-87 dlist_foreach -- up to the first match; [None] inside for a loop that needs more
    turns. *)
Fixpoint find_forward (fuel : nat) (cmp : Z -> Z -> Z) (data : Z) (it : nat) : HM (option nat) :=
  match fuel with
  | O => mret None
  | S fuel =>
      if isnull it then mret (Some 0) else
      e ← load it;
      if matches cmp data (d_data e) then mret (Some it) else find_forward fuel cmp data (dlist_next e)
  end.

(** shared/dlist.c:79-102 dlist_find -- both loops go forwards.  A list has no more entries than the heap. *)
Definition dlist_find (cmp : Z -> Z -> Z) (entry : nat) (data : Z) : HM (option nat) := fun h =>
  if isnull entry then Some (Some 0, h) else
  (r ← find_forward (S (size h)) cmp data entry;
   match r with
   | None => mret None
   | Some 0 => e ← load entry; find_forward (S (size h)) cmp data (dlist_prev e)
   | Some p => mret (Some p)
   end) h.

(** shared/dlist.c:104-109 dlist_insert_unique *)
Definition dlist_insert_unique (cmp : Z -> Z -> Z) (le list : nat) (data : Z) : HM (option nat) :=
  r ← dlist_find cmp list data;
  match r with
  | None => mret None
  | Some 0 => p ← dlist_insert le list data; mret (Some p)
  | Some _ => mret (Some 0)
  end.

(** shared/dlist.c:111-116 dlist_append_unique *)
Definition dlist_append_unique (cmp : Z -> Z -> Z) (le list : nat) (data : Z) : HM (option nat) :=
  r ← dlist_find cmp list data;
  match r with
  | None => mret None
  | Some 0 => p ← dlist_append le list data; mret (Some p)
  | Some _ => mret (Some 0)
  end.

(** shared/dlist.c:118-128 dlist_destroy_entry -- the data the destructor gets, [destructor] telling whether there is
    one, and the new head. *)
Definition dlist_destroy_entry (destructor : bool) (head : option nat) (entry : nat) : HM (list Z * option nat) :=
  if isnull entry then mret ([], head) else
  '(data, head) ← dlist_remove head entry;
  mret (if destructor && negb (data =? 0)%Z then [data] else [], head).

(** shared/dlist.h:129-132 dlist_foreach_safe -- and dlist_foreach_safe_reverse: the next entry is read before
    the body frees the entry; the data of the entries, in order. *)
Fixpoint free_along (fuel : nat) (step : dlist_entry -> nat) (it : nat) : HM (list Z) :=
  match fuel with
  | O => mret []
  | S fuel =>
      if isnull it then mret [] else
      e ← load it;
      free it ;;
      l ← free_along fuel step (step e);
      mret (d_data e :: l)
  end.

(** shared/dlist.c:130-159 dlist_destroy_list -- the data the destructor gets. *)
Definition dlist_destroy_list (destructor : bool) (first : nat) : HM (list Z) := fun h =>
  if isnull first then Some ([], h) else
  (e ← load first;
   l1 ← free_along (S (size h)) dlist_next (dlist_next e);
   l2 ← free_along (S (size h)) dlist_prev first;
   mret (if destructor then l1 ++ l2 else [])) h.

(** ** Lists in the heap *)

(** The entries of a segment, with their addresses and data, between two others. *)
Fixpoint dseg (h : heap) (prev : nat) (l : list (nat * Z)) (next : nat) : Prop :=
  match l with
  | [] => True
  | (a, d) :: l => a <> 0 /\ h !! a = Some (DEntry d (from_option fst next (head l)) prev) /\ dseg h a l next
  end.

Definition addrs (l : list (nat * Z)) : list nat := l.*1.

(** A whole list. *)
Definition dlist (h : heap) (l : list (nat * Z)) : Prop := NoDup (addrs l) /\ dseg h 0 l 0.

Lemma dseg_ext h h' prev l next : (forall a, a ∈ addrs l -> h' !! a = h !! a) -> dseg h prev l next -> dseg h' prev l next.
Proof.
  revert prev. induction l as [|[a d] l IH]; intros prev Hext; [done|]. cbn [dseg]. intros (Ha & Hl & Hs).
  split_and!; [done| |]; [rewrite Hext; [done|left]|]. apply IH; [|done]. intros b Hb. apply Hext. by right.
Qed.

Lemma dseg_app h prev l1 l2 next : dseg h prev (l1 ++ l2) next <->
  dseg h prev l1 (from_option fst next (head l2)) /\ dseg h (from_option fst prev (last l1)) l2 next.
Proof.
  revert prev. induction l1 as [|[a d] l1 IH]; intros prev; [cbn; tauto|].
  change (((a, d) :: l1) ++ l2) with ((a, d) :: (l1 ++ l2)). cbn [dseg]. rewrite IH.
  assert (from_option fst next (head (l1 ++ l2)) = from_option fst (from_option fst next (head l2)) (head l1)) as -> by (by destruct l1).
  assert (from_option fst prev (last ((a, d) :: l1)) = from_option fst a (last l1)) as -> by (rewrite last_cons; by destruct (last l1)).
  tauto.
Qed.

(** Changing the ends of a segment. *)
Definition set_next (n : nat) (r : dlist_entry) : dlist_entry := r <| dlist_next := n |>.
Definition set_prev (n : nat) (r : dlist_entry) : dlist_entry := r <| dlist_prev := n |>.

Lemma relink_next h prev l next next' a d : NoDup (addrs (l ++ [(a, d)])) ->
  dseg h prev (l ++ [(a, d)]) next -> dseg (alter (set_next next') a h) prev (l ++ [(a, d)]) next'.
Proof.
  intros Hnd. rewrite !dseg_app. intros [H1 (Ha & Hl & _)]. unfold addrs in Hnd. rewrite fmap_app in Hnd.
  apply NoDup_app in Hnd as (_ & Hd & _). split; [|split_and!; [done| |done]].
  - eapply dseg_ext; [|exact H1]. intros b Hb. rewrite lookup_alter_ne; [done|]. intros ->. apply (Hd _ Hb). left.
  - by rewrite lookup_alter_eq, Hl.
Qed.

Lemma relink_prev h prev l next prev' a d : NoDup (addrs ((a, d) :: l)) ->
  dseg h prev ((a, d) :: l) next -> dseg (alter (set_prev prev') a h) prev' ((a, d) :: l) next.
Proof.
  intros Hnd (Ha & Hl & Hs). apply NoDup_cons in Hnd as [Hn _]. split_and!; [done|by rewrite lookup_alter_eq, Hl|].
  eapply dseg_ext; [|exact Hs]. intros b Hb. rewrite lookup_alter_ne; [done|]. intros ->. done.
Qed.

(** What computations do. *)

Lemma bind_step {A B} (c : HM A) (k : A -> HM B) h a h' : c h = Some (a, h') -> (c ≫= k) h = k a h'.
Proof. intros E. unfold mbind, HM_bind. by rewrite E. Qed.

Lemma load_step h p e : h !! p = Some e -> load p h = Some (e, h).
Proof. intros E. unfold load. by rewrite E. Qed.

Lemma store_step h p f : is_Some (h !! p) -> store p f h = Some (tt, alter f p h).
Proof. intros [e E]. unfold store. by rewrite E. Qed.

Lemma dseg_in h prev l next a : dseg h prev l next -> a ∈ addrs l -> a <> 0 /\ is_Some (h !! a).
Proof.
  revert prev. induction l as [|[b d] l IH]; intros prev; cbn [dseg addrs fmap list_fmap]; [by intros _ ?%elem_of_nil|].
  intros (Hb & Hl & Hs) [->|Hin]%elem_of_cons; [split; [done|by eexists]|by eapply IH].
Qed.

(** Stores through pointers that may be NULL. *)
Definition link (f : dlist_entry -> dlist_entry) (p : nat) (h : heap) : heap := if decide (p = 0) then h else alter f p h.

Lemma when_step f p h : p = 0 \/ is_Some (h !! p) -> when (negb (isnull p)) (store p f) h = Some (tt, link f p h).
Proof.
  intros Hp. unfold link, isnull. case_decide as Hz; [by subst|]. rewrite (proj2 (Nat.eqb_neq p 0)) by done.
  apply store_step. by destruct Hp.
Qed.

Lemma lookup_link_ne f p h q : q <> p -> link f p h !! q = h !! q.
Proof. intros Hq. unfold link. case_decide; [done|]. by rewrite lookup_alter_ne. Qed.
Lemma link_is_Some f p h q : is_Some (h !! q) -> is_Some (link f p h !! q).
Proof. intros Hq. unfold link. case_decide; [done|]. by apply lookup_alter_is_Some. Qed.

Definition last_addr (l : list (nat * Z)) : nat := from_option fst 0 (last l).
Definition head_addr (l : list (nat * Z)) : nat := from_option fst 0 (head l).

Lemma last_addr_in l : last_addr l = 0 \/ last_addr l ∈ addrs l.
Proof.
  unfold last_addr. destruct (last l) as [[a d]|] eqn:E; [right|by left]. apply last_Some in E as (k & ->).
  unfold addrs. rewrite fmap_app. set_solver.
Qed.
Lemma head_addr_in l : head_addr l = 0 \/ head_addr l ∈ addrs l.
Proof. destruct l as [|[a d] l]; [by left|right; left]. Qed.

Lemma link_last h l next next' : NoDup (addrs l) -> dseg h 0 l next -> dseg (link (set_next next') (last_addr l) h) 0 l next'.
Proof.
  unfold last_addr. destruct l as [|[a d] l _] using rev_ind; [done|]. rewrite last_snoc. cbn. intros Hnd Hs.
  assert (a <> 0) by (eapply dseg_in; [exact Hs|unfold addrs; rewrite fmap_app; set_solver]).
  unfold link. rewrite decide_False by done. by eapply relink_next.
Qed.

Lemma link_head h prev prev' l : NoDup (addrs l) -> dseg h prev l 0 -> dseg (link (set_prev prev') (head_addr l) h) prev' l 0.
Proof.
  destruct l as [|[a d] l]; [done|]. intros Hnd Hs. pose proof Hs as (Ha & _). unfold link, head_addr. cbn [head from_option fst].
  rewrite decide_False by done. by eapply relink_prev.
Qed.

(** A list around one of its entries. *)
Lemma dlist_middle h l1 a d l2 : dlist h (l1 ++ (a, d) :: l2) <->
  (NoDup (addrs l1) /\ NoDup (addrs l2) /\ a ∉ addrs l1 /\ a ∉ addrs l2 /\ (forall x, x ∈ addrs l1 -> x ∉ addrs l2)) /\
  dseg h 0 l1 a /\ a <> 0 /\ h !! a = Some (DEntry d (head_addr l2) (last_addr l1)) /\ dseg h a l2 0.
Proof.
  unfold dlist. rewrite dseg_app. cbn [dseg head from_option fst]. fold (head_addr l2). fold (last_addr l1).
  unfold addrs. rewrite fmap_app, fmap_cons. cbn [fst]. rewrite NoDup_app, NoDup_cons. set_solver.
Qed.

Lemma isnull_false p : p <> 0 -> isnull p = false.
Proof. apply Nat.eqb_neq. Qed.

Lemma mkentry_step le data h : le <> 0 -> dlist_mkentry le data h = Some (le, <[le := DEntry data 0 0]> h).
Proof. intros Hle. unfold dlist_mkentry. by rewrite isnull_false. Qed.

(** A free address is in no list. *)
Lemma fresh_addr h prev l next le : dseg h prev l next -> h !! le = None -> le ∉ addrs l.
Proof. intros Hs Hn Hin. destruct (dseg_in h prev l next le Hs Hin) as [_ [e He]]. congruence. Qed.

Lemma link_fresh (h : heap) f p le data prev next : p <> le ->
  let h0 := link f p (<[le := DEntry data 0 0]> h) in
  alter (fun r => r <| dlist_next := next |>) le (alter (fun r => r <| dlist_prev := prev |>) le h0) = <[le := DEntry data next prev]> (link f p h) /\
  alter (fun r => r <| dlist_prev := prev |>) le (alter (fun r => r <| dlist_next := next |>) le h0) = <[le := DEntry data next prev]> (link f p h).
Proof.
  intros Hp. unfold link. case_decide.
  - by rewrite !alter_insert_eq.
  - by rewrite alter_insert_ne, !alter_insert_eq by done.
Qed.

Lemma insert_heap h l1 a d l2 le data : dlist h (l1 ++ (a, d) :: l2) -> le <> 0 -> h !! le = None ->
  dlist_insert le a data h = Some (le, alter (set_prev le) a (<[le := DEntry data a (last_addr l1)]> (link (set_next le) (last_addr l1) h))).
Proof.
  intros (Hnd & H1 & Ha & Hl & H2)%dlist_middle Hle Hfree. unfold dlist_insert.
  assert (le <> a) by congruence.
  assert (last_addr l1 <> le) as Hp by (destruct (last_addr_in l1) as [->|Hin]; [done|intros <-; exact (fresh_addr _ _ _ _ _ H1 Hfree Hin)]).
  erewrite bind_step by (by apply mkentry_step). rewrite !isnull_false by done. cbn [negb when].
  erewrite bind_step.
  2: { erewrite bind_step by (apply load_step; by rewrite lookup_insert_ne). cbn [dlist_prev].
    erewrite bind_step. 2: { apply when_step. rewrite lookup_insert_ne by done.
      destruct (last_addr_in l1) as [?|Hin]; [by left|right]. exact (proj2 (dseg_in _ _ _ _ _ H1 Hin)). }
    erewrite bind_step by (apply store_step, link_is_Some; by rewrite lookup_insert_eq).
    erewrite bind_step by (apply store_step; rewrite lookup_alter_is_Some; apply link_is_Some; by rewrite lookup_insert_eq).
    apply store_step. rewrite !lookup_alter_is_Some. apply link_is_Some. rewrite lookup_insert_ne by done. by eexists. }
  unfold mret, HM_ret. do 3 f_equal. by apply link_fresh.
Qed.

(** A new entry comes right before the one that is named; other lists are not touched. *)
Theorem dlist_insert_spec h l1 a d l2 le data : dlist h (l1 ++ (a, d) :: l2) -> le <> 0 -> h !! le = None ->
  exists h', dlist_insert le a data h = Some (le, h') /\ dlist h' (l1 ++ (le, data) :: (a, d) :: l2) /\
    forall x, x ∉ le :: addrs (l1 ++ (a, d) :: l2) -> h' !! x = h !! x.
Proof.
  intros Hd Hle Hfree. eexists. split; [by eapply insert_heap|].
  apply dlist_middle in Hd as ((N1 & N2 & Na1 & Na2 & Nx) & H1 & Ha & Hl & H2).
  pose proof (fresh_addr _ _ _ _ le H1 Hfree) as F1. pose proof (fresh_addr _ _ _ _ le H2 Hfree) as F2.
  assert (le <> a) by congruence.
  assert (last_addr l1 <> le) as Hp by (destruct (last_addr_in l1) as [->|Hin]; congruence).
  assert (last_addr l1 <> a) as Hpa by (destruct (last_addr_in l1) as [->|Hin]; congruence).
  split.
  - apply dlist_middle. change (addrs ((a, d) :: l2)) with (a :: addrs l2). rewrite NoDup_cons. split; [set_solver|].
    split_and!; [|done| |].
    + eapply dseg_ext; [|exact (link_last h l1 a le N1 H1)]. intros x Hx. rewrite lookup_alter_ne, lookup_insert_ne by congruence. done.
    + by rewrite lookup_alter_ne, lookup_insert_eq.
    + cbn [dseg]. split_and!; [done| |].
      * by rewrite lookup_alter_eq, lookup_insert_ne, lookup_link_ne, Hl.
      * eapply dseg_ext; [|exact H2]. intros x Hx. rewrite lookup_alter_ne, lookup_insert_ne by congruence.
        apply lookup_link_ne. destruct (last_addr_in l1) as [->|Hin]; [|intros ->; by eapply Nx]. exact (proj1 (dseg_in _ _ _ _ _ H2 Hx)).
  - intros x Hx. unfold addrs in Hx. rewrite fmap_app, fmap_cons in Hx. cbn [fst] in Hx. clear H1 H2 Nx Hl N1 N2.
    rewrite lookup_alter_ne, lookup_insert_ne by set_solver. unfold link. case_decide; [done|]. apply lookup_alter_ne.
    destruct (last_addr_in l1); set_solver.
Qed.

(** A new entry comes right behind the one that is named. *)
Lemma append_heap h l1 a d l2 le data : dlist h (l1 ++ (a, d) :: l2) -> le <> 0 -> h !! le = None ->
  dlist_append le a data h = Some (le, alter (set_next le) a (<[le := DEntry data (head_addr l2) a]> (link (set_prev le) (head_addr l2) h))).
Proof.
  intros (Hnd & H1 & Ha & Hl & H2)%dlist_middle Hle Hfree. unfold dlist_append. rewrite isnull_false by done.
  assert (le <> a) by congruence.
  assert (head_addr l2 <> le) as Hp by (destruct (head_addr_in l2) as [->|Hin]; [done|intros <-; exact (fresh_addr _ _ _ _ _ H2 Hfree Hin)]).
  erewrite bind_step by (by apply mkentry_step). rewrite isnull_false by done.
  erewrite bind_step by (apply load_step; by rewrite lookup_insert_ne). cbn [dlist_next].
  erewrite bind_step. 2: { apply when_step. rewrite lookup_insert_ne by done.
    destruct (head_addr_in l2) as [?|Hin]; [by left|right]. exact (proj2 (dseg_in _ _ _ _ _ H2 Hin)). }
  erewrite bind_step by (apply store_step, link_is_Some; by rewrite lookup_insert_eq).
  erewrite bind_step by (apply store_step; rewrite lookup_alter_is_Some; apply link_is_Some; by rewrite lookup_insert_eq).
  erewrite bind_step. 2: { apply store_step. rewrite !lookup_alter_is_Some. apply link_is_Some. rewrite lookup_insert_ne by done. by eexists. }
  unfold mret, HM_ret. do 3 f_equal. by apply link_fresh.
Qed.

Theorem dlist_append_spec h l1 a d l2 le data : dlist h (l1 ++ (a, d) :: l2) -> le <> 0 -> h !! le = None ->
  exists h', dlist_append le a data h = Some (le, h') /\ dlist h' (l1 ++ (a, d) :: (le, data) :: l2) /\
    forall x, x ∉ le :: addrs (l1 ++ (a, d) :: l2) -> h' !! x = h !! x.
Proof.
  intros Hd Hle Hfree. eexists. split; [by eapply append_heap|].
  apply dlist_middle in Hd as ((N1 & N2 & Na1 & Na2 & Nx) & H1 & Ha & Hl & H2).
  pose proof (fresh_addr _ _ _ _ le H1 Hfree) as F1. pose proof (fresh_addr _ _ _ _ le H2 Hfree) as F2.
  assert (le <> a) by congruence.
  assert (head_addr l2 <> le) as Hp by (destruct (head_addr_in l2) as [->|Hin]; congruence).
  assert (head_addr l2 <> a) as Hpa by (destruct (head_addr_in l2) as [->|Hin]; congruence).
  split.
  - apply dlist_middle. change (addrs ((le, data) :: l2)) with (le :: addrs l2). rewrite NoDup_cons. split; [set_solver|].
    split_and!; [|done| |].
    + eapply dseg_ext; [|exact H1]. intros x Hx. rewrite lookup_alter_ne, lookup_insert_ne by congruence.
      apply lookup_link_ne. destruct (head_addr_in l2) as [->|Hin]; [|intros ->; by eapply Nx]. exact (proj1 (dseg_in _ _ _ _ _ H1 Hx)).
    + rewrite lookup_alter_eq, lookup_insert_ne, lookup_link_ne, Hl by done. done.
    + cbn [dseg]. split_and!; [done| |].
      * by rewrite lookup_alter_ne, lookup_insert_eq.
      * eapply dseg_ext; [|exact (link_head h a le l2 N2 H2)]. intros x Hx. by rewrite lookup_alter_ne, lookup_insert_ne by congruence.
  - intros x Hx. unfold addrs in Hx. rewrite fmap_app, fmap_cons in Hx. cbn [fst] in Hx. clear H1 H2 Nx Hl N1 N2.
    rewrite lookup_alter_ne, lookup_insert_ne by set_solver. unfold link. case_decide; [done|]. apply lookup_alter_ne.
    destruct (head_addr_in l2); set_solver.
Qed.

(** An entry that is removed is gone, the rest of the list keeps its order, and a head that named the entry
    names a neighbour. *)
Theorem dlist_remove_spec h l1 a d l2 head : dlist h (l1 ++ (a, d) :: l2) ->
  exists h', dlist_remove (Some head) a h = Some ((d, Some (if head =? a then if isnull (last_addr l1) then head_addr l2 else last_addr l1 else head)), h') /\
    dlist h' (l1 ++ l2) /\ h' !! a = None /\ forall x, x ∉ addrs (l1 ++ (a, d) :: l2) -> h' !! x = h !! x.
Proof.
  intros ((N1 & N2 & Na1 & Na2 & Nx) & H1 & Ha & Hl & H2)%dlist_middle. unfold dlist_remove. rewrite isnull_false by done.
  erewrite bind_step by (by apply load_step). cbn [dlist_prev dlist_next d_data].
  assert (last_addr l1 <> a) as Hpa by (destruct (last_addr_in l1) as [->|Hin]; congruence).
  assert (head_addr l2 <> a) as Hna by (destruct (head_addr_in l2) as [->|Hin]; congruence).
  erewrite bind_step. 2: { apply when_step. destruct (last_addr_in l1) as [?|Hin]; [by left|right]. exact (proj2 (dseg_in _ _ _ _ _ H1 Hin)). }
  erewrite bind_step. 2: { apply when_step. destruct (head_addr_in l2) as [?|Hin]; [by left|right]. apply link_is_Some.
    exact (proj2 (dseg_in _ _ _ _ _ H2 Hin)). }
  erewrite bind_step. 2: { unfold free. rewrite decide_False by done. rewrite !lookup_link_ne, Hl by done. reflexivity. }
  eexists. split; [reflexivity|]. split_and!.
  - split; [unfold addrs in *; rewrite fmap_app, NoDup_app; done|]. apply dseg_app. fold (head_addr l2). fold (last_addr l1). split.
    + eapply dseg_ext; [|exact (link_last h l1 a (head_addr l2) N1 H1)]. intros x Hx. rewrite lookup_delete_ne by congruence.
      apply lookup_link_ne. destruct (head_addr_in l2) as [->|Hin]; [|intros ->; by eapply Nx]. exact (proj1 (dseg_in _ _ _ _ _ H1 Hx)).
    + eapply dseg_ext; [|exact (link_head h a (last_addr l1) l2 N2 H2)]. intros x Hx. rewrite lookup_delete_ne by congruence.
      unfold link at 1 3. case_decide; [|destruct (decide (x = head_addr l2)) as [->|Hx']].
      * apply lookup_link_ne. destruct (last_addr_in l1) as [->|Hin]; [|intros ->; by eapply Nx]. exact (proj1 (dseg_in _ _ _ _ _ H2 Hx)).
      * rewrite !lookup_alter_eq. f_equal. apply lookup_link_ne. destruct (last_addr_in l1) as [->|Hin]; [done|intros E; eapply Nx; [exact Hin|by rewrite <- E]].
      * rewrite !lookup_alter_ne by done. apply lookup_link_ne. destruct (last_addr_in l1) as [->|Hin]; [|intros ->; by eapply Nx].
        exact (proj1 (dseg_in _ _ _ _ _ H2 Hx)).
  - apply lookup_delete_eq.
  - intros x Hx. unfold addrs in Hx. rewrite fmap_app, fmap_cons in Hx. cbn [fst] in Hx. clear H1 H2 Nx Hl N1 N2. rewrite lookup_delete_ne by set_solver.
    unfold link. repeat case_decide; rewrite ?lookup_alter_ne; try done; destruct (head_addr_in l2), (last_addr_in l1); set_solver.
Qed.

(** ** Searching *)

Section Find.
Context (cmp : Z -> Z -> Z) (data : Z).

Fixpoint first_match (l : list (nat * Z)) : nat :=
  match l with [] => 0 | (a, d) :: l => if matches cmp data d then a else first_match l end.

Lemma forward_spec h l : forall fuel prev, dseg h prev l 0 -> length l < fuel ->
  find_forward fuel cmp data (head_addr l) h = Some (Some (first_match l), h).
Proof.
  induction l as [|[a d] l IH]; intros [|fuel] prev Hs Hf; cbn [length] in Hf; [lia|done|lia|].
  destruct Hs as (Ha & Hl & Hs). cbn [head_addr head from_option fst find_forward first_match]. rewrite isnull_false by done.
  erewrite bind_step by (by apply load_step). cbn [d_data dlist_next]. destruct (matches cmp data d); [done|].
  apply (IH fuel a); [done|lia].
Qed.

Lemma heap_room (h : heap) l : NoDup (addrs l) -> (forall a, a ∈ addrs l -> is_Some (h !! a)) -> length l <= size h.
Proof.
  intros Hnd Hin. rewrite <- (length_fmap fst l). fold (addrs l). rewrite <- (size_list_to_set (C := gset nat) (addrs l) Hnd), <- size_dom.
  apply subseteq_size. intros a Ha%elem_of_list_to_set. apply elem_of_dom. by apply Hin.
Qed.

(** From an entry, the first match from there on is found, or else the entry before it is looked at. *)
Theorem dlist_find_spec h l1 a d l2 : dlist h (l1 ++ (a, d) :: l2) ->
  dlist_find cmp a data h =
  Some (Some (match first_match ((a, d) :: l2) with
              | 0 => match last l1 with Some (p, dp) => if matches cmp data dp then p else 0 | None => 0 end
              | S p => S p end), h).
Proof.
  intros Hd. pose proof Hd as [Hnd Hseg].
  assert (length (l1 ++ (a, d) :: l2) < S (size h)) as Hroom.
  { pose proof (heap_room h _ Hnd (fun x Hx => proj2 (dseg_in _ _ _ _ _ Hseg Hx))). lia. }
  rewrite length_app in Hroom. cbn [length] in Hroom.
  apply dlist_middle in Hd as (_ & H1 & Ha & Hl & H2).
  assert (dseg h (last_addr l1) ((a, d) :: l2) 0) as Hs by done.
  unfold dlist_find. rewrite isnull_false by done.
  erewrite bind_step by (apply (forward_spec h ((a, d) :: l2) _ _ Hs); cbn [length]; lia).
  destruct (first_match ((a, d) :: l2)) eqn:E; [|done].
  erewrite bind_step by (by apply load_step). cbn [dlist_prev].
  destruct l1 as [|[p dp] l1 _] using rev_ind; [by destruct (size h)|].
  rewrite last_snoc. unfold last_addr. rewrite last_snoc. cbn [from_option fst].
  apply dseg_app in Hseg as [H1' Hs']. cbn [head from_option fst] in H1'. apply dseg_app in H1' as [_ (Hp & Hpl & _)].
  rewrite (forward_spec h ((p, dp) :: (a, d) :: l2) (S (size h)) (from_option fst 0 (last l1))).
  - change (first_match ((p, dp) :: ?l)) with (if matches cmp data dp then p else first_match l). rewrite E. by destruct (matches cmp data dp).
  - split_and!; [done..|]. unfold last_addr in Hs. rewrite last_snoc in Hs. exact Hs.
  - rewrite length_app in Hroom. cbn [length] in *. lia.
Qed.
End Find.

(** ** Freeing *)

Definition frees (h : heap) (l : list (nat * Z)) (h' : heap) : Prop :=
  forall x, h' !! x = if decide (x ∈ addrs l) then None else h !! x.

Lemma free_step h a : a <> 0 -> is_Some (h !! a) -> free a h = Some (tt, delete a h).
Proof. intros Ha [e He]. unfold free. rewrite decide_False by done. by rewrite He. Qed.

Lemma free_next_spec l : forall h fuel prev, NoDup (addrs l) -> dseg h prev l 0 -> length l < fuel ->
  exists h', free_along fuel dlist_next (head_addr l) h = Some (l.*2, h') /\ frees h l h'.
Proof.
  induction l as [|[a d] l IH]; intros h [|fuel] prev Hnd Hs Hf; cbn [length] in Hf; [lia|by eexists|lia|].
  destruct Hs as (Ha & Hl & Hs). apply NoDup_cons in Hnd as [Hn Hnd]. change (a ∉ addrs l) in Hn.
  cbn [head_addr head from_option fst free_along]. rewrite isnull_false by done.
  erewrite bind_step by (by apply load_step). erewrite bind_step by (apply free_step; [done|by eexists]). cbn [dlist_next d_data].
  destruct (IH (delete a h) fuel a Hnd) as (h' & E & Hfr); [|lia|].
  { eapply dseg_ext; [|exact Hs]. intros x Hx. apply lookup_delete_ne. congruence. }
  exists h'. erewrite bind_step by exact E. split; [done|]. intros x. rewrite Hfr. cbn [addrs fmap list_fmap fst].
  destruct (decide (x = a)) as [->|Hx].
  - rewrite (decide_True (P := a ∈ a :: _)) by left. case_decide; [done|apply lookup_delete_eq].
  - rewrite lookup_delete_ne by done. apply decide_ext. unfold addrs. set_solver.
Qed.

Lemma last_addr_snoc l a d : last_addr (l ++ [(a, d)]) = a.
Proof. unfold last_addr. by rewrite last_snoc. Qed.

Lemma free_prev_spec l : forall h fuel next, NoDup (addrs l) -> dseg h 0 l next -> length l < fuel ->
  exists h', free_along fuel dlist_prev (last_addr l) h = Some (reverse l.*2, h') /\ frees h l h'.
Proof.
  induction l as [|[a d] l IH] using rev_ind; intros h [|fuel] next Hnd Hs Hf; rewrite ?length_app in Hf; cbn [length] in Hf; [lia|by eexists|lia|].
  apply dseg_app in Hs as [Hs (Ha & Hl & _)]. cbn [head from_option fst] in Hs. fold (last_addr l) in Hl.
  unfold addrs in Hnd. rewrite fmap_app in Hnd. apply NoDup_app in Hnd as (Hnd & Hx & _).
  rewrite last_addr_snoc. cbn [free_along]. rewrite isnull_false by done.
  erewrite bind_step by (by apply load_step). erewrite bind_step by (apply free_step; [done|by eexists]). cbn [dlist_prev d_data].
  destruct (IH (delete a h) fuel a Hnd) as (h' & E & Hfr); [|lia|].
  { eapply dseg_ext; [|exact Hs]. intros x Hin. apply lookup_delete_ne. intros <-. apply (Hx _ Hin). left. }
  exists h'. erewrite bind_step by exact E. split; [by rewrite fmap_app, reverse_app|]. intros x. rewrite Hfr.
  unfold addrs. rewrite fmap_app. destruct (decide (x = a)) as [->|Hne].
  - rewrite (decide_True (P := a ∈ _ ++ _)) by (apply elem_of_app; right; left). case_decide; [done|apply lookup_delete_eq].
  - rewrite lookup_delete_ne by done. apply decide_ext. rewrite elem_of_app. cbn. set_solver.
Qed.

(** Destroying a list from any of its entries frees every entry once and no other; the destructor gets all data. *)
Theorem dlist_destroy_spec h l1 a d l2 : dlist h (l1 ++ (a, d) :: l2) ->
  exists h', dlist_destroy_list true a h = Some (l2.*2 ++ d :: reverse l1.*2, h') /\ frees h (l1 ++ (a, d) :: l2) h'.
Proof.
  intros Hd. pose proof Hd as [Hnd Hseg].
  pose proof (heap_room h _ Hnd (fun x Hx => proj2 (dseg_in _ _ _ _ _ Hseg Hx))) as Hroom. rewrite length_app in Hroom. cbn [length] in Hroom.
  apply dlist_middle in Hd as ((N1 & N2 & Na1 & Na2 & Nx) & H1 & Ha & Hl & H2).
  unfold dlist_destroy_list. rewrite isnull_false by done. erewrite bind_step by (by apply load_step). cbn [dlist_next].
  destruct (free_next_spec l2 h (S (size h)) a N2 H2) as (h1 & E1 & F1); [lia|].
  erewrite bind_step by exact E1.
  destruct (free_prev_spec (l1 ++ [(a, d)]) h1 (S (size h)) (head_addr l2)) as (h2 & E2 & F2).
  - unfold addrs. rewrite fmap_app, NoDup_app. split_and!; [done|set_solver|apply NoDup_singleton].
  - apply (dseg_ext h); [|apply dseg_app; by split]. intros x Hx. rewrite F1, decide_False; [done|].
    unfold addrs in Hx. rewrite fmap_app, elem_of_app in Hx. intros Hx2. destruct Hx as [Hx|Hx]; [by eapply Nx|].
    apply list_elem_of_singleton in Hx. cbn in Hx. congruence.
  - rewrite length_app. cbn. lia.
  - rewrite last_addr_snoc in E2. exists h2. erewrite bind_step by exact E2. split; [by rewrite fmap_app, reverse_app|].
    intros x. rewrite F2, F1. unfold addrs. rewrite !fmap_app, fmap_cons. cbn [fmap list_fmap fst].
    repeat case_decide; set_solver.
Qed.

(** ** Searching backwards goes forwards *)

Definition demo_heap : heap := <[1 := DEntry 10 2 0]> (<[2 := DEntry 20 3 1]> (<[3 := DEntry 30 0 2]> ∅)).
Definition demo_cmp (x y : Z) : Z := x - y.

Example demo_list : dlist demo_heap [(1, 10%Z); (2, 20%Z); (3, 30%Z)].
Proof. split; [apply (bool_decide_unpack _); vm_compute; done|]. cbn. done. Qed.

(** Data that is in the list two entries earlier is not found, and a second copy of it is inserted as
    unique. *)
Theorem find_misses_earlier : dlist_find demo_cmp 3 10 demo_heap = Some (Some 0, demo_heap) /\
  exists h, dlist_insert_unique demo_cmp 4 3 10 demo_heap = Some (Some 4, h) /\ dlist h [(1, 10%Z); (2, 20%Z); (4, 10%Z); (3, 30%Z)].
Proof.
  split; [vm_compute; reflexivity|]. eexists. split; [vm_compute; reflexivity|].
  split; [apply (bool_decide_unpack _); vm_compute; done|]. cbn. done.
Qed.
