(* ===== verification/Sql.v ===== *)
(** * The daemon's database connection

    daemon/sql.c: one connection that is made when needed, statements that are repeated once over a
    new connection when the old one is gone, and commits after a number of statements or
    seconds.  The driver (libdbi behind daemon/db_wrap_dbi.c) is what its coming calls are going to
    answer.  The database keeps what was committed; what was not is lost with the connection.
    An assertion that fails aborts the daemon and gives [None]. *)

From S2P Require Import Prelude Cfgfile Config.

(** ** Statements *)

(** A value in a statement: a number, or a text that sql_quote quoted, [None] when there was none. *)
Inductive sql_value := VNum (z : Z) | VText (t : option text).

(** INSERT INTO a table, or any other statement. *)
Inductive stmt := Insert (table : text) (row : list (string * sql_value)) | Other (sql : text).

(** ** The connection *)

(** What making a connection is going to give: no driver, a refusal, or a connection that takes
    the setting of auto-commit or does not. *)
Inductive conn_res := NoDriver | Refused | Accepted (auto_ok : bool).

(** The variables of daemon/sql.c; [sq_conn] and [sq_result] say whether db.conn and db.result are
    set.  Then the database: the statements it has run and answered for, the latest first, how many of them, the
    oldest, are committed, whether it commits by itself, and what it ever ran, answered for or not.  Then what the
    coming calls are going to answer: is_connected, connecting, and queries, and whether statements that are going to be answered
    with an error are run nevertheless (the connection may break between the two). *)
Record sqldb := Sqldb {
  use_database : bool; sq_conn : bool; sq_result : bool; sq_mysql : bool; sq_crashed : bool;
  commit_interval : Z; commit_queries : Z; last_commit : Z; sq_queries : Z; total_queries : Z; sq_now : Z;
  sq_ran : list stmt; sq_durable : nat; sq_auto : bool; sq_log : list stmt; sq_error : Z;
  sq_alive : list bool; sq_conns : list conn_res; sq_rcs : list Z; sq_lost : list bool }.

#[export] Instance eta_sqldb : Eta sqldb := fun r =>
  Sqldb (use_database r) (sq_conn r) (sq_result r) (sq_mysql r) (sq_crashed r) (commit_interval r)
    (commit_queries r) (last_commit r) (sq_queries r) (total_queries r) (sq_now r) (sq_ran r) (sq_durable r)
    (sq_auto r) (sq_log r) (sq_error r) (sq_alive r) (sq_conns r) (sq_rcs r) (sq_lost r).

(** Computations that can abort. *)
Definition DB (A : Type) : Type := sqldb -> option (A * sqldb).

#[export] Instance DB_ret : MRet DB := fun A a s => Some (a, s).
#[export] Instance DB_bind : MBind DB := fun A B k c s => match c s with Some (a, s) => k a s | None => None end.

Definition dgets {A} (f : sqldb -> A) : DB A := fun s => Some (f s, s).
Definition dmodify (f : sqldb -> sqldb) : DB unit := fun s => Some (tt, f s).
Definition assert (b : bool) : DB unit := fun s => if b then Some (tt, s) else None.

(** What the database does when a connection ends: what is not committed is undone. *)
Definition rollback : DB unit := dmodify (fun s => s <| sq_ran := drop (length (sq_ran s) - sq_durable s) (sq_ran s) |>).

(** daemon/sql.c:111-117 sql_free_result *)
Definition sql_free_result : DB unit := dmodify (fun s => s <| sq_result := false |>).

(** The answer of the driver's is_connected. *)
Definition api_is_connected : DB bool := fun s =>
  match sq_alive s with
  | [] => Some (true, s)
  | b :: l => Some (b, s <| sq_alive := l |>)
  end.

(** daemon/sql.c:467-479 sql_close *)
Definition sql_close : DB Z :=
  use ← dgets use_database;
  if negb use then mret 0 else
  sql_free_result ;;
  conn ← dgets sq_conn;
  (if conn : bool then rollback ;; dmodify (fun s => s <| sq_conn := false |>) else mret tt) ;;
  mret 0.

(** daemon/sql.c:318-321 sql_is_connected -- without reconnecting. *)
Definition is_connected0 : DB bool :=
  conn ← dgets sq_conn; if conn : bool then api_is_connected else mret false.

(** What the next attempt to connect gives. *)
Definition next_conn : DB conn_res := fun s =>
  match sq_conns s with
  | [] => Some (Accepted true, s)
  | r :: l => Some (r, s <| sq_conns := l |>)
  end.

(** daemon/sql.c:436-460 sql_init -- auto-commit, or a commit after each statement in its place. *)
Definition set_auto_commit (ok : bool) : DB unit :=
  dmodify (fun s =>
    let set := (commit_interval s =? 0) && (commit_queries s =? 0) in
    s <| sq_auto := set && ok |> <| commit_queries := if set && negb ok then 1 else commit_queries s |>
      <| last_commit := sq_now s |>).

(** daemon/sql.c:339-464 sql_init -- without what it logs.  A connection that is there but gone is
    replaced. *)
Definition sql_init : DB Z :=
  use ← dgets use_database;
  if negb use then mret (-1) else
  c ← is_connected0;
  if c : bool then mret 0 else
  sql_free_result ;;
  r ← next_conn;
  match r with
  | NoDriver => mret (-1)
  | Refused => rollback ;; dmodify (fun s => s <| sq_conn := true |>) ;; sql_close ;; mret (-1)
  | Accepted ok => rollback ;; dmodify (fun s => s <| sq_conn := true |>) ;; set_auto_commit ok ;; mret 0
  end.

(** daemon/sql.c:316-324 sql_is_connected *)
Definition sql_is_connected (reconnect : bool) : DB bool :=
  c ← is_connected0;
  if c || negb reconnect then mret c else r ← sql_init; mret (r =? 0).

(** daemon/sql.c:482-486 sql_reinit *)
Definition sql_reinit : DB Z := sql_close ;; sql_init.

(** daemon/sql.c:60-73 sql_quote -- without a return when there is no connection.  [src] is quoted
    by the driver, which gives NULL for an empty text. *)
Definition sql_quote (quote : text -> text) (src : option text) : DB (option text) :=
  sql_is_connected true ;;
  conn ← dgets sq_conn;
  assert conn ;;
  mret (match src with Some (c :: t) => Some (quote (c :: t)) | _ => None end).

(** daemon/sql.c:124-153 sql_try_commit -- drivers have a commit function. *)
Definition sql_try_commit (query : Z) : DB unit :=
  dmodify (fun s =>
    if negb (sq_conn s) || negb (use_database s) then s else
    let s := if query >? 0 then s <| sq_queries ::= fun n => n + query |> else s in
    if negb (sq_queries s =? 0) &&
       ((query =? -1) ||
        (negb (commit_interval s =? 0) && (last_commit s + commit_interval s <=? sq_now s)) ||
        (negb (commit_queries s =? 0) && (commit_queries s <=? sq_queries s)))
    then s <| sq_durable := length (sq_ran s) |> <| last_commit := sq_now s |>
           <| total_queries ::= fun t => t + sq_queries s |> <| sq_queries := 0 |>
    else s).

(** The driver is given a statement: 0, or the number of an error.  After an error nobody knows whether the statement was run. *)
Definition query_result (q : stmt) : DB Z := fun s =>
  let '(rc, s) := match sq_rcs s with [] => (0, s) | r :: l => (r, s <| sq_rcs := l |>) end in
  let s := s <| sq_error := rc |> in
  Some (rc,
    if rc =? 0 then s <| sq_ran ::= cons q |> <| sq_log ::= cons q |>
                      <| sq_durable := if sq_auto s then S (length (sq_ran s)) else sq_durable s |>
    else match sq_lost s with
         | [] => s
         | run :: l => s <| sq_lost := l |> <| sq_log ::= fun log => if run : bool then q :: log else log |>
         end).

(** daemon/sql.c:155-186 run_query *)
Definition run_query (q : stmt) : DB Z :=
  conn ← dgets sq_conn;
  r ← (if conn : bool then mret 0 else sql_init);
  if r <? 0 then mret (-1) else
  conn ← dgets sq_conn;
  assert conn ;;
  rc ← query_result q;
  if negb (rc =? 0) then mret rc else
  sql_try_commit 1 ;;
  res ← dgets sq_result;
  assert (negb res) ;;
  dmodify (fun s => s <| sq_result := true |>) ;;
  mret rc.

(** daemon/sql.c:86-97 sql_error -- the number; 255 stands for DB_WRAP_E_UNKNOWN_ERROR. *)
Definition sql_error : DB Z := dgets (fun s => if sq_conn s then sq_error s else 255).

(** daemon/sql.c:255-276 sql_vquery -- whether an error of MySQL is worth a new connection. *)
Definition wants_reconnect (db_error : Z) : bool :=
  negb (bool_decide (db_error ∈ [1062; 1068; 1146; 2029; 145; 1194; 1195])).

(** daemon/sql.c:204-303 sql_vquery -- and sql_query, which only collects the arguments. *)
Definition sql_vquery (q : stmt) : DB Z :=
  use ← dgets use_database;
  if negb use then mret (-1) else
  c ← sql_is_connected true;
  if negb c then mret (-1) else
  sql_free_result ;;
  rc ← run_query q;
  (if rc =? 0 then mret tt else
   db_error ← sql_error;
   mysql ← dgets sq_mysql;
   (if mysql && bool_decide (db_error ∈ [145; 1194; 1195]) then dmodify (fun s => s <| sq_crashed := true |>) else mret tt) ;;
   if mysql && wants_reconnect db_error then
     r ← sql_reinit;
     if r =? 0 then run_query q ;; mret tt else mret tt
   else mret tt) ;;
  res ← dgets sq_result;
  mret (if res : bool then 0 else 1).

(** daemon/sql.c:326-337 sql_repair_table *)
Definition sql_repair_table (table : text) : DB Z :=
  mysql ← dgets sq_mysql;
  if negb mysql then mret 0 else
  result ← sql_vquery (Other (str "REPAIR TABLE " ++ table));
  (if result =? 0 then dmodify (fun s => s <| sq_crashed := false |>) else mret tt) ;;
  mret result.

(** ** Statements are run once *)

(** The parts that connecting does not touch. *)
Definition settled (s s' : sqldb) : Prop :=
  sq_log s' = sq_log s /\ use_database s' = use_database s /\ sq_mysql s' = sq_mysql s /\ sq_rcs s' = sq_rcs s /\ sq_lost s' = sq_lost s.

(** Runs a computation on a state given by its fields. *)
Ltac run_db := cbv [mbind DB_bind mret DB_ret dgets dmodify assert rollback sql_free_result api_is_connected is_connected0
  next_conn set_auto_commit sql_close sql_init sql_is_connected sql_reinit sql_try_commit query_result run_query
  sql_error upd eta_rec eta_sqldb use_database sq_conn sq_result sq_mysql sq_crashed commit_interval commit_queries
  last_commit sq_queries total_queries sq_now sq_ran sq_durable sq_auto sq_log sq_error sq_alive sq_conns sq_rcs sq_lost negb orb andb] in *.

Lemma close_spec s : use_database s = true ->
  exists s', sql_close s = Some (0, s') /\ settled s s' /\ sq_result s' = false /\ sq_conn s' = false.
Proof.
  intros Hu. destruct s as [use conn]. cbn in Hu. subst. run_db. destruct conn; (eexists; split; [reflexivity|]); done.
Qed.

Lemma init_spec s : use_database s = true ->
  exists r s', sql_init s = Some (r, s') /\ settled s s' /\ (r = 0 \/ r = -1) /\ (r = 0 -> sq_conn s' = true) /\
    (sq_result s = false -> sq_result s' = false).
Proof.
  intros Hu. destruct s as [use conn res my cr ci cq lc qs tq now ran dur auto lg er al cs rcs lo]. cbn in Hu. subst. run_db.
  destruct conn; [destruct al as [|[] al]|]; try (eexists _, _; split; [reflexivity|]; unfold settled; cbn; split_and!; auto; done);
    destruct cs as [|[| |ok] cs]; (eexists _, _; split; [reflexivity|]; unfold settled; cbn; split_and!; auto; done).
Qed.

Lemma try_commit_spec k s :
  exists s', sql_try_commit k s = Some (tt, s') /\ settled s s' /\ sq_result s' = sq_result s /\ sq_conn s' = sq_conn s.
Proof.
  eexists. split; [reflexivity|]. destruct (negb (sq_conn s) || negb (use_database s)); [done|].
  cbn zeta. destruct (k >? 0); case_match; done.
Qed.

(** The answer to the next statement. *)
Definition next_answer (s : sqldb) : Z := hd 0 (sq_rcs s).

(** What the database runs for a statement that it is given. *)
Lemma query_result_spec q s : exists rc s', query_result q s = Some (rc, s') /\ rc = next_answer s /\
  (use_database s', sq_mysql s', sq_result s', sq_conn s', sq_error s') = (use_database s, sq_mysql s, sq_result s, sq_conn s, rc) /\
  (rc = 0 /\ sq_log s' = q :: sq_log s \/
   rc <> 0 /\ exists n, (n <= 1)%nat /\ sq_log s' = replicate n q ++ sq_log s /\ (sq_lost s = [] -> n = 0%nat /\ sq_lost s' = [])).
Proof.
  unfold query_result, next_answer. destruct (sq_rcs s) as [|r l] eqn:E; cbn [hd].
  - eexists _, _. split; [reflexivity|]. split_and!; [done..|by left].
  - destruct (Z.eqb_spec r 0) as [->|Hr]; (eexists _, _; split; [reflexivity|]).
    + split_and!; [done..|by left].
    + cbn. destruct (sq_lost s) as [|[] lo] eqn:El; cbn; split_and!; try done; right; (split; [done|]);
        [exists 0%nat|exists 1%nat|exists 0%nat]; split_and!; (done || lia).
Qed.

(** A statement over a connection, when no result is held. *)
Lemma run_query_spec q s : use_database s = true -> sq_result s = false ->
  exists rc s', run_query q s = Some (rc, s') /\ use_database s' = true /\ sq_mysql s' = sq_mysql s /\
    (rc = 0 /\ sq_result s' = true /\ sq_log s' = q :: sq_log s \/
     rc <> 0 /\ sq_result s' = false /\
       exists n, (n <= 1)%nat /\ sq_log s' = replicate n q ++ sq_log s /\ (sq_lost s = [] -> n = 0%nat /\ sq_lost s' = [])) /\
    (sq_conn s = true -> rc = next_answer s /\ (rc <> 0 -> sq_conn s' = true /\ sq_error s' = rc)).
Proof.
  intros Hu Hr.
  assert (exists r s1, (if sq_conn s then mret 0 else sql_init) s = Some (r, s1) /\ settled s s1 /\ (r = 0 \/ r = -1) /\
    (r = 0 -> sq_conn s1 = true) /\ sq_result s1 = false /\ (sq_conn s = true -> r = 0)) as (r & s1 & H1 & (Hl & Hu1 & Hm & Hrcs & Hlo) & Hr1 & Hc & Hres & Hrc).
  { destruct (sq_conn s) eqn:Ec; [exists 0, s; unfold settled; by auto 10|]. destruct (init_spec s Hu) as (r & s1 & ? & ? & ? & ? & ?).
    exists r, s1. split_and!; auto; congruence. }
  unfold run_query. unfold mbind at 1, DB_bind at 1, dgets at 1. cbn beta iota zeta. unfold mbind at 1, DB_bind at 1. rewrite H1.
  unfold next_answer. rewrite <- Hl, <- Hm, <- Hrcs, <- Hlo. fold (next_answer s1). rewrite Hu in Hu1. clear Hl Hm Hrcs Hlo H1.
  destruct Hr1 as [-> | ->]; cbn [Z.ltb Z.compare]; [specialize (Hc eq_refl)|].
  2: { eexists _, _; split; [reflexivity|]. split_and!; try done; [right; split_and!; try done; exists 0%nat; split_and!; (done || lia)|].
       intros Hs%Hrc. discriminate. }
  unfold mbind, DB_bind, dgets, assert. cbv beta iota. rewrite Hc.
  destruct (query_result_spec q s1) as (rc & s2 & -> & -> & P & Hcase). injection P as P1 P2 P3 P4 P5.
  destruct (Z.eqb_spec (next_answer s1) 0) as [E0|E0]; cbn [negb].
  - destruct (try_commit_spec 1 s2) as (s4 & -> & (Q1 & Q2 & Q3 & _) & Q4 & Q5). rewrite Q4, P3, Hres. cbn [negb]. rewrite E0.
    eexists _, _. split; [reflexivity|]. cbn. rewrite Q1, Q2, Q3, P1, P2, Hu1. split_and!; [done..| |done].
    left. destruct Hcase as [[_ ->]|[? _]]; done.
  - eexists _, _. split; [reflexivity|]. rewrite P1, P2, P3, P4, P5, Hu1. split_and!; [done..| |done].
    right. destruct Hcase as [[? _]|[_ H]]; [done|]. done.
Qed.

Lemma is_connected_spec s : use_database s = true ->
  exists b s', sql_is_connected true s = Some (b, s') /\ settled s s' /\ (b = true -> sq_conn s' = true).
Proof.
  intros Hu. assert (exists b s1, is_connected0 s = Some (b, s1) /\ settled s s1 /\ (b = true -> sq_conn s1 = true)) as (b & s1 & E & (A & B & C & D & F) & G).
  { unfold is_connected0, api_is_connected, mbind, DB_bind, dgets.
    destruct (sq_conn s) eqn:Ec; [destruct (sq_alive s)|]; eexists _, _; (split; [reflexivity|split; [done|cbn; congruence]]). }
  unfold sql_is_connected, mbind, DB_bind. rewrite E. destruct b; cbn [orb negb]; [by eexists _, _|].
  destruct (init_spec s1 ltac:(congruence)) as (r & s2 & -> & (A2 & B2 & C2 & D2 & F2) & _ & Hc & _). eexists _, _. split; [reflexivity|].
  unfold settled. split_and!; try congruence. by intros ?%Z.eqb_eq%Hc.
Qed.

Lemma reinit_spec s : use_database s = true ->
  exists r s', sql_reinit s = Some (r, s') /\ settled s s' /\ sq_result s' = false.
Proof.
  intros Hu. destruct (close_spec s Hu) as (s1 & E1 & (A & B & C & D & F) & R1 & _).
  destruct (init_spec s1 ltac:(congruence)) as (r & s2 & E2 & (A2 & B2 & C2 & D2 & F2) & _ & _ & R2).
  unfold sql_reinit, mbind, DB_bind. rewrite E1, E2. eexists _, _. split; [reflexivity|]. unfold settled. split_and!; auto; congruence.
Qed.

(** What a statement is given to the database once more for. *)
Definition sent_again (s : sqldb) : bool := negb (next_answer s =? 0) && sq_mysql s && wants_reconnect (next_answer s).

(** The attempts that are made at a statement; [n] times it is run. *)
Record attempts (q : stmt) (s : sqldb) (r : Z) (s' : sqldb) (n : nat) : Prop := Attempts {
  at_use : use_database s' = use_database s;
  at_log : sq_log s' = replicate n q ++ sq_log s;
  at_most : (n <= if sent_again s then 2 else 1)%nat;
  at_least : r = 0 -> (1 <= n)%nat;
  at_known : sq_lost s = [] -> n = if r =? 0 then 1%nat else 0%nat }.

Lemma query_attempts q s : exists r s' n, sql_vquery q s = Some (r, s') /\ attempts q s r s' n.
Proof.
  assert (none : forall r s', r <> 0 -> use_database s' = use_database s -> sq_log s' = sq_log s -> attempts q s r s' 0).
  { intros r s' Hr Hu Hl. split; [done..|by destruct (sent_again s); lia|done|]. intros _. by rewrite (proj2 (Z.eqb_neq r 0)). }
  unfold sql_vquery. destruct (use_database s) eqn:Hu.
  2: { unfold mbind, DB_bind, dgets. rewrite Hu. eexists _, _, 0%nat. split; [reflexivity|]. by apply none. }
  destruct (is_connected_spec s Hu) as (c & s1 & E1 & (L1 & U1 & M1 & A1 & O1) & C1).
  unfold mbind at 1, DB_bind at 1, dgets at 1. rewrite Hu. cbn [negb]. unfold mbind at 1, DB_bind at 1. rewrite E1.
  destruct c; cbn [negb]; [|eexists _, _, 0%nat; split; [reflexivity|]; apply none; congruence]. specialize (C1 eq_refl).
  set (s2 := s1 <| sq_result := false |>). unfold mbind at 1, DB_bind at 1, sql_free_result at 1, dmodify at 1. fold s2.
  destruct (run_query_spec q s2 ltac:(cbn; congruence) eq_refl) as (rc & s3 & E3 & U3 & M3 & Hcase & Hans).
  unfold mbind at 1, DB_bind at 1. rewrite E3. change (sq_log s2) with (sq_log s1) in Hcase. change (sq_lost s2) with (sq_lost s1) in Hcase.
  change (sq_mysql s2) with (sq_mysql s1) in M3. rewrite L1, O1 in Hcase. rewrite M1 in M3.
  destruct (Hans C1) as [Ha He]. change (next_answer s2) with (hd 0 (sq_rcs s1)) in Ha. rewrite A1 in Ha. fold (next_answer s) in Ha.
  assert (fin : forall (s4 : sqldb) n, use_database s4 = true -> sq_log s4 = replicate n q ++ sq_log s ->
    (n <= if sent_again s then 2 else 1)%nat -> (sq_result s4 = true -> (1 <= n)%nat) ->
    (sq_lost s = [] -> n = if sq_result s4 then 1%nat else 0%nat) ->
    exists r s' n, (res ← dgets sq_result; mret (if res : bool then 0 else 1)) s4 = Some (r, s') /\ attempts q s r s' n).
  { intros s4 n U4 L4 Hm Hl Hk. eexists _, _, n. split; [reflexivity|]. split; [congruence|done..| |].
    - destruct (sq_result s4); [auto|done].
    - intros H. rewrite (Hk H). by destruct (sq_result s4). }
  unfold mbind at 1, DB_bind at 1. destruct Hcase as [(E0 & R & L)|(Hne & R & n & Hn & L & Hk)].
  - rewrite E0. apply (fin s3 1%nat); [done|done|by destruct (sent_again s); lia|lia|by rewrite R].
  - destruct (He Hne) as [Hc3 He3]. rewrite (proj2 (Z.eqb_neq rc 0)) by done. unfold mbind at 1, DB_bind at 1, sql_error, dgets at 1. cbv beta iota.
    unfold mbind at 1, DB_bind at 1, dgets at 1. cbv beta iota. rewrite Hc3, He3. unfold mbind at 1, DB_bind at 1.
    assert (exists s4, (if sq_mysql s3 && bool_decide (rc ∈ [145; 1194; 1195])
      then dmodify (fun s => s <| sq_crashed := true |>) else mret tt) s3 = Some (tt, s4) /\ use_database s4 = true /\
      sq_result s4 = false /\ sq_log s4 = sq_log s3 /\ sq_lost s4 = sq_lost s3) as (s4 & -> & U4 & R4 & L4 & O4).
    { destruct (_ && _); eexists; (split; [reflexivity|]); cbn; auto. }
    assert (Hs : sent_again s = sq_mysql s3 && wants_reconnect rc).
    { unfold sent_again. rewrite <- Ha, M3, (proj2 (Z.eqb_neq rc 0)) by done. done. }
    destruct (sq_mysql s3 && wants_reconnect rc).
    2: { apply (fin s4 n); rewrite ?R4, ?L4, ?Hs; try done. intros H. by destruct (Hk H). }
    destruct (reinit_spec s4 U4) as (r & s5 & E5 & (L5 & U5 & M5 & A5 & O5) & R5). unfold mbind at 1, DB_bind at 1. rewrite E5.
    assert (Hn2 : (n <= if sent_again s then 2 else 1)%nat) by (rewrite Hs; lia).
    destruct (r =? 0).
    2: { apply (fin s5 n); rewrite ?R5, ?L5, ?L4; try done; [congruence|]. intros H. by destruct (Hk H). }
    destruct (run_query_spec q s5 ltac:(congruence) R5) as (rc2 & s6 & E6 & U6 & _ & Hc2 & _).
    unfold mbind at 1, DB_bind at 1. rewrite E6. rewrite L5, L4, L, O5, O4 in Hc2. destruct Hc2 as [(_ & R6 & L6)|(_ & R6 & m & Hm & L6 & Hk2)].
    + apply (fin s6 (S n)); [done|done|rewrite Hs; lia|lia|]. rewrite R6. intros H. by destruct (Hk H) as [-> _].
    + apply (fin s6 (m + n)%nat); [done|by rewrite L6, replicate_add, app_assoc|rewrite Hs; lia|by rewrite R6|].
      rewrite R6. intros H. destruct (Hk H) as [-> H2]. by destruct (Hk2 H2) as [-> _].
Qed.


(** ** What a broken connection can cost *)

(** The statements that the database would lose with the connection. *)
Definition at_risk (s : sqldb) : nat := length (sq_ran s) - sq_durable s.

(** Commits by number of statements are configured, and are up to date. *)
Record commits_ok (s : sqldb) : Prop := CommitsOk {
  co_limit : 0 < commit_queries s; co_auto : sq_auto s = false; co_durable : (sq_durable s <= length (sq_ran s))%nat;
  co_risk : Z.of_nat (at_risk s) <= sq_queries s; co_queries : sq_queries s < commit_queries s }.

Definition keeps (I : sqldb -> Prop) {A} (c : DB A) : Prop := forall s a s', I s -> c s = Some (a, s') -> I s'.

Lemma keeps_ret I {A} (a : A) : keeps I (mret a).
Proof. intros s b s' Hs [= <- <-]. done. Qed.

Lemma keeps_gets I {A} (f : sqldb -> A) : keeps I (dgets f).
Proof. intros s b s' Hs [= <- <-]. done. Qed.

Lemma keeps_modify I f : (forall s, I s -> I (f s)) -> keeps I (dmodify f).
Proof. intros Hf s b s' Hs [= <- <-]. auto. Qed.

Lemma keeps_bind I {A B} (c : DB A) (k : A -> DB B) : keeps I c -> (forall a, keeps I (k a)) -> keeps I (c ≫= k).
Proof.
  intros Hc Hk s b s' Hs. unfold mbind, DB_bind. destruct (c s) as [[a s1]|] eqn:E; [|done]. intros H. exact (Hk a s1 b s' (Hc s a s1 Hs E) H).
Qed.

Lemma keeps_assert I b : keeps I (assert b).
Proof. intros s a s' Hs. unfold assert. destruct b; [|done]. by intros [= <- <-]. Qed.

Create HintDb keeps.
#[export] Hint Resolve keeps_ret keeps_gets keeps_assert : keeps.

Ltac keep := repeat first [ solve [auto with keeps] | apply keeps_bind; [|intros] | progress case_match | progress split_if ].

Lemma keeps_neutral f :
  (forall s, (commit_queries (f s), sq_auto (f s), sq_durable (f s), sq_ran (f s), sq_queries (f s))
           = (commit_queries s, sq_auto s, sq_durable s, sq_ran s, sq_queries s)) -> keeps commits_ok (dmodify f).
Proof.
  intros Hf. apply keeps_modify. intros s [A B C D E]. specialize (Hf s). simplify_eq.
  constructor; unfold at_risk in *; congruence.
Qed.

Lemma rollback_keeps : keeps commits_ok rollback.
Proof.
  apply keeps_modify. intros s [A B C D E]. constructor; cbn; try done; unfold at_risk in *; cbn; rewrite ?length_drop; lia.
Qed.

Lemma alive_keeps : keeps commits_ok api_is_connected.
Proof.
  intros s b s' [A B C D E]. unfold api_is_connected. destruct (sq_alive s); intros [= <- <-]; by constructor.
Qed.

Lemma next_conn_keeps : keeps commits_ok next_conn.
Proof. intros s b s' [A B C D E]. unfold next_conn. destruct (sq_conns s); intros [= <- <-]; by constructor. Qed.

Lemma auto_keeps ok : keeps commits_ok (set_auto_commit ok).
Proof.
  apply keeps_modify. intros s [A B C D E]. rewrite (proj2 (Z.eqb_neq (commit_queries s) 0)) by lia.
  rewrite andb_false_r. by constructor.
Qed.

#[local] Hint Resolve rollback_keeps alive_keeps next_conn_keeps auto_keeps : keeps.
#[local] Hint Extern 3 (keeps commits_ok (dmodify _)) => apply keeps_neutral; done : keeps.

Lemma free_keeps : keeps commits_ok sql_free_result.
Proof. by apply keeps_neutral. Qed.
#[local] Hint Resolve free_keeps : keeps.

Lemma close_keeps : keeps commits_ok sql_close.
Proof. unfold sql_close. keep. Qed.
#[local] Hint Resolve close_keeps : keeps.

Lemma init_keeps : keeps commits_ok sql_init.
Proof. unfold sql_init, is_connected0. keep. Qed.
#[local] Hint Resolve init_keeps : keeps.

Lemma is_connected_keeps : keeps commits_ok (sql_is_connected true).
Proof. unfold sql_is_connected, is_connected0. keep. Qed.

Lemma reinit_keeps : keeps commits_ok sql_reinit.
Proof. unfold sql_reinit. keep. Qed.

Lemma try_commit_keeps k : k <= 0 -> keeps commits_ok (sql_try_commit k).
Proof.
  intros Hk. apply keeps_modify. intros s [A B C D E]. destruct (negb (sq_conn s) || negb (use_database s)); [by constructor|].
  assert (k >? 0 = false) as -> by lia. cbn zeta. case_match; [|by constructor].
  constructor; cbn; unfold at_risk; cbn; try done; lia.
Qed.
#[local] Hint Resolve is_connected_keeps reinit_keeps : keeps.

(** A statement that was run is counted, and committed when it completes the number. *)
Lemma counted_keeps q s : commits_ok s -> sq_conn s = true -> use_database s = true -> forall rc s1 s2,
  query_result q s = Some (rc, s1) -> rc = 0 -> sql_try_commit 1 s1 = Some (tt, s2) -> commits_ok s2.
Proof.
  intros [A B C D E] Hc Hu rc s1 s2. unfold query_result.
  set (p := match sq_rcs s with [] => (0, s) | r :: l => (r, s <| sq_rcs := l |>) end).
  assert (commits_ok p.2 /\ sq_conn p.2 = true /\ use_database p.2 = true) as ([A' B' C' D' E'] & Hc' & Hu').
  { unfold p. destruct (sq_rcs s); cbn; split_and!; try done; by constructor. }
  destruct p as [rc' s0]. cbn [fst snd] in *. intros [= <- <-] ->. cbn. rewrite B'.
  unfold sql_try_commit, dmodify. intros [= <-]. cbn. rewrite Hc', Hu'. cbn.
  unfold at_risk in D'. case_match eqn:Ecase; (constructor; cbn; unfold at_risk; cbn; try done; try lia).
Qed.

Lemma run_query_keeps q s rc s' :
  commits_ok s -> use_database s = true -> run_query q s = Some (rc, s') -> commits_ok s'.
Proof.
  intros Hok Hu. unfold run_query.
  assert (keeps commits_ok (if sq_conn s then mret 0 else sql_init)) as Hk by keep.
  destruct (sq_conn s) eqn:Ec; unfold mbind at 1, DB_bind at 1, dgets at 1; rewrite Ec;
    unfold mbind at 1, DB_bind at 1.
  2: destruct (init_spec s Hu) as (r & s1 & E1 & (_ & U1 & _) & Hr & Hc & _); rewrite E1;
     pose proof (Hk s r s1 Hok E1) as Hok1; destruct Hr as [-> | ->]; cbn [Z.ltb Z.compare];
     [specialize (Hc eq_refl); rewrite Hu in U1; clear Hok Hu Ec E1 Hk; rename s1 into s0|by intros [= <- <-]].
  1: cbn [Z.ltb Z.compare mret DB_ret]; rename s into s0, Hok into Hok1, Ec into Hc, Hu into U1.
  all: unfold mbind at 1, DB_bind at 1, dgets at 1; unfold mbind at 1, DB_bind at 1, assert at 1; rewrite Hc;
    unfold mbind at 1, DB_bind at 1; destruct (query_result q s0) as [[rc1 s2]|] eqn:Eq; [|done];
    destruct (rc1 =? 0) eqn:Erc; cbn [negb].
  all: try (intros [= <- <-]; revert Eq; unfold query_result; destruct (sq_rcs s0) as [|x l]; intros [= <- <-]; [done|]; rewrite Erc; cbn; destruct (sq_lost s0); by destruct Hok1; constructor).
  all: apply Z.eqb_eq in Erc; unfold mbind at 1, DB_bind at 1; destruct (sql_try_commit 1 s2) as [[[] s3]|] eqn:Et; [|done];
    pose proof (counted_keeps q s0 Hok1 Hc U1 rc1 s2 s3 Eq Erc Et) as Hok3;
    unfold mbind, DB_bind, dgets, assert, dmodify; destruct (negb (sq_result s3)); [|done]; intros [= <- <-]; by destruct Hok3; constructor.
Qed.

(** The same with the database in use, which nothing changes. *)
Definition in_use (s : sqldb) : Prop := commits_ok s /\ use_database s = true.

Lemma keeps_in_use {A} (c : DB A) :
  keeps commits_ok c -> keeps (fun s => use_database s = true) c -> keeps in_use c.
Proof. intros H1 H2 s a s' [Hs Hu] E. split; [by eapply H1|by eapply H2]. Qed.

Definition used (s : sqldb) : Prop := use_database s = true.

Lemma used_modify f : (forall s, use_database (f s) = use_database s) -> keeps used (dmodify f).
Proof. intros Hf. apply keeps_modify. intros s. unfold used. by rewrite Hf. Qed.

#[local] Hint Extern 3 (keeps used (dmodify _)) => apply used_modify; intros; cbn; done : keeps.

Lemma used_alive : keeps used api_is_connected.
Proof. intros s b s' Hs. unfold api_is_connected. destruct (sq_alive s); by intros [= <- <-]. Qed.
Lemma used_conn : keeps used next_conn.
Proof. intros s b s' Hs. unfold next_conn. destruct (sq_conns s); by intros [= <- <-]. Qed.
Lemma used_result q : keeps used (query_result q).
Proof.
  intros s b s' Hs. unfold query_result. destruct (sq_rcs s) as [|r l]; intros [= <- <-]; [done|].
  destruct (r =? 0); [done|]. cbn. by destruct (sq_lost s).
Qed.

Lemma used_commit k : keeps used (sql_try_commit k).
Proof.
  apply used_modify. intros s. case_match; [done|]. cbn zeta. destruct (k >? 0); case_match; done.
Qed.

#[local] Hint Resolve used_alive used_conn used_result used_commit : keeps.

Lemma used_free : keeps used sql_free_result.
Proof. by apply used_modify. Qed.
Lemma used_rollback : keeps used rollback.
Proof. by apply used_modify. Qed.
Lemma used_auto ok : keeps used (set_auto_commit ok).
Proof. by apply used_modify. Qed.
#[local] Hint Resolve used_free used_rollback used_auto : keeps.

Lemma used_close : keeps used sql_close.
Proof. unfold sql_close. keep. Qed.
#[local] Hint Resolve used_close : keeps.

Lemma used_init : keeps used sql_init.
Proof. unfold sql_init, is_connected0. keep. Qed.
#[local] Hint Resolve used_init : keeps.

Lemma used_connected : keeps used (sql_is_connected true).
Proof. unfold sql_is_connected, is_connected0. keep. Qed.

Lemma used_run q : keeps used (run_query q).
Proof. unfold run_query. keep. Qed.

Lemma run_in_use q : keeps in_use (run_query q).
Proof.
  intros s a s' [Hs Hu] E. split; [by eapply run_query_keeps|]. by apply (used_run q s a s').
Qed.

Lemma reinit_in_use : keeps in_use sql_reinit.
Proof. apply keeps_in_use; [apply reinit_keeps|]. unfold sql_reinit. apply (keeps_bind used); [apply used_close|intros; apply used_init]. Qed.

Lemma connected_in_use : keeps in_use (sql_is_connected true).
Proof. apply keeps_in_use; [apply is_connected_keeps|apply used_connected]. Qed.

Lemma free_in_use : keeps in_use sql_free_result.
Proof. apply keeps_in_use; [apply free_keeps|apply used_free]. Qed.

Lemma crashed_in_use b : keeps in_use (dmodify (fun s => s <| sq_crashed := b |>)).
Proof. apply keeps_in_use; [by apply keeps_neutral|by apply used_modify]. Qed.

#[export] Hint Resolve run_in_use reinit_in_use connected_in_use free_in_use crashed_in_use : keeps.

Lemma vquery_in_use q : keeps in_use (sql_vquery q).
Proof. unfold sql_vquery, sql_error. keep. Qed.

Lemma try_commit_in_use : keeps in_use (sql_try_commit 0).
Proof. apply keeps_in_use; [by apply try_commit_keeps|apply used_commit]. Qed.

(** What the daemon does with its database: statements, the commit of the main loop, a new
    connection; and time passes. *)
Inductive sql_op := OpQuery (q : stmt) | OpCommit | OpReinit | OpTime (t : Z).

Definition run_op (o : sql_op) : DB unit :=
  match o with
  | OpQuery q => sql_vquery q ;; mret tt
  | OpCommit => sql_try_commit 0
  | OpReinit => sql_reinit ;; mret tt
  | OpTime t => dmodify (fun s => s <| sq_now := t |>)
  end.

Fixpoint run_ops (l : list sql_op) : DB unit :=
  match l with [] => mret tt | o :: l => run_op o ;; run_ops l end.

(** Whatever the database answers, and whenever connections break, less than [commit_queries]
    statements are waiting for a commit at any time. *)
Theorem sql_bounded_loss l s s' :
  commits_ok s -> use_database s = true -> run_ops l s = Some (tt, s') ->
  Z.of_nat (at_risk s') < commit_queries s' /\ commits_ok s'.
Proof.
  intros Hs Hu Hrun. assert (keeps in_use (run_ops l)) as Hk.
  { clear. induction l as [|o l IH]; [apply keeps_ret|]. apply keeps_bind; [|done].
    destruct o; cbn; [apply keeps_bind; [apply vquery_in_use|intros; apply keeps_ret]|apply try_commit_in_use|
      apply keeps_bind; [apply reinit_in_use|intros; apply keeps_ret]|].
    apply keeps_in_use; [by apply keeps_neutral|by apply used_modify]. }
  destruct (Hk s tt s' (conj Hs Hu) Hrun) as [Hok _]. split; [|done]. destruct Hok. lia.
Qed.

(** ** A daemon *)

Definition demo_sql (limit : Z) : sqldb :=
  Sqldb true true false true false 0 limit 0 0 0 100 [] 0 false [] 0 [] [] [] [].

Definition demo_stmt (n : Z) : stmt := Insert (str "report_data") [("timestamp"%string, VNum n)].

Example five_statements :
  exists s, run_ops (map (fun n => OpQuery (demo_stmt n)) [1; 2; 3; 4; 5]) (demo_sql 3) = Some (tt, s) /\
    sq_durable s = 3%nat /\ at_risk s = 2%nat /\ total_queries s = 3.
Proof. eexists. split; [vm_compute; reflexivity|]. done. Qed.

(** ** What can go wrong *)

(** A text is quoted when the connection is gone and cannot be made again: the daemon aborts. *)
Theorem quote_aborts :
  sql_quote id (Some (str "host")) ((demo_sql 3) <| sq_alive := [false; false] |> <| sq_conns := [Refused] |>) = None.
Proof. reflexivity. Qed.

(** A statement with an error that is not in the list, such as the one for bad syntax, closes the
    connection, and the statements that wait for a commit are gone, though they were run. *)
Theorem bad_statement_undoes_others :
  exists s, run_ops (map (fun n => OpQuery (demo_stmt n)) [1; 2; 3]) ((demo_sql 10) <| sq_rcs := [0; 0; 1064; 1064] |>) = Some (tt, s) /\
    sq_log s = [demo_stmt 2; demo_stmt 1] /\ sq_ran s = [].
Proof. eexists. split; [vm_compute; reflexivity|]. done. Qed.

(** The connection is lost after the statement was run and before the answer comes: the statement is run again, and with auto-commit
    its row is there twice. *)
Theorem lost_answer_runs_twice : exists s, sql_vquery (demo_stmt 1) ((demo_sql 0) <| sq_auto := true |> <| sq_rcs := [2013] |> <| sq_lost := [true] |>) = Some (0, s) /\
  sq_log s = [demo_stmt 1; demo_stmt 1].
Proof. eexists. split; [vm_compute; reflexivity|]. done. Qed.

(** At the end the connection is closed without a commit. *)
Theorem shutdown_undoes_pending :
  exists s, (run_ops (map (fun n => OpQuery (demo_stmt n)) [1; 2]) ;; sql_close) (demo_sql 10) = Some (0, s) /\
    sq_log s = [demo_stmt 2; demo_stmt 1] /\ sq_ran s = [].
Proof. eexists. split; [vm_compute; reflexivity|]. done. Qed.
