(* ===== verification/Daemon.v ===== *)
(** * What the daemon writes

    daemon/string_utils.c, daemon/state.c, daemon/db_updater.c and the handler of events in
    daemon/daemon.c: an event of the module, decoded, becomes rows of the database.  The numbers
    of Naemon's headers are the class [NebTypes]; the driver's quoting of texts is an argument. *)

From S2P Require Import Prelude Binlog Packet Io Merlin Pgroup Node Control Checks Hooks Commands Objects Cfgfile Config Misc Shared Sql.
#[local] Open Scope Z_scope.

(** ** Text of plugins *)

Definition backslash : ascii := "\".

(** daemon/string_utils.c:3-24 unescape_newlines -- the [n] bytes of [src]; gives those of [dest]. *)
Fixpoint unescape_newlines (src : text) : text :=
  match src with
  | [] => []
  | c :: l =>
      match l with
      | [] => [c]
      | d :: l' =>
          if Ascii.eqb c backslash && Ascii.eqb d "n" then NL :: unescape_newlines l'
          else if Ascii.eqb c backslash && Ascii.eqb d backslash then d :: unescape_newlines l'
          else c :: unescape_newlines l
      end
  end.

(** The text in a buffer ends at the first NUL. *)
Fixpoint c_str (buf : text) : text :=
  match buf with [] => [] | c :: l => if Ascii.eqb c NUL then [] else c :: c_str l end.

(** How such texts are made: newlines and backslashes are written as two characters. *)
Definition escape_char (c : ascii) : text :=
  if Ascii.eqb c NL then [backslash; "n"%char] else if Ascii.eqb c backslash then [backslash; backslash] else [c].
Definition escape_newlines (t : text) : text := flat_map escape_char t.

(** ** States seen before *)

(** daemon/state.h:7-7 CAT_STATE *)
Definition CAT_STATE (state type : Z) : Z := Z.lor state (Z.shiftl type 8).

(** daemon/state.c:10-17 state_init -- the two tables. *)
Record states := States { host_states : gmap string Z; svc_states : gmap (string * string) Z }.
Definition state_init : states := States ∅ ∅.

(** daemon/state.c:27-46 has_state_change -- the result and the new value. *)
Definition has_state_change (old state type : Z) : bool * Z :=
  let state := CAT_STATE state type in if old =? state then (false, old) else (true, state).

(** One of the tables: the first state of an object is new. *)
Definition table_has_new_state {K} `{Countable K} (k : K) (state type : Z) (m : gmap K Z) : bool * gmap K Z :=
  match m !! k with
  | None => (true, <[k := CAT_STATE state type]> m)
  | Some old => let '(b, v) := has_state_change old state type in (b, <[k := v]> m)
  end.

(** daemon/state.c:48-67 host_has_new_state *)
Definition host_has_new_state (host : option string) (state type : Z) (st : states) : bool * states :=
  match host with
  | None => (false, st)
  | Some h => let '(b, m) := table_has_new_state h state type (host_states st) in (b, States m (svc_states st))
  end.

(** daemon/state.c:69-92 service_has_new_state *)
Definition service_has_new_state (host desc : option string) (state type : Z) (st : states) : bool * states :=
  match host, desc with
  | Some h, Some d => let '(b, m) := table_has_new_state (h, d) state type (svc_states st) in (b, States (host_states st) m)
  | _, _ => (false, st)
  end.

(** ** Events *)

(** Constants of Naemon's headers; two of a switch differ. *)
Class NebTypes := {
  NEBTYPE_HOSTCHECK_PROCESSED : Z; NEBTYPE_SERVICECHECK_PROCESSED : Z;
  NEBTYPE_DOWNTIME_START : Z; NEBTYPE_DOWNTIME_STOP : Z;
  NEBTYPE_PROCESS_START : Z; NEBTYPE_PROCESS_EVENTLOOPSTART : Z;
  NEBTYPE_PROCESS_SHUTDOWN : Z; NEBTYPE_PROCESS_RESTART : Z;
  NEBATTR_CHECK_ALERT : Z; NEBATTR_CHECK_FIRST : Z;
  HARD_STATE : Z; STATE_UP : Z; STATE_OK : Z;
  downtime_types : NEBTYPE_DOWNTIME_START <> NEBTYPE_DOWNTIME_STOP;
  process_types : NoDup [NEBTYPE_PROCESS_START; NEBTYPE_PROCESS_EVENTLOOPSTART; NEBTYPE_PROCESS_SHUTDOWN; NEBTYPE_PROCESS_RESTART] }.

(** shared/shared.h:129-142 merlin_host_status -- and merlin_service_status, which has a description. *)
Record merlin_status := Status { st_nebattr : Z; st_state : monitored_object_state; st_name : option text; st_desc : option text }.

(** Naemon's nebstruct_contact_notification_method_data, as far as it is read. *)
Record notification_data := NotificationData {
  nd_type : Z; nd_start : Z; nd_end : Z; nd_contact : option text; nd_host : option text; nd_desc : option text;
  nd_command : option text; nd_reason : Z; nd_state : Z; nd_output : option text; nd_ack_author : option text;
  nd_ack_data : option text; nd_escalated : Z }.

(** daemon/db_updater.c:332-361 mrm_db_update -- the bodies it tells apart by the type of the packet;
    [check] tells the callbacks for checks from those for statuses. *)
Inductive db_body :=
  | ProcessData (type time : Z)
  | CommentData
  | DowntimeData (type time : Z) (host desc : option text)
  | FlappingData (type time : Z) (host desc : option text)
  | NotificationMethodData (p : notification_data)
  | HostStatus (check : bool) (p : merlin_status)
  | ServiceStatus (check : bool) (p : merlin_status)
  | UnknownData.

(** What the configuration says about the database. *)
Record db_conf := DbConf {
  db_log_reports : bool; db_log_notifications : bool; db_table : option text;
  host_perf_table : option text; service_perf_table : option text }.

Section Updater.
Context {NT : NebTypes} (quote : text -> text) (conf : db_conf).

(** daemon/sql.c:523-526 sql_table_name *)
Definition sql_table_name : text := default (str "report_data") (db_table conf).

(** daemon/db_updater.c:15-21 handle_host_status -- and 88-94 of handle_service_status: whether a row goes to
    the reports, and to which table the performance data. *)
Definition rpt_log (check : bool) (p : merlin_status) : bool :=
  check && db_log_reports conf && negb (Z.land (st_nebattr p) (Z.lor NEBATTR_CHECK_ALERT NEBATTR_CHECK_FIRST) =? 0).
Definition perf_log (check : bool) (table : option text) (p : merlin_status) : option text :=
  if check then match s_perf_data (st_state p) with Some (String _ _) => table | _ => None end else None.

(** daemon/db_updater.c:27-42 handle_host_status -- quoting of the output and of the long output without
    escapes. *)
Definition quote_output (p : merlin_status) : DB (option text * option text) :=
  output ← sql_quote quote (str <$> s_plugin_output (st_state p));
  unescaped ← (match s_long_plugin_output (st_state p) with
    | None => mret None
    | Some long => sql_quote quote (Some (c_str (unescape_newlines (str long ++ [NUL])))) end);
  sql_quote quote (str <$> s_long_plugin_output (st_state p)) ;;
  mret (output, unescaped).

(** The columns common to both reports, behind the names. *)
Definition state_columns (p : merlin_status) (ok : Z) (output long : option text) : list (string * sql_value) :=
  let s := st_state p in
  let hard := (s_state_type s =? HARD_STATE) || (s_current_state s =? ok) in
  [("state", VNum (s_current_state s)); ("hard", VNum (Z.b2z hard));
   ("retry", VNum (s_current_attempt s)); ("output", VText output); ("long_output", VText long);
   ("downtime_depth", VNum (s_scheduled_downtime_depth s))]%string.

(** daemon/db_updater.c:9-78 handle_host_status *)
Definition handle_host_status (check : bool) (p : merlin_status) : DB Z :=
  let rpt := rpt_log check p in
  let perf := perf_log check (host_perf_table conf) p in
  if negb rpt && negb (bool_decide (is_Some perf)) then mret 0 else
  host_name ← sql_quote quote (st_name p);
  out ← (if rpt then quote_output p else mret (None, None));
  perf_data ← (match perf with Some _ => sql_quote quote (str <$> s_perf_data (st_state p)) | None => mret None end);
  result ← (if rpt then
      sql_vquery (Insert sql_table_name
        ([("timestamp", VNum (s_last_check (st_state p))); ("event_type", VNum NEBTYPE_HOSTCHECK_PROCESSED);
          ("host_name", VText host_name)]%string ++ state_columns p STATE_UP out.1 out.2))
    else mret 0);
  match perf with
  | Some table =>
      sql_vquery (Insert table [("timestamp", VNum (s_last_check (st_state p))); ("host_name", VText host_name);
        ("perfdata", VText perf_data)]%string)
  | None => mret result
  end.

(** daemon/db_updater.c:80-156 handle_service_status *)
Definition handle_service_status (check : bool) (p : merlin_status) : DB Z :=
  let rpt := rpt_log check p in
  let perf := perf_log check (service_perf_table conf) p in
  if negb rpt && negb (bool_decide (is_Some perf)) then mret 0 else
  host_name ← sql_quote quote (st_name p);
  service_description ← sql_quote quote (st_desc p);
  out ← (if rpt then quote_output p else mret (None, None));
  perf_data ← (match perf with Some _ => sql_quote quote (str <$> s_perf_data (st_state p)) | None => mret None end);
  result ← (if rpt then
      sql_vquery (Insert sql_table_name
        ([("timestamp", VNum (s_last_check (st_state p))); ("event_type", VNum NEBTYPE_SERVICECHECK_PROCESSED);
          ("host_name", VText host_name); ("service_description", VText service_description)]%string
          ++ state_columns p STATE_OK out.1 out.2))
    else mret 0);
  match perf with
  | Some table =>
      sql_vquery (Insert table [("timestamp", VNum (s_last_check (st_state p))); ("host_name", VText host_name);
        ("service_description", VText service_description); ("perfdata", VText perf_data)]%string)
  | None => mret result
  end.

(** daemon/db_updater.c:158-200 rpt_downtime *)
Definition rpt_downtime (type time : Z) (host desc : option text) : DB Z :=
  if negb (db_log_reports conf) then mret 0 else
  if negb ((type =? NEBTYPE_DOWNTIME_START) || (type =? NEBTYPE_DOWNTIME_STOP)) then mret 0 else
  host_name ← sql_quote quote host;
  let depth := Z.b2z (type =? NEBTYPE_DOWNTIME_START) in
  match desc with
  | Some _ =>
      service_description ← sql_quote quote desc;
      sql_vquery (Insert sql_table_name [("timestamp", VNum time); ("event_type", VNum type); ("host_name", VText host_name);
        ("service_description", VText service_description); ("downtime_depth", VNum depth)]%string)
  | None =>
      sql_vquery (Insert sql_table_name [("timestamp", VNum time); ("event_type", VNum type); ("host_name", VText host_name);
        ("downtime_depth", VNum depth)]%string)
  end.

(** daemon/db_updater.c:209-221 rpt_process_data -- the type that is written. *)
Definition process_type (type : Z) : option Z :=
  if type =? NEBTYPE_PROCESS_EVENTLOOPSTART then Some NEBTYPE_PROCESS_START
  else if (type =? NEBTYPE_PROCESS_START) || (type =? NEBTYPE_PROCESS_SHUTDOWN) then Some type
  else if type =? NEBTYPE_PROCESS_RESTART then Some NEBTYPE_PROCESS_SHUTDOWN
  else None.

(** daemon/db_updater.c:202-226 rpt_process_data *)
Definition rpt_process_data (type time : Z) : DB Z :=
  if negb (db_log_reports conf) then mret 0 else
  match process_type type with
  | None => mret 0
  | Some type => sql_vquery (Insert sql_table_name [("timestamp", VNum time); ("event_type", VNum type)]%string)
  end.

(** daemon/db_updater.c:228-268 handle_flapping *)
Definition handle_flapping (type time : Z) (host desc : option text) : DB Z :=
  if negb (db_log_reports conf) then mret 0 else
  host_name ← sql_quote quote host;
  service_description ← sql_quote quote desc;
  match service_description with
  | Some d =>
      sql_vquery (Insert sql_table_name [("timestamp", VNum time); ("event_type", VNum type); ("host_name", VText host_name);
        ("service_description", VText (Some d))]%string)
  | None => sql_vquery (Insert sql_table_name [("timestamp", VNum time); ("event_type", VNum type); ("host_name", VText host_name)]%string)
  end.

(** daemon/db_updater.c:270-311 handle_contact_notification_method *)
Definition handle_contact_notification_method (p : notification_data) : DB Z :=
  if negb (db_log_notifications conf) then mret 0 else
  contact_name ← sql_quote quote (nd_contact p);
  host_name ← sql_quote quote (nd_host p);
  service_description ← sql_quote quote (nd_desc p);
  output ← sql_quote quote (nd_output p);
  ack_author ← sql_quote quote (nd_ack_author p);
  ack_data ← sql_quote quote (nd_ack_data p);
  command_name ← sql_quote quote (nd_command p);
  sql_vquery (Insert (str "notification")
    [("notification_type", VNum (nd_type p)); ("start_time", VNum (nd_start p)); ("end_time", VNum (nd_end p));
     ("contact_name", VText contact_name); ("host_name", VText host_name); ("service_description", VText service_description);
     ("command_name", VText command_name); ("reason_type", VNum (nd_reason p)); ("state", VNum (nd_state p));
     ("output", VText output); ("ack_author", VText ack_author); ("ack_data", VText ack_data);
     ("escalated", VNum (nd_escalated p))]%string).

(** daemon/db_updater.c:333-361 mrm_db_update -- the switch; -1 for a type that is not known. *)
Definition handle_body (b : db_body) : DB Z :=
  match b with
  | ProcessData type time => rpt_process_data type time
  | CommentData => mret 0
  | DowntimeData type time host desc => rpt_downtime type time host desc
  | FlappingData type time host desc => handle_flapping type time host desc
  | NotificationMethodData p => handle_contact_notification_method p
  | HostStatus check p => handle_host_status check p
  | ServiceStatus check p => handle_service_status check p
  | UnknownData => mret (-1)
  end.

(** daemon/db_updater.c:315-365 mrm_db_update -- [body] is [None] when the packet cannot be decoded. *)
Definition mrm_db_update (body : option db_body) : DB Z :=
  c ← sql_is_connected true;
  if negb c then mret 0 else
  match body with
  | None => mret 0
  | Some UnknownData => mret (-1)
  | Some b => errors ← handle_body b; sql_free_result ;; mret errors
  end.

(** daemon/daemon.c:151-164 handle_ipc_event -- [wants] is [daemon_wants] of the packet's type. *)
Definition handle_ipc_event (wants : bool) (body : option db_body) : DB Z :=
  use ← dgets use_database;
  if negb use then mret 0 else
  if negb wants then mret 0 else mrm_db_update body.

End Updater.

(** ** Text of plugins, again *)

Lemma unescape_other c l : Ascii.eqb c backslash = false -> unescape_newlines (c :: l) = c :: unescape_newlines l.
Proof. intros Hc. destruct l as [|d l]; [done|]. cbn [unescape_newlines]. by rewrite Hc. Qed.

Lemma unescape_pair c d l : unescape_newlines (c :: d :: l) =
  if Ascii.eqb c backslash && Ascii.eqb d "n" then NL :: unescape_newlines l
  else if Ascii.eqb c backslash && Ascii.eqb d backslash then d :: unescape_newlines l
  else c :: unescape_newlines (d :: l).
Proof. done. Qed.

(** Texts that were escaped are restored. *)
Theorem unescape_escape t : unescape_newlines (escape_newlines t) = t.
Proof.
  induction t as [|c t IH]; [done|]. cbn [escape_newlines flat_map]. fold (escape_newlines t). unfold escape_char.
  destruct (Ascii.eqb_spec c NL) as [->|Hn]; [cbn; by rewrite IH|].
  destruct (Ascii.eqb_spec c backslash) as [->|Hb]; [cbn; by rewrite IH|].
  cbn [app]. rewrite unescape_other by (by apply Ascii.eqb_neq). by rewrite IH.
Qed.

Lemma pairs_ind (P : text -> Prop) :
  P [] -> (forall c, P [c]) -> (forall c d l, P l -> P (d :: l) -> P (c :: d :: l)) -> forall l, P l.
Proof.
  intros H0 H1 H2 l. enough (P l /\ forall c, P (c :: l)) by tauto. induction l as [|d l [IH1 IH2]]; auto.
Qed.

(** The result fits into a buffer of the size of the source. *)
Lemma unescape_length src : (length (unescape_newlines src) <= length src)%nat.
Proof.
  induction src as [|c|c d l IH1 IH2] using pairs_ind; [cbn; lia..|]. rewrite unescape_pair.
  repeat case_match; cbn [length] in *; lia.
Qed.

(** The terminator is copied and nothing behind it matters. *)
Lemma unescape_c_str t : c_str (unescape_newlines (t ++ [NUL])) = unescape_newlines (c_str t).
Proof.
  induction t as [|c|c d l IH1 IH2] using pairs_ind; [done| |].
  - cbn [app unescape_newlines]. replace (Ascii.eqb NUL "n") with false by done. replace (Ascii.eqb NUL backslash) with false by done.
    rewrite !andb_false_r. cbn [c_str unescape_newlines]. by destruct (Ascii.eqb c NUL).
  - cbn [app]. rewrite unescape_pair. change (d :: l ++ [NUL]) with ((d :: l) ++ [NUL]).
    destruct (Ascii.eqb_spec c backslash) as [->|Hc]; cbn [andb].
    2: { cbn [c_str]. destruct (Ascii.eqb_spec c NUL); [done|]. rewrite unescape_other by (by apply Ascii.eqb_neq). f_equal. exact IH2. }
    destruct (Ascii.eqb_spec d "n") as [->|Hd]; [cbn; by rewrite IH1|].
    destruct (Ascii.eqb_spec d backslash) as [->|Hd']; [cbn; by rewrite IH1|].
    cbn [c_str]. change (Ascii.eqb backslash NUL) with false. cbn iota.
    rewrite IH2. cbn [c_str]. destruct (Ascii.eqb_spec d NUL); [done|]. rewrite unescape_pair.
    rewrite (proj2 (Ascii.eqb_neq d _) Hd), (proj2 (Ascii.eqb_neq d _) Hd'). done.
Qed.

(** ** States seen before, again *)

(** Different states have different numbers. *)
Lemma CAT_STATE_inj s t s' t' : 0 <= s < 256 -> 0 <= s' < 256 -> CAT_STATE s t = CAT_STATE s' t' -> s = s' /\ t = t'.
Proof.
  assert (forall a b, 0 <= a < 256 -> Z.shiftr (CAT_STATE a b) 8 = b /\ Z.land (CAT_STATE a b) (Z.ones 8) = a) as H.
  { intros a b Ha. unfold CAT_STATE. rewrite Z.shiftr_lor, Z.shiftr_shiftl_l, Z.sub_diag, Z.shiftl_0_r by lia.
    rewrite Z.land_lor_distr_l, !Z.land_ones by lia. rewrite Z.shiftl_mul_pow2 by lia.
    rewrite Z.mod_mul, Z.lor_0_r, Z.mod_small by lia. rewrite Z.shiftr_div_pow2, Z.div_small by lia. done. }
  intros Hs Hs' E. destruct (H s t Hs) as [A B], (H s' t' Hs') as [A' B']. rewrite E in A, B. split; congruence.
Qed.

(** What was reported last of an object; the latest report comes first. *)
Fixpoint reported {K} `{EqDecision K} (k : K) (seen : list (K * Z)) : option Z :=
  match seen with [] => None | (k', v) :: seen => if decide (k' = k) then Some v else reported k seen end.

(** A table after reports, the latest first. *)
Definition table_of {K} `{Countable K} (seen : list (K * Z)) (m : gmap K Z) : Prop := forall k, m !! k = reported k seen.

(** A report is new just when the last one of the same object was not the same, and the table then
    stands for the reports with it. *)
Theorem new_state_exact {K} `{Countable K} (k : K) state type seen m b m' :
  table_of seen m -> table_has_new_state k state type m = (b, m') ->
  b = negb (bool_decide (reported k seen = Some (CAT_STATE state type))) /\ table_of ((k, CAT_STATE state type) :: seen) m'.
Proof.
  intros Ht. unfold table_has_new_state, has_state_change. rewrite Ht. set (v := CAT_STATE state type).
  assert (forall v', v' = v -> table_of ((k, v) :: seen) (<[k := v']> m)) as Hn.
  { intros ? -> k'. cbn. case_decide as Hk; [subst; by rewrite lookup_insert_eq|by rewrite lookup_insert_ne]. }
  destruct (reported k seen) as [old|] eqn:E; [|intros [= <- <-]; split; [done|by apply Hn]].
  destruct (Z.eqb_spec old v) as [->|Hv]; intros [= <- <-]; (split; [|by apply Hn]).
  - by rewrite bool_decide_true.
  - rewrite bool_decide_false; [done|congruence].
Qed.

(** ** Rows *)

(** What an event is to leave in the database. *)
Section Rows.
Context {NT : NebTypes} (quote : text -> text) (conf : db_conf).

Definition quoted_text (src : option text) : option text :=
  match src with Some (c :: t) => Some (quote (c :: t)) | _ => None end.
Definition quoted (src : option text) : sql_value := VText (quoted_text src).

(** The long output has its newlines back. *)
Definition long_output (p : merlin_status) : option text :=
  (fun t => unescape_newlines (c_str (str t))) <$> s_long_plugin_output (st_state p).

Definition status_columns (p : merlin_status) (ok : Z) : list (string * sql_value) :=
  let s := st_state p in
  let hard := (s_state_type s =? HARD_STATE) || (s_current_state s =? ok) in
  [("state", VNum (s_current_state s)); ("hard", VNum (Z.b2z hard)); ("retry", VNum (s_current_attempt s));
   ("output", quoted (str <$> s_plugin_output s)); ("long_output", quoted (long_output p));
   ("downtime_depth", VNum (s_scheduled_downtime_depth s))]%string.

Definition names (host desc : option text) (service : bool) : list (string * sql_value) :=
  ("host_name"%string, quoted host) :: (if service then [("service_description"%string, quoted desc)] else []).

(** A check that changed the state, or the first one, is reported; performance data go to a table of
    their own. *)
Definition status_rows (service check : bool) (p : merlin_status) : list stmt :=
  let at_time := ("timestamp"%string, VNum (s_last_check (st_state p))) in
  (if rpt_log conf check p then
     [Insert (sql_table_name conf) (at_time ::
        ("event_type"%string, VNum (if service then NEBTYPE_SERVICECHECK_PROCESSED else NEBTYPE_HOSTCHECK_PROCESSED)) ::
        names (st_name p) (st_desc p) service ++ status_columns p (if service then STATE_OK else STATE_UP))]
   else []) ++
  (match perf_log check (if service then service_perf_table conf else host_perf_table conf) p with
   | Some table => [Insert table (at_time :: names (st_name p) (st_desc p) service ++
                                  [("perfdata"%string, quoted (str <$> s_perf_data (st_state p)))])]
   | None => []
   end).

Definition report (b : bool) (type time : Z) (cols : list (string * sql_value)) : list stmt :=
  if b && db_log_reports conf then
    [Insert (sql_table_name conf) (("timestamp"%string, VNum time) :: ("event_type"%string, VNum type) :: cols)] else [].

Definition rows (b : db_body) : list stmt :=
  match b with
  | ProcessData type time => match process_type type with Some type => report true type time [] | None => [] end
  | DowntimeData type time host desc =>
      report ((type =? NEBTYPE_DOWNTIME_START) || (type =? NEBTYPE_DOWNTIME_STOP)) type time
        (names host desc (bool_decide (is_Some desc)) ++
         [("downtime_depth"%string, VNum (Z.b2z (type =? NEBTYPE_DOWNTIME_START)))])
  | FlappingData type time host desc =>
      report true type time (names host desc (match desc with Some (_ :: _) => true | _ => false end))
  | NotificationMethodData p =>
      if db_log_notifications conf then
        [Insert (str "notification")
          [("notification_type", VNum (nd_type p)); ("start_time", VNum (nd_start p)); ("end_time", VNum (nd_end p));
           ("contact_name", quoted (nd_contact p)); ("host_name", quoted (nd_host p)); ("service_description", quoted (nd_desc p));
           ("command_name", quoted (nd_command p)); ("reason_type", VNum (nd_reason p)); ("state", VNum (nd_state p));
           ("output", quoted (nd_output p)); ("ack_author", quoted (nd_ack_author p)); ("ack_data", quoted (nd_ack_data p));
           ("escalated", VNum (nd_escalated p))]%string]
      else []
  | HostStatus check p => status_rows false check p
  | ServiceStatus check p => status_rows true check p
  | CommentData | UnknownData => []
  end.

(** ** What computations write *)

(** Rows, each of which may be there twice: the second attempt at a statement may have been one too many. *)
Definition twice (l : list stmt) : list stmt := flat_map (fun q => [q; q]) l.

Lemma twice_app l1 l2 : twice (l1 ++ l2) = twice l1 ++ twice l2.
Proof. apply flat_map_app. Qed.

(** A computation that ends gives a value with [P] and writes some of the rows, in order and none more than twice. *)
Definition emits {A} (c : DB A) (l : list stmt) (P : A -> Prop) : Prop :=
  forall s a s', c s = Some (a, s') -> P a /\ exists k, k `sublist_of` twice l /\ sq_log s' = rev k ++ sq_log s.

(** On a database that answers, a computation gives a value and writes the rows. *)
Record healthy (s : sqldb) : Prop := Healthy {
  hl_use : use_database s = true; hl_conn : sq_conn s = true; hl_alive : sq_alive s = []; hl_rcs : sq_rcs s = [] }.
Definition does {A} (c : DB A) (a : A) (l : list stmt) : Prop :=
  forall s, healthy s -> exists s', c s = Some (a, s') /\ healthy s' /\ sq_log s' = rev l ++ sq_log s.

Lemma emits_ret {A} (a : A) (P : A -> Prop) : P a -> emits (mret a) [] P.
Proof. intros Ha s b s' [= <- <-]. split; [done|]. by exists []. Qed.

Lemma emits_skip {A} (a : A) l (P : A -> Prop) : P a -> emits (mret a) l P.
Proof. intros Ha s b s' [= <- <-]. split; [done|]. exists []. split; [apply sublist_nil_l|done]. Qed.

Lemma emits_bind {A B} (c : DB A) (k : A -> DB B) l1 l2 P Q :
  emits c l1 P -> (forall a, P a -> emits (k a) l2 Q) -> emits (c ≫= k) (l1 ++ l2) Q.
Proof.
  intros Hc Hk s b s'. unfold mbind, DB_bind. destruct (c s) as [[a s1]|] eqn:E; [|done]. intros E2.
  destruct (Hc s a s1 E) as [Pa (k1 & S1 & L1)], (Hk a Pa s1 b s' E2) as [Qb (k2 & S2 & L2)]. split; [done|].
  exists (k1 ++ k2). split; [rewrite twice_app; by apply sublist_app|]. by rewrite L2, L1, rev_app_distr, app_assoc.
Qed.

(** A step that writes nothing. *)
Lemma emits_quiet {A B} (c : DB A) (k : A -> DB B) l P Q :
  emits c [] P -> (forall a, P a -> emits (k a) l Q) -> emits (c ≫= k) l Q.
Proof. apply (emits_bind c k [] l). Qed.

Lemma emits_end {A B} (c : DB A) (k : A -> DB B) l P Q :
  emits c l P -> (forall a, P a -> emits (k a) [] Q) -> emits (c ≫= k) l Q.
Proof. intros H1 H2. rewrite <- (app_nil_r l). by eapply emits_bind. Qed.

Lemma does_ret {A} (a : A) : does (mret a) a [].
Proof. intros s Hs. by exists s. Qed.

Lemma does_bind {A B} (c : DB A) (k : A -> DB B) a b l1 l2 : does c a l1 -> does (k a) b l2 -> does (c ≫= k) b (l1 ++ l2).
Proof.
  intros Hc Hk s Hs. destruct (Hc s Hs) as (s1 & E1 & H1 & L1), (Hk s1 H1) as (s2 & E2 & H2 & L2).
  exists s2. unfold mbind, DB_bind. rewrite E1. split_and!; [done..|]. by rewrite L2, L1, rev_app_distr, app_assoc.
Qed.

Lemma does_quiet {A B} (c : DB A) (k : A -> DB B) a b l : does c a [] -> does (k a) b l -> does (c ≫= k) b l.
Proof. apply (does_bind c k a b [] l). Qed.

Lemma does_end {A B} (c : DB A) (k : A -> DB B) a b l : does c a l -> does (k a) b [] -> does (c ≫= k) b l.
Proof. intros H1 H2. rewrite <- (app_nil_r l). by eapply does_bind. Qed.

(** The operations of the connection. *)

Lemma is_connected0_log s : exists b s', is_connected0 s = Some (b, s') /\ settled s s'.
Proof.
  unfold is_connected0, api_is_connected, mbind, DB_bind, dgets. destruct (sq_conn s); [destruct (sq_alive s)|]; by eexists _, _.
Qed.

Lemma connected_emits : emits (sql_is_connected true) [] (fun _ => True).
Proof.
  intros s a s' E. split; [done|]. exists []. split; [done|]. cbn.
  destruct (use_database s) eqn:Hu.
  - destruct (is_connected_spec s Hu) as (b & s1 & E1 & (L & _) & _). rewrite E1 in E. by injection E as <- <-.
  - destruct (is_connected0_log s) as (b & s1 & E1 & L & U & _).
    revert E. unfold sql_is_connected, mbind at 1, DB_bind at 1. rewrite E1. destruct b; cbn [orb negb]; [by intros [= <- <-]|].
    unfold sql_init, mbind, DB_bind, dgets. rewrite U, Hu. by intros [= <- <-].
Qed.

Lemma quote_emits src : emits (sql_quote quote src) [] (eq (quoted_text src)).
Proof.
  unfold sql_quote. eapply emits_quiet; [apply connected_emits|intros c _].
  intros s a s'. unfold mbind, DB_bind, dgets, assert. destruct (sq_conn s); [|done]. intros [= <- <-]. split; [done|]. by exists [].
Qed.

Lemma vquery_emits q : emits (sql_vquery q) [q] (fun _ => True).
Proof.
  intros s a s' E. split; [done|]. destruct (query_attempts q s) as (r & s1 & n & E1 & [_ L M _ _]). rewrite E1 in E. injection E as <- <-.
  exists (replicate n q). split; [|rewrite L; f_equal; clear; induction n as [|n IH]; [done|]; cbn [replicate rev]; by rewrite <- IH, <- replicate_cons_app].
  assert (n <= 2)%nat by (destruct (sent_again s); lia). change (twice [q]) with (replicate 2 q).
  destruct n as [|[|[|n]]]; [..|lia]; cbn; [apply sublist_nil_l|by do 2 constructor|done].
Qed.

Lemma free_emits : emits sql_free_result [] (fun _ => True).
Proof. intros s a s' [= <- <-]. split; [done|]. by exists []. Qed.

Lemma connected_does : does (sql_is_connected true) true [].
Proof.
  intros s [Hu Hc Ha Hr]. exists s. unfold sql_is_connected, is_connected0, api_is_connected, mbind, DB_bind, dgets.
  rewrite Hc, Ha. done.
Qed.

Lemma quote_does src : does (sql_quote quote src) (quoted_text src) [].
Proof.
  unfold sql_quote. eapply does_quiet; [apply connected_does|]. intros s Hs. exists s.
  unfold mbind, DB_bind, dgets, assert. rewrite (hl_conn s Hs). done.
Qed.

Lemma free_does : does sql_free_result tt [].
Proof. intros s [Hu Hc Ha Hr]. by eexists. Qed.

Lemma commit_healthy k s : healthy s -> exists s', sql_try_commit k s = Some (tt, s') /\ healthy s' /\ sq_log s' = sq_log s /\ sq_result s' = sq_result s.
Proof.
  intros [Hu Hc Ha Hr]. eexists. split; [reflexivity|]. rewrite Hu, Hc. cbn [negb orb]. cbn zeta.
  destruct (k >? 0); case_match; split_and!; done.
Qed.

Lemma vquery_does q : does (sql_vquery q) 0 [q].
Proof.
  intros s Hs. pose proof Hs as [Hu Hc Ha Hr]. unfold sql_vquery, mbind at 1, DB_bind at 1, dgets at 1. rewrite Hu. cbn [negb].
  destruct (connected_does s Hs) as (s1 & E1 & H1 & L1). unfold mbind at 1, DB_bind at 1. rewrite E1. cbn [negb].
  unfold mbind at 1, DB_bind at 1. unfold sql_free_result at 1, dmodify at 1.
  set (s2 := s1 <| sq_result := false |>). unfold mbind at 1, DB_bind at 1, run_query.
  unfold mbind at 1, DB_bind at 1, dgets at 1. change (sq_conn s2) with (sq_conn s1). rewrite (hl_conn s1 H1).
  unfold mbind, DB_bind, mret at 1, DB_ret at 1, dgets, assert. cbn beta iota. change (0 <? 0) with false. cbn beta iota.
  change (sq_conn s2) with (sq_conn s1). rewrite (hl_conn s1 H1). unfold query_result.
  change (sq_rcs s2) with (sq_rcs s1). rewrite (hl_rcs s1 H1). cbn beta iota zeta. change (0 =? 0) with true. cbn [negb].
  match goal with |- context [sql_try_commit 1 ?t] => set (s3 := t) end.
  assert (healthy s3) as H3 by (destruct H1; by constructor).
  destruct (commit_healthy 1 s3 H3) as (s4 & -> & [A B C D] & L4 & R4). rewrite R4. change (sq_result s3) with false. cbn.
  eexists. split; [reflexivity|]. split; [by constructor|]. cbn. rewrite L4. change (sq_log s3) with (q :: sq_log s1). by rewrite L1.
Qed.

(** The handlers. *)

Lemma output_emits p : emits (quote_output quote p) [] (eq (quoted_text (str <$> s_plugin_output (st_state p)), quoted_text (long_output p))).
Proof.
  unfold quote_output, long_output. eapply emits_quiet; [apply quote_emits|intros ? <-].
  destruct (s_long_plugin_output (st_state p)) as [t|]; cbn [fmap option_fmap option_map]; [rewrite unescape_c_str|].
  - eapply emits_quiet; [apply quote_emits|intros ? <-]. eapply emits_quiet; [apply quote_emits|intros]. by apply emits_ret.
  - eapply (emits_quiet _ _ _ (eq None)); [by apply emits_ret|intros ? <-]. eapply emits_quiet; [apply quote_emits|intros]. by apply emits_ret.
Qed.

Lemma output_does p : does (quote_output quote p) (quoted_text (str <$> s_plugin_output (st_state p)), quoted_text (long_output p)) [].
Proof.
  unfold quote_output, long_output. eapply does_quiet; [apply quote_does|].
  destruct (s_long_plugin_output (st_state p)) as [t|]; cbn [fmap option_fmap option_map]; [rewrite unescape_c_str|].
  - do 2 (eapply does_quiet; [apply quote_does|]). apply does_ret.
  - eapply does_quiet; [apply does_ret|]. eapply does_quiet; [apply quote_does|]. apply does_ret.
Qed.

(** Runs a handler step by step, on some database or on one that answers. *)
Ltac emit := repeat first
  [ apply vquery_emits
  | solve [apply emits_ret; done]
  | eapply emits_quiet; [apply quote_emits|intros ? <-]
  | eapply emits_quiet; [apply output_emits|intros ? <-]
  | eapply (emits_quiet _ _ _ (fun _ => True)); [apply emits_ret; done|intros ? _]
  | eapply (emits_quiet (mret ?[a]) _ _ (eq ?a)); [apply emits_ret; done|intros ? <-] ].
Ltac perform := repeat first
  [ apply vquery_does
  | apply does_ret
  | eapply does_quiet; [apply quote_does|]
  | eapply does_quiet; [apply output_does|]
  | eapply does_quiet; [apply does_ret|] ].

Lemma host_emits check p : emits (handle_host_status quote conf check p) (status_rows false check p) (fun _ => True).
Proof.
  unfold handle_host_status, status_rows. destruct (rpt_log conf check p), (perf_log check (host_perf_table conf) p) as [t|];
    cbn [negb andb bool_decide app]; [| | |emit].
  - emit. apply (emits_bind _ _ [_] [_] (fun _ => True)); [emit|intros; emit].
  - emit. apply (emits_end _ _ [_] (fun _ => True)); [emit|intros; emit].
  - emit.
Qed.

Lemma service_emits check p : emits (handle_service_status quote conf check p) (status_rows true check p) (fun _ => True).
Proof.
  unfold handle_service_status, status_rows. destruct (rpt_log conf check p), (perf_log check (service_perf_table conf) p) as [t|];
    cbn [negb andb bool_decide app]; [| | |emit].
  - emit. apply (emits_bind _ _ [_] [_] (fun _ => True)); [emit|intros; emit].
  - emit. apply (emits_end _ _ [_] (fun _ => True)); [emit|intros; emit].
  - emit.
Qed.

Lemma status_does (service check : bool) p :
  does ((if service then handle_service_status else handle_host_status) quote conf check p) 0 (status_rows service check p).
Proof.
  destruct service; [unfold handle_service_status|unfold handle_host_status]; unfold status_rows;
    destruct (rpt_log conf check p); (destruct (perf_log check _ p) as [t|]); cbn [negb andb bool_decide app];
    try (perform; done); perform.
  all: first [apply (does_bind _ _ 0 0 [_] [_])|apply (does_end _ _ 0 0 [_])]; perform.
Qed.

Lemma body_emits b : emits (handle_body quote conf b) (rows b) (fun _ => True).
Proof.
  destruct b as [type time| |type time host desc|type time host desc|p|check p|check p|]; cbn [handle_body rows].
  - unfold rpt_process_data, report. destruct (process_type type), (db_log_reports conf); cbn [negb andb]; emit.
  - emit.
  - unfold rpt_downtime, report. destruct (db_log_reports conf); cbn [negb]; [|rewrite andb_false_r; emit].
    destruct ((_ =? _) || _); cbn [negb andb]; [|emit]. destruct desc; emit.
  - unfold handle_flapping, report. destruct (db_log_reports conf); cbn [negb andb]; [|emit]. emit. destruct desc as [[|]|]; emit.
  - unfold handle_contact_notification_method. destruct (db_log_notifications conf); cbn [negb]; emit.
  - apply host_emits.
  - apply service_emits.
  - emit.
Qed.

Lemma body_does b : b <> UnknownData -> does (handle_body quote conf b) 0 (rows b).
Proof.
  intros Hb. destruct b as [type time| |type time host desc|type time host desc|p|check p|check p|]; cbn [handle_body rows].
  - unfold rpt_process_data, report. destruct (process_type type), (db_log_reports conf); cbn [negb andb]; perform.
  - perform.
  - unfold rpt_downtime, report. destruct (db_log_reports conf); cbn [negb]; [|rewrite andb_false_r; perform].
    destruct ((_ =? _) || _); cbn [negb andb]; [|perform]. destruct desc; perform.
  - unfold handle_flapping, report. destruct (db_log_reports conf); cbn [negb andb]; [|perform].
    do 2 (eapply does_quiet; [apply quote_does|]). destruct desc as [[|]|]; perform.
  - unfold handle_contact_notification_method. destruct (db_log_notifications conf); cbn [negb]; perform.
  - apply (status_does false).
  - apply (status_does true).
  - done.
Qed.

(** Whatever the database does, an event leaves nothing but rows that stand for it, in order and each at most twice,
    unless the daemon aborts. *)
Theorem update_writes_rows body s r s' : mrm_db_update quote conf body s = Some (r, s') ->
  exists k, k `sublist_of` twice (from_option rows [] body) /\ sq_log s' = rev k ++ sq_log s.
Proof.
  intros E. refine (proj2 ((_ : emits _ _ (fun _ => True)) s r s' E)). clear E. unfold mrm_db_update.
  eapply emits_quiet; [apply connected_emits|intros c _]. destruct c; cbn [negb]; [|by apply emits_skip].
  destruct body as [b|]; [|by apply emits_skip]. cbn [from_option].
  assert (emits (errors ← handle_body quote conf b; sql_free_result ;; mret errors) (rows b) (fun _ => True)) as H.
  { eapply emits_end; [apply body_emits|]. intros e _. eapply emits_quiet; [apply free_emits|intros; emit]. }
  destruct b; try exact H. emit.
Qed.

(** On a database that answers, an event is recorded completely. *)
Lemma update_does b : does (mrm_db_update quote conf (Some b)) (match b with UnknownData => -1 | _ => 0 end) (rows b).
Proof.
  unfold mrm_db_update. eapply does_quiet; [apply connected_does|]. cbn [negb].
  assert (b <> UnknownData -> does (errors ← handle_body quote conf b; sql_free_result ;; mret errors) 0 (rows b)) as H.
  { intros Hb. eapply does_end; [by apply body_does|]. eapply does_quiet; [apply free_does|]. apply does_ret. }
  destruct b; try (by apply H). apply does_ret.
Qed.

(** ** A series of events *)

Fixpoint updates (l : list db_body) : DB unit :=
  match l with [] => mret tt | b :: l => handle_ipc_event quote conf true (Some b) ;; updates l end.

Lemma quote_in_use src : keeps in_use (sql_quote quote src).
Proof. unfold sql_quote. keep. Qed.
#[local] Hint Resolve quote_in_use vquery_in_use : keeps.

Lemma update_in_use body : keeps in_use (mrm_db_update quote conf body).
Proof.
  unfold mrm_db_update, handle_body, rpt_process_data, rpt_downtime, handle_flapping, handle_contact_notification_method,
    handle_host_status, handle_service_status, quote_output. keep.
Qed.

#[local] Hint Resolve update_in_use : keeps.

(** While the database answers, every event is recorded with all its rows, in the order in which the
    events came; and less than [commit_queries] rows are waiting for a commit at the end. *)
Theorem events_recorded l s : healthy s -> commits_ok s ->
  exists s', updates l s = Some (tt, s') /\ sq_log s' = rev (flat_map rows l) ++ sq_log s /\ healthy s' /\ commits_ok s' /\
    Z.of_nat (at_risk s') < commit_queries s'.
Proof.
  intros Hs Hc. assert (does (updates l) tt (flat_map rows l)) as Hd.
  { clear. induction l as [|b l IH]; [apply does_ret|]. cbn [updates flat_map]. eapply does_bind; [|done].
    intros s Hs. unfold handle_ipc_event, mbind, DB_bind, dgets. rewrite (hl_use s Hs). cbn [negb]. by apply update_does. }
  assert (keeps in_use (updates l)) as Hk.
  { clear. induction l as [|b l IH]; [apply keeps_ret|]. cbn [updates]. apply keeps_bind; [|done]. unfold handle_ipc_event. change (negb true) with false. keep. }
  destruct (Hd s Hs) as (s' & E & H' & L). exists s'.
  destruct (Hk s tt s' (conj Hc (hl_use s Hs)) E) as [C' _]. split_and!; [done..|]. destruct C'. lia.
Qed.

End Rows.

(** ** The database section of the configuration *)

(** daemon/sql.c:6-51 db -- the settings; NULL is [None]. *)
Record db_settings := DbSettings {
  ds_name : option text; ds_user : option text; ds_pass : option text; ds_host : option text; ds_type : option text;
  ds_conn_str : option text; ds_port : Z; ds_logSQL : bool; ds_host_perf : option text; ds_service_perf : option text;
  ds_commit_interval : Z; ds_commit_queries : Z }.
#[export] Instance eta_db_settings : Eta db_settings := fun r =>
  DbSettings (ds_name r) (ds_user r) (ds_pass r) (ds_host r) (ds_type r) (ds_conn_str r) (ds_port r) (ds_logSQL r)
    (ds_host_perf r) (ds_service_perf r) (ds_commit_interval r) (ds_commit_queries r).

Definition no_settings : db_settings := DbSettings None None None None None None 0 false None None 0 0.

Section Settings.
Context {SD : Strtod}.

(** daemon/sql.c:564-571 sql_config -- the port; strtoul(3) with base 0 and its result as an int. *)
Definition grok_port (value : text) (s : db_settings) : Z * db_settings :=
  let '(n, rest) := strtoull 0 value in
  (if (length rest =? length value)%nat || negb (bool_decide (rest = [])) then -1 else 0, s <| ds_port := s32 (u32 n) |>).

(** daemon/sql.c:578-583 sql_config -- the interval of commits. *)
Definition grok_interval (value : option text) (s : db_settings) : Z * db_settings :=
  match grok_seconds value with GrokOk n => (0, s <| ds_commit_interval := n |>) | _ => (-1, s) end.

(** daemon/sql.c:541-597 sql_config -- keys are compared by their start down to the port.  A value of
    logsql that is missing would be a NULL pointer for strtobool, and is not modelled. *)
Definition sql_config (key : text) (value : option text) (s : db_settings) : Z * db_settings :=
  let set (s : db_settings) := (0, s) in
  if starts key "name" || starts key "database" then set (s <| ds_name := value |>)
  else if starts key "logsql" then set (s <| ds_logSQL := strtobool (default [] value) |>)
  else if starts key "user" then set (s <| ds_user := value |>)
  else if starts key "pass" then set (s <| ds_pass := value |>)
  else if starts key "host" then set (s <| ds_host := value |>)
  else if starts key "type" then set (s <| ds_type := value |>)
  else if starts key "conn_str" then set (s <| ds_conn_str := value |>)
  else match (if starts key "port" then value else None) with
  | Some (c :: v) => grok_port (c :: v) s
  | _ =>
    if equals key "host_perfdata_table" then set (s <| ds_host_perf := value |>)
    else if equals key "service_perfdata_table" then set (s <| ds_service_perf := value |>)
    else if equals key "perfdata_table" then set (s <| ds_host_perf := value |> <| ds_service_perf := value |>)
    else if equals key "commit_interval" then grok_interval value s
    else match (if equals key "commit_queries" then value else None) with
    | Some v => set (s <| ds_commit_queries := s64 (strtoull 0 v).1 |>)
    | None => (-1, s)
    end
  end.

(** shared/configuration.c:32-43 grok_db_compound -- one variable, for the daemon, whose sql_config this is.  The values
    are use_database, db_log_reports, db_log_notifications and the settings. *)
Definition daemon_db_var (c : bool * bool * bool * db_settings) (v : text * option text) : bool * bool * bool * db_settings :=
  let '(use, reports, notifications, s) := c in
  let '(key, value) := v in
  if equals key "log_report_data" then (use, strtobool (default [] value), notifications, s)
  else if starts key "log_notification" then (use, reports, strtobool (default [] value), s)
  else if starts key "track_current" then c
  else if equals key "enabled" then (strtobool (default [] value), reports, notifications, s)
  else (use, reports, notifications, (sql_config key value s).2).

(** shared/configuration.c:26-45 grok_db_compound *)
Definition daemon_db_compound (vars : list (text * option text)) (c : bool * bool * bool * db_settings) : bool * bool * bool * db_settings :=
  let '(_, reports, notifications, s) := c in foldl daemon_db_var (true, reports, notifications, s) vars.

(** The table for performance data of hosts cannot be set apart from that of services: its key begins with
    the one of the host of the database, which it replaces. *)
Theorem host_perfdata_sets_host value s :
  sql_config (str "host_perfdata_table") value s = (0, s <| ds_host := value |>).
Proof. reflexivity. Qed.

(** The other keys set what they name. *)
Theorem settings_independent value s :
  sql_config (str "service_perfdata_table") value s = (0, s <| ds_service_perf := value |>) /\
  sql_config (str "perfdata_table") value s = (0, s <| ds_host_perf := value |> <| ds_service_perf := value |>) /\
  sql_config (str "name") value s = (0, s <| ds_name := value |>) /\ sql_config (str "type") value s = (0, s <| ds_type := value |>) /\
  sql_config (str "table") value s = (-1, s).
Proof. done. Qed.
End Settings.

(** ** A daemon *)

#[export] Program Instance demo_neb_types : NebTypes :=
  {| NEBTYPE_HOSTCHECK_PROCESSED := 801; NEBTYPE_SERVICECHECK_PROCESSED := 701;
     NEBTYPE_DOWNTIME_START := 1103; NEBTYPE_DOWNTIME_STOP := 1104;
     NEBTYPE_PROCESS_START := 100; NEBTYPE_PROCESS_EVENTLOOPSTART := 103;
     NEBTYPE_PROCESS_SHUTDOWN := 102; NEBTYPE_PROCESS_RESTART := 101;
     NEBATTR_CHECK_ALERT := 1; NEBATTR_CHECK_FIRST := 2; HARD_STATE := 1; STATE_UP := 0; STATE_OK := 0 |}.
Next Obligation. done. Qed.
Next Obligation. apply (bool_decide_unpack _). vm_compute. done. Qed.

Definition demo_conf : db_conf := DbConf true true None (Some (str "perf")) None.
Definition demo_quote (t : text) : text := str "'" ++ t ++ str "'".

(** A host that goes down: two lines of long output and performance data. *)
Definition demo_status : merlin_status :=
  Status 1 (zero_state <| s_current_state := 1 |> <| s_last_check := 50 |> <| s_plugin_output := Some "down"%string |>
    <| s_long_plugin_output := Some "one\ntwo"%string |> <| s_perf_data := Some "t=1"%string |>) (Some (str "alpha")) None.

Definition demo_events : list db_body :=
  [ProcessData 103 40; HostStatus true demo_status; DowntimeData 1103 60 (Some (str "alpha")) None; HostStatus false demo_status].

Definition demo_long : text := str "'one" ++ NL :: str "two'".

Example demo_rows : rows demo_quote demo_conf (HostStatus true demo_status) =
  [Insert (str "report_data")
     [("timestamp", VNum 50); ("event_type", VNum 801); ("host_name", VText (Some (str "'alpha'"))); ("state", VNum 1);
      ("hard", VNum 0); ("retry", VNum 0); ("output", VText (Some (str "'down'")));
      ("long_output", VText (Some demo_long)); ("downtime_depth", VNum 0)]%string;
   Insert (str "perf")
     [("timestamp", VNum 50); ("host_name", VText (Some (str "'alpha'"))); ("perfdata", VText (Some (str "'t=1'")))]%string].
Proof. vm_compute. reflexivity. Qed.

Lemma demo_healthy : healthy (demo_sql 3) /\ commits_ok (demo_sql 3).
Proof. split; by constructor. Qed.

Lemma events_recorded_witness : healthy (demo_sql 3) /\ commits_ok (demo_sql 3) /\
  exists s', updates demo_quote demo_conf demo_events (demo_sql 3) = Some (tt, s') /\
    sq_log s' = rev (flat_map (rows demo_quote demo_conf) demo_events) ++ sq_log (demo_sql 3) /\ healthy s' /\ commits_ok s' /\
    Z.of_nat (at_risk s') < commit_queries s'.
Proof.
  split; [by constructor|]. split; [by constructor|].
  apply (events_recorded demo_quote demo_conf demo_events (demo_sql 3)); by constructor.
Defined.

(** ** What can go wrong *)

(** A report that the database refuses is not noticed when there are performance data: the handler reports
    the result of the second statement. *)
Theorem failed_report_hidden :
  exists s', mrm_db_update demo_quote demo_conf (Some (HostStatus true demo_status)) ((demo_sql 3) <| sq_rcs := [1062] |>) = Some (0, s') /\
    length (sq_log s') = 1%nat /\ length (rows demo_quote demo_conf (HostStatus true demo_status)) = 2%nat.
Proof. eexists. split; [vm_compute; reflexivity|]. split; vm_compute; reflexivity. Qed.

(** An event that meets a connection that cannot be made again while a text is quoted aborts the daemon. *)
Theorem lost_connection_aborts :
  mrm_db_update demo_quote demo_conf (Some (HostStatus true demo_status))
    ((demo_sql 3) <| sq_alive := [true; false; false] |> <| sq_conns := [Refused] |>) = None.
Proof. vm_compute. reflexivity. Qed.
