(* ===== verification/Lparse.v ===== *)
(** * Reading log files line by line: tools/lparse.c

    A file of [size] bytes is read through a buffer of [max_buf] bytes, forwards or backwards, and
    each line is given to a function.  The file is the text [content]; a read gives all that is asked
    for, up to the end of the file, and [size] is its length.  The lines that are given to the function are
    collected in order. *)

From S2P Require Import Prelude Cfgfile Config Misc Shared.
#[local] Open Scope nat_scope.

(** The lines, memory outside of the buffer, or more turns than were allowed. *)
Inductive lp_result := LpLines (l : list text) | LpOutside | LpLoop.

Section Lparse.
Context (max_buf : nat).

(** tools/lparse.c:33-34 lparse_fd -- back to the last newline of the block, latest character first; [None] before the start of
    the buffer. *)
Fixpoint rewind (rblock : text) : option text :=
  match rblock with
  | [] => None
  | c :: l => if Ascii.eqb c NL then Some (c :: l) else rewind l
  end.

(** tools/lparse.c:42-51 lparse_fd -- the lines of a block; the sentinel ends the last one. *)
Fixpoint block_lines (cur block : text) : list text :=
  match block with
  | [] => if bool_decide (cur = []) then [] else [reverse cur]
  | c :: l => if Ascii.eqb c NL then reverse cur :: block_lines [] l else block_lines (c :: cur) l
  end.

(** tools/lparse.c:22-52 lparse_fd -- [rest] is the file from [tot_rd] on. *)
Fixpoint lparse_loop (fuel : nat) (rest : text) : lp_result :=
  match fuel with
  | O => LpLoop
  | S fuel =>
      if bool_decide (rest = []) then LpLines [] else
      let block := take max_buf rest in
      match (if length block <? length rest then rewind (reverse block) else Some (reverse block)) with
      | None => LpOutside
      | Some rblock =>
          match lparse_loop fuel (drop (length rblock) rest) with
          | LpLines l => LpLines (block_lines [] (reverse rblock) ++ l)
          | r => r
          end
      end
  end.

(** tools/lparse.c:15-54 lparse_fd -- a turn takes at least one character. *)
Definition lparse_fd (content : text) : lp_result := lparse_loop (S (length content)) content.

(** tools/lparse.c:86-97 lparse_rev_fd -- the block behind its first newline, or all of it. *)
Definition behind_newline (block : text) : text :=
  match (span (fun c => negb (Ascii.eqb c NL)) block).2 with [] => block | _ :: l => l end.

(** tools/lparse.c:114-134 lparse_rev_fd -- the lines of a block, the last one first; [rblock] is what is left of it,
    latest character first.  The loop ends when nothing is left. *)
Fixpoint rev_lines (fuel : nat) (rblock : text) : list text :=
  match fuel with
  | O => []
  | S fuel =>
      if bool_decide (rblock = []) then [] else
      let '(rline, before) := span (fun c => negb (Ascii.eqb c NL)) rblock in
      match before with
      | [] => [reverse rline]
      | _ :: before => reverse rline :: rev_lines fuel before
      end
  end.

(** tools/lparse.c:109-111 lparse_rev_fd -- a newline at the end of the block is dropped. *)
Definition drop_last_newline (rblock : text) : text :=
  match rblock with c :: l => if Ascii.eqb c NL then l else rblock | [] => [] end.

(** tools/lparse.c:64-136 lparse_rev_fd -- [rest] is the file up to size - tot_rd. *)
Fixpoint lparse_rev_loop (fuel : nat) (rest : text) : lp_result :=
  match fuel with
  | O => LpLoop
  | S fuel =>
      if bool_decide (rest = []) then LpLines [] else
      let buf := drop (length rest - max_buf) rest in
      let first := if length buf <? length rest then behind_newline buf else buf in
      let rblock := drop_last_newline (reverse first) in
      match lparse_rev_loop fuel (take (length rest - length first) rest) with
      | LpLines l => LpLines (rev_lines (S (length rblock)) rblock ++ l)
      | r => r
      end
  end.

(** tools/lparse.c:56-138 lparse_rev_fd *)
Definition lparse_rev_fd (content : text) : lp_result := lparse_rev_loop (S (length content)) content.

(** tools/lparse.c:141-159 lparse_path_real -- -1 is [None]; [content] is [None] when the file cannot be opened. *)
Definition lparse_path_real (rev : bool) (content : option text) (size : nat) : option lp_result :=
  if size =? 0 then Some (LpLines []) else
  match content with
  | None => None
  | Some c => Some (if rev then lparse_rev_fd c else lparse_fd c)
  end.

End Lparse.

(** ** Files and their lines *)

(** A file: lines that end with a newline, and what comes behind the last one. *)
Definition show (ls : list text) (final : text) : text := flat_map (fun l => l ++ [NL]) ls ++ final.
Definition file_lines (ls : list text) (final : text) : list text := ls ++ (if bool_decide (final = []) then [] else [final]).

(** No newline inside a line. *)
Definition plain (l : text) : Prop := NL ∉ l.

Lemma show_cons l ls final : show (l :: ls) final = l ++ NL :: show ls final.
Proof. unfold show. cbn [flat_map]. by rewrite <- !app_assoc. Qed.
Lemma show_app ls1 ls2 final : show (ls1 ++ ls2) final = show ls1 [] ++ show ls2 final.
Proof. unfold show. by rewrite flat_map_app, app_nil_r, app_assoc. Qed.

Lemma plain_eqb l : plain l -> forallb (fun c => negb (Ascii.eqb c NL)) l = true.
Proof.
  intros Hl. apply forallb_forall. intros c Hc%list_elem_of_In. destruct (Ascii.eqb_spec c NL) as [->|]; [done|done].
Qed.

Lemma block_lines_plain cur l rest : plain l -> block_lines cur (l ++ rest) = block_lines (reverse l ++ cur) rest.
Proof.
  revert cur. induction l as [|c l IH]; intros cur Hl; [done|]. cbn [app block_lines].
  apply not_elem_of_cons in Hl as [Hc Hl]. destruct (Ascii.eqb_spec c NL) as [->|_]; [done|].
  rewrite IH by done. by rewrite reverse_cons, <- app_assoc.
Qed.

Lemma block_lines_show ls final : Forall plain ls -> plain final -> block_lines [] (show ls final) = file_lines ls final.
Proof.
  intros Hls Hf. induction Hls as [|l ls Hl Hls IH].
  - unfold show, file_lines. cbn [flat_map app]. rewrite <- (app_nil_r final) at 1. rewrite block_lines_plain by done.
    rewrite app_nil_r. cbn [block_lines]. rewrite reverse_involutive. destruct final as [|c f]; [done|].
    rewrite !bool_decide_false; [done..|]. intros E%(f_equal length). rewrite length_reverse in E. done.
  - rewrite show_cons, block_lines_plain by done. cbn [block_lines]. rewrite Ascii.eqb_refl.
    rewrite app_nil_r, reverse_involutive, IH. done.
Qed.

Lemma plain_take n l : plain l -> plain (take n l).
Proof. intros Hl (i & Hi & _)%elem_of_take. by eapply Hl, list_elem_of_lookup_2. Qed.

(** ** Forwards *)

Lemma take_show n ls final : Forall plain ls -> plain final ->
  exists ls1 ls2 part, ls = ls1 ++ ls2 /\ take n (show ls final) = show ls1 [] ++ part /\ plain part /\
    (Forall (fun l => length l < n) ls -> ls1 = [] -> ls = [] \/ n = 0).
Proof.
  intros Hls Hf. revert n. induction Hls as [|l ls Hl Hls IH]; intros n.
  - exists [], [], (take n final). split_and!; [done..| |by left]. by apply plain_take.
  - destruct (decide (length l < n)) as [Hn|Hn].
    + destruct (IH (n - S (length l))) as (ls1 & ls2 & part & -> & E & Hp & _). exists (l :: ls1), ls2, part.
      split_and!; [done| |done|done]. rewrite !show_cons, take_app_ge by lia. replace (n - length l) with (S (n - S (length l))) by lia.
      cbn [take]. by rewrite E, <- app_assoc.
    + exists [], (l :: ls), (take n l). split_and!; [done| | |].
      * rewrite show_cons. unfold show. cbn. rewrite take_app_le by lia. done.
      * by apply plain_take.
      * intros [? _]%Forall_cons _. lia.
Qed.

Lemma rewind_part part rl : plain part -> rewind (reverse part ++ NL :: rl) = Some (NL :: rl).
Proof.
  intros Hp. assert (plain (reverse part)) as Hr by (unfold plain; by rewrite elem_of_reverse).
  induction (reverse part) as [|c l IH]; cbn [app rewind]; [by rewrite Ascii.eqb_refl|].
  apply not_elem_of_cons in Hr as [Hc Hr]. destruct (Ascii.eqb_spec c NL) as [->|_]; [done|by apply IH].
Qed.

Lemma show_reverse ls : ls <> [] -> exists rl, reverse (show ls []) = NL :: rl.
Proof.
  intros Hne. destruct ls as [|l ls _] using rev_ind; [done|]. rewrite show_app, show_cons, reverse_app. unfold show at 1. cbn [flat_map app].
  rewrite reverse_app. change (reverse [NL]) with [NL]. by eexists.
Qed.

Lemma file_lines_app ls1 ls2 final : file_lines (ls1 ++ ls2) final = file_lines ls1 [] ++ file_lines ls2 final.
Proof. unfold file_lines. by rewrite (bool_decide_true ([] = [])), app_nil_r, app_assoc. Qed.

Section Forwards.
Context (max_buf : nat).

(** Every line fits into the buffer with its newline. *)
Definition fits (l : text) : Prop := length l < max_buf.

Lemma lparse_loop_lines fuel : forall ls final, Forall plain ls -> plain final -> Forall fits ls -> length final <= max_buf ->
  length (show ls final) < fuel -> lparse_loop max_buf fuel (show ls final) = LpLines (file_lines ls final).
Proof.
  induction fuel as [|fuel IH]; intros ls final Hls Hf Hfit Hff Hfuel; [lia|]. cbn [lparse_loop].
  destruct (bool_decide_reflect (show ls final = [])) as [E|Hne].
  { destruct ls as [|l ls]; [|rewrite show_cons in E; by destruct l]. cbn in E. by subst. }
  destruct (Nat.ltb_spec (length (take max_buf (show ls final))) (length (show ls final))) as [Hlt|Hge].
  - rewrite length_take in Hlt. destruct (take_show max_buf ls final Hls Hf) as (ls1 & ls2 & part & -> & E & Hp & H1).
    assert (ls1 <> []) as Hls1.
    { intros ->. cbn [app] in *. destruct (H1 Hfit eq_refl) as [->|Hz]; [cbn in Hlt; lia|].
      destruct ls2 as [|l ls2]; [cbn in Hlt; lia|]. apply Forall_cons in Hfit as [Hl _]. unfold fits in Hl. lia. }
    rewrite E, reverse_app. destruct (show_reverse ls1 Hls1) as [rl Hrl]. rewrite Hrl, rewind_part, <- Hrl by done.
    rewrite length_reverse, reverse_involutive, show_app, drop_app_length, file_lines_app.
    apply Forall_app in Hls as [Hls1' Hls2], Hfit as [_ Hfit2]. rewrite IH; [|done..|].
    + rewrite block_lines_show; [done..|apply not_elem_of_nil].
    + rewrite show_app, length_app in Hfuel. destruct ls1 as [|l ls1]; [done|].
      rewrite show_cons, length_app in Hfuel. cbn in Hfuel. lia.
  - rewrite take_ge by (rewrite length_take in Hge; lia). rewrite length_reverse, drop_all. rewrite reverse_involutive, block_lines_show by done.
    destruct fuel as [|fuel]; [destruct (show ls final); cbn in *; [done|lia]|]. cbn [lparse_loop]. by rewrite bool_decide_true, app_nil_r.
Qed.

(** Reading forwards gives the lines in order. *)
Theorem lparse_fd_lines ls final : Forall plain ls -> plain final -> Forall fits ls -> length final <= max_buf ->
  lparse_fd max_buf (show ls final) = LpLines (file_lines ls final).
Proof. intros. apply lparse_loop_lines; auto. Qed.
End Forwards.

(** ** Backwards *)

Lemma join_snoc k x : k <> [] -> join NL (k ++ [x]) = join NL k ++ NL :: x.
Proof.
  intros Hk. induction k as [|y k IH]; [done|]. destruct k as [|z k]; [done|].
  change ((y :: z :: k) ++ [x]) with (y :: ((z :: k) ++ [x])). rewrite (join_cons NL y ((z :: k) ++ [x])), (join_cons NL y (z :: k)) by done.
  rewrite IH by done. by rewrite <- app_assoc.
Qed.

Lemma join_nonempty k : k <> [] -> Forall (fun l => l <> []) k -> join NL k <> [].
Proof. intros Hk Hf. destruct Hf as [|l k Hl _]; [done|]. destruct k; [done|]. rewrite join_cons by done. by destruct l. Qed.

Lemma rev_lines_join k : forall fuel, Forall plain k -> Forall (fun l => l <> []) k -> length (join NL k) < fuel ->
  rev_lines fuel (reverse (join NL k)) = reverse k.
Proof.
  induction k as [|x k IH] using rev_ind; intros fuel Hp Hne Hf; (destruct fuel as [|fuel]; [lia|]); [done|].
  apply Forall_app in Hp as [Hp [Hx _]%Forall_cons], Hne as [Hne [Hx0 _]%Forall_cons]. cbn [rev_lines].
  assert (forall l : text, l <> [] -> reverse l <> []) as Hrev.
  { intros l Hl E%(f_equal length). rewrite length_reverse in E. by destruct l. }
  assert (forallb (fun c => negb (Ascii.eqb c NL)) (reverse x) = true) as Hall by (apply plain_eqb; unfold plain; by rewrite elem_of_reverse).
  destruct (decide (k = [])) as [->|Hk].
  - cbn [app join]. rewrite bool_decide_false by auto. rewrite <- (app_nil_r (reverse x)) at 1.
    rewrite (span_digits _ (reverse x) []) by (done || (apply Forall_forall; intros c Hc; exact (proj1 (forallb_forall _ _) Hall c (proj1 (list_elem_of_In _ _) Hc)))). cbn. by rewrite reverse_involutive.
  - rewrite join_snoc by done. rewrite join_snoc, length_app in Hf by done. cbn [length] in Hf.
    rewrite bool_decide_false by (apply Hrev; by destruct (join NL k)).
    rewrite reverse_app, reverse_cons, <- app_assoc. cbn [app]. rewrite span_all by (done || by rewrite Ascii.eqb_refl).
    rewrite IH, reverse_involutive, reverse_snoc by (done || lia). done.
Qed.

Lemma join_show ls final : (ls <> [] \/ final <> []) -> plain final ->
  drop_last_newline (reverse (show ls final)) = reverse (join NL (file_lines ls final)).
Proof.
  intros Hne Hf. unfold file_lines. destruct final as [|c f].
  - rewrite bool_decide_true, app_nil_r by done. destruct ls as [|l ls _] using rev_ind; [naive_solver|].
    rewrite show_app, show_cons, reverse_app. unfold show at 1. cbn [flat_map app]. rewrite reverse_snoc. cbn [app drop_last_newline].
    rewrite Ascii.eqb_refl. destruct (decide (ls = [])) as [->|Hls]; [by rewrite app_nil_r|].
    rewrite join_snoc, !reverse_app, reverse_cons, <- app_assoc by done. f_equal. cbn [app].
    clear -Hls. induction ls as [|x ls IH]; [done|]. rewrite show_cons. destruct ls as [|y ls].
    + unfold show. cbn. by rewrite reverse_snoc.
    + rewrite join_cons by done. rewrite !reverse_app, !reverse_cons, IH by done. cbn. done.
  - rewrite bool_decide_false by done. set (g := c :: f) in *. assert (drop_last_newline (reverse (show ls g)) = reverse (show ls g)) as ->.
    { unfold show. rewrite reverse_app. assert (plain (reverse g)) as Hg by (unfold plain; by rewrite elem_of_reverse).
      destruct (reverse g) as [|d r] eqn:E; [by apply (f_equal length) in E; rewrite length_reverse in E|]. cbn.
      apply not_elem_of_cons in Hg as [Hd _]. by destruct (Ascii.eqb_spec d NL) as [->|]. }
    f_equal. clear. induction ls as [|x ls IH]; [done|]. rewrite show_cons, IH. cbn [app]. rewrite join_cons; [done|by destruct ls].
Qed.

Lemma behind_newline_plain part l : plain part -> behind_newline (part ++ NL :: l) = l.
Proof.
  intros Hp. unfold behind_newline. rewrite span_all by (by apply plain_eqb || by rewrite Ascii.eqb_refl). done.
Qed.

Lemma plain_drop n l : plain l -> plain (drop n l).
Proof. intros Hl Hin. apply Hl. rewrite <- (take_drop n l). set_solver. Qed.

Lemma line_end (l x : text) : l ++ NL :: x = (l ++ [NL]) ++ x.
Proof. by rewrite <- app_assoc. Qed.

Section Backwards.
Context (max_buf : nat).

(** Every line fits into the buffer with its newline and the one before it. *)
Definition fits2 (l : text) : Prop := length l + 2 <= max_buf.

Lemma rev_block ls final : Forall plain ls -> Forall fits2 ls -> length final < max_buf -> max_buf < length (show ls final) ->
  exists ls1 ls2, ls = ls1 ++ ls2 /\ ls1 <> [] /\
    behind_newline (drop (length (show ls final) - max_buf) (show ls final)) = show ls2 final /\ show ls2 final <> [].
Proof.
  intros Hp Hf Hfin. induction ls as [|l ls IH]; intros Hlen; [cbn in Hlen; lia|].
  apply Forall_cons in Hp as [Hl Hp], Hf as [Hfl Hf]. rewrite show_cons, length_app in *. cbn [length] in *.
  destruct (Nat.lt_trichotomy max_buf (length (show ls final))) as [Hlt|[Heq|Hgt]].
  - destruct (IH Hp Hf Hlt) as (ls1 & ls2 & -> & _ & E & Hne). exists (l :: ls1), ls2. split_and!; [done..| |done].
    rewrite <- E. f_equal. replace (length l + S (length (show (ls1 ++ ls2) final)) - max_buf)
      with (length (l ++ [NL]) + (length (show (ls1 ++ ls2) final) - max_buf)) by (rewrite length_app; cbn; lia).
    rewrite <- drop_drop. by rewrite (line_end l (show (ls1 ++ ls2) final)), drop_app_length.
  - destruct ls as [|l2 ls]; [cbn in Heq; lia|]. exists [l; l2], ls. split_and!; [done..| |].
    + replace (length l + S (length (show (l2 :: ls) final)) - max_buf) with (length (l ++ [NL])) by (rewrite length_app; cbn [length]; lia).
      rewrite (line_end l (show (l2 :: ls) final)), drop_app_length, show_cons.
      apply Forall_cons in Hp as [Hl2 _]. by apply behind_newline_plain.
    + apply Forall_cons in Hf as [Hf2 _]. unfold fits2 in Hf2. rewrite show_cons, length_app in Heq. cbn [length] in Heq.
      intros E. rewrite E in Heq. cbn in Heq. lia.
  - exists [l], ls. split_and!; [done..| |].
    + set (k := length l + S (length (show ls final)) - max_buf). assert (k <= length l) by (unfold k; lia).
      rewrite drop_app_le by done. apply behind_newline_plain. by apply plain_drop.
    + intros E. rewrite E in Hlen. unfold fits2 in Hfl. cbn in Hlen. lia.
Qed.

Lemma rev_loop_lines fuel : forall ls final, Forall plain ls -> plain final -> Forall fits2 ls -> length final < max_buf ->
  Forall (fun l => l <> []) ls -> length (show ls final) < fuel ->
  lparse_rev_loop max_buf fuel (show ls final) = LpLines (reverse (file_lines ls final)).
Proof.
  induction fuel as [|fuel IH]; intros ls final Hls Hf Hfit Hff Hne0 Hfuel; [lia|]. cbn [lparse_rev_loop].
  destruct (bool_decide_reflect (show ls final = [])) as [E|Hne].
  { destruct ls as [|l ls]; [|rewrite show_cons in E; by destruct l]. cbn in E. by subst. }
  assert (forall ls', show ls' final <> [] -> Forall plain ls' -> Forall (fun l => l <> []) ls' ->
    let rb := drop_last_newline (reverse (show ls' final)) in rev_lines (S (length rb)) rb = reverse (file_lines ls' final)) as Hblock.
  { intros ls' Hn Hp' Hn'. assert (ls' <> [] \/ final <> []) by (destruct ls'; [right|by left]; done).
    cbv zeta. rewrite join_show by done. apply rev_lines_join; [..|rewrite length_reverse; lia]; unfold file_lines; apply Forall_app; (split; [done|]);
      case_bool_decide; by repeat constructor. }
  rewrite length_drop.
  destruct (Nat.ltb_spec (length (show ls final) - (length (show ls final) - max_buf)) (length (show ls final))) as [Hlt|Hge].
  - destruct (rev_block ls final) as (ls1 & ls2 & -> & Hls1 & E & Hn2); [done..|lia|]. rewrite E.
    apply Forall_app in Hls as [Hl1 Hl2], Hfit as [Hf1 _], Hne0 as [Hn1 Hn2'].
    rewrite show_app, length_app, Nat.add_sub, take_app_length, (IH ls1 []); [|done|apply not_elem_of_nil|done|cbn; lia|done|].
    + rewrite Hblock by done. by rewrite file_lines_app, reverse_app.
    + rewrite show_app, length_app in Hfuel. destruct (show ls2 final); [done|]. cbn [length] in Hfuel. lia.
  - assert (length (show ls final) - max_buf = 0) as -> by lia. rewrite drop_0, Nat.sub_diag. cbn [take].
    destruct fuel as [|fuel]; [destruct (show ls final); cbn in *; [done|lia]|]. cbn [lparse_rev_loop].
    rewrite bool_decide_true, Hblock by done. by rewrite app_nil_r.
Qed.

(** Reading backwards gives the lines that reading forwards gives, the last one first, when no line is
    empty. *)
Theorem lparse_rev_reverses ls final : Forall plain ls -> plain final -> Forall fits2 ls -> length final < max_buf ->
  Forall (fun l => l <> []) ls ->
  exists l, lparse_fd max_buf (show ls final) = LpLines l /\ lparse_rev_fd max_buf (show ls final) = LpLines (reverse l) /\
    l = file_lines ls final.
Proof.
  intros Hp Hf Hfit Hff Hne. exists (file_lines ls final). split_and!; [|by apply rev_loop_lines; auto|done].
  apply lparse_fd_lines; auto; [|lia]. eapply Forall_impl; [exact Hfit|]. unfold fits2, fits. intros. cbn in *. lia.
Qed.

End Backwards.

(** ** Examples *)

Example three_lines : lparse_fd 8 (show [str "one"; str "two"; str "three"] (str "four")) = LpLines [str "one"; str "two"; str "three"; str "four"] /\
  lparse_rev_fd 8 (show [str "one"; str "two"; str "three"] (str "four")) = LpLines [str "four"; str "three"; str "two"; str "one"].
Proof. vm_compute. done. Qed.

(** A line that does not fit into the buffer: forwards, memory before the buffer is read. *)
Theorem long_line_outside : lparse_fd 8 (show [str "123456789"; str "a"] []) = LpOutside.
Proof. vm_compute. done. Qed.

(** Backwards, a line that fills the buffer with its newline is never got past. *)
Theorem full_line_loops n : lparse_rev_loop 8 n (show [str "a"; str "1234567"] []) = LpLoop.
Proof.
  induction n as [|n IH]; [done|]. change (show [str "a"; str "1234567"] []) with (str "a" ++ NL :: str "1234567" ++ [NL]) in *.
  cbn in IH |- *. by rewrite IH.
Qed.

(** Backwards, an empty line at the start of a block is left out. *)
Theorem empty_line_left_out : lparse_fd 80 (show [[]; str "a"] []) = LpLines [[]; str "a"] /\ lparse_rev_fd 80 (show [[]; str "a"] []) = LpLines [str "a"].
Proof. vm_compute. done. Qed.
