(* ===== verification/Logutils.v ===== *)
(** * What the tools for log files share: tools/logutils.c

    Names of states, the fields of a line, objects one is interested in, lines that are not understood, and
    the log files with the time of their first line.  Codes of Naemon's headers are the class [LogCodes].
    A call of lp_crash, which leaves the process, and undefined behaviour give [None]. *)

From S2P Require Import Prelude Binlog Packet Io Merlin Pgroup Node Control Checks Hooks Commands Objects Cfgfile Config Misc Shared Sql Daemon Lparse.
#[local] Open Scope Z_scope.

(** Codes of Naemon besides those of [NebTypes].  The source takes negative codes for names that are not known. *)
Class LogCodes := {
  STATE_DOWN : Z; STATE_UNREACHABLE : Z; STATE_WARNING : Z; STATE_CRITICAL : Z; STATE_UNKNOWN : Z; SOFT_STATE : Z;
  NOTIFICATION_NORMAL : Z; NOTIFICATION_ACKNOWLEDGEMENT : Z; NOTIFICATION_FLAPPINGSTART : Z; NOTIFICATION_FLAPPINGSTOP : Z;
  NOTIFICATION_FLAPPINGDISABLED : Z; NOTIFICATION_DOWNTIMESTART : Z; NOTIFICATION_DOWNTIMEEND : Z;
  NOTIFICATION_DOWNTIMECANCELLED : Z; NOTIFICATION_CUSTOM : Z;
  NEBTYPE_NOTIFICATION_END : Z; NEBTYPE_EXTERNALCOMMAND_END : Z; NEBTYPE_DOWNTIME_LOAD : Z;
  HOST_NOTIFICATION : Z; SERVICE_NOTIFICATION : Z }.

(** tools/logutils.h:52-57 string_code *)
Record string_code := StringCode { sc_nvecs : nat; sc_str : text; sc_code : Z }.

Section Codes.
Context {NT : NebTypes} {LC : LogCodes}.

(** tools/logutils.c:24-28 host_state *)
Definition host_state : list (text * Z) :=
  [(str "UP", STATE_UP); (str "DOWN", STATE_DOWN); (str "UNREACHABLE", STATE_UNREACHABLE)].

(** tools/logutils.c:30-35 service_state *)
Definition service_state : list (text * Z) :=
  [(str "OK", STATE_OK); (str "WARNING", STATE_WARNING); (str "CRITICAL", STATE_CRITICAL); (str "UNKNOWN", STATE_UNKNOWN)].

(** tools/logutils.c:38-48 notification_reason *)
Definition notification_reason : list (string * Z) :=
  [("ACKNOWLEDGEMENT", NOTIFICATION_ACKNOWLEDGEMENT); ("FLAPPINGSTART", NOTIFICATION_FLAPPINGSTART);
   ("DOWNTIMESTART", NOTIFICATION_DOWNTIMESTART); ("FLAPPINGSTOP", NOTIFICATION_FLAPPINGSTOP);
   ("FLAPPINGDISABLED", NOTIFICATION_FLAPPINGDISABLED); ("DOWNTIMESTART", NOTIFICATION_DOWNTIMESTART);
   ("DOWNTIMEEND", NOTIFICATION_DOWNTIMEEND); ("DOWNTIMECANCELLED", NOTIFICATION_DOWNTIMECANCELLED);
   ("CUSTOM", NOTIFICATION_CUSTOM)]%string.

Fixpoint assoc (l : list (text * Z)) (s : text) : Z :=
  match l with [] => -1 | (n, c) :: l => if text_eqb s n then c else assoc l s end.

(** tools/logutils.c:99-109 parse_service_state_gently *)
Definition parse_service_state_gently (s : text) : Z := assoc service_state s.
(** tools/logutils.c:121-131 parse_host_state_gently *)
Definition parse_host_state_gently (s : text) : Z := assoc host_state s.

(** tools/logutils.c:111-119 parse_service_state *)
Definition parse_service_state (s : text) : option Z :=
  let ret := parse_service_state_gently s in if ret <? 0 then None else Some ret.
(** tools/logutils.c:133-141 parse_host_state *)
Definition parse_host_state (s : text) : option Z :=
  let ret := parse_host_state_gently s in if ret <? 0 then None else Some ret.

(** tools/logutils.c:143-153 parse_notification_reason *)
Definition parse_notification_reason (s : text) : Z :=
  default NOTIFICATION_NORMAL (snd <$> find (fun e => starts s e.1) notification_reason).

(** tools/logutils.c:155-163 soft_hard *)
Definition soft_hard (s : text) : option Z :=
  if equals s "HARD" then Some HARD_STATE else if equals s "SOFT" then Some SOFT_STATE else None.

(** ** Objects of interest *)

(** tools/logutils.c:21-21 interesting_hosts -- and interesting_services; [None] is a table that was not made. *)
Record interesting := Interesting { in_hosts : option (gset text); in_services : option (gset (text * text)) }.
Definition all_interesting : interesting := Interesting None None.

Definition before (c : ascii) (s : text) : text := (span (fun x => negb (Ascii.eqb x c)) s).1.
(** strchr: what comes behind the first [c]. *)
Definition behind (c : ascii) (s : text) : option text :=
  match (span (fun x => negb (Ascii.eqb x c)) s).2 with [] => None | _ :: r => Some r end.

(** tools/logutils.c:194-213 add_interesting_object *)
Definition add_interesting_object (s : text) (i : interesting) : interesting :=
  match behind ";" s with
  | None => Interesting (Some ({[s]} ∪ default ∅ (in_hosts i))) (in_services i)
  | Some svc => Interesting (in_hosts i) (Some ({[(before ";" s, svc)]} ∪ default ∅ (in_services i)))
  end.

(** tools/logutils.c:215-221 is_interesting_host *)
Definition is_interesting_host (i : interesting) (host : text) : bool :=
  match in_hosts i with Some hs => bool_decide (host ∈ hs) | None => true end.

(** tools/logutils.c:223-231 is_interesting_service *)
Definition is_interesting_service (i : interesting) (host : text) (service : option text) : bool :=
  match service, in_services i with
  | Some s, Some ss => bool_decide ((host, s) ∈ ss)
  | _, _ => is_interesting_host i host
  end.

(** ** Lines that are not understood *)

(** tools/logutils.c:233-239 unhandled_event *)
Record unhandled_event := Unhandled { ue_file : text; ue_line : text; ue_line_no : Z; ue_repeated : Z }.

(** The list, the last event that is not in it yet, and num_unhandled, which is unsigned. *)
Record unhandled := UnhandledState { un_list : list unhandled_event; un_last : option unhandled_event; un_num : Z }.

(** tools/logutils.c:252-252 handle_unknown_event -- strncmp of 20 characters from the 15th on; [None] when a
    line is shorter than that. *)
Definition similar (a b : text) : option bool :=
  if ((length a <? 14) || (length b <? 14))%nat then None else Some (text_eqb (take 20 (drop 14 a)) (take 20 (drop 14 b))).

(** tools/logutils.c:248-276 handle_unknown_event *)
Definition handle_unknown_event (file line : text) (line_no : Z) (u : unhandled) : option unhandled :=
  let num := u32 (un_num u + 1) in
  let fresh l := UnhandledState l (Some (Unhandled file line line_no 0)) num in
  match un_last u with
  | None => Some (fresh (un_list u))
  | Some e =>
      s ← similar line (ue_line e);
      Some (if s : bool
            then UnhandledState (un_list u) (Some (Unhandled (ue_file e) (ue_line e) (ue_line_no e) (u64 (ue_repeated e + 1)))) num
            else fresh (e :: un_list u))
  end.

(** tools/logutils.c:278-313 print_unhandled_events -- what is printed: the number and the events. *)
Definition print_unhandled_events (file : text) (line_no : Z) (u : unhandled) : option (Z * list unhandled_event) :=
  if un_num u =? 0 then Some (0, []) else
  u ← handle_unknown_event file (str "Fake unhandled event") line_no u;
  Some (u32 (un_num u - 1), un_list u).

(** ** Fields *)

(** tools/logutils.c:315-329 vectorize_string -- the fields; [i] are there already, [cur] is the one that is being read, latest
    character first. *)
Fixpoint vectorize_loop (i nvecs : nat) (cur s : text) : list text :=
  match s with
  | [] => [reverse cur]
  | c :: r =>
      if (i <? nvecs)%nat && Ascii.eqb c ";" then reverse cur :: vectorize_loop (S i) nvecs [] r
      else vectorize_loop i nvecs (c :: cur) r
  end.
Definition vectorize_string (s : text) (nvecs : nat) : list text := vectorize_loop 1 nvecs [] s.

(** tools/logutils.c:335-349 devectorize_string -- the first [nvecs] fields are one text again. *)
Definition devectorize_string (ary : list text) (nvecs : nat) : text := join ";" (take nvecs ary).

(** tools/logutils.c:351-361 get_string_code *)
Definition get_string_code (codes : list string_code) (s : text) : option string_code :=
  find (fun c => text_eqb s (sc_str c)) codes.

(** ** Kinds of lines *)

Fixpoint strstr (s : text) (t : text) : bool :=
  has_prefix t s || match s with [] => false | _ :: s => strstr s t end.

(** tools/logutils.c:363-375 is_interesting *)
Definition is_interesting (ptr : text) : bool :=
  negb (starts ptr "Auto-save of retention data" || starts ptr "Event broker module" ||
        starts ptr "You do not have permission" || starts ptr "Local time is").

(** tools/logutils.c:377-387 is_start_event *)
Definition is_start_event (ptr : text) : bool :=
  starts ptr "Finished daemonizing..." || starts ptr "Caught SIGHUP" || strstr ptr (str "starting...").

(** tools/logutils.c:389-405 is_stop_event *)
Definition is_stop_event (ptr : text) : bool :=
  starts ptr "PROGRAM_RESTART" || starts ptr "Caught SIGTERM" || starts ptr "Successfully shutdown..." ||
  starts ptr "Bailing out" || starts ptr "Lockfile" || strstr ptr (str "shutting down...").

(** ** Log files *)

(** tools/logutils.c:407-418 strtotimet -- a time_t is signed. *)
Definition strtotimet (s : text) : option Z :=
  let '(n, rest) := strtoull 10 s in if (length rest =? length s)%nat then None else Some (s64 n).

(** tools/logutils.c:420-456 first_log_time -- the time of a file with this content, whose size is its length. *)
Definition first_log_time (content : text) : option Z :=
  let read_len := Nat.min 1024 (length content) in
  let buf := take 1023 content in
  let nls := length (span (fun c => Ascii.eqb c NL || Ascii.eqb c "013") buf).1 in
  let i := Nat.min nls (read_len - 12) in
  strtotimet (drop (S i) buf).

Record naglog_file := NaglogFile { nf_path : text; nf_first : Z; nf_size : Z }.

(** tools/logutils.c:461-467 nfile_cmp -- the difference of two time_t as an int. *)
Definition nfile_cmp (a b : naglog_file) : Z := s32 (s64 (nf_first a - nf_first b)).
(** tools/logutils.c:470-476 nfile_rev_cmp *)
Definition nfile_rev_cmp (a b : naglog_file) : Z := s32 (s64 (nf_first b - nf_first a)).

(** What a path is: a file with its content, or a directory with the names in it. *)
Inductive log_path := LogFile (content : text) | LogDir (names : list text).

(** tools/logutils.c:496-504 add_naglog_directory -- names of log files. *)
Definition log_name (d_name : text) : bool :=
  (starts d_name "nagios" || starts d_name "naemon") && (10 <=? length d_name)%nat && strstr d_name (str ".log").

(** tools/logutils.c:516-544 add_naglog_path -- and 480-512 add_naglog_directory; [fuel] is the depth of directories. *)
Fixpoint add_naglog_path (fs : text -> option log_path) (fuel : nat) (path : text) (files : list naglog_file) : option (Z * list naglog_file) :=
  match fuel with
  | O => None
  | S fuel =>
      if bool_decide (path ∈ map nf_path files) then Some (-1, files) else
      match fs path with
      | None => None
      | Some (LogDir names) =>
          files ← fold_opt (fun n files => snd <$> add_naglog_path fs fuel (path ++ "/"%char :: n) files) (List.filter log_name names) files;
          Some (0, files)
      | Some (LogFile c) =>
          first ← first_log_time c;
          Some (0, files ++ [NaglogFile path first (Z.of_nat (length c))])
      end
  end.
End Codes.

(** ** Fields, again *)

Lemma vectorize_nonempty i n cur s : vectorize_loop i n cur s <> [].
Proof. revert i cur. induction s as [|c s IH]; intros i cur; [done|]. cbn. by destruct (_ && _). Qed.

Lemma vectorize_join i n cur s : join ";" (vectorize_loop i n cur s) = reverse cur ++ s.
Proof.
  revert i cur. induction s as [|c s IH]; intros i cur; cbn [vectorize_loop]; [by rewrite app_nil_r|].
  destruct ((i <? n)%nat && Ascii.eqb c ";") eqn:E.
  - apply andb_true_iff in E as [_ ->%Ascii.eqb_eq]. rewrite join_cons by apply vectorize_nonempty. by rewrite IH.
  - by rewrite IH, reverse_cons, <- app_assoc.
Qed.

Definition semicolons (s : text) : nat := length (filter (fun c => c = ";"%char) s).

Lemma vectorize_length i n cur s : (1 <= i)%nat ->
  length (vectorize_loop i n cur s) = S (Nat.min (n - i) (semicolons s)).
Proof.
  revert i cur. induction s as [|c s IH]; intros i cur Hi; cbn [vectorize_loop]; [cbn; lia|].
  unfold semicolons in *. rewrite filter_cons. destruct (Ascii.eqb_spec c ";") as [->|Hc].
  - rewrite decide_True, andb_true_r by done. cbn [length]. destruct (Nat.ltb_spec i n); cbn [length]; rewrite IH by lia; lia.
  - rewrite decide_False, andb_false_r by done. apply IH. lia.
Qed.

(** Cutting a line into fields and putting them together again gives the line; there are as many fields as
    were asked for when the line has enough. *)
Theorem vectorize_roundtrip s n : (0 < n)%nat ->
  devectorize_string (vectorize_string s n) n = s /\ length (vectorize_string s n) = Nat.min n (S (semicolons s)).
Proof.
  intros Hn. unfold devectorize_string, vectorize_string. rewrite vectorize_length by lia. split; [|lia].
  rewrite take_ge by (rewrite vectorize_length; lia). by rewrite vectorize_join.
Qed.

(** All but the last field have no semicolon. *)
Lemma vectorize_fields l x n : length l = pred n -> (0 < n)%nat -> Forall (fun f => ";"%char ∉ f) l ->
  vectorize_string (join ";" (l ++ [x])) n = l ++ [x].
Proof.
  intros Hl Hn Hf. unfold vectorize_string.
  assert (forall l i, (1 <= i)%nat -> n = (i + length l)%nat -> Forall (fun f => ";"%char ∉ f) l -> forall cur, 
    vectorize_loop i n cur (join ";" (l ++ [x])) = match l ++ [x] with [] => [] | f :: r => (reverse cur ++ f) :: r end) as H.
  { clear Hl Hn Hf l. induction l as [|f l IH]; intros i Hi Hn Hf cur.
    - cbn [app join]. cbn [length] in Hn. assert (forall cur s, vectorize_loop i n cur s = [reverse cur ++ s]) as ->; [|done].
      clear cur. intros cur s. revert cur. induction s as [|c s IH]; intros cur; cbn [vectorize_loop]; [by rewrite app_nil_r|].
      rewrite (proj2 (Nat.ltb_ge i n)) by lia. cbn [andb]. by rewrite IH, reverse_cons, <- app_assoc.
    - apply Forall_cons in Hf as [Hf Hl]. cbn [app]. rewrite join_cons by (by destruct l).
      assert (forall s cur, ";"%char ∉ s -> vectorize_loop i n cur (s ++ ";"%char :: join ";" (l ++ [x])) =
        (reverse cur ++ s) :: vectorize_loop (S i) n [] (join ";" (l ++ [x]))) as Hs.
      { induction s as [|c s IHs]; intros cur' Hc; cbn [app vectorize_loop].
        - cbn [length] in Hn. rewrite (proj2 (Nat.ltb_lt i n)) by lia. by rewrite app_nil_r.
        - apply not_elem_of_cons in Hc as [Hc Hs]. rewrite (proj2 (Ascii.eqb_neq c ";")) by congruence. rewrite andb_false_r.
          rewrite IHs by done. by rewrite reverse_cons, <- app_assoc. }
      rewrite Hs by done. cbn [length] in Hn. rewrite IH by (done || lia). f_equal. by destruct (l ++ [x]). }
  rewrite H by (done || lia). by destruct (l ++ [x]).
Qed.

(** ** Lines that are not understood, again *)

Definition events_of (e : unhandled_event) : Z := 1 + ue_repeated e.
Definition counted (u : unhandled) : Z := foldr (fun e a => events_of e + a) 0 (un_list u) + from_option events_of 0 (un_last u).

(** The number of lines is that of the events with their repetitions, and no counter has wrapped. *)
Record unhandled_ok (u : unhandled) : Prop := UnhandledOk {
  uo_num : un_num u = counted u; uo_range : 0 <= un_num u < 2 ^ 32;
  uo_pos : Forall (fun e => 0 <= ue_repeated e) (un_list u); uo_last : from_option (fun e => 0 <= ue_repeated e) True (un_last u) }.

Lemma counted_nonneg l : Forall (fun e => 0 <= ue_repeated e) l -> 0 <= foldr (fun e a => events_of e + a) 0 l.
Proof. unfold events_of. induction 1; cbn; lia. Qed.

(** Every line that is not understood is counted once. *)
Theorem unknown_event_counted file line line_no u u' : unhandled_ok u -> un_num u < 2 ^ 32 - 1 ->
  handle_unknown_event file line line_no u = Some u' -> unhandled_ok u' /\ un_num u' = un_num u + 1.
Proof.
  intros [Hn Hr Hp Hl] Hlt. unfold handle_unknown_event. rewrite u32_small by lia. unfold counted in Hn.
  destruct u as [l [e|] n]; cbn [un_last un_list un_num from_option] in *.
  - destruct (similar line (ue_line e)) as [[]|]; intros [= <-]; (split; [|done]); constructor; cbn; unfold counted; cbn.
    all: pose proof (counted_nonneg l Hp); unfold events_of in *; rewrite ?u64_small by lia; cbn; try done; try lia.
    by constructor.
  - intros [= <-]. split; [|done]. constructor; cbn; unfold counted; cbn; unfold events_of in *; cbn; try done; lia.
Qed.

(** What is printed accounts for all lines. *)
Theorem unhandled_printed file line_no u n l : unhandled_ok u -> un_num u < 2 ^ 32 - 1 ->
  (forall e, un_last u = Some e -> similar (str "Fake unhandled event") (ue_line e) = Some false) ->
  print_unhandled_events file line_no u = Some (n, l) -> n = un_num u /\ (n <> 0 -> n = foldr (fun e a => events_of e + a) 0 l).
Proof.
  intros [Hn Hr Hp Hl] Hlt Hs. unfold print_unhandled_events. destruct (Z.eqb_spec (un_num u) 0) as [E|E]; [by intros [= <- <-]|].
  unfold handle_unknown_event. unfold counted in Hn. destruct u as [k [e|] m]; cbn [un_last un_list un_num from_option] in *.
  - rewrite (Hs e eq_refl). intros [= <- <-]. cbn. rewrite (u32_small (m + 1)) by lia. replace (m + 1 - 1) with m by lia.
    rewrite u32_small by lia. unfold events_of in *. lia.
  - intros [= <- <-]. cbn. rewrite (u32_small (m + 1)) by lia. replace (m + 1 - 1) with m by lia. rewrite u32_small by lia. lia.
Qed.

(** ** Log files, again *)

Lemma fold_opt_inv {A B} (P : B -> Prop) (f : A -> B -> option B) l b b' :
  (forall a b b', P b -> f a b = Some b' -> P b') -> P b -> fold_opt f l b = Some b' -> P b'.
Proof.
  intros Hf. revert b. induction l as [|a l IH]; intros b Hb; cbn [fold_opt]; [by intros [= <-]|].
  destruct (f a b) as [b1|] eqn:E; cbn; [|done]. apply IH. by eapply Hf.
Qed.

(** No file is listed twice, whatever is named on the command line or found in directories. *)
Theorem log_files_unique fs fuel path files r files' : NoDup (map nf_path files) ->
  add_naglog_path fs fuel path files = Some (r, files') -> NoDup (map nf_path files').
Proof.
  revert path files r files'. induction fuel as [|fuel IH]; intros path files r files' Hnd; [done|]. cbn [add_naglog_path].
  case_bool_decide as Hin; [by intros [= <- <-]|]. destruct (fs path) as [[c|names]|]; [| |done].
  - destruct (first_log_time c) as [t|]; cbn; [|done]. intros [= <- <-]. rewrite map_app. apply NoDup_app. split_and!; [done| |apply NoDup_singleton].
    intros x Hx ->%list_elem_of_singleton. done.
  - destruct (fold_opt _ _ files) as [k|] eqn:E; cbn; [|done]. intros [= <- <-].
    revert E. apply (fold_opt_inv (fun l => NoDup (map nf_path l))); [|done]. intros n l l' Hl.
    destruct (add_naglog_path fs fuel _ l) as [[z k']|] eqn:E; cbn; [|done]. intros [= <-]. by eapply IH.
Qed.

(** A text that is too short is compared behind its end. *)
Theorem short_text_outside file u e : un_last u = Some e -> handle_unknown_event file (str "DOWN (x") 1 u = None.
Proof. intros E. unfold handle_unknown_event. by rewrite E. Qed.

(** A text at its first [ch]. *)
Lemma behind_app ch a b : Forall (fun x => Ascii.eqb x ch = false) a -> behind ch (a ++ ch :: b) = Some b.
Proof.
  intros Ha. unfold behind. induction Ha as [|x a Hx _ IH]; cbn [app span]; [by rewrite Ascii.eqb_refl|]. rewrite Hx. cbn [negb].
  by destruct (span _ (a ++ ch :: b)).
Qed.

Lemma before_app ch a b : Forall (fun x => Ascii.eqb x ch = false) a -> before ch (a ++ ch :: b) = a.
Proof.
  intros Ha. unfold before. induction Ha as [|x a Hx _ IH]; cbn [app span]; [by rewrite Ascii.eqb_refl|]. rewrite Hx. cbn [negb].
  destruct (span _ (a ++ ch :: b)). cbn in *. by rewrite IH.
Qed.

Lemma behind_split ch s r : behind ch s = Some r -> s = before ch s ++ ch :: r /\ Forall (fun x => Ascii.eqb x ch = false) (before ch s).
Proof.
  unfold behind, before. revert r. induction s as [|x s IH]; intros r; cbn [span]; [done|]. destruct (Ascii.eqb x ch) eqn:E; cbn [negb].
  - intros [= <-]. apply Ascii.eqb_eq in E as ->. by split; [|constructor].
  - destruct (span _ s) as [b e]. cbn [fst snd] in *. intros H. destruct (IH r H) as [-> Hb]. split; [done|by constructor].
Qed.

(** A number that is printed is read again. *)
Lemma strtol_raw_dec n rest : 0 <= n -> match rest with c :: _ => 10 <= digit_value c | [] => True end ->
  strtol_raw 10 (dec n ++ rest) = (false, n, true, rest).
Proof.
  intros Hn Hr. destruct (dec_spec n Hn) as (Hv & Hd & Hne).
  assert (forall c, isdigit c = true -> isspace c = false /\ Ascii.eqb c "-" = false /\ Ascii.eqb c "+" = false /\ (digit_value c <? 10) = true) as Hc.
  { intros c Hc. destruct c as [[] [] [] [] [] [] [] []]; vm_compute in Hc; try done; vm_compute; done. }
  unfold strtol_raw. destruct (dec n) as [|c l] eqn:E; [done|]. apply Forall_cons in Hd as Hd'. destruct Hd' as [H1 H2].
  destruct (Hc c H1) as (S1 & S2 & S3 & _). cbn [app span]. rewrite S1. cbn [snd]. rewrite S2, S3. cbn [Z.eqb].
  change (c :: l ++ rest) with ((c :: l) ++ rest). rewrite (span_digits _ (c :: l) rest).
  - rewrite bool_decide_false by done. by rewrite Hv.
  - eapply Forall_impl; [exact Hd|]. intros x Hx. apply Hc, Hx.
  - destruct rest; [done|]. apply Z.ltb_ge. lia.
Qed.

(** The numbers of Naemon's headers. *)
Definition naemon_codes : LogCodes := {| STATE_DOWN := 1; STATE_UNREACHABLE := 2; STATE_WARNING := 1; STATE_CRITICAL := 2; STATE_UNKNOWN := 3; SOFT_STATE := 0;
  NOTIFICATION_NORMAL := 0; NOTIFICATION_ACKNOWLEDGEMENT := 1; NOTIFICATION_FLAPPINGSTART := 2; NOTIFICATION_FLAPPINGSTOP := 3;
  NOTIFICATION_FLAPPINGDISABLED := 4; NOTIFICATION_DOWNTIMESTART := 5; NOTIFICATION_DOWNTIMEEND := 6;
  NOTIFICATION_DOWNTIMECANCELLED := 7; NOTIFICATION_CUSTOM := 8;
  NEBTYPE_NOTIFICATION_END := 601; NEBTYPE_EXTERNALCOMMAND_END := 1401; NEBTYPE_DOWNTIME_LOAD := 1102;
  HOST_NOTIFICATION := 0; SERVICE_NOTIFICATION := 1 |}.
