(* ===== verification/Import.v ===== *)
(** * Log files into the database: tools/import.c

    The lines of Naemon's log files, in the order of time, become rows of the table of reports: states that
    are new, downtimes, starts and stops of Naemon; or, when that is asked for, notifications alone.  The
    state is that of the process with the database of [Sql] in it.  A crash, which leaves the process, an
    assertion that fails and undefined behaviour give [None]. *)

From S2P Require Import Prelude Binlog Packet Io Merlin Pgroup Node Control Checks Hooks Commands Objects Cfgfile Config Misc Shared Sql Daemon Lparse Logutils.
#[local] Open Scope Z_scope.

(** tools/import.c:25-37 imported -- and the other variables of the file, of tools/logutils.c and of its callees that a line changes. *)
Record import := Import {
  im_sql : sqldb; im_states : states; im_unhandled : unhandled; im_ltime : Z; im_last_ltime : Z;
  im_running : bool; im_start : Z; im_stop : Z; im_disabled : bool; im_imported : Z; im_skipped : Z; im_totsize : Z;
  im_line_no : Z; im_since : Z; im_totlines : Z; im_warnings : Z; im_file : text }.

#[export] Instance eta_import : Eta import := fun r =>
  Import (im_sql r) (im_states r) (im_unhandled r) (im_ltime r) (im_last_ltime r) (im_running r) (im_start r) (im_stop r)
    (im_disabled r) (im_imported r) (im_skipped r) (im_totsize r) (im_line_no r) (im_since r) (im_totlines r) (im_warnings r) (im_file r).

(** What the command line sets. *)
Record import_conf := ImportConf {
  ic_only_notifications : bool; ic_repair : bool; ic_table : text; ic_incremental : Z; ic_interesting : interesting }.

Definition IM (A : Type) : Type := import -> option (A * import).
#[export] Instance IM_ret : MRet IM := fun A a s => Some (a, s).
#[export] Instance IM_bind : MBind IM := fun A B k c s => match c s with Some (a, s) => k a s | None => None end.
Definition igets {A} (f : import -> A) : IM A := fun s => Some (f s, s).
Definition imod (f : import -> import) : IM unit := fun s => Some (tt, f s).
Definition lp_crash {A} : IM A := fun _ => None.

(** A computation on the database. *)
Definition sql {A} (c : DB A) : IM A := fun s => match c (im_sql s) with Some (a, d) => Some (a, s <| im_sql := d |>) | None => None end.

(** A value that may be missing, which ends the process. *)
Definition need {A} (o : option A) : IM A := match o with Some a => mret a | None => lp_crash end.

Definition CONCERNS_HOST : Z := 50.
Definition CONCERNS_SERVICE : Z := 60.
Definition IGNORE_LINE : Z := 0.

Section Lines.
Context {NT : NebTypes} {LC : LogCodes} (quote : text -> text) (conf : import_conf).

(** tools/import.c:39-72 event_codes *)
Definition event_codes : list string_code :=
  map (fun s => StringCode 0 (str s) IGNORE_LINE)
    ["Error"; "Warning"; "LOG ROTATION"; "HOST FLAPPING ALERT"; "SERVICE FLAPPING ALERT"; "SERVICE EVENT HANDLER";
     "HOST EVENT HANDLER"; "SERVICE NOTIFICATION SUPPRESSED"; "HOST NOTIFICATION SUPPRESSED";
     "SERVICE CONTACT NOTIFICATION SUPPRESSED"; "HOST CONTACT NOTIFICATION SUPPRESSED"; "LOG VERSION"; "livestatus";
     "TIMEPERIOD TRANSITION"; "wproc"; "qh"; "nerd"]%string ++
  [StringCode 5 (str "HOST NOTIFICATION") (NEBTYPE_NOTIFICATION_END + CONCERNS_HOST);
   StringCode 6 (str "SERVICE NOTIFICATION") (NEBTYPE_NOTIFICATION_END + CONCERNS_SERVICE);
   StringCode 3 (str "PASSIVE HOST CHECK") NEBTYPE_HOSTCHECK_PROCESSED;
   StringCode 4 (str "PASSIVE SERVICE CHECK") NEBTYPE_SERVICECHECK_PROCESSED;
   StringCode 0 (str "EXTERNAL COMMAND") NEBTYPE_EXTERNALCOMMAND_END;
   StringCode 5 (str "HOST ALERT") NEBTYPE_HOSTCHECK_PROCESSED;
   StringCode 5 (str "INITIAL HOST STATE") NEBTYPE_HOSTCHECK_PROCESSED;
   StringCode 5 (str "CURRENT HOST STATE") NEBTYPE_HOSTCHECK_PROCESSED;
   StringCode 6 (str "SERVICE ALERT") NEBTYPE_SERVICECHECK_PROCESSED;
   StringCode 6 (str "INITIAL SERVICE STATE") NEBTYPE_SERVICECHECK_PROCESSED;
   StringCode 6 (str "CURRENT SERVICE STATE") NEBTYPE_SERVICECHECK_PROCESSED;
   StringCode 3 (str "HOST DOWNTIME ALERT") (NEBTYPE_DOWNTIME_LOAD + CONCERNS_HOST);
   StringCode 4 (str "SERVICE DOWNTIME ALERT") (NEBTYPE_DOWNTIME_LOAD + CONCERNS_SERVICE)].

(** tools/import.c:74-94 command_codes -- with the numbers of tools/logutils.h. *)
Definition command_codes : list string_code :=
  [StringCode 1 (str "DEL_HOST_DOWNTIME") 1; StringCode 1 (str "DEL_SVC_DOWNTIME") 2;
   StringCode 8 (str "SCHEDULE_AND_PROPAGATE_HOST_DOWNTIME") 3; StringCode 8 (str "SCHEDULE_AND_PROPAGATE_TRIGGERED_HOST_DOWNTIME") 4;
   StringCode 8 (str "SCHEDULE_HOSTGROUP_HOST_DOWNTIME") 5; StringCode 8 (str "SCHEDULE_HOSTGROUP_SVC_DOWNTIME") 6;
   StringCode 8 (str "SCHEDULE_HOST_DOWNTIME") 7; StringCode 8 (str "SCHEDULE_HOST_SVC_DOWNTIME") 8;
   StringCode 8 (str "SCHEDULE_SERVICEGROUP_HOST_DOWNTIME") 9; StringCode 8 (str "SCHEDULE_SERVICEGROUP_SVC_DOWNTIME") 10;
   StringCode 8 (str "SCHEDULE_SVC_DOWNTIME") 11; StringCode 6 (str "ACKNOWLEDGE_SVC_PROBLEM") 13;
   StringCode 5 (str "ACKNOWLEDGE_HOST_PROBLEM") 12].
Definition RESTART_PROGRAM : Z := 14.

(** tools/import.c:97-110 handle_sql_result *)
Definition handle_sql_result (errors : Z) (table : text) : IM unit :=
  crashed ← igets (fun s => sq_crashed (im_sql s));
  if (errors =? 0) || negb crashed then mret tt else
  if ic_repair conf then sql (sql_repair_table table) ;; mret tt else lp_crash.

Definition at_ltime (t : Z) (type : Z) (cols : list (string * sql_value)) : stmt :=
  Insert (ic_table conf) (("timestamp"%string, VNum t) :: ("event_type"%string, VNum type) :: cols).

Definition key (t : text) : option string := Some (String.string_of_list_ascii t).

(** tools/import.c:112-138 insert_host_result *)
Definition insert_host_result (type : Z) (host : text) (state state_type attempt : Z) (output : text) : IM Z :=
  st ← igets im_states;
  let '(new, st) := host_has_new_state (key host) state state_type st in
  imod (fun s => s <| im_states := st |>) ;;
  if negb new then mret 0 else
  ltime ← igets im_ltime;
  host_name ← sql (sql_quote quote (Some host));
  out ← sql (sql_quote quote (Some output));
  let hard := Z.b2z ((state_type =? HARD_STATE) || (state =? 0)) in
  sql (sql_vquery (at_ltime ltime type
    [("host_name", VText host_name); ("state", VNum state); ("hard", VNum hard); ("retry", VNum attempt); ("output", VText out)]%string)).

(** tools/import.c:140-168 insert_service_result *)
Definition insert_service_result (type : Z) (host desc : text) (state state_type attempt : Z) (output : text) : IM Z :=
  st ← igets im_states;
  let '(new, st) := service_has_new_state (key host) (key desc) state state_type st in
  imod (fun s => s <| im_states := st |>) ;;
  if negb new then mret 0 else
  ltime ← igets im_ltime;
  host_name ← sql (sql_quote quote (Some host));
  service_description ← sql (sql_quote quote (Some desc));
  out ← sql (sql_quote quote (Some output));
  let hard := Z.b2z ((state_type =? HARD_STATE) || (state =? 0)) in
  sql (sql_vquery (at_ltime ltime type
    [("host_name", VText host_name); ("service_description", VText service_description); ("state", VNum state); ("hard", VNum hard);
     ("retry", VNum attempt); ("output", VText out)]%string)).

(** tools/import.c:170-199 sql_insert_downtime *)
Definition sql_insert_downtime (type : Z) (host : text) (service : option text) : IM Z :=
  ltime ← igets im_ltime;
  let depth := Z.b2z (type =? NEBTYPE_DOWNTIME_START) in
  host_name ← sql (sql_quote quote (Some host));
  match service with
  | Some d =>
      service_description ← sql (sql_quote quote (Some d));
      sql (sql_vquery (at_ltime ltime type
        [("host_name", VText host_name); ("service_description", VText service_description); ("downtime_depth", VNum depth)]%string))
  | None => sql (sql_vquery (at_ltime ltime type [("host_name", VText host_name); ("downtime_depth", VNum depth)]%string))
  end.

(** tools/import.c:201-218 insert_process_data *)
Definition insert_process_data (type : Z) : IM Z :=
  ltime ← igets im_ltime;
  let insert (type : Z) := sql (sql_vquery (at_ltime ltime type [])) in
  if (type =? NEBTYPE_PROCESS_START) || (type =? NEBTYPE_PROCESS_SHUTDOWN) then insert type
  else if type =? NEBTYPE_PROCESS_RESTART then insert NEBTYPE_PROCESS_SHUTDOWN
  else mret 0.

(** tools/import.c:229-259 show_progress -- but for what it prints. *)
Definition show_progress : IM unit :=
  imod (fun s => s <| im_totlines := u64 (im_totlines s + im_since s) |> <| im_since := 0 |>).

(** tools/import.c:288-315 disable_indexes -- the floating point numbers are rationals. *)
Definition disable_indexes : IM unit :=
  s ← igets id;
  if im_disabled s then mret tt else
  if 95 * im_totsize s <=? 100 * (im_skipped s + im_imported s) then mret tt else
  r ← sql (sql_vquery (Other (str "ALTER TABLE " ++ ic_table conf ++ str " DISABLE KEYS")));
  if negb (r =? 0) then lp_crash else
  r ← sql (sql_vquery (Other (str "LOCK TABLES " ++ ic_table conf ++ str " WRITE, report_data_extras WRITE")));
  if negb (r =? 0) then lp_crash else
  imod (fun s => s <| im_disabled := true |>).

(** Whether rows are written at all. *)
Definition no_rows : IM bool := use ← igets (fun s => use_database (im_sql s)); mret (negb use || ic_only_notifications conf).

(** tools/import.c:354-380 insert_downtime_event *)
Definition insert_downtime_event (type : Z) (host : text) (service : option text) : IM Z :=
  if negb (is_interesting_service (ic_interesting conf) host service) then mret 0 else
  no ← no_rows;
  if no : bool then mret 0 else
  disable_indexes ;;
  result ← sql_insert_downtime type host service;
  if result <? 0 then lp_crash else mret result.

(** tools/import.c:391-403 parse_import_notification -- the text of the state, when there is a reason. *)
Definition state_text (s : text) : option text :=
  match (span (fun c => negb (Ascii.eqb c " ")) s).2 with
  | [] => None
  | sp =>
      match span (fun c => negb (Ascii.eqb c ")")) sp with
      | (_, []) => None
      | (a, _ :: rest) => Some (if (2 <=? length a)%nat then drop 2 a else rest)
      end
  end.

(** tools/import.c:386-413 parse_import_notification -- type, reason and state. *)
Definition parse_import_notification (s : text) : option (Z * Z * Z) :=
  let reason := parse_notification_reason s in
  st ← (if reason =? NOTIFICATION_NORMAL then Some s else state_text s);
  let state := parse_service_state_gently st in
  Some (if state <? 0 then (HOST_NOTIFICATION, reason, parse_host_state_gently st) else (SERVICE_NOTIFICATION, reason, state)).

(** A line that is not understood. *)
Definition unknown (line : text) : IM unit :=
  s ← igets id;
  u ← need (handle_unknown_event (im_file s) line (im_line_no s) (im_unhandled s));
  imod (fun s => s <| im_unhandled := u |>).

(** A field of the line; those beyond the last are not read. *)
Definition strv (v : list text) (i : nat) : text := nth i v [].

(** tools/import.c:415-470 insert_notification *)
Definition insert_notification (sc : string_code) (v : list text) : IM Z :=
  if negb (ic_only_notifications conf) then mret 0 else
  let base_idx := if sc_code sc - NEBTYPE_NOTIFICATION_END =? CONCERNS_SERVICE then 1%nat else 0%nat in
  match parse_import_notification (strv v (base_idx + 2)) with
  | None => unknown (strv v (base_idx + 2)) ;; mret 0
  | Some (type, reason, state) =>
      use ← igets (fun s => use_database (im_sql s));
      if negb use then mret 0 else
      disable_indexes ;;
      ltime ← igets im_ltime;
      contact_name ← sql (sql_quote quote (Some (strv v 0)));
      host_name ← sql (sql_quote quote (Some (strv v 1)));
      service_description ← (if (base_idx =? 1)%nat then sql (sql_quote quote (Some (strv v 2))) else mret None);
      command_name ← sql (sql_quote quote (Some (strv v (base_idx + 3))));
      output ← sql (sql_quote quote (Some (strv v (base_idx + 4))));
      sql (sql_vquery (Insert (ic_table conf)
        [("notification_type", VNum type); ("start_time", VNum ltime); ("end_time", VNum ltime); ("contact_name", VText contact_name);
         ("host_name", VText host_name); ("service_description", VText service_description); ("command_name", VText command_name);
         ("output", VText output); ("state", VNum state); ("reason_type", VNum reason)]%string))
  end.

(** A state as a number or a name. *)
Definition state_of (parse : text -> option Z) (s : text) : option Z :=
  match s with c :: _ => if isdigit c then Some (atoi s) else parse s | [] => parse s end.

(** tools/import.c:472-506 insert_service_check *)
Definition insert_service_check (sc : string_code) (v : list text) : IM Z :=
  if negb (is_interesting_service (ic_interesting conf) (strv v 0) (Some (strv v 1))) then mret 0 else
  ds ← (if (sc_nvecs sc =? 4)%nat then
          state ← need (state_of parse_service_state (strv v 2)); mret (state, HARD_STATE, 1, strv v 3)
        else
          state ← need (parse_service_state (strv v 2)); type ← need (soft_hard (strv v 3));
          mret (state, type, atoi (strv v 4), strv v 5));
  let '(state, state_type, attempt, output) := ds in
  no ← no_rows;
  if no : bool then mret 0 else
  disable_indexes ;;
  insert_service_result (sc_code sc) (strv v 0) (strv v 1) state state_type attempt output.

(** tools/import.c:508-541 insert_host_check *)
Definition insert_host_check (sc : string_code) (v : list text) : IM Z :=
  if negb (is_interesting_host (ic_interesting conf) (strv v 0)) then mret 0 else
  ds ← (if (sc_nvecs sc =? 3)%nat then
          state ← need (state_of parse_host_state (strv v 1)); mret (state, HARD_STATE, 1, strv v 2)
        else
          state ← need (parse_host_state (strv v 1)); type ← need (soft_hard (strv v 2));
          mret (state, type, atoi (strv v 3), strv v 4));
  let '(state, state_type, attempt, output) := ds in
  no ← no_rows;
  if no : bool then mret 0 else
  disable_indexes ;;
  insert_host_result (sc_code sc) (strv v 0) state state_type attempt output.

(** tools/import.c:543-555 insert_process_event *)
Definition insert_process_event (type : Z) : IM Z :=
  no ← no_rows;
  if no : bool then mret 0 else
  disable_indexes ;;
  insert_process_data type.

(** tools/import.c:566-601 insert_downtime *)
Definition insert_downtime (sc : string_code) (v : list text) : IM Z :=
  let service := if (sc_nvecs sc =? 4)%nat then Some (strv v 1) else None in
  let type := if equals (strv v (sc_nvecs sc - 2)) "STARTED" then NEBTYPE_DOWNTIME_START else NEBTYPE_DOWNTIME_STOP in
  insert_downtime_event type (strv v 0) service ;;
  mret 0.

(** tools/import.c:603-610 handle_start_event *)
Definition handle_start_event : IM unit :=
  running ← igets im_running;
  (if running : bool then mret tt else insert_process_event NEBTYPE_PROCESS_START ;; mret tt) ;;
  imod (fun s => s <| im_start := im_ltime s |> <| im_running := true |>).

(** tools/import.c:612-619 handle_stop_event *)
Definition handle_stop_event : IM unit :=
  running ← igets im_running;
  (if running : bool then insert_process_event NEBTYPE_PROCESS_SHUTDOWN ;; imod (fun s => s <| im_running := false |>) else mret tt) ;;
  imod (fun s => s <| im_stop := im_ltime s |>).

(** ** A line *)

Definition warn : IM unit := imod (fun s => s <| im_warnings := u32 (im_warnings s + 1) |>).

(** tools/import.c:650-656 parse_line -- the time of a line does not go back. *)
Definition set_time (t : Z) : IM unit :=
  imod (fun s => if t <? im_last_ltime s then s <| im_ltime := im_last_ltime s |> else s <| im_ltime := t |> <| im_last_ltime := t |>).

(** tools/import.c:718-728 parse_line -- whether the event is handled at all. *)
Definition is_notification (sc : string_code) : bool :=
  (sc_code sc =? NEBTYPE_NOTIFICATION_END + CONCERNS_HOST) || (sc_code sc =? NEBTYPE_NOTIFICATION_END + CONCERNS_SERVICE).

(** tools/import.c:760-781 parse_line -- a command. *)
Definition external_command (ptr : text) : IM Z :=
  match behind ";" ptr with
  | None => mret 0
  | Some args =>
      match get_string_code command_codes (before ";" ptr) with
      | None => mret 0
      | Some sc =>
          if sc_code sc =? RESTART_PROGRAM then handle_stop_event ;; mret 0 else
          (if (length (vectorize_string args (sc_nvecs sc)) =? sc_nvecs sc)%nat then mret tt else warn) ;;
          handle_sql_result 0 (ic_table conf) ;; mret 0
      end
  end.

(** tools/import.c:757-806 parse_line -- the last switch; [v] are the fields. *)
Definition dispatch (sc : string_code) (ptr : text) (v : list text) : IM Z :=
  let code := sc_code sc in
  if code =? NEBTYPE_EXTERNALCOMMAND_END then external_command ptr else
  result ←
    (if code =? NEBTYPE_HOSTCHECK_PROCESSED then insert_host_check sc v
     else if code =? NEBTYPE_SERVICECHECK_PROCESSED then insert_service_check sc v
     else if (code =? NEBTYPE_DOWNTIME_LOAD + CONCERNS_HOST) || (code =? NEBTYPE_DOWNTIME_LOAD + CONCERNS_SERVICE) then insert_downtime sc v
     else if is_notification sc then insert_notification sc v
     else mret 0);
  handle_sql_result result (ic_table conf) ;;
  mret 0.

(** tools/import.c:698-703 parse_line -- an event without a start before it. *)
Definition ensure_running : IM unit :=
  running ← igets im_running;
  if running : bool then mret tt else
  insert_process_event NEBTYPE_PROCESS_START ;; imod (fun s => s <| im_start := im_ltime s |> <| im_running := true |>).

(** tools/import.c:698-806 parse_line -- a line with a colon. *)
Definition parse_event (line ptr behind_colon : text) : IM Z :=
  ensure_running ;;
  match get_string_code event_codes (before ":" ptr) with
  | None => unknown line ;; mret (-1)
  | Some sc =>
      if sc_code sc =? IGNORE_LINE then mret 0 else
      if negb (Bool.eqb (is_notification sc) (ic_only_notifications conf)) then mret 0 else
      let args := (span (fun c => Ascii.eqb c " ") behind_colon).2 in
      if (sc_nvecs sc =? 0)%nat then dispatch sc args [] else
      let v := vectorize_string args (sc_nvecs sc) in
      if negb (length v =? sc_nvecs sc)%nat then warn ;; mret (-1) else dispatch sc args v
  end.

(** tools/import.c:675-695 parse_line -- what follows the time. *)
Definition parse_message (line ptr : text) : IM Z :=
  if negb (is_interesting ptr) then mret 0 else
  match behind ":" ptr with
  | Some args => parse_event line ptr args
  | None =>
      if is_start_event ptr then handle_start_event ;; mret 0
      else if is_stop_event ptr then handle_stop_event ;; mret 0
      else unknown line ;; mret (-1)
  end.

(** tools/import.c:621-807 parse_line *)
Definition parse_line (line : text) : IM Z :=
  imod (fun s => s <| im_imported := u64 (im_imported s + Z.of_nat (length line) + 1) |> <| im_line_no := u32 (im_line_no s + 1) |>) ;;
  if bool_decide (line = []) then mret 0 else
  imod (fun s => s <| im_since := im_since s + 1 |>) ;;
  since ← igets im_since;
  (if 25000 <=? since then show_progress else mret tt) ;;
  match line with
  | c :: rest =>
      if (length line <? 12)%nat || negb (Ascii.eqb c "[") then warn ;; mret (-1) else
      let '(n, ptr) := strtoull 10 rest in
      if (length ptr =? length rest)%nat then imod (fun s => s <| im_ltime := s64 n |>) ;; warn ;; mret (-1) else
      set_time (s64 n) ;;
      ltime ← igets im_ltime;
      if ltime <? ic_incremental conf then mret 0 else
      parse_message line (span (fun c => Ascii.eqb c "]" || Ascii.eqb c " ") ptr).2
  | [] => mret 0
  end.

(** tools/import.c:809-817 parse_one_line *)
Definition parse_one_line (line : text) : IM unit :=
  r ← parse_line line;
  use ← igets (fun s => use_database (im_sql s));
  err ← sql sql_error;
  if negb (r =? 0) && use && negb (err =? 0) then lp_crash else mret tt.

(** ** Files *)

Fixpoint parse_lines (l : list text) : IM unit :=
  match l with [] => mret tt | x :: l => parse_one_line x ;; parse_lines l end.

Definition MAX_BUF : Z := 512 * 1024 - 1.

(** tools/import.c:1165-1194 main -- one file; [next] is the time of the first line of the file behind it. *)
Definition import_file (f : naglog_file) (content : text) (next : option Z) : IM unit :=
  imod (fun s => s <| im_file := nf_path f |>) ;;
  show_progress ;;
  if match next with Some t => t <? ic_incremental conf | None => false end then
    imod (fun s => s <| im_skipped := u64 (im_skipped s + nf_size f) |>)
  else
    imod (fun s => s <| im_line_no := 0 |>) ;;
    match lparse_path_real (Z.to_nat MAX_BUF) false (Some content) (length content) with
    | Some (LpLines l) => parse_lines l
    | _ => lp_crash
    end ;;
    imod (fun s => s <| im_imported := u64 (im_imported s + 1) |>).

(** tools/import.c:1164-1194 main -- the files, which are sorted. *)
Fixpoint import_files (l : list (naglog_file * text)) : IM unit :=
  match l with
  | [] => mret tt
  | (f, c) :: l => import_file f c (nf_first ∘ fst <$> head l) ;; import_files l
  end.

(** tools/import.c:317-320 insert_extras *)
Definition insert_extras : IM unit :=
  let columns := str "`timestamp`, `event_type`, `flags`, `attrib`, `host_name`, `service_description`, `state`, `hard`, `retry`, `downtime_depth`, `output`" in
  sql (sql_vquery (Other (str "INSERT INTO " ++ ic_table conf ++ str " (" ++ columns ++ str ") SELECT " ++ columns ++ str " FROM report_data_extras;"))) ;;
  mret tt.

(** tools/import.c:322-352 enable_indexes -- what is printed is left out. *)
Definition enable_indexes : IM unit :=
  d ← igets im_disabled;
  if negb d then mret tt else
  sql (sql_vquery (Other (str "SELECT count(1) FROM " ++ ic_table conf))) ;;
  res ← igets (fun s => sq_result (im_sql s));
  (if res : bool then sql sql_free_result else mret tt) ;;
  sql (sql_vquery (Other (str "UNLOCK TABLES"))) ;;
  sql (sql_vquery (Other (str "ALTER TABLE " ++ ic_table conf ++ str " ENABLE KEYS"))) ;;
  mret tt.

(** tools/import.c:1196-1204 main -- when all files were read at [now]. *)
Definition finish (now : Z) : IM unit :=
  imod (fun s => s <| im_ltime := now |> <| im_imported := u64 (im_totsize s - im_skipped s) |>) ;;
  show_progress ;;
  use ← igets (fun s => use_database (im_sql s));
  if negb use then mret tt else
  (if ic_only_notifications conf then mret tt else insert_extras) ;;
  enable_indexes ;;
  sql sql_close ;;
  mret tt.

End Lines.

(** ** What a line leaves in the database *)

(** The time of a row. *)
Definition time_column (p : string * sql_value) : bool := String.eqb p.1 "timestamp" || String.eqb p.1 "start_time".
Definition stmt_time (q : stmt) : option Z :=
  match q with Insert _ row => match find time_column row with Some (_, VNum t) => Some t | _ => None end | Other _ => None end.
Definition times (l : list stmt) : list Z := omap stmt_time l.

(** The event of a row for a start or a stop of Naemon, which has no other columns. *)
Definition proc_event (q : stmt) : option Z := match q with Insert _ [(_, VNum _); (_, VNum type)] => Some type | _ => None end.
Definition procs (s : import) : list Z := omap proc_event (sq_log (im_sql s)).

(** Rows written at time [t], and those that are not about starts and stops. *)
Definition at_time (t : Z) (q : stmt) : Prop := stmt_time q = Some t \/ stmt_time q = None.
Definition quiet (t : Z) (q : stmt) : Prop := at_time t q /\ proc_event q = None.

(** From one state to the other the statements [k] were run, the latest first, at one time. *)
Record frame (s s' : import) (k : list stmt) : Prop := Frame {
  fr_log : sq_log (im_sql s') = k ++ sq_log (im_sql s); fr_ltime : im_ltime s' = im_ltime s; fr_last : im_last_ltime s' = im_last_ltime s;
  fr_running : im_running s' = im_running s; fr_use : use_database (im_sql s') = use_database (im_sql s);
  fr_healthy : healthy (im_sql s) -> healthy (im_sql s') }.

Lemma stmts_refl s : frame s s [].
Proof. by constructor. Qed.

Lemma stmts_trans s1 s2 s3 k1 k2 : frame s1 s2 k1 -> frame s2 s3 k2 -> frame s1 s3 (k2 ++ k1).
Proof. intros [] []. constructor; try congruence; [|auto]. rewrite <- app_assoc. congruence. Qed.

(** At time [t] a computation gives a value with [Q] and runs statements with [ok]. *)
Definition frames (t : Z) (ok : stmt -> Prop) {A} (c : IM A) (Q : A -> Prop) : Prop :=
  forall s a s', im_ltime s = t -> c s = Some (a, s') -> Q a /\ exists k, frame s s' k /\ Forall ok k.

Abbreviation any := (fun _ => True).

Lemma frames_ret t ok {A} (a : A) (Q : A -> Prop) : Q a -> frames t ok (mret a) Q.
Proof. intros HQ s b s' _ [= <- <-]. split; [done|]. exists []. split; [apply stmts_refl|done]. Qed.

Lemma frames_bind t ok {A B} (c : IM A) (k : A -> IM B) P Q :
  frames t ok c P -> (forall a, P a -> frames t ok (k a) Q) -> frames t ok (c ≫= k) Q.
Proof.
  intros Hc Hk s b s' Ht. unfold mbind, IM_bind. destruct (c s) as [[a s1]|] eqn:E; [|done]. intros E2.
  destruct (Hc s a s1 Ht E) as [Pa (k1 & F1 & O1)].
  destruct (Hk a Pa s1 b s' (eq_trans (fr_ltime _ _ _ F1) Ht) E2) as [Qb (k2 & F2 & O2)].
  split; [done|]. exists (k2 ++ k1). split; [by eapply stmts_trans|by apply Forall_app].
Qed.

Lemma frames_weaken t (ok ok' : stmt -> Prop) {A} (c : IM A) (Q : A -> Prop) : (forall q, ok q -> ok' q) -> frames t ok c Q -> frames t ok' c Q.
Proof. intros Hi Hc s a s' Ht E. destruct (Hc s a s' Ht E) as [HQ (k & F & O)]. split; [done|]. exists k. split; [done|]. by eapply Forall_impl. Qed.

Lemma frames_gets t ok {A} (f : import -> A) : frames t ok (igets f) any.
Proof. intros s a s' _ [= <- <-]. split; [done|]. exists []. split; [apply stmts_refl|done]. Qed.

Lemma frames_ltime t ok : frames t ok (igets im_ltime) (eq t).
Proof. intros s a s' <- [= <- <-]. split; [done|]. exists []. split; [apply stmts_refl|done]. Qed.

Lemma frames_crash t ok {A} (Q : A -> Prop) : frames t ok lp_crash Q.
Proof. by intros s a s' _. Qed.

Lemma frames_need t ok {A} (o : option A) : frames t ok (need o) any.
Proof. destruct o; [by apply frames_ret|apply frames_crash]. Qed.

Lemma frames_imod t ok f : (forall s, im_sql (f s) = im_sql s /\ im_ltime (f s) = im_ltime s /\ im_last_ltime (f s) = im_last_ltime s /\
  im_running (f s) = im_running s) -> frames t ok (imod f) any.
Proof.
  intros Hf s a s' _ [= <- <-]. destruct (Hf s) as (A & B & C & D). split; [done|]. exists []. split; [|done]. by constructor; rewrite ?A.
Qed.

(** Computations on the database that run no statement, or one at most. *)
Definition calm {A} (c : DB A) : Prop := forall d a d', c d = Some (a, d') ->
  sq_log d' = sq_log d /\ use_database d' = use_database d /\ (healthy d -> healthy d').

Lemma frames_calm t ok {A} (c : DB A) : calm c -> frames t ok (sql c) any.
Proof.
  intros Hc s a s' _. unfold sql. destruct (c (im_sql s)) as [[x d]|] eqn:E; [|done]. intros [= <- <-].
  destruct (Hc _ _ _ E) as (L & U & H). split; [done|]. exists []. split; [|done]. by constructor.
Qed.

Lemma frames_vquery t ok q : ok q -> frames t ok (sql (sql_vquery q)) any.
Proof.
  intros Hq s a s' _. unfold sql. destruct (sql_vquery q (im_sql s)) as [[x d]|] eqn:E; [|done]. intros [= <- <-]. split; [done|].
  destruct (query_attempts q (im_sql s)) as (r & d' & n & E' & [U L _ _ _]). rewrite E in E'. injection E' as <- <-.
  assert (healthy (im_sql s) -> healthy d) as Hh.
  { intros Hs. destruct (vquery_does q _ Hs) as (d2 & E2 & H2 & _). rewrite E in E2. by simplify_eq. }
  exists (replicate n q). split; [by constructor|]. by apply Forall_replicate.
Qed.

Lemma connected_calm : calm (sql_is_connected true).
Proof.
  intros d b d' E. assert (healthy d -> healthy d') as Hh.
  { intros Hs. destruct (connected_does _ Hs) as (d2 & E2 & H2 & _). rewrite E in E2. by simplify_eq. }
  destruct (use_database d) eqn:Hu.
  - destruct (is_connected_spec d Hu) as (c & d1 & E1 & (L & U & _) & _). rewrite E1 in E. injection E as <- <-. split_and!; [done|congruence|done].
  - destruct (is_connected0_log d) as (c & d1 & E1 & L & U & _).
    revert E. unfold sql_is_connected, mbind at 1, DB_bind at 1. rewrite E1. destruct c; cbn [orb negb]; [intros [= <- <-]; split_and!; [done|congruence|done]|].
    unfold sql_init, mbind, DB_bind, dgets. rewrite U, Hu. intros [= <- <-]. split_and!; [done|congruence|done].
Qed.

Lemma calm_bind {A B} (c : DB A) (k : A -> DB B) : calm c -> (forall a, calm (k a)) -> calm (c ≫= k).
Proof.
  intros Hc Hk d b d'. unfold mbind, DB_bind. destruct (c d) as [[a d1]|] eqn:E; [|done]. intros E2.
  destruct (Hc _ _ _ E) as (A1 & B1 & C1), (Hk a _ _ _ E2) as (A2 & B2 & C2). split_and!; [congruence..|auto].
Qed.
Lemma calm_ret {A} (a : A) : calm (mret a).
Proof. by intros d b d' [= <- <-]. Qed.
Lemma calm_gets {A} (f : sqldb -> A) : calm (dgets f).
Proof. by intros d b d' [= <- <-]. Qed.
Lemma calm_assert b : calm (assert b).
Proof. intros d a d'. unfold assert. destruct b; [|done]. by intros [= <- <-]. Qed.

Lemma quote_calm quote src : calm (sql_quote quote src).
Proof.
  unfold sql_quote. apply calm_bind; [apply connected_calm|intros _]. apply calm_bind; [apply calm_gets|intros c].
  apply calm_bind; [apply calm_assert|intros _]. apply calm_ret.
Qed.

Create HintDb frames discriminated.
#[export] Hint Constants Opaque : frames.
#[export] Hint Resolve frames_ltime frames_gets frames_crash frames_need : frames.

(** Goes through a computation. *)
Ltac framing := repeat lazymatch goal with
  | |- frames _ _ (mret _) _ => apply frames_ret; done
  | |- frames _ _ lp_crash _ => apply frames_crash
  | |- frames _ _ (need _) _ => apply frames_need
  | |- frames _ _ (igets _) _ => apply frames_gets
  | |- frames _ _ (igets im_ltime ≫= _) _ => eapply frames_bind; [apply frames_ltime|intros ? <-]
  | |- frames _ _ (sql (sql_quote _ _)) _ => apply frames_calm, quote_calm
  | |- frames _ _ (_ ≫= _) _ => eapply (frames_bind _ _ _ _ any); [|intros ? _]
  | |- frames _ _ (if ?b then _ else _) _ => destruct b
  | |- frames _ _ (match ?x with _ => _ end) _ => destruct x
  | |- frames _ _ (let _ := _ in _) _ => cbv zeta
  | |- _ => solve [eauto 2 with frames]
  end.

Section Order.
Context {NT : NebTypes} {LC : LogCodes} (quote : text -> text) (conf : import_conf).

Lemma frames_other t x : frames t (quiet t) (sql (sql_vquery (Other x))) any.
Proof. apply frames_vquery. split; [by right|done]. Qed.

Lemma frames_disable t : frames t (quiet t) (disable_indexes conf) any.
Proof.
  unfold disable_indexes. eapply frames_bind; [apply frames_gets|intros s _]. case_match; [by apply frames_ret|].
  case_match; [by apply frames_ret|]. eapply frames_bind; [apply frames_other|intros r _]. case_match; [apply frames_crash|].
  eapply frames_bind; [apply frames_other|intros r' _]. case_match; [apply frames_crash|]. by apply frames_imod.
Qed.

Lemma frames_no_rows t ok : frames t ok (no_rows conf) any.
Proof. unfold no_rows. framing. Qed.

Lemma frames_row t type c1 cols : frames t (quiet t) (sql (sql_vquery (at_ltime conf t type (c1 :: cols)))) any.
Proof. apply frames_vquery. split; [by left|]. cbn. by destruct c1. Qed.

Lemma frames_states t ok st : frames t ok (imod (fun s => s <| im_states := st |>)) any.
Proof. by apply frames_imod. Qed.

Lemma frames_unknown t ok line : frames t ok (unknown line) any.
Proof. unfold unknown. framing. by apply frames_imod. Qed.
Lemma frames_warn t ok : frames t ok warn any.
Proof. by apply frames_imod. Qed.

Hint Resolve frames_other frames_disable frames_no_rows frames_row frames_states frames_unknown frames_warn : frames.

Lemma frames_host t type host st ty n out : frames t (quiet t) (insert_host_result quote conf type host st ty n out) any.
Proof. unfold insert_host_result. framing. Qed.
Lemma frames_service t type host d st ty n out : frames t (quiet t) (insert_service_result quote conf type host d st ty n out) any.
Proof. unfold insert_service_result. framing. Qed.
Lemma frames_downtime t type host d : frames t (quiet t) (insert_downtime_event quote conf type host d) any.
Proof. unfold insert_downtime_event, sql_insert_downtime. framing. Qed.
Lemma frames_notification t sc v : frames t (quiet t) (insert_notification quote conf sc v) any.
Proof. unfold insert_notification. framing. apply frames_vquery. split; [by left|done]. Qed.
Hint Resolve frames_host frames_service frames_downtime frames_notification : frames.

Lemma frames_service_check t sc v : frames t (quiet t) (insert_service_check quote conf sc v) any.
Proof. unfold insert_service_check. framing. Qed.
Lemma frames_host_check t sc v : frames t (quiet t) (insert_host_check quote conf sc v) any.
Proof. unfold insert_host_check. framing. Qed.

Lemma frames_sql_bind t ok {A B} (c : DB A) (k : A -> DB B) Q :
  frames t ok (sql c ≫= fun a => sql (k a)) Q -> frames t ok (sql (c ≫= k)) Q.
Proof.
  intros H s b s' Ht E. apply (H s b s' Ht). rewrite <- E. unfold sql, mbind, IM_bind, DB_bind.
  by destruct (c (im_sql s)) as [[a d]|].
Qed.

Lemma frames_repair t table : frames t (quiet t) (sql (sql_repair_table table)) any.
Proof.
  unfold sql_repair_table. apply frames_sql_bind. eapply frames_bind; [apply frames_calm, calm_gets|intros b _].
  destruct (negb b); [apply frames_calm, calm_ret|]. apply frames_sql_bind. eapply frames_bind; [apply frames_other|intros r _].
  apply frames_calm, calm_bind; [|intros; apply calm_ret]. destruct (r =? 0); [|apply calm_ret].
  intros d a d' [= <- <-]. split_and!; [done..|]. intros []. by constructor.
Qed.
Hint Resolve frames_service_check frames_host_check frames_repair : frames.

Lemma frames_result t n : frames t (quiet t) (handle_sql_result conf n (ic_table conf)) any.
Proof. unfold handle_sql_result. framing. Qed.
Hint Resolve frames_result : frames.

(** *** Time *)

(** At time [t] a computation writes rows of that time and leaves the time as it is. *)
Definition timed (t : Z) {A} (c : IM A) : Prop := forall s a s', im_ltime s = t -> c s = Some (a, s') ->
  im_ltime s' = t /\ im_last_ltime s' = im_last_ltime s /\ exists k, sq_log (im_sql s') = k ++ sq_log (im_sql s) /\ Forall (at_time t) k.

Lemma frames_timed t (ok : stmt -> Prop) {A} (c : IM A) Q : (forall q, ok q -> at_time t q) -> frames t ok c Q -> timed t c.
Proof.
  intros Hok Hc s a s' Ht E. destruct (Hc s a s' Ht E) as [_ (k & [] & O)]. split_and!; [congruence..|]. exists k. split; [done|]. by eapply Forall_impl.
Qed.

Lemma timed_quiet t {A} (c : IM A) Q : frames t (quiet t) c Q -> timed t c.
Proof. apply frames_timed. by intros q []. Qed.

Lemma timed_bind t {A B} (c : IM A) (k : A -> IM B) : timed t c -> (forall a, timed t (k a)) -> timed t (c ≫= k).
Proof.
  intros Hc Hk s b s' Ht. unfold mbind, IM_bind. destruct (c s) as [[a s1]|] eqn:E; [|done]. intros E2.
  destruct (Hc s a s1 Ht E) as (A1 & B1 & k1 & L1 & O1), (Hk a s1 b s' A1 E2) as (A2 & B2 & k2 & L2 & O2).
  split_and!; [done|congruence|]. exists (k2 ++ k1). split; [by rewrite L2, L1, app_assoc|by apply Forall_app].
Qed.

Lemma timed_imod t f : (forall s, im_sql (f s) = im_sql s /\ im_ltime (f s) = im_ltime s /\ im_last_ltime (f s) = im_last_ltime s) -> timed t (imod f).
Proof. intros Hf s a s' Ht [= <- <-]. destruct (Hf s) as (A & B & C). rewrite A, B, C. split_and!; [done..|]. by exists []. Qed.

Lemma process_timed t ty : timed t (insert_process_event conf ty).
Proof.
  unfold insert_process_event. apply timed_bind; [apply (timed_quiet _ _ any), frames_no_rows|intros []; [by apply (timed_quiet _ _ any), frames_ret|]].
  apply timed_bind; [apply (timed_quiet _ _ any), frames_disable|intros _].
  apply (frames_timed t (at_time t) _ any); [done|]. unfold insert_process_data. framing; apply frames_vquery; by left.
Qed.

Ltac timing := repeat lazymatch goal with
  | |- timed _ (insert_process_event _ _) => apply process_timed
  | |- timed _ (imod _) => by apply timed_imod
  | |- timed _ (_ ≫= _) => apply timed_bind; [|intros ?]
  | |- timed _ (if ?b then _ else _) => destruct b
  | |- timed _ (match ?x with _ => _ end) => destruct x
  | |- timed _ _ => apply (timed_quiet _ _ any); framing
  end.

Lemma start_timed t : timed t (handle_start_event conf).
Proof. unfold handle_start_event. timing. Qed.
Lemma stop_timed t : timed t (handle_stop_event conf).
Proof. unfold handle_stop_event. timing. Qed.

Lemma frames_insert_downtime t sc v : frames t (quiet t) (insert_downtime quote conf sc v) any.
Proof. unfold insert_downtime. framing. Qed.
Hint Resolve frames_insert_downtime : frames.

(** A command never restarts anything: RESTART_PROGRAM is not among the codes. *)
Lemma command_code_not_restart s sc : get_string_code command_codes s = Some sc -> (sc_code sc =? RESTART_PROGRAM) = false.
Proof.
  intros E%find_some. destruct E as [Hin _]. unfold command_codes in Hin. cbn [In] in Hin. by repeat destruct Hin as [<-|Hin].
Qed.

Lemma frames_command t ptr : frames t (quiet t) (external_command conf ptr) any.
Proof.
  unfold external_command. destruct (behind ";" ptr); [|framing]. destruct (get_string_code command_codes (before ";" ptr)) as [sc|] eqn:E; [|framing].
  rewrite (command_code_not_restart _ _ E). framing.
Qed.
Hint Resolve frames_command : frames.

Lemma frames_dispatch t sc ptr v : frames t (quiet t) (dispatch quote conf sc ptr v) any.
Proof. unfold dispatch. framing. Qed.
Hint Resolve frames_dispatch : frames.

Lemma event_timed t line ptr args : timed t (parse_event quote conf line ptr args).
Proof. unfold parse_event, ensure_running. timing. Qed.

Lemma message_timed t line ptr : timed t (parse_message quote conf line ptr).
Proof.
  unfold parse_message. destruct (negb _); [timing|]. destruct (behind ":" ptr); [apply event_timed|].
  destruct (is_start_event ptr); [apply timed_bind; [apply start_timed|intros; timing]|].
  destruct (is_stop_event ptr); [apply timed_bind; [apply stop_timed|intros; timing]|timing].
Qed.

(** What lines may add: rows in the order of time, from the last time on, and none that is too old. *)
Definition in_order (lo hi : Z) (k : list stmt) : Prop :=
  StronglySorted Z.ge (times k) /\ Forall (fun t => ic_incremental conf <= t /\ lo <= t <= hi) (times k).

Definition ordered {A} (c : IM A) : Prop := forall s a s', c s = Some (a, s') ->
  im_last_ltime s <= im_last_ltime s' /\ exists k, sq_log (im_sql s') = k ++ sq_log (im_sql s) /\ in_order (im_last_ltime s) (im_last_ltime s') k.

Lemma times_at t k : Forall (at_time t) k -> Forall (eq t) (times k).
Proof.
  induction 1 as [|q k Hq _ IH]; [constructor|]. unfold times. cbn [omap list_omap]. destruct Hq as [-> | ->]; [by constructor|done].
Qed.

Lemma sorted_const t l : Forall (eq t) l -> StronglySorted Z.ge l.
Proof. induction 1 as [|x l <- Hl IH]; constructor; [done|]. eapply Forall_impl; [exact Hl|]. intros ? <-. lia. Qed.

Lemma ordered_quiet {A} (c : IM A) : (forall s a s', c s = Some (a, s') -> im_sql s' = im_sql s /\ im_last_ltime s' = im_last_ltime s) -> ordered c.
Proof.
  intros Hc s a s' E. destruct (Hc s a s' E) as [A1 B1]. rewrite A1, B1. split; [lia|]. exists []. split; [done|]. split; constructor.
Qed.

Lemma ordered_bind {A B} (c : IM A) (k : A -> IM B) : ordered c -> (forall a, ordered (k a)) -> ordered (c ≫= k).
Proof.
  intros Hc Hk s b s'. unfold mbind, IM_bind. destruct (c s) as [[a s1]|] eqn:E; [|done]. intros E2.
  destruct (Hc s a s1 E) as (A1 & k1 & L1 & S1 & F1), (Hk a s1 b s' E2) as (A2 & k2 & L2 & S2 & F2).
  split; [lia|]. exists (k2 ++ k1). split; [by rewrite L2, L1, app_assoc|]. unfold in_order, times in *. rewrite omap_app. split.
  - clear L1 L2. revert F1 F2 S2. generalize (omap stmt_time k1), (omap stmt_time k2), S1. clear. intros l1 l2 S1 F1 F2 S2.
    induction S2 as [|x l2 S2 IH Hx]; [done|]. apply Forall_cons in F2 as [Hb F2]. cbn. constructor; [by apply IH|].
    apply Forall_app. split; [done|]. eapply Forall_impl; [exact F1|]. cbn. intros. lia.
  - apply Forall_app. split; [eapply Forall_impl; [exact F2|]|eapply Forall_impl; [exact F1|]]; cbn; intros; lia.
Qed.

Lemma at_line_ordered {A} (c : IM A) : (forall t, timed t c) ->
  forall s a s', im_ltime s = im_last_ltime s -> ic_incremental conf <= im_ltime s -> c s = Some (a, s') ->
  im_last_ltime s' = im_last_ltime s /\ exists k, sq_log (im_sql s') = k ++ sq_log (im_sql s) /\ in_order (im_last_ltime s) (im_last_ltime s') k.
Proof.
  intros Hc s a s' Hl Hi E. destruct (Hc _ s a s' eq_refl E) as (_ & B1 & k & L & O). split; [done|]. exists k. split; [done|].
  apply times_at in O. split; [by eapply sorted_const|]. rewrite B1, <- Hl. eapply Forall_impl; [exact O|]. cbn. intros ? <-. lia.
Qed.

Lemma time_ordered t line ptr : ordered (set_time t ;; ltime ← igets im_ltime; if ltime <? ic_incremental conf then mret 0 else parse_message quote conf line ptr).
Proof.
  intros s a s'. unfold set_time, imod, igets, mbind, IM_bind.
  set (s1 := if t <? im_last_ltime s then _ else _).
  assert (im_sql s1 = im_sql s /\ im_ltime s1 = im_last_ltime s1 /\ im_last_ltime s <= im_last_ltime s1) as (A & B & C).
  { unfold s1. destruct (Z.ltb_spec t (im_last_ltime s)); cbn; split_and!; try done; lia. }
  destruct (Z.ltb_spec (im_ltime s1) (ic_incremental conf)) as [Hi|Hi].
  - intros [= <- <-]. rewrite A. split; [done|]. exists []. split; [done|]. split; constructor.
  - intros E. destruct (at_line_ordered _ (fun t => message_timed t line ptr) s1 a s' B Hi E) as (D & k & L & S & F).
    split; [lia|]. exists k. split; [by rewrite L, A|]. split; [done|]. eapply Forall_impl; [exact F|]. cbn. intros. lia.
Qed.

Lemma line_ordered line : ordered (parse_line quote conf line).
Proof.
  assert (forall f, (forall s, im_sql (f s) = im_sql s /\ im_last_ltime (f s) = im_last_ltime s) -> ordered (imod f)) as Hmod.
  { intros f Hf. apply ordered_quiet. by intros s a s' [= <- <-]. }
  assert (forall A (a : A), ordered (mret a)) as Hret by (intros A a; apply ordered_quiet; by intros s b s' [= <- <-]).
  unfold parse_line. apply ordered_bind; [by apply Hmod|intros _]. case_bool_decide; [apply Hret|].
  apply ordered_bind; [by apply Hmod|intros _]. apply ordered_bind; [apply ordered_quiet; by intros s a s' [= <- <-]|intros n].
  apply ordered_bind; [destruct (_ <=? _); [by apply Hmod|apply Hret]|intros _]. destruct line as [|c rest]; [apply Hret|].
  destruct (_ || _); [apply ordered_bind; [by apply Hmod|intros; apply Hret]|]. destruct (strtoull 10 rest) as [v ptr].
  destruct (_ =? _)%nat; [|apply time_ordered]. apply ordered_bind; [by apply Hmod|intros _]. apply ordered_bind; [by apply Hmod|intros; apply Hret].
Qed.

Lemma one_line_ordered line : ordered (parse_one_line quote conf line).
Proof.
  unfold parse_one_line. apply ordered_bind; [apply line_ordered|intros r]. apply ordered_bind; [apply ordered_quiet; by intros s a s' [= <- <-]|intros u].
  apply ordered_bind; [apply ordered_quiet; by intros s a s' [= <- <-]|intros e].
  destruct (_ && _); [apply ordered_quiet; by intros s a s'|apply ordered_quiet; by intros s a s' [= <- <-]].
Qed.

(** C19.  Whatever the lines and whatever the database does, the rows that an import writes (also those that a lost answer makes it
    write twice) are in the order of time: no row is
    older than one before it, than the last line of an earlier file, or than the time from which on it imports. *)
Theorem import_in_order l s s' : parse_lines quote conf l s = Some (tt, s') ->
  exists k, sq_log (im_sql s') = k ++ sq_log (im_sql s) /\ StronglySorted Z.ge (times k) /\
    Forall (fun t => ic_incremental conf <= t /\ im_last_ltime s <= t) (times k).
Proof.
  intros E. assert (ordered (parse_lines quote conf l)) as H.
  { clear E. induction l as [|x l IH]; [apply ordered_quiet; by intros ? ? ? [= <- <-]|]. apply ordered_bind; [apply one_line_ordered|done]. }
  destruct (H s tt s' E) as (_ & k & L & S & F). exists k. split_and!; [done..|]. eapply Forall_impl; [exact F|]. cbn. intros. lia.
Qed.
End Order.

(** *** Starts and stops *)

Section Alternation.
Context {NT : NebTypes} {LC : LogCodes} (quote : text -> text) (conf : import_conf).
Hypothesis reports : ic_only_notifications conf = false.

(** Starts and stops, the latest first, the earliest a start; [running] is what the latest one leaves. *)
Fixpoint alternating (running : bool) (l : list Z) : Prop :=
  match l with
  | [] => running = false
  | ty :: l => ty = (if running then NEBTYPE_PROCESS_START else NEBTYPE_PROCESS_SHUTDOWN) /\ alternating (negb running) l
  end.

Definition alt (s : import) : Prop := healthy (im_sql s) /\ alternating (im_running s) (procs s).
Definition alternates {A} (c : IM A) : Prop := forall s a s', alt s -> c s = Some (a, s') -> alt s'.

Lemma procs_quiet t k l : Forall (quiet t) k -> omap proc_event (k ++ l) = omap proc_event l.
Proof. intros Hk. rewrite omap_app. induction Hk as [|q k [_ Hq] _ IH]; [done|]. cbn [omap list_omap]. by rewrite Hq. Qed.

Lemma frames_alternates {A} (c : IM A) Q : (forall t, frames t (quiet t) c Q) -> alternates c.
Proof.
  intros Hc s a s' [Hh Ha] E. destruct (Hc _ s a s' eq_refl E) as [_ (k & [L _ _ R _ H] & O)]. split; [auto|].
  unfold procs. rewrite L, R, (procs_quiet _ _ _ O). done.
Qed.

Lemma alternates_bind {A B} (c : IM A) (k : A -> IM B) : alternates c -> (forall a, alternates (k a)) -> alternates (c ≫= k).
Proof. intros Hc Hk s b s' Hs. unfold mbind, IM_bind. destruct (c s) as [[a s1]|] eqn:E; [|done]. intros E2. by eapply (Hk a), E2; eapply Hc. Qed.

Lemma alternates_imod f : (forall s, im_sql (f s) = im_sql s /\ im_running (f s) = im_running s) -> alternates (imod f).
Proof. intros Hf s a s' [Hh Ha] [= <- <-]. destruct (Hf s) as [A B]. unfold alt, procs. by rewrite A, B. Qed.

(** On a database that answers the row of a start or stop is written. *)
Lemma process_written ty s a s' : ty = NEBTYPE_PROCESS_START \/ ty = NEBTYPE_PROCESS_SHUTDOWN -> healthy (im_sql s) ->
  insert_process_event conf ty s = Some (a, s') -> healthy (im_sql s') /\ procs s' = ty :: procs s /\ im_running s' = im_running s.
Proof.
  intros Hty Hh. unfold insert_process_event, mbind at 1, IM_bind at 1, no_rows. unfold mbind at 1, IM_bind at 1, igets at 1.
  rewrite (hl_use _ Hh), reports. cbn [negb orb mret IM_ret]. unfold mbind at 1, IM_bind at 1.
  destruct (disable_indexes conf s) as [[[] s1]|] eqn:E; [|done].
  destruct (frames_disable conf _ s tt s1 eq_refl E) as [_ (k & [L _ _ R _ H] & O)]. specialize (H Hh).
  unfold insert_process_data, mbind, IM_bind, igets.
  assert ((ty =? NEBTYPE_PROCESS_START) || (ty =? NEBTYPE_PROCESS_SHUTDOWN) = true) as -> by (apply orb_true_iff; rewrite !Z.eqb_eq; done).
  unfold sql. set (q := at_ltime conf (im_ltime s1) ty []). destruct (vquery_does q _ H) as (d & -> & Hd & Ld). intros [= <- <-].
  cbn. split_and!; [done| |done]. unfold procs. cbn. rewrite Ld. cbn. rewrite L, (procs_quiet _ _ _ O). done.
Qed.

Lemma ensure_alternates : alternates (ensure_running conf).
Proof.
  intros s a s' [Hh Ha]. unfold ensure_running, mbind at 1, IM_bind at 1, igets at 1. destruct (im_running s) eqn:Er; [by intros [= <- <-]; split; rewrite ?Er|].
  unfold mbind, IM_bind. destruct (insert_process_event conf _ s) as [[r s1]|] eqn:E; [|done]. intros [= <- <-].
  destruct (process_written NEBTYPE_PROCESS_START s r s1) as (H1 & P1 & R1); [by left|done..|]. split; [done|].
  change (procs _) with (procs s1). rewrite P1. cbn. done.
Qed.

Lemma handle_start_alternates : alternates (handle_start_event conf).
Proof.
  intros s a s' Hs. unfold handle_start_event. intros E.
  destruct (im_running s) eqn:Er.
  - revert E. unfold mbind, IM_bind, igets. rewrite Er. intros [= <- <-]. destruct Hs as [Hh Ha]. split; [done|].
    change (procs _) with (procs s). cbn. by rewrite Er in Ha.
  - pose proof (ensure_alternates s) as H. unfold ensure_running, mbind, IM_bind, igets in *. rewrite Er in *.
    destruct (insert_process_event conf _ s) as [[r s1]|]; [|done]. injection E as <- <-. by eapply H.
Qed.

Lemma handle_stop_alternates : alternates (handle_stop_event conf).
Proof.
  intros s a s' [Hh Ha]. unfold handle_stop_event, mbind, IM_bind, igets. destruct (im_running s) eqn:Er; [|intros [= <- <-]; split; cbn; by rewrite ?Er].
  destruct (insert_process_event conf _ s) as [[r s1]|] eqn:E; [|done]. intros [= <- <-].
  destruct (process_written NEBTYPE_PROCESS_SHUTDOWN s r s1) as (H1 & P1 & R1); [by right|done..|]. split; [done|].
  change (procs _) with (procs s1). rewrite P1. cbn. done.
Qed.

Ltac alternate := repeat lazymatch goal with
  | |- alternates (imod _) => by apply alternates_imod
  | |- alternates (_ ≫= _) => apply alternates_bind; [|intros ?]
  | |- alternates (if ?b then _ else _) => destruct b
  | |- alternates (match ?x with _ => _ end) => destruct x
  | |- alternates _ => apply (frames_alternates _ any); intros; framing
  end.

#[local] Hint Resolve frames_unknown frames_warn frames_dispatch : frames.

Lemma event_alternates line ptr args : alternates (parse_event quote conf line ptr args).
Proof. unfold parse_event. apply alternates_bind; [apply ensure_alternates|intros _]. alternate. Qed.

Lemma message_alternates line ptr : alternates (parse_message quote conf line ptr).
Proof.
  unfold parse_message. destruct (negb _); [alternate|]. destruct (behind ":" ptr); [apply event_alternates|].
  destruct (is_start_event ptr); [apply alternates_bind; [apply handle_start_alternates|intros; alternate]|].
  destruct (is_stop_event ptr); [apply alternates_bind; [apply handle_stop_alternates|intros; alternate]|alternate].
Qed.

Lemma set_time_alternates t : alternates (set_time t).
Proof. apply alternates_imod. intros s. by case_match. Qed.

Lemma line_alternates line : alternates (parse_line quote conf line).
Proof.
  unfold parse_line, show_progress. apply alternates_bind; [by apply alternates_imod|intros _]. case_bool_decide; [alternate|].
  do 3 (apply alternates_bind; [alternate|intros ?]). destruct line as [|c rest]; [alternate|].
  destruct (_ || _); [alternate|]. destruct (strtoull 10 rest) as [v ptr]. destruct (_ =? _)%nat; [alternate|].
  apply alternates_bind; [apply set_time_alternates|intros _]. apply alternates_bind; [alternate|intros t].
  destruct (_ <? _); [alternate|apply message_alternates].
Qed.

(** C30.  Starts and stops of Naemon alternate in the table, beginning with a start: while the database answers, no line makes a
    second start follow a start or a second stop a stop, whatever the log has lost. *)
Theorem starts_stops_alternate l s s' : healthy (im_sql s) -> alternating (im_running s) (procs s) ->
  parse_lines quote conf l s = Some (tt, s') -> healthy (im_sql s') /\ alternating (im_running s') (procs s').
Proof.
  intros Hh Ha. assert (alternates (parse_lines quote conf l)) as H; [|intros E; by eapply (H s tt s')].
  clear Hh Ha s s'. induction l as [|x l IH]; [by intros ? ? ? ? [= <- <-]|]. apply alternates_bind; [|done].
  unfold parse_one_line. apply alternates_bind; [apply line_alternates|intros r]. alternate. apply frames_calm, calm_gets.
Qed.
End Alternation.

(** *** A line and its row *)

Section Alert.
Context {NT : NebTypes} {LC : LogCodes} (quote : text -> text) (conf : import_conf).

(** The cases of the switch differ. *)
Hypothesis codes_differ : NoDup [IGNORE_LINE; NEBTYPE_EXTERNALCOMMAND_END; NEBTYPE_HOSTCHECK_PROCESSED; NEBTYPE_SERVICECHECK_PROCESSED;
  NEBTYPE_DOWNTIME_LOAD + CONCERNS_HOST; NEBTYPE_DOWNTIME_LOAD + CONCERNS_SERVICE;
  NEBTYPE_NOTIFICATION_END + CONCERNS_HOST; NEBTYPE_NOTIFICATION_END + CONCERNS_SERVICE].

Definition alert_line (t : Z) (host state type : text) (attempt : Z) (output : text) : text :=
  str "[" ++ dec t ++ str "] HOST ALERT: " ++ join ";" [host; state; type; dec attempt; output].

Definition alert_row (t : Z) (host : text) (st ty attempt : Z) (output : text) : stmt :=
  at_ltime conf t NEBTYPE_HOSTCHECK_PROCESSED
    [("host_name"%string, quoted quote (Some host)); ("state"%string, VNum st);
     ("hard"%string, VNum (Z.b2z ((ty =? HARD_STATE) || (st =? 0)))); ("retry"%string, VNum attempt); ("output"%string, quoted quote (Some output))].

(** What a computation does on a state whose database answers. *)
Definition runs {A} (c : IM A) (s : import) (a : A) (k : list stmt) (s' : import) : Prop :=
  c s = Some (a, s') /\ sq_log (im_sql s') = k ++ sq_log (im_sql s) /\ healthy (im_sql s').

Lemma runs_sql {A} (c : DB A) a l s : does c a l -> healthy (im_sql s) -> exists d, runs (sql c) s a (rev l) (s <| im_sql := d |>).
Proof.
  intros Hc Hs. destruct (Hc _ Hs) as (d & E & H & L). exists d. unfold runs, sql. by rewrite E.
Qed.

Lemma runs_disable s : healthy (im_sql s) -> exists k d b, runs (disable_indexes conf) s tt k (s <| im_sql := d |> <| im_disabled := b |>) /\ Forall (fun q => exists x, q = Other x) k.
Proof.
  intros Hs. unfold disable_indexes, runs, mbind, IM_bind, igets, id. destruct (im_disabled s) eqn:Ed.
  { exists [], (im_sql s), true. split_and!; [|done..]. destruct s; cbn in *. by subst. }
  destruct (_ <=? _). { exists [], (im_sql s), false. split_and!; [|done..]. destruct s; cbn in *. by subst. }
  destruct (runs_sql _ _ _ s (vquery_does (Other (str "ALTER TABLE " ++ ic_table conf ++ str " DISABLE KEYS"))) Hs) as (d1 & E1 & L1 & H1).
  rewrite E1. cbn [negb Z.eqb].
  destruct (runs_sql _ _ _ _ (vquery_does (Other (str "LOCK TABLES " ++ ic_table conf ++ str " WRITE, report_data_extras WRITE"))) H1) as (d2 & E2 & L2 & H2).
  rewrite E2. cbn [negb Z.eqb]. eexists _, d2, true. split_and!; [reflexivity| |done|].
  - cbn in L1, L2 |- *. rewrite L2, L1. change (?a :: ?b :: ?l) with ([a; b] ++ l). reflexivity.
  - repeat constructor; by eexists.
Qed.

Lemma host_result_runs s host st ty n output : healthy (im_sql s) -> (host_has_new_state (key host) st ty (im_states s)).1 = true ->
  exists s', runs (insert_host_result quote conf NEBTYPE_HOSTCHECK_PROCESSED host st ty n output) s 0 [alert_row (im_ltime s) host st ty n output] s'.
Proof.
  intros Hs Hnew. unfold insert_host_result. unfold runs, mbind, IM_bind at 1, igets at 1.
  destruct (host_has_new_state (key host) st ty (im_states s)) as [b st'] eqn:E. cbn [fst] in Hnew. subst b. cbn [negb].
  unfold IM_bind, imod, igets. set (s1 := s <| im_states := st' |>). assert (healthy (im_sql s1)) as H1 by done.
  destruct (runs_sql _ _ _ s1 (quote_does quote (Some host)) H1) as (d2 & E2 & L2 & H2). rewrite E2.
  destruct (runs_sql _ _ _ _ (quote_does quote (Some output)) H2) as (d3 & E3 & L3 & H3). rewrite E3.
  match goal with |- context [sql (sql_vquery ?x)] => set (q := x) end.
  destruct (runs_sql _ _ _ _ (vquery_does q) H3) as (d4 & E4 & L4 & H4).
  eexists. split_and!; [exact E4| |done]. cbn in L2, L3, L4 |- *. by rewrite L4, L3, L2.
Qed.

Lemma no_rows_runs s : ic_only_notifications conf = false -> healthy (im_sql s) -> no_rows conf s = Some (false, s).
Proof. intros Ho Hs. unfold no_rows, mbind, IM_bind, igets. by rewrite (hl_use _ Hs), Ho. Qed.

Lemma host_check_runs s host state type n output st ty :
  healthy (im_sql s) -> ic_only_notifications conf = false -> is_interesting_host (ic_interesting conf) host = true ->
  parse_host_state state = Some st -> soft_hard type = Some ty -> 0 <= n < 2 ^ 31 ->
  (host_has_new_state (key host) st ty (im_states s)).1 = true ->
  exists s' k, runs (insert_host_check quote conf (StringCode 5 (str "HOST ALERT") NEBTYPE_HOSTCHECK_PROCESSED) [host; state; type; dec n; output]) s 0
    (alert_row (im_ltime s) host st ty n output :: k) s' /\ Forall (fun q => exists x, q = Other x) k.
Proof.
  intros Hs Ho Hi Hst Hty Hn Hnew. unfold insert_host_check. cbn [strv nth sc_nvecs sc_code Nat.eqb]. rewrite Hi. cbn [negb].
  rewrite Hst, Hty. cbn [need]. assert (atoi (dec n) = n) as Ha.
  { unfold atoi, strtol. rewrite <- (app_nil_r (dec n)), strtol_raw_dec by (done || lia). cbn [fst]. rewrite s32_small; lia. }
  unfold runs, mbind, IM_bind, mret, IM_ret. rewrite Ha, (no_rows_runs s Ho Hs).
  destruct (runs_disable s Hs) as (k & d & b & (E & L & H) & F). rewrite E.
  destruct (host_result_runs (s <| im_sql := d |> <| im_disabled := b |>) host st ty n output H Hnew) as (s' & E' & L' & H').
  exists s', k. split; [|done]. split_and!; [exact E'| |done]. cbn in L, L' |- *. by rewrite L', L.
Qed.

Lemma im_step {A B} (c : IM A) (k : A -> IM B) s a s' : c s = Some (a, s') -> (c ≫= k) s = k a s'.
Proof. intros E. unfold mbind, IM_bind. by rewrite E. Qed.

Lemma codes_hostcheck : let h := NEBTYPE_HOSTCHECK_PROCESSED in (h =? IGNORE_LINE) = false /\ (h =? NEBTYPE_EXTERNALCOMMAND_END) = false /\
  (h =? NEBTYPE_NOTIFICATION_END + CONCERNS_HOST) || (h =? NEBTYPE_NOTIFICATION_END + CONCERNS_SERVICE) = false.
Proof.
  cbv zeta. rewrite orb_false_iff, !Z.eqb_neq. revert codes_differ. rewrite !NoDup_cons, !not_elem_of_cons. intuition congruence.
Qed.

(** The message of an alert, once its time is known. *)
Lemma message_runs s line host state type n output st ty : ";"%char ∉ host -> Ascii.eqb (hd ":"%char host) " " = false -> host <> [] ->
  healthy (im_sql s) -> im_running s = true -> ic_only_notifications conf = false -> is_interesting_host (ic_interesting conf) host = true ->
  parse_host_state state = Some st -> soft_hard type = Some ty -> 0 <= n < 2 ^ 31 ->
  (host_has_new_state (key host) st ty (im_states s)).1 = true ->
  exists s' k, runs (parse_message quote conf line (str "HOST ALERT: " ++ join ";" [host; state; type; dec n; output])) s 0
    (alert_row (im_ltime s) host st ty n output :: k) s' /\ Forall (fun q => exists x, q = Other x) k.
Proof.
  intros Hsemi Hsp Hne Hs Hrun Ho Hi Hst Hty Hn Hnew. set (rest := join ";" [host; state; type; dec n; output]).
  unfold parse_message. assert (is_interesting (str "HOST ALERT: " ++ rest) = true) as -> by done. cbn [negb].
  assert (behind ":" (str "HOST ALERT: " ++ rest) = Some (" "%char :: rest)) as -> by done.
  unfold parse_event. assert (ensure_running conf s = Some (tt, s)) as Er by (unfold ensure_running, mbind, IM_bind, igets; by rewrite Hrun).
  assert (before ":" (str "HOST ALERT: " ++ rest) = str "HOST ALERT") as ->.
  { unfold before. cbn [str app span]. cbn. done. }
  assert (get_string_code event_codes (str "HOST ALERT") = Some (StringCode 5 (str "HOST ALERT") NEBTYPE_HOSTCHECK_PROCESSED)) as -> by done.
  destruct codes_hostcheck as (C1 & C2 & C3). cbn [sc_code sc_nvecs Nat.eqb]. unfold is_notification. cbn [sc_code]. rewrite C1, C3, Ho. cbn [Bool.eqb negb].
  assert ((span (fun c => Ascii.eqb c " ") (" "%char :: rest)).2 = rest) as ->.
  { unfold rest. destruct host as [|c h]; [done|]. cbn [hd] in Hsp. rewrite join_cons by done. cbn [app span]. rewrite Ascii.eqb_refl, Hsp. done. }
  assert (vectorize_string rest 5 = [host; state; type; dec n; output]) as ->.
  { unfold rest. apply (vectorize_fields [host; state; type; dec n] output 5); [done|lia|]. repeat constructor; [done|..].
    - unfold parse_host_state, parse_host_state_gently, host_state in Hst. cbn [assoc] in Hst.
      repeat match type of Hst with context [text_eqb state ?x] => destruct (text_eqb state x) eqn:?; [match goal with H : text_eqb state x = true |- _ => apply text_eqb_eq in H as -> end; by vm_compute; set_solver|] end. done.
    - unfold soft_hard, equals in Hty. repeat case_match; try done; match goal with H : text_eqb type _ = true |- _ => apply text_eqb_eq in H as -> end; vm_compute; set_solver.
    - destruct (dec_spec n ltac:(lia)) as (_ & Hd & _). intros Hin. by apply (proj1 (Forall_forall _ _) Hd) in Hin. }
  cbn [length Nat.eqb negb]. unfold dispatch. cbn [sc_code]. rewrite C2, Z.eqb_refl.
  destruct (host_check_runs s host state type n output st ty Hs Ho Hi Hst Hty Hn Hnew) as (s' & k & (E & L & H) & F).
  exists s', k. split; [|done]. split_and!; [|done..]. rewrite (im_step _ _ _ _ _ Er), (im_step _ _ _ _ _ E). done.
Qed.

(** What every line does before it is looked at. *)
Definition prologue (line : text) : IM unit :=
  imod (fun s => s <| im_imported := u64 (im_imported s + Z.of_nat (length line) + 1) |> <| im_line_no := u32 (im_line_no s + 1) |>
    <| im_since := im_since s + 1 |>) ;;
  since ← igets im_since;
  if 25000 <=? since then show_progress else mret tt.

Lemma prologue_runs line s : exists s1, prologue line s = Some (tt, s1) /\ im_sql s1 = im_sql s /\ im_running s1 = im_running s /\
  im_last_ltime s1 = im_last_ltime s /\ im_states s1 = im_states s.
Proof. unfold prologue, mbind, IM_bind, imod, igets. case_match; eexists; (split; [reflexivity|done]). Qed.

Lemma parse_line_eq n rest ptr s s1 line (E : line = "["%char :: rest) : prologue line s = Some (tt, s1) -> (12 <= length line)%nat ->
  strtoull 10 rest = (n, ptr) -> (length ptr < length rest)%nat ->
  parse_line quote conf line s = (set_time (s64 n) ;; ltime ← igets im_ltime; if ltime <? ic_incremental conf then mret 0 else
      parse_message quote conf line (span (fun c => Ascii.eqb c "]" || Ascii.eqb c " ") ptr).2) s1.
Proof.
  intros Hp Hl Hn Hptr. unfold parse_line. rewrite (bool_decide_false (line = [])) by (by subst).
  unfold prologue in Hp. unfold mbind, IM_bind, imod, igets in *. cbn -[Nat.ltb Z.leb length strtoull span u64 u32] in Hp |- *.
  set (since := 25000 <=? _) in *. destruct since; cbn -[Nat.ltb length strtoull span u64 u32] in Hp |- *; injection Hp as <-.
  all: subst line; cbv beta iota; rewrite (proj2 (Nat.ltb_ge _ _)) by exact Hl; rewrite Hn; cbv beta iota;
    rewrite (proj2 (Nat.eqb_neq _ _)) by lia; reflexivity.
Qed.

(** A host alert that changes the state of its host, in time and of interest, becomes a row with the time,
    the host, the state, the type, the attempt and the output that the line has, output with semicolons included. *)
Theorem alert_recorded s t host state type n output st ty :
  ";"%char ∉ host -> Ascii.eqb (hd ":"%char host) " " = false -> host <> [] ->
  healthy (im_sql s) -> im_running s = true -> ic_only_notifications conf = false -> is_interesting_host (ic_interesting conf) host = true ->
  parse_host_state state = Some st -> soft_hard type = Some ty -> 0 <= n < 2 ^ 31 ->
  (host_has_new_state (key host) st ty (im_states s)).1 = true ->
  0 <= t < 2 ^ 63 -> im_last_ltime s <= t -> ic_incremental conf <= t ->
  exists s' k, runs (parse_line quote conf (alert_line t host state type n output)) s 0 (alert_row t host st ty n output :: k) s' /\
    Forall (fun q => exists x, q = Other x) k.
Proof.
  intros Hsemi Hsp Hne Hs Hrun Ho Hi Hst Hty Hn Hnew Ht Hl Hinc. unfold alert_line.
  set (rest := str "HOST ALERT: " ++ join ";" [host; state; type; dec n; output]).
  assert (str "[" ++ dec t ++ str "] HOST ALERT: " ++ join ";" [host; state; type; dec n; output] = "["%char :: dec t ++ "]"%char :: " "%char :: rest) as -> by done.
  set (line := "["%char :: _). assert (12 <= length line)%nat as Hlen.
  { unfold line. cbn [length]. rewrite length_app. cbn [length]. unfold rest. rewrite length_app. change (length (str "HOST ALERT: ")) with 12%nat. lia. }
  destruct (prologue_runs line s) as (s1 & E1 & P1 & P2 & P3 & P4).
  assert (strtoull 10 (dec t ++ "]"%char :: " "%char :: rest) = (t, "]"%char :: " "%char :: rest)) as Et.
  { unfold strtoull. rewrite strtol_raw_dec by (done || lia). cbv beta iota zeta. rewrite (proj2 (Z.ltb_ge _ _)), u64_small by lia. done. }
  set (s2 := s1 <| im_ltime := t |> <| im_last_ltime := t |>).
  assert (set_time (s64 t) s1 = Some (tt, s2)) as E2.
  { unfold set_time, imod. unfold s64. rewrite Z.mod_small by lia. replace (t + 2 ^ 63 - 2 ^ 63) with t by lia. rewrite (proj2 (Z.ltb_ge _ _)) by lia. done. }
  destruct (message_runs s2 line host state type n output st ty) as (s' & k & (E & L & H) & F); try done; [by rewrite <- P1 in Hs|by rewrite <- P2 in Hrun|by rewrite <- P4 in Hnew|].
  exists s', k. split; [|done]. split_and!; [|by rewrite L; cbn; rewrite P1|done].
  rewrite (parse_line_eq t _ _ s s1 line eq_refl E1 Hlen Et); [|rewrite length_app; destruct (dec t) eqn:Ed; [by destruct (dec_spec t ltac:(lia)) as (_ & _ & ?)|cbn; lia]].
  rewrite (im_step _ _ _ _ _ E2), (im_step _ _ _ _ _ (eq_refl : igets im_ltime s2 = _)). cbn [im_ltime s2].
  rewrite (proj2 (Z.ltb_ge _ _)) by exact Hinc. exact E.
Qed.
End Alert.

(** ** Examples *)

#[local] Existing Instance naemon_codes.
Definition demo_import : import := Import (demo_sql 10000) (States ∅ ∅) (UnhandledState [] None 0) 0 0 false 0 0 false 0 0 100000 0 0 0 0 [].
Definition demo_iconf : import_conf := ImportConf false false (str "report_data") 0 all_interesting.
Definition demo_log : list text := map str ["[1700000000] Naemon 1.0 starting... (PID=1)"; "[1700000010] HOST ALERT: alpha;DOWN;SOFT;1;no answer";
 "[1700000005] HOST ALERT: alpha;DOWN;SOFT;2;no answer"; "[1700000030] HOST ALERT: alpha;DOWN;HARD;3;no; answer"; "[1700000040] Caught SIGTERM, shutting down..."]%string.

Definition demo_imported : option import := snd <$> parse_lines demo_quote demo_iconf demo_log demo_import.

(** A start, two rows for the alerts that change something, the third at the time of the second line, and a stop. *)
Example demo_import_rows : (fun s => (rev (omap stmt_time (sq_log (im_sql s))), rev (procs s))) <$> demo_imported =
  Some ([1700000000; 1700000010; 1700000030; 1700000040], [NEBTYPE_PROCESS_START; NEBTYPE_PROCESS_SHUTDOWN]).
Proof. vm_compute. reflexivity. Qed.

Definition demo_after : import := default demo_import demo_imported.

Lemma import_in_order_witness : parse_lines demo_quote demo_iconf demo_log demo_import = Some (tt, demo_after) /\
  exists k, sq_log (im_sql demo_after) = k ++ sq_log (im_sql demo_import) /\ StronglySorted Z.ge (times k) /\
    Forall (fun t => ic_incremental demo_iconf <= t /\ im_last_ltime demo_import <= t) (times k).
Proof.
  assert (parse_lines demo_quote demo_iconf demo_log demo_import = Some (tt, demo_after)) as E by (vm_compute; reflexivity).
  split; [exact E|]. apply (import_in_order demo_quote demo_iconf demo_log demo_import demo_after E).
Defined.

Lemma starts_stops_alternate_witness : healthy (im_sql demo_import) /\ alternating (im_running demo_import) (procs demo_import) /\
  healthy (im_sql demo_after) /\ alternating (im_running demo_after) (procs demo_after).
Proof.
  assert (healthy (im_sql demo_import)) as H by (by constructor).
  assert (parse_lines demo_quote demo_iconf demo_log demo_import = Some (tt, demo_after)) as E by (vm_compute; reflexivity).
  refine (conj H (conj eq_refl _)).
  exact (starts_stops_alternate demo_quote demo_iconf eq_refl demo_log demo_import demo_after H eq_refl E).
Defined.
