(* ===== verification/Auth.v ===== *)
(** * Who may see what: tools/auth.c

    The log viewer can be told on its standard input which hosts and services to show: a line of hosts and a line of
    services, everything separated by semicolons.  The tables are sets, as keys are compared as texts. *)

From S2P Require Import Prelude Cfgfile Config Misc Shared.
#[local] Open Scope Z_scope.

(** tools/auth.c:7-7 auth_hosts -- and auth_services. *)
Record auth := Auth { auth_hosts : gset text; auth_services : gset (text * text) }.

(** tools/auth.c:10-13 auth_host_ok *)
Definition auth_host_ok (a : auth) (host : text) : bool := bool_decide (host ∈ auth_hosts a).

(** tools/auth.c:15-18 auth_service_ok *)
Definition auth_service_ok (a : auth) (host svc : text) : bool := bool_decide ((host, svc) ∈ auth_services a) || auth_host_ok a host.

(** strpbrk (s, "\n;"): what is before, and the delimiter with what is behind it. *)
Definition strpbrk (s : text) : text * text := span (fun c => negb (Ascii.eqb c NL || Ascii.eqb c ";")) s.

(** tools/auth.c:42-55 auth_read_input -- the hosts, and what is behind the newline that ends them; [None] without one. *)
Fixpoint auth_host_loop (fuel : nat) (objectstr : text) (hosts : gset text) : gset text * option text :=
  match fuel with
  | O => (hosts, None)
  | S fuel =>
      let '(host, end_) := strpbrk objectstr in
      let hosts := {[host]} ∪ hosts in
      match end_ with
      | [] => (hosts, None)
      | delim :: objectstr => if Ascii.eqb delim NL then (hosts, Some objectstr) else auth_host_loop fuel objectstr hosts
      end
  end.

(** tools/auth.c:59-81 auth_read_input -- the services; whether a host without a service ended the loop. *)
Fixpoint auth_service_loop (fuel : nat) (objectstr : text) (services : gset (text * text)) : gset (text * text) * bool :=
  match fuel with
  | O => (services, false)
  | S fuel =>
      let '(host, hostend) := strpbrk objectstr in
      match hostend with
      | [] => (services, false)
      | delim :: svcstart =>
          if Ascii.eqb delim NL then (services, true) else
          let '(svc, svcend) := strpbrk svcstart in
          let services := {[(host, svc)]} ∪ services in
          match svcend with
          | [] => (services, false)
          | delim :: objectstr => if Ascii.eqb delim NL then (services, false) else auth_service_loop fuel objectstr services
          end
      end
  end.

(** tools/auth.c:20-86 auth_read_input -- the result and the tables; [input] is all that can be read, up to its first NUL.  A turn
    of a loop takes at least one character but the last. *)
Definition auth_read_input (input : option text) : Z * auth :=
  match input with
  | None => (0, Auth ∅ ∅)
  | Some objectstr =>
      let '(hosts, rest) := auth_host_loop (S (length objectstr)) objectstr ∅ in
      match rest with
      | None => (1, Auth hosts ∅)
      | Some objectstr =>
          let '(services, odd) := auth_service_loop (S (length objectstr)) objectstr ∅ in
          (if odd then 1 else 0, Auth hosts services)
      end
  end.

(** ** Input as it is written *)

(** A name has neither delimiter. *)
Definition name (t : text) : Prop := Forall (fun c => Ascii.eqb c NL || Ascii.eqb c ";" = false) t.

Definition service_texts (l : list (text * text)) : list text := flat_map (fun p => [p.1; p.2]) l.

(** A line of hosts and a line of services. *)
Definition auth_text (hosts : list text) (services : list (text * text)) : text :=
  join ";" hosts ++ NL :: join ";" (service_texts services) ++ [NL].

Lemma strpbrk_name t c rest : name t -> Ascii.eqb c NL || Ascii.eqb c ";" = true -> strpbrk (t ++ c :: rest) = (t, c :: rest).
Proof.
  intros Ht Hc. unfold strpbrk. induction Ht as [|x t Hx _ IH]; cbn [app span]; [by rewrite Hc|]. rewrite Hx. cbn [negb]. by rewrite IH.
Qed.

Lemma host_loop_names l rest hosts fuel : l <> [] -> Forall name l -> (length l <= fuel)%nat ->
  auth_host_loop fuel (join ";" l ++ NL :: rest) hosts = (list_to_set l ∪ hosts, Some rest).
Proof.
  intros Hne Hl. revert hosts fuel Hne. induction Hl as [|t l Ht Hl IH]; intros hosts fuel Hne Hf; [done|].
  destruct fuel as [|fuel]; [cbn in Hf; lia|]. cbn [auth_host_loop]. destruct l as [|u l].
  - cbn [join]. rewrite strpbrk_name by done. cbn. f_equal. set_solver.
  - rewrite join_cons by done. rewrite <- app_assoc. cbn [app]. rewrite strpbrk_name by done. cbn [Ascii.eqb Bool.eqb NL].
    replace (Ascii.eqb ";" NL) with false by done. rewrite IH by (done || (cbn in *; lia)). f_equal. cbn [list_to_set]. set_solver.
Qed.

Lemma service_loop_names l services fuel : l <> [] -> Forall (fun p => name p.1 /\ name p.2) l -> (length l <= fuel)%nat ->
  auth_service_loop fuel (join ";" (service_texts l) ++ [NL]) services = (list_to_set l ∪ services, false).
Proof.
  intros Hne Hl. revert services fuel Hne. induction Hl as [|[h s] l [Hh Hs] Hl IH]; intros services fuel Hne Hf; [done|].
  destruct fuel as [|fuel]; [cbn in Hf; lia|]. unfold service_texts. cbn [flat_map fst snd app]. fold (service_texts l). rewrite join_cons by done.
  cbn [auth_service_loop]. rewrite <- app_assoc. cbn [app]. rewrite strpbrk_name by done. replace (Ascii.eqb ";" NL) with false by done.
  destruct l as [|[h' s'] l].
  - cbn [service_texts flat_map join]. rewrite strpbrk_name by done. cbn. f_equal. set_solver.
  - rewrite join_cons by done. rewrite <- app_assoc. cbn [app]. rewrite strpbrk_name by done. replace (Ascii.eqb ";" NL) with false by done.
    rewrite IH by (done || (cbn in *; lia)). f_equal. cbn [list_to_set]. set_solver.
Qed.

Lemma join_length delim l : l <> [] -> (length l <= S (length (join delim l)))%nat.
Proof.
  induction l as [|t l IH]; [done|]. intros _. destruct l as [|u l]; [cbn; lia|]. rewrite join_cons, length_app by done.
  specialize (IH ltac:(done)). cbn in *. lia.
Qed.

(** What is written is what may be seen: a host exactly when it is in the list, a service exactly when it or its host is. *)
Theorem auth_read_exact hosts services : hosts <> [] -> services <> [] -> Forall name hosts -> Forall (fun p => name p.1 /\ name p.2) services ->
  let '(r, a) := auth_read_input (Some (auth_text hosts services)) in r = 0 /\
    (forall h, auth_host_ok a h = true <-> h ∈ hosts) /\ (forall h s, auth_service_ok a h s = true <-> (h, s) ∈ services \/ h ∈ hosts).
Proof.
  intros Hh Hs Nh Ns. unfold auth_read_input, auth_text. rewrite host_loop_names by (done || (rewrite length_app; pose proof (join_length ";" hosts Hh); cbn; lia)).
  rewrite service_loop_names; [|done..|].
  - split; [done|]. unfold auth_service_ok, auth_host_ok. cbn [auth_hosts auth_services].
    assert (forall h, bool_decide (h ∈ (list_to_set hosts ∪ ∅ : gset text)) = true <-> h ∈ hosts) as H by (intros; rewrite bool_decide_eq_true; set_solver).
    split; [exact H|]. intros h s. rewrite orb_true_iff, H, bool_decide_eq_true. set_solver.
  - assert (length services <= length (service_texts services))%nat by (clear; induction services as [|[h s] l IH]; [done|]; change (service_texts ((h, s) :: l)) with (h :: s :: service_texts l); cbn [length]; lia).
    assert (service_texts services <> []) by (by destruct services).
    rewrite length_app. pose proof (join_length ";" (service_texts services) ltac:(done)). cbn. lia.
Qed.

(** Without a newline the hosts are taken and the result says that something is wrong, which nobody looks at. *)
Example auth_without_newline : let '(r, a) := auth_read_input (Some (str "alpha;beta")) in r = 1 /\ auth_host_ok a (str "beta") = true.
Proof. split; reflexivity. Qed.
