(* ===== verification/Showlog.v ===== *)
(** * Showing log files: tools/showlog.c

    The lines of log files that lie in an interval of time, are of the kinds that are asked for and concern objects that
    one may see and is interested in are printed, in one of several formats.  A line is a text without NUL.  What is
    printed is a list of texts, one for each line that is shown, the latest first.  A computation goes on, ends the process,
    or is undefined.  Output for debugging is left out. *)

From S2P Require Import Prelude Binlog Packet Io Merlin Pgroup Node Control Checks Hooks Commands Objects Cfgfile Config Misc Shared Sql Daemon Lparse Logutils Auth.
#[local] Open Scope Z_scope.

(** tools/showlog.c:40-59 EVT_PROCESS -- and the other kinds of events, each a bit. *)
Definition EVT_PROCESS : Z := 2 ^ 0.
Definition EVT_NOTIFY : Z := 2 ^ 1.
Definition EVT_ALERT : Z := 2 ^ 2.
Definition EVT_COMMAND : Z := 2 ^ 3.
Definition EVT_STATE : Z := 2 ^ 4.
Definition EVT_FLAPPING : Z := 2 ^ 5.
Definition EVT_DOWNTIME : Z := 2 ^ 6.
Definition EVT_LROTATE : Z := 2 ^ 7.
Definition EVT_EHANDLER : Z := 2 ^ 8.
Definition EVT_START : Z := 2 ^ 9.
Definition EVT_STOP : Z := 2 ^ 10.
Definition EVT_LIVESTATUS : Z := 2 ^ 11.
Definition EVT_QH : Z := 2 ^ 12.
Definition EVT_NERD : Z := 2 ^ 13.
Definition EVT_WPROC : Z := 2 ^ 14.
Definition EVT_NSR : Z := 2 ^ 15.
Definition EVT_CONTACT : Z := 2 ^ 16.
Definition EVT_HOST : Z := 2 ^ 20.
Definition EVT_SERVICE : Z := 2 ^ 21.

Definition evt (l : list Z) : Z := foldr Z.lor 0 l.

Definition add (n : nat) (s : string) (l : list Z) : string_code := StringCode n (str s) (evt l).

(** tools/showlog.c:68-99 event_codes *)
Definition event_codes : list string_code :=
  [add 0 "Error" [EVT_PROCESS]; add 0 "Warning" [EVT_PROCESS]; add 0 "LOG ROTATION" [EVT_LROTATE];
   add 0 "LOG VERSION" [EVT_PROCESS]; add 0 "EXTERNAL COMMAND" [EVT_COMMAND]; add 0 "livestatus" [EVT_LIVESTATUS];
   add 0 "qh" [EVT_QH; EVT_PROCESS]; add 0 "nerd" [EVT_NERD; EVT_PROCESS]; add 0 "NERD" [EVT_NERD; EVT_PROCESS];
   add 0 "wproc" [EVT_WPROC; EVT_PROCESS];
   add 5 "HOST ALERT" [EVT_ALERT; EVT_HOST]; add 5 "INITIAL HOST STATE" [EVT_STATE; EVT_HOST];
   add 5 "CURRENT HOST STATE" [EVT_STATE; EVT_HOST]; add 5 "HOST EVENT HANDLER" [EVT_EHANDLER; EVT_HOST];
   add 5 "HOST NOTIFICATION" [EVT_NOTIFY; EVT_HOST]; add 2 "HOST NOTIFICATION SUPPRESSED" [EVT_NSR; EVT_NOTIFY; EVT_HOST];
   add 2 "HOST CONTACT NOTIFICATION SUPPRESSED" [EVT_NSR; EVT_NOTIFY; EVT_CONTACT; EVT_HOST];
   add 6 "SERVICE ALERT" [EVT_ALERT; EVT_SERVICE]; add 6 "INITIAL SERVICE STATE" [EVT_STATE; EVT_SERVICE];
   add 6 "CURRENT SERVICE STATE" [EVT_STATE; EVT_SERVICE]; add 6 "SERVICE EVENT HANDLER" [EVT_EHANDLER; EVT_SERVICE];
   add 6 "SERVICE NOTIFICATION" [EVT_NOTIFY; EVT_SERVICE]; add 2 "SERVICE NOTIFICATION SUPPRESSED" [EVT_NSR; EVT_NOTIFY; EVT_SERVICE];
   add 3 "SERVICE CONTACT NOTIFICATION SUPPRESSED" [EVT_NSR; EVT_NOTIFY; EVT_CONTACT; EVT_HOST];
   add 3 "HOST DOWNTIME ALERT" [EVT_DOWNTIME; EVT_HOST]; add 3 "HOST FLAPPING ALERT" [EVT_FLAPPING; EVT_HOST];
   add 4 "SERVICE DOWNTIME ALERT" [EVT_DOWNTIME; EVT_SERVICE]; add 4 "SERVICE FLAPPING ALERT" [EVT_FLAPPING; EVT_SERVICE]].

(** tools/showlog.c:174-184 time_format_selections *)
Inductive time_format := Iso8601 | Raw | Duration | Runtime.

(** The functions that [real_print_line] may be. *)
Inductive style := StyleCount | StyleAscii | StyleAnsi | StyleHtml.

#[export] Instance time_format_eq_dec : EqDecision time_format.
Proof. solve_decision. Defined.

Record tm := Tm { tm_year : Z; tm_mon : Z; tm_mday : Z; tm_hour : Z; tm_min : Z; tm_sec : Z }.

(** The time zone of the machine: localtime_r and mktime. *)
Class Tz := { localtime : Z -> tm; mktime : tm -> Z }.

(** tools/showlog.c:19-31 first_time -- what the options set and a line does not change. *)
Record show_conf := ShowConf {
  so_first : Z; so_last : Z; so_reverse : bool; so_hide_dupes : bool; so_count : bool; so_restrict : bool; so_all_nodes : bool;
  so_filter : Z; so_host_filter : Z; so_service_filter : Z; so_type_filter : Z; so_format : time_format; so_style : style;
  so_error_style : style; so_image : option text; so_interesting : interesting; so_auth : auth }.

#[export] Instance eta_show_conf : Eta show_conf := fun r =>
  ShowConf (so_first r) (so_last r) (so_reverse r) (so_hide_dupes r) (so_count r) (so_restrict r) (so_all_nodes r) (so_filter r)
    (so_host_filter r) (so_service_filter r) (so_type_filter r) (so_format r) (so_style r) (so_error_style r) (so_image r)
    (so_interesting r) (so_auth r).

(** tools/showlog.c:20-29 last_ltime -- what a line changes, with the static variables of the functions and of tools/logutils.c. *)
Record showlog := Showlog {
  sh_ltime : Z; sh_last_ltime : Z; sh_last_start : Z; sh_severity : Z; sh_last_severity : Z; sh_prev_ltime : Z; sh_skews : Z;
  sh_skip : Z; sh_limit : Z; sh_printed : Z; sh_states : states; sh_last : option (Z * text); sh_time_break : Z;
  sh_line_no : Z; sh_warnings : Z; sh_out : list text }.

#[export] Instance eta_showlog : Eta showlog := fun r =>
  Showlog (sh_ltime r) (sh_last_ltime r) (sh_last_start r) (sh_severity r) (sh_last_severity r) (sh_prev_ltime r) (sh_skews r)
    (sh_skip r) (sh_limit r) (sh_printed r) (sh_states r) (sh_last r) (sh_time_break r) (sh_line_no r) (sh_warnings r) (sh_out r).

(** Results: a value and a state, the end of the process, or undefined behaviour. *)
Inductive sh_result (A : Type) := Next (a : A) (s : showlog) | Exits (code : Z) (s : showlog) | Undefined.
Arguments Next {A} a s.
Arguments Exits {A} code s.
Arguments Undefined {A}.

Definition SH (A : Type) : Type := showlog -> sh_result A.
#[export] Instance SH_ret : MRet SH := fun A a s => Next a s.
#[export] Instance SH_bind : MBind SH := fun A B k c s => match c s with Next a s => k a s | Exits code s => Exits code s | Undefined => Undefined end.
Definition sgets {A} (f : showlog -> A) : SH A := fun s => Next (f s) s.
Definition smod (f : showlog -> showlog) : SH unit := fun s => Next tt (f s).
Definition exits {A} (code : Z) : SH A := fun s => Exits code s.

(** A value that lp_crash would be called without, and one that would be undefined. *)
Definition or_crash {A} (o : option A) : SH A := match o with Some a => mret a | None => exits 1 end.
Definition or_undefined {A} (o : option A) : SH A := fun s => match o with Some a => Next a s | None => Undefined end.
Definition emit (t : text) : SH unit := smod (fun s => s <| sh_out := t :: sh_out s |>).

Section Show.
Context {NT : NebTypes} {LC : LogCodes} {TZ : Tz} (conf : show_conf).

(** tools/showlog.c:103-109 exit_nicely *)
Definition exit_nicely {A} (code : Z) : SH A :=
  p ← sgets sh_printed;
  (if so_count conf then emit (dec p ++ [NL]) else mret tt) ;; exits code.

(** ** Times *)

(** %02d and %6lu *)
Definition dec2 (n : Z) : text := replicate (2 - length (dec n)) "0"%char ++ dec n.
Definition dec6 (n : Z) : text := replicate (6 - length (dec n)) " "%char ++ dec n.

(** tools/showlog.c:111-116 print_time_iso8601 *)
Definition print_time_iso8601 (t : tm) : text :=
  str "[" ++ dec (tm_year t + 1900) ++ str "-" ++ dec2 (tm_mon t + 1) ++ str "-" ++ dec2 (tm_mday t) ++ str " " ++ dec2 (tm_hour t) ++
  str ":" ++ dec2 (tm_min t) ++ str ":" ++ dec2 (tm_sec t) ++ str "] ".

(** tools/showlog.c:118-122 print_time_div_iso8601 *)
Definition print_time_div_iso8601 (t : tm) : text :=
  dec (tm_year t + 1900) ++ str "-" ++ dec2 (tm_mon t + 1) ++ str "-" ++ dec2 (tm_mday t) ++ str " " ++ dec2 (tm_hour t) ++ str ":00 ".

(** tools/showlog.c:124-127 print_time_duration *)
Definition print_time_duration (s : showlog) : text := str "[" ++ dec6 (u64 (sh_ltime s - sh_last_ltime s)) ++ str "] ".
(** tools/showlog.c:129-132 print_time_raw *)
Definition print_time_raw (s : showlog) : text := str "[" ++ dec (u64 (sh_ltime s)) ++ str "] ".

(** tools/showlog.c:146-149 human_duration -- the values, the largest divider first, and what is left; [None] is a value that is not set. *)
Fixpoint duration_vals (dividers : list Z) (delta : Z) : list (option Z) * Z :=
  match dividers with
  | [] => ([], delta)
  | d :: l =>
      if delta =? 0 then (map (fun _ => None) (d :: l), 0) else
      let '(vals, rest) := duration_vals l (Z.rem delta d) in (Some (Z.quot delta d) :: vals, rest)
  end.

Definition part (v : Z) (c : string) : text := dec v ++ str c.

(** tools/showlog.c:134-167 human_duration -- [None] when a value is used that was not set. *)
Definition human_duration (now then_ : Z) : option text :=
  let delta := now - then_ in
  if delta =? 0 then Some (str "0s") else
  match duration_vals [604800; 86400; 3600; 60] delta with
  | ([weeks; days; hours; minutes], seconds) =>
      let sec := part seconds "s" in
      w ← weeks;
      if negb (w =? 0) then d ← days; h ← hours; m ← minutes; Some (part w "w " ++ part d "d " ++ part h "h " ++ part m "m " ++ sec) else
      d ← days;
      if negb (d =? 0) then h ← hours; m ← minutes; Some (part d "d " ++ part h "h " ++ part m "m " ++ sec) else
      h ← hours;
      if negb (h =? 0) then m ← minutes; Some (part h "h " ++ part m "m " ++ sec) else
      m ← minutes;
      Some (if negb (m =? 0) then (part m "m " ++ sec) else sec)
  | _ => None
  end.

(** tools/showlog.c:169-172 print_runtime *)
Definition print_runtime (s : showlog) : option text :=
  t ← human_duration (sh_ltime s) (sh_last_start s); Some (str "[" ++ t ++ str "] ").

(** [print_time] and [print_time_div], which is NULL but for the first format. *)
Definition print_time (t : tm) (s : showlog) : option text :=
  match so_format conf with
  | Iso8601 => Some (print_time_iso8601 t)
  | Raw => Some (print_time_raw s)
  | Duration => Some (print_time_duration s)
  | Runtime => print_runtime s
  end.
Definition print_time_div (t : tm) : option text := match so_format conf with Iso8601 => Some (print_time_div_iso8601 t) | _ => None end.
(** ** Lines *)

(** tools/colors.h:3-17 CLR_RESET -- and the other colours. *)
Definition clr (s : string) : text := "027"%char :: str s.
Definition CLR_RESET : text := clr "[m".
Definition CLR_BOLD : text := clr "[1m".
Definition CLR_RED : text := clr "[31m".
Definition CLR_GREEN : text := clr "[32m".
Definition CLR_BROWN : text := clr "[33m".
Definition CLR_YELLOW : text := clr "[33m" ++ CLR_BOLD.
Definition CLR_MAGENTA : text := clr "[35m".
Definition CLR_CYAN : text := clr "[36m".
Definition CLR_BRIGHT_RED : text := clr "[31m" ++ CLR_BOLD.
Definition CLR_BRIGHT_BLUE : text := clr "[34m" ++ CLR_BOLD.
Definition CLR_BRIGHT_MAGENTA : text := clr "[35m" ++ CLR_BOLD.
Definition CLR_BRIGHT_CYAN : text := clr "[36m" ++ CLR_BOLD.

Definition is_state (type : Z) : bool := has_flag type EVT_ALERT || has_flag type EVT_STATE.

(** tools/showlog.c:256-276 print_line_ansi -- the colour; [severity] is unsigned. *)
Definition line_color (type severity : Z) : option text :=
  if has_flag type EVT_HOST && is_state type then Some (if severity =? STATE_UP then CLR_GREEN else CLR_RED)
  else if has_flag type EVT_SERVICE && is_state type then
    if severity =? STATE_OK then Some CLR_GREEN else if severity =? STATE_WARNING then Some CLR_YELLOW
    else if severity =? STATE_CRITICAL then Some CLR_RED else if severity =? STATE_UNKNOWN then Some CLR_BROWN else None
  else if has_flag type EVT_START || has_flag type EVT_STOP then Some CLR_BRIGHT_BLUE
  else if has_flag type EVT_PROCESS then Some CLR_MAGENTA
  else if has_flag type EVT_LROTATE then Some CLR_BOLD
  else if has_flag type EVT_COMMAND then Some CLR_BRIGHT_MAGENTA
  else if has_flag type EVT_DOWNTIME then Some CLR_BRIGHT_CYAN
  else if has_flag type EVT_NOTIFY then Some CLR_BRIGHT_RED
  else if has_flag type EVT_FLAPPING then Some CLR_CYAN
  else None.

(** tools/showlog.c:232-236 print_line_ascii *)
Definition print_line_ascii (t : tm) (line : text) (s : showlog) : option text :=
  time ← print_time t s; Some (time ++ line ++ [NL]).

(** tools/showlog.c:252-286 print_line_ansi *)
Definition print_line_ansi (type : Z) (t : tm) (line : text) (s : showlog) : option text :=
  time ← print_time t s;
  Some match line_color type (sh_severity s) with
       | Some color => color ++ time ++ line ++ CLR_RESET ++ [NL]
       | None => time ++ line ++ [NL]
       end.

(** tools/showlog.c:289-306 print_time_break *)
Definition print_time_break (t : tm) : option text :=
  let h := Tm (tm_year t) (tm_mon t) (tm_mday t) (tm_hour t) 0 0 in
  let h := if so_reverse conf then localtime (mktime h + 3600) else h in
  d ← print_time_div h; Some (str "<h2>" ++ d ++ str "</h2>" ++ [NL]).

(** tools/showlog.c:345-371 print_line_html -- the image. *)
Definition line_image (type severity : Z) : option string :=
  if has_flag type EVT_HOST && is_state type then if severity =? STATE_UP then Some "shield-ok.png"%string else Some "shield-critical.png"%string
  else if has_flag type EVT_SERVICE && is_state type then
    if severity =? STATE_OK then Some "shield-ok.png"%string else if severity =? STATE_WARNING then Some "shield-warning.png"%string
    else if severity =? STATE_CRITICAL then Some "shield-critical.png"%string
    else if severity =? STATE_UNKNOWN then Some "shield-unknown.png"%string else None
  else if has_flag type EVT_NOTIFY then if has_flag type EVT_NSR then Some "notify-disabled.png"%string else Some "notify-send.png"%string
  else if has_flag type EVT_EHANDLER then
    if has_flag type EVT_HOST then Some "hostevent.png"%string else if has_flag type EVT_SERVICE then Some "serviceevent.png"%string else None
  else if has_flag type EVT_DOWNTIME then Some "scheduled-downtime.png"%string
  else if has_flag type EVT_FLAPPING then Some "flapping.png"%string
  else if has_flag type EVT_COMMAND then Some "command.png"%string
  else if has_flag type EVT_LROTATE then Some "logrotate.png"%string
  else if has_flag type EVT_START then Some "start.png"%string
  else if has_flag type EVT_STOP then Some "stop.png"%string
  else Some "shield-info.png"%string.

(** tools/showlog.c:382-397 print_line_html -- what a character becomes. *)
Definition html_quote (c : ascii) : option text :=
  if Ascii.eqb c "&" then Some (str "&amp;") else if Ascii.eqb c "034" then Some (str "&quot;")
  else if Ascii.eqb c "'" then Some (str "&apos;") else if Ascii.eqb c "<" then Some (str "&lt;")
  else if Ascii.eqb c ">" then Some (str "&gt;") else None.

(** tools/showlog.c:380-404 print_line_html -- [pending] are the [i] characters from [line] on, latest first. *)
Fixpoint html_loop (pending tmp : text) : text :=
  match tmp with
  | [] => reverse pending
  | c :: tmp => match html_quote c with Some q => reverse pending ++ q ++ html_loop [] tmp | None => html_loop (c :: pending) tmp end
  end.

(** tools/showlog.c:338-406 print_line_html -- the text and the time of the last break. *)
Definition print_line_html (type : Z) (t : tm) (line : text) (s : showlog) : option (text * Z) :=
  let hour := Z.quot (sh_ltime s) 3600 in
  brk ← (if sh_time_break s =? hour then Some [] else print_time_break t);
  image ← line_image type (sh_severity s);
  url ← so_image conf;
  time ← print_time t s;
  Some (brk ++ str "<img src=" ++ "034"%char :: url ++ str "/" ++ str image ++ "034"%char :: str " alt=" ++ "034"%char :: str image ++
    "034"%char :: str " /> " ++ time ++ html_loop [] line ++ str "<br />" ++ [NL], hour).

(** tools/showlog.c:507-507 real_print_line *)
Definition real_print_line (type : Z) (line : text) : SH unit :=
  s ← sgets id;
  let t := localtime (sh_ltime s) in
  match so_style conf with
  | StyleCount => mret tt
  | StyleAscii => x ← or_undefined (print_line_ascii t line s); emit x
  | StyleAnsi => x ← or_undefined (print_line_ansi type t line s); emit x
  | StyleHtml => x ← or_undefined (print_line_html type t line s); smod (fun s => s <| sh_time_break := x.2 |>) ;; emit x.1
  end.

Definition one_printed : SH unit := smod (fun s => s <| sh_printed := u64 (sh_printed s + 1) |>).

(** tools/showlog.c:522-536 print_line -- with durations a line is printed when the next one is known; [None] is NULL. *)
Definition print_duration (type : Z) (line : option text) : SH unit :=
  s ← sgets id;
  match sh_last s with
  | Some (last_type, last_line) =>
      smod (fun s => s <| sh_severity := sh_last_severity s |>) ;;
      one_printed ;;
      real_print_line last_type last_line ;;
      smod (fun x => x <| sh_severity := sh_severity s |>)
  | None => mret tt
  end ;;
  smod (fun s => s <| sh_last_severity := sh_severity s |> <| sh_last := pair type <$> line |> <| sh_last_ltime := sh_ltime s |>).

(** tools/showlog.c:543-550 print_line *)
Definition count_limit : SH unit :=
  limit ← sgets sh_limit;
  if limit =? 0 then mret tt else
  smod (fun s => s <| sh_limit := limit - 1 |>) ;;
  if limit - 1 =? 0 then exit_nicely 0 else mret tt.

(** tools/showlog.c:508-551 print_line -- the NULs that [vectorize_string] left are semicolons again. *)
Definition print_line (type : Z) (line : option text) : SH unit :=
  skip ← sgets sh_skip;
  if negb (skip =? 0) then smod (fun s => s <| sh_skip := skip - 1 |>) else
  match so_format conf, line with
  | Duration, _ => print_duration type line
  | _, Some l => one_printed ;; real_print_line type l
  | _, None => or_undefined None
  end ;;
  count_limit.

(** ** What is shown *)

Definition warn : SH unit := smod (fun s => s <| sh_warnings := u32 (sh_warnings s + 1) |>).

(** A field of the line. *)
Definition strv (v : list text) (i : nat) : text := nth i v [].
Definition key (t : text) : option string := Some (String.string_of_list_ascii t).

(** An object that may be seen and is of interest. *)
Definition host_ok (host : text) : bool :=
  (negb (so_restrict conf) || auth_host_ok (so_auth conf) host) && is_interesting_host (so_interesting conf) host.
Definition service_ok (host svc : text) : bool :=
  (negb (so_restrict conf) || auth_service_ok (so_auth conf) host svc) && is_interesting_service (so_interesting conf) host (Some svc).

(** A state that was not the last one of its object, if that matters. *)
Definition unless_known (f : states -> bool * states) : SH bool :=
  if negb (so_hide_dupes conf) then mret true else
  st ← sgets sh_states;
  let '(new, st) := f st in
  smod (fun s => s <| sh_states := st |>) ;; mret new.

(** tools/showlog.c:668-683 parse_line -- a state of a host. *)
Definition host_state_shown (v : list text) : SH bool :=
  hard ← or_crash (soft_hard (strv v 2));
  if negb (has_flag (so_type_filter conf) (Z.shiftl 1 hard)) then mret false else
  severity ← or_crash (parse_host_state (strv v 1));
  smod (fun s => s <| sh_severity := severity |>) ;;
  if negb (has_flag (so_host_filter conf) (Z.shiftl 1 severity)) then mret false else
  if negb (host_ok (strv v 0)) then mret false else
  unless_known (host_has_new_state (key (strv v 0)) severity hard).

(** tools/showlog.c:685-700 parse_line -- a state of a service. *)
Definition service_state_shown (v : list text) : SH bool :=
  hard ← or_crash (soft_hard (strv v 3));
  if negb (has_flag (so_type_filter conf) (Z.shiftl 1 hard)) then mret false else
  severity ← or_crash (parse_service_state (strv v 2));
  smod (fun s => s <| sh_severity := severity |>) ;;
  if negb (has_flag (so_service_filter conf) (Z.shiftl 1 severity)) then mret false else
  if negb (service_ok (strv v 0) (strv v 1)) then mret false else
  unless_known (service_has_new_state (key (strv v 0)) (key (strv v 1)) severity hard).

Definition one_of (code : Z) (l : list (list Z)) : bool := existsb (fun e => code =? evt e) l.

(** tools/showlog.c:667-761 parse_line -- the switch. *)
Definition event_shown (code : Z) (v : list text) : SH bool :=
  if one_of code [[EVT_ALERT; EVT_HOST]; [EVT_STATE; EVT_HOST]] then host_state_shown v
  else if one_of code [[EVT_ALERT; EVT_SERVICE]; [EVT_STATE; EVT_SERVICE]] then service_state_shown v
  else if one_of code [[EVT_FLAPPING; EVT_HOST]; [EVT_DOWNTIME; EVT_HOST]; [EVT_EHANDLER; EVT_HOST]] then mret (host_ok (strv v 0))
  else if one_of code [[EVT_FLAPPING; EVT_SERVICE]; [EVT_DOWNTIME; EVT_SERVICE]; [EVT_EHANDLER; EVT_SERVICE]] then
    mret (service_ok (strv v 0) (strv v 1))
  else if one_of code [[EVT_NOTIFY; EVT_HOST]] then mret (host_ok (strv v 1))
  else if one_of code [[EVT_NOTIFY; EVT_SERVICE]] then mret (service_ok (strv v 1) (strv v 2))
  else if one_of code [[EVT_NSR; EVT_NOTIFY; EVT_HOST]] then mret (host_ok (strv v 0))
  else if one_of code [[EVT_NSR; EVT_NOTIFY; EVT_SERVICE]] then mret (service_ok (strv v 0) (strv v 1))
  else if one_of code [[EVT_NSR; EVT_NOTIFY; EVT_HOST; EVT_CONTACT]] then mret (host_ok (strv v 1))
  else if one_of code [[EVT_NSR; EVT_NOTIFY; EVT_SERVICE; EVT_CONTACT]] then mret (service_ok (strv v 1) (strv v 2))
  else mret true.

(** tools/showlog.c:607-625 parse_line -- a line without a colon. *)
Definition parse_process (line : text) : SH Z :=
  if negb (has_flag (so_filter conf) EVT_PROCESS) then mret 0 else
  if is_start_event line then
    smod (fun s => s <| sh_last_start := sh_ltime s |>) ;;
    (if so_restrict conf then mret tt else print_line EVT_START (Some line)) ;; mret 0
  else if is_stop_event line then
    (if so_restrict conf then mret tt else print_line EVT_STOP (Some line)) ;;
    smod (fun s => s <| sh_last_start := 0 |>) ;; mret 0
  else mret 0.

(** tools/showlog.c:627-764 parse_line -- a line with a colon; [args] are behind it. *)
Definition parse_event (line args : text) : SH Z :=
  smod (fun s => if sh_last_start s =? 0 then s <| sh_last_start := sh_ltime s - 1 |> else s) ;;
  match get_string_code event_codes (before ":" line) with
  | None => mret 0
  | Some sc =>
      if sc_code sc =? 0 then mret 0 else
      if negb (Z.land (sc_code sc) (so_filter conf) =? sc_code sc) then mret 0 else
      smod (fun s => s <| sh_severity := 2 ^ 32 - 1 |>) ;;
      let v := if (sc_nvecs sc =? 0)%nat then [] else vectorize_string (span (fun c => Ascii.eqb c " ") args).2 (sc_nvecs sc) in
      if negb (length v =? sc_nvecs sc)%nat then warn ;; mret (-1) else
      shown ← event_shown (sc_code sc) v;
      if negb shown then mret 0 else
      print_line (sc_code sc) (Some line) ;; mret 0
  end.

(** tools/showlog.c:586-596 parse_line -- times that go back. *)
Definition count_skew : SH unit :=
  smod (fun s => if sh_ltime s <? sh_prev_ltime s then s <| sh_skews := u64 (sh_skews s + 1) |> else s <| sh_prev_ltime := sh_ltime s |>).

(** tools/showlog.c:554-765 parse_line *)
Definition parse_line (orig_line : text) : SH Z :=
  smod (fun s => s <| sh_line_no := u32 (sh_line_no s + 1) |>) ;;
  match orig_line with
  | [] => mret 0
  | c :: rest =>
      if (length orig_line <? 12)%nat || negb (Ascii.eqb c "[") then warn ;; mret (-1) else
      let '(n, ptr) := strtoull 10 rest in
      let ltime := s64 n in
      smod (fun s => s <| sh_ltime := ltime |>) ;;
      if (length ptr =? length rest)%nat then exits 1 else
      if (ltime <? so_first conf) || (so_last conf <? ltime) then mret 0 else
      count_skew ;;
      let line := (span (fun c => Ascii.eqb c "]" || Ascii.eqb c " ") ptr).2 in
      if negb (is_interesting line) then mret 0 else
      match behind ":" line with
      | None => parse_process line
      | Some args => parse_event line args
      end
  end.

Fixpoint parse_lines (l : list text) : SH unit :=
  match l with [] => mret tt | x :: l => parse_line x ;; parse_lines l end.
End Show.

(** ** Durations *)

(** A duration is written exactly when it is none or not a whole number of hours. *)
Theorem human_duration_defined now then_ : is_Some (human_duration now then_) <-> now = then_ \/ Z.rem (now - then_) 3600 <> 0.
Proof.
  unfold human_duration. destruct (Z.eqb_spec (now - then_) 0) as [E|E]; [split; [intros; left; lia|intros; eauto]|].
  assert (now <> then_) as Hne by lia. set (d := now - then_) in *. clearbody d. assert (forall P, now = then_ \/ P <-> P) as -> by (clear - Hne; tauto).
  cbn [duration_vals map]. rewrite (proj2 (Z.eqb_neq d 0) E).
  assert (forall x, ~ is_Some (@None x)) as N by (intros x [? ?]; done).
  destruct (Z.eqb_spec (Z.rem d 604800) 0) as [E1|E1].
  { cbn [mbind option_bind]. rewrite (proj2 (Z.eqb_neq _ _)) by (Z.to_euclidean_division_equations; lia). cbn [negb].
    split; [by intros ?%N|]. intros R. destruct R. Z.to_euclidean_division_equations; lia. }
  destruct (Z.eqb_spec (Z.rem (Z.rem d 604800) 86400) 0) as [E2|E2].
  { cbn [mbind option_bind]. case_match; [|rewrite (proj2 (Z.eqb_neq _ _)) by (Z.to_euclidean_division_equations; lia); cbn [negb]].
    all: split; [by intros ?%N|]; intros R; destruct R; Z.to_euclidean_division_equations; lia. }
  destruct (Z.eqb_spec (Z.rem (Z.rem (Z.rem d 604800) 86400) 3600) 0) as [E3|E3].
  { cbn [mbind option_bind]. case_match; [|case_match; [|rewrite (proj2 (Z.eqb_neq _ _)) by (Z.to_euclidean_division_equations; lia); cbn [negb]]].
    all: split; [by intros ?%N|]; intros R; destruct R; Z.to_euclidean_division_equations; lia. }
  cbn [mbind option_bind]. split; [intros _; clear - E3; Z.to_euclidean_division_equations; lia|]. intros _. repeat case_match; eauto.
Qed.

(** ** HTML *)

(** What is printed of a line is the line with the characters of HTML quoted. *)
Lemma html_loop_spec pending line : html_loop pending line = reverse pending ++ flat_map (fun c => default [c] (html_quote c)) line.
Proof.
  revert pending. induction line as [|c line IH]; intros pending; cbn [html_loop flat_map]; [by rewrite app_nil_r|].
  destruct (html_quote c) as [q|] eqn:E; cbn [default]; rewrite IH; [by rewrite reverse_nil|]. by rewrite reverse_cons, <- app_assoc.
Qed.

(** No line can put an element or an attribute into the page. *)
Theorem html_line_quoted line : Forall (fun c => c <> "<"%char /\ c <> ">"%char /\ c <> "034"%char /\ c <> "'"%char) (html_loop [] line).
Proof.
  rewrite html_loop_spec. cbn [reverse app rev_append]. induction line as [|c line IH]; [constructor|]. cbn [flat_map]. apply Forall_app. split; [|done].
  unfold html_quote. repeat case_match; cbn [default]; try (vm_compute; repeat constructor; done).
  repeat match goal with H : Ascii.eqb _ _ = false |- _ => apply Ascii.eqb_neq in H end. by repeat constructor.
Qed.

(** ** Pages *)

Section Pages.
Context {NT : NebTypes} {LC : LogCodes} {TZ : Tz} (conf : show_conf).

(** What decides on which lines are printed, and what was printed. *)
Definition with_page (skip limit printed : Z) (out : list text) (s : showlog) : showlog :=
  s <| sh_skip := skip |> <| sh_limit := limit |> <| sh_printed := printed |> <| sh_out := out |>.

Definition on_state {A} (f : showlog -> showlog) (r : sh_result A) : sh_result A :=
  match r with Next a s => Next a (f s) | Exits c s => Exits c (f s) | Undefined => Undefined end.

(** Computations that have nothing to do with that. *)
Definition blind {A} (c : SH A) : Prop := forall a b p o s, c (with_page a b p o s) = on_state (with_page a b p o) (c s).

Lemma blind_ret {A} (a : A) : blind (mret a).
Proof. done. Qed.
Lemma blind_exits {A} code : blind (exits (A:=A) code).
Proof. done. Qed.
Lemma blind_or_crash {A} (o : option A) : blind (or_crash o).
Proof. by destruct o. Qed.
Lemma blind_bind {A B} (c : SH A) (k : A -> SH B) : blind c -> (forall a, blind (k a)) -> blind (c ≫= k).
Proof. intros Hc Hk a b p o s. unfold mbind, SH_bind. rewrite Hc. destruct (c s); cbn; [apply Hk|done..]. Qed.
Lemma blind_gets {A} (f : showlog -> A) : (forall a b p o s, f (with_page a b p o s) = f s) -> blind (sgets f).
Proof. intros Hf a b p o s. unfold sgets. cbn. by rewrite Hf. Qed.
Lemma blind_smod f : (forall a b p o s, f (with_page a b p o s) = with_page a b p o (f s)) -> blind (smod f).
Proof. intros Hf a b p o s. unfold smod. cbn. by rewrite Hf. Qed.

Lemma with_own s : with_page (sh_skip s) (sh_limit s) (sh_printed s) (sh_out s) s = s.
Proof. by destruct s. Qed.

Lemma blind_keeps {A} (c : SH A) s a s' : blind c -> c s = Next a s' ->
  s' = with_page (sh_skip s) (sh_limit s) (sh_printed s) (sh_out s) s'.
Proof. intros Hc E. specialize (Hc (sh_skip s) (sh_limit s) (sh_printed s) (sh_out s) s). rewrite with_own, E in Hc. by injection Hc. Qed.

(** The page of [n] lines, or of all when that is 0, behind the first [k]. *)
Definition page (k n : nat) (l : list text) : list text := (if (n =? 0)%nat then id else take n) (drop k l).
Definition shown (s : showlog) : list text := reverse (sh_out s).

Lemma shown_page a b p o s : shown (with_page a b p o s) = reverse o.
Proof. done. Qed.

Context (k n : nat).

(** A run that shows everything and one that shows a page, while the page is not full. *)
Definition paged (s s' : showlog) : Prop :=
  sh_skip s = 0 /\ sh_limit s = 0 /\ (n = 0 \/ length (shown s) - k < n)%nat /\
  exists p, s' = with_page (Z.of_nat (k - length (shown s))) (if (n =? 0)%nat then 0 else Z.of_nat (n - (length (shown s) - k))) p
    (reverse (drop k (shown s))) s.

(** The page is full. *)
Definition full (s s' : showlog) : Prop := (0 < n <= length (shown s) - k)%nat /\ shown s' = page k n (shown s).

Definition pages {A} (c : SH A) : Prop := forall s s' a s1, paged s s' -> c s = Next a s1 ->
  (exists l, shown s1 = shown s ++ l) /\ sh_skip s1 = 0 /\ sh_limit s1 = 0 /\
  ((exists s1', c s' = Next a s1' /\ paged s1 s1') \/ (exists s1', c s' = Exits 0 s1' /\ full s1 s1')).

Lemma full_later s1 s2 s' l : full s1 s' -> shown s2 = shown s1 ++ l -> full s2 s'.
Proof.
  intros [Hn E] E2. split; [rewrite E2, length_app; lia|]. rewrite E, E2. unfold page. destruct n as [|m]; [lia|]. cbn [Nat.eqb].
  rewrite drop_app_le by lia. rewrite take_app_le; [done|]. rewrite length_drop. lia.
Qed.

Lemma pages_ret {A} (a : A) : pages (mret a).
Proof.
  intros s s' b s1 Hp [= <- <-]. split; [exists []; by rewrite app_nil_r|]. split_and!; [apply Hp..|]. left. by exists s'.
Qed.

(** A computation from a state in which everything is shown. *)
Definition everything {A} (c : SH A) : Prop := forall s a s1, sh_skip s = 0 -> sh_limit s = 0 -> c s = Next a s1 ->
  (exists l, shown s1 = shown s ++ l) /\ sh_skip s1 = 0 /\ sh_limit s1 = 0.
Definition both {A} (c : SH A) : Prop := everything c /\ pages c.

Lemma everything_bind {A B} (c : SH A) (f : A -> SH B) : everything c -> (forall a, everything (f a)) -> everything (c ≫= f).
Proof.
  intros Hc Hf s b s2 Hs Hl. unfold mbind, SH_bind. destruct (c s) as [a s1|?|] eqn:E; [|done..]. intros E2.
  destruct (Hc _ _ _ Hs Hl E) as ((l1 & L1) & ? & ?). destruct (Hf a s1 b s2) as ((l2 & L2) & ? & ?); [done..|].
  split_and!; [|done..]. exists (l1 ++ l2). by rewrite L2, L1, app_assoc.
Qed.

Lemma both_bind {A B} (c : SH A) (f : A -> SH B) : both c -> (forall a, both (f a)) -> both (c ≫= f).
Proof.
  intros [Ec Pc] Hf. split; [apply everything_bind; [done|apply Hf]|].
  intros s s' b s2 Hp E. destruct (everything_bind c f Ec (fun a => proj1 (Hf a)) s b s2 (proj1 Hp) (proj1 (proj2 Hp)) E) as (Hl & Hs2 & Hl2).
  split_and!; [done..|]. revert E. unfold mbind, SH_bind. destruct (c s) as [a s1|?|] eqn:E1; [|done..]. intros E2.
  destruct (Pc _ _ _ _ Hp E1) as (_ & S1 & L1 & [(s1' & E1' & Hp1)|(s1' & E1' & Hf1)]); rewrite E1'.
  - apply (proj2 (Hf a) _ _ _ _ Hp1 E2).
  - right. exists s1'. split; [done|]. destruct (proj1 (Hf a) s1 b s2 S1 L1 E2) as ((l & L) & _). by eapply full_later.
Qed.

Lemma both_blind {A} (c : SH A) : blind c -> both c.
Proof.
  intros Hb. assert (forall s a s1, c s = Next a s1 -> shown s1 = shown s /\ sh_skip s1 = sh_skip s /\ sh_limit s1 = sh_limit s) as K.
  { intros s a s1 E. rewrite (blind_keeps c s a s1 Hb E). done. }
  split.
  - intros s a s1 Hs Hl E. destruct (K _ _ _ E) as (-> & -> & ->). split_and!; [|done..]. exists []. by rewrite app_nil_r.
  - intros s s' a s1 (Hs & Hl & Hn & p & ->) E. destruct (K _ _ _ E) as (K1 & K2 & K3).
    split; [exists []; by rewrite app_nil_r|]. split_and!; [congruence..|]. left.
    eexists. split; [rewrite Hb, E; reflexivity|]. unfold paged. rewrite K1, K2, K3. eauto.
Qed.

(** *** The printing of a line *)

Hypothesis plain_time : so_format conf <> Duration.
Hypothesis plain_style : so_style conf = StyleAscii \/ so_style conf = StyleAnsi.
Hypothesis no_count : so_count conf = false.

(** What the line looks like, whatever was printed before it. *)
Definition rendered (type : Z) (line : text) (s : showlog) : option text :=
  let t := localtime (sh_ltime s) in
  match so_style conf with StyleAnsi => print_line_ansi conf type t line s | _ => print_line_ascii conf t line s end.

Lemma rendered_page type line a b p o s : rendered type line (with_page a b p o s) = rendered type line s.
Proof. unfold rendered, print_line_ansi, print_line_ascii, print_time. by destruct (so_style conf), (so_format conf). Qed.

Lemma real_print_eq type line s : real_print_line conf type line s =
  match rendered type line s with Some x => Next tt (s <| sh_out := x :: sh_out s |>) | None => Undefined end.
Proof.
  unfold real_print_line, rendered, mbind, SH_bind, sgets, id, or_undefined, emit, smod.
  destruct plain_style as [-> | ->]; cbv zeta; [destruct (print_line_ascii _ _ _ _)|destruct (print_line_ansi _ _ _ _ _)]; reflexivity.
Qed.

Lemma print_line_eq type line s : sh_skip s = 0 -> print_line conf type (Some line) s =
  match rendered type line s with
  | Some x => count_limit conf (s <| sh_printed := u64 (sh_printed s + 1) |> <| sh_out := x :: sh_out s |>)
  | None => Undefined
  end.
Proof.
  intros Hs. unfold print_line. unfold mbind at 1, SH_bind at 1, sgets. rewrite Hs. cbn [negb Z.eqb].
  assert (match so_format conf with Duration => print_duration conf type (Some line) | _ => one_printed ;; real_print_line conf type line end =
    (one_printed ;; real_print_line conf type line)) as E by (by destruct (so_format conf)).
  rewrite E. unfold one_printed, smod, mbind, SH_bind. rewrite real_print_eq.
  change (s <| sh_printed := u64 (sh_printed s + 1) |>) with (with_page (sh_skip s) (sh_limit s) (u64 (sh_printed s + 1)) (sh_out s) s).
  rewrite rendered_page. by destruct (rendered type line s).
Qed.

Lemma print_line_all type line s a s1 : sh_skip s = 0 -> sh_limit s = 0 -> print_line conf type (Some line) s = Next a s1 ->
  exists x p, rendered type line s = Some x /\ s1 = with_page 0 0 p (x :: sh_out s) s.
Proof.
  intros Hs Hl. rewrite print_line_eq by done. destruct (rendered type line s) as [x|]; [|done].
  unfold count_limit, mbind, SH_bind, sgets. cbn -[u64]. rewrite Hl. intros [= _ <-]. exists x, (u64 (sh_printed s + 1)).
  split; [done|]. destruct s; cbn in *. by subst.
Qed.

Lemma print_line_both type line : both (print_line conf type (Some line)).
Proof.
  split.
  { intros s a s1 Hs Hl E. destruct (print_line_all _ _ _ _ _ Hs Hl E) as (x & p & _ & ->). rewrite shown_page. split; [|done].
    exists [x]. by rewrite reverse_cons. }
  intros s s' a s1 (Hs & Hl & Hn & q & ->) E. destruct (print_line_all _ _ _ _ _ Hs Hl E) as (x & p & Ex & ->).
  assert (shown (with_page 0 0 p (x :: sh_out s) s) = shown s ++ [x]) as Hx by (by rewrite shown_page, reverse_cons).
  split; [by exists [x]|]. split_and!; [done..|]. destruct (decide (length (shown s) < k)%nat) as [Hk|Hk].
  - left. unfold print_line at 1. unfold mbind at 1, SH_bind at 1, sgets.
    change (sh_skip (with_page ?a _ _ _ _)) with a. rewrite (proj2 (Z.eqb_neq _ _)) by lia. cbn [negb].
    eexists. split; [by destruct a|]. unfold paged. rewrite Hx, length_app. cbn [length].
    split_and!; [done..|lia|]. exists q. rewrite !drop_ge by (rewrite ?length_app; cbn; lia).
    replace (length (shown s) + 1 - k)%nat with 0%nat by lia. replace (length (shown s) - k)%nat with 0%nat by lia.
    replace (Z.of_nat (k - length (shown s)) - 1) with (Z.of_nat (k - (length (shown s) + 1))) by lia. done.
  - rewrite print_line_eq by (change (sh_skip (with_page ?a _ _ _ _)) with a; lia). rewrite rendered_page, Ex.
    assert (reverse (drop k (shown s ++ [x])) = x :: reverse (drop k (shown s))) as Hd by (rewrite drop_app_le by lia; by rewrite reverse_snoc).
    unfold count_limit, mbind, SH_bind, sgets. cbn -[u64 shown reverse drop Z.of_nat Nat.sub].
    destruct (Nat.eqb_spec n 0) as [En|En].
    + left. cbn -[u64 shown reverse drop Z.of_nat Nat.sub]. eexists. split; [by destruct a|]. unfold paged. rewrite Hx, Hd, length_app. cbn [length].
      split_and!; [done..|by left|]. exists (u64 (q + 1)). rewrite (proj2 (Nat.eqb_eq n 0)) by done.
      replace (k - (length (shown s) + 1))%nat with (k - length (shown s))%nat by lia. done.
    + rewrite (proj2 (Z.eqb_neq _ 0)) by lia. destruct (Z.eqb_spec (Z.of_nat (n - (length (shown s) - k)) - 1) 0) as [E0|E0].
      * right. unfold exit_nicely, mbind, SH_bind, sgets, smod, exits. rewrite no_count. cbn -[u64 shown reverse drop Z.of_nat Nat.sub].
        eexists. split; [reflexivity|]. unfold full. rewrite Hx, length_app. cbn [length]. split; [lia|].
        unfold shown at 1. cbn -[u64 shown reverse drop Z.of_nat Nat.sub]. rewrite <- Hd, reverse_involutive. unfold page.
        rewrite (proj2 (Nat.eqb_neq n 0)) by done. rewrite take_ge; [done|]. rewrite length_drop, length_app. cbn [length]. lia.
      * left. unfold smod. cbn -[u64 shown reverse drop Z.of_nat Nat.sub]. eexists. split; [by destruct a|]. unfold paged. rewrite Hx, Hd, length_app. cbn [length].
        split_and!; [done..|lia|]. exists (u64 (q + 1)). rewrite (proj2 (Nat.eqb_neq n 0)) by done.
        replace (k - (length (shown s) + 1))%nat with (k - length (shown s))%nat by lia.
        replace (Z.of_nat (n - (length (shown s) - k)) - 1) with (Z.of_nat (n - (length (shown s) + 1 - k))) by lia. done.
Qed.

(** *** A line *)

Ltac blinding :=
  repeat first
    [ apply blind_ret | apply blind_exits | apply blind_or_crash | apply blind_bind; [|intros ?]
    | apply blind_gets; by intros [] | apply blind_smod; intros; by (repeat case_match) | progress case_match ].

Lemma unless_known_blind f : blind (unless_known conf f).
Proof. unfold unless_known. blinding. Qed.

Lemma event_shown_blind code v : blind (event_shown conf code v).
Proof. unfold event_shown, host_state_shown, service_state_shown. blinding; apply unless_known_blind. Qed.

Ltac both_parts :=
  repeat first
    [ apply print_line_both | apply both_blind; apply event_shown_blind | apply both_blind; by apply blind_ret
    | apply both_blind; by apply blind_exits | apply both_blind; apply blind_smod; intros ? ? ? ? []; cbn -[u64 u32]; by (repeat case_match)
    | apply both_bind; [|intros ?] | progress case_match ].

Lemma parse_line_both line : both (parse_line conf line).
Proof. unfold parse_line, parse_process, parse_event, count_skew, warn. both_parts. Qed.

Lemma parse_lines_both ls : both (parse_lines conf ls).
Proof. induction ls as [|x ls IH]; cbn [parse_lines]; [apply both_blind, blind_ret|]. apply both_bind; [apply parse_line_both|done]. Qed.

(** C28.  Skipping [k] lines and showing [n] shows exactly that page of what is shown without; [n = 0] shows all the rest.  This is for lines
    printed as plain text or in colours, with any format of times but durations, and not only counted, and for a log that is shown to
    its end without skip and limit.  It does not hold for the others: with durations a line is counted when it is read and printed when the
    next one is, which may not be read any more, and in HTML the headings of the hours depend on the line that was printed before. *)
Theorem page_of_log ls s s1 : sh_skip s = 0 -> sh_limit s = 0 -> sh_out s = [] -> parse_lines conf ls s = Next tt s1 ->
  exists s', (parse_lines conf ls (s <| sh_skip := Z.of_nat k |> <| sh_limit := Z.of_nat n |>) = Next tt s' \/
              parse_lines conf ls (s <| sh_skip := Z.of_nat k |> <| sh_limit := Z.of_nat n |>) = Exits 0 s') /\
    shown s' = page k n (shown s1).
Proof.
  intros Hs Hl Ho E. set (s' := s <| sh_skip := _ |> <| sh_limit := _ |>). assert (paged s s') as Hp.
  { unfold paged, shown. rewrite Ho. split_and!; [done..|cbn; lia|]. exists (sh_printed s). unfold s', with_page. rewrite reverse_nil, drop_nil.
    cbn [length]. rewrite ?Nat.sub_0_r. destruct s; cbn in *. subst. destruct (Nat.eqb_spec n 0) as [->|]; by rewrite ?Nat.sub_0_r. }
  destruct (proj2 (parse_lines_both ls) _ _ _ _ Hp E) as (_ & _ & _ & [(s1' & E' & _ & _ & Hn & p & ->)|(s1' & E' & _ & Hf)]).
  - eexists. split; [by left|]. rewrite shown_page, reverse_involutive. unfold page. destruct (Nat.eqb_spec n 0) as [|Hn0]; [done|].
    rewrite take_ge; [done|]. rewrite length_drop. lia.
  - exists s1'. split; [by right|done].
Qed.
End Pages.

(** ** Who sees what *)

Section Permitted.
Context {NT : NebTypes} {LC : LogCodes} {TZ : Tz} (conf : show_conf).

(** Messages about objects: the number of fields, the field of the host and that of the service.  Behind the service of a suppressed
    notification is the reason. *)
Definition about : list (string * (nat * nat * option nat)) :=
  [("HOST ALERT", (5, 0, None)); ("INITIAL HOST STATE", (5, 0, None)); ("CURRENT HOST STATE", (5, 0, None));
   ("HOST EVENT HANDLER", (5, 0, None)); ("HOST DOWNTIME ALERT", (3, 0, None)); ("HOST FLAPPING ALERT", (3, 0, None));
   ("SERVICE ALERT", (6, 0, Some 1)); ("INITIAL SERVICE STATE", (6, 0, Some 1)); ("CURRENT SERVICE STATE", (6, 0, Some 1));
   ("SERVICE EVENT HANDLER", (6, 0, Some 1)); ("SERVICE DOWNTIME ALERT", (4, 0, Some 1)); ("SERVICE FLAPPING ALERT", (4, 0, Some 1));
   ("HOST NOTIFICATION", (5, 1, None)); ("SERVICE NOTIFICATION", (6, 1, Some 2)); ("HOST NOTIFICATION SUPPRESSED", (2, 0, None));
   ("SERVICE NOTIFICATION SUPPRESSED", (2, 0, Some 1)); ("HOST CONTACT NOTIFICATION SUPPRESSED", (2, 1, None));
   ("SERVICE CONTACT NOTIFICATION SUPPRESSED", (3, 1, Some 2))]%string%nat.

Definition fields_of (name : text) : option (nat * nat * option nat) := snd <$> find (fun e => text_eqb name (str e.1)) about.

(** The messages about services of which only the host has to be of interest. *)
Definition by_host (name : text) : bool := text_eqb name (str "SERVICE CONTACT NOTIFICATION SUPPRESSED").

(** An object that is among those that visibility is limited to, if it is, and one that is asked for. *)
Definition visible (host : text) (svc : option text) : bool :=
  negb (so_restrict conf) || match svc with None => auth_host_ok (so_auth conf) host | Some d => auth_service_ok (so_auth conf) host d end.
Definition asked_for (host : text) (svc : option text) : bool :=
  match svc with None => is_interesting_host (so_interesting conf) host | Some _ => is_interesting_service (so_interesting conf) host svc end.

(** The object of a message, told by its fields. *)
Definition object_ok (name : text) (v : list text) : bool :=
  match fields_of name with
  | None => true
  | Some (_, h, svc) => let d := strv v <$> svc in visible (strv v h) d && asked_for (strv v h) (if by_host name then None else d)
  end.

(** A message that may be shown: one about an object when the object may be seen and is of interest, one without a colon when
    nothing is restricted; and of a kind that is asked for. *)
Definition permitted (msg : text) : bool :=
  match behind ":" msg with
  | None => negb (so_restrict conf) && has_flag (so_filter conf) EVT_PROCESS
  | Some args =>
      match get_string_code event_codes (before ":" msg) with
      | None => false
      | Some sc => (Z.land (sc_code sc) (so_filter conf) =? sc_code sc) &&
          object_ok (before ":" msg) (vectorize_string (span (fun c => Ascii.eqb c " ") args).2 (from_option (fun f => f.1.1) 0%nat (fields_of (before ":" msg))))
      end
  end.

(** The parts of a line. *)
Definition line_time (line : text) : Z := s64 (strtoull 10 (tail line)).1.
Definition message (line : text) : text := (span (fun c => Ascii.eqb c "]" || Ascii.eqb c " ") (strtoull 10 (tail line)).2).2.

(** The text that is printed for a message. *)
Definition looks (type : Z) (msg : text) (s : showlog) : option text :=
  let t := localtime (sh_ltime s) in
  match so_style conf with
  | StyleCount => None
  | StyleAscii => print_line_ascii conf t msg s
  | StyleAnsi => print_line_ansi conf type t msg s
  | StyleHtml => fst <$> print_line_html conf type t msg s
  end.

(** With durations a line is printed at the time of the next one. *)
Definition of_message (time : Z) (msg x : text) : Prop :=
  exists type s, (so_format conf = Duration \/ sh_ltime s = time) /\ looks type msg s = Some x.

(** A line that may be shown, one that gives the text [x], and the text with the number of lines. *)
Definition allowed (line : text) : Prop := so_first conf <= line_time line <= so_last conf /\ permitted (message line) = true.
Definition from_line (x line : text) : Prop := allowed line /\ of_message (line_time line) (message line) x.
Definition number_of_lines (x : text) : Prop := so_count conf = true /\ exists p, x = dec p ++ [NL].

Context (ls : list text).

(** What is printed of the lines [ls], and the messages that wait for the next line. *)
Definition stands (x : text) : Prop := (exists line, line ∈ ls /\ from_line x line) \/ number_of_lines x.
Definition waits (s : showlog) : Prop := so_format conf = Duration -> forall type msg, sh_last s = Some (type, msg) ->
  exists line, line ∈ ls /\ allowed line /\ message line = msg.

(** A computation prints, while the time is [t], texts that stand for lines. *)
Definition prints (t : Z) {A} (c : SH A) (Q : A -> Prop) : Prop := forall s, sh_ltime s = t -> waits s ->
  match c s with
  | Next a s' => Q a /\ sh_ltime s' = t /\ waits s' /\ exists l, sh_out s' = l ++ sh_out s /\ Forall stands l
  | Exits _ s' => exists l, sh_out s' = l ++ sh_out s /\ Forall stands l
  | Undefined => True
  end.

Lemma prints_ret t {A} (a : A) (Q : A -> Prop) : Q a -> prints t (mret a) Q.
Proof. intros HQ s Hs Hw. cbn. split_and!; [done..|]. by exists []. Qed.
Lemma prints_exits t {A} code (Q : A -> Prop) : prints t (exits code) Q.
Proof. intros s Hs _. cbn. by exists []. Qed.
Lemma prints_bind t {A B} (c : SH A) (f : A -> SH B) Q R : prints t c Q -> (forall a, Q a -> prints t (f a) R) -> prints t (c ≫= f) R.
Proof.
  intros Hc Hf s Hs Hw. unfold mbind, SH_bind. specialize (Hc s Hs Hw). destruct (c s) as [a s1|code s1|]; [|done..].
  destruct Hc as (HQ & H1 & W1 & l & E & F). specialize (Hf a HQ s1 H1 W1).
  destruct (f a s1) as [b s2|code s2|]; [|destruct Hf as (l2 & E2 & F2)|done]; [destruct Hf as (HR & H2 & W2 & l2 & E2 & F2); split_and!; [done..|]|];
    exists (l2 ++ l); (split; [by rewrite E2, E, app_assoc|by apply Forall_app]).
Qed.
Lemma prints_gets t {A} (f : showlog -> A) (Q : A -> Prop) : (forall s, Q (f s)) -> prints t (sgets f) Q.
Proof. intros HQ s Hs Hw. cbn. split_and!; [done..|]. by exists []. Qed.
Lemma prints_smod t f (Q : unit -> Prop) : Q tt -> (forall s, sh_ltime (f s) = sh_ltime s /\ sh_out (f s) = sh_out s /\ sh_last (f s) = sh_last s) -> prints t (smod f) Q.
Proof. intros HQ Hf s Hs Hw. cbn. destruct (Hf s) as (-> & -> & E). split_and!; [done..|unfold waits; by rewrite E|]. by exists []. Qed.
Lemma prints_emit t x : stands x -> prints t (emit x) (fun _ => True).
Proof. intros Hx s Hs Hw. cbn. split_and!; [done..|]. exists [x]. split; [done|]. by constructor. Qed.
Lemma prints_or_crash t {A} (o : option A) (Q : A -> Prop) : (forall a, Q a) -> prints t (or_crash o) Q.
Proof. intros HQ. destruct o; [by apply prints_ret|apply prints_exits]. Qed.
Lemma prints_weaken t {A} (c : SH A) (Q R : A -> Prop) : prints t c Q -> (forall a, Q a -> R a) -> prints t c R.
Proof. intros Hc HR s Hs Hw. specialize (Hc s Hs Hw). destruct (c s); [|done..]. destruct Hc as (? & ? & ?). auto. Qed.

Abbreviation anything := (fun _ => True).

Ltac printing :=
  repeat first
    [ by apply prints_ret | by apply prints_exits | by apply prints_gets | by apply prints_or_crash
    | apply prints_smod; [done|by (intros []; cbn; repeat case_match)]
    | apply (prints_bind _ _ _ anything); [|intros ? _] | progress case_match ].

(** *** Printing *)

Lemma real_prints t type msg : (forall s x, sh_ltime s = t -> looks type msg s = Some x -> stands x) -> prints t (real_print_line conf type msg) anything.
Proof.
  intros L s Hs Hw. unfold real_print_line, mbind, SH_bind, sgets, id, or_undefined, emit, smod. cbv beta iota zeta. unfold looks in L.
  specialize (L s). destruct (so_style conf).
  - split_and!; [done..|]. by exists [].
  - destruct (print_line_ascii _ _ _ _) as [x|]; [|done]. split_and!; [done..|]. exists [x]. split; [done|]. constructor; auto.
  - destruct (print_line_ansi _ _ _ _ _) as [x|]; [|done]. split_and!; [done..|]. exists [x]. split; [done|]. constructor; auto.
  - destruct (print_line_html _ _ _ _ _) as [[x b]|]; [|done]. split_and!; [done..|]. exists [x]. split; [done|]. constructor; auto.
Qed.

Lemma limit_prints t : prints t (count_limit conf) anything.
Proof.
  unfold count_limit. apply (prints_bind _ _ _ anything); [by apply prints_gets|intros limit _]. case_match; [printing|].
  apply (prints_bind _ _ _ anything); [printing|intros _ _]. case_match; [|printing]. unfold exit_nicely.
  apply (prints_bind _ _ _ anything); [by apply prints_gets|intros p _]. apply (prints_bind _ _ _ anything); [|intros; printing].
  destruct (so_count conf) eqn:Ec; [|printing]. apply prints_emit. right. split; [done|]. by exists p.
Qed.

(** With durations the line before is printed, and this one waits. *)
Lemma duration_prints t type line : so_format conf = Duration -> line ∈ ls -> allowed line -> prints t (print_duration conf type (Some (message line))) anything.
Proof.
  intros Hf Hin Ha s Hs Hw. unfold print_duration. unfold mbind at 1, SH_bind at 1, sgets.
  assert (H1 : match (match sh_last s with Some (last_type, last_line) =>
       smod (fun s => s <| sh_severity := sh_last_severity s |>) ;; one_printed ;; real_print_line conf last_type last_line ;;
       smod (fun x => x <| sh_severity := sh_severity s |>) | None => mret tt end) s with
    | Next _ s' => sh_ltime s' = t /\ exists l, sh_out s' = l ++ sh_out s /\ Forall stands l
    | Exits _ s' => exists l, sh_out s' = l ++ sh_out s /\ Forall stands l | Undefined => True end).
  { destruct (sh_last s) as [[ty msg]|] eqn:El; [|cbn; split; [done|by exists []]].
    destruct (Hw Hf ty msg El) as (old & Hold & Haold & <-).
    lazymatch goal with |- match ?c s with _ => _ end => assert (prints t c anything) as P end.
    { apply (prints_bind _ _ _ anything); [printing|intros _ _]. apply (prints_bind _ _ _ anything); [unfold one_printed; printing|intros _ _].
      apply (prints_bind _ _ _ anything); [|intros; printing]. apply real_prints. intros s0 x _ Hx. left. exists old. split; [done|]. split; [done|].
      exists ty, s0. auto. }
    specialize (P s Hs Hw). case_match; [|done..]. by destruct P as (_ & ? & _ & ?). }
  change (id s) with s. unfold mbind at 1, SH_bind at 1. case_match; [|done..]. destruct H1 as (Hs1 & l & E & F). unfold smod. cbn. split_and!; [done..| |by exists l].
  intros _ ty msg [= <- <-]. by exists line.
Qed.

Lemma line_prints t type line : line ∈ ls -> allowed line -> line_time line = t -> prints t (print_line conf type (Some (message line))) anything.
Proof.
  intros Hin Ha Ht. unfold print_line. apply (prints_bind _ _ _ anything); [by apply prints_gets|intros skip _]. case_match; [printing|].
  apply (prints_bind _ _ _ anything); [|intros _ _; apply limit_prints].
  assert (prints t (one_printed ;; real_print_line conf type (message line)) anything) as P.
  { apply (prints_bind _ _ _ anything); [unfold one_printed; printing|intros _ _]. apply real_prints. intros s x Hs Hx. left. exists line.
    split; [done|]. split; [done|]. exists type, s. split; [right; congruence|done]. }
  destruct (so_format conf) eqn:Hf; try exact P. by apply duration_prints.
Qed.

(** *** The choice of lines *)

(** The fields of a message, as the switch looks at them. *)
Lemma host_okE host : host_ok conf host = visible host None && asked_for host None.
Proof. done. Qed.
Lemma service_okE host d : service_ok conf host d = visible host (Some d) && asked_for host (Some d).
Proof. done. Qed.

(** Who may see a host may see its services. *)
Lemma host_service_visible host d : visible host None = true -> visible host (Some d) = true.
Proof. unfold visible, auth_service_ok. destruct (so_restrict conf); cbn; [|done]. intros ->. apply orb_true_r. Qed.

Lemma host_state_prints t v : prints t (host_state_shown conf v) (fun b => b = true -> host_ok conf (strv v 0) = true).
Proof.
  unfold host_state_shown, unless_known. printing; apply (prints_weaken _ _ anything); [printing|intros _ _ _; by apply negb_false_iff|printing|intros _ _ _; by apply negb_false_iff].
Qed.
Lemma service_state_prints t v : prints t (service_state_shown conf v) (fun b => b = true -> service_ok conf (strv v 0) (strv v 1) = true).
Proof.
  unfold service_state_shown, unless_known. printing; apply (prints_weaken _ _ anything); [printing|intros _ _ _; by apply negb_false_iff|printing|intros _ _ _; by apply negb_false_iff].
Qed.

Lemma event_shown_prints t sc v : sc ∈ event_codes ->
  prints t (event_shown conf (sc_code sc) v) (fun b => b = true -> object_ok (sc_str sc) v = true).
Proof.
  unfold event_codes. intros H. repeat (apply elem_of_cons in H as [->|H]); [..|by apply elem_of_nil in H].
  all: unfold event_shown; repeat match goal with |- context [one_of ?a ?b] => let x := eval vm_compute in (one_of a b) in change (one_of a b) with x end.
  all: unfold object_ok; repeat match goal with |- context [fields_of ?a] => let x := eval vm_compute in (fields_of a) in change (fields_of a) with x end;
    repeat match goal with |- context [by_host ?a] => let x := eval vm_compute in (by_host a) in change (by_host a) with x end; cbv iota; cbn [fmap option_fmap option_map].
  all: try first [apply host_state_prints | apply service_state_prints | by apply prints_ret].
  apply prints_ret. rewrite host_okE. intros [Hv ->]%andb_true_iff. by rewrite (host_service_visible _ _ Hv).
Qed.

Lemma code_fields sc n h d : sc ∈ event_codes -> fields_of (sc_str sc) = Some (n, h, d) -> n = sc_nvecs sc /\ n <> 0%nat.
Proof.
  unfold event_codes. intros H. repeat (apply elem_of_cons in H as [->|H]); [..|by apply elem_of_nil in H].
  all: match goal with |- fields_of ?a = _ -> _ => let x := eval vm_compute in (fields_of a) in change (fields_of a) with x end; intros [= <- <- <-]; done.
Qed.

Lemma string_code_in s sc : get_string_code event_codes s = Some sc -> sc ∈ event_codes /\ s = sc_str sc.
Proof. intros [H E]%find_some. split; [by apply list_elem_of_In|by apply text_eqb_eq]. Qed.

Section Line.
Context (line : text) (t : Z) (Hin : line ∈ ls) (Ht : line_time line = t) (Hrange : so_first conf <= t <= so_last conf).

Lemma permitted_prints type : permitted (message line) = true -> prints t (print_line conf type (Some (message line))) anything.
Proof. intros Hp. apply line_prints; [done| |done]. split; [by rewrite Ht|done]. Qed.

Lemma event_prints args : behind ":" (message line) = Some args -> prints t (parse_event conf (message line) args) anything.
Proof.
  intros Hc. unfold parse_event. apply (prints_bind _ _ _ anything); [printing|intros _ _].
  destruct (get_string_code event_codes (before ":" (message line))) as [sc|] eqn:E; [|printing].
  destruct (string_code_in _ _ E) as [Hc2 Hn]. case_match; [printing|].
  destruct (Z.land _ _ =? _) eqn:Ef; [|cbn [negb]; printing]. cbn [negb]. apply (prints_bind _ _ _ anything); [printing|intros _ _].
  case_match; [unfold warn; printing|].
  eapply prints_bind; [by apply event_shown_prints|]. intros shown Hs. destruct shown; cbn [negb]; [|printing].
  apply (prints_bind _ _ _ anything); [|intros; printing]. apply permitted_prints.
  unfold permitted. rewrite Hc, E, Ef, Hn. cbn [andb]. specialize (Hs eq_refl).
  destruct (fields_of (sc_str sc)) as [[[m h] d]|] eqn:Em; [|unfold object_ok; by rewrite Em].
  destruct (code_fields _ _ _ _ Hc2 Em) as [-> Hz]. cbn [from_option fst]. destruct (Nat.eqb_spec (sc_nvecs sc) 0); done.
Qed.

Lemma process_prints : behind ":" (message line) = None -> prints t (parse_process conf (message line)) anything.
Proof.
  intros Hc. unfold parse_process. destruct (has_flag (so_filter conf) EVT_PROCESS) eqn:Ef; cbn [negb]; [|printing].
  assert (forall type, prints t (if so_restrict conf then mret tt else print_line conf type (Some (message line))) anything) as P.
  { intros type. destruct (so_restrict conf) eqn:Hr; [printing|]. apply permitted_prints. unfold permitted. by rewrite Hc, Hr, Ef. }
  destruct (is_start_event _); [|destruct (is_stop_event _); [|printing]].
  - apply (prints_bind _ _ _ anything); [printing|intros _ _]. apply (prints_bind _ _ _ anything); [apply P|intros; printing].
  - apply (prints_bind _ _ _ anything); [apply P|intros; printing].
Qed.
End Line.

(** What a computation leaves on the screen, and waiting. *)
Definition leaves {A} (r : sh_result A) (s : showlog) : Prop :=
  match r with
  | Next _ s' => waits s' /\ exists l, sh_out s' = l ++ sh_out s /\ Forall stands l
  | Exits _ s' => exists l, sh_out s' = l ++ sh_out s /\ Forall stands l
  | Undefined => True
  end.

Lemma prints_leaves t {A} (c : SH A) Q s : prints t c Q -> sh_ltime s = t -> waits s -> leaves (c s) s.
Proof. intros Hc Hs Hw. specialize (Hc s Hs Hw). unfold leaves. destruct (c s); [apply Hc|done..]. Qed.

Lemma line_leaves line s : line ∈ ls -> waits s -> leaves (parse_line conf line s) s.
Proof.
  intros Hin Hw. unfold parse_line. unfold mbind at 1, SH_bind at 1, smod. set (s1 := s <| sh_line_no := _ |>).
  assert (forall (r : sh_result Z), leaves r s1 -> leaves r s) as K by done. apply K. clear K.
  assert (waits s1) as W1 by exact Hw. clearbody s1. clear Hw s.
  destruct line as [|c rest] eqn:El; [split; [done|by exists []]|]. rewrite <- El.
  destruct ((length line <? 12)%nat || negb (Ascii.eqb c "[")); [split; [done|by exists []]|].
  destruct (strtoull 10 rest) as [n ptr] eqn:Es. unfold mbind at 1, SH_bind at 1, smod. set (s2 := s1 <| sh_ltime := _ |>).
  assert (forall (r : sh_result Z), leaves r s2 -> leaves r s1) as K by done. apply K. clear K.
  eapply (prints_leaves (s64 n) _ anything); [|done|exact W1]. destruct (length ptr =? length rest)%nat; [printing|].
  destruct ((s64 n <? so_first conf) || (so_last conf <? s64 n)) eqn:Et; [printing|].
  apply orb_false_iff in Et as [?%Z.ltb_ge ?%Z.ltb_ge]. apply (prints_bind _ _ _ anything); [unfold count_skew; printing|intros _ _].
  destruct (negb (is_interesting _)); [printing|].
  assert (line_time line = s64 n /\ message line = (span (fun c => Ascii.eqb c "]" || Ascii.eqb c " ") ptr).2) as [T M].
  { unfold line_time, message. rewrite El. cbn [tail]. by rewrite Es. }
  rewrite <- M. rewrite <- El in Hin. destruct (behind ":" (message line)) eqn:Eb; [by apply event_prints|by apply process_prints].
Qed.

Lemma lines_leave l s : l ⊆ ls -> waits s -> leaves (parse_lines conf l s) s.
Proof.
  revert s. induction l as [|line l IH]; intros s Hl Hw; [split; [done|by exists []]|]. cbn [parse_lines]. unfold mbind, SH_bind.
  pose proof (line_leaves line s ltac:(apply Hl; by left) Hw) as H. destruct (parse_line conf line s) as [r s1|code s1|]; [|exact H|done].
  destruct H as (W1 & k & E & F). specialize (IH s1 ltac:(intros x Hx; apply Hl; by right) W1). unfold leaves in IH |- *.
  destruct (parse_lines conf l s1); [destruct IH as (W2 & k2 & E2 & F2); split; [done|]|destruct IH as (k2 & E2 & F2)|done].
  all: exists (k2 ++ k); (split; [by rewrite E2, E, app_assoc|]); by apply Forall_app.
Qed.
End Permitted.

(** C27.  Whatever the format and the style, everything that is printed while lines are read, up to the end of the process if it comes,
    stands for a line of the log that is in the interval of time and of a kind that is asked for.  If this is about a host or a service, the
    object is one of those that visibility is restricted to, when it is, and is one that is asked for; of a suppressed
    notification of a contact about a service only the host need be asked for.  (A line about an external command is about no object here,
    whatever the command names.)  Only the number of the lines may be printed besides, when that is asked for.  With durations a line is
    printed when the next one is read; none is waiting at the start. *)
Theorem shown_permitted {NT : NebTypes} {LC : LogCodes} {TZ : Tz} (conf : show_conf) ls s :
  (so_format conf = Duration -> sh_last s = None) ->
  match parse_lines conf ls s with
  | Next _ s' | Exits _ s' => exists l, sh_out s' = l ++ sh_out s /\
      Forall (fun x => (exists line, line ∈ ls /\ so_first conf <= line_time line <= so_last conf /\ permitted conf (message line) = true /\
                          of_message conf (line_time line) (message line) x) \/ number_of_lines conf x) l
  | Undefined => True
  end.
Proof.
  intros Hs. assert (waits conf ls s) as Hw by (intros Hf ty msg E; rewrite (Hs Hf) in E; discriminate).
  pose proof (lines_leave conf ls ls s ltac:(done) Hw) as H. unfold leaves in H.
  assert (forall l, Forall (stands conf ls) l -> Forall (fun x => (exists line, line ∈ ls /\ so_first conf <= line_time line <= so_last conf /\
    permitted conf (message line) = true /\ of_message conf (line_time line) (message line) x) \/ number_of_lines conf x) l) as K.
  { intros l Hl. eapply Forall_impl; [exact Hl|]. intros x [(line & Hin & [Ha1 Ha2] & Hx)|Hx]; [left; by exists line|by right]. }
  destruct (parse_lines conf ls s); [destruct H as (_ & l & E & F)|destruct H as (l & E & F)|done]; exists l; auto.
Qed.

(** ** Examples *)

#[local] Existing Instance naemon_codes.
(** A clock without days. *)
#[local] Instance demo_tz : Tz := {| localtime := fun t => Tm 70 0 1 (t / 3600) (t / 60 mod 60) (t mod 60); mktime := fun t => 3600 * tm_hour t |}.

Definition demo_auth : auth := (auth_read_input (Some (auth_text [str "alpha"] [(str "beta", str "disk")]))).2.
Definition demo_show : show_conf :=
  ShowConf 1 2000000000 false true false true false (2 ^ 32 - 1) (-1) (-1) 3 Raw StyleAscii StyleAscii (Some (str "/icons")) all_interesting demo_auth.
Definition demo_screen : showlog := Showlog 0 0 0 0 0 0 0 0 0 0 state_init None 0 0 0 [].
Definition demo_lines : list text := map str
  ["[1700000000] Naemon 1.0 starting... (PID=1)"; "[1700000010] HOST ALERT: alpha;DOWN;SOFT;1;no answer";
   "[1700000020] HOST ALERT: alpha;DOWN;SOFT;2;no answer"; "[1700000030] HOST ALERT: beta;DOWN;HARD;3;no answer";
   "[1700000040] SERVICE ALERT: beta;disk;CRITICAL;HARD;3;full"; "[1700000050] HOST ALERT: alpha;DOWN;HARD;3;no; answer"]%string.
Definition demo_shown : showlog := match parse_lines demo_show demo_lines demo_screen with Next _ s => s | _ => demo_screen end.

(** Neither the start, nor the repeated state, nor the host that may not be seen. *)
Example demo_shown_lines : shown demo_shown = map (fun t => str t ++ [NL])
  ["[1700000010] HOST ALERT: alpha;DOWN;SOFT;1;no answer"; "[1700000040] SERVICE ALERT: beta;disk;CRITICAL;HARD;3;full";
   "[1700000050] HOST ALERT: alpha;DOWN;HARD;3;no; answer"]%string.
Proof. vm_compute. reflexivity. Qed.

Lemma page_of_log_witness : parse_lines demo_show demo_lines demo_screen = Next tt demo_shown /\
  exists s', (parse_lines demo_show demo_lines (demo_screen <| sh_skip := Z.of_nat 1 |> <| sh_limit := Z.of_nat 1 |>) = Next tt s' \/
              parse_lines demo_show demo_lines (demo_screen <| sh_skip := Z.of_nat 1 |> <| sh_limit := Z.of_nat 1 |>) = Exits 0 s') /\
    shown s' = page 1 1 (shown demo_shown).
Proof.
  assert (parse_lines demo_show demo_lines demo_screen = Next tt demo_shown) as E by (vm_compute; reflexivity). split; [exact E|].
  apply (page_of_log demo_show 1 1 ltac:(discriminate) ltac:(left; reflexivity) eq_refl demo_lines demo_screen demo_shown eq_refl eq_refl eq_refl E).
Defined.

Lemma shown_permitted_witness : length (shown demo_shown) = 3%nat /\
  match parse_lines demo_show demo_lines demo_screen with
  | Next _ s' | Exits _ s' => exists l, sh_out s' = l ++ sh_out demo_screen /\
      Forall (fun x => (exists line, line ∈ demo_lines /\ so_first demo_show <= line_time line <= so_last demo_show /\ permitted demo_show (message line) = true /\
                          of_message demo_show (line_time line) (message line) x) \/ number_of_lines demo_show x) l
  | Undefined => True
  end.
Proof. split; [vm_compute; reflexivity|]. apply (shown_permitted demo_show demo_lines demo_screen). intros _. reflexivity. Defined.

(** ** What the code does not do *)

(** Commands about objects that may not be seen are shown. *)
Theorem commands_not_restricted : match parse_lines demo_show [str "[1700000000] EXTERNAL COMMAND: DISABLE_HOST_CHECK;beta"] demo_screen with
  | Next _ s => shown s = [str "[1700000000] EXTERNAL COMMAND: DISABLE_HOST_CHECK;beta" ++ [NL]] | _ => False end.
Proof. vm_compute. reflexivity. Qed.

(** The page in HTML with any but the first format of times calls a function that is not there. *)
Theorem html_without_break conf type t line s : so_format conf <> Iso8601 -> Z.quot (sh_ltime s) 3600 <> sh_time_break s ->
  print_line_html conf type t line s = None.
Proof.
  intros Hf Hb. unfold print_line_html. rewrite (proj2 (Z.eqb_neq _ _)) by congruence. unfold print_time_break, print_time_div. by destruct (so_format conf).
Qed.

(** With durations a limit of one line shows none: the process ends when the line has been read, before it is printed. *)
Theorem duration_page_short : match parse_lines (demo_show <| so_format := Duration |>) demo_lines (demo_screen <| sh_limit := 1 |>) with
  | Exits 0 s => shown s = [] | _ => False end.
Proof. vm_compute. reflexivity. Qed.

(** Asked for a service, the code leaves out suppressed notifications of contacts for it, which it takes for events of hosts. *)
Theorem contact_of_service_left_out : let only := demo_show <| so_filter := 2 ^ 32 - 1 - EVT_HOST |> <| so_interesting := add_interesting_object (str "beta;disk") all_interesting |> in
  match parse_lines only [str "[1700000000] SERVICE CONTACT NOTIFICATION SUPPRESSED: joe;beta;disk"] demo_screen with Next _ s => shown s = [] | _ => False end.
Proof. vm_compute. reflexivity. Qed.
