(* ===== verification/Showmain.v ===== *)
(** * The options of showlog and its main function: tools/showlog.c

    What the command line makes of the options of [Showlog], the logs of other nodes, and which files are read.  The file
    system is a function from paths; commands that are run and the merging of their output are arguments too.  Removing
    temporary files and the help text are left out. *)

From S2P Require Import Prelude Binlog Packet Io Merlin Pgroup Node Control Checks Hooks Commands Objects Cfgfile Config Misc Shared Sql Daemon Lparse Logutils Auth Showlog.
#[local] Open Scope Z_scope.

(** What the options set, with the standard input that is left. *)
Record options := Options {
  op_conf : show_conf; op_skip : Z; op_limit : Z; op_nagios_cfg : option text; op_files : list naglog_file; op_skews : bool;
  op_list_files : bool; op_hosts : bool; op_services : bool; op_debug : Z; op_stdin : text }.

#[export] Instance eta_options : Eta options := fun r =>
  Options (op_conf r) (op_skip r) (op_limit r) (op_nagios_cfg r) (op_files r) (op_skews r) (op_list_files r) (op_hosts r) (op_services r)
    (op_debug r) (op_stdin r).

Inductive op_result := OpNext (o : options) | OpExits (code : Z) | OpUndefined.

Definition op_bind (r : op_result) (k : options -> op_result) : op_result :=
  match r with OpNext o => k o | OpExits c => OpExits c | OpUndefined => OpUndefined end.
Definition or_exit {A} (o : option A) (k : A -> op_result) : op_result := match o with Some a => k a | None => OpExits 1 end.

Definition on_conf (f : show_conf -> show_conf) (o : options) : options := o <| op_conf := f (op_conf o) |>.
Definition add_filter (z : Z) : options -> options := on_conf (fun c => c <| so_filter := Z.lor (so_filter c) z |>).
(** Clearing bits of an unsigned int. *)
Definition clear_filter (z : Z) : options -> options := on_conf (fun c => c <| so_filter := Z.ldiff (so_filter c) z |>).

Definition strcasecmp (a : text) (b : string) : bool := text_eqb (map tolower a) (str b).

Section Main.
Context {NT : NebTypes} {LC : LogCodes} {TZ : Tz} {QS : QSort} (fs : text -> option log_path) (depth max_buf : nat).

(** tools/showlog.c:790-809 parse_host_state_filter *)
Definition parse_host_state_filter (p : text) : Z :=
  foldl (fun f c => if Ascii.eqb c "a" || Ascii.eqb c "*" then -1 else if Ascii.eqb c "u" then Z.lor f (Z.shiftl 1 STATE_UNREACHABLE)
    else if Ascii.eqb c "d" then Z.lor f (Z.shiftl 1 STATE_DOWN) else if Ascii.eqb c "r" then Z.lor f (Z.shiftl 1 STATE_UP) else f) 0 p.

(** tools/showlog.c:811-832 parse_service_state_filter *)
Definition parse_service_state_filter (p : text) : Z :=
  foldl (fun f c => if Ascii.eqb c "a" || Ascii.eqb c "*" then -1 else if Ascii.eqb c "r" then Z.lor f (Z.shiftl 1 STATE_OK)
    else if Ascii.eqb c "w" then Z.lor f (Z.shiftl 1 STATE_WARNING) else if Ascii.eqb c "c" then Z.lor f (Z.shiftl 1 STATE_CRITICAL)
    else if Ascii.eqb c "u" then Z.lor f (Z.shiftl 1 STATE_UNKNOWN) else f) 0 p.

(** tools/showlog.c:188-201 parse_time_format *)
Definition parse_time_format (s : text) : option time_format :=
  if strcasecmp s "iso8601" then Some Iso8601 else if strcasecmp s "raw" then Some Raw
  else if strcasecmp s "duration" then Some Duration else if strcasecmp s "runtime" then Some Runtime else None.

(** tools/showlog.c:936-961 show_hide -- a word: the filter and what showing adds to it; [None] ends with the help text. *)
Definition show_hide_word (arg : text) : option (Z * Z) :=
  let objects := evt [EVT_HOST; EVT_SERVICE] in
  if starts arg "flapping" then Some (EVT_FLAPPING, objects) else if starts arg "downtime" then Some (EVT_DOWNTIME, objects)
  else if starts arg "process" then Some (EVT_PROCESS, 0) else if starts arg "command" then Some (EVT_COMMAND, 0)
  else if starts arg "notification" then Some (EVT_NOTIFY, objects) else if starts arg "logrotat" then Some (EVT_LROTATE, 0)
  else if starts arg "livestatus" then Some (EVT_LIVESTATUS, 0) else if starts arg "initial" then Some (EVT_STATE, objects)
  else if starts arg "all" then Some (2 ^ 32 - 1, 0) else None.

(** tools/showlog.c:927-967 show_hide -- the words between commas. *)
Fixpoint show_hide_loop (fuel : nat) (arg : text) (filter show_filter : Z) : option (Z * Z) :=
  match fuel with
  | O => None
  | S fuel =>
      p ← show_hide_word (before "," arg);
      let '(f, sf) := p in
      let filter := Z.lor filter f in let show_filter := Z.lor show_filter sf in
      match behind "," arg with None => Some (filter, show_filter) | Some arg => show_hide_loop fuel arg filter show_filter end
  end.

(** tools/showlog.c:909-976 show_hide -- [opt] is NULL without an equals sign. *)
Definition show_hide (arg : text) (opt : option text) (o : options) : op_result :=
  let hide := starts arg "--hide" in
  match (if match drop 6 arg with c :: _ => Ascii.eqb c "-" | [] => false end then Some (drop 7 arg) else opt) with
  | None => OpUndefined
  | Some arg =>
      or_exit (show_hide_loop (S (length arg)) arg 0 0) (fun p =>
        OpNext (if hide then clear_filter p.1 o else add_filter (Z.lor p.1 p.2) o))
  end.

(** tools/showlog.c:778-788 hash_interesting -- and 773-776 hash_one_line. *)
Definition hash_interesting (path : text) (o : options) : op_result :=
  match fs path with
  | None => OpExits 1
  | Some (LogDir _) => OpNext o
  | Some (LogFile c) =>
      match lparse_path_real max_buf false (Some c) (length c) with
      | Some (LpLines l) => OpNext (on_conf (fun x => x <| so_interesting := foldl (fun i s => add_interesting_object s i) (so_interesting x) l |>) o)
      | Some _ => OpUndefined
      | None => OpNext o
      end
  end.

Definition add_path (path : text) (o : options) : op_result :=
  or_exit (add_naglog_path fs depth path (op_files o)) (fun r => OpNext (o <| op_files := r.2 |>)).

(** tools/showlog.c:1178-1238 main -- options without an argument; [None] when it is none of them. *)
Definition flag_option (arg : text) (eq_opt : option text) (o : options) : option op_result :=
  if equals arg "--count" then Some (OpNext (on_conf (fun c => c <| so_count := true |> <| so_style := StyleCount |>) o))
  else if equals arg "--all-nodes" then Some (OpNext (on_conf (fun c => c <| so_all_nodes := true |>) o))
  else if equals arg "--reverse" then Some (OpNext (on_conf (fun c => c <| so_reverse := true |>) o))
  else if equals arg "--html" then Some (OpNext (on_conf (fun c => c <| so_style := StyleHtml |> <| so_error_style := StyleHtml |>) o))
  else if equals arg "--ansi" then Some (OpNext (on_conf (fun c => c <| so_style := StyleAnsi |> <| so_error_style := StyleAnsi |>) o))
  else if equals arg "--ascii" then Some (OpNext (on_conf (fun c => c <| so_style := StyleAscii |> <| so_error_style := StyleAscii |>) o))
  else if equals arg "--debug" || equals arg "-d" then Some (OpNext (o <| op_debug := op_debug o + 1 |>))
  else if equals arg "--help" then Some (OpExits 0)
  else if equals arg "--list-files" then Some (OpNext (o <| op_list_files := true |>))
  else if starts arg "--show-ltime-skews" then Some (OpNext (o <| op_skews := true |>))
  else if starts arg "--hide-state-dupes" then Some (OpNext (on_conf (fun c => c <| so_hide_dupes := true |>) o))
  else if starts arg "--hide" || starts arg "--show" then Some (show_hide arg eq_opt o)
  else if equals arg "--restrict-objects" then
    Some (OpNext ((on_conf (fun c => c <| so_restrict := true |> <| so_auth := (auth_read_input (Some (op_stdin o))).2 |>) o) <| op_stdin := [] |>))
  else None.

(** An option whose argument is missing is passed over. *)
Definition with_opt (opt : option text) (o : options) (k : text -> op_result) : op_result := match opt with Some t => k t | None => OpNext o end.
Definition set_when (first : bool) (t : text) (o : options) : op_result :=
  if bool_decide (t = []) then OpExits 1 else
  let when := s64 (strtoull 0 t).1 in
  OpNext (on_conf (fun c => if first then c <| so_first := when |> else c <| so_last := when |>) o).

(** tools/showlog.c:1364-1371 main -- the last ten characters of the name of a file; [None] in front of it. *)
Definition file_argument (arg : text) (o : options) : op_result :=
  if (length arg <? 10)%nat then OpUndefined else
  let tail := drop (length arg - 10) arg in
  if equals tail "nagios.cfg" || equals tail "naemon.cfg" then OpNext (o <| op_nagios_cfg := Some arg |>) else add_path arg o.

(** tools/showlog.c:1243-1371 main -- options with an argument, and files. *)
Definition arg_option (arg : text) (opt : option text) (o : options) : op_result :=
  if equals arg "--user" || starts arg "--object-cache" then OpNext (on_conf (fun c => c <| so_auth := (auth_read_input None).2 |>) o)
  else if equals arg "--nagios-cfg" then OpNext (o <| op_nagios_cfg := opt |>)
  else if equals arg "--skip" then with_opt opt o (fun t => OpNext (o <| op_skip := (strtoull 0 t).1 |>))
  else if equals arg "--limit" then with_opt opt o (fun t => OpNext (o <| op_limit := (strtoull 0 t).1 |>))
  else if equals arg "--host" then
    let o := add_filter EVT_HOST o <| op_hosts := true |> in
    with_opt opt o (fun t => OpNext (on_conf (fun c => c <| so_interesting := add_interesting_object t (so_interesting c) |>) o))
  else if equals arg "--service" then
    let o := add_filter EVT_SERVICE o <| op_services := true |> in
    with_opt opt o (fun t => OpNext (on_conf (fun c => c <| so_interesting := add_interesting_object t (so_interesting c) |>) o))
  else if equals arg "--image-url" then OpNext (on_conf (fun c => c <| so_style := StyleHtml |> <| so_image := opt |>) o)
  else if equals arg "--interesting" || equals arg "-i" then with_opt opt o (fun t => hash_interesting t o)
  else if equals arg "--first" then with_opt opt o (fun t => set_when true t o)
  else if equals arg "--last" then with_opt opt o (fun t => set_when false t o)
  else if equals arg "--state-type" then
    with_opt opt o (fun t => OpNext (on_conf (fun c => if strcasecmp t "hard" then c <| so_type_filter := Z.shiftl 1 HARD_STATE |>
      else if strcasecmp t "soft" then c <| so_type_filter := Z.shiftl 1 SOFT_STATE |> else c) o))
  else if equals arg "--host-states" then
    let o := add_filter EVT_HOST o <| op_hosts := true |> in
    with_opt opt o (fun t => OpNext (on_conf (fun c => c <| so_host_filter := parse_host_state_filter t |>) o))
  else if equals arg "--service-states" then
    let o := add_filter EVT_SERVICE o in
    with_opt opt o (fun t => OpNext (on_conf (fun c => c <| so_service_filter := parse_service_state_filter t |>) o))
  else if equals arg "--time-format" then
    with_opt opt o (fun t => or_exit (parse_time_format t) (fun f => OpNext (on_conf (fun c => c <| so_format := f |>) o)))
  else if starts arg "--" then OpExits 1
  else file_argument arg o.

(** tools/showlog.c:1165-1372 main -- the loop over the arguments. *)
Fixpoint parse_args (args : list text) (o : options) : op_result :=
  match args with
  | [] => OpNext o
  | a :: rest =>
      let arg := before "=" a in
      let eq_opt := behind "=" a in
      let opt := match eq_opt with Some v => Some v | None => head rest end in
      match flag_option arg eq_opt o with
      | Some r => op_bind r (parse_args rest)
      | None =>
          op_bind (arg_option arg opt o) (fun o =>
            match eq_opt, rest with
            | Some _, _ => parse_args rest o
            | None, _ :: rest => parse_args rest o
            | None, [] => OpNext o
            end)
      end
  end.

(** ** The logs of other nodes *)

(** A command that is run gives its lines of output, or cannot be run; sort --merge merges files. *)
Context (popen : text -> option (list text)) (merge : gmap text (list text) -> text).

(** tools/showlog.c:1000-1012 createTmpLog -- a line of a node, without its newline; one without a closing bracket is left out. *)
Definition node_line (nodeName line : text) : option text :=
  match behind "]" line with
  | None => None
  | Some message =>
      let message := (span (fun c => negb (Ascii.eqb c "013" || Ascii.eqb c NL)) message).1 in
      Some (str "[" ++ dec (s64 (strtoull 10 (tail line)).1) ++ str "] " ++ message ++ str " (" ++ nodeName ++ str ")")
  end.

(** Files by the name of their node, and warnings, the latest last. *)
Definition tmp_logs : Type := gmap text (list text) * list text.

(** tools/showlog.c:978-1045 createTmpLog -- and 408-427 getErrMsgInstance, which adds to the end. *)
Definition createTmpLog (nodeName : text) (lines : list text) (t : tmp_logs) : tmp_logs :=
  let file := omap (node_line nodeName) lines in
  (<[nodeName := file]> t.1,
   if bool_decide (file = []) then t.2 ++ [str "showlog: No log from " ++ nodeName ++ str ". Check connectivity or maybe this is a passive poller"] else t.2).

(** tools/showlog.c:1047-1064 processNodeLogs -- [None] is -1. *)
Definition processNodeLogs (pCommand pNodeName : text) (t : tmp_logs) : option tmp_logs :=
  lines ← popen pCommand; Some (createTmpLog pNodeName lines t).

(** sscanf (s, "%s"): the first word, if there is one. *)
Definition first_word (s : text) : option text :=
  match (span (fun c => negb (isspace c)) (span isspace s).2).1 with [] => None | w => Some w end.

Definition interval (c : show_conf) (limit : Z) : text :=
  str "mon log show --time-format=raw --first=" ++ dec (so_first c) ++ str " --last=" ++ dec (so_last c) ++ str " --limit=" ++ dec limit.

(** tools/showlog.c:1086-1107 processAllNodes -- [name] is the last name, which an empty line leaves as it is. *)
Fixpoint node_loop (c : show_conf) (limit : Z) (nodes : list text) (name : option text) (t : tmp_logs) : option (option tmp_logs) :=
  match nodes with
  | [] => Some (Some t)
  | pNode :: nodes =>
      match (match first_word pNode with Some w => Some w | None => name end) with
      | None => None
      | Some name =>
          match processNodeLogs (str "asmonitor mon node ctrl " ++ name ++ str " -- " ++ interval c limit) name t with
          | None => Some None
          | Some t => node_loop c limit nodes (Some name) t
          end
      end
  end.

(** tools/showlog.c:1066-1142 processAllNodes -- what the inner option is is whether it failed; the outer one is a name that was never set. *)
Definition processAllNodes (c : show_conf) (limit : Z) : option (option tmp_logs) :=
  match popen (str "asmonitor mon node list") with
  | None => Some None
  | Some nodes =>
      r ← node_loop c limit nodes None (∅, []);
      Some (t ← r; processNodeLogs (str "asmonitor " ++ interval c limit) (str "local") t)
  end.

Definition merged_log : text := str "/opt/monitor/var/naemon_merged.log".

(** tools/showlog.c:221-230 print_error_ascii -- the time is that of the clock, which only the first format looks at. *)
Definition print_error_ascii (c : show_conf) (now : Z) (line : text) (s : showlog) : option text :=
  time ← print_time c (localtime now) s; Some (time ++ line ++ [NL]).

(** tools/showlog.c:238-250 print_error_ansi *)
Definition print_error_ansi (c : show_conf) (now : Z) (line : text) (s : showlog) : option text :=
  time ← print_time c (localtime now) s; Some (CLR_RED ++ time ++ line ++ CLR_RESET ++ [NL]).

(** tools/showlog.c:315-336 print_error_html *)
Definition print_error_html (c : show_conf) (now : Z) (headline : option text) (message : text) (s : showlog) : option text :=
  let image := str "shield-unknown.png" in
  url ← so_image c;
  time ← print_time c (localtime now) s;
  Some (match headline with Some h => str "<h2>" ++ h ++ str "</h2>" ++ [NL] | None => [] end ++
    str "<img src=" ++ "034"%char :: url ++ str "/" ++ image ++ "034"%char :: str " alt=" ++ "034"%char :: image ++ "034"%char :: str " /> " ++
    time ++ message ++ str "<br />" ++ [NL]).

(** [real_print_error]; counting leaves the style of errors as it was. *)
Definition print_error (c : show_conf) (now : Z) (header : option text) (message : text) (s : showlog) : option text :=
  match so_error_style c with
  | StyleHtml => print_error_html c now header message s
  | StyleAnsi => print_error_ansi c now message s
  | StyleAscii | StyleCount => print_error_ascii c now message s
  end.

(** tools/showlog.c:430-442 printErrMsgList -- the header is set anew for every message. *)
Fixpoint printErrMsgList (c : show_conf) (now : Z) (l : list text) : SH unit :=
  match l with
  | [] => mret tt
  | m :: l => s ← sgets id; x ← or_undefined (print_error c now (Some (str "SHOWLOG WARNING")) m s); emit x ;; printErrMsgList c now l
  end.

(** ** The main function *)

(** tools/showlog.c:61-65 event_filter -- and the other defaults. *)
Definition initial (stdin : text) : options :=
  Options (ShowConf 0 0 false false false false false (2 ^ 32 - 1 - EVT_LIVESTATUS) (-1) (-1) (Z.lor (Z.shiftl 1 HARD_STATE) (Z.shiftl 1 SOFT_STATE))
    Iso8601 StyleAscii StyleAscii (Some (str "/ninja/application/views/themes/default/icons/16x16")) all_interesting (Auth ∅ ∅))
    0 0 None [] false false false false 0 stdin.

(** tools/showlog.c:1158-1163 main *)
Definition on_terminal (o : options) : options :=
  clear_filter (evt [EVT_LROTATE; EVT_PROCESS]) (on_conf (fun c => c <| so_style := StyleAnsi |> <| so_error_style := StyleAnsi |>) o).

Definition is_duration (c : show_conf) : bool := bool_decide (so_format c = Duration).

(** tools/showlog.c:1393-1402 main -- the interval of time; one of the ends passes through an int. *)
Definition set_interval (now : Z) (c : show_conf) : show_conf :=
  let last := if so_last c =? 0 then now else so_last c in
  let first := if so_first c =? 0 then 1 else so_first c in
  if last <? first then c <| so_first := s32 last |> <| so_last := first |> else c <| so_first := first |> <| so_last := last |>.

(** tools/showlog.c:1374-1405 main -- when all arguments are read. *)
Definition settle (now : Z) (o : options) : options :=
  let o := if negb (op_limit o =? 0) && is_duration (op_conf o) then o <| op_limit := u64 (op_limit o + 1) |> else o in
  let o := if negb (op_hosts o) && op_services o then clear_filter EVT_HOST o else o in
  let o := match op_nagios_cfg o, op_files o with
           | None, [] => o <| op_nagios_cfg := Some (match fs (str "/opt/monitor/etc/naemon.cfg") with
                                                    | Some _ => str "/opt/monitor/etc/naemon.cfg" | None => str "/etc/naemon/naemon.cfg" end) |>
           | _, _ => o
           end in
  on_conf (set_interval now) o.

(** tools/showlog.c:1427-1435 main -- the log files that the main configuration names; [vars] are its variables. *)
Fixpoint add_cfg_paths (vars : list cfg_var) (o : options) : op_result :=
  match vars with
  | [] => OpNext o
  | v :: vars =>
      op_bind (if equals (v_key v) "log_file" || equals (v_key v) "log_archive_path" then match v_value v with Some p => add_path p o | None => OpUndefined end else OpNext o)
        (add_cfg_paths vars)
  end.

(** tools/showlog.c:1453-1460 main -- whether a file can have lines of the interval; [last] is the last time that it can have. *)
Definition left_out (c : show_conf) (nf : naglog_file) (last : Z) : bool := (last <? so_first c) || (so_last c <? nf_first nf).

(** tools/showlog.c:1449-1471 main -- the files; [prev] is the time of the one before. *)
Fixpoint show_files (c : show_conf) (list_files : bool) (now : Z) (prev : option Z) (files : list naglog_file) : SH unit :=
  match files with
  | [] => mret tt
  | nf :: files =>
      let last := default now (if so_reverse c then prev else nf_first <$> head files) in
      (if left_out c nf last then mret tt else
       smod (fun s => s <| sh_line_no := 0 |>) ;;
       if list_files then emit (nf_path nf ++ [NL]) else
       match lparse_path_real max_buf (so_reverse c) (match fs (nf_path nf) with Some (LogFile x) => Some x | _ => None end) (Z.to_nat (nf_size nf)) with
       | Some (LpLines l) => parse_lines c l
       | Some _ => or_undefined None
       | None => mret tt
       end) ;;
      show_files c list_files now (Some (nf_first nf)) files
  end.

(** tools/showlog.c:1439-1501 main -- from the files to the end; the number of time skews is not printed here. *)
Definition show (now : Z) (o : options) : SH unit :=
  let c := op_conf o in
  match op_files o with
  | [] => exits 0
  | files =>
      show_files c (op_list_files o) now None (qsort (if so_reverse c then nfile_rev_cmp else nfile_cmp) files) ;;
      (if is_duration c then smod (fun s => s <| sh_ltime := so_last c |>) ;; one_printed ;; print_line c 0 None else mret tt) ;;
      exit_nicely c 0
  end.
End Main.

(** tools/showlog.c:1144-1502 main -- with the clock at [now]; [cfg] reads a configuration file (shared/cfgfile.c). *)
Definition main {NT : NebTypes} {LC : LogCodes} {TZ : Tz} {QS : QSort} (fs : text -> option log_path) (depth max_buf : nat)
    (popen : text -> option (list text)) (merge : gmap text (list text) -> text) (cfg : text -> cfg_result (option cfg_comp))
    (tty : bool) (now : Z) (stdin : text) (args : list text) : sh_result unit :=
  let blank := Showlog 0 0 0 (2 ^ 32 - 1) 0 0 0 0 0 0 state_init None 0 0 0 [] in
  let finish fs (r : op_result) (before : options -> SH unit) :=
    match r with
    | OpExits code => Exits code blank
    | OpUndefined => Undefined
    | OpNext o => (before o ;; show fs max_buf now o) (blank <| sh_last_ltime := so_first (op_conf o) |> <| sh_skip := op_skip o |> <| sh_limit := op_limit o |>)
    end in
  match parse_args fs depth max_buf args (if tty then on_terminal (initial stdin) else initial stdin) with
  | OpNext o =>
      let o := settle fs now o in
      if so_all_nodes (op_conf o) then
        match processAllNodes popen (op_conf o) (op_limit o) with
        | None => Undefined
        | Some None => Exits 1 blank
        | Some (Some (logs, warnings)) =>
            let fs p := if text_eqb p merged_log then Some (LogFile (merge logs)) else fs p in
            finish fs (add_path fs depth merged_log o) (fun o => printErrMsgList (op_conf o) now warnings)
        end
      else
        match op_nagios_cfg o with
        | None => finish fs (OpNext o) (fun _ => mret tt)
        | Some path =>
            match cfg path with
            | CfgOk (Some conf) => finish fs (add_cfg_paths fs depth (c_vars conf) o) (fun _ => mret tt)
            | CfgOk None | CfgExit => Exits 1 blank
            | _ => Undefined
            end
        end
  | r => finish fs r (fun _ => mret tt)
  end.

(** ** Files that are left out *)

Section Files.
Context {NT : NebTypes} {LC : LogCodes} {TZ : Tz} (c : show_conf).

(** A file is left out only when it would show nothing: its lines are not older than its first one and not newer than
    the first line of the next file, or now. *)
Theorem left_out_shows_nothing nf last lines s : so_format c <> Duration -> so_count c = false ->
  Forall (fun l => nf_first nf <= line_time l <= last) lines -> left_out c nf last = true ->
  match parse_lines c lines s with Next _ s' | Exits _ s' => sh_out s' = sh_out s | Undefined => True end.
Proof.
  intros Hf Hc Hl Ho. pose proof (lines_leave c lines lines s ltac:(done) ltac:(intros ?; congruence)) as H. unfold leaves in H.
  assert (forall l, Forall (stands c lines) l -> l = []) as K.
  { intros [|x l] Hx; [done|]. apply Forall_cons in Hx as [[(line & Hin & (Hi & _) & _)|[? _]] _]; [|congruence].
    rewrite Forall_forall in Hl. specialize (Hl _ Hin). cbn in Hl.
    unfold left_out in Ho. apply orb_true_iff in Ho as [?%Z.ltb_lt|?%Z.ltb_lt]; lia. }
  destruct (parse_lines c lines s); [destruct H as [_ H]| |done]; destruct H as (l & E & F); by rewrite E, (K l F).
Qed.

(** The interval is in order when the times fit an int, whatever way round they were given. *)
Theorem interval_ordered now : 0 < now < 2 ^ 31 -> 0 <= so_first c < 2 ^ 31 -> 0 <= so_last c < 2 ^ 31 ->
  let c' := set_interval now c in so_first c' <= so_last c' /\
    (so_first c <> 0 -> so_last c <> 0 -> so_first c' = Z.min (so_first c) (so_last c) /\ so_last c' = Z.max (so_first c) (so_last c)).
Proof.
  intros Hn Hf Hl. unfold set_interval. destruct (Z.eqb_spec (so_last c) 0), (Z.eqb_spec (so_first c) 0).
  all: match goal with |- context [?a <? ?b] => destruct (Z.ltb_spec a b) end; cbn; rewrite ?s32_small by lia; split; lia.
Qed.
End Files.

(** ** Logs of other nodes *)

Lemma dec_no_char n ch : 0 <= n -> isdigit ch = false -> Forall (fun x => Ascii.eqb x ch = false) (dec n).
Proof.
  intros Hn Hc. destruct (dec_spec n Hn) as (_ & Hd & _). eapply Forall_impl; [exact Hd|]. intros x Hx. apply Ascii.eqb_neq. congruence.
Qed.

(** A line with a time and a message. *)
Definition log_line (t : Z) (msg : text) : text := str "[" ++ dec t ++ str "] " ++ msg.

Lemma log_line_parts t rest : 0 <= t < 2 ^ 63 -> strtoull 10 (tail (str "[" ++ dec t ++ str "] " ++ rest)) = (t, str "] " ++ rest).
Proof.
  intros Ht. cbn [str String.list_ascii_of_string app tail]. unfold strtoull. rewrite strtol_raw_dec by (done || lia). cbv beta iota zeta.
  rewrite (proj2 (Z.ltb_ge _ _)), u64_small by lia. done.
Qed.

Lemma s64_of_time t : 0 <= t < 2 ^ 63 -> s64 t = t.
Proof. intros Ht. unfold s64. rewrite Z.mod_small by lia. lia. Qed.

(** A line of another node keeps its time and its message, which gets the name of the node behind it. *)
Theorem node_line_kept node t msg : 0 <= t < 2 ^ 63 -> Forall (fun c => Ascii.eqb c "013" || Ascii.eqb c NL = false) msg ->
  match msg with c :: _ => Ascii.eqb c "]" || Ascii.eqb c " " = false | [] => False end ->
  exists y, node_line node (log_line t msg) = Some y /\ line_time y = t /\ message y = msg ++ str " (" ++ node ++ str ")".
Proof.
  intros Ht Hm Hs. unfold node_line, log_line.
  assert (str "[" ++ dec t ++ str "] " ++ msg = (str "[" ++ dec t) ++ "]"%char :: " "%char :: msg) as E by (by rewrite <- app_assoc).
  assert (behind "]" (str "[" ++ dec t ++ str "] " ++ msg) = Some (" "%char :: msg)) as ->.
  { rewrite E. apply behind_app. constructor; [done|]. apply dec_no_char; [lia|done]. }
  eexists. split; [reflexivity|]. rewrite log_line_parts by done. cbn [fst]. rewrite s64_of_time by done.
  assert ((span (fun c => negb (Ascii.eqb c "013" || Ascii.eqb c NL)) (" "%char :: msg)).1 = " "%char :: msg) as ->.
  { assert (forall m, Forall (fun c => Ascii.eqb c "013" || Ascii.eqb c NL = false) m -> (span (fun c => negb (Ascii.eqb c "013" || Ascii.eqb c NL)) m).1 = m) as K.
    { intros m Fm. induction Fm as [|c m Hc _ IH]; cbn [span]; [done|]. rewrite Hc. cbn [negb]. destruct (span _ m). cbn in *. by rewrite IH. }
    apply K. by constructor. }
  unfold line_time, message. rewrite log_line_parts by done. cbn [fst snd]. split; [by apply s64_of_time|].
  destruct msg as [|c msg]; [done|]. cbn [str String.list_ascii_of_string app span]. rewrite !Ascii.eqb_refl, orb_true_r. cbn [orb]. rewrite Hs. done.
Qed.

(** ** Examples *)

#[local] Existing Instance naemon_codes.
#[local] Existing Instance demo_tz.
#[local] Existing Instance QSort_insertion.

Definition demo_fs (p : text) : option log_path :=
  if equals p "/var/log/a.log" then Some (LogFile (join NL (map str ["[1700000000] HOST ALERT: alpha;DOWN;HARD;3;no answer"; "[1700000020] HOST ALERT: alpha;UP;HARD;1;back"]%string)))
  else if equals p "/var/log/b.log" then Some (LogFile (str "[1700000100] HOST ALERT: beta;DOWN;HARD;3;no answer"))
  else None.
Definition demo_main (args : list string) : sh_result unit :=
  main demo_fs 3 1000 (fun _ => None) (fun _ => []) (fun _ => CfgUndefined) false 1800000000 [] (map str args).
Definition screen (r : sh_result unit) : list text := match r with Next _ s | Exits _ s => shown s | Undefined => [] end.

Example demo_limit : screen (demo_main ["--time-format=raw"; "--limit=1"; "--reverse"; "--host=alpha"; "/var/log/a.log"]) =
  [str "[1700000020] HOST ALERT: alpha;UP;HARD;1;back" ++ [NL]].
Proof. vm_compute. reflexivity. Qed.

(** ** What the code does not do *)

(** Of two files the second is not read: it is passed over as if it were the argument of the first. *)
Theorem second_file_passed_over : demo_main ["--time-format=raw"; "/var/log/b.log"; "/var/log/a.log"] = demo_main ["--time-format=raw"; "/var/log/b.log"] /\
  demo_main ["--time-format=raw"; "/var/log/a.log"] <> demo_main ["--time-format=raw"; "/var/log/b.log"].
Proof. split; vm_compute; [reflexivity|discriminate]. Qed.

(** With durations one line too many is counted. *)
Theorem durations_count_one_more : screen (demo_main ["--time-format=duration"; "--count"; "/var/log/b.log"]) = [str "2" ++ [NL]] /\
  screen (demo_main ["--time-format=raw"; "--count"; "/var/log/b.log"]) = [str "1" ++ [NL]].
Proof. split; vm_compute; reflexivity. Qed.

(** An option whose argument is missing is passed over, and a word to show or hide that is missing is read through NULL. *)
Theorem missing_arguments : demo_main ["/var/log/b.log"; "x"; "--limit"] = demo_main ["/var/log/b.log"; "x"] /\ demo_main ["--hide"] = Undefined.
Proof. split; vm_compute; reflexivity. Qed.

(** The name of a file with less than ten characters is read from in front of it. *)
Theorem short_name_outside fs depth arg o : (length arg < 10)%nat -> file_argument fs depth arg o = OpUndefined.
Proof. intros H. unfold file_argument. by rewrite (proj2 (Nat.ltb_lt _ _) H). Qed.

(** Times beyond 2038 the wrong way round lose their upper bits. *)
Theorem late_interval_wraps c now : so_first c = 2 ^ 33 + 7 -> so_last c = 2 ^ 32 + 5 -> so_first (set_interval now c) = 5.
Proof. intros Hf Hl. unfold set_interval. rewrite Hf, Hl. reflexivity. Qed.
