(* ===== verification/Rename.v ===== *)
(** * Renaming hosts and services: tools/rename.c

    Hosts and services that were renamed are renamed in the database and in the log files.  The list of renames is the
    table rename_log, whose rows are an argument, as is whether the table report_data_synergy exists.  Undefined behaviour
    and crashes give [None].  Opening and renaming files succeeds; the state of the file system is the text of its files. *)

From S2P Require Import Prelude Binlog Packet Io Merlin Pgroup Node Control Checks Hooks Commands Objects Cfgfile Config Misc Shared Sql Daemon Lparse Logutils.
#[local] Open Scope Z_scope.

(** tools/rename.c:20-26 renames *)
Record rename := Rename { rn_id : Z; from_host_name : text; from_service_description : option text;
  to_host_name : text; to_service_description : option text }.

(** ** The database *)

Section Database.
Context (quote : text -> text) (synergy : bool).

(** printf of %s with NULL. *)
Definition shown_text (t : option text) : text := default (str "(null)") t.

(** daemon/sql.c:305-314 sql_table_exists -- of the one table that is asked for. *)
Definition sql_table_exists (tablename : text) : DB Z :=
  sql_vquery (Other (str "SELECT table_name FROM INFORMATION_SCHEMA.TABLES WHERE table_name = '" ++ tablename ++ str "'")) ;;
  result ← dgets sq_result;
  mret (if negb result then -1 else Z.b2z synergy).

Definition host_update (table to from : text) : stmt :=
  Other (str "UPDATE " ++ table ++ str " SET host_name=" ++ to ++ str " WHERE host_name=" ++ from).
Definition service_update (table to_host to_service from_host from_service : text) : stmt :=
  Other (str "UPDATE " ++ table ++ str " SET host_name=" ++ to_host ++ str ", service_description=" ++ to_service ++
    str " WHERE host_name=" ++ from_host ++ str " AND service_description=" ++ from_service).

(** tools/rename.c:42-74 rename_db -- one of the renames. *)
Definition rename_one (r : rename) : DB unit :=
  quoted_from_host ← sql_quote quote (Some (from_host_name r));
  quoted_to_host ← sql_quote quote (Some (to_host_name r));
  match from_service_description r with
  | Some s =>
      quoted_from_service ← sql_quote quote (Some s);
      quoted_to_service ← sql_quote quote (to_service_description r);
      let update table := service_update (str table) (shown_text quoted_to_host) (shown_text quoted_to_service) (shown_text quoted_from_host) (shown_text quoted_from_service) in
      sql_vquery (update "report_data"%string) ;;
      e ← sql_table_exists (str "report_data_synergy");
      if e >? 0 then sql_vquery (update "report_data_synergy"%string) ;; mret tt else mret tt
  | None =>
      let update table := host_update (str table) (shown_text quoted_to_host) (shown_text quoted_from_host) in
      sql_vquery (update "report_data"%string) ;;
      e ← sql_table_exists (str "report_data_synergy");
      if e >? 0 then sql_vquery (update "report_data_synergy"%string) ;; mret tt else mret tt
  end.

Fixpoint rename_each (l : list rename) : DB unit :=
  match l with [] => mret tt | r :: l => rename_one r ;; rename_each l end.

(** tools/rename.c:37-77 rename_db *)
Definition rename_db (renames : list rename) : DB Z := rename_each renames ;; sql_try_commit (-1) ;; mret 0.

(** tools/rename.c:238-257 clear_renames *)
Definition clear_renames (renames : list rename) : DB Z :=
  match renames with
  | [] => mret 0
  | _ => sql_vquery (Other (str "DELETE FROM rename_log WHERE id IN (" ++ join "," (map (fun r => dec (rn_id r)) renames) ++ str ")")) ;; mret 0
  end.
End Database.

(** ** The list *)

(** A row of the second query of [find_renames]; a value without characters is NULL. *)
Definition rename_row : Type := Z * text * text * text * text.
Definition of_row (row : rename_row) : rename :=
  let '(id, fh, fs, th, ts) := row in
  let opt (t : text) := match t with [] => None | _ => Some t end in
  Rename id fh (opt fs) th (opt ts).

(** tools/rename.c:222-234 find_renames -- the names in log files; [None] when one of two descriptions is missing. *)
Definition names (r : rename) : option (text * text) :=
  match from_service_description r with
  | Some fs => ts ← to_service_description r; Some (from_host_name r ++ ";"%char :: fs, to_host_name r ++ ";"%char :: ts)
  | None => Some (from_host_name r, to_host_name r)
  end.

(** tools/rename.c:167-236 find_renames -- [count] is the answer to the first query and [rows] that to the second.  With more rows
    the array is written beyond its end, with less of them names are NULL. *)
Definition find_renames (count : Z) (rows : list rename_row) : option (list rename * list (text * text)) :=
  if negb (Z.of_nat (length rows) =? count) then None else
  let renames := map of_row rows in
  ns ← mapM names renames;
  Some (renames, ns).

(** ** The log files *)

Section Logs.
Context (renames : list (text * text)).

(** tools/rename.c:34-35 previous_is -- the text before a position ends with a word. *)
Definition previous_is (before : text) (val : string) : bool := has_prefix (reverse (str val)) (reverse before).

(** Where the name of an object is looked for: nowhere, through a pointer that is outside of the line or NULL, or behind a
    first part of the line. *)
Inductive place := Nowhere | Outside | At (head object : text).

(** tools/rename.c:92-120 parse_line -- where to look. *)
Definition where_to_look (s : text) : place :=
  if (length s <=? 13)%nat then Nowhere else
  match behind ":" (drop 13 s) with
  | None => Nowhere
  | Some after =>
      let pre := take 13 s ++ before ":" (drop 13 s) in
      if previous_is pre "ALERT" || previous_is pre "HANDLER" || previous_is pre "STATE" then
        match after with [] => Outside | c :: object => At (pre ++ [":"%char; c]) object end
      else if previous_is pre "NOTIFICATION" || previous_is pre "COMMAND" then
        match behind ";" after with None => Outside | Some object => At (pre ++ ":"%char :: before ";" after ++ [";"%char]) object end
      else Nowhere
  end.

(** tools/rename.c:110-116 parse_line -- and 121-127: the first name that the text begins with is replaced. *)
Definition replace (object : text) : text :=
  match find (fun p => has_prefix p.1 object) renames with
  | Some (from, to) => to ++ drop (length from) object
  | None => object
  end.

(** tools/rename.c:87-138 parse_line -- what is written for a line. *)
Definition rename_line (s : text) : option text :=
  match where_to_look s with
  | Nowhere => Some s
  | Outside => if bool_decide (renames = []) then Some s else None
  | At head object => Some (head ++ replace object)
  end.
Definition parse_line (s : text) : option text := (fun t => t ++ [NL]) <$> rename_line s.

Definition write_line (s : text) (r : option text) : option text := t ← parse_line s; rest ← r; Some (t ++ rest).

Context (max_buf : nat).

(** tools/rename.c:148-163 rename_log -- a file, by its path and text; the path of the new file has room for 511 characters. *)
Definition rename_file (path content : text) : option text :=
  if (512 <=? length path + 4)%nat then None else
  match lparse_path_real max_buf false (Some content) (length content) with
  | Some (LpLines l) => foldr write_line (Some []) l
  | Some _ => None
  | None => Some []
  end.

(** tools/rename.c:140-165 rename_log -- the files that [add_naglog_path] finds; [fs] is changed by the renaming of the new files. *)
Definition rename_log (depth : nat) (log_dir log_file : option text) (fs : text -> option log_path) : option (text -> option log_path) :=
  let add o files := match o with Some p => snd <$> add_naglog_path fs depth p files | None => Some files end in
  files ← add log_dir [];
  files ← add log_file files;
  fold_opt (fun nf (fs : text -> option log_path) =>
    match fs (nf_path nf) with
    | Some (LogFile c) => t ← rename_file (nf_path nf) c; Some (fun p => if text_eqb p (nf_path nf) then Some (LogFile t) else fs p)
    | _ => None
    end) files fs.
End Logs.

(** ** The main function *)

(** What the options ask for. *)
Record rename_opts := RenameOpts { ro_log : bool; ro_archived : bool; ro_db : bool; ro_save : bool; ro_dir : option text; ro_file : option text }.
#[export] Instance eta_rename_opts : Eta rename_opts := fun r => RenameOpts (ro_log r) (ro_archived r) (ro_db r) (ro_save r) (ro_dir r) (ro_file r).

(** tools/rename.c:318-367 main -- the options but those of the database; [None] ends with the help text. *)
Fixpoint rename_args (args : list text) (o : rename_opts) : option rename_opts :=
  match args with
  | [] => if ro_db o || ro_log o || ro_archived o then Some o else None
  | a :: args =>
      if equals a "--rename-all" then rename_args args (o <| ro_log := true |> <| ro_archived := true |> <| ro_db := true |>)
      else if equals a "--rename-log" then rename_args args (o <| ro_log := true |>)
      else if equals a "--rename-archived" then rename_args args (o <| ro_archived := true |>)
      else if equals a "--rename-db" then rename_args args (o <| ro_db := true |>)
      else if equals a "--save-renames" then rename_args args (o <| ro_save := true |>)
      else if existsb (starts a) ["--db-type="; "--db-name="; "--db-host="; "--db-user="; "--db-pass="]%string then rename_args args o
      else if starts a "--log-dir=" then rename_args args (o <| ro_dir := Some (drop 10 a) |>)
      else if starts a "--log-file=" then rename_args args (o <| ro_file := Some (drop 11 a) |>)
      else None
  end.

(** tools/rename.c:399-422 main -- when the renames are known. *)
Definition rename_main (quote : text -> text) (synergy : bool) (max_buf depth : nat) (default_dir default_file : text)
    (o : rename_opts) (renames : list rename) (ns : list (text * text)) (fs : text -> option log_path) : DB (text -> option log_path) :=
  match renames with
  | [] => mret fs
  | _ =>
      (if ro_db o then rename_db quote synergy renames ;; mret tt else mret tt) ;;
      fs ← (if ro_log o || ro_archived o then
              fun s => match rename_log ns max_buf depth (if ro_archived o then Some (default default_dir (ro_dir o)) else None)
                               (if ro_log o then Some (default default_file (ro_file o)) else None) fs with
                       | Some fs => Some (fs, s) | None => None end
            else mret fs);
      (if ro_save o then mret tt else clear_renames renames ;; mret tt) ;;
      sql_try_commit (-1) ;;
      sql_close ;;
      mret fs
  end.

(** ** The database after a renaming *)

Lemma vquery_result q s s' : sql_vquery q s = Some (0, s') -> sq_result s' = true.
Proof.
  unfold sql_vquery, mbind, DB_bind, dgets, mret, DB_ret. intros H.
  repeat match type of H with
  | (if ?b then _ else _) _ = _ => destruct b
  | match ?x with Some _ => _ | None => _ end = _ => destruct x as [[? ?]|] eqn:?; [|done]
  | Some _ = Some _ => injection H as H
  end; simplify_eq; try done; try by destruct (sq_result _) eqn:?; simplify_eq.
Qed.

Section Updates.
Context (quote : text -> text) (synergy : bool).

Definition asks : stmt := Other (str "SELECT table_name FROM INFORMATION_SCHEMA.TABLES WHERE table_name = '" ++ str "report_data_synergy" ++ str "'").

(** The statements for a rename: an update of each table that there is, and the question for the second. *)
Definition updates (r : rename) : list stmt :=
  let q t := shown_text (quoted_text quote t) in
  let update table := match from_service_description r with
    | Some s => service_update (str table) (q (Some (to_host_name r))) (q (to_service_description r)) (q (Some (from_host_name r))) (q (Some s))
    | None => host_update (str table) (q (Some (to_host_name r))) (q (Some (from_host_name r)))
    end in
  [update "report_data"%string; asks] ++ (if synergy then [update "report_data_synergy"%string] else []).

Lemma table_exists_does : does (sql_table_exists synergy (str "report_data_synergy")) (Z.b2z synergy) [asks].
Proof.
  unfold sql_table_exists. intros s Hs. destruct (vquery_does asks s Hs) as (s1 & E1 & H1 & L1). unfold mbind, DB_bind. fold asks. rewrite E1.
  exists s1. unfold dgets, mret, DB_ret. by rewrite (vquery_result _ _ _ E1).
Qed.

Lemma rename_one_does r : does (rename_one quote synergy r) tt (updates r).
Proof.
  unfold rename_one, updates. do 2 (eapply does_quiet; [apply quote_does|]).
  destruct (from_service_description r) as [fs|]; [do 2 (eapply does_quiet; [apply quote_does|])|].
  all: eapply (does_bind _ _ 0 tt [_] (asks :: _)); [apply vquery_does|]; eapply (does_bind _ _ _ tt [asks]); [apply table_exists_does|].
  all: destruct synergy; [eapply does_end; [apply vquery_does|apply does_ret]|apply does_ret].
Qed.

(** While the database answers, every rename is made in every table there is, in the order of the renames, and all of it is committed. *)
Theorem rename_db_updates l s : healthy s -> exists s', rename_db quote synergy l s = Some (0, s') /\
  sq_log s' = rev (flat_map updates l) ++ sq_log s /\ (sq_queries s' = 0).
Proof.
  intros Hs. assert (does (rename_each quote synergy l) tt (flat_map updates l)) as Hd.
  { clear. induction l as [|r l IH]; [apply does_ret|]. cbn [rename_each flat_map]. eapply does_bind; [apply rename_one_does|done]. }
  destruct (Hd s Hs) as (s1 & E1 & H1 & L1). unfold rename_db, mbind, DB_bind. rewrite E1.
  unfold sql_try_commit, dmodify, mret, DB_ret. rewrite (hl_conn s1 H1), (hl_use s1 H1). cbn [negb orb Z.eqb Z.gtb Z.compare].
  destruct (Z.eqb_spec (sq_queries s1) 0) as [E|E]; cbn [negb andb]; eexists; (split; [reflexivity|]); done.
Qed.
End Updates.

(** ** Log files after a renaming *)

Lemma previous_long b val : previous_is b val = true -> (length (str val) <= length b)%nat.
Proof. intros [x Hx]%has_prefix_spec. apply (f_equal length) in Hx. rewrite length_app, !length_reverse in Hx. lia. Qed.

(** Where to look does not depend on what is there. *)
Lemma look_at s head object object' : where_to_look s = At head object -> s = head ++ object /\ where_to_look (head ++ object') = At head object'.
Proof.
  unfold where_to_look at 1. destruct (Nat.leb_spec (length s) 13) as [|Hlen]; [done|].
  destruct (behind ":" (drop 13 s)) as [after|] eqn:Eb; [|done]. destruct (behind_split _ _ _ Eb) as [Ed Hb].
  set (mid := before ":" (drop 13 s)) in *. set (pre := take 13 s ++ mid).
  assert (s = pre ++ ":"%char :: after) as Es by (unfold pre; rewrite <- app_assoc, <- Ed; by rewrite take_drop).
  assert (forall rest, where_to_look (pre ++ ":"%char :: rest) =
    if previous_is pre "ALERT" || previous_is pre "HANDLER" || previous_is pre "STATE" then
      match rest with [] => Outside | c :: object => At (pre ++ [":"%char; c]) object end
    else if previous_is pre "NOTIFICATION" || previous_is pre "COMMAND" then
      match behind ";" rest with None => Outside | Some object => At (pre ++ ":"%char :: before ";" rest ++ [";"%char]) object end
    else Nowhere) as W.
  { intros rest. unfold where_to_look. assert (length (take 13 s) = 13)%nat as H13 by (rewrite length_take; lia).
    assert (drop 13 (pre ++ ":"%char :: rest) = mid ++ ":"%char :: rest) as Ed' by (unfold pre; rewrite <- app_assoc; by apply drop_app_length').
    assert (take 13 (pre ++ ":"%char :: rest) = take 13 s) as Et by (unfold pre; rewrite <- app_assoc; by apply take_app_length').
    rewrite (proj2 (Nat.leb_gt _ _)) by (unfold pre; rewrite !length_app; cbn; lia).
    rewrite Ed', Et, behind_app, before_app by done. fold pre. done. }
  destruct (previous_is pre "ALERT" || previous_is pre "HANDLER" || previous_is pre "STATE").
  - destruct after as [|c obj]; [done|]. intros [= <- <-]. rewrite <- app_assoc. cbn [app]. split; [done|]. rewrite <- app_assoc. cbn [app]. by rewrite W.
  - destruct (previous_is pre "NOTIFICATION" || previous_is pre "COMMAND"); [|intros H; discriminate H].
    destruct (behind ";" after) as [obj|] eqn:Eo; [|intros H; discriminate H]. intros [= <- <-].
    destruct (behind_split _ _ _ Eo) as [Ea Ha]. rewrite <- !app_assoc. cbn [app]. rewrite <- !app_assoc. cbn [app]. split; [by rewrite <- Ea|].
    rewrite W, behind_app, before_app by done. done.
Qed.

Section Back.
Context (a b : text).

(** A line that the name [b] can be taken back from: its object, if there is one, does not begin with [b] unless it begins with [a]. *)
Definition distinct (s : text) : Prop :=
  match where_to_look s with Nowhere => True | Outside => False | At _ object => has_prefix a object = false -> has_prefix b object = false end.

Lemma has_prefix_app p r : has_prefix p (p ++ r) = true.
Proof. apply has_prefix_spec. eauto. Qed.

Lemma replace_back object : (has_prefix a object = false -> has_prefix b object = false) -> replace [(b, a)] (replace [(a, b)] object) = object.
Proof.
  intros Hd. unfold replace at 2. cbn [find fst]. destruct (has_prefix a object) eqn:Ea.
  - apply has_prefix_spec in Ea as [r ->]. rewrite drop_app_length. unfold replace. cbn [find fst]. by rewrite has_prefix_app, drop_app_length.
  - unfold replace. cbn [find fst]. by rewrite Hd.
Qed.

Lemma rename_line_back s : distinct s -> exists t, rename_line [(a, b)] s = Some t /\ rename_line [(b, a)] t = Some s.
Proof.
  unfold distinct. destruct (where_to_look s) as [| |head object] eqn:E; intros Hd; [|done|].
  - exists s. unfold rename_line. by rewrite E.
  - exists (head ++ replace [(a, b)] object). unfold rename_line. rewrite E. split; [done|].
    destruct (look_at _ _ _ (replace [(a, b)] object) E) as [Es ->]. by rewrite replace_back, Es.
Qed.

(** The lines of a file. *)
Definition rename_lines (renames : list (text * text)) (l : list text) : option (list text) := mapM (rename_line renames) l.

Lemma rename_lines_back ls : Forall distinct ls -> exists ls', rename_lines [(a, b)] ls = Some ls' /\ rename_lines [(b, a)] ls' = Some ls.
Proof.
  induction 1 as [|s ls Hs _ (ls' & E1 & E2)]; [by exists []|]. destruct (rename_line_back s Hs) as (t & F1 & F2).
  exists (t :: ls'). unfold rename_lines in *. cbn. by rewrite F1, E1, F2, E2.
Qed.
End Back.

(** A file of lines that fit in the buffer is written anew line by line. *)
Lemma rename_file_lines renames max_buf path ls ls' : (length path + 4 < 512)%nat -> Forall plain ls -> Forall (fits max_buf) ls ->
  rename_lines renames ls = Some ls' -> rename_file renames max_buf path (show ls []) = Some (show ls' []).
Proof.
  intros Hp Hl Hf E. unfold rename_file. rewrite (proj2 (Nat.leb_gt _ _)) by lia. unfold lparse_path_real.
  destruct (Nat.eqb_spec (length (show ls [])) 0) as [E0|_].
  { destruct ls as [|l ls]; [by injection E as <-|]. rewrite show_cons, length_app in E0. cbn in E0. lia. }
  rewrite lparse_fd_lines; [|done|apply not_elem_of_nil|done|cbn; lia]. unfold file_lines. rewrite bool_decide_true, app_nil_r by done.
  clear Hl Hf. revert ls' E. induction ls as [|s ls IH]; intros ls'; unfold rename_lines; cbn [mapM foldr]; [by intros [= <-]|].
  unfold write_line at 1, parse_line. destruct (rename_line renames s) as [t|]; [|done]. cbn [mbind option_bind fmap option_fmap option_map].
  destruct (mapM (rename_line renames) ls) as [rest|] eqn:Er; [|done]. cbn [mbind option_bind mret option_ret]. intros [= <-].
  rewrite (IH rest) by done. cbn [mbind option_bind]. rewrite show_cons. by rewrite <- app_assoc.
Qed.

(** A renaming in a log file can be taken back: renaming [a] to [b] and then [b] to [a] gives the file as it was, provided that no
    object began with [b]. *)
Theorem rename_file_back a b max_buf path ls : (length path + 4 < 512)%nat -> Forall plain ls -> Forall (fits max_buf) ls -> Forall (distinct a b) ls ->
  (forall ls', rename_lines [(a, b)] ls = Some ls' -> Forall plain ls' /\ Forall (fits max_buf) ls') ->
  exists renamed, rename_file [(a, b)] max_buf path (show ls []) = Some renamed /\ rename_file [(b, a)] max_buf path renamed = Some (show ls []).
Proof.
  intros Hp Hl Hf Hd Hn. destruct (rename_lines_back a b ls Hd) as (ls' & E1 & E2). destruct (Hn ls' E1) as [Hl' Hf'].
  exists (show ls' []). split; by apply rename_file_lines.
Qed.

(** ** Examples *)

Definition demo_log_lines : list text := map str
  ["[1700000010] HOST ALERT: web;DOWN;SOFT;1;no answer"; "[1700000020] SERVICE NOTIFICATION: joe;web;http;CRITICAL;mail;down";
   "[1700000030] HOST ALERT: db;DOWN;SOFT;1;no answer"; "[1700000040] Warning: web has no services"]%string.

Example demo_renamed : rename_lines [(str "web", str "www")] demo_log_lines = Some (map str
  ["[1700000010] HOST ALERT: www;DOWN;SOFT;1;no answer"; "[1700000020] SERVICE NOTIFICATION: joe;www;http;CRITICAL;mail;down";
   "[1700000030] HOST ALERT: db;DOWN;SOFT;1;no answer"; "[1700000040] Warning: web has no services"]%string).
Proof. vm_compute. reflexivity. Qed.

Lemma rename_file_back_witness : exists renamed,
  rename_file [(str "web", str "www")] 1000 (str "naemon.log") (show demo_log_lines []) = Some renamed /\
  rename_file [(str "www", str "web")] 1000 (str "naemon.log") renamed = Some (show demo_log_lines []).
Proof.
  assert (forall l : list text, forallb (fun t => forallb (fun c => negb (Ascii.eqb c NL)) t && (length t <? 1000)%nat) l = true ->
    Forall plain l /\ Forall (fits 1000) l) as H.
  { intros l Hl. rewrite <- Forall_and. apply Forall_forall. intros t Ht%list_elem_of_In. rewrite forallb_forall in Hl. specialize (Hl t Ht).
    apply andb_true_iff in Hl as [H1 H2%Nat.ltb_lt]. split; [|exact H2]. intros Hin%list_elem_of_In. rewrite forallb_forall in H1. by specialize (H1 _ Hin). }
  apply (rename_file_back (str "web") (str "www") 1000 (str "naemon.log") demo_log_lines).
  - cbn. lia.
  - apply H. vm_compute. reflexivity.
  - apply H. vm_compute. reflexivity.
  - repeat constructor; vm_compute; done.
  - intros ls' E. apply H. vm_compute in E. injection E as <-. vm_compute. reflexivity.
Defined.

(** ** What the code does not do *)

(** A host whose name begins with the one that is renamed is renamed in the log files too; not so in the database. *)
Theorem longer_name_renamed : rename_line [(str "web", str "www")] (str "[1700000010] HOST ALERT: web2;DOWN;SOFT;1;x") =
  Some (str "[1700000010] HOST ALERT: www2;DOWN;SOFT;1;x").
Proof. vm_compute. reflexivity. Qed.

(** A notification without a semicolon, and an alert without anything, are read through a pointer that is no part of them. *)
Theorem lines_without_object : rename_line [(str "web", str "www")] (str "[1700000010] HOST NOTIFICATION: x") = None /\
  rename_line [(str "web", str "www")] (str "[1700000010] HOST ALERT:") = None.
Proof. split; vm_compute; reflexivity. Qed.

(** A rename that is added between the two queries is written behind the array. *)
Theorem rename_added_meanwhile row : find_renames 0 [row] = None.
Proof. done. Qed.
