(* ===== verification/Merlind.v ===== *)
(** * The daemon: daemon/daemon.c, daemon/daemonize.c and the listening side of shared/ipc.c

    The daemon listens on a socket for one module, reads its packets and hands the events to [Daemon].  Its state is that of the
    nodes, of which it uses [ipc] alone, and that of the database.  The kernel is given by what its coming calls are going to
    answer; a turn of the main loop is given by what select(2) finds.  A body that cannot be decoded is [None] for [decode], which
    stands for merlin_decode_event ([Codec]).  A failed assertion gives [None]. *)

From S2P Require Import Prelude Binlog Packet Io Merlin Pgroup Node Delivery Control Checks Hooks Commands Objects Cfgfile Config Misc Shared Sql Daemon.
#[local] Open Scope Z_scope.

(** ** The state *)

(** What making the listening socket is going to give. *)
Inductive listen_res := NoSocket | UnlinkFails (fd : Z) | BindFails (fd : Z) | ListenFails (fd : Z) | Listens (fd : Z).

(** What select(2) finds: an error, or which of the two sockets can be read. *)
Inductive select_res := SelectFails | Ready (listener ipc : bool).

(** [md_path] says whether the path of the socket exists. *)
Record merlind := Merlind {
  md_merlin : merlin; md_sql : sqldb; md_last_reinit : Z; md_listens : list listen_res; md_accepts : list Z; md_path : bool }.

#[export] Instance eta_merlind : Eta merlind := fun r =>
  Merlind (md_merlin r) (md_sql r) (md_last_reinit r) (md_listens r) (md_accepts r) (md_path r).

Definition DP (A : Type) : Type := merlind -> option (A * merlind).
#[export] Instance DP_ret : MRet DP := fun A a s => Some (a, s).
#[export] Instance DP_bind : MBind DP := fun A B k c s => match c s with Some (a, s) => k a s | None => None end.
Definition pgets {A} (f : merlind -> A) : DP A := fun s => Some (f s, s).
Definition pmod (f : merlind -> merlind) : DP unit := fun s => Some (tt, f s).

(** Computations on the nodes and on the database. *)
Definition nodes {A} (c : M A) : DP A := fun s => let '(a, m) := c (md_merlin s) in Some (a, s <| md_merlin := m |>).
Definition database {A} (c : DB A) : DP A := fun s => match c (md_sql s) with Some (a, d) => Some (a, s <| md_sql := d |>) | None => None end.

Section Merlind.
Context {QS : QSort} {SD : Sodium} {NC : NebCallbacks} {NT : NebTypes} (quote : text -> text) (conf : db_conf) (objver : Z) (decode : merlin_event -> option db_body).

(** ** The socket *)

(** shared/node.c:42-149 node_set_state -- of [ipc] in the daemon, where it has no action and its type is none that is counted. *)
Definition ipc_set_state (st : state) : M unit :=
  ipc ← get_node IPC;
  if state_of ipc =?s st then mret tt else
  now ← time_now;
  (if st =?s STATE_CONNECTED then on_node IPC (fun n => n <| connect_time := now |> <| csync_num_attempts := 0 |>) else mret tt) ;;
  on_node IPC (fun n => n <| state_of := st |>) ;;
  if (st =?s STATE_CONNECTED) && (0 <=? sock ipc) then on_node IPC (fun n => n <| last_recv := now |>) else mret tt.

(** shared/ipc.c:347-359 ipc_deinit -- of the daemon. *)
Definition ipc_deinit_daemon : DP unit := nodes ipc_deinit ;; pmod (fun s => s <| md_path := false |>).

Definition next_listen : DP listen_res := fun s =>
  match md_listens s with [] => Some (NoSocket, s) | r :: l => Some (r, s <| md_listens := l |>) end.
Definition set_listen (fd : Z) : DP unit := nodes (modify (fun s => s <| m_listen_sock := fd |>)).
Definition open_fd (fd : Z) : DP unit := nodes (modify (fun s => s <| m_open ::= fun o => {[fd]} ∪ o |>)).

(** shared/ipc.c:253-326 ipc_init -- of the daemon, when there is no listening socket yet. *)
Definition ipc_init_daemon : DP Z :=
  nodes (ipc ← get_node IPC; now ← time_now;
    if now <=? last_conn_attempt_logged ipc + 30 then mret tt else on_node IPC (fun n => n <| last_conn_attempt_logged := now |>)) ;;
  path ← nodes (gets m_ipc_path);
  if bool_decide (path = None) then mret (-1) else
  r ← next_listen;
  match r with
  | NoSocket => set_listen (-1) ;; mret (-1)
  | UnlinkFails fd => open_fd fd ;; set_listen fd ;; mret (-1)
  | BindFails fd => pmod (fun s => s <| md_path := false |>) ;; set_listen (-1) ;; mret (-1)
  | ListenFails fd => pmod (fun s => s <| md_path := true |>) ;; set_listen (-1) ;; mret (-1)
  | Listens fd => open_fd fd ;; pmod (fun s => s <| md_path := true |>) ;; set_listen fd ;; mret 0
  end.

(** shared/ipc.c:128-133 ipc_reinit -- of the daemon. *)
Definition ipc_reinit_daemon : DP Z := ipc_deinit_daemon ;; ipc_init_daemon.

Definition next_accept : DP Z := fun s =>
  match md_accepts s with [] => Some (-1, s) | fd :: l => Some (fd, s <| md_accepts := l |>) end.

(** shared/ipc.c:135-155 ipc_accept *)
Definition ipc_accept : DP Z :=
  ipc ← nodes (get_node IPC);
  (if sock ipc =? -1 then mret tt else nodes (sys_close (sock ipc))) ;;
  fd ← next_accept;
  (if 0 <=? fd then open_fd fd else mret tt) ;;
  nodes (on_node IPC (fun n => n <| sock := fd |>)) ;;
  if fd <? 0 then mret (-1) else
  nodes (ipc_set_state STATE_NEGOTIATING) ;; mret fd.

(** ** Events *)

(** daemon/daemon.c:178-203 ipc_reap_events -- a packet. *)
Definition reap_one (pkt : merlin_event) : DP unit :=
  if negb (h_type (hdr pkt) =? CTRL_PACKET) then
    database (handle_ipc_event quote conf (daemon_wants (h_type (hdr pkt))) (decode pkt)) ;; mret tt
  else if h_code (hdr pkt) =? CTRL_ACTIVE then
    if negb (node_compat_cmp objver pkt =? 0) then nodes (node_disconnect IPC)
    else nodes (ipc_set_state STATE_CONNECTED ;; on_node IPC (fun n => n <| info := info_of_bytes (body pkt) |>))
  else if h_code (hdr pkt) =? CTRL_INACTIVE then nodes (on_node IPC (fun n => n <| info := zero_info |>))
  else mret tt.

(** daemon/daemon.c:176-206 ipc_reap_events -- the loop; every packet takes bytes out of the queue. *)
Fixpoint reap_loop (fuel : nat) : DP unit :=
  match fuel with
  | O => mret tt
  | S fuel =>
      g ← nodes (node_get_event IPC);
      match g with
      | Got p => reap_one p ;; reap_loop fuel
      | NoEvent => mret tt
      | GotShort _ => fun _ => None
      end
  end.

(** daemon/daemon.c:166-209 ipc_reap_events *)
Definition ipc_reap_events : DP Z :=
  nodes (node_log_event_count IPC false) ;;
  len ← nodes (node_recv IPC);
  if len <? 0 then mret len else
  q ← nodes (gets (fun s => length (bq (m_nodes s !!! IPC))));
  reap_loop (S q) ;; mret 0.

(** ** The main loop *)

(** daemon/daemon.c:211-256 io_poll_sockets -- [sel] is what select finds. *)
Definition io_poll_sockets (sel : select_res) : DP Z :=
  s ← pgets id;
  let m := md_merlin s in
  (if (sock (m_nodes m !!! IPC) <? 0) && (md_last_reinit s + 5 <? m_now m) then
     ipc_reinit_daemon ;; pmod (fun s => s <| md_last_reinit := m_now (md_merlin s) |>)
   else mret tt) ;;
  m ← pgets md_merlin;
  let listener := m_listen_sock m in
  let ipc := sock (m_nodes m !!! IPC) in
  if Z.max ipc listener <? 0 then mret 0 else
  match sel with
  | SelectFails => mret (-1)
  | Ready l i =>
      if (0 <? listener) && l then ipc_accept ;; mret 0
      else if (0 <? ipc) && i then ipc_reap_events ;; mret 0
      else mret 0
  end.

(** daemon/daemon.c:276-306 polling_loop -- the turns up to the signal that ends it, each with the time at which it begins. *)
Fixpoint polling_loop (turns : list (Z * select_res)) : DP unit :=
  match turns with
  | [] => mret tt
  | (now, sel) :: turns =>
      pmod (fun s => s <| md_merlin ::= fun m => m <| m_now := now |> |> <| md_sql ::= fun d => d <| sq_now := now |> |>) ;;
      nodes (node_log_event_count IPC false) ;;
      io_poll_sockets sel ;;
      database (sql_try_commit 0) ;;
      polling_loop turns
  end.

(** daemon/daemon.c:309-323 clean_exit -- the state that is left. *)
Definition clean_exit : DP unit := ipc_deinit_daemon ;; database sql_close ;; mret tt.
End Merlind.

(** ** The process id *)

(** daemon/daemonize.c:31-48 read_pid -- from the text of the file; the arithmetic is that of int. *)
Fixpoint read_digits (pid : Z) (s : text) : Z :=
  match s with
  | [] => pid
  | c :: s => if Ascii.eqb c NL then pid else read_digits (s32 (pid * 10 + (Z.of_N (N_of_ascii c) - 48))) s
  end.
Definition read_pid (pidfile : option text) : Z := match pidfile with None => 0 | Some s => read_digits 0 s end.

(** daemon/daemonize.c:54-65 write_pid -- the text of the file. *)
Definition write_pid (pid : Z) : text := dec pid ++ [NL].

(** What kill (pid, 0) says. *)
Inductive kill_res := Alive | NoProcess | NotPermitted.

(** daemon/daemonize.c:72-91 already_running -- the process id and the file that is left. *)
Definition already_running (kill : Z -> kill_res) (pidfile : option text) : Z * option text :=
  let pid := read_pid pidfile in
  if pid =? 0 then (0, pidfile) else
  match kill pid with NoProcess => (0, None) | Alive | NotPermitted => (pid, pidfile) end.

(** daemon/daemonize.c:141-156 kill_daemon -- the process that is signalled, and the file. *)
Definition kill_daemon (kill : Z -> kill_res) (pidfile : option text) : option Z * option text :=
  let '(pid, pidfile) := already_running kill pidfile in
  if pid =? 0 then (None, pidfile) else (Some pid, None).

(** daemon/daemonize.c:158-168 daemon_status *)
Definition daemon_status (kill : Z -> kill_res) (pidfile : option text) : Z := if (already_running kill pidfile).1 =? 0 then 3 else 0.

(** Users: name, uid and gid. *)
Record passwd := Passwd { pw_name : text; pw_uid : Z; pw_gid : Z }.

(** daemon/daemonize.c:93-107 get_user_entry -- the outer [None] is the end of the process. *)
Definition get_user_entry (db : list passwd) (user : option text) : option (option passwd) :=
  match user with
  | None | Some [] => Some None
  | Some u => match find (fun p => text_eqb (pw_name p) u) db with Some p => Some (Some p) | None => None end
  end.

(** daemon/daemonize.c:117-139 drop_privs -- whether setresgid and setresuid work; they set the real, the effective and the saved id. *)
Definition drop_privs (gid_ok uid_ok : bool) (pw : passwd) : Z :=
  if negb gid_ok then 0 else if negb uid_ok then 0 else
  let gid := pw_gid pw in let uid := pw_uid pw in
  if negb (gid =? pw_gid pw) || negb (gid =? pw_uid pw) then 0 else
  if negb (uid =? pw_uid pw) || negb (uid =? pw_uid pw) then 0 else uid.

(** How the parent and the child go on; what getpwent(3) returned is static and freed. *)
Inductive daemonized := ParentExits (code : Z) | ChildExits | ChildRuns | ChildUndefined.

(** daemon/daemonize.c:177-238 daemonize -- without a jail and without flags, as it is called: what becomes of the two processes, and
    the file.  [fork] is the new process id. *)
Definition daemonize (kill : Z -> kill_res) (users : list passwd) (gid_ok uid_ok : bool) (fork : Z) (can_write : bool)
    (runas : option text) (pidfile : option text) : list daemonized * option text :=
  let '(pid, pidfile) := already_running kill pidfile in
  if 0 <? pid then ([ParentExits 1], pidfile) else
  if fork <? 0 then ([ParentExits 1], pidfile) else
  let child := match get_user_entry users runas with
               | None => ChildExits
               | Some None => ChildRuns
               | Some (Some pw) => if drop_privs gid_ok uid_ok pw =? pw_uid pw then ChildUndefined else ChildExits
               end in
  if can_write then ([ParentExits 0; child], Some (write_pid fork)) else ([ParentExits 1; ChildExits], pidfile).

(** ** Starting *)

Section Start.
Context {QS : QSort} {CE : ConfigEnv}.

(** [pidfile] and [merlin_user]. *)
Definition daemon_files : Type := option text * option text.

(** daemon/daemon.c:53-83 grok_daemon_compound -- the variables. *)
Fixpoint grok_daemon_vars (vars : list cfg_var) (f : daemon_files) : CM daemon_files :=
  match vars with
  | [] => mret f
  | v :: vars =>
      let key := v_key v in
      if equals key "pidfile" then x ← value v; grok_daemon_vars vars (Some x, f.2)
      else if equals key "merlin_user" then x ← value v; grok_daemon_vars vars (f.1, Some x)
      else if equals key "import_program" then grok_daemon_vars vars f
      else
        common ← grok_common_var v;
        if common || log_grok_var key (v_value v) || equals key "port" || equals key "address" then grok_daemon_vars vars f else cfg_error
  end.

(** daemon/daemon.c:85-97 grok_daemon_compound -- a compound in it; the commands for synchronisation are the daemon's own. *)
Definition grok_daemon_nested (comp : cfg_comp) : CM unit :=
  if starts (c_name comp) "database" then grok_db_compound comp
  else if equals (c_name comp) "object_config" then
    match grok_confsync_compound comp with None => cfg_crash | Some cs => cmod (fun c => c <| cg_csync := cs |>) end
  else mret tt.

(** daemon/daemon.c:53-98 grok_daemon_compound *)
Definition grok_daemon_compound (comp : cfg_comp) (f : daemon_files) : CM daemon_files :=
  f ← grok_daemon_vars (c_vars comp) f; each grok_daemon_nested (c_nest comp) ;; mret f.

Fixpoint grok_daemon_comps (comps : list cfg_comp) (f : daemon_files) : CM daemon_files :=
  match comps with
  | [] => mret f
  | c :: comps => f ← (if starts (c_name c) "daemon" then grok_daemon_compound c f else mret f); grok_daemon_comps comps f
  end.

(** daemon/daemon.c:100-148 grok_config -- of the parsed file, [None] when there is none; [None] is 0. *)
Definition grok_config (killing : bool) (file : option cfg_comp) : CM (option daemon_files) :=
  match file with
  | None => mret None
  | Some config =>
      each (fun v => if bool_decide (v_value v = None) then cfg_error else grok_common_var v ;; mret tt) (c_vars config) ;;
      f ← grok_daemon_comps (c_nest config) (None, None);
      (if killing then mret tt else node_grok_config config) ;;
      mret (Some f)
  end.
End Start.

(** What the arguments ask for. *)
Record daemon_args := DaemonArgs { da_config : option text; da_killing : bool; da_debug : Z; da_status : bool }.
#[export] Instance eta_daemon_args : Eta daemon_args := fun r => DaemonArgs (da_config r) (da_killing r) (da_debug r) (da_status r).

(** daemon/daemon.c:353-397 merlind_main -- the arguments; [None] ends with the help text. *)
Fixpoint merlind_args (args : list text) (a : daemon_args) : option daemon_args :=
  match args with
  | [] => if bool_decide (da_config a = None) then None else Some a
  | arg :: rest =>
      match arg with
      | "-"%char :: _ =>
          if equals arg "-h" || equals arg "--help" then None
          else if equals arg "-k" || equals arg "--kill" then merlind_args rest (a <| da_killing := true |>)
          else if equals arg "-d" || equals arg "--debug" then merlind_args rest (a <| da_debug := da_debug a + 1 |>)
          else if equals arg "-s" then merlind_args rest (a <| da_status := true |>)
          else if negb (equals arg "--config" || equals arg "-c") then None
          else match rest with opt :: rest => merlind_args rest (a <| da_config := Some opt |>) | [] => None end
      | _ => if bool_decide (da_config a = None) then merlind_args rest (a <| da_config := Some arg |>) else None
      end
  end.

(** ** From the socket to the database *)

Section Records.
Context {QS : QSort} {SD : Sodium} {NC : NebCallbacks} {NT : NebTypes} (quote : text -> text) (conf : db_conf) (objver : Z) (decode : merlin_event -> option db_body).

(** The module's link: what is queued, in clear, over an open socket, and what is going to be read. *)
Definition link (b : list byte) (rs : list recv_res) (m : merlin) : Prop :=
  queue_is IPC b m /\ 0 < sock (m_nodes m !!! IPC) /\ m_recvs m = rs.

(** What of the link an assignment to other fields keeps. *)
Lemma link_on_ipc f b rs m : link b rs m -> (forall n, bq (f n) = bq n /\ encrypted (f n) = encrypted n /\ sock (f n) = sock n) ->
  link b rs (on_node IPC f m).2.
Proof.
  intros ([Hq He] & Hs & Hr) Hf. unfold link, queue_is. rewrite node_on_node, decide_True by done.
  destruct (Hf (m_nodes m !!! IPC)) as (-> & -> & ->). done.
Qed.

Definition keeps_link {A} (c : M A) : Prop := forall b rs m, link b rs m -> link b rs (c m).2.

Lemma keeps_link_bind {A B} (c : M A) (k : A -> M B) : keeps_link c -> (forall a, keeps_link (k a)) -> keeps_link (c ≫= k).
Proof. intros Hc Hk b rs m Hl. unfold mbind, ST_bind. pose proof (Hc b rs m Hl). destruct (c m) as [a m1]. by apply Hk. Qed.

Lemma log_event_count_link : keeps_link (node_log_event_count IPC false).
Proof.
  unfold node_log_event_count. do 2 (apply keeps_link_bind; [by intros b rs m Hl|intros ?]).
  intros b rs m Hl. case_match; [done|]. by apply link_on_ipc.
Qed.

Lemma set_state_link st : keeps_link (ipc_set_state st).
Proof.
  unfold ipc_set_state. apply keeps_link_bind; [by intros b rs m Hl|intros ipc]. case_match; [by intros b rs m Hl|].
  apply keeps_link_bind; [by intros b rs m Hl|intros now].
  apply keeps_link_bind; [intros b rs m Hl; case_match; [by apply link_on_ipc|done]|intros _].
  apply keeps_link_bind; [intros b rs m Hl; by apply link_on_ipc|intros _]. intros b rs m Hl. case_match; [by apply link_on_ipc|done].
Qed.

(** A packet that the daemon goes on after, and its rows. *)
Definition friendly (p : merlin_event) : Prop := h_type (hdr p) = CTRL_PACKET -> h_code (hdr p) = CTRL_ACTIVE -> node_compat_cmp objver p = 0.
Definition packet_rows (p : merlin_event) : list stmt :=
  if h_type (hdr p) =? CTRL_PACKET then [] else
  if daemon_wants (h_type (hdr p)) then match decode p with Some b => rows quote conf b | None => [] end else [].

Definition ready (b : list byte) (rs : list recv_res) (s : merlind) : Prop := link b rs (md_merlin s) /\ healthy (md_sql s).
Definition wrote (l : list stmt) (s s' : merlind) : Prop := sq_log (md_sql s') = rev l ++ sq_log (md_sql s).

Lemma handle_event_does wants body : does (handle_ipc_event quote conf wants body)
  (if wants then match body with Some UnknownData => -1 | _ => 0 end else 0)
  (if wants then match body with Some b => rows quote conf b | None => [] end else []).
Proof.
  intros s Hs. unfold handle_ipc_event, mbind at 1, DB_bind at 1, dgets. rewrite (hl_use s Hs). cbn [negb].
  destruct wants; cbn [negb]; [|by exists s]. destruct body as [b|].
  - destruct (update_does quote conf b s Hs) as (s' & E & H). exists s'. split; [|done]. rewrite E. by destruct b.
  - unfold mrm_db_update. destruct (connected_does s Hs) as (s' & E & H & L). exists s'. unfold mbind, DB_bind. by rewrite E.
Qed.

Lemma nodes_keeps (c : M unit) b rs s : keeps_link c -> ready b rs s ->
  exists s', nodes c s = Some (tt, s') /\ ready b rs s' /\ wrote [] s s'.
Proof.
  intros Hc [Hl Hh]. unfold nodes. pose proof (Hc b rs (md_merlin s) Hl) as H. destruct (c (md_merlin s)) as [[] m].
  by exists (s <| md_merlin := m |>).
Qed.

Lemma reap_one_ready p b rs s : friendly p -> ready b rs s ->
  exists s', reap_one quote conf objver decode p s = Some (tt, s') /\ ready b rs s' /\ wrote (packet_rows p) s s'.
Proof.
  intros Hf [Hl Hh]. unfold reap_one, packet_rows. destruct (Z.eqb_spec (h_type (hdr p)) CTRL_PACKET) as [Ht|Ht]; cbn [negb].
  - destruct (Z.eqb_spec (h_code (hdr p)) CTRL_ACTIVE) as [Ha|Ha].
    + rewrite (Hf Ht Ha), Z.eqb_refl. cbn [negb]. apply nodes_keeps; [|done]. apply keeps_link_bind; [apply set_state_link|intros _ b' rs' m Hm; by apply link_on_ipc].
    + case_match; [|by exists s]. apply nodes_keeps; [|done]. intros b' rs' m Hm. by apply link_on_ipc.
  - destruct (handle_event_does (daemon_wants (h_type (hdr p))) (decode p) (md_sql s) Hh) as (d & E & H & L).
    exists (s <| md_sql := d |>). unfold database, mbind, DP_bind. rewrite E. split_and!; [done|done|]. exact L.
Qed.

Lemma get_event_link p b rs m m' : link b rs m -> node_get_event IPC m = (Got p, m') -> forall b', queue_is IPC b' m' -> link b' rs m'.
Proof.
  intros ([Hq He] & Hs & Hr) E b' Hq'. split; [done|]. revert E. unfold node_get_event, get_node, gets, mbind, ST_bind, mret, ST_ret.
  case_match; [done|]. case_match; [done|]. case_match; [by destruct (node_disconnect IPC m)|].
  destruct (on_node IPC _ m) as [u m1] eqn:E1. case_match; [done|].
  assert (m1 = (on_node IPC (fun node => node <| stats ::= fun st => st <| ev_read ::= fun e => u64 (e + 1) |> |>
    <| bq := drop (Z.to_nat (HDR_SIZE +u h_len (hdr_of_bytes (bq (m_nodes m !!! IPC))))) (bq node) |>) m).2) as Em by (by rewrite E1).
  assert (encrypted (m_nodes m1 !!! IPC) = false /\ sock (m_nodes m1 !!! IPC) = sock (m_nodes m !!! IPC) /\ m_recvs m1 = m_recvs m) as (K1 & K2 & K3).
  { rewrite Em, node_on_node, decide_True by done. done. }
  unfold node_decrypt, get_node, gets, mbind, ST_bind, mret, ST_ret. rewrite K1. cbn [negb]. intros [= _ <-]. by rewrite K2, K3.
Qed.

Lemma wrote_app l1 l2 s1 s2 s3 : wrote l1 s1 s2 -> wrote l2 s2 s3 -> wrote (l1 ++ l2) s1 s3.
Proof. unfold wrote. intros E1 E2. by rewrite E2, E1, rev_app_distr, app_assoc. Qed.

Lemma reap_loop_stream ps : forall fuel s b more rs, ready b rs s -> Forall from_us ps -> Forall friendly ps -> b ++ more = stream ps ->
  (length b < fuel)%nat -> exists ps1 ps2 b' s', reap_loop quote conf objver decode fuel s = Some (tt, s') /\ ps = ps1 ++ ps2 /\
    ready b' rs s' /\ b' ++ more = stream ps2 /\ (more = [] -> ps2 = []) /\ wrote (flat_map packet_rows ps1) s s'.
Proof.
  induction ps as [|p ps IH]; intros fuel s b more rs Hr Hps Hfr Hb Hf; (destruct fuel as [|fuel]; [lia|]); cbn [reap_loop];
    pose proof (get_event_stream IPC (md_merlin s) b more _ (proj1 (proj1 Hr)) Hps Hb) as Hg; cbn beta iota in Hg;
    unfold mbind, DP_bind, nodes.
  - rewrite Hg. exists [], [], b, s. split_and!; try done. by destruct s.
  - destruct (length (pkt_bytes p) <=? length b)%nat eqn:E.
    + destruct Hg as (b' & m1 & Eg & Hq1 & -> & Hb1). rewrite Eg. apply Forall_cons in Hps as [[Hp Hs] Hps], Hfr as [Hfp Hfr].
      set (s1 := s <| md_merlin := m1 |>). assert (ready b' rs s1) as Hr1 by (split; [by eapply get_event_link; [apply Hr|exact Eg|done]|apply Hr]).
      destruct (reap_one_ready p b' rs s1 Hfp Hr1) as (s2 & E2 & Hr2 & W2). rewrite E2.
      pose proof (pkt_len_bounds p Hp). rewrite length_app in Hf.
      destruct (IH fuel s2 b' more rs Hr2 Hps Hfr Hb1) as (ps1 & ps2 & b2 & s3 & E3 & -> & H2 & H3 & H4 & W3); [lia|].
      exists (p :: ps1), ps2, b2, s3. split_and!; try done. cbn [flat_map]. eapply wrote_app; [|exact W3]. exact W2.
    + rewrite Hg. exists [], (p :: ps), b, s. split_and!; try done; [by destruct s|]. intros ->. exfalso. apply Nat.leb_gt in E.
      rewrite app_nil_r in Hb. subst b. cbn [stream map concat] in E. rewrite length_app in E. lia.
Qed.

Lemma node_recv_link b l rs m : link b (RecvData l :: rs) m -> l <> [] ->
  exists r m', node_recv IPC m = (r, m') /\ 0 <= r /\ link (b ++ l) rs m'.
Proof.
  intros ([Hq He] & Hs & Hr) Hl. unfold node_recv, get_node, gets, mbind, ST_bind. destruct (Z.ltb_spec (sock (m_nodes m !!! IPC)) 0) as [|_]; [lia|].
  unfold bq_read. rewrite Hr. destruct (on_node IPC _ _) as [u m1] eqn:E1.
  assert (link (b ++ l) rs m1) as Hl1.
  { replace m1 with ((u, m1).2) by done. rewrite <- E1. unfold link, queue_is. rewrite node_on_node, decide_True by done.
    split; [|split; [exact Hs|done]]. split; [|exact He]. change (bq (m_nodes m !!! IPC) ++ l = b ++ l). by rewrite Hq. }
  destruct (Z.ltb_spec 0 (Z.of_nat (length l))) as [|Hl0]; [|destruct l; [done|cbn in Hl0; lia]].
  unfold time_now, gets, mret, ST_ret. destruct (on_node IPC _ m1) as [u2 m2] eqn:E2. exists (Z.of_nat (length l)), m2.
  split; [done|]. split; [lia|]. replace m2 with ((u2, m2).2) by done. rewrite <- E2. by apply link_on_ipc.
Qed.

(** Reading what has come. *)
Lemma reap_events_stream ps s b l more rs : ready b (RecvData l :: rs) s -> l <> [] -> Forall from_us ps -> Forall friendly ps ->
  b ++ l ++ more = stream ps ->
  exists ps1 ps2 b' s', ipc_reap_events quote conf objver decode s = Some (0, s') /\ ps = ps1 ++ ps2 /\
    ready b' rs s' /\ b' ++ more = stream ps2 /\ (more = [] -> ps2 = []) /\ wrote (flat_map packet_rows ps1) s s'.
Proof.
  intros Hr Hl Hps Hfr Hb. unfold ipc_reap_events, mbind, DP_bind.
  destruct (nodes_keeps _ _ _ s log_event_count_link Hr) as (s1 & -> & [Hl1 Hh1] & W1).
  destruct (node_recv_link _ _ _ _ Hl1 Hl) as (r & m' & E & H0 & Hl2). unfold nodes at 1. rewrite E.
  destruct (Z.ltb_spec r 0) as [|_]; [lia|]. unfold nodes at 1, gets. cbn [length]. set (s2 := s1 <| md_merlin := m' |>).
  assert (ready (b ++ l) rs s2) as Hr2 by done.
  destruct (reap_loop_stream ps (S (length (b ++ l))) s2 (b ++ l) more rs Hr2 Hps Hfr) as (ps1 & ps2 & b' & s3 & E3 & Hps1 & H3 & H4 & H5 & W3);
    [by rewrite <- app_assoc|lia|].
  exists ps1, ps2, b', s3. destruct Hl2 as [[Hq _] _]. change (md_merlin s2) with m'. rewrite Hq.
  change (s2 <| md_merlin := m' |>) with s2. rewrite E3. split; [done|]. split; [done|]. split; [done|]. split; [done|]. split; [done|].
  exact (wrote_app [] _ s s2 s3 W1 W3).
Qed.

(** A turn of the main loop in which the module's socket can be read. *)
Lemma turn_stream ps now s b l more rs : ready b (RecvData l :: rs) s -> l <> [] -> Forall from_us ps -> Forall friendly ps ->
  b ++ l ++ more = stream ps ->
  exists ps1 ps2 b' s', (forall turns, polling_loop quote conf objver decode ((now, Ready false true) :: turns) s = polling_loop quote conf objver decode turns s') /\
    ps = ps1 ++ ps2 /\ ready b' rs s' /\ b' ++ more = stream ps2 /\ (more = [] -> ps2 = []) /\ wrote (flat_map packet_rows ps1) s s'.
Proof.
  intros Hr Hl Hps Hfr Hb. cbn [polling_loop]. unfold mbind, DP_bind, pmod at 1.
  match goal with |- context [nodes _ ?x] => set (s1 := x) end.
  assert (ready b (RecvData l :: rs) s1) as Hr1 by (destruct Hr as [Hl1 []]; split; [exact Hl1|by constructor]).
  destruct (nodes_keeps _ _ _ s1 log_event_count_link Hr1) as (s2 & -> & Hr2 & W2).
  destruct (reap_events_stream ps s2 b l more rs Hr2 Hl Hps Hfr Hb) as (ps1 & ps2 & b' & s3 & E3 & Hps1 & [Hl3 Hh3] & H4 & H5 & W3).
  assert (io_poll_sockets quote conf objver decode (Ready false true) s2 = Some (0, s3)) as ->.
  { unfold io_poll_sockets, mbind, DP_bind, pgets, id. destruct Hr2 as [(_ & Hs2 & _) _].
    destruct (Z.ltb_spec (sock (m_nodes (md_merlin s2) !!! IPC)) 0) as [|_]; [lia|]. cbn [andb]. unfold mret, DP_ret.
    destruct (Z.ltb_spec (Z.max (sock (m_nodes (md_merlin s2) !!! IPC)) (m_listen_sock (md_merlin s2))) 0) as [|_]; [lia|].
    rewrite andb_false_r. destruct (Z.ltb_spec 0 (sock (m_nodes (md_merlin s2) !!! IPC))) as [_|]; [|lia]. cbn [andb]. by rewrite E3. }
  destruct (commit_healthy 0 _ Hh3) as (d & E4 & H6 & L4 & _). unfold database. rewrite E4.
  exists ps1, ps2, b', (s3 <| md_sql := d |>). split; [done|]. split; [done|]. split; [done|]. split; [done|]. split; [done|].
  unfold wrote. change (sq_log d = rev (flat_map packet_rows ps1) ++ sq_log (md_sql s)). rewrite L4, W3. f_equal. exact W2.
Qed.

(** C25.  Every event that the module sends is recorded, end to end.  The module has sent any packets over its connection, which
    reach the daemon in any pieces, one for each turn of the main loop; none of them is the greeting of another version.  While the
    database answers, the daemon goes through all the turns, and has then written exactly the rows of those events that it wants,
    all of them, once each and in the order in which they were sent; nothing is left unread. *)
Theorem daemon_records (ps : list merlin_event) : forall (times : list Z) (chunks : list (list byte)) (s : merlind),
  Forall from_us ps -> Forall friendly ps -> length times = length chunks -> Forall (fun l => l <> []) chunks -> concat chunks = stream ps ->
  link [] (map RecvData chunks) (md_merlin s) -> healthy (md_sql s) ->
  exists s', polling_loop quote conf objver decode (map (fun now => (now, Ready false true)) times) s = Some (tt, s') /\
    sq_log (md_sql s') = rev (flat_map packet_rows ps) ++ sq_log (md_sql s) /\ link [] [] (md_merlin s') /\ healthy (md_sql s').
Proof.
  intros times chunks s Hps Hfr Hlen Hne Hc Hl Hh.
  assert (forall times chunks ps b s, Forall from_us ps -> Forall friendly ps -> length times = length chunks -> Forall (fun l => l <> []) chunks ->
    b ++ concat chunks = stream ps -> ready b (map RecvData chunks) s -> (chunks = [] -> ps = []) ->
    exists s', polling_loop quote conf objver decode (map (fun now => (now, Ready false true)) times) s = Some (tt, s') /\
      wrote (flat_map packet_rows ps) s s' /\ ready [] [] s') as G.
  { clear. induction times as [|now times IH]; intros [|l chunks] ps b s Hps Hfr Hlen Hne Hb Hr He; try done.
    - rewrite (He eq_refl) in *. cbn in Hb. rewrite app_nil_r in Hb. subst b. exists s. done.
    - apply Forall_cons in Hne as [Hl Hne]. injection Hlen as Hlen. cbn [map concat] in *.
      destruct (turn_stream ps now s b l (concat chunks) _ Hr Hl Hps Hfr Hb) as (ps1 & ps2 & b' & s1 & -> & -> & Hr1 & Hb1 & He1 & W1).
      apply Forall_app in Hps as [_ Hps], Hfr as [_ Hfr].
      destruct (IH chunks ps2 b' s1 Hps Hfr Hlen Hne Hb1 Hr1) as (s2 & E2 & W2 & H2); [by intros ->; apply He1|].
      exists s2. split; [done|]. split; [|done]. rewrite flat_map_app. by eapply wrote_app. }
  destruct (G times chunks ps [] s Hps Hfr Hlen Hne Hc (conj Hl Hh)) as (s' & E & W & [H1 H2]); [|by exists s'].
  intros ->. destruct ps as [|p ps]; [done|]. exfalso. apply Forall_cons in Hps as [[Hp _] _]. pose proof (pkt_len_bounds p Hp).
  apply (f_equal length) in Hc. cbn [stream map concat length] in Hc. rewrite length_app in Hc. lia.
Qed.
End Records.

(** ** The process *)

Lemma read_digits_value l : forall acc rest, Forall (fun c => isdigit c = true) l -> 0 <= acc ->
  foldl (fun a c => a * 10 + digit_value c) acc l < 2 ^ 31 ->
  read_digits acc (l ++ NL :: rest) = foldl (fun a c => a * 10 + digit_value c) acc l.
Proof.
  induction l as [|c l IH]; intros acc rest Hd Ha Hb; [done|]. apply Forall_cons in Hd as [Hc Hd]. cbn [app foldl read_digits] in *.
  assert (digit_value c = Z.of_N (N_of_ascii c) - 48 /\ 0 <= digit_value c /\ c <> NL) as (E & H0 & Hn).
  { clear -Hc. destruct c as [[] [] [] [] [] [] [] []]; (done || by vm_compute). }
  rewrite (proj2 (Ascii.eqb_neq c NL) Hn). rewrite <- E.
  assert (acc * 10 + digit_value c <= foldl (fun a c => a * 10 + digit_value c) (acc * 10 + digit_value c) l) as Hm.
  { assert (0 <= acc * 10 + digit_value c) as H1 by lia. revert H1. generalize (acc * 10 + digit_value c). clear -Hd. induction Hd as [|c l Hc _ IH]; intros a Ha; cbn [foldl]; [lia|].
    assert (0 <= digit_value c) by (clear -Hc; destruct c as [[] [] [] [] [] [] [] []]; (done || by vm_compute)). specialize (IH (a * 10 + digit_value c)). lia. }
  rewrite s32_small by lia. apply IH; [done|lia|done].
Qed.

(** The process id that is written to the file is the one that is read back, for every process id that there is. *)
Theorem pid_roundtrip pid : 0 <= pid < 2 ^ 31 -> read_pid (Some (write_pid pid)) = pid.
Proof.
  intros Hp. destruct (dec_spec pid ltac:(lia)) as (Hv & Hd & _). unfold read_pid, write_pid. unfold digits_value in Hv.
  rewrite read_digits_value; [done|done|lia|lia].
Qed.

(** After a start a second start is refused, a status request says that the daemon runs, and a request to end it signals the process
    that was started and takes its file away; when the process has died meanwhile, the next start goes through. *)
Theorem daemon_single kill users gid_ok uid_ok fork runas pidfile : 0 < fork < 2 ^ 31 ->
  let '(procs, pidfile) := daemonize kill users gid_ok uid_ok fork true runas pidfile in
  In (ParentExits 0) procs ->
  read_pid pidfile = fork /\
  match kill fork with
  | NoProcess => already_running kill pidfile = (0, None)
  | _ => (forall g u f w, daemonize kill users g u f w runas pidfile = ([ParentExits 1], pidfile)) /\
         daemon_status kill pidfile = 0 /\ kill_daemon kill pidfile = (Some fork, None)
  end.
Proof.
  intros Hf. unfold daemonize at 1. destruct (already_running kill pidfile) as [pid pf] eqn:E.
  destruct (Z.ltb_spec 0 pid); [by intros [|[]]|]. destruct (Z.ltb_spec fork 0); [lia|]. intros _.
  assert (read_pid (Some (write_pid fork)) = fork) as Hr by (apply pid_roundtrip; lia).
  split; [done|]. unfold daemonize, daemon_status, kill_daemon, already_running. rewrite Hr.
  rewrite (proj2 (Z.eqb_neq fork 0)) by lia. assert ((0 <? fork) = true) as Hp by (apply Z.ltb_lt; lia).
  assert ((fork =? 0) = false) as Hz by (apply Z.eqb_neq; lia).
  destruct (kill fork); [|done|]; (split; [intros; by rewrite Hp|]; split; cbn [fst]; by rewrite Hz).
Qed.

(** A user is taken on only when the number of the user and that of the group are the same, or when it is root: the real group is
    compared with the number of the user. *)
Theorem drop_privs_same_ids gid_ok uid_ok pw :
  drop_privs gid_ok uid_ok pw = pw_uid pw <-> pw_uid pw = 0 \/ (gid_ok = true /\ uid_ok = true /\ pw_gid pw = pw_uid pw).
Proof.
  unfold drop_privs. rewrite Z.eqb_refl. cbn [negb orb]. destruct gid_ok; cbn [negb]; [|intuition congruence].
  destruct uid_ok; cbn [negb]; [|intuition congruence]. destruct (Z.eqb_spec (pw_gid pw) (pw_uid pw)); cbn [negb]; [|intuition congruence].
  rewrite Z.eqb_refl. intuition congruence.
Qed.

Example users_of_other_groups_refused :
  (daemonize (fun _ => NoProcess) [Passwd (str "monitor") 300 500] true true 4711 true (Some (str "monitor")) None).1 = [ParentExits 0; ChildExits].
Proof. vm_compute. reflexivity. Qed.

(** ** An example *)

#[local] Existing Instances QSort_insertion plain_sodium naemon_callbacks.

Definition demo_stream : list byte := stream [demo_event 3; demo_event 0; demo_event 9].
Definition demo_chunks : list (list byte) := [take 100 demo_stream; take 200 (drop 100 demo_stream); drop 300 demo_stream].

(** The module is connected on 5, and what it sends arrives in three pieces. *)
Definition demo_daemon : merlind :=
  Merlind ((on_node IPC (fun n => n <| sock := 5 |> <| bq := [] |> <| encrypted := false |>) demo3).2 <| m_recvs := map RecvData demo_chunks |>)
    (demo_sql 3) 0 [] [] true.

Lemma daemon_records_witness : let ps := [demo_event 3; demo_event 0; demo_event 9] in let dec := fun _ => Some (HostStatus true demo_status) in
  exists s', polling_loop demo_quote demo_conf 0 dec (map (fun now => (now, Ready false true)) [100; 101; 102]) demo_daemon = Some (tt, s') /\
    sq_log (md_sql s') = rev (flat_map (packet_rows demo_quote demo_conf dec) ps) ++ sq_log (md_sql demo_daemon) /\
    link [] [] (md_merlin s') /\ healthy (md_sql s').
Proof.
  intros ps dec. apply (daemon_records demo_quote demo_conf 0 dec ps [100; 101; 102] demo_chunks demo_daemon).
  - repeat constructor; try (apply demo_event_wf; lia).
  - by repeat constructor.
  - reflexivity.
  - by repeat constructor.
  - vm_compute. reflexivity.
  - split; [split; vm_compute; reflexivity|]. split; [vm_compute; reflexivity|reflexivity].
  - by constructor.
Defined.

(** A module that connects again is read from where the connection that it replaces was broken off: the bytes of half a packet stay
    in the queue, the signature is then not found where it is looked for, and the new connection is closed. *)
Theorem leftover_breaks_connection :
  exists s s', ipc_accept ((demo_daemon <| md_merlin ::= fun m => (on_node IPC (fun n => n <| bq := take 100 demo_stream |>) m).2
      <| m_recvs := [RecvData demo_stream] |> |>) <| md_accepts := [6] |>) = Some (6, s) /\ sock (m_nodes (md_merlin s) !!! IPC) = 6 /\
    ipc_reap_events demo_quote demo_conf 0 (fun _ => None) s = Some (0, s') /\ sock (m_nodes (md_merlin s') !!! IPC) = -1 /\
    sq_log (md_sql s') = sq_log (md_sql s).
Proof. do 2 eexists. split; [vm_compute; reflexivity|]. split; [vm_compute; reflexivity|]. split; [vm_compute; reflexivity|]. split; vm_compute; reflexivity. Qed.

(** The form with an equals sign, which the loop looks for, is then not known. *)
Example config_option_forms : let none := DaemonArgs None false 0 false in
  merlind_args [str "--config"; str "/etc/merlin.conf"] none = Some (none <| da_config := Some (str "/etc/merlin.conf") |>) /\
  merlind_args [str "--config=/etc/merlin.conf"] none = None.
Proof. split; vm_compute; reflexivity. Qed.
