(* ===== verification/Schema.v ===== *)
(** * The tables: sql/mysql/merlin.sql, sql/update-db-2to3.sql

    The tables that the daemon ([Daemon]) and the import of log files ([Import]) write to, and a check that a row fits its table: its
    columns are columns of the table, none is given twice, a number goes where a number is kept and a text where a text is, NULL only
    where it may be, and no column without a default is missing.  Every row that the daemon writes fits, whatever the events and whatever the
    database answers, but for performance data that comes without the name of a host; so does every row of an import. *)

From S2P Require Import Prelude Binlog Packet Io Merlin Pgroup Node Control Checks Hooks Commands Objects Cfgfile Config Misc Shared Sql Daemon Lparse Logutils Import.
#[local] Open Scope Z_scope.

(** ** Tables *)

Inductive col_type := CInt | CText.

(** A column; [col_null] that it may be NULL, [col_default] that it may be left out. *)
Record column := Column { col_name : string; col_kind : col_type; col_null : bool; col_default : bool }.

Definition num (name : string) : column := Column name CInt true true.
Definition chars (name : string) : column := Column name CText true true.

(** sql/update-db-2to3.sql:1-19 report_data_tmp -- report_data of version 3. *)
Definition report_data : list column :=
  [Column "id" CInt false true; Column "timestamp" CInt false true; Column "event_type" CInt false true; num "flags"; num "attrib";
   chars "host_name"; chars "service_description"; Column "state" CInt false true; Column "hard" CInt false true;
   Column "retry" CInt false true; num "downtime_depth"; chars "output"; chars "long_output"]%string.

(** sql/mysql/merlin.sql:103-120 notification *)
Definition notification : list column :=
  [Column "instance_id" CInt false true; Column "id" CInt false true; num "notification_type"; num "start_time"; num "end_time";
   chars "contact_name"; chars "host_name"; chars "service_description"; chars "command_name"; num "reason_type"; num "state";
   chars "output"; chars "ack_author"; chars "ack_data"; num "escalated"; num "contacts_notified"]%string.

(** sql/mysql/merlin.sql:148-153 perfdata *)
Definition perfdata : list column :=
  [Column "timestamp" CInt false false; Column "host_name" CText false false; chars "service_description";
   Column "perfdata" CText false false]%string.

(** ** Rows that fit *)

Definition column_of (cols : list column) (name : string) : option column := find (fun c => String.eqb (col_name c) name) cols.

Definition value_fits (c : column) (v : sql_value) : bool :=
  match col_kind c, v with
  | CInt, VNum _ => true
  | CText, VText (Some _) => true
  | CText, VText None => col_null c
  | _, _ => false
  end.

Definition row_fits (cols : list column) (row : list (string * sql_value)) : bool :=
  forallb (fun '(name, v) => match column_of cols name with Some c => value_fits c v | None => false end) row &&
  bool_decide (NoDup (map fst row)) &&
  forallb (fun c => col_default c || existsb (fun '(name, _) => String.eqb (col_name c) name) row) cols.

(** A statement on the database with the given tables; statements other than INSERT are not looked at. *)
Definition stmt_fits (tables : text -> option (list column)) (q : stmt) : bool :=
  match q with
  | Insert table row => match tables table with Some cols => row_fits cols row | None => false end
  | Other _ => true
  end.

Lemma Forall_sublist {A} (P : A -> Prop) l k : k `sublist_of` l -> Forall P l -> Forall P k.
Proof. rewrite !Forall_forall. intros Hs Hl x Hx. apply Hl. eapply elem_of_submseteq; [exact Hx|by apply sublist_submseteq]. Qed.

(** ** The daemon *)

Section Rows.
Context {NT : NebTypes} (quote : text -> text) (conf : db_conf) (tables : text -> option (list column)).

(** The tables that the configuration names are there. *)
Record installed : Prop := Installed {
  in_reports : tables (sql_table_name conf) = Some report_data;
  in_notification : tables (str "notification") = Some notification;
  in_host_perf : forall t, host_perf_table conf = Some t -> tables t = Some perfdata;
  in_service_perf : forall t, service_perf_table conf = Some t -> tables t = Some perfdata }.

(** A status whose host has no name. *)
Definition nameless (b : db_body) : Prop :=
  match b with HostStatus _ p | ServiceStatus _ p => st_name p = None \/ st_name p = Some [] | _ => False end.

(** The table of performance data, if it took data of no host. *)
Definition perfdata_of_any : list column :=
  map (fun c => if String.eqb (col_name c) "host_name" then Column "host_name" CText true (col_default c) else c) perfdata.

(** A row of performance data that only lacks the host, for a status that came without one. *)
Definition lacks_host (b : db_body) (q : stmt) : Prop :=
  nameless b /\ exists t row, q = Insert t row /\ tables t = Some perfdata /\ row_fits perfdata_of_any row = true /\
    ("host_name"%string, VText None) ∈ row.

Definition fits_for (b : db_body) (q : stmt) : Prop := stmt_fits tables q = true \/ lacks_host b q.

Hypothesis tables_ok : installed.

Lemma report_fits b b' type time cols : row_fits report_data (("timestamp"%string, VNum time) :: ("event_type"%string, VNum type) :: cols) = true ->
  Forall (fits_for b') (report conf b type time cols).
Proof. intros Hr. unfold report. destruct (_ && _); constructor; [|constructor]. left. cbn [stmt_fits]. by rewrite (in_reports tables_ok). Qed.

Lemma quoted_cases src : quoted quote src = VText None \/ exists t, quoted quote src = VText (Some t).
Proof. unfold quoted, quoted_text. destruct src as [[|c t]|]; eauto. Qed.

(** Every text is NULL or not. *)
Ltac texts := repeat match goal with |- context [quoted quote ?x] => destruct (quoted_cases x) as [->|[? ->]] end.

Lemma perf_log_text check tab p t : perf_log check tab p = Some t ->
  tab = Some t /\ exists x, quoted quote (str <$> s_perf_data (st_state p)) = VText (Some x).
Proof.
  unfold perf_log. destruct check; [|done]. destruct (s_perf_data (st_state p)) as [[|c x]|]; try done. intros ->. split; [done|]. by eexists.
Qed.

Lemma name_cases (p : merlin_status) : (st_name p = None \/ st_name p = Some []) \/ exists c t, st_name p = Some (c :: t).
Proof. destruct (st_name p) as [[|c t]|]; eauto. Qed.

Lemma status_fits service check p b : (st_name p = None \/ st_name p = Some [] -> nameless b) ->
  Forall (fits_for b) (status_rows quote conf service check p).
Proof.
  intros Hb. unfold status_rows, names. apply Forall_app. split.
  - destruct (rpt_log conf check p); constructor; [|constructor]. left. cbn [stmt_fits]. rewrite (in_reports tables_ok). unfold status_columns. destruct service; texts; reflexivity.
  - destruct (perf_log _ _ p) as [tab|] eqn:E; constructor; [|constructor]. apply perf_log_text in E as [E [x ->]].
    assert (tables tab = Some perfdata) as Ht by (destruct service; [by apply (in_service_perf tables_ok)|by apply (in_host_perf tables_ok)]).
    destruct (name_cases p) as [Hn|(c & t & Hn)].
    + right. split; [auto|]. exists tab. eexists. split; [reflexivity|]. split; [done|].
      assert (quoted quote (st_name p) = VText None) as -> by (destruct Hn as [-> | ->]; reflexivity).
      split; [destruct service; texts; reflexivity|]. destruct service; set_solver.
    + left. cbn [stmt_fits]. rewrite Ht, Hn. change (quoted quote (Some (c :: t))) with (VText (Some (quote (c :: t)))). destruct service; texts; reflexivity.
Qed.

Lemma rows_fit b : Forall (fits_for b) (rows quote conf b).
Proof.
  destruct b as [type time| |type time host desc|type time host desc|p|check p|check p|]; cbn [rows]; try constructor.
  - destruct (process_type type); [|constructor]. by apply report_fits.
  - apply report_fits. unfold names. destruct (bool_decide (is_Some desc)); texts; reflexivity.
  - apply report_fits. unfold names. destruct desc as [[|? ?]|]; texts; reflexivity.
  - destruct (db_log_notifications conf); constructor; [|constructor]. left. cbn [stmt_fits]. rewrite (in_notification tables_ok). texts; reflexivity.
  - by apply status_fits.
  - by apply status_fits.
Qed.

End Rows.

(** ** The import *)

(** A computation runs only statements with [ok], and gives a value with [Q]. *)
Definition writes (ok : stmt -> Prop) {A} (c : IM A) (Q : A -> Prop) : Prop :=
  forall s a s', c s = Some (a, s') -> Q a /\ exists k, sq_log (im_sql s') = k ++ sq_log (im_sql s) /\ Forall ok k.

Section Writes.
Context (ok : stmt -> Prop).

Lemma writes_quiet {A} (c : IM A) (Q : A -> Prop) : (forall s a s', c s = Some (a, s') -> Q a /\ sq_log (im_sql s') = sq_log (im_sql s)) -> writes ok c Q.
Proof. intros Hc s a s' E. destruct (Hc s a s' E) as [HQ L]. split; [done|]. by exists []. Qed.

Lemma writes_bind {A B} (c : IM A) (k : A -> IM B) P Q : writes ok c P -> (forall a, P a -> writes ok (k a) Q) -> writes ok (c ≫= k) Q.
Proof.
  intros Hc Hk s b s'. unfold mbind, IM_bind. destruct (c s) as [[a s1]|] eqn:E; [|done]. intros E2.
  destruct (Hc s a s1 E) as [Pa (k1 & L1 & O1)], (Hk a Pa s1 b s' E2) as [Qb (k2 & L2 & O2)].
  split; [done|]. exists (k2 ++ k1). rewrite L2, L1, app_assoc. split; [done|]. by apply Forall_app.
Qed.

Lemma writes_ret {A} (a : A) (Q : A -> Prop) : Q a -> writes ok (mret a) Q.
Proof. intros HQ. apply writes_quiet. by intros s b s' [= <- <-]. Qed.

Lemma writes_gets {A} (f : import -> A) : writes ok (igets f) any.
Proof. apply writes_quiet. by intros s b s' [= <- <-]. Qed.

Lemma writes_imod f : (forall s, im_sql (f s) = im_sql s) -> writes ok (imod f) any.
Proof. intros Hf. apply writes_quiet. intros s b s' [= <- <-]. by rewrite Hf. Qed.

Lemma writes_crash {A} (Q : A -> Prop) : writes ok lp_crash Q.
Proof. by intros s a s'. Qed.

Lemma writes_need {A} (o : option A) : writes ok (need o) any.
Proof. destruct o; [by apply writes_ret|apply writes_crash]. Qed.

(** What a computation runs at its time it runs. *)
Lemma writes_frames {A} (c : IM A) Q : (forall t, frames t ok c Q) -> writes ok c Q.
Proof. intros Hc s a s' E. destruct (Hc (im_ltime s) s a s' eq_refl E) as [HQ (k & F & O)]. split; [done|]. exists k. split; [apply F|done]. Qed.
End Writes.

Create HintDb writes discriminated.
#[export] Hint Constants Opaque : writes.

(** Goes through a computation. *)
Ltac writing := repeat lazymatch goal with
  | |- writes _ (mret _) _ => apply writes_ret; done
  | |- writes _ lp_crash _ => apply writes_crash
  | |- writes _ (need _) _ => apply writes_need
  | |- writes _ (igets _) _ => apply writes_gets
  | |- writes _ (imod _) _ => apply writes_imod; by intros ?
  | |- writes _ (sql (sql_quote _ _)) _ => apply writes_frames; intros ?; apply frames_calm, quote_calm
  | |- writes _ (sql (sql_vquery _)) _ => apply writes_frames; intros ?; apply frames_vquery
  | |- writes _ (_ ≫= _) _ => eapply (writes_bind _ _ _ any); [|intros ? _]
  | |- writes _ (if ?b then _ else _) _ => destruct b
  | |- writes _ (match ?x with _ => _ end) _ => destruct x
  | |- writes _ (let _ := _ in _) _ => cbv zeta
  | |- _ => solve [eauto 2 with writes]
  end.

Section Lines.
Context {NT : NebTypes} {LC : LogCodes} (quote : text -> text) (conf : import_conf) (tables : text -> option (list column)).
Hypothesis table_ok : tables (ic_table conf) = Some (if ic_only_notifications conf then notification else report_data).

Abbreviation fits := (fun q => stmt_fits tables q = true).

Lemma other_fits x : stmt_fits tables (Other x) = true.
Proof. done. Qed.
#[local] Hint Resolve other_fits : writes.

(** Rows of reports are written only when reports are imported. *)
Lemma report_row_fits t type cols : ic_only_notifications conf = false ->
  row_fits report_data (("timestamp"%string, VNum t) :: ("event_type"%string, VNum type) :: cols) = true -> stmt_fits tables (at_ltime conf t type cols) = true.
Proof. intros Hn Hr. unfold at_ltime, stmt_fits. by rewrite table_ok, Hn. Qed.

Lemma no_rows_reports : writes fits (no_rows conf) (fun no => no = false -> ic_only_notifications conf = false).
Proof.
  unfold no_rows. eapply (writes_bind _ _ _ any); [writing|intros use _]. apply writes_ret. intros H. by apply orb_false_iff in H as [_ ?].
Qed.

Lemma disable_fits : writes fits (disable_indexes conf) any.
Proof. unfold disable_indexes. writing. Qed.

Lemma repair_fits table : writes fits (sql (sql_repair_table table)) any.
Proof.
  apply writes_frames. intros t. unfold sql_repair_table. apply frames_sql_bind. eapply frames_bind; [apply frames_calm, calm_gets|intros b _].
  destruct (negb b); [apply frames_calm, calm_ret|]. apply frames_sql_bind. eapply frames_bind; [by apply frames_vquery|intros r _].
  apply frames_calm, calm_bind; [|intros; apply calm_ret]. destruct (r =? 0); [|apply calm_ret].
  intros d a d' [= <- <-]. split_and!; [done..|]. intros []. by constructor.
Qed.
#[local] Hint Resolve disable_fits repair_fits : writes.

Lemma result_fits n t : writes fits (handle_sql_result conf n t) any.
Proof. unfold handle_sql_result. writing. Qed.

Lemma unknown_fits line : writes fits (unknown line) any.
Proof. unfold unknown. writing. Qed.
#[local] Hint Resolve result_fits unknown_fits : writes.

(** Behind the test whether there is anything to write. *)
Ltac reporting := eapply writes_bind; [apply no_rows_reports|intros [] Hno; [writing|specialize (Hno eq_refl)]].
Ltac rows_of_reports := apply report_row_fits; [done|repeat match goal with t : option text |- _ => destruct t end; reflexivity].

Lemma host_result_fits type host st ty n out : ic_only_notifications conf = false -> writes fits (insert_host_result quote conf type host st ty n out) any.
Proof. intros Hno. unfold insert_host_result. writing. rows_of_reports. Qed.

Lemma service_result_fits type host d st ty n out : ic_only_notifications conf = false -> writes fits (insert_service_result quote conf type host d st ty n out) any.
Proof. intros Hno. unfold insert_service_result. writing. rows_of_reports. Qed.

Lemma downtime_fits type host d : writes fits (insert_downtime_event quote conf type host d) any.
Proof. unfold insert_downtime_event. destruct (negb _); [writing|]. reporting. unfold sql_insert_downtime. writing; rows_of_reports. Qed.

Lemma process_fits type : writes fits (insert_process_event conf type) any.
Proof. unfold insert_process_event. reporting. unfold insert_process_data. writing; rows_of_reports. Qed.

Lemma notification_fits sc v : writes fits (insert_notification quote conf sc v) any.
Proof.
  unfold insert_notification. destruct (ic_only_notifications conf) eqn:Hno; cbn [negb]; writing.
  all: cbn [stmt_fits]; rewrite table_ok, ?Hno; repeat match goal with t : option text |- _ => destruct t end; reflexivity.
Qed.
#[local] Hint Resolve downtime_fits process_fits notification_fits : writes.

Lemma service_check_fits sc v : writes fits (insert_service_check quote conf sc v) any.
Proof.
  unfold insert_service_check. destruct (negb _); [writing|]. eapply (writes_bind _ _ _ any); [writing|intros [[[st ty] n] out] _].
  reporting. eapply (writes_bind _ _ _ any); [writing|intros _ _]. by apply service_result_fits.
Qed.

Lemma host_check_fits sc v : writes fits (insert_host_check quote conf sc v) any.
Proof.
  unfold insert_host_check. destruct (negb _); [writing|]. eapply (writes_bind _ _ _ any); [writing|intros [[[st ty] n] out] _].
  reporting. eapply (writes_bind _ _ _ any); [writing|intros _ _]. by apply host_result_fits.
Qed.
#[local] Hint Resolve service_check_fits host_check_fits : writes.

Lemma stop_fits : writes fits (handle_stop_event conf) any.
Proof. unfold handle_stop_event. writing. Qed.
Lemma start_fits : writes fits (handle_start_event conf) any.
Proof. unfold handle_start_event. writing. Qed.
#[local] Hint Resolve stop_fits start_fits : writes.

Lemma dispatch_fits sc ptr v : writes fits (dispatch quote conf sc ptr v) any.
Proof. unfold dispatch, external_command, insert_downtime, warn. writing. Qed.
#[local] Hint Resolve dispatch_fits : writes.

Lemma message_fits line ptr : writes fits (parse_message quote conf line ptr) any.
Proof. unfold parse_message, parse_event, ensure_running, warn. writing. Qed.
#[local] Hint Resolve message_fits : writes.

Lemma line_fits line : writes fits (parse_line quote conf line) any.
Proof.
  unfold parse_line, show_progress, set_time, warn. writing.
  all: apply writes_imod; intros s; by destruct (_ <? _).
Qed.

Lemma lines_fit l : writes fits (parse_lines quote conf l) any.
Proof.
  induction l as [|x l IH]; cbn [parse_lines]; [writing|].
  eapply (writes_bind _ _ _ any); [|done]. unfold parse_one_line. eapply (writes_bind _ _ _ any); [apply line_fits|intros r _].
  eapply (writes_bind _ _ _ any); [writing|intros u _]. eapply (writes_bind _ _ _ any); [|intros e _; writing].
  apply writes_quiet. by intros ? ? ? [= <- <-].
Qed.

Lemma files_fit l : writes fits (import_files quote conf l) any.
Proof.
  induction l as [|[f c] l IH]; cbn [import_files]; [writing|]. eapply (writes_bind _ _ _ any); [|done]. unfold import_file, show_progress. writing. apply lines_fit.
Qed.

Lemma close_quiet : writes fits (sql sql_close) any.
Proof.
  apply writes_quiet. intros s a s'. unfold sql, sql_close, mbind, DB_bind, dgets. destruct (use_database (im_sql s)); cbn; [|by intros [= <- <-]].
  destruct (sq_conn (im_sql s)); cbn; by intros [= <- <-].
Qed.

Lemma finish_fits now : writes fits (finish conf now) any.
Proof.
  unfold finish, insert_extras, enable_indexes, show_progress. writing; [|apply close_quiet]. apply writes_quiet. by intros ? ? ? [= <- <-].
Qed.
End Lines.

(** ** An example *)

Definition demo_tables (t : text) : option (list column) :=
  if equals t "report_data" then Some report_data else if equals t "notification" then Some notification
  else if equals t "perf" then Some perfdata else None.

Lemma demo_installed : installed demo_conf demo_tables.
Proof. constructor; [vm_compute; reflexivity|vm_compute; reflexivity|intros t [= <-]; vm_compute; reflexivity|done]. Qed.

Definition demo_stored : sqldb :=
  default (demo_sql 3) (snd <$> handle_ipc_event demo_quote demo_conf true (Some (HostStatus true demo_status)) (demo_sql 3)).


(** Performance data of no host: the statement asks for NULL in a column that does not take it. *)
Theorem perfdata_without_host : exists s, handle_ipc_event demo_quote demo_conf true (Some (HostStatus true (Status (st_nebattr demo_status) (st_state demo_status) None None))) (demo_sql 3) = Some (0, s) /\
  map (stmt_fits demo_tables) (sq_log s) = [false; true].
Proof. eexists. split; vm_compute; reflexivity. Qed.

(** The check is no formality: a text for a time, an unknown column, a column twice and performance data of no host do not fit. *)
Example misfits :
  row_fits report_data [("timestamp", VText (Some (str "'now'")))]%string = false /\
  row_fits report_data [("time", VNum 1)]%string = false /\
  row_fits report_data [("state", VNum 1); ("state", VNum 1)]%string = false /\
  row_fits perfdata [("timestamp", VNum 1); ("host_name", VText None); ("perfdata", VText (Some (str "'t=1'")))]%string = false /\
  row_fits perfdata [("timestamp", VNum 1); ("perfdata", VText (Some (str "'t=1'")))]%string = false.
Proof. repeat split; vm_compute; reflexivity. Qed.
