(* ===== verification/Dbwrap.v ===== *)
(** * The wrapper of the database: daemon/db_wrap.c, daemon/db_wrap_dbi.c

    The daemon and the tools reach a database through objects of their own, for a connection and for a result, which hold a handle
    of libdbi each.  libdbi is the class [Dbi]; its state is opaque.  The objects are in a heap: an object that is not in it any
    more was freed, and using it gives [None].  A connection that was cleaned up, or whose handle was taken out, has no handle. *)

From Stdlib Require Import QArith.
From S2P Require Import Prelude Cfgfile Config Misc Shared.
#[local] Open Scope Z_scope.

(** ** libdbi *)

(** The functions that read a number. *)
Inductive int_getter := UChar | Char | UShort | Short | UInt | Int | ULongLong | LongLong.

Class Dbi := {
  dstate : Type;
  dbi_initialize : dstate -> Z * dstate;
  dbi_conn_new : text -> dstate -> option nat * dstate;
  dbi_conn_connect : nat -> dstate -> Z * dstate;
  dbi_conn_close : nat -> dstate -> dstate;
  dbi_conn_query : nat -> text -> dstate -> option nat * dstate;
  dbi_conn_error : nat -> dstate -> Z * option text;
  dbi_conn_quote_string_copy : nat -> text -> dstate -> Z * option text;
  dbi_conn_set_option : nat -> text -> option text -> dstate -> Z * dstate;
  dbi_conn_set_option_numeric : nat -> text -> Z -> dstate -> Z * dstate;
  dbi_conn_get_option : nat -> text -> dstate -> option text;
  dbi_conn_get_option_numeric : nat -> text -> dstate -> Z;
  dbi_result_next_row : nat -> dstate -> bool * dstate;
  dbi_result_get_field_attrib : nat -> Z -> dstate -> Z;
  dbi_result_get_int : int_getter -> nat -> Z -> dstate -> Z;
  dbi_result_get_real : bool -> nat -> Z -> dstate -> Q;
  dbi_result_get_string : nat -> Z -> dstate -> option text;
  dbi_result_get_numrows : nat -> dstate -> Z;
  dbi_result_free : nat -> dstate -> dstate;
  DBI_ATTRIBUTE_ERROR : Z; DBI_DECIMAL_UNSIGNED : Z;
  DBI_INTEGER_SIZE1 : Z; DBI_INTEGER_SIZE2 : Z; DBI_INTEGER_SIZE4 : Z; DBI_INTEGER_SIZE8 : Z;
  DBI_DECIMAL_SIZE4 : Z; DBI_DECIMAL_SIZE8 : Z }.

(** ** Objects *)

(** daemon/db_wrap.h:9-46 db_wrap_constants *)
Definition DB_WRAP_E_DONE : Z := 1.
Definition DB_WRAP_E_BAD_ARG : Z := 2.
Definition DB_WRAP_E_UNKNOWN_ERROR : Z := 5.
Definition DB_WRAP_E_CHECK_DB_ERROR : Z := 6.
Definition DB_WRAP_E_UNSUPPORTED : Z := 7.

Section Wrap.
Context {D : Dbi}.

(** Connections and results by address, [None] without a handle; [w_done] is [doneit] of dbiw_dbi_init. *)
Record dbw := Dbw { w_dbi : dstate; w_done : bool; w_conns : gmap nat (option nat); w_results : gmap nat (option nat) }.
#[export] Instance eta_dbw : Eta dbw := fun r => Dbw (w_dbi r) (w_done r) (w_conns r) (w_results r).

Definition DW (A : Type) : Type := dbw -> option (A * dbw).
#[export] Instance DW_ret : MRet DW := fun A a s => Some (a, s).
#[export] Instance DW_bind : MBind DW := fun A B k c s => match c s with Some (a, s) => k a s | None => None end.
Definition wgets {A} (f : dbw -> A) : DW A := fun s => Some (f s, s).
Definition wmod (f : dbw -> dbw) : DW unit := fun s => Some (tt, f s).
Definition undefined {A} : DW A := fun _ => None.

(** A call of libdbi, with or without a change of its state. *)
Definition dbi {A} (c : dstate -> A * dstate) : DW A := fun s => let '(a, d) := c (w_dbi s) in Some (a, s <| w_dbi := d |>).
Definition dbi_ (c : dstate -> dstate) : DW unit := wmod (fun s => s <| w_dbi ::= c |>).
Definition ask {A} (c : dstate -> A) : DW A := wgets (fun s => c (w_dbi s)).

(** daemon/db_wrap_dbi.c:95-109 dbiw_dbi_init *)
Definition dbiw_dbi_init : DW bool :=
  done ← wgets w_done;
  if done : bool then mret true else
  r ← dbi dbi_initialize;
  if r <=? 0 then mret false else wmod (fun s => s <| w_done := true |>) ;; mret true.

(** daemon/db_wrap_dbi.c:114-124 DB_DECL -- and RES_DECL: the handle of an object, [None] to return the error. *)
Definition decl (objects : dbw -> gmap nat (option nat)) (self : option nat) : DW (option nat) :=
  match self with
  | None => mret None
  | Some p =>
      heap ← wgets objects;
      match heap !! p with
      | None => undefined
      | Some None => mret None
      | Some (Some h) => ok ← dbiw_dbi_init; mret (if ok : bool then Some h else None)
      end
  end.
Definition with_conn {A} (self : option nat) (err : A) (body : nat -> DW A) : DW A :=
  conn ← decl w_conns self; match conn with None => mret err | Some c => body c end.
Definition with_res {A} (self : option nat) (err : A) (body : nat -> DW A) : DW A :=
  r ← decl w_results self; match r with None => mret err | Some r => body r end.

(** daemon/db_wrap_dbi.c:126-132 dbiw_connect *)
Definition dbiw_connect (self : option nat) : DW Z := with_conn self DB_WRAP_E_BAD_ARG (fun conn =>
  r ← dbi (dbi_conn_connect conn); mret (if r =? 0 then 0 else DB_WRAP_E_CHECK_DB_ERROR)).

(** daemon/db_wrap_dbi.c:134-143 dbiw_sql_quote -- the length and what [dest] is set to, if it is. *)
Definition dbiw_sql_quote (self : option nat) (sql : option text) (len : Z) : DW (Z * option (option text)) := with_conn self (0, None) (fun conn =>
  match sql with
  | Some (c :: t) => if len =? 0 then mret (0, Some None) else r ← ask (dbi_conn_quote_string_copy conn (c :: t)); mret (r.1, Some r.2)
  | _ => mret (0, Some None)
  end).

(** daemon/db_wrap_dbi.c:165-185 dbiw_query_result -- the new result; memory is there. *)
Definition dbiw_query_result (self : option nat) (sql : option text) (len : Z) : DW (Z * option nat) := with_conn self (DB_WRAP_E_BAD_ARG, None) (fun conn =>
  match sql with
  | Some (c :: t) =>
      if len =? 0 then mret (DB_WRAP_E_BAD_ARG, None) else
      r ← dbi (dbi_conn_query conn (c :: t));
      match r with
      | None => mret (DB_WRAP_E_CHECK_DB_ERROR, None)
      | Some h =>
          p ← wgets (fun s => fresh (dom (w_results s)));
          wmod (fun s => s <| w_results ::= <[p := Some h]> |>) ;; mret (0, Some p)
      end
  | _ => mret (DB_WRAP_E_BAD_ARG, None)
  end).

(** daemon/db_wrap_dbi.c:187-210 dbiw_error_info -- the text and the number. *)
Definition dbiw_error_info (self : option nat) : DW (Z * option (option text * Z)) := with_conn self (DB_WRAP_E_BAD_ARG, None) (fun conn =>
  r ← ask (dbi_conn_error conn);
  mret (0, Some (match r.2 with Some (c :: t) => (Some (c :: t), r.1) | _ => (None, 0) end))).

(** What an option is set to. *)
Inductive opt_val := OText (t : option text) | ONum (z : Z).

Definition text_options : list string := ["host"; "username"; "password"; "dbname"; "encoding"; "sqlite3_dbdir"]%string.
Definition num_options : list string := ["port"; "sqlite3_timeout"]%string.

(** daemon/db_wrap_dbi.c:212-240 dbiw_option_set -- a value of the wrong type is undefined. *)
Definition dbiw_option_set (self : option nat) (key : text) (val : opt_val) : DW Z := with_conn self DB_WRAP_E_BAD_ARG (fun conn =>
  if existsb (equals key) text_options then
    match val with OText t => dbi (dbi_conn_set_option conn key t) | ONum _ => undefined end
  else if existsb (equals key) num_options then
    match val with ONum z => dbi (dbi_conn_set_option_numeric conn key z) | OText _ => undefined end
  else mret DB_WRAP_E_UNSUPPORTED).

(** daemon/db_wrap_dbi.c:242-269 dbiw_option_get -- what is stored: a pointer or an int. *)
Definition dbiw_option_get (self : option nat) (key : text) : DW (Z * option opt_val) := with_conn self (DB_WRAP_E_BAD_ARG, None) (fun conn =>
  if existsb (equals key) text_options then
    r ← ask (dbi_conn_get_option conn key);
    mret (0, Some (match r with Some t => OText (Some t) | None => ONum 0 end))
  else if existsb (equals key) num_options then
    r ← ask (dbi_conn_get_option_numeric conn key); mret (0, Some (ONum r))
  else mret (DB_WRAP_E_UNSUPPORTED, None)).

(** daemon/db_wrap_dbi.c:271-275 dbiw_is_connected *)
Definition dbiw_is_connected (self : option nat) : DW bool := with_conn self false (fun _ => mret true).

(** daemon/db_wrap_dbi.c:278-286 dbiw_cleanup *)
Definition dbiw_cleanup (self : option nat) : DW Z := with_conn self DB_WRAP_E_BAD_ARG (fun conn =>
  dbi_ (dbi_conn_close conn) ;;
  match self with Some p => wmod (fun s => s <| w_conns ::= <[p := None]> |>) | None => mret tt end ;;
  mret 0).

(** daemon/db_wrap_dbi.c:288-294 dbiw_finalize *)
Definition dbiw_finalize (self : option nat) : DW Z := with_conn self DB_WRAP_E_BAD_ARG (fun _ =>
  dbiw_cleanup self ;;
  match self with Some p => wmod (fun s => s <| w_conns ::= delete p |>) | None => mret tt end ;;
  mret 0).

(** A statement whose result is freed at once. *)
Definition run_and_free (conn : nat) (sql : text) : DW Z :=
  r ← dbi (dbi_conn_query conn sql);
  match r with Some h => dbi_ (dbi_result_free h) | None => mret tt end ;;
  mret 0.

(** daemon/db_wrap_dbi.c:296-307 dbiw_commit *)
Definition dbiw_commit (self : option nat) : DW Z := with_conn self DB_WRAP_E_BAD_ARG (fun conn => run_and_free conn (str "COMMIT")).

(** daemon/db_wrap_dbi.c:309-324 dbiw_set_auto_commit *)
Definition dbiw_set_auto_commit (self : option nat) (set : bool) : DW Z := with_conn self DB_WRAP_E_BAD_ARG (fun conn =>
  run_and_free conn (if set then str "SET AUTOCOMMIT = 1" else str "SET AUTOCOMMIT = 0")).

(** ** Results *)

(** daemon/db_wrap_dbi.c:326-333 dbiw_res_step *)
Definition dbiw_res_step (self : option nat) : DW Z := with_res self DB_WRAP_E_BAD_ARG (fun r =>
  more ← dbi (dbi_result_next_row r); mret (if more : bool then 0 else DB_WRAP_E_DONE)).

(** daemon/db_wrap_dbi.c:342-401 dbiw_res_get_int32_ndx -- which function reads the number, by the attributes; [inr] is an error. *)
Definition getter_of (a : Z) : int_getter + Z :=
  let has (bit : Z) : bool := negb (Z.land bit a =? 0) in
  let unsigned := negb (Z.land a DBI_DECIMAL_UNSIGNED =? 0) in
  if a =? DBI_ATTRIBUTE_ERROR then inr DB_WRAP_E_CHECK_DB_ERROR
  else if has DBI_INTEGER_SIZE1 then inl (if unsigned then UChar else Char)
  else if has DBI_INTEGER_SIZE2 then inl (if unsigned then UShort else Short)
  else if has DBI_INTEGER_SIZE4 then inl (if unsigned then UInt else Int)
  else if has DBI_INTEGER_SIZE8 then inl (if unsigned then ULongLong else LongLong)
  else inr DB_WRAP_E_UNKNOWN_ERROR.

Definition get_int (cast : Z -> Z) (self : option nat) (ndx : Z) : DW (Z * option Z) := with_res self (DB_WRAP_E_BAD_ARG, None) (fun r =>
  a ← ask (dbi_result_get_field_attrib r (u32 (ndx + 1)));
  match getter_of a with
  | inr e => mret (e, None)
  | inl g => v ← ask (dbi_result_get_int g r (u32 (ndx + 1))); mret (0, Some (cast v))
  end).

(** daemon/db_wrap_dbi.c:335-406 dbiw_res_get_int32_ndx *)
Definition dbiw_res_get_int32_ndx : option nat -> Z -> DW (Z * option Z) := get_int s32.

(** daemon/db_wrap_dbi.c:408-458 dbiw_res_get_int64_ndx *)
Definition dbiw_res_get_int64_ndx : option nat -> Z -> DW (Z * option Z) := get_int s64.

(** daemon/db_wrap_dbi.c:460-479 dbiw_res_get_double_ndx -- float or double are read as rationals. *)
Definition dbiw_res_get_double_ndx (self : option nat) (ndx : Z) : DW (Z * option Q) := with_res self (DB_WRAP_E_BAD_ARG, None) (fun r =>
  a ← ask (dbi_result_get_field_attrib r (u32 (ndx + 1)));
  if a =? DBI_ATTRIBUTE_ERROR then mret (DB_WRAP_E_CHECK_DB_ERROR, Some 0%Q)
  else if negb (Z.land DBI_DECIMAL_SIZE4 a =? 0) then v ← ask (dbi_result_get_real false r (u32 (ndx + 1))); mret (0, Some v)
  else if negb (Z.land DBI_DECIMAL_SIZE8 a =? 0) then v ← ask (dbi_result_get_real true r (u32 (ndx + 1))); mret (0, Some v)
  else mret (0, Some 0%Q)).

(** daemon/db_wrap_dbi.c:481-499 dbiw_res_get_string_ndx -- the string, if it is stored, and the length. *)
Definition dbiw_res_get_string_ndx (self : option nat) (ndx : Z) : DW (Z * option text * option Z) := with_res self (DB_WRAP_E_BAD_ARG, None, None) (fun r =>
  s ← ask (dbi_result_get_string r (u32 (ndx + 1)));
  let len := Some (match s with Some t => Z.of_nat (length t) | None => 0 end) in
  match s with
  | None => mret (DB_WRAP_E_CHECK_DB_ERROR, None, len)
  | Some t => if equals t "ERROR" then mret (DB_WRAP_E_CHECK_DB_ERROR, None, len) else mret (0, Some t, len)
  end).

(** daemon/db_wrap_dbi.c:501-507 dbiw_res_num_rows *)
Definition dbiw_res_num_rows (self : option nat) : DW (Z * option Z) := with_res self (DB_WRAP_E_BAD_ARG, None) (fun r =>
  n ← ask (dbi_result_get_numrows r); mret (0, Some n)).

(** daemon/db_wrap_dbi.c:509-524 dbiw_res_finalize *)
Definition dbiw_res_finalize (self : option nat) : DW Z := with_res self DB_WRAP_E_BAD_ARG (fun r =>
  match self with Some p => wmod (fun s => s <| w_results ::= delete p |>) | None => mret tt end ;;
  dbi_ (dbi_result_free r) ;; mret 0).

(** ** Connections *)

(** daemon/db_wrap.h:391-398 db_wrap_conn_params *)
Record conn_params := ConnParams {
  cp_host : option text; cp_port : Z; cp_username : option text; cp_password : option text; cp_dbname : option text; cp_conn_str : option text }.

(** daemon/db_wrap_dbi.c:541-545 db_wrap_dbi_init -- OPT of the texts in turn, up to the first that fails. *)
Fixpoint set_options (wr : nat) (opts : list (string * option text)) : DW Z :=
  match opts with
  | [] => mret 0
  | (k, Some (c :: t)) :: opts => rc ← dbiw_option_set (Some wr) (str k) (OText (Some (c :: t))); if rc =? 0 then set_options wr opts else mret rc
  | _ :: opts => set_options wr opts
  end.

(** daemon/db_wrap_dbi.c:538-539 db_wrap_dbi_init -- CLEANUP. *)
Definition init_cleanup (wr : nat) : DW Z := wmod (fun s => s <| w_conns ::= <[wr := None]> |>) ;; dbiw_finalize (Some wr).

(** daemon/db_wrap_dbi.c:527-558 db_wrap_dbi_init *)
Definition db_wrap_dbi_init (conn : nat) (param : conn_params) : DW (Z * option nat) :=
  ok ← dbiw_dbi_init;
  if negb ok then mret (-1, None) else
  wr ← wgets (fun s => fresh (dom (w_conns s)));
  wmod (fun s => s <| w_conns ::= <[wr := Some conn]> |>) ;;
  rc ← set_options wr [("host", cp_host param); ("username", cp_username param); ("password", cp_password param); ("dbname", cp_dbname param)]%string;
  rc ← (if negb (rc =? 0) then mret rc else if 0 <? cp_port param then dbiw_option_set (Some wr) (str "port") (ONum (cp_port param)) else mret 0);
  if rc =? 0 then mret (0, Some wr) else init_cleanup wr ;; mret (rc, None).

(** daemon/db_wrap_dbi.c:562-585 db_wrap_dbi_init2 *)
Definition db_wrap_dbi_init2 (driver : option text) (param : conn_params) : DW (Z * option nat) :=
  ok ← dbiw_dbi_init;
  if negb ok then mret (-1, None) else
  match driver with
  | Some (c :: t) =>
      h ← dbi (dbi_conn_new (c :: t));
      match h with
      | None => mret (DB_WRAP_E_UNKNOWN_ERROR, None)
      | Some conn =>
          '(rc, db) ← db_wrap_dbi_init conn param;
          if negb (rc =? 0) then dbi_ (dbi_conn_close conn) ;; mret (rc, None) else mret (0, db)
      end
  | _ => mret (DB_WRAP_E_BAD_ARG, None)
  end.

(** daemon/db_wrap.c:137-153 db_wrap_driver_init -- built with libdbi. *)
Definition db_wrap_driver_init (driver : option text) (param : option conn_params) : DW (Z * option nat) :=
  match driver, param with
  | Some driver, Some param =>
      if starts driver "dbi:" then db_wrap_dbi_init2 (Some (drop 4 driver)) param
      else if equals driver "mysql" then db_wrap_dbi_init2 (Some driver) param
      else mret (DB_WRAP_E_UNSUPPORTED, None)
  | _, _ => mret (DB_WRAP_E_BAD_ARG, None)
  end.

(** ** Queries *)

(** daemon/db_wrap.c:27-53 db_wrap_query_number_prepare -- the result to read from, [None] without a row. *)
Definition query_number_prepare (db : option nat) (sql : option text) (len : Z) : DW (Z * option nat) :=
  match db, sql with
  | Some _, Some (c :: t) =>
      if len =? 0 then mret (DB_WRAP_E_BAD_ARG, None) else
      '(rc, res) ← dbiw_query_result db sql len;
      if negb (rc =? 0) then mret (rc, None) else
      match res with
      | None => undefined
      | Some _ =>
          rc ← dbiw_res_step res;
          if rc =? DB_WRAP_E_DONE then dbiw_res_finalize res ;; mret (0, None)
          else if negb (rc =? 0) then dbiw_res_finalize res ;; mret (rc, None)
          else mret (0, res)
      end
  | _, _ => mret (DB_WRAP_E_BAD_ARG, None)
  end.

(** daemon/db_wrap.c:54-67 db_wrap_query_int32 -- and its likes below, which differ in what they read: [zero] is the value without a row. *)
Definition query_one {A} (get : option nat -> Z -> DW A) (err : Z -> A) (zero : A) (db : option nat) (sql : option text) (len : Z) : DW A :=
  '(rc, res) ← query_number_prepare db sql len;
  if negb (rc =? 0) then mret (err rc) else
  match res with
  | None => mret zero
  | Some _ => x ← get res 0; dbiw_res_finalize res ;; mret x
  end.
Definition db_wrap_query_int32 := query_one dbiw_res_get_int32_ndx (fun rc => (rc, None)) (0, Some 0).

(** daemon/db_wrap.c:68-80 db_wrap_query_int64 *)
Definition db_wrap_query_int64 := query_one dbiw_res_get_int64_ndx (fun rc => (rc, None)) (0, Some 0).

(** daemon/db_wrap.c:81-93 db_wrap_query_double *)
Definition db_wrap_query_double := query_one dbiw_res_get_double_ndx (fun rc => (rc, None)) (0, Some 0%Q).

(** daemon/db_wrap.c:95-109 db_wrap_query_string -- the string is that of a result that is freed. *)
Definition db_wrap_query_string := query_one dbiw_res_get_string_ndx (fun rc => (rc, None, None)) (0, None, Some 0).

(** daemon/db_wrap.c:112-125 db_wrap_query_exec *)
Definition db_wrap_query_exec (db : option nat) (sql : option text) (len : Z) : DW Z :=
  match db, sql with
  | Some _, Some (c :: t) =>
      if len =? 0 then mret DB_WRAP_E_BAD_ARG else
      '(rc, res) ← dbiw_query_result db sql len;
      if negb (rc =? 0) then mret rc else
      match res with None => undefined | Some _ => dbiw_res_finalize res ;; mret 0 end
  | _, _ => mret DB_WRAP_E_BAD_ARG
  end.

(** daemon/db_wrap.c:127-135 db_wrap_result_string_copy_ndx -- the copy, if one is made. *)
Definition db_wrap_result_string_copy_ndx (res : option nat) (ndx : Z) : DW (Z * option text) :=
  match res with
  | None => mret (DB_WRAP_E_BAD_ARG, None)
  | Some _ => '(rc, s, _) ← dbiw_res_get_string_ndx res ndx; mret (rc, if rc =? 0 then s else None)
  end.

(** ** What the code relies on *)

(** The sizes of a number, and whether it has a sign. *)
Definition getter_size (g : int_getter) : Z :=
  match g with UChar | Char => DBI_INTEGER_SIZE1 | UShort | Short => DBI_INTEGER_SIZE2 | UInt | Int => DBI_INTEGER_SIZE4 | ULongLong | LongLong => DBI_INTEGER_SIZE8 end.
Definition getter_range (g : int_getter) (v : Z) : Prop :=
  match g with
  | UChar => 0 <= v < 2 ^ 8 | Char => - 2 ^ 7 <= v < 2 ^ 7 | UShort => 0 <= v < 2 ^ 16 | Short => - 2 ^ 15 <= v < 2 ^ 15
  | UInt => 0 <= v < 2 ^ 32 | Int => - 2 ^ 31 <= v < 2 ^ 31 | ULongLong => 0 <= v < 2 ^ 64 | LongLong => - 2 ^ 63 <= v < 2 ^ 63
  end.
Definition getter_unsigned (g : int_getter) : bool := match g with UChar | UShort | UInt | ULongLong => true | _ => false end.

(** libdbi hands out handles of connections and of results that are in use until they are closed and freed; a column of numbers of
    the current row has the attributes of its type, and is read with the function for it.  Connections are closed when no result is
    in use, so that it does not matter what becomes of one. *)
Class DbiLaws := {
  open_results : dstate -> gset nat;
  open_conns : dstate -> gset nat;
  field : nat -> Z -> dstate -> option (int_getter * Z);
  law_initialize d : let d' := (dbi_initialize d).2 in open_results d' = open_results d /\ open_conns d' = open_conns d;
  law_new name d : let '(c, d') := dbi_conn_new name d in open_results d' = open_results d /\
    match c with Some c => c ∉ open_conns d /\ open_conns d' = {[c]} ∪ open_conns d | None => open_conns d' = open_conns d end;
  law_connect c d : let d' := (dbi_conn_connect c d).2 in open_results d' = open_results d /\ open_conns d' = open_conns d;
  law_close c d : open_results d = ∅ -> open_results (dbi_conn_close c d) = ∅ /\ open_conns (dbi_conn_close c d) = open_conns d ∖ {[c]};
  law_query c q d : let '(r, d') := dbi_conn_query c q d in open_conns d' = open_conns d /\
    match r with Some r => r ∉ open_results d /\ open_results d' = {[r]} ∪ open_results d | None => open_results d' = open_results d end;
  law_set c k v d : let d' := (dbi_conn_set_option c k v d).2 in open_results d' = open_results d /\ open_conns d' = open_conns d;
  law_set_numeric c k v d : let d' := (dbi_conn_set_option_numeric c k v d).2 in open_results d' = open_results d /\ open_conns d' = open_conns d;
  law_next r d : let d' := (dbi_result_next_row r d).2 in open_results d' = open_results d /\ open_conns d' = open_conns d;
  law_free r d : open_results (dbi_result_free r d) = open_results d ∖ {[r]} /\ open_conns (dbi_result_free r d) = open_conns d;
  law_field r i d g v : field r i d = Some (g, v) -> let a := dbi_result_get_field_attrib r i d in a <> DBI_ATTRIBUTE_ERROR /\
    (forall k, Z.land (getter_size k) a <> 0 <-> getter_size k = getter_size g) /\
    (Z.land a DBI_DECIMAL_UNSIGNED <> 0 <-> getter_unsigned g = true) /\ dbi_result_get_int g r i d = v /\ getter_range g v;
  law_sizes : NoDup [DBI_INTEGER_SIZE1; DBI_INTEGER_SIZE2; DBI_INTEGER_SIZE4; DBI_INTEGER_SIZE8] }.
Context {L : DbiLaws}.

(** ** Handles and objects *)

(** The handles in use are those of the objects, each of one. *)
Record tracks (open : gset nat) (heap : gmap nat (option nat)) : Prop := Tracks {
  tr_open : forall h, h ∈ open <-> exists p, heap !! p = Some (Some h);
  tr_one : forall p q h, heap !! p = Some (Some h) -> heap !! q = Some (Some h) -> p = q }.

Record tidy (w : dbw) : Prop := Tidy {
  ti_results : tracks (open_results (w_dbi w)) (w_results w);
  ti_conns : tracks (open_conns (w_dbi w)) (w_conns w);
  ti_done : w_done w = true \/ (open_results (w_dbi w) = ∅ /\ open_conns (w_dbi w) = ∅) }.

Lemma tracks_add open heap p h : tracks open heap -> h ∉ open -> heap !! p = None -> tracks ({[h]} ∪ open) (<[p := Some h]> heap).
Proof.
  intros [Ho H1] Hh Hp. assert (forall q, heap !! q <> Some (Some h)) as Hn by (intros q E; apply Hh, Ho; eauto). constructor.
  - intros x. rewrite elem_of_union, elem_of_singleton, Ho. split.
    + intros [->|[q E]]; [exists p; by rewrite lookup_insert_eq|]. exists q. rewrite lookup_insert_ne; [done|congruence].
    + intros [q E]. apply lookup_insert_Some in E as [[_ [= ->]]|[_ E]]; eauto.
  - intros q1 q2 x E1 E2. apply lookup_insert_Some in E1 as [[? E1]|[? E1]], E2 as [[? E2]|[? E2]]; simplify_eq; [done| | |by eapply H1];
      exfalso; by eapply Hn.
Qed.

(** Taking a handle out of its object, or the object away. *)
Lemma tracks_remove open heap heap' p h : tracks open heap -> heap !! p = Some (Some h) ->
  (forall q x, heap' !! q = Some (Some x) <-> q <> p /\ heap !! q = Some (Some x)) -> tracks (open ∖ {[h]}) heap'.
Proof.
  intros [Ho H1] Hp Hh. constructor.
  - intros x. rewrite elem_of_difference, elem_of_singleton, Ho. split.
    + intros [[q E] Hx]. exists q. apply Hh. split; [congruence|done].
    + intros [q [Hq E]%Hh]. split; [eauto|]. intros ->. by apply Hq, (H1 q p h).
  - intros q1 q2 x [_ E1]%Hh [_ E2]%Hh. by eapply H1.
Qed.

Lemma tracks_delete open heap p h : tracks open heap -> heap !! p = Some (Some h) -> tracks (open ∖ {[h]}) (delete p heap).
Proof. intros Ht Hp. eapply tracks_remove; [done..|]. intros q x. rewrite lookup_delete_Some. naive_solver. Qed.

Lemma tracks_empty open heap p h : tracks open heap -> heap !! p = Some (Some h) -> tracks (open ∖ {[h]}) (<[p := None]> heap).
Proof. intros Ht Hp. eapply tracks_remove; [done..|]. intros q x. rewrite lookup_insert_Some. naive_solver. Qed.

(** An object without a handle. *)
Lemma tracks_blank open heap heap' : tracks open heap -> (forall p h, heap' !! p = Some (Some h) <-> heap !! p = Some (Some h)) -> tracks open heap'.
Proof. intros [Ho H1] Hh. constructor; [intros x; rewrite Ho; by setoid_rewrite Hh|]. intros p q x E1%Hh E2%Hh. by eapply H1. Qed.

Lemma fresh_none {A} (m : gmap nat A) : m !! fresh (dom m) = None.
Proof. apply not_elem_of_dom, is_fresh. Qed.

(** ** Computations that are defined *)

Definition total {A} (c : DW A) (w : dbw) (Q : A -> dbw -> Prop) : Prop := exists a w', c w = Some (a, w') /\ Q a w'.

Lemma total_ret {A} (a : A) w (Q : A -> dbw -> Prop) : Q a w -> total (mret a) w Q.
Proof. by exists a, w. Qed.

Lemma total_bind {A B} (c : DW A) (k : A -> DW B) w Q : total c w (fun a w1 => total (k a) w1 Q) -> total (c ≫= k) w Q.
Proof. intros (a & w1 & E & b & w2 & E2 & H). exists b, w2. unfold mbind, DW_bind. by rewrite E. Qed.

Lemma total_mono {A} (c : DW A) w (P Q : A -> dbw -> Prop) : total c w P -> (forall a w', P a w' -> Q a w') -> total c w Q.
Proof. intros (a & w' & E & H) HQ. exists a, w'. auto. Qed.

Lemma total_gets {A} (f : dbw -> A) w (Q : A -> dbw -> Prop) : Q (f w) w -> total (wgets f) w Q.
Proof. by exists (f w), w. Qed.

Lemma total_mod f w (Q : unit -> dbw -> Prop) : Q tt (f w) -> total (wmod f) w Q.
Proof. by exists tt, (f w). Qed.

(** The same objects, all well. *)
Definition same (w w' : dbw) : Prop := tidy w' /\ w_conns w' = w_conns w /\ w_results w' = w_results w /\ (w_done w = true -> w_done w' = true).

Lemma same_refl w : tidy w -> same w w.
Proof. done. Qed.

Lemma same_trans w1 w2 w3 : same w1 w2 -> same w2 w3 -> same w1 w3.
Proof. intros (_ & E1 & E2 & E3) (H & E4 & E5 & E6). split; [done|]. split; [congruence|]. split; [congruence|auto]. Qed.

Lemma dbi_steady {A} (c : dstate -> A * dstate) w w1 :
  (forall d, let d' := (c d).2 in open_results d' = open_results d /\ open_conns d' = open_conns d) -> same w w1 -> total (dbi c) w1 (fun _ w' => same w w').
Proof.
  intros Hd Hs. unfold total, dbi. specialize (Hd (w_dbi w1)). destruct (c (w_dbi w1)) as [a d]. cbn [snd] in *. destruct Hd as [E1 E2].
  do 2 eexists. split; [reflexivity|]. eapply same_trans; [exact Hs|]. destruct Hs as ([Hr Hc Hi] & _). split; [constructor; cbn; by rewrite ?E1, ?E2|done].
Qed.

Lemma init_same w : tidy w -> total dbiw_dbi_init w (fun ok w' => same w w' /\ (ok = true -> w_done w' = true)).
Proof.
  intros Hw. unfold dbiw_dbi_init. apply total_bind, total_gets. destruct (w_done w) eqn:E; [by apply total_ret|].
  apply total_bind. eapply total_mono; [apply (dbi_steady dbi_initialize w w law_initialize), same_refl, Hw|]. intros r w' Hs. cbn beta in Hs.
  destruct (r <=? 0); [by apply total_ret|]. apply total_bind, total_mod, total_ret. destruct Hs as ([A B _] & C & E2 & _).
  split; [split; [constructor; [exact A|exact B|by left]|done]|done].
Qed.

(** An object that can be used: libdbi has been initialised then. *)
Definition live_conn (p h : nat) (w : dbw) : Prop := w_conns w !! p = Some (Some h).
Definition live_res (p h : nat) (w : dbw) : Prop := w_results w !! p = Some (Some h).

Lemma live_done w : tidy w -> (exists p h, live_conn p h w \/ live_res p h w) -> w_done w = true.
Proof.
  intros [[Hr _] [Hc _] [Hd|[Er Ec]]] (p & h & Hp); [done|]. exfalso.
  destruct Hp as [Hp|Hp]; [assert (h ∈ open_conns (w_dbi w)) as H by (apply Hc; eauto)|assert (h ∈ open_results (w_dbi w)) as H by (apply Hr; eauto)]; set_solver.
Qed.

Lemma conn_total {A} p h (err : A) body w Q : tidy w -> live_conn p h w -> total (body h) w Q -> total (with_conn (Some p) err body) w Q.
Proof.
  intros Hw Hp Hb. unfold total, with_conn, decl, dbiw_dbi_init, mbind, DW_bind, wgets. rewrite Hp. by rewrite (live_done w Hw); [|eauto].
Qed.

Lemma res_total {A} p h (err : A) body w Q : tidy w -> live_res p h w -> total (body h) w Q -> total (with_res (Some p) err body) w Q.
Proof.
  intros Hw Hp Hb. unfold total, with_res, decl, dbiw_dbi_init, mbind, DW_bind, wgets. rewrite Hp. by rewrite (live_done w Hw); [|eauto].
Qed.
(** Nothing but libdbi changes. *)
Definition steady {A} (c : DW A) (w : dbw) : Prop := total c w (fun _ w' => same w w').

Lemma connect_steady p h w : tidy w -> live_conn p h w -> steady (dbiw_connect (Some p)) w.
Proof.
  intros Hw Hp. eapply conn_total; [done..|]. pose proof (same_refl w Hw) as Hs. apply total_bind. eapply total_mono; [by apply (dbi_steady _ w); [apply law_connect|]|].
  intros r w2 H2. by apply total_ret.
Qed.

Definition fits_option (key : text) (val : opt_val) : bool :=
  match val with OText _ => negb (existsb (equals key) num_options) | ONum _ => negb (existsb (equals key) text_options) end.

Lemma option_steady p h key val w : tidy w -> live_conn p h w -> fits_option key val = true ->
  total (dbiw_option_set (Some p) key val) w (fun _ w' => same w w').
Proof.
  intros Hw Hp Hk. eapply conn_total; [done..|]. pose proof (same_refl w Hw) as Hs. unfold fits_option in Hk.
  destruct (existsb (equals key) text_options), val as [t|z]; try done; [apply dbi_steady; [apply law_set|done]| |];
    destruct (existsb (equals key) num_options); try done; try by apply total_ret.
  apply dbi_steady; [apply law_set_numeric|done].
Qed.

Lemma ask_steady {A B} (c : dstate -> A) (k : A -> DW B) w w1 : same w w1 -> (forall a, total (k a) w1 (fun _ w' => same w w')) ->
  total (a ← ask c; k a) w1 (fun _ w' => same w w').
Proof. intros Hs Hk. apply total_bind, total_gets. apply Hk. Qed.

Lemma quote_steady p h sql len w : tidy w -> live_conn p h w -> steady (dbiw_sql_quote (Some p) sql len) w.
Proof.
  intros Hw Hp. eapply conn_total; [done..|]. pose proof (same_refl w Hw) as Hs. destruct sql as [[|c t]|]; [by apply total_ret| |by apply total_ret].
  destruct (len =? 0); [by apply total_ret|]. apply ask_steady; [done|]. intros a. by apply total_ret.
Qed.

Lemma error_steady p h w : tidy w -> live_conn p h w -> steady (dbiw_error_info (Some p)) w.
Proof. intros Hw Hp. eapply conn_total; [done..|]. pose proof (same_refl w Hw) as Hs. apply ask_steady; [done|]. intros a. by apply total_ret. Qed.

Lemma step_steady p h w : tidy w -> live_res p h w -> steady (dbiw_res_step (Some p)) w.
Proof.
  intros Hw Hp. eapply res_total; [done..|]. pose proof (same_refl w Hw) as Hs. apply total_bind. eapply total_mono; [by apply (dbi_steady _ w); [apply law_next|]|].
  intros r w2 H2. by apply total_ret.
Qed.

Lemma int_steady cast p h ndx w : tidy w -> live_res p h w -> steady (get_int cast (Some p) ndx) w.
Proof.
  intros Hw Hp. eapply res_total; [done..|]. pose proof (same_refl w Hw) as Hs. apply ask_steady; [done|]. intros a. destruct (getter_of a); [|by apply total_ret].
  apply ask_steady; [done|]. intros v. by apply total_ret.
Qed.

Lemma double_steady p h ndx w : tidy w -> live_res p h w -> steady (dbiw_res_get_double_ndx (Some p) ndx) w.
Proof.
  intros Hw Hp. eapply res_total; [done..|]. pose proof (same_refl w Hw) as Hs. apply ask_steady; [done|]. intros a.
  repeat case_match; try (by apply total_ret); (apply ask_steady; [done|]; intros v; by apply total_ret).
Qed.

Lemma string_steady p h ndx w : tidy w -> live_res p h w -> steady (dbiw_res_get_string_ndx (Some p) ndx) w.
Proof.
  intros Hw Hp. eapply res_total; [done..|]. pose proof (same_refl w Hw) as Hs. apply ask_steady; [done|]. intros [t|]; [case_match|]; by apply total_ret.
Qed.

Lemma rows_steady p h w : tidy w -> live_res p h w -> steady (dbiw_res_num_rows (Some p)) w.
Proof. intros Hw Hp. eapply res_total; [done..|]. pose proof (same_refl w Hw) as Hs. apply ask_steady; [done|]. intros n. by apply total_ret. Qed.

(** A query gives a result of its own, or none. *)
Lemma query_total p h sql len w : tidy w -> live_conn p h w ->
  total (dbiw_query_result (Some p) sql len) w (fun x w' => tidy w' /\ w_conns w' = w_conns w /\
    match x with
    | (rc, None) => rc <> 0 /\ w_results w' = w_results w
    | (rc, Some r) => rc = 0 /\ w_results w !! r = None /\ exists hr, w_results w' = <[r := Some hr]> (w_results w)
    end).
Proof.
  intros Hw Hp. pose proof (live_done w Hw) as Hd. eapply conn_total; [done..|].
  destruct sql as [[|c t]|]; [by apply total_ret| |by apply total_ret]. destruct (len =? 0); [by apply total_ret|].
  unfold total, mbind, DW_bind, dbi. pose proof (law_query h (c :: t) (w_dbi w)) as Hq. destruct (dbi_conn_query h (c :: t) (w_dbi w)) as [[r|] d].
  - destruct Hq as (E1 & Hr & E2). do 2 eexists. split; [reflexivity|]. cbn. split; [|split; [done|split; [done|split; [apply fresh_none|by eexists]]]].
    destruct Hw as [Hr1 Hc1 _]. constructor; cbn; [|by rewrite E1|left; eauto]. rewrite E2. apply tracks_add; [done..|apply fresh_none].
  - destruct Hq as [E1 E2]. do 2 eexists. split; [reflexivity|]. destruct Hw as [Hr1 Hc1 _]. split; [constructor; cbn; [by rewrite E2|by rewrite E1|left; eauto]|]. by split.
Qed.

Lemma free_total r hr w : tidy w -> live_res r hr w ->
  total (dbiw_res_finalize (Some r)) w (fun rc w' => rc = 0 /\ tidy w' /\ w_conns w' = w_conns w /\ w_results w' = delete r (w_results w)).
Proof.
  intros Hw Hp. pose proof (live_done w Hw) as Hd. eapply res_total; [done..|].
  apply total_bind, total_mod, total_bind, total_mod, total_ret. destruct Hw as [Hr Hc _], (law_free hr (w_dbi w)) as [E1 E2]. cbn.
  split; [done|]. split; [|done]. constructor; cbn; [|by rewrite E2|left; eauto]. rewrite E1. by apply tracks_delete.
Qed.

(** ** Calls that leave nothing behind *)

Lemma run_steady p h sql w : tidy w -> live_conn p h w -> total (run_and_free h sql) w (fun rc w' => rc = 0 /\ same w w').
Proof.
  intros Hw Hp. pose proof (live_done w Hw) as Hd. unfold total, run_and_free, mbind, DW_bind, dbi. pose proof (law_query h sql (w_dbi w)) as Hq.
  destruct (dbi_conn_query h sql (w_dbi w)) as [[r|] d]; do 2 eexists; (split; [reflexivity|]); (split; [done|]); destruct Hw as [Hr Hc _].
  - destruct Hq as (E1 & Hn & E2), (law_free r d) as [E3 E4]. split; [|done]. constructor; cbn; [|by rewrite E4, E1|left; eauto].
    rewrite E3, E2. by replace (({[r]} ∪ open_results (w_dbi w)) ∖ {[r]}) with (open_results (w_dbi w)) by set_solver.
  - destruct Hq as [E1 E2]. split; [|done]. constructor; cbn; [by rewrite E2|by rewrite E1|left; eauto].
Qed.

(** A result that has come since, and nothing else. *)
Definition one_more (r : nat) (w w1 : dbw) : Prop := tidy w1 /\ w_conns w1 = w_conns w /\ w_results w !! r = None /\ exists hr, w_results w1 = <[r := Some hr]> (w_results w).

Lemma one_more_live r w w1 : one_more r w w1 -> exists hr, live_res r hr w1.
Proof. intros (_ & _ & _ & hr & E). exists hr. unfold live_res. by rewrite E, lookup_insert_eq. Qed.

Lemma one_more_same r w w1 w2 : one_more r w w1 -> same w1 w2 -> one_more r w w2.
Proof. intros (_ & Ec & Hf & hr & Er) (H & Ec2 & Er2 & _). split; [done|]. split; [congruence|]. split; [done|]. exists hr. congruence. Qed.

(** Freeing it leaves what there was. *)
Lemma one_more_free r p h w w1 : live_conn p h w -> one_more r w w1 -> total (dbiw_res_finalize (Some r)) w1 (fun rc w' => rc = 0 /\ same w w').
Proof.
  intros Hp Hm. destruct (one_more_live r w w1 Hm) as [hr Hl]. destruct Hm as (H1 & Ec & Hf & hr' & Er).
  eapply total_mono; [by eapply free_total|]. intros rc w' (-> & H' & Ec' & Er'). split; [done|]. split; [done|]. split; [congruence|].
  split; [rewrite Er', Er; by apply delete_insert_id|]. intros _. apply live_done; [done|]. exists p, h. left. unfold live_conn. by rewrite Ec', Ec.
Qed.

Lemma query_more p h c t len w : tidy w -> live_conn p h w -> len <> 0 ->
  total (dbiw_query_result (Some p) (Some (c :: t)) len) w (fun x w' => match x with (rc, None) => rc <> 0 /\ same w w' | (rc, Some r) => rc = 0 /\ one_more r w w' end).
Proof.
  intros Hw Hp Hl. pose proof (live_done w Hw) as Hd. eapply total_mono; [by eapply query_total|]. intros [rc [r|]] w1 (H1 & Ec & Hr); cbn beta iota.
  - destruct Hr as (-> & Hf & Hx). done.
  - destruct Hr as [Hrc Er]. split; [done|]. split; [done|]. split; [done|]. split; [done|]. intros _. apply live_done; [done|]. exists p, h. left. unfold live_conn. by rewrite Ec.
Qed.

Lemma prepare_total p h c t len w : tidy w -> live_conn p h w -> len <> 0 ->
  total (query_number_prepare (Some p) (Some (c :: t)) len) w
    (fun x w' => match x with (rc, Some r) => rc = 0 /\ one_more r w w' | (_, None) => same w w' end).
Proof.
  intros Hw Hp Hl. unfold query_number_prepare. rewrite (proj2 (Z.eqb_neq len 0) Hl). apply total_bind. eapply total_mono; [by eapply query_more|].
  intros [rc [r|]] w1 Hx; cbn beta iota in *.
  - destruct Hx as [-> Hm]. cbn [Z.eqb negb]. destruct (one_more_live _ _ _ Hm) as [hr Hlr]. apply total_bind.
    eapply total_mono; [eapply step_steady; [apply Hm|done]|]. intros rc w2 Hs. pose proof (one_more_same _ _ _ _ Hm Hs) as Hm2.
    destruct (rc =? DB_WRAP_E_DONE); [|destruct (negb (rc =? 0)); [|by apply total_ret]];
      (apply total_bind; eapply total_mono; [by eapply one_more_free|]; intros ? w3 [_ H3]; by apply total_ret).
  - destruct Hx as [Hrc Hs]. rewrite (proj2 (Z.eqb_neq rc 0) Hrc). by apply total_ret.
Qed.

Lemma query_one_steady {A} (get : option nat -> Z -> DW A) err zero p h sql len w :
  (forall r hr w1, tidy w1 -> live_res r hr w1 -> steady (get (Some r) 0) w1) -> tidy w -> live_conn p h w -> steady (query_one get err zero (Some p) sql len) w.
Proof.
  intros Hg Hw Hp. unfold steady, query_one. apply total_bind. pose proof (same_refl w Hw) as Hs.
  destruct sql as [[|c t]|]; [by apply total_ret, total_ret| |by apply total_ret, total_ret].
  destruct (Z.eqb_spec len 0) as [->|Hl]; [by apply total_ret, total_ret|].
  eapply total_mono; [by eapply prepare_total|]. intros [rc [r|]] w1 Hx; cbn beta iota in *.
  - destruct Hx as [-> Hm]. cbn [Z.eqb negb]. destruct (one_more_live _ _ _ Hm) as [hr Hlr]. apply total_bind.
    eapply total_mono; [eapply Hg; [apply Hm|done]|]. intros x w2 Hs2. apply total_bind.
    eapply total_mono; [eapply one_more_free; [done|by eapply one_more_same]|]. intros ? w3 [_ H3]. by apply total_ret.
  - destruct (negb _); by apply total_ret.
Qed.

Lemma exec_steady p h sql len w : tidy w -> live_conn p h w -> steady (db_wrap_query_exec (Some p) sql len) w.
Proof.
  intros Hw Hp. unfold steady, db_wrap_query_exec. pose proof (same_refl w Hw) as Hs. destruct sql as [[|c t]|]; [by apply total_ret| |by apply total_ret].
  destruct (Z.eqb_spec len 0) as [->|Hl]; [by apply total_ret|]. apply total_bind. eapply total_mono; [by eapply query_more|].
  intros [rc [r|]] w1 Hx; cbn beta iota in *.
  - destruct Hx as [-> Hm]. cbn [Z.eqb negb]. apply total_bind. eapply total_mono; [by eapply one_more_free|]. intros ? w3 [_ H3]. by apply total_ret.
  - destruct Hx as [Hrc H1]. rewrite (proj2 (Z.eqb_neq rc 0) Hrc). by apply total_ret.
Qed.

(** ** Connections come and go *)

Definition no_results (w : dbw) : Prop := forall p h, w_results w !! p <> Some (Some h).

Lemma no_results_open w : tidy w -> no_results w -> open_results (w_dbi w) = ∅.
Proof. intros [[Hr _] _ _] Hn. apply set_eq. intros h. rewrite Hr. split; [intros [p E]; by destruct (Hn p h)|set_solver]. Qed.

Lemma close_total p h w : tidy w -> live_conn p h w -> no_results w ->
  total (dbiw_finalize (Some p)) w (fun rc w' => rc = 0 /\ tidy w' /\ w_conns w' = delete p (w_conns w) /\ w_results w' = w_results w).
Proof.
  intros Hw Hp Hn. pose proof (live_done w Hw) as Hd. eapply conn_total; [done..|]. apply total_bind. eapply conn_total; [done..|].
  apply total_bind, total_mod, total_bind, total_mod, total_ret, total_bind, total_mod, total_ret.
  destruct (law_close h (w_dbi w) (no_results_open w Hw Hn)) as [E1 E2]. pose proof (no_results_open w Hw Hn) as E0. destruct Hw as [Hr Hc _]. cbn.
  split; [done|]. split; [|split; [by rewrite delete_insert_eq|done]]. constructor; cbn; [by rewrite E1, <- E0| |left; eauto].
  rewrite E2, delete_insert_eq. by apply tracks_delete.
Qed.

Lemma set_options_same wr h opts : forall w, Forall (fun o => existsb (equals (str o.1)) num_options = false) opts -> tidy w -> live_conn wr h w ->
  steady (set_options wr opts) w.
Proof.
  induction opts as [|[k v] opts IH]; intros w Ho Hw Hp; [by apply total_ret|]. apply Forall_cons in Ho as [Hk Ho].
  destruct v as [[|c t]|]; cbn [set_options]; [by apply IH| |by apply IH]. apply total_bind.
  eapply total_mono; [eapply option_steady; [done..|unfold fits_option; cbn [fst] in Hk; by rewrite Hk]|].
  intros rc w1 Hs. destruct (rc =? 0); [|by apply total_ret]. eapply total_mono; [eapply (IH w1); [done|apply Hs|]|].
  - unfold live_conn. destruct Hs as (_ & -> & _). done.
  - intros ? w2 Hs2. eapply same_trans; [exact Hs|exact Hs2].
Qed.

(** The wrapper of a handle that is not in an object yet: the object, or an error and an object without a handle. *)
Lemma init_total h param w : w_done w = true -> tidy (w <| w_conns ::= <[fresh (dom (w_conns w)) := Some h]> |>) ->
  let wr := fresh (dom (w_conns w)) in
  total (db_wrap_dbi_init h param) w (fun x w' => w_done w' = true /\ w_results w' = w_results w /\
    match x with
    | (rc, Some p) => rc = 0 /\ p = wr /\ tidy w' /\ w_conns w' = <[wr := Some h]> (w_conns w)
    | (rc, None) => rc <> 0 /\ w_conns w' = <[wr := None]> (w_conns w) /\ tidy (w' <| w_conns := <[wr := Some h]> (w_conns w) |>)
    end).
Proof.
  intros Hd Hw wr. unfold db_wrap_dbi_init. apply total_bind. exists true, w. split; [unfold dbiw_dbi_init, mbind, DW_bind, wgets; by rewrite Hd|].
  cbn [negb]. apply total_bind, total_gets, total_bind, total_mod. fold wr in Hw |- *. set (w3 := w <| w_conns ::= <[wr := Some h]> |>) in *.
  assert (live_conn wr h w3) as Hl by (unfold live_conn; cbn; by rewrite lookup_insert_eq). apply total_bind.
  eapply total_mono; [eapply set_options_same; [by repeat constructor|exact Hw|exact Hl]|]. intros rc w4 Hs4. apply total_bind.
  assert (total (if negb (rc =? 0) then mret rc else if 0 <? cp_port param then dbiw_option_set (Some wr) (str "port") (ONum (cp_port param)) else mret 0) w4
    (fun _ w' => same w3 w')) as Hport.
  { destruct (negb (rc =? 0)); [by apply total_ret|]. destruct (0 <? cp_port param); [|by apply total_ret].
    eapply total_mono; [eapply option_steady; [apply Hs4| |reflexivity]|]; [|intros ? w5 Hs5; eapply same_trans; [exact Hs4|exact Hs5]].
    unfold live_conn. destruct Hs4 as (_ & -> & _). exact Hl. }
  eapply total_mono; [exact Hport|]. clear w4 Hs4 Hport rc. intros rc w5 (H5 & Ec & Er & Hd5). destruct (Z.eqb_spec rc 0) as [->|Hrc].
  - apply total_ret. split; [auto|]. split; [done|]. split; [done|]. split; [done|]. split; [done|]. by rewrite Ec.
  - apply total_bind. unfold init_cleanup, total, mbind at 1, DW_bind at 1, wmod, dbiw_finalize, with_conn, decl, mbind, DW_bind, wgets. cbn. rewrite lookup_insert_eq.
    do 2 eexists. split; [reflexivity|]. do 2 eexists. split; [reflexivity|]. cbn. split; [auto|]. split; [done|]. split; [done|].
    rewrite Ec. split; [apply insert_insert_eq|]. destruct H5 as [A B C]. rewrite Ec in B. by constructor.
Qed.

(** A connection is made, or none; no handle is left over. *)
Lemma init2_total driver param w : tidy w -> no_results w ->
  total (db_wrap_dbi_init2 driver param) w (fun x w' => tidy w' /\ w_results w' = w_results w /\
    match x with
    | (rc, Some p) => rc = 0 /\ w_conns w !! p = None /\ exists h, w_conns w' = <[p := Some h]> (w_conns w)
    | (rc, None) => rc <> 0 /\ forall p h, live_conn p h w' <-> live_conn p h w
    end).
Proof.
  intros Hw Hn. unfold db_wrap_dbi_init2. apply total_bind. eapply total_mono; [by apply init_same|]. intros ok w1 [Hs Hd].
  destruct Hs as (H1 & Ec & Er & _). assert (no_results w1) as Hn1 by (unfold no_results; by rewrite Er).
  destruct ok; cbn [negb]; [specialize (Hd eq_refl)|apply total_ret; split; [done|]; split; [done|]; split; [done|]; unfold live_conn; by rewrite Ec].
  destruct driver as [[|c t]|]; try (apply total_ret; split; [done|]; split; [done|]; split; [done|]; unfold live_conn; by rewrite Ec).
  apply total_bind. unfold total at 1, dbi. pose proof (law_new (c :: t) (w_dbi w1)) as Hnew. destruct (dbi_conn_new (c :: t) (w_dbi w1)) as [[h|] d].
  - destruct Hnew as (E1 & Hh & E2). do 2 eexists. split; [reflexivity|]. apply total_bind. pose proof (no_results_open w1 H1 Hn1) as E0.
    eapply total_mono; [apply init_total; [done|]|].
    { destruct H1 as [Hr Hc _]. constructor; cbn; [by rewrite E1| |by left]. rewrite E2. apply tracks_add; [done..|apply fresh_none]. }
    intros [rc [p|]] w3 (Hd3 & Er3 & Hx); cbn beta iota in *.
    + destruct Hx as (-> & -> & H3 & Ec3). apply total_ret. split; [done|]. split; [by rewrite Er3|]. split; [done|]. cbn. rewrite <- Ec. split; [apply fresh_none|].
      exists h. exact Ec3.
    + destruct Hx as (Hrc & Ec3 & H3). rewrite (proj2 (Z.eqb_neq rc 0) Hrc). cbn [negb]. apply total_bind, total_mod, total_ret.
      assert (open_results (w_dbi w3) = ∅) as E3 by (apply (no_results_open _ H3); unfold no_results; cbn; by rewrite Er3).
      destruct (law_close h (w_dbi w3) E3) as [E4 E5], H3 as [Hr3 Hc3 _]. cbn in Hr3, Hc3, Ec3. set (wr := fresh (dom (w_conns w1))) in *.
      pose proof (fresh_none (w_conns w1)) as Hf. fold wr in Hf. split; [|split; [change (w_results w3 = w_results w); rewrite Er3; exact Er|split; [done|]]].
      * constructor; cbn; [by rewrite E4, <- E3| |by left]. rewrite E5, Ec3. rewrite <- (insert_insert_eq (w_conns w1) wr None (Some h)).
        apply tracks_empty; [done|by rewrite lookup_insert_eq].
      * intros p h'. unfold live_conn. cbn. rewrite Ec3, <- Ec. rewrite lookup_insert_Some. naive_solver.
  - destruct Hnew as [E1 E2]. do 2 eexists. split; [reflexivity|]. apply total_ret. destruct H1 as [Hr Hc _].
    split; [constructor; cbn; [by rewrite E1|by rewrite E2|by left]|]. split; [done|]. split; [done|]. unfold live_conn. cbn. by rewrite Ec.
Qed.

(** ** Sessions *)

(** The calls through the interface. *)
Inductive wop :=
  | WInit (driver : option text) (param : option conn_params) | WConnect (p : nat) | WOption (p : nat) (key : text) (val : opt_val)
  | WQuote (p : nat) (sql : option text) (len : Z) | WError (p : nat) | WQuery (p : nat) (sql : option text) (len : Z)
  | WExec (p : nat) (sql : option text) (len : Z) | WInt32 (p : nat) (sql : option text) (len : Z) | WInt64 (p : nat) (sql : option text) (len : Z)
  | WDouble (p : nat) (sql : option text) (len : Z) | WString (p : nat) (sql : option text) (len : Z)
  | WCommit (p : nat) | WAuto (p : nat) (set : bool) | WClose (p : nat)
  | WStep (r : nat) | WGet32 (r : nat) (ndx : Z) | WGet64 (r : nat) (ndx : Z) | WGetDouble (r : nat) (ndx : Z) | WGetString (r : nat) (ndx : Z)
  | WRows (r : nat) | WFree (r : nat).

Definition forget {A} (c : DW A) : DW unit := c ;; mret tt.

Definition run_op (o : wop) : DW unit :=
  match o with
  | WInit d p => forget (db_wrap_driver_init d p) | WConnect p => forget (dbiw_connect (Some p)) | WOption p k v => forget (dbiw_option_set (Some p) k v)
  | WQuote p s n => forget (dbiw_sql_quote (Some p) s n) | WError p => forget (dbiw_error_info (Some p))
  | WQuery p s n => forget (dbiw_query_result (Some p) s n) | WExec p s n => forget (db_wrap_query_exec (Some p) s n)
  | WInt32 p s n => forget (db_wrap_query_int32 (Some p) s n) | WInt64 p s n => forget (db_wrap_query_int64 (Some p) s n)
  | WDouble p s n => forget (db_wrap_query_double (Some p) s n) | WString p s n => forget (db_wrap_query_string (Some p) s n)
  | WCommit p => forget (dbiw_commit (Some p)) | WAuto p b => forget (dbiw_set_auto_commit (Some p) b) | WClose p => forget (dbiw_finalize (Some p))
  | WStep r => forget (dbiw_res_step (Some r)) | WGet32 r i => forget (dbiw_res_get_int32_ndx (Some r) i)
  | WGet64 r i => forget (dbiw_res_get_int64_ndx (Some r) i) | WGetDouble r i => forget (dbiw_res_get_double_ndx (Some r) i)
  | WGetString r i => forget (dbiw_res_get_string_ndx (Some r) i) | WRows r => forget (dbiw_res_num_rows (Some r)) | WFree r => forget (dbiw_res_finalize (Some r))
  end.

Fixpoint run_wops (l : list wop) : DW unit := match l with [] => mret tt | o :: l => run_op o ;; run_wops l end.

(** A call on an object that is there, with a value of the right type; connections are made and closed while no result is in use. *)
Definition allowed (o : wop) (w : dbw) : Prop :=
  match o with
  | WInit _ _ => no_results w
  | WClose p => (exists h, live_conn p h w) /\ no_results w
  | WOption p k v => (exists h, live_conn p h w) /\ fits_option k v = true
  | WConnect p | WQuote p _ _ | WError p | WQuery p _ _ | WExec p _ _ | WInt32 p _ _ | WInt64 p _ _ | WDouble p _ _ | WString p _ _ | WCommit p | WAuto p _ =>
      exists h, live_conn p h w
  | WStep r | WGet32 r _ | WGet64 r _ | WGetDouble r _ | WGetString r _ | WRows r | WFree r => exists h, live_res r h w
  end.

(** Every call of a sequence is allowed when its turn comes. *)
Fixpoint disciplined (l : list wop) (w : dbw) : Prop :=
  match l with [] => True | o :: l => allowed o w /\ forall w', run_op o w = Some (tt, w') -> disciplined l w' end.

(** The same as a test. *)
Definition is_live (objects : gmap nat (option nat)) (p : nat) : bool := match objects !! p with Some (Some _) => true | _ => false end.
Definition idle (w : dbw) : bool := forallb (fun x => match x.2 with Some _ => false | None => true end) (map_to_list (w_results w)).
Definition allowedb (o : wop) (w : dbw) : bool :=
  match o with
  | WInit _ _ => idle w
  | WClose p => is_live (w_conns w) p && idle w
  | WOption p k v => is_live (w_conns w) p && fits_option k v
  | WConnect p | WQuote p _ _ | WError p | WQuery p _ _ | WExec p _ _ | WInt32 p _ _ | WInt64 p _ _ | WDouble p _ _ | WString p _ _ | WCommit p | WAuto p _ =>
      is_live (w_conns w) p
  | WStep r | WGet32 r _ | WGet64 r _ | WGetDouble r _ | WGetString r _ | WRows r | WFree r => is_live (w_results w) r
  end.
Fixpoint disciplinedb (l : list wop) (w : dbw) : bool :=
  match l with [] => true | o :: l => allowedb o w && match run_op o w with Some (_, w') => disciplinedb l w' | None => true end end.

Lemma is_live_sound objects p : is_live objects p = true -> exists h, objects !! p = Some (Some h).
Proof. unfold is_live. destruct (objects !! p) as [[h|]|]; by eauto. Qed.

Lemma idle_sound w : idle w = true -> no_results w.
Proof. unfold idle. rewrite forallb_forall. intros H p h E%elem_of_map_to_list%list_elem_of_In%H. done. Qed.

Lemma disciplinedb_sound l : forall w, disciplinedb l w = true -> disciplined l w.
Proof.
  induction l as [|o l IH]; intros w; [done|]. cbn [disciplinedb disciplined]. intros [Ha Hd]%andb_true_iff. split; [|intros w' E; rewrite E in Hd; by apply IH].
  destruct o; cbn [allowedb allowed] in *; try (by apply is_live_sound); try (by apply idle_sound);
    apply andb_true_iff in Ha as [H1 H2]; (split; [by apply is_live_sound|try done; by apply idle_sound]).
Qed.

Lemma forget_total {A} (c : DW A) w Q : total c w (fun _ w' => Q w') -> total (forget c) w (fun _ w' => Q w').
Proof. intros H. apply total_bind. eapply total_mono; [exact H|]. intros a w' HQ. by apply total_ret. Qed.

Lemma steady_tidy {A} (c : DW A) w : steady c w -> total (forget c) w (fun _ w' => tidy w').
Proof. intros H. apply forget_total. eapply total_mono; [exact H|]. by intros a w' []. Qed.

Lemma driver_init_tidy driver param w : tidy w -> no_results w -> total (db_wrap_driver_init driver param) w (fun _ w' => tidy w').
Proof.
  intros Hw Hn. unfold db_wrap_driver_init. destruct driver as [d|]; [|by apply total_ret]. destruct param as [p|]; [|by apply total_ret].
  destruct (starts d "dbi:"); [|destruct (equals d "mysql"); [|by apply total_ret]]; (eapply total_mono; [by apply init2_total|]); by intros x w' [].
Qed.

Lemma op_tidy o w : tidy w -> allowed o w -> total (run_op o) w (fun _ w' => tidy w').
Proof.
  intros Hw Ha. destruct o; cbn [run_op allowed] in *.
  - by apply forget_total, driver_init_tidy.
  - destruct Ha as [h Hp]. by eapply steady_tidy, connect_steady.
  - destruct Ha as [[h Hp] Hf]. by eapply steady_tidy, option_steady.
  - destruct Ha as [h Hp]. by eapply steady_tidy, quote_steady.
  - destruct Ha as [h Hp]. by eapply steady_tidy, error_steady.
  - destruct Ha as [h Hp]. apply forget_total. eapply total_mono; [by eapply query_total|]. by intros a w' [].
  - destruct Ha as [h Hp]. by eapply steady_tidy, exec_steady.
  - destruct Ha as [h Hp]. eapply steady_tidy, query_one_steady; [|done..]. intros. by eapply int_steady.
  - destruct Ha as [h Hp]. eapply steady_tidy, query_one_steady; [|done..]. intros. by eapply int_steady.
  - destruct Ha as [h Hp]. eapply steady_tidy, query_one_steady; [|done..]. intros. by eapply double_steady.
  - destruct Ha as [h Hp]. eapply steady_tidy, query_one_steady; [|done..]. intros. by eapply string_steady.
  - destruct Ha as [h Hp]. apply forget_total. eapply conn_total; [done..|]. eapply total_mono; [by eapply run_steady|]. by intros a w' [_ []].
  - destruct Ha as [h Hp]. apply forget_total. eapply conn_total; [done..|]. eapply total_mono; [by eapply run_steady|]. by intros a w' [_ []].
  - destruct Ha as [[h Hp] Hn]. apply forget_total. eapply total_mono; [by eapply close_total|]. by intros a w' [_ []].
  - destruct Ha as [h Hp]. by eapply steady_tidy, step_steady.
  - destruct Ha as [h Hp]. by eapply steady_tidy, int_steady.
  - destruct Ha as [h Hp]. by eapply steady_tidy, int_steady.
  - destruct Ha as [h Hp]. by eapply steady_tidy, double_steady.
  - destruct Ha as [h Hp]. by eapply steady_tidy, string_steady.
  - destruct Ha as [h Hp]. by eapply steady_tidy, rows_steady.
  - destruct Ha as [h Hp]. apply forget_total. eapply total_mono; [by eapply free_total|]. by intros a w' [_ []].
Qed.

(** Whatever is called, in whatever order and whatever libdbi answers, on objects that are there: no call is undefined, every handle
    of libdbi that is in use is that of exactly one object, and when the connections are closed and the results freed none is in use
    any more: nothing is freed twice, and nothing is forgotten. *)
Theorem sessions_leak_nothing l w : tidy w -> disciplined l w ->
  exists w', run_wops l w = Some (tt, w') /\ tidy w' /\
    ((forall p h, ~ live_conn p h w' /\ ~ live_res p h w') -> open_conns (w_dbi w') = ∅ /\ open_results (w_dbi w') = ∅).
Proof.
  revert w. induction l as [|o l IH]; intros w Hw Hd.
  - exists w. split; [done|]. split; [done|]. intros Hn. split; apply set_eq; intros h.
    + rewrite (tr_open _ _ (ti_conns w Hw)). split; [intros [p E]; by destruct (Hn p h)|set_solver].
    + rewrite (tr_open _ _ (ti_results w Hw)). split; [intros [p E]; by destruct (Hn p h)|set_solver].
  - destruct Hd as [Ha Hd], (op_tidy o w Hw Ha) as ([] & w1 & E & H1). destruct (IH w1 H1 (Hd w1 E)) as (w' & E' & H').
    exists w'. split; [|done]. cbn [run_wops]. unfold mbind, DW_bind. by rewrite E.
Qed.

(** A commit, and the setting of auto-commit, are reported as done whatever the database says. *)
Theorem commit_always_succeeds p h set w : tidy w -> live_conn p h w ->
  total (dbiw_commit (Some p)) w (fun rc w' => rc = 0 /\ same w w') /\ total (dbiw_set_auto_commit (Some p) set) w (fun rc w' => rc = 0 /\ same w w').
Proof. intros Hw Hp. split; (eapply conn_total; [done..|]); by eapply run_steady. Qed.

(** ** Numbers *)

(** A number of a column of numbers, of whatever width and sign, is read as it is, but for one of 64 bits without a sign that is too
    large; into 32 bits as its value modulo 2^32. *)
Theorem get_int_exact r hr ndx w g v : tidy w -> live_res r hr w -> 0 <= ndx < 2 ^ 32 - 1 -> field hr (ndx + 1) (w_dbi w) = Some (g, v) ->
  dbiw_res_get_int64_ndx (Some r) ndx w = Some ((0, Some (s64 v)), w) /\ dbiw_res_get_int32_ndx (Some r) ndx w = Some ((0, Some (s32 v)), w) /\
  (v < 2 ^ 63 -> s64 v = v).
Proof.
  intros Hw Hp Hn Hf. destruct (law_field _ _ _ _ _ Hf) as (Ha & Hs & Hu & Hv & Hr).
  assert (forall cast, get_int cast (Some r) ndx w = Some ((0, Some (cast v)), w)) as G.
  { intros cast. unfold get_int, with_res, decl, dbiw_dbi_init, mbind, DW_bind, wgets. rewrite Hp, (live_done w Hw) by eauto. cbn.
    rewrite u32_small by lia. assert (getter_of (dbi_result_get_field_attrib hr (ndx + 1) (w_dbi w)) = inl g) as ->; [|cbn; by rewrite Hv].
    revert Ha Hs Hu. generalize (dbi_result_get_field_attrib hr (ndx + 1) (w_dbi w)). intros a Ha Hs Hu. unfold getter_of.
    rewrite (proj2 (Z.eqb_neq _ _) Ha). pose proof law_sizes as Hnd. rewrite !NoDup_cons, !elem_of_cons in Hnd. destruct Hnd as (N1 & N2 & N4 & _).
    assert (forall k, (Z.land (getter_size k) a =? 0) = negb (bool_decide (getter_size k = getter_size g))) as S.
    { intros k. destruct (Z.eqb_spec (Z.land (getter_size k) a) 0) as [E|E]; [rewrite bool_decide_false|rewrite bool_decide_true]; try done; [|by apply Hs].
      by intros H%Hs. }
    pose proof (S UChar) as S1. pose proof (S UShort) as S2. pose proof (S UInt) as S4. pose proof (S ULongLong) as S8. cbn [getter_size] in S1, S2, S4, S8.
    rewrite S1, S2, S4, S8, !negb_involutive. assert ((Z.land a DBI_DECIMAL_UNSIGNED =? 0) = negb (getter_unsigned g)) as ->.
    { destruct (Z.eqb_spec (Z.land a DBI_DECIMAL_UNSIGNED) 0) as [E|E], (getter_unsigned g); try done; [by apply Hu in E|by destruct Hu as [Hu _]; specialize (Hu E)]. }
    clear -N1 N2 N4. destruct g; cbn [getter_size getter_unsigned negb]; repeat case_bool_decide; try reflexivity; exfalso; intuition congruence. }
  split; [apply G|]. split; [apply G|]. intros Hlt. assert (- 2 ^ 63 <= v) by (destruct g; cbn in Hr; lia). unfold s64. rewrite Z.mod_small by lia. lia.
Qed.
End Wrap.

(** ** An example *)

(** A driver with a table of one row and a database that is called shop. *)
Record demo_dbi := DemoDbi { dd_conns : gset nat; dd_results : gset nat; dd_row : bool }.

#[export] Instance demo_Dbi : Dbi := {|
  dstate := demo_dbi;
  dbi_initialize d := (1, d);
  dbi_conn_new _ d := let c := fresh (dd_conns d) in (Some c, DemoDbi ({[c]} ∪ dd_conns d) (dd_results d) (dd_row d));
  dbi_conn_connect _ d := (0, d);
  dbi_conn_close c d := DemoDbi (dd_conns d ∖ {[c]}) (dd_results d) (dd_row d);
  dbi_conn_query _ q d := if equals q "COMMIT" then (None, d) else let r := fresh (dd_results d) in (Some r, DemoDbi (dd_conns d) ({[r]} ∪ dd_results d) true);
  dbi_conn_error _ _ := (1, Some (str "out of space"));
  dbi_conn_quote_string_copy _ t _ := (Z.of_nat (length t) + 2, Some (str "'" ++ t ++ str "'"));
  dbi_conn_set_option _ k v d := (if equals k "dbname" && negb (bool_decide (v = Some (str "shop"))) then -1 else 0, d);
  dbi_conn_set_option_numeric _ _ _ d := (0, d);
  dbi_conn_get_option _ _ _ := None;
  dbi_conn_get_option_numeric _ _ _ := 3306;
  dbi_result_next_row _ d := (dd_row d, DemoDbi (dd_conns d) (dd_results d) false);
  dbi_result_get_field_attrib _ i _ := if i =? 1 then 16 else 0;
  dbi_result_get_int _ _ _ _ := 42;
  dbi_result_get_real _ _ _ _ := 1%Q;
  dbi_result_get_string _ i _ := if i =? 1 then Some (str "42") else if i =? 2 then Some (str "ERROR") else None;
  dbi_result_get_numrows _ _ := 1;
  dbi_result_free r d := DemoDbi (dd_conns d) (dd_results d ∖ {[r]}) (dd_row d);
  DBI_ATTRIBUTE_ERROR := 32767; DBI_DECIMAL_UNSIGNED := 1;
  DBI_INTEGER_SIZE1 := 2; DBI_INTEGER_SIZE2 := 4; DBI_INTEGER_SIZE4 := 16; DBI_INTEGER_SIZE8 := 32;
  DBI_DECIMAL_SIZE4 := 2; DBI_DECIMAL_SIZE8 := 4 |}.

#[export] Program Instance demo_DbiLaws : DbiLaws := {|
  open_results := dd_results; open_conns := dd_conns; field _ i _ := if i =? 1 then Some (Int, 42) else None |}.
Next Obligation. done. Qed.
Next Obligation. intros name d. cbn. split; [done|]. split; [apply is_fresh|done]. Qed.
Next Obligation. done. Qed.
Next Obligation. done. Qed.
Next Obligation. intros c q d. cbn. destruct (equals q "COMMIT"); [done|]. split; [done|]. split; [apply is_fresh|done]. Qed.
Next Obligation. done. Qed.
Next Obligation. done. Qed.
Next Obligation. done. Qed.
Next Obligation. done. Qed.
Next Obligation.
  intros r i d g v. cbn. destruct (i =? 1); [|done]. intros [= <- <-]. split; [lia|]. split; [intros []; vm_compute; split; congruence|].
  split; [vm_compute; split; congruence|]. split; [done|]. cbn. lia.
Qed.
Next Obligation. cbn. apply (bool_decide_unpack _). vm_compute. done. Qed.

Definition demo_dbw : dbw := Dbw (DemoDbi ∅ ∅ false) false ∅ ∅.
Definition demo_params (name : text) : conn_params := ConnParams (Some (str "localhost")) 3306 None None (Some name) None.

Lemma demo_tidy : tidy demo_dbw.
Proof. constructor; [constructor; [set_solver|done]..|by right]. Qed.

(** A connection, a query, its value, and the end. *)
Definition demo_session : list wop :=
  [WInit (Some (str "dbi:mysql")) (Some (demo_params (str "shop"))); WConnect 0; WQuery 0 (Some (str "SELECT n")) 8; WStep 0; WGet64 0 0; WFree 0;
   WInt64 0 (Some (str "SELECT n")) 8; WCommit 0; WClose 0].

Lemma sessions_leak_nothing_witness : exists w', run_wops demo_session demo_dbw = Some (tt, w') /\ tidy w' /\
  ((forall p h, ~ live_conn p h w' /\ ~ live_res p h w') -> open_conns (w_dbi w') = ∅ /\ open_results (w_dbi w') = ∅).
Proof.
  apply (sessions_leak_nothing demo_session demo_dbw demo_tidy). apply disciplinedb_sound. vm_compute. reflexivity.
Defined.

(** The value of a query through the wrapper. *)
Example demo_value : (fst <$> (('(_, db) ← db_wrap_driver_init (Some (str "mysql")) (Some (demo_params (str "shop")));
  db_wrap_query_int64 db (Some (str "SELECT n")) 8) demo_dbw)) = Some (0, Some 42).
Proof. vm_compute. reflexivity. Qed.

(** ** What can go wrong *)

(** An option that is refused: the handle is taken out of the object before its finalize, which then does not free it. *)
Theorem refused_option_leaks :
  (fun '(x, w') => (x, w_conns w' !! 0%nat)) <$> db_wrap_driver_init (Some (str "dbi:mysql")) (Some (demo_params (str "none"))) demo_dbw = Some ((-1, None), Some None).
Proof. vm_compute. reflexivity. Qed.

(** A call on a connection to the shop. *)
Definition at_shop {A} (c : option nat -> DW A) : option (A * dbw) :=
  ('(_, db) ← db_wrap_driver_init (Some (str "mysql")) (Some (demo_params (str "shop"))); c db) demo_dbw.

(** The text that a query returns belongs to a result that has been freed. *)
Theorem query_string_dangles : (fun '(x, w') => (x, elements (open_results (w_dbi w')))) <$>
  at_shop (fun db => db_wrap_query_string db (Some (str "SELECT s")) 8) = Some ((0, Some (str "42"), Some 2), []).
Proof. vm_compute. reflexivity. Qed.

(** An option of text that is not set stores an int where a pointer is expected. *)
Theorem unset_option_is_int : fst <$> at_shop (fun db => dbiw_option_get db (str "encoding")) = Some (0, Some (ONum 0)).
Proof. vm_compute. reflexivity. Qed.

(** The text ERROR cannot be read, and its length is stored all the same. *)
Theorem error_text_unreadable :
  fst <$> at_shop (fun db => '(_, r) ← dbiw_query_result db (Some (str "SELECT s")) 8; dbiw_res_get_string_ndx r 1) = Some (DB_WRAP_E_CHECK_DB_ERROR, None, Some 5).
Proof. vm_compute. reflexivity. Qed.

(** A database that refuses to commit is one that has committed. *)
Theorem refused_commit_hidden : fst <$> at_shop dbiw_commit = Some 0 /\ fst <$> at_shop (fun db => dbiw_query_result db (Some (str "COMMIT")) 6) = Some (DB_WRAP_E_CHECK_DB_ERROR, None).
Proof. split; vm_compute; reflexivity. Qed.

(** A connection string has no effect. *)
Theorem conn_str_ignored {D : Dbi} h host port user pass name s s' w :
  db_wrap_dbi_init h (ConnParams host port user pass name s) w = db_wrap_dbi_init h (ConnParams host port user pass name s') w.
Proof. done. Qed.
