(* ===== verification/Importmain.v ===== *)
(** * The options of the import and its main function: tools/import.c

    What the command line makes of the options of [Import], the connection to the database, the files, and the order in which main
    does it all.  The file system is a function from paths, and so are the parsed configuration files; the latest time in the table
    is an argument.  The help text, the list of files and the report of progress are not printed. *)

From S2P Require Import Prelude Binlog Packet Io Merlin Pgroup Node Control Checks Hooks Commands Objects Cfgfile Config Misc Shared Sql Daemon Lparse Logutils Import Schema.
#[local] Open Scope Z_scope.

(** What the options set; [io_db] are --db-name, --db-user and so on by their key. *)
Record import_opts := ImportOpts {
  io_incremental : Z; io_sql : bool; io_repair : bool; io_only : bool; io_table : option text; io_truncate : bool; io_list : bool;
  io_cfg : option text; io_db : list (string * text); io_interesting : interesting; io_files : list naglog_file }.
#[export] Instance eta_import_opts : Eta import_opts := fun r =>
  ImportOpts (io_incremental r) (io_sql r) (io_repair r) (io_only r) (io_table r) (io_truncate r) (io_list r) (io_cfg r) (io_db r)
    (io_interesting r) (io_files r).

Definition no_opts : import_opts := ImportOpts 0 true false false None false false None [] all_interesting [].

(** Going on with a value, the end of the process with a code, or undefined. *)
Inductive ires (A : Type) := INext (a : A) | IExits (code : Z) | IUndefined.
Arguments INext {A}. Arguments IExits {A}. Arguments IUndefined {A}.
Definition ibind {A B} (r : ires A) (k : A -> ires B) : ires B := match r with INext a => k a | IExits c => IExits c | IUndefined => IUndefined end.

Definition db_option (key : string) (o : import_opts) : option text := snd <$> find (fun x => String.eqb x.1 key) (io_db o).

Section Options.
Context (fs : text -> option log_path) (depth : nat) (cfg : text -> option cfg_comp).

Definition add_log_path (path : text) (o : import_opts) : ires import_opts :=
  match add_naglog_path fs depth path (io_files o) with Some r => INext (o <| io_files := r.2 |>) | None => IExits 1 end.

(** tools/import.c:824-834 hash_interesting -- and 819-822 hash_one_line. *)
Definition hash_interesting_objects (path : text) (o : import_opts) : ires import_opts :=
  match fs path with
  | None => IExits 1
  | Some (LogDir _) => INext o
  | Some (LogFile c) =>
      match lparse_path_real (Z.to_nat MAX_BUF) false (Some c) (length c) with
      | Some (LpLines l) => INext (o <| io_interesting := foldl (fun i s => add_interesting_object s i) (io_interesting o) l |>)
      | Some _ => IUndefined
      | None => INext o
      end
  end.

(** tools/import.c:910-970 main -- options without an argument of their own; [None] when it is none of them. *)
Definition import_flag (arg : text) (eq_opt : option text) (o : import_opts) : option (ires import_opts) :=
  if starts arg "-h" || starts arg "--help" then Some (IExits 0)
  else if starts arg "--incremental" then
    Some (match eq_opt with
          | None => INext (o <| io_incremental := 1 |>)
          | Some v => let n := s64 (strtoull 0 v).1 in if n =? 0 then IExits 1 else INext (o <| io_incremental := if n =? 1 then 2 else n |>)
          end)
  else if starts arg "--no-sql" then Some (INext (o <| io_sql := false |>))
  else if starts arg "--no-repair" then Some (INext (o <| io_repair := false |>))
  else if starts arg "--repair" then Some (INext (o <| io_repair := true |>))
  else if starts arg "--only-notifications" then
    Some (INext (o <| io_only := true |> <| io_table := Some (default (str "notification") (io_table o)) |>))
  else if starts arg "--no-progress" then Some (INext o)
  else if starts arg "--debug" || starts arg "-d" then Some (INext o)
  else if starts arg "--truncate-db" then Some (INext (o <| io_truncate := true |>))
  else if starts arg "--list-files" then Some (INext (o <| io_list := true |>))
  else None.

(** tools/import.c:971-1051 main -- options with an argument, in the order in which they are tried. *)
Definition import_value (arg : text) : option (text -> import_opts -> ires import_opts) :=
  let db (key : string) := Some (fun v o => INext (o <| io_db := (key, v) :: io_db o |>)) in
  if starts arg "--nagios-cfg" then Some (fun v o => INext (o <| io_cfg := Some v |>))
  else if starts arg "--db-name" then db "name"%string
  else if starts arg "--db-user" then db "user"%string
  else if starts arg "--db-pass" then db "pass"%string
  else if starts arg "--db-table" then Some (fun v o => INext (o <| io_table := Some v |>))
  else if starts arg "--db-conn-str" then db "conn_str"%string
  else if starts arg "--db-host" then db "host"%string
  else if starts arg "--db-port" then db "port"%string
  else if starts arg "--db-type" then db "type"%string
  else if starts arg "--interesting" || starts arg "-i" then Some hash_interesting_objects
  else None.

(** tools/import.c:1053-1059 main -- a file. *)
Definition import_path (arg : text) (o : import_opts) : ires import_opts :=
  if (10 <=? length arg)%nat && equals (drop (length arg - 10) arg) "nagios.cfg" then INext (o <| io_cfg := Some arg |>) else add_log_path arg o.

(** tools/import.c:898-1060 main -- the loop; an argument ends at its first equals sign, whatever it is. *)
Fixpoint import_args (fuel : nat) (args : list text) (o : import_opts) : ires import_opts :=
  match fuel, args with
  | S fuel, a :: rest =>
      let arg := before "=" a in
      let eq_opt := behind "=" a in
      match import_flag arg eq_opt o with
      | Some r => ibind r (import_args fuel rest)
      | None =>
          match import_value arg with
          | None => ibind (import_path arg o) (import_args fuel rest)
          | Some set =>
              match eq_opt, rest with
              | Some (c :: v), _ => ibind (set (c :: v) o) (import_args fuel rest)
              | None, (c :: v) :: rest => ibind (set (c :: v) o) (import_args fuel rest)
              | _, _ => IExits 1
              end
          end
      end
  | _, _ => INext o
  end.

(** tools/import.c:1071-1079 main -- the log files that nagios.cfg names. *)
Fixpoint cfg_log_paths (vars : list cfg_var) (o : import_opts) : ires import_opts :=
  match vars with
  | [] => INext o
  | v :: vars =>
      ibind (if equals (v_key v) "log_file" || equals (v_key v) "log_archive_path" then match v_value v with Some p => add_log_path p o | None => IUndefined end
             else INext o) (cfg_log_paths vars)
  end.

(** tools/import.c:1062-1065 main -- where nagios.cfg is when neither it nor a log file is named. *)
Definition default_cfg (o : import_opts) : import_opts :=
  match io_cfg o, io_files o with None, [] => o <| io_cfg := Some (str "/opt/monitor/etc/nagios.cfg") |> | _, _ => o end.

(** tools/import.c:1062-1085 main -- from the arguments to the database; without a configuration file its variables are read through NULL. *)
Definition settle_import (o : import_opts) : ires import_opts :=
  let o := default_cfg o in
  ibind (match io_cfg o with
         | None => INext o
         | Some path => match cfg path with None => IUndefined | Some conf => cfg_log_paths (c_vars conf) o end
         end) (fun o =>
  INext (if negb (io_list o) && io_sql o && negb (io_truncate o) && (io_incremental o =? 0) then o <| io_incremental := 1 |> else o)).

(** tools/import.c:1088-1106 main -- what is passed to sql_config, in order, and the table. *)
Definition db_defaults (o : import_opts) : list (string * option text) * import_opts :=
  let get (key : string) (d : option text) := match db_option key o with Some v => Some v | None => d end in
  let first := [("user", get "user" (Some (str "merlin"))); ("pass", get "pass" (Some (str "merlin"))); ("type", get "type" (Some (str "mysql")))]%string in
  let last := [("commit_interval", Some (str "0")); ("commit_queries", Some (str "10000"))]%string in
  match db_option "conn_str" o with
  | Some c => (first ++ [("conn_str"%string, Some c)] ++ last, o)
  | None => (first ++ [("database", get "name" (Some (str "merlin"))); ("host", get "host" (Some (str "localhost"))); ("port", get "port" None)]%string ++ last,
             o <| io_table := Some (default (str "report_data") (io_table o)) |>)
  end.
End Options.

Section Main.
Context {NT : NebTypes} {LC : LogCodes} {QS : QSort} {SD : Strtod} (quote : text -> text) (fs : text -> option log_path) (depth : nat) (cfg : text -> option cfg_comp).

(** The name of the table in a statement; printf(3) of the C library writes NULL like this. *)
Definition table_name (o : import_opts) : text := default (str "(null)") (io_table o).

(** tools/import.c:1087-1138 main -- the database; the result is [incremental].  [latest] is what the query for the latest time gives. *)
Definition start_database (latest : option Z) (o : import_opts) : IM Z :=
  let '(settings, o) := db_defaults o in
  let s := foldl (fun s kv => (sql_config (str kv.1) kv.2 s).2) no_settings settings in
  sql (dmodify (fun d => d <| commit_interval := ds_commit_interval s |> <| commit_queries := ds_commit_queries s |>)) ;;
  r ← sql sql_init;
  if r <? 0 then lp_crash else
  (if io_truncate o then sql (sql_vquery (Other (str "TRUNCATE " ++ table_name o))) ;; mret tt else mret tt) ;;
  if negb (io_incremental o =? 1) then mret (io_incremental o) else
  sql (sql_vquery (Other (str "SELECT MAX(" ++ (if io_only o then str "end_time" else str "timestamp") ++ str ") FROM " ++
    default (str "(null)") (match db_option "conn_str" o with Some _ => db_option "name" o | None => Some (default (str "merlin") (db_option "name" o)) end) ++
    str "." ++ table_name o))) ;;
  res ← igets (fun s => sq_result (im_sql s));
  if negb res then lp_crash else
  sql sql_free_result ;; mret (default 1 latest).

(** What the import goes by. *)
Definition conf_of (o : import_opts) (incremental : Z) : import_conf := ImportConf (io_only o) (io_repair o) (table_name o) incremental (io_interesting o).

(** tools/import.c:1151-1194 main -- with --list-files nothing is read. *)
Definition import_all (conf : import_conf) (o : import_opts) : IM unit :=
  let files := qsort nfile_cmp (io_files o) in
  imod (fun s => s <| im_totsize := u64 (foldl (fun t f => t + nf_size f) 0 files) |>) ;;
  if io_list o then mret tt
  else import_files quote conf (map (fun f => (f, match fs (nf_path f) with Some (LogFile c) => c | _ => [] end)) files).

(** tools/import.c:877-1213 main -- the code with which it ends; [None] is the end in the middle of it. *)
Definition import_main (args : list text) (latest : option Z) (now : Z) : IM Z :=
  match ibind (import_args fs depth (S (length args)) args no_opts) (settle_import fs depth cfg) with
  | IExits code => mret code
  | IUndefined => lp_crash
  | INext o =>
      sql (dmodify (fun d => d <| use_database := io_sql o |>)) ;;
      incremental ← (if io_sql o then start_database latest o else mret (io_incremental o));
      if bool_decide (io_files o = []) then mret 1 else
      let o := if io_sql o then (db_defaults o).2 else o in
      let conf := conf_of o incremental in
      import_all conf o ;;
      finish conf now ;;
      mret 0
  end.
End Main.

(** ** Every row of an import fits *)

Section Typed.
Context {NT : NebTypes} {LC : LogCodes} {QS : QSort} {SD : Strtod} (quote : text -> text) (fs : text -> option log_path) (depth : nat) (cfg : text -> option cfg_comp).

(** The database is used, and neither a table nor a connection string is named. *)
Definition standard (o : import_opts) : Prop := io_table o = (if io_only o then Some (str "notification") else None) /\ db_option "conn_str" o = None /\ io_sql o = true.
Definition plain_arg (a : text) : Prop := starts (before "=" a) "--db-table" = false /\ starts (before "=" a) "--db-conn-str" = false /\ starts (before "=" a) "--no-sql" = false.

(** Where the options go on, they are standard still. *)
Definition keeps_standard (r : ires import_opts) : Prop := match r with INext o => standard o | _ => True end.

Lemma standard_bind r k : keeps_standard r -> (forall o, standard o -> keeps_standard (k o)) -> keeps_standard (ibind r k).
Proof. destruct r; cbn; auto. Qed.

Lemma log_path_standard path o : standard o -> keeps_standard (add_log_path fs depth path o).
Proof. intros Ho. unfold add_log_path. by destruct (add_naglog_path fs depth path (io_files o)). Qed.

Lemma interesting_standard path o : standard o -> keeps_standard (hash_interesting_objects fs path o).
Proof. intros Ho. unfold hash_interesting_objects. repeat case_match; done. Qed.

Lemma flag_standard arg eq o r : starts arg "--no-sql" = false -> standard o -> import_flag arg eq o = Some r -> keeps_standard r.
Proof.
  intros Hn (Ht & Hc & Hu). unfold import_flag. rewrite Hn. intros E.
  repeat match type of E with (if ?b then _ else _) = _ => destruct b end; [injection E as <-..|done]; try done.
  - destruct eq; [|done]. by destruct (_ =? 0).
  - split; [|done]. cbn. rewrite Ht. by destruct (io_only o).
Qed.

Lemma value_standard arg set v o : starts arg "--db-table" = false -> starts arg "--db-conn-str" = false -> standard o -> import_value fs arg = Some set -> keeps_standard (set v o).
Proof.
  intros H1 H2 Ho. unfold import_value. rewrite H1, H2. intros E.
  repeat match type of E with (if ?b then _ else _) = _ => destruct b end; [injection E as <-..|done]; try done. by apply interesting_standard.
Qed.

Lemma args_standard fuel : forall args o, Forall plain_arg args -> standard o -> keeps_standard (import_args fs depth fuel args o).
Proof.
  induction fuel as [|fuel IH]; intros [|a args] o Ha Ho; try done. apply Forall_cons in Ha as [(H1 & H2 & H3) Ha]. cbn [import_args].
  destruct (import_flag _ _ o) as [r|] eqn:E; [apply standard_bind; [by eapply flag_standard|auto]|].
  destruct (import_value fs _) as [set|] eqn:E2.
  - assert (forall c v l, Forall plain_arg l -> keeps_standard (ibind (set (c :: v) o) (import_args fs depth fuel l))) as G.
    { intros c v l Hl. apply standard_bind; [eapply value_standard; [exact H1|exact H2|exact Ho|exact E2]|auto]. }
    destruct (behind "=" a) as [[|c v]|]; [done|by apply G|]. destruct args as [|[|c v] args]; [done..|]. apply Forall_cons in Ha as [_ Ha]. by apply G.
  - apply standard_bind; [|auto]. unfold import_path. case_match; [done|]. by apply log_path_standard.
Qed.

Lemma settle_standard o : standard o -> keeps_standard (settle_import fs depth cfg o).
Proof.
  intros Ho. unfold settle_import.
  assert (standard (default_cfg o)) as H1 by (unfold default_cfg; destruct (io_cfg o); [done|]; by destruct (io_files o)).
  revert H1. generalize (default_cfg o). intros o1 H1.
  apply standard_bind; [|intros o2 H2; cbn [keeps_standard]; by destruct (_ && _)].
  destruct (io_cfg o1) as [path|]; [|exact H1]. destruct (cfg path) as [conf|]; [|done]. clear -H1. revert H1. generalize o1. induction (c_vars conf) as [|v vars IH]; intros o Ho; [done|].
  cbn [cfg_log_paths]. apply standard_bind; [|auto]. case_match; [|done]. destruct (v_value v); [by apply log_path_standard|done].
Qed.

Context (tables : text -> option (list column)).
Hypothesis reports_ok : tables (str "report_data") = Some report_data.
Hypothesis notifications_ok : tables (str "notification") = Some notification.

Abbreviation fits := (fun q => stmt_fits tables q = true).

Lemma init_quiet : writes fits (sql sql_init) any.
Proof.
  apply writes_quiet. intros s a s' E. split; [done|]. revert E. unfold sql. destruct (sql_init (im_sql s)) as [[x d]|] eqn:E; [|done]. intros [= <- <-]. cbn.
  revert E. unfold sql_init, mbind, DB_bind, dgets. destruct (use_database (im_sql s)); cbn; [|by intros [= <- <-]].
  destruct (is_connected0_log (im_sql s)) as (c & d1 & -> & L & U & _). destruct c; [by intros [= <- <-]|].
  unfold sql_free_result, dmodify, next_conn. destruct (sq_conns _) as [|[| |ok] l]; cbn; unfold sql_close, rollback, dmodify, mbind, DB_bind, dgets; cbn; rewrite <- L;
    try (by intros [= <- <-]); destruct (use_database d1); by intros [= <- <-].
Qed.

Lemma start_fits_db latest o : writes fits (start_database latest o) any.
Proof.
  unfold start_database. destruct (db_defaults o) as [settings o']. cbv zeta.
  eapply (writes_bind _ _ _ any); [apply writes_quiet; by intros ? ? ? [= <- <-]|intros _ _].
  eapply (writes_bind _ _ _ any); [apply init_quiet|intros r _]. writing; try reflexivity. apply writes_quiet. by intros ? ? ? [= <- <-].
Qed.

(** Whatever the arguments, the files, the configuration and the database, every row that the import program writes fits its table:
    main chooses the table of notifications just when notifications alone are imported, unless one is named. *)
Theorem import_typed args latest now s code s' : Forall plain_arg args ->
  import_main quote fs depth cfg args latest now s = Some (code, s') ->
  exists k, sq_log (im_sql s') = k ++ sq_log (im_sql s) /\ Forall fits k.
Proof.
  intros Ha E. refine (proj2 ((_ : writes fits (import_main quote fs depth cfg args latest now) any) s code s' E)). clear E. unfold import_main.
  assert (keeps_standard (ibind (import_args fs depth (S (length args)) args no_opts) (settle_import fs depth cfg))) as Hs
    by (apply standard_bind; [by apply args_standard|by apply settle_standard]).
  destruct (ibind _ _) as [o|c|]; [|by apply writes_ret|apply writes_crash]. cbn in Hs. destruct Hs as (Ht & Hc & Eu). rewrite Eu.
  eapply (writes_bind _ _ _ any); [apply writes_quiet; by intros ? ? ? [= <- <-]|intros _ _].
  eapply (writes_bind _ _ _ any); [apply start_fits_db|intros inc _]. destruct (bool_decide (io_files o = [])); [by apply writes_ret|].
  assert (tables (ic_table (conf_of (db_defaults o).2 inc)) = Some (if ic_only_notifications (conf_of (db_defaults o).2 inc) then notification else report_data)) as Hok.
  { unfold db_defaults, conf_of, table_name. rewrite Hc. cbn. rewrite Ht. by destruct (io_only o). }
  eapply (writes_bind _ _ _ any); [|intros _ _; eapply (writes_bind _ _ _ any); [by apply finish_fits|intros _ _; by apply writes_ret]].
  unfold import_all. eapply (writes_bind _ _ _ any); [by apply writes_imod|intros _ _].
  destruct (io_list _); [by apply writes_ret|by apply files_fit].
Qed.
End Typed.

(** ** An example *)

#[local] Existing Instances QSort_insertion naemon_codes.

Definition demo_files (p : text) : option log_path :=
  if equals p "/var/log/a.log" then Some (LogFile (Lparse.show (map str ["[1700000000] HOST ALERT: alpha;DOWN;HARD;3;no answer"; "[1700000020] HOST ALERT: alpha;UP;HARD;1;back"]%string) []))
  else None.
Definition demo_idle : import := demo_import <| im_totsize := 0 |>.

(** The statements that a run writes, in order, with its code. *)
Definition demo_run (args : list string) : option (Z * list stmt) :=
  (fun '(code, s) => (code, rev (sq_log (im_sql s)))) <$> import_main demo_quote demo_files 3 (fun _ => None) (map str args) (Some 0) 1800000000 demo_idle.

Example demo_import_run : (fun '(code, l) => (code, times l)) <$> demo_run ["--db-name=naemon"; "/var/log/a.log"] =
  Some (0, [1700000000; 1700000000; 1700000020]).
Proof. vm_compute. reflexivity. Qed.

Definition demo_run_after : import :=
  default demo_idle (snd <$> import_main demo_quote demo_files 3 (fun _ => None) [str "/var/log/a.log"] (Some 0) 1800000000 demo_idle).

Lemma import_typed_witness : times (sq_log (im_sql demo_run_after)) = [1700000020; 1700000000; 1700000000] /\
  exists k, sq_log (im_sql demo_run_after) = k ++ sq_log (im_sql demo_idle) /\ Forall (fun q => stmt_fits demo_tables q = true) k.
Proof.
  split; [vm_compute; reflexivity|].
  assert (import_main demo_quote demo_files 3 (fun _ => None) [str "/var/log/a.log"] (Some 0) 1800000000 demo_idle = Some (0, demo_run_after)) as E
    by (vm_compute; reflexivity).
  apply (import_typed demo_quote demo_files 3 (fun _ => None) demo_tables eq_refl eq_refl [str "/var/log/a.log"] (Some 0) 1800000000 demo_idle 0 demo_run_after); [|exact E].
  repeat constructor.
Defined.

(** ** What can go wrong *)

(** Listing the files writes to the database: the extra rows are inserted as at the end of an import. *)
Theorem listing_inserts : (fun '(code, l) => (code, length l)) <$> demo_run ["--list-files"; "/var/log/a.log"] = Some (0, 1%nat).
Proof. vm_compute. reflexivity. Qed.

(** The table is emptied before it is known that there is nothing to import. *)
Theorem truncates_before_usage :
  (fun '(code, s) => (code, rev (sq_log (im_sql s)))) <$>
    import_main demo_quote demo_files 3 (fun _ => Some (Comp [] 0 [] [])) [str "--truncate-db"] (Some 0) 1800000000 demo_idle = Some (1, [Other (str "TRUNCATE report_data")]).
Proof. vm_compute. reflexivity. Qed.

(** Without nagios.cfg the process ends on a NULL pointer, though there is a message for it. *)
Theorem missing_cfg_undefined : demo_run [] = None.
Proof. vm_compute. reflexivity. Qed.

(** With a connection string no table is set. *)
Theorem conn_str_without_table :
  (fun '(code, l) => (code, match l with Other q :: _ => q | _ => [] end)) <$> demo_run ["--db-conn-str=x"; "--truncate-db"; "/var/log/a.log"] =
  Some (0, str "TRUNCATE (null)").
Proof. vm_compute. reflexivity. Qed.

(** A path with an equals sign is cut off there. *)
Theorem path_with_equals : import_args demo_files 3 2 [str "/var/log/a.log=old"] no_opts = import_args demo_files 3 2 [str "/var/log/a.log"] no_opts.
Proof. vm_compute. reflexivity. Qed.
