(* ===== verification/Memrchr.v ===== *)
(** * Searching backwards: compat/memrchr.c

    The replacement of memrchr(3) for systems without it, with which log files are read from their end ([Lparse]).  It goes
    through the bytes eight at a time and tests with one addition whether one of the eight can be the one that is looked for.  The
    memory is a list of bytes at an address, a pointer into it is an index, and a long has 64 bits.  The file does not include
    limits.h, so whether LONG_MAX is that of the system depends on its other headers: it is an argument. *)

From S2P Require Import Prelude.
#[local] Open Scope Z_scope.

(** compat/memrchr.c:35-35 LONG_MAX_32_BITS *)
Definition LONG_MAX_32_BITS : Z := 2147483647.

Section Memrchr.
Context (headers_LONG_MAX : option Z) (address : Z) (mem : list byte).

(** compat/memrchr.c:37-39 LONG_MAX *)
Definition LONG_MAX : Z := default LONG_MAX_32_BITS headers_LONG_MAX.

(** A byte of the memory. *)
Definition at_ (i : nat) : Z := byte.unsigned (nth i mem Byte.x00).

(** compat/memrchr.c:81-88 memrchr *)
Definition magic_bits : Z :=
  if LONG_MAX <=? LONG_MAX_32_BITS then 0x7efefeff else Z.lor (u64 (Z.shiftl 0x7efefefe 32)) 0xfefefeff.

(** compat/memrchr.c:90-95 memrchr -- a longword each of whose bytes is [c]. *)
Definition charmask (c : Z) : Z :=
  let m := Z.lor c (Z.shiftl c 8) in
  let m := Z.lor m (u64 (Z.shiftl m 16)) in
  if LONG_MAX >? LONG_MAX_32_BITS then Z.lor m (u64 (Z.shiftl m 32)) else m.

(** compat/memrchr.c:138-147 memrchr -- whether some hole is not changed by the addition. *)
Definition hole_unchanged (longword : Z) : bool :=
  negb (Z.land (Z.lxor (u64 (longword + magic_bits)) (u64 (Z.lnot longword))) (u64 (Z.lnot magic_bits)) =? 0).

(** compat/memrchr.c:177-185 memrchr -- byte by byte. *)
Fixpoint bytes_back (c : Z) (n : nat) : option nat :=
  match n with O => None | S k => if at_ k =? c then Some k else bytes_back c k end.

(** compat/memrchr.c:57-64 memrchr -- down to an aligned address: found, or the bytes that are left. *)
Fixpoint align_back (c : Z) (n : nat) : nat + nat :=
  match n with
  | O => inr O
  | S k => if Z.land (u64 (address + Z.of_nat n)) (8 - 1) =? 0 then inr n else if at_ k =? c then inl k else align_back c k
  end.

(** The eight bytes at an index as a number. *)
Definition longword_at (i : nat) : Z := le_combine (take 8 (drop i mem)).

(** compat/memrchr.c:152-171 memrchr -- which of the bytes was [c]. *)
Definition which_byte (c : Z) (cp : nat) : option nat :=
  find (fun i => at_ i =? c)
    ((if LONG_MAX >? 2147483647 then [cp + 7; cp + 6; cp + 5; cp + 4] else []) ++ [cp + 3; cp + 2; cp + 1; cp])%nat.

(** compat/memrchr.c:97-177 memrchr -- eight bytes at a time; each turn takes eight bytes, so [n] turns are enough. *)
Fixpoint words_back (turns : nat) (c : Z) (n : nat) : option nat :=
  match turns with
  | O => bytes_back c n
  | S turns =>
      if (n <? 8)%nat then bytes_back c n else
      let cp := (n - 8)%nat in
      let longword := Z.lxor (longword_at cp) (charmask c) in
      match (if hole_unchanged longword then which_byte c cp else None) with
      | Some i => Some i
      | None => words_back turns c cp
      end
  end.

(** compat/memrchr.c:43-186 memrchr *)
Definition memrchr (c_in : Z) (n : nat) : option nat :=
  let c := c_in mod 256 in
  match align_back c n with inl r => Some r | inr n => words_back n c n end.

(** ** Bytes of longwords *)

(** The byte [k] of a number. *)
Definition byte_of (x : Z) (k : nat) : Z := Z.land (Z.shiftr x (8 * Z.of_nat k)) 255.

Lemma byte_of_div x k : byte_of x k = (x / 2 ^ (8 * Z.of_nat k)) mod 256.
Proof. unfold byte_of. rewrite Z.shiftr_div_pow2 by lia. apply (Z.land_ones _ 8). lia. Qed.

Lemma byte_of_lxor x y k : byte_of (Z.lxor x y) k = Z.lxor (byte_of x k) (byte_of y k).
Proof.
  unfold byte_of. rewrite Z.shiftr_lxor. apply Z.bits_inj'. intros n Hn.
  rewrite Z.lxor_spec, !Z.land_spec, Z.lxor_spec. by destruct (Z.testbit 255 n); rewrite ?andb_true_r, ?andb_false_r.
Qed.

Lemma lxor_range x y : 0 <= x < 2 ^ 64 -> 0 <= y < 2 ^ 64 -> 0 <= Z.lxor x y < 2 ^ 64.
Proof.
  intros Hx Hy. assert (0 <= Z.lxor x y) by (apply Z.lxor_nonneg; lia). split; [done|].
  destruct (decide (Z.lxor x y = 0)) as [->|]; [lia|]. apply Z.log2_lt_pow2; [lia|].
  assert (forall z, 0 <= z < 2 ^ 64 -> Z.log2 z < 64) as L.
  { intros z Hz. destruct (decide (z = 0)) as [->|]; [done|]. apply Z.log2_lt_pow2; lia. }
  pose proof (Z.log2_lxor x y). pose proof (L x Hx). pose proof (L y Hy). lia.
Qed.

Lemma odd_bit x n : 0 <= n -> Z.testbit x n = Z.odd (x / 2 ^ n).
Proof. intros Hn. rewrite Z.testbit_odd, Z.shiftr_div_pow2 by done. done. Qed.

Lemma byte_of_combine l k : byte_of (le_combine l) k = byte.unsigned (nth k l Byte.x00).
Proof.
  revert k. induction l as [|b l IH]; intros k.
  { change (le_combine []) with 0. unfold byte_of. rewrite Z.shiftr_0_l. by destruct k. }
  pose proof (byte.unsigned_range b) as Hb. change (le_combine (b :: l)) with (Z.lor (byte.unsigned b) (Z.shiftl (le_combine l) 8)).
  destruct k as [|k]; cbn [nth].
  - unfold byte_of. cbn [Z.of_nat Z.mul]. rewrite Z.shiftr_0_r. apply Z.bits_inj'. intros n Hn.
    rewrite Z.land_spec. rewrite Z.lor_spec. destruct (Z.ltb_spec n 8).
    + rewrite Z.shiftl_spec_low, orb_false_r by lia. change 255 with (Z.ones 8). by rewrite Z.ones_spec_low, andb_true_r by lia.
    + change 255 with (Z.ones 8). rewrite Z.ones_spec_high, andb_false_r by lia.
      rewrite <- (Z.mod_small (byte.unsigned b) (2 ^ 8)) by lia. by rewrite Z.mod_pow2_bits_high by lia.
  - rewrite <- IH. unfold byte_of. f_equal. rewrite Z.shiftr_lor, Z.shiftr_shiftl_r by lia.
    replace (8 * Z.of_nat (S k) - 8) with (8 * Z.of_nat k) by lia.
    rewrite (Z.shiftr_div_pow2 (byte.unsigned b)) by lia.
    assert (2 ^ 8 <= 2 ^ (8 * Z.of_nat (S k))) by (apply Z.pow_le_mono_r; lia). by rewrite Z.div_small by lia.
Qed.

(** ** The test for a byte of zeros *)

(** The hole to the left of a byte, for the last one the one in it. *)
Definition hole (k : nat) : Z := if (k =? 7)%nat then 63 else 8 * Z.of_nat k + 8.

(** No carry leaves a byte of zeros, so the hole to its left is what it was. *)
Lemma zero_keeps_hole x k : 0 <= x < 2 ^ 64 -> (k < 8)%nat -> byte_of x k = 0 ->
  Z.testbit (u64 (x + 0x7efefefefefefeff)) (hole k) = Z.testbit x (hole k).
Proof.
  intros Hx Hk. rewrite byte_of_div. intros H.
  assert (0 <= hole k < 64) by (unfold hole; destruct (Nat.eqb_spec k 7); lia).
  unfold u64. rewrite Z.mod_pow2_bits_low, !odd_bit by lia.
  destruct k as [|[|[|[|[|[|[|[|k]]]]]]]]; [..|lia]; unfold hole in *; cbn [Nat.eqb] in *.
  all: repeat match goal with |- context [2 ^ ?e] => let v := eval vm_compute in (2 ^ e) in change (2 ^ e) with v end.
  all: repeat match type of H with context [2 ^ ?e] => let v := eval vm_compute in (2 ^ e) in change (2 ^ e) with v in H end.
  8: (rewrite !Z.div_small by (Z.to_euclidean_division_equations; lia); done).
  all: match goal with |- Z.odd ((?x + ?c) / ?d) = Z.odd (?x / ?d) =>
         let m := eval vm_compute in (c / d / 2) in replace ((x + c) / d) with (x / d + 2 * m) by (Z.to_euclidean_division_equations; lia) end.
  all: by rewrite Z.odd_add_mul_2.
Qed.
(** From here on LONG_MAX is that of a system whose longs have 64 bits. *)
Context (wide : headers_LONG_MAX = Some (2 ^ 63 - 1)).

Lemma magic_wide : magic_bits = 0x7efefefefefefeff.
Proof using wide. unfold magic_bits, LONG_MAX. by rewrite wide. Qed.

Lemma charmask_wide c k : 0 <= c < 256 -> (k < 8)%nat -> byte_of (charmask c) k = c /\ 0 <= charmask c < 2 ^ 64.
Proof using wide.
  intros Hc Hk. unfold charmask, LONG_MAX. rewrite wide.
  set (f := fun c => let m := Z.lor c (Z.shiftl c 8) in let m := Z.lor m (u64 (Z.shiftl m 16)) in Z.lor m (u64 (Z.shiftl m 32))).
  change (byte_of (f c) k = c /\ 0 <= f c < 2 ^ 64).
  assert (forallb (fun c => forallb (fun k => (byte_of (f (Z.of_nat c)) k =? Z.of_nat c) && (0 <=? f (Z.of_nat c)) && (f (Z.of_nat c) <? 2 ^ 64)) (seq 0 8)) (seq 0 256) = true) as H
    by (vm_compute; reflexivity).
  rewrite forallb_forall in H. specialize (H (Z.to_nat c)). rewrite in_seq, forallb_forall in H. specialize (H ltac:(lia) k).
  rewrite in_seq, Z2Nat.id in H by lia. specialize (H ltac:(lia)). rewrite !andb_true_iff in H. lia.
Qed.

(** The test finds a byte of zeros. *)
Lemma zero_found x k : 0 <= x < 2 ^ 64 -> (k < 8)%nat -> byte_of x k = 0 -> hole_unchanged x = true.
Proof using wide.
  intros Hx Hk H. unfold hole_unchanged. rewrite magic_wide, negb_true_iff, Z.eqb_neq.
  intros E. apply (f_equal (fun z => Z.testbit z (hole k))) in E.
  assert (0 <= hole k < 64) by (unfold hole; destruct (Nat.eqb_spec k 7); lia).
  rewrite Z.land_spec, Z.lxor_spec, zero_keeps_hole, Z.bits_0 in E by done.
  assert (Z.testbit (u64 (Z.lnot 0x7efefefefefefeff)) (hole k) = true) as F.
  { destruct k as [|[|[|[|[|[|[|[|k]]]]]]]]; [..|lia]; vm_compute; reflexivity. }
  rewrite F, andb_true_r in E. unfold u64 in E. rewrite Z.mod_pow2_bits_low, Z.lnot_spec in E by lia.
  by destruct (Z.testbit x (hole k)).
Qed.
Lemma longword_byte i k : (k < 8)%nat -> byte_of (longword_at i) k = at_ (i + k).
Proof. intros Hk. unfold longword_at, at_. rewrite byte_of_combine, !nth_lookup, lookup_take_lt, lookup_drop by done. done. Qed.

Lemma longword_range i : 0 <= longword_at i < 2 ^ 64.
Proof.
  unfold longword_at. pose proof (le_combine_bound (take 8 (drop i mem))) as [? H]. split; [done|].
  eapply Z.lt_le_trans; [exact H|]. apply Z.pow_le_mono_r; [lia|]. rewrite length_take. lia.
Qed.

(** Where the test fails, none of the eight bytes is the one that is looked for. *)
Lemma no_hole_no_byte c cp k : 0 <= c < 256 -> (k < 8)%nat ->
  hole_unchanged (Z.lxor (longword_at cp) (charmask c)) = false -> at_ (cp + k) <> c.
Proof using wide.
  intros Hc Hk H E. destruct (charmask_wide c k Hc Hk) as [B R]. pose proof (longword_range cp).
  rewrite (zero_found _ k) in H; [done| |done|].
  - by apply lxor_range.
  - by rewrite byte_of_lxor, longword_byte, B, E, Z.lxor_nilpotent.
Qed.

(** Looking at eight bytes one after the other is eight steps of the search. *)
Lemma which_eight c cp :
  bytes_back c (cp + 8) = match which_byte c cp with Some i => Some i | None => bytes_back c cp end.
Proof using wide.
  unfold which_byte, LONG_MAX. rewrite wide. replace (cp + 8)%nat with (S (S (S (S (S (S (S (S cp)))))))) by lia.
  cbn [bytes_back]. change (default LONG_MAX_32_BITS (Some (2 ^ 63 - 1)) >? 2147483647) with true. cbn [app find].
  rewrite !(Nat.add_comm cp). cbn [Nat.add]. by repeat (destruct (_ =? c); [done|]).
Qed.

Lemma words_back_spec turns c n : 0 <= c < 256 -> words_back turns c n = bytes_back c n.
Proof using wide.
  intros Hc. revert n. induction turns as [|turns IH]; intros n; cbn [words_back]; [done|].
  destruct (Nat.ltb_spec n 8) as [|Hn]; [done|]. rewrite IH.
  replace (bytes_back c n) with (bytes_back c (n - 8 + 8)) by (f_equal; lia). rewrite which_eight.
  destruct (hole_unchanged _) eqn:E; [done|]. destruct (which_byte c (n - 8)) as [i|] eqn:F; [|done]. exfalso.
  assert (exists k, (k < 8)%nat /\ i = (n - 8 + k)%nat) as (k & Hk & ->).
  { unfold which_byte in F. apply find_some in F as [F _]. apply in_app_iff in F. destruct (_ >? _).
    all: cbn [In] in F; exists (i - (n - 8))%nat; lia. }
  apply (no_hole_no_byte c (n - 8) k Hc Hk E). unfold which_byte in F. apply find_some in F as [_ F]. lia.
Qed.

Lemma align_back_spec c n :
  bytes_back c n = match align_back c n with inl i => Some i | inr m => bytes_back c m end.
Proof.
  induction n as [|n IH]; [done|]. cbn [align_back]. destruct (_ =? 0); [done|]. cbn [bytes_back]. by destruct (_ =? c).
Qed.

(** Where LONG_MAX is that of the system, going through the memory eight bytes at a time finds what going through it byte by byte
    finds, at any address. *)
Theorem memrchr_bytewise c_in n : memrchr c_in n = bytes_back (c_in mod 256) n.
Proof using wide.
  unfold memrchr. assert (0 <= c_in mod 256 < 256) by (apply Z.mod_pos_bound; lia). rewrite (align_back_spec _ n).
  destruct (align_back _ _); [done|]. by apply words_back_spec.
Qed.

(** The search byte by byte gives the last index with the byte. *)
Lemma bytes_back_last c n :
  match bytes_back c n with
  | Some i => (i < n)%nat /\ at_ i = c /\ forall j, (i < j < n)%nat -> at_ j <> c
  | None => forall j, (j < n)%nat -> at_ j <> c
  end.
Proof.
  induction n as [|n IH]; cbn [bytes_back]; [lia|]. destruct (Z.eqb_spec (at_ n) c) as [E|E].
  - split; [lia|]. split; [done|lia].
  - destruct (bytes_back c n) as [i|].
    + destruct IH as (? & ? & L). split; [lia|]. split; [done|]. intros j ?. destruct (decide (j = n)) as [->|]; [done|apply L; lia].
    + intros j ?. destruct (decide (j = n)) as [->|]; [done|apply IH; lia].
Qed.
End Memrchr.

(** Where LONG_MAX is that of the system, the search gives the last of the first [n] bytes that is the one looked for, and nothing
    when there is none, whatever the address and whatever is in the memory. *)
Theorem memrchr_last address mem c_in n :
  match memrchr (Some (2 ^ 63 - 1)) address mem c_in n with
  | Some i => (i < n)%nat /\ at_ mem i = c_in mod 256 /\ forall j, (i < j < n)%nat -> at_ mem j <> c_in mod 256
  | None => forall j, (j < n)%nat -> at_ mem j <> c_in mod 256
  end.
Proof. rewrite (memrchr_bytewise _ _ _ eq_refl). apply bytes_back_last. Qed.

(** Where the headers the file includes do not define LONG_MAX, it is taken to be that of 32 bits although a longword has eight
    bytes: the upper four bytes of a longword are never looked at, and a byte that is there is not found. *)
Theorem memrchr_misses :
  let mem := le_split 8 0x00000a0000000000 in
  at_ mem 5 = 0x0a /\ memrchr None 0 mem 0x0a 8 = None /\ memrchr (Some (2 ^ 63 - 1)) 0 mem 0x0a 8 = Some 5%nat.
Proof. vm_compute. done. Qed.

(** With an address that is not aligned, a byte that only looks like one, and none at all. *)
Example memrchr_runs :
  let mem := le_split 8 0x2000a20200a8a00 ++ le_split 8 0x20802020 ++ le_split 4 0x20 in
  memrchr (Some (2 ^ 63 - 1)) 3 mem 10 20 = Some 5%nat /\ memrchr (Some (2 ^ 63 - 1)) 0 mem 10 4 = Some 2%nat /\
  memrchr (Some (2 ^ 63 - 1)) 0 mem 0x20 19 = Some 16%nat /\ memrchr (Some (2 ^ 63 - 1)) 5 mem 77 20 = None.
Proof. vm_compute. done. Qed.
