(* ===== verification/Logging.v ===== *)
(** * Logging: shared/logging.c

    The variables of the file are a record, and what is done with streams and with the system log is a list of actions.  The text
    vsnprintf(3) makes of a format and its arguments is an argument, [None] when it fails; so are whether fopen(3) succeeds, whether
    standard output is a terminal, the time, and whether the program is the module. *)

From S2P Require Import Prelude Cfgfile Config Shared.
#[local] Open Scope Z_scope.

(** The severities of syslog(3) that are used. *)
Definition LOG_ALERT : Z := 1.
Definition LOG_ERR : Z := 3.
Definition LOG_WARNING : Z := 4.
Definition LOG_NOTICE : Z := 5.
Definition LOG_INFO : Z := 6.
Definition LOG_DEBUG : Z := 7.

Inductive stream := Stdout | Stderr | LogFile (path : text).
#[export] Instance stream_eq : EqDecision stream.
Proof. solve_decision. Defined.

(** shared/logging.c:6-9 merlin_log_fp *)
Record log_state := Log { merlin_log_fp : option stream; merlin_log_file : option text; log_to_syslog : Z; log_levels : Z }.
#[export] Instance eta_log_state : Eta log_state :=
  fun r => Log (merlin_log_fp r) (merlin_log_file r) (log_to_syslog r) (log_levels r).

(** shared/logging.c:6-9 log_levels *)
Definition log_start : log_state :=
  Log None None 0 (Z.lor (Z.lor (Z.shiftl 1 LOG_ERR) (Z.shiftl 1 LOG_WARNING)) (Z.shiftl 1 LOG_INFO)).

(** ** Options *)

(** shared/logging.c:17-26 log_grok_var *)
Definition opt_codes : list (string * Z) :=
  [("all"%string, -1); ("err"%string, Z.shiftl 1 LOG_ERR); ("warn"%string, Z.shiftl 1 LOG_WARNING);
   ("info"%string, Z.shiftl 1 LOG_INFO); ("debug"%string, Z.shiftl 1 LOG_DEBUG)].

(** shared/logging.c:35-48 log_grok_var -- what one word makes of the levels. *)
Definition grok_level (mod_ : option ascii) (p : text) (levels : Z) : Z :=
  foldl (fun levels '(opt, val) =>
    if starts p opt then
      match mod_ with
      | None => val * 2 - 1
      | Some c => if Ascii.eqb c "-" then Z.land levels (Z.lnot val) else Z.lor levels val
      end
    else levels) levels opt_codes.

(** shared/logging.c:29-49 log_grok_var -- the words of the value. *)
Fixpoint grok_levels (fuel : nat) (p : option text) (levels : Z) : Z :=
  match fuel, p with
  | S fuel, Some (c :: r) =>
      let '(mod_, p) := if Ascii.eqb c "+" || Ascii.eqb c "-" then (Some c, r) else (None, c :: r) in
      grok_levels fuel (next_word p) (grok_level mod_ p levels)
  | _, _ => levels
  end.

(** shared/logging.c:11-68 log_grok_var -- the logging afterwards, and whether the option is one. *)
Definition grok_log_var (var : text) (val : option text) (s : log_state) : log_state * bool :=
  match val with
  | None => (s, false)
  | Some val =>
      if equals var "log_levels" || equals var "log_level" then
        (s <| log_levels ::= grok_levels (S (length val)) (Some val) |>, true)
      else if equals var "use_syslog" then (s <| log_to_syslog := s32 (u32 (strtoull 10 val).1) |>, true)
      else if equals var "log_file" then (s <| merlin_log_file := Some val |>, true)
      else (s, false)
  end.

(** ** Streams *)

Inductive log_action :=
| Openlog (ident : string)
| Closelog
| Syslog (severity : Z) (msg : option text)
| Fopen (path : text)
| Fclose (f : stream)
| Fprintf (f : stream) (line : text).

Section Streams.
Context (is_module : bool).

(** shared/logging.c:70-83 log_deinit *)
Definition log_deinit (s : log_state) : log_state * list log_action :=
  let sys := if negb (log_to_syslog s =? 0) && negb is_module then [Closelog] else [] in
  match merlin_log_fp s with
  | Some f =>
      if bool_decide (f <> Stdout) && bool_decide (f <> Stderr) then (s <| merlin_log_fp := None |>, sys ++ [Fclose f]) else (s, sys)
  | None => (s, sys)
  end.

(** shared/logging.c:85-110 log_init *)
Definition log_init (fopen_ok : bool) (s : log_state) : log_state * list log_action * Z :=
  let sys := if negb (log_to_syslog s =? 0) && negb is_module then [Openlog "merlind"] else [] in
  match merlin_log_file s with
  | None => (s, sys, 0)
  | Some file =>
      if equals file "stdout" then (s <| merlin_log_fp := Some Stdout |>, sys, 0) else
      let s := if equals file "stderr" then s <| merlin_log_fp := Some Stderr |> else s in
      match merlin_log_fp s with
      | Some _ => (s, sys, 0)
      | None => if fopen_ok then (s <| merlin_log_fp := Some (LogFile file) |>, sys ++ [Fopen file], 0) else (s, sys, -1)
      end
  end.

(** shared/logging.c:112-164 log_msg *)
Definition log_msg (stdout_tty : bool) (now : Z) (severity : Z) (formatted : option text) (s : log_state) : list log_action :=
  if Z.land (Z.shiftl 1 severity) (log_levels s) =? 0 then [] else
  if bool_decide (merlin_log_fp s = None) && (log_to_syslog s =? 0) && negb stdout_tty then [] else
  let sys :=
    if negb (log_to_syslog s =? 0) then
      (if is_module then [Openlog "merlin_mod"] else []) ++ [Syslog severity formatted] ++ (if is_module then [Closelog] else [])
    else [] in
  match formatted with
  | None => sys
  | Some t =>
      let msg := take 4095 t ++ ["000"%char] in
      let len := if (4095 <? length t)%nat then 4095%nat else length t in
      let msg := if Ascii.eqb (nth len msg "000"%char) "010" then <[len := "000"%char]> msg else msg in
      let line := (span (fun c => negb (Ascii.eqb c "000")) msg).1 in
      sys ++ match merlin_log_fp s with
             | Some f => [Fprintf f (str "[" ++ dec now ++ str "] " ++ dec severity ++ str ": " ++ line ++ ["010"%char])]
             | None => []
             end
  end.
End Streams.

(** Whether messages of a severity are logged. *)
Definition enabled (s : log_state) (severity : Z) : bool := negb (Z.land (Z.shiftl 1 severity) (log_levels s) =? 0).

(** ** What is logged *)

Lemma enabled_testbit s v : 0 <= v -> enabled s v = Z.testbit (log_levels s) v.
Proof.
  intros Hv. unfold enabled. rewrite Z.shiftl_1_l. destruct (Z.testbit _ v) eqn:E.
  - rewrite negb_true_iff, Z.eqb_neq. intros F. apply (f_equal (fun z => Z.testbit z v)) in F.
    by rewrite Z.land_spec, Z.pow2_bits_true, E, Z.bits_0 in F by lia.
  - rewrite negb_false_iff, Z.eqb_eq. apply Z.bits_inj'. intros n Hn. rewrite Z.land_spec, Z.bits_0.
    destruct (decide (n = v)) as [->|]; [by rewrite E, andb_false_r|]. by rewrite Z.pow2_bits_false by lia.
Qed.

(** The levels that have a name, and the signs a name can have. *)
Inductive level := Err | Warn | Info | Debug_.
Inductive sign := Upto | With | Without.
Definition level_name (l : level) : string := match l with Err => "err" | Warn => "warn" | Info => "info" | Debug_ => "debug" end.
Definition level_value (l : level) : Z := match l with Err => LOG_ERR | Warn => LOG_WARNING | Info => LOG_INFO | Debug_ => LOG_DEBUG end.
Definition word_text (w : sign * level) : text :=
  match w.1 with Upto => [] | With => ["+"%char] | Without => ["-"%char] end ++ str (level_name w.2).

(** What a word says of one severity. *)
Definition word_means (v : Z) (b : bool) (w : sign * level) : bool :=
  match w.1 with
  | Upto => v <=? level_value w.2
  | With => b || (v =? level_value w.2)
  | Without => b && negb (v =? level_value w.2)
  end.

Definition level_text (ws : list (sign * level)) : text := mjoin (map (fun w => word_text w ++ [" "%char]) ws).

Lemma level_word_step w rest levels fuel :
  exists m p, (match w.1 with Upto => None | With => Some "+"%char | Without => Some "-"%char end) = m /\ p = str (level_name w.2) ++ " "%char :: rest /\
  grok_levels (S fuel) (Some (word_text w ++ " "%char :: rest)) levels = grok_levels fuel (next_word p) (grok_level m p levels) /\
  next_word p = (if bool_decide ((span (fun c => isblank c || Ascii.eqb c ",") rest).2 = []) then None else Some (span (fun c => isblank c || Ascii.eqb c ",") rest).2) /\
  grok_level m p levels = match m with
    | None => Z.shiftl 1 (level_value w.2) * 2 - 1
    | Some c => if Ascii.eqb c "-" then Z.land levels (Z.lnot (Z.shiftl 1 (level_value w.2))) else Z.lor levels (Z.shiftl 1 (level_value w.2))
    end.
Proof.
  destruct w as [[] []]; do 2 eexists; (split; [reflexivity|]); (split; [reflexivity|]); repeat split.
  all: unfold next_word; cbn; by destruct (span _ rest).
Qed.

Lemma level_text_cons w ws : level_text (w :: ws) = word_text w ++ " "%char :: level_text ws.
Proof. unfold level_text. cbn [map]. change (mjoin (?x :: ?l)) with (x ++ mjoin l). by rewrite <- app_assoc. Qed.

Lemma level_text_head ws : level_text ws = [] /\ ws = [] \/
  (span (fun c => isblank c || Ascii.eqb c ",") (level_text ws)).2 = level_text ws /\ level_text ws <> [].
Proof. destruct ws as [|[[] []] ws]; [by left|right; by split..]. Qed.

Lemma word_levels w levels v : 0 <= v <= 7 ->
  Z.testbit (match w.1 with
             | Upto => Z.shiftl 1 (level_value w.2) * 2 - 1
             | With => Z.lor levels (Z.shiftl 1 (level_value w.2))
             | Without => Z.land levels (Z.lnot (Z.shiftl 1 (level_value w.2)))
             end) v = word_means v (Z.testbit levels v) w.
Proof.
  intros Hv. assert (v = 0 \/ v = 1 \/ v = 2 \/ v = 3 \/ v = 4 \/ v = 5 \/ v = 6 \/ v = 7) as H by lia.
  destruct w as [[] l]; unfold word_means; cbn [fst snd].
  - by destruct l; destruct H as [->|[->|[->|[->|[->|[->|[->| ->]]]]]]].
  - rewrite Z.lor_spec. f_equal. by destruct l; destruct H as [->|[->|[->|[->|[->|[->|[->| ->]]]]]]].
  - rewrite Z.land_spec. f_equal. by destruct l; destruct H as [->|[->|[->|[->|[->|[->|[->| ->]]]]]]].
Qed.

Lemma level_text_grok ws fuel levels v : 0 <= v <= 7 -> (length ws <= fuel)%nat ->
  Z.testbit (grok_levels fuel (Some (level_text ws)) levels) v = foldl (word_means v) (Z.testbit levels v) ws.
Proof.
  intros Hv. revert fuel levels. induction ws as [|w ws IH]; intros fuel levels Hf; [by destruct fuel|].
  destruct fuel as [|fuel]; cbn [length] in Hf; [lia|]. rewrite level_text_cons.
  destruct (level_word_step w (level_text ws) levels fuel) as (m & p & Hm & _ & -> & Hn & Hl). cbn [foldl].
  rewrite <- (word_levels w levels v Hv), Hl, Hn.
  assert (forall lv, Z.testbit (grok_levels fuel (if bool_decide ((span (fun c => isblank c || Ascii.eqb c ",") (level_text ws)).2 = []) then None
      else Some (span (fun c => isblank c || Ascii.eqb c ",") (level_text ws)).2) lv) v = foldl (word_means v) (Z.testbit lv v) ws) as K.
  { intros lv. destruct (level_text_head ws) as [[E ->]|[E N]]; [by destruct fuel|]. rewrite E, bool_decide_false by done. apply IH. lia. }
  rewrite K. by destruct w as [[] l]; subst m.
Qed.

Lemma level_text_length ws : (length ws <= length (level_text ws))%nat.
Proof.
  induction ws as [|w ws IH]; [done|]. rewrite level_text_cons, length_app. cbn [length]. lia.
Qed.

(** A list of levels in the configuration says for each severity whether it is logged: a name alone puts on all severities up to
    that level and the others off, a name with a sign changes only its own. *)
Theorem configured_levels ws s v : 0 <= v <= 7 ->
  let '(s', ok) := grok_log_var (str "log_level") (Some (level_text ws)) s in
  ok = true /\ enabled s' v = foldl (word_means v) (enabled s v) ws.
Proof.
  intros Hv. unfold grok_log_var. change (equals (str "log_level") "log_levels" || equals (str "log_level") "log_level") with true. cbv iota.
  split; [done|]. rewrite !enabled_testbit by lia. 
  apply level_text_grok; [done|]. pose proof (level_text_length ws). lia.
Qed.

Example configured_levels_witness :
  enabled (grok_log_var (str "log_level") (Some (level_text [(Upto, Warn); (With, Debug_); (Without, Err)])) log_start).1 LOG_ERR = false /\
  enabled (grok_log_var (str "log_level") (Some (level_text [(Upto, Warn); (With, Debug_); (Without, Err)])) log_start).1 LOG_DEBUG = true.
Proof.
  split.
  - apply (proj2 (configured_levels [(Upto, Warn); (With, Debug_); (Without, Err)] log_start LOG_ERR ltac:(split; vm_compute; discriminate))).
  - apply (proj2 (configured_levels [(Upto, Warn); (With, Debug_); (Without, Err)] log_start LOG_DEBUG ltac:(split; vm_compute; discriminate))).
Defined.

(** The test of the options that [Config] uses is the result of reading one. *)
Lemma grok_log_var_known var val s : (grok_log_var var val s).2 = log_grok_var var val.
Proof.
  unfold grok_log_var, log_grok_var. destruct val as [v|]; [|by rewrite bool_decide_false by naive_solver].
  rewrite bool_decide_true by done. cbn [andb].
  destruct (equals var "log_levels"), (equals var "log_level"), (equals var "use_syslog"), (equals var "log_file"); done.
Qed.

(** All levels without a sign leave out LOG_ALERT; words that are none are taken without an error; and a comma alone does not end
    a word. *)
Theorem levels_read_oddly :
  enabled (grok_log_var (str "log_level") (Some (str "all")) log_start).1 LOG_ALERT = false /\
  grok_log_var (str "log_level") (Some (str "verbose")) log_start = (log_start, true) /\
  log_levels (grok_log_var (str "log_levels") (Some (str "-err,-warn")) log_start).1 = Z.lor (Z.shiftl 1 LOG_WARNING) (Z.shiftl 1 LOG_INFO).
Proof. vm_compute. done. Qed.

(** Only what lmsg logs is missing by default, and with the level the documentation calls the default it is there. *)
Theorem default_is_not_info :
  enabled log_start LOG_NOTICE = false /\ enabled (grok_log_var (str "log_level") (Some (str "info")) log_start).1 LOG_NOTICE = true.
Proof. done. Qed.

(** ** The lines of the log *)

Lemma nth_take_end {A} n (l : list A) d : nth (if (n <? length l)%nat then n else length l) (take n l ++ [d]) d = d.
Proof.
  rewrite nth_lookup. destruct (Nat.ltb_spec n (length l)).
  - by rewrite lookup_app_r, length_take, Nat.min_l, Nat.sub_diag by (rewrite ?length_take; lia).
  - by rewrite take_ge, lookup_app_r, Nat.sub_diag by lia.
Qed.

Lemma span_until_nul t : "000"%char ∉ t -> (span (fun c => negb (Ascii.eqb c "000")) (t ++ ["000"%char])).1 = t.
Proof.
  induction t as [|c t IH]; intros N; [done|]. rewrite not_elem_of_cons in N. destruct N as [N1 N2].
  cbn [app span]. rewrite (proj2 (Ascii.eqb_neq c "000")) by done. cbn [negb]. specialize (IH N2).
  destruct (span _ (t ++ _)) as [a b]. cbn in IH |- *. by rewrite IH.
Qed.

(** A message of a severity that is on goes to the log as one line of at most 4095 characters behind the time and the severity;
    the test for a newline at its end looks at the character behind it, so the newline stays. *)
Theorem log_msg_line is_module tty now v t s f : enabled s v = true -> merlin_log_fp s = Some f -> "000"%char ∉ t ->
  last (log_msg is_module tty now v (Some t) s) =
  Some (Fprintf f (str "[" ++ dec now ++ str "] " ++ dec v ++ str ": " ++ take 4095 t ++ ["010"%char])).
Proof.
  intros En Fp N. unfold log_msg. unfold enabled in En. rewrite negb_true_iff in En. rewrite En, Fp.
  rewrite bool_decide_false by done. cbn [andb]. cbv zeta. rewrite nth_take_end. change (Ascii.eqb "000" "010") with false. cbv iota.
  rewrite span_until_nul by (intros H; apply N; rewrite <- (take_drop 4095 t); apply elem_of_app; by left). by rewrite last_snoc.
Qed.

Example log_msg_line_witness :
  last (log_msg true false 1000 LOG_ERR (Some (str "bad" ++ ["010"%char])) (log_start <| merlin_log_fp := Some Stderr |>)) =
  Some (Fprintf Stderr (str "[1000] 3: bad" ++ ["010"%char; "010"%char])).
Proof.
  rewrite (log_msg_line true false 1000 LOG_ERR (str "bad" ++ ["010"%char]) (log_start <| merlin_log_fp := Some Stderr |>) Stderr).
  - vm_compute. reflexivity.
  - reflexivity.
  - reflexivity.
  - vm_compute. intros H. repeat (apply elem_of_cons in H as [H|H]; [discriminate|]). by apply elem_of_nil in H.
Defined.

(** Nothing of a severity that is off is logged, on any of the ways. *)
Theorem log_msg_off is_module tty now v t s : enabled s v = false -> log_msg is_module tty now v t s = [].
Proof. unfold enabled, log_msg. intros H. rewrite negb_false_iff in H. by rewrite H. Qed.

(** ** Use of the streams *)

(** The calls of the file's functions. *)
Inductive log_call :=
| CGrok (var : text) (val : option text)
| CInit (fopen_ok : bool)
| CDeinit
| CMsg (tty : bool) (now severity : Z) (formatted : option text).

Definition log_step (is_module : bool) (c : log_call) (s : log_state) : log_state * list log_action :=
  match c with
  | CGrok var val => ((grok_log_var var val s).1, [])
  | CInit ok => (log_init is_module ok s).1
  | CDeinit => log_deinit is_module s
  | CMsg tty now v t => (s, log_msg is_module tty now v t s)
  end.

Fixpoint log_run (is_module : bool) (cs : list log_call) (s : log_state) : log_state * list log_action :=
  match cs with
  | [] => (s, [])
  | c :: cs => let '(s, a) := log_step is_module c s in let '(s, b) := log_run is_module cs s in (s, a ++ b)
  end.

(** The files that are open after an action, and nothing for one that closes or writes a file that is not. *)
Definition act (open : list stream) (a : log_action) : option (list stream) :=
  match a with
  | Fopen p => Some (LogFile p :: open)
  | Fclose f => if bool_decide (f ∈ open) then Some (filter (fun g => g <> f) open) else None
  | Fprintf f _ => if bool_decide (f ∈ Stdout :: Stderr :: open) then Some open else None
  | _ => Some open
  end.
Fixpoint acts (open : list stream) (l : list log_action) : option (list stream) :=
  match l with [] => Some open | a :: l => o ← act open a; acts o l end.

Lemma acts_app open l k : acts open (l ++ k) = o ← acts open l; acts o k.
Proof. revert open. induction l as [|a l IH]; intros open; [done|]. cbn [app acts]. destruct (act open a); [apply IH|done]. Qed.

(** The stream of the log is one that can be written. *)
Definition log_wf (open : list stream) (s : log_state) : Prop :=
  match merlin_log_fp s with Some f => f ∈ Stdout :: Stderr :: open | None => True end.

Lemma log_step_ok m c s open : log_wf open s ->
  exists open', acts open (log_step m c s).2 = Some open' /\ log_wf open' (log_step m c s).1.
Proof.
  unfold log_wf. intros W. destruct c as [var val|ok| |tty now v t]; cbn [log_step].
  - exists open. split; [done|]. unfold grok_log_var. destruct val; [|done]. destruct (_ || _); [done|].
    destruct (equals var "use_syslog"); [done|]. by destruct (equals var "log_file").
  - unfold log_init. match goal with |- context [if ?b then [Openlog ?x] else []] => set (sys := if b then [Openlog x] else []) end.
    assert (forall o, acts o sys = Some o) as A by (intros; unfold sys; by destruct (_ && _)).
    destruct (merlin_log_file s) as [file|]; [|by exists open].
    destruct (equals file "stdout"). { exists open. split; [done|]. cbn. set_solver. }
    destruct (equals file "stderr"); cbn [merlin_log_fp]. { exists open. split; [done|]. cbn. set_solver. }
    destruct (merlin_log_fp s) as [f|] eqn:F; [exists open; cbn; rewrite F; by split|].
    destruct ok; [|exists open; cbn; rewrite F; by split]. exists (LogFile file :: open). cbn. rewrite acts_app, A. split; [done|set_solver].
  - unfold log_deinit. match goal with |- context [if ?b then [Closelog] else []] => set (sys := if b then [Closelog] else []) end.
    assert (forall o, acts o sys = Some o) as A by (intros; unfold sys; by destruct (_ && _)).
    destruct (merlin_log_fp s) as [f|] eqn:F; [|exists open; cbn; rewrite F; by split].
    destruct (bool_decide_reflect (f <> Stdout)), (bool_decide_reflect (f <> Stderr)); cbn [andb]; try (exists open; cbn; rewrite F; by split).
    exists (filter (fun g => g <> f) open). cbn. rewrite acts_app, A. cbn. rewrite bool_decide_true by set_solver. done.
  - exists open. split; [|done]. unfold log_msg. destruct (_ =? 0); [done|]. destruct (bool_decide _ && _ && _); [done|].
    match goal with |- context [if ?b then ?x ++ ?y else []] => set (sys := if b then x ++ y else []) end.
    assert (forall o, acts o sys = Some o) as A by (intros; unfold sys; destruct (negb _); [by destruct m|done]).
    destruct t as [t|]; [|apply A]. cbv zeta. cbn [snd]. rewrite acts_app, A. cbn [mbind option_bind].
    destruct (merlin_log_fp s); [|done]. cbn [acts act mbind option_bind]. by rewrite bool_decide_true.
Qed.

(** However the functions are called, in whatever order and however often, only files that are open are written and closed. *)
Theorem log_streams_open is_module cs :
  let '(s, trace) := log_run is_module cs log_start in exists open, acts [] trace = Some open /\ log_wf open s.
Proof.
  assert (forall s open, log_wf open s -> let '(s', trace) := log_run is_module cs s in
    exists open', acts open trace = Some open' /\ log_wf open' s') as K; [|by apply K].
  induction cs as [|c cs IH]; intros s open W; cbn [log_run]; [by exists open|].
  destruct (log_step_ok is_module c s open W) as (o & A & W'). destruct (log_step is_module c s) as [s' a]. cbn [fst snd] in *.
  specialize (IH s' o W'). destruct (log_run is_module cs s') as [s'' b]. destruct IH as (o' & B & W'').
  exists o'. rewrite acts_app, A. done.
Qed.

(** After the end of logging no file is left open by the module, when its log file is not changed between. *)
Example log_life :
  acts [] (log_run true [CGrok (str "log_file") (Some (str "/var/log/merlin.log")); CInit true; CMsg false 1 LOG_INFO (Some (str "x"));
    CDeinit; CMsg false 2 LOG_INFO (Some (str "y")); CDeinit] log_start).2 = Some [].
Proof. vm_compute. done. Qed.
