(* ===== verification/Lifecycle.v ===== *)
(** * Start and end of the module

    Loading the module, what is left until Naemon has read its objects, its jobs, and unloading it (module/module.c), registering its
    callbacks (module/hooks.c), and the structure of the daemon (shared/ipc.c).  The parts the functions call are those of the other
    files.  Naemon's lists of callbacks are the class [Neb], its queue of timed events is a list of times and jobs. *)

From S2P Require Import Prelude Sha1 Binlog Packet Io Merlin Pgroup Node Control Net Checks Hooks Commands Cfgfile Config Misc Oconfsplit Shared Logging.
#[local] Open Scope Z_scope.

(** The functions that are registered as callbacks. *)
Inductive neb_fn := PostConfigInit | MerlinModHook.
#[export] Instance neb_fn_eq : EqDecision neb_fn.
Proof. solve_decision. Defined.

(** Naemon's lists of callbacks: how often a function is registered for a type of event, and that registering adds one and
    deregistering takes one away. *)
Class Neb := {
  registry : Type;
  neb_count : registry -> Z -> neb_fn -> nat;
  neb_register_callback : Z -> neb_fn -> registry -> registry;
  neb_deregister_callback : Z -> neb_fn -> registry -> registry;
  neb_register_count : forall t f r t' f', neb_count (neb_register_callback t f r) t' f' =
    if decide ((t', f') = (t, f)) then S (neb_count r t' f') else neb_count r t' f';
  neb_deregister_count : forall t f r t' f', neb_count (neb_deregister_callback t f r) t' f' =
    if decide ((t', f') = (t, f)) then pred (neb_count r t' f') else neb_count r t' f' }.

(** The types of events the table of callbacks has besides those of [NebCallbacks]; types are different bits of a mask. *)
Class NebTable {NC : NebCallbacks} := {
  NEBCALLBACK_EVENT_HANDLER_DATA : Z;
  NEBCALLBACK_DOWNTIME_DATA : Z;
  NEBCALLBACK_FLAPPING_DATA : Z;
  table_types : list Z :=
    [NEBCALLBACK_PROCESS_DATA; NEBCALLBACK_EVENT_HANDLER_DATA; NEBCALLBACK_NOTIFICATION_DATA; NEBCALLBACK_CONTACT_NOTIFICATION_METHOD_DATA;
     NEBCALLBACK_CHECK_DATA SERVICE_CHECK; NEBCALLBACK_CHECK_DATA HOST_CHECK; NEBCALLBACK_COMMENT_DATA; NEBCALLBACK_DOWNTIME_DATA;
     NEBCALLBACK_FLAPPING_DATA; NEBCALLBACK_PROGRAM_STATUS_DATA; NEBCALLBACK_STATUS_DATA HOST_CHECK; NEBCALLBACK_STATUS_DATA SERVICE_CHECK;
     NEBCALLBACK_EXTERNAL_COMMAND_DATA];
  table_types_distinct : NoDup table_types;
  table_types_bits : forall t, t ∈ table_types -> 0 <= t < 32 }.

(** What Naemon and the machine give the module. *)
Class ModuleEnv := {
  CURRENT_OBJECT_STRUCTURE_VERSION : Z;
  nagios_object_structure_version : Z;
  sizeof_monitored_object_state : Z;
  CACHEDIR : string;
  config_files : filesystem;
  config_file : text;
  naemon_objects : oconf;
  sha_memory : blk_SHA_CTX }.

(** The functions Naemon calls at a time. *)
Inductive timed := ConnectToAll | SendPulse | DisconnectInactiveNodes | AutoDeleteNodes.
#[export] Instance timed_eq : EqDecision timed.
Proof. solve_decision. Defined.

(** What Naemon reports of its own process. *)
Inductive process_event := PROCESS_START | PROCESS_EVENTLOOPSTART | PROCESS_OTHER.

Definition DEST_DB : Z := 1.
Definition DEST_NETWORK : Z := 2.

(** shared/shared.c:15-16 node_activity_check_interval *)
Definition node_activity_check_interval : Z := 1.
(** shared/shared.c:16-16 node_auto_delete_check_interval *)
Definition node_auto_delete_check_interval : Z := 30.
(** module/module.c:1259-1259 connect_interval *)
Definition connect_interval : Z := 1.

Section Lifecycle.
Context {QS : QSort} {SD : Sodium} {NC : NebCallbacks} {NT : NebTable} {NB : Neb} {NL : Naemon} {KE : Kernel} {CE : ConfigEnv} {NP : Nspath} {FC : Fcache}
  {ME : ModuleEnv}.

(** The process: the configuration with the module's state, logging, the files of pollers, and Naemon's callbacks, timed events and query
    handler. *)
Record module_state := Mod {
  mo_config : config; mo_log : log_state; mo_logged : list log_action; mo_files : gmap text (list byte * option Z); mo_temps : list text;
  mo_split_io : list split_io; mo_neb : registry; mo_jobs : list (Z * timed); mo_qh : bool }.
#[export] Instance eta_module_state : Eta module_state := fun r =>
  Mod (mo_config r) (mo_log r) (mo_logged r) (mo_files r) (mo_temps r) (mo_split_io r) (mo_neb r) (mo_jobs r) (mo_qh r).

Definition LM (A : Type) : Type := module_state -> cfg_result (A * module_state).
#[export] Instance LM_ret : MRet LM := fun A a s => CfgOk (a, s).
#[export] Instance LM_bind : MBind LM := fun A B k m s => cfg_bind (m s) (fun '(a, s) => k a s).

Definition lgets {A} (f : module_state -> A) : LM A := fun s => CfgOk (f s, s).
Definition lmod (f : module_state -> module_state) : LM unit := fun s => CfgOk (tt, f s).
Definition lexit {A} : LM A := fun _ => CfgExit.
Definition lcrash {A} : LM A := fun _ => CfgUndefined.
Definition merlin_of (s : module_state) : merlin := cg_merlin (mo_config s).

(** Code of the other parts. *)
Definition on_merlin {A} (c : M A) : LM A := fun s =>
  let '(a, m) := c (merlin_of s) in CfgOk (a, s <| mo_config ::= fun g => g <| cg_merlin := m |> |>).
Definition on_config {A} (c : CM A) : LM A := fun s => cfg_bind (c (mo_config s)) (fun '(a, g) => CfgOk (a, s <| mo_config := g |>)).
Definition on_log (c : log_state -> log_state * list log_action) : LM unit :=
  lmod (fun s => let '(l, a) := c (mo_log s) in s <| mo_log := l |> <| mo_logged ::= fun x => x ++ a |>).
Definition on_splitting {A} (c : ST splitting A) : LM A := fun s =>
  let '(a, p) := c (Splitting (merlin_of s) (mo_files s) (mo_temps s) (mo_split_io s)) in
  CfgOk (a, s <| mo_config ::= fun g => g <| cg_merlin := so_merlin p |> |> <| mo_files := so_files p |> <| mo_temps := so_temps p |>
    <| mo_split_io := so_io p |>).

(** schedule_event of Naemon. *)
Definition schedule_event (delay : Z) (j : timed) : LM unit :=
  lmod (fun s => s <| mo_jobs ::= cons (m_now (merlin_of s) + delay, j) |>).

(** ** Callbacks *)

(** module/hooks.c:1227-1249 callback_table -- where the events go, and their type. *)
Definition callback_table : list (Z * Z) :=
  [(0, NEBCALLBACK_PROCESS_DATA); (0, NEBCALLBACK_EVENT_HANDLER_DATA); (DEST_NETWORK, NEBCALLBACK_NOTIFICATION_DATA);
   (0, NEBCALLBACK_CONTACT_NOTIFICATION_METHOD_DATA); (0, NEBCALLBACK_CHECK_DATA SERVICE_CHECK); (0, NEBCALLBACK_CHECK_DATA HOST_CHECK);
   (0, NEBCALLBACK_COMMENT_DATA); (0, NEBCALLBACK_DOWNTIME_DATA); (0, NEBCALLBACK_FLAPPING_DATA); (0, NEBCALLBACK_PROGRAM_STATUS_DATA);
   (0, NEBCALLBACK_STATUS_DATA HOST_CHECK); (0, NEBCALLBACK_STATUS_DATA SERVICE_CHECK); (DEST_NETWORK, NEBCALLBACK_EXTERNAL_COMMAND_DATA)].

(** module/hooks.c:1261-1280 merlin_hooks_init -- one entry of the table. *)
Definition hook_entry (use_database : bool) (nodes : Z) (mask : Z) (r : registry) (cb : Z * Z) : registry :=
  let '(dest, ty) := cb in
  if (dest =? DEST_DB) && negb use_database then r
  else if (dest =? DEST_NETWORK) && (nodes =? 0) then r
  else if Z.land mask (Z.shiftl 1 ty) =? 0 then r
  else neb_register_callback ty MerlinModHook r.

(** module/hooks.c:1251-1283 merlin_hooks_init *)
Definition merlin_hooks_init (mask : Z) : LM Z :=
  use_database ← lgets (fun s => cg_use_database (mo_config s));
  nodes ← lgets (fun s => num_nodes (merlin_of s));
  if negb use_database && (nodes =? 0) then mret 0 else
  lmod (fun s => s <| mo_neb := foldl (hook_entry use_database nodes mask) (mo_neb s) callback_table |>) ;; mret 0.

(** module/hooks.c:1289-1299 merlin_hooks_deinit *)
Definition merlin_hooks_deinit : LM Z :=
  lmod (fun s => s <| mo_neb := foldl (fun r cb => neb_deregister_callback cb.2 MerlinModHook r) (mo_neb s) callback_table |>) ;; mret 0.

(** ** Loading *)

(** shared/ipc.c:102-121 ipc_init_struct -- [bq_ok]: a buffer queue could be made. *)
Definition ipc_init_struct (bq_ok : bool) : LM unit :=
  on_merlin (on_node IPC (fun _ => zero_node <| conn_sock := 0 |> <| sock := -1 |> <| state_of := STATE_NONE |> <| node_id := CTRL_GENERIC |>
    <| type := MODE_LOCAL |> <| name := "ipc"%string |> <| flags := MERLIN_NODE_DEFAULT_IPC_FLAGS |>)) ;;
  if bq_ok then mret tt else lexit.

(** module/oconfsplit.c:30-32 split_init *)
Definition split_init : LM unit := lmod (fun s => s <| mo_config ::= fun g => g <| cg_split_dir := Some (CACHEDIR +:+ "/config/")%string |> |>).

(** module/oconfsplit.c:34-37 split_deinit *)
Definition split_deinit : LM unit := lmod (fun s => s <| mo_config ::= fun g => g <| cg_split_dir := None |> |>).

(** The options of logging that reading a configuration meets, in the order it meets them: [grok_common_var] of its variables and
    [grok_module_var] of those of the module. *)
Definition is_log_key (v : cfg_var) : bool := starts (v_key v) "log_" || equals (v_key v) "use_syslog".
Definition log_vars (file : cfg_comp) : list cfg_var :=
  List.filter is_log_key (c_vars file ++ concat (map c_vars (List.filter (fun c => starts (c_name c) "module") (c_nest file)))).
Definition log_config (file : option cfg_comp) (l : log_state) : log_state :=
  match file with None => l | Some f => foldl (fun l v => (grok_log_var (v_key v) (v_value v) l).1) l (log_vars f) end.

(** module/module.c:1744-1762 nebmodule_init -- what we are; [None] when reading Naemon's files crashes. *)
Definition own_info (m : merlin) (i : merlin_nodeinfo) : option merlin_nodeinfo :=
  change ← get_last_cfg_change config_files config_file;
  hash ← get_config_hash config_files config_file sha_memory;
  Some (i <| i_version := MERLIN_NODEINFO_VERSION |> <| i_word_size := COMPAT_WORDSIZE |> <| i_byte_order := ENDIANNESS |>
    <| i_monitored_object_state_size := sizeof_monitored_object_state |> <| i_object_structure_version := CURRENT_OBJECT_STRUCTURE_VERSION |>
    <| i_start := TV (m_now m) (m_usec m) |> <| i_last_cfg_change := change |> <| i_config_hash := hash |>).

(** module/module.c:1694-1778 nebmodule_init -- [file] is the parsed configuration, [bq_ok] and [fopen_ok] what making a buffer queue and
    opening the log give. *)
Definition nebmodule_init (bq_ok fopen_ok : bool) (file : option cfg_comp) : LM Z :=
  on_merlin (on_node IPC (fun n => n <| info := zero_info |>)) ;;
  ipc_init_struct bq_ok ;;
  split_init ;;
  r ← on_config (read_config file);
  lmod (fun s => s <| mo_log ::= log_config file |>) ;;
  if r <? 0 then mret (-1) else
  on_log (fun l => (log_init true fopen_ok l).1) ;;
  if negb (nagios_object_structure_version =? CURRENT_OBJECT_STRUCTURE_VERSION) then mret (-1) else
  m ← lgets merlin_of;
  match own_info m (self_of m) with
  | None => lcrash
  | Some i =>
      on_merlin (on_node IPC (fun n => n <| info := i |>)) ;;
      lmod (fun s => s <| mo_neb ::= neb_register_callback NEBCALLBACK_PROCESS_DATA PostConfigInit |>) ;;
      global ← lgets (fun s => cg_csync (mo_config s));
      on_merlin (post_process_nodes global) ;;
      mret 0
  end.

(** ** When Naemon has read its objects *)

(** module/module.c:1487-1493 post_config_init -- the tables of checks; those of expired objects are made in 1502-1503. *)
Definition new_check_tables : M unit :=
  modify (fun s => s <| m_checks ::= fun ck => ck <| ck_node := ∅ |> <| ck_expiry := ∅ |> <| ck_expired := ∅ |> |>).

(** module/module.c:1479-1539 post_config_init -- [listens] is what listening gives, [qh] what registering a query handler gives, [enc] what
    the event is encoded as. *)
Definition post_config_init (listens : bool) (qh : Z) (enc : list byte) (cb : Z) (ds : process_event) : LM Z :=
  match ds with
  | PROCESS_OTHER => mret 0
  | PROCESS_START =>
      dir ← lgets (fun s => cg_split_dir (mo_config s));
      match dir with
      | None => lcrash
      | Some d => on_splitting (split_config naemon_objects (str d) sha_memory) ;; mret 0
      end
  | PROCESS_EVENTLOOPSTART =>
      lmod (fun s => s <| mo_neb ::= neb_deregister_callback NEBCALLBACK_PROCESS_DATA PostConfigInit |>) ;;
      on_merlin new_check_tables ;;
      r ← on_merlin pgroup_init;
      match r with
      | None => lcrash
      | Some r =>
          if r <? 0 then mret (-1) else
          on_merlin setup_host_hash_tables ;;
          ipc ← on_merlin (get_node IPC);
          on_merlin (pgroup_assign_peer_ids (pgroup ipc)) ;;
          lmod (fun s => s <| mo_qh := mo_qh s || (0 <=? qh) |>) ;;
          schedule_event 0 ConnectToAll ;;
          schedule_event 0 SendPulse ;;
          schedule_event 0 DisconnectInactiveNodes ;;
          schedule_event node_auto_delete_check_interval AutoDeleteNodes ;;
          mask ← lgets (fun s => cg_event_mask (mo_config s));
          merlin_hooks_init mask ;;
          n ← on_merlin (net_init listens);
          if n <? 0 then mret (-1) else
          h ← on_merlin (merlin_mod_hook cb (Some ProcessData) enc);
          match h with None => lcrash | Some _ => mret 0 end
      end
  end.

(** ** The jobs *)

(** Doing a job, and when it schedules itself again: the first three do it before anything else, [auto_delete_nodes] only when the daemon is
    connected. *)
(** module/module.c:1260-1270 connect_to_all *)
Definition job_connect (resolved : string -> Z) : LM unit :=
  schedule_event connect_interval ConnectToAll ;; on_merlin (connect_to_all resolved).

(** module/module.c:1296-1304 send_pulse *)
Definition job_pulse : LM unit :=
  p ← lgets (fun s => m_pulse_interval (merlin_of s)); schedule_event p SendPulse ;; on_merlin send_pulse.

(** module/module.c:1319-1327 disconnect_inactive_nodes *)
Definition job_disconnect : LM unit :=
  schedule_event node_activity_check_interval DisconnectInactiveNodes ;; on_merlin disconnect_inactive_nodes.

(** module/module.c:1422-1462 auto_delete_nodes -- [false] of it is writing behind the buffer. *)
Definition job_delete : LM unit :=
  ipc ← on_merlin (get_node IPC);
  if negb (state_of ipc =?s STATE_CONNECTED) then mret tt else
  schedule_event node_auto_delete_check_interval AutoDeleteNodes ;;
  ok ← on_merlin auto_delete_nodes;
  if ok : bool then mret tt else lcrash.

Definition do_job (resolved : string -> Z) (j : timed) : LM unit :=
  match j with
  | ConnectToAll => job_connect resolved
  | SendPulse => job_pulse
  | DisconnectInactiveNodes => job_disconnect
  | AutoDeleteNodes => job_delete
  end.

(** ** Unloading *)

(** module/module.c:1809-1827 nebmodule_deinit -- a node. *)
Definition save_node (n : nat) : M unit :=
  bc ← gets m_binlog;
  if bc_persist bc then on_binlog 0 n (fun bl w => binlog_save bl w) ;; mret tt else mret tt.

(** module/module.c:1787-1846 nebmodule_deinit *)
Definition nebmodule_deinit : LM Z :=
  on_merlin ipc_deinit ;;
  on_log (log_deinit true) ;;
  on_merlin net_deinit ;;
  merlin_hooks_deinit ;;
  on_merlin (modify (fun s => s <| m_hooks ::= fun hk => hk <| hk_blocked := [] |> |>)) ;;
  m ← lgets merlin_of;
  on_merlin (for_each (take (Z.to_nat (num_nodes m)) (m_table m)) save_node) ;;
  on_merlin (modify (fun s => s <| m_table := [] |> <| m_hooks ::= fun hk => hk <| hk_host_sel := ∅ |> |>)) ;;
  on_merlin (on_binlog tt IPC (fun bl w => let '(bl, w) := binlog_wipe bl BINLOG_UNLINK w in (tt, bl, w))) ;;
  on_merlin pgroup_deinit ;;
  split_deinit ;;
  on_log (log_deinit true) ;;
  mret 0.
End Lifecycle.

(** ** Callbacks are registered once and taken away *)

Section Callbacks.
Context {QS : QSort} {SD : Sodium} {NC : NebCallbacks} {NT : NebTable} {NB : Neb} {NL : Naemon} {KE : Kernel} {CE : ConfigEnv} {NP : Nspath} {FC : Fcache}
  {ME : ModuleEnv}.

Lemma callback_table_types : callback_table.*2 = table_types.
Proof. done. Qed.

(** Whether events of a type are to come to the module. *)
Definition wants (use_database : bool) (nodes mask ty : Z) : bool :=
  (use_database || negb (nodes =? 0)) && bool_decide (ty ∈ table_types) && Z.testbit mask ty &&
  (negb (nodes =? 0) || negb ((ty =? NEBCALLBACK_NOTIFICATION_DATA) || (ty =? NEBCALLBACK_EXTERNAL_COMMAND_DATA))).

(** What an entry of the table does, as a filter of its type. *)
Definition entry_wants (use_database : bool) (nodes mask : Z) (cb : Z * Z) : bool :=
  negb ((cb.1 =? DEST_DB) && negb use_database) && negb ((cb.1 =? DEST_NETWORK) && (nodes =? 0)) && negb (Z.land mask (Z.shiftl 1 cb.2) =? 0).

Lemma hook_entry_wants db nodes mask r cb :
  hook_entry db nodes mask r cb = if entry_wants db nodes mask cb then neb_register_callback cb.2 MerlinModHook r else r.
Proof. destruct cb as [dest ty]. unfold hook_entry, entry_wants. cbn [fst snd].
  destruct ((dest =? DEST_DB) && negb db); [done|]. destruct ((dest =? DEST_NETWORK) && (nodes =? 0)); [done|]. by destruct (Z.land _ _ =? 0).
Qed.

(** Whether some entry has the type and is wanted. *)
Definition some_entry (db : bool) (nodes mask t : Z) (l : list (Z * Z)) : bool := existsb (fun cb => (cb.2 =? t) && entry_wants db nodes mask cb) l.

Lemma no_entry db nodes mask t l : t ∉ l.*2 -> some_entry db nodes mask t l = false.
Proof.
  induction l as [|cb l IH]; [done|]. rewrite fmap_cons, not_elem_of_cons. intros [H1 H2]. unfold some_entry in *. cbn [existsb].
  rewrite (proj2 (Z.eqb_neq _ _)) by done. by apply IH.
Qed.

Lemma register_all db nodes mask t l r : NoDup l.*2 ->
  neb_count (foldl (hook_entry db nodes mask) r l) t MerlinModHook =
  ((if some_entry db nodes mask t l then 1 else 0) + neb_count r t MerlinModHook)%nat.
Proof.
  revert r. induction l as [|cb l IH]; intros r N; cbn [foldl]; [done|].
  rewrite fmap_cons, NoDup_cons in N. destruct N as [N1 N2]. rewrite IH, hook_entry_wants by done.
  unfold some_entry. cbn [existsb]. fold (some_entry db nodes mask t l).
  destruct (Z.eqb_spec cb.2 t) as [<-|Ht]; cbn [andb orb].
  - rewrite (no_entry _ _ _ _ _ N1). destruct (entry_wants db nodes mask cb); [|done]. rewrite neb_register_count, decide_True by done. done.
  - destruct (entry_wants db nodes mask cb); [|done]. by rewrite neb_register_count, decide_False by (intros [= E]; by apply Ht).
Qed.

Lemma register_other db nodes mask t l r : neb_count (foldl (hook_entry db nodes mask) r l) t PostConfigInit = neb_count r t PostConfigInit.
Proof.
  revert r. induction l as [|cb l IH]; intros r; [done|]. cbn [foldl]. rewrite IH, hook_entry_wants.
  destruct (entry_wants db nodes mask cb); [|done]. by rewrite neb_register_count, decide_False.
Qed.

Lemma land_pow2_testbit mask t : 0 <= t -> (Z.land mask (Z.shiftl 1 t) =? 0) = negb (Z.testbit mask t).
Proof.
  intros Ht. pose proof (enabled_testbit (Log None None 0 mask) t Ht) as H. unfold enabled in H. cbn [log_levels] in H.
  rewrite Z.land_comm in H. rewrite <- H. by rewrite negb_involutive.
Qed.

Lemma one_entry db nodes mask d t l : NoDup l.*2 -> (d, t) ∈ l -> some_entry db nodes mask t l = entry_wants db nodes mask (d, t).
Proof.
  induction l as [|cb l IH]; intros N H; [by apply elem_of_nil in H|]. rewrite fmap_cons, NoDup_cons in N. destruct N as [N1 N2].
  unfold some_entry. cbn [existsb]. fold (some_entry db nodes mask t l). apply elem_of_cons in H as [<-|H]; cbn [snd].
  - rewrite Z.eqb_refl, no_entry by done. by rewrite orb_false_r.
  - rewrite (proj2 (Z.eqb_neq cb.2 t)), IH by (done || intros E; apply N1; rewrite E; by apply (list_elem_of_fmap_2 snd _ (d, t))). done.
Qed.

(** Notifications and commands are what only goes over the network. *)
Lemma table_dest d t : (d, t) ∈ callback_table ->
  d = if (t =? NEBCALLBACK_NOTIFICATION_DATA) || (t =? NEBCALLBACK_EXTERNAL_COMMAND_DATA) then DEST_NETWORK else 0.
Proof.
  pose proof table_types_distinct as ND. intros [i Hi]%list_elem_of_lookup.
  assert (table_types !! i = Some t) as Ht by (by rewrite <- callback_table_types, list_lookup_fmap, Hi).
  destruct (Z.eqb_spec t NEBCALLBACK_NOTIFICATION_DATA) as [->|N1]; cbn [orb].
  { rewrite (NoDup_lookup _ i 2 _ ND Ht eq_refl) in Hi. by injection Hi. }
  destruct (Z.eqb_spec t NEBCALLBACK_EXTERNAL_COMMAND_DATA) as [->|N2].
  { rewrite (NoDup_lookup _ i 12 _ ND Ht eq_refl) in Hi. by injection Hi. }
  do 13 (destruct i as [|i]; [injection Hi as <- <-; done|]). done.
Qed.

Lemma table_wants db nodes mask t : db || negb (nodes =? 0) = true -> some_entry db nodes mask t callback_table = wants db nodes mask t.
Proof.
  intros Hd. unfold wants. rewrite Hd. cbn [andb].
  destruct (bool_decide_reflect (t ∈ table_types)) as [T|T]; cbn [andb]; [|by apply no_entry].
  pose proof (table_types_bits t T) as B. rewrite <- callback_table_types in T. apply list_elem_of_fmap in T as ([d ty] & E & H). cbn in E. subst ty.
  rewrite (one_entry _ _ _ d) by (done || rewrite callback_table_types; apply table_types_distinct).
  unfold entry_wants. cbn [fst snd]. rewrite land_pow2_testbit, negb_involutive, (table_dest _ _ H) by lia.
  destruct ((t =? NEBCALLBACK_NOTIFICATION_DATA) || (t =? NEBCALLBACK_EXTERNAL_COMMAND_DATA)); unfold DEST_DB, DEST_NETWORK;
    by destruct (Z.testbit mask t), (nodes =? 0).
Qed.

(** Registering the callbacks adds exactly one for each type of event that is wanted: one of the table whose bit is in the mask, and for what
    only goes over the network when there are nodes; and nothing at all with neither nodes nor a database.  Other functions are left alone. *)
Theorem hooks_registered mask s : exists reg, merlin_hooks_init mask s = CfgOk (0, s <| mo_neb := reg |>) /\
  forall t f, neb_count reg t f =
    ((if bool_decide (f = MerlinModHook) && wants (cg_use_database (mo_config s)) (num_nodes (merlin_of s)) mask t then 1 else 0) + neb_count (mo_neb s) t f)%nat.
Proof.
  unfold merlin_hooks_init, mbind, LM_bind, lgets, lmod, mret, LM_ret. cbn [cfg_bind]. set (db := cg_use_database _). set (k := num_nodes _).
  destruct (negb db && (k =? 0)) eqn:E.
  - exists (mo_neb s). split; [by destruct s|]. intros t f. unfold wants. replace (db || negb (k =? 0)) with false by (by destruct db, (k =? 0)).
    by rewrite andb_false_r.
  - eexists. split; [reflexivity|]. intros t f. destruct f.
    + rewrite bool_decide_false by done. apply register_other.
    + rewrite bool_decide_true by done. rewrite andb_true_l, register_all, table_wants; [done| |].
      * clear -E. by destruct db, (k =? 0).
      * rewrite callback_table_types. apply table_types_distinct.
Qed.

Lemma deregister_all t f l r :
  neb_count (foldl (fun r (cb : Z * Z) => neb_deregister_callback cb.2 MerlinModHook r) r l) t f =
  (neb_count r t f - (if bool_decide (f = MerlinModHook) then length (List.filter (fun cb => Z.eqb cb.2 t) l) else 0))%nat.
Proof.
  revert r. induction l as [|cb l IH]; intros r; cbn [foldl List.filter length]; [by destruct (bool_decide _); rewrite Nat.sub_0_r|].
  rewrite IH, neb_deregister_count. destruct (Z.eqb_spec cb.2 t) as [<-|N]; cbn [length].
  - destruct f; [rewrite decide_False by done; by rewrite bool_decide_false|]. rewrite decide_True, bool_decide_true by done. lia.
  - by rewrite decide_False by (intros [= E]; by apply N).
Qed.

(** C34.  Taking the callbacks away leaves none of them where at most one was registered for the types of the table and none for others, as
    there are after they were registered in a process that had none; what the module has registered besides them stays. *)
Theorem hooks_removed mask s s1 s2 : (forall t, neb_count (mo_neb s) t MerlinModHook = 0)%nat ->
  merlin_hooks_init mask s = CfgOk (0, s1) -> mo_neb s2 = mo_neb s1 ->
  exists reg, merlin_hooks_deinit s2 = CfgOk (0, s2 <| mo_neb := reg |>) /\
    forall t f, neb_count reg t f = if bool_decide (f = MerlinModHook) then 0%nat else neb_count (mo_neb s) t f.
Proof.
  intros H0 H1 H2. destruct (hooks_registered mask s) as (reg & E & C). rewrite E in H1. assert (s1 = s <| mo_neb := reg |>) as -> by congruence.
  eexists. split; [reflexivity|]. intros t f. rewrite deregister_all, H2. change (mo_neb (s <| mo_neb := reg |>)) with reg. rewrite C.
  destruct f; [by rewrite !bool_decide_false, Nat.sub_0_r by done|]. rewrite !bool_decide_true, H0, andb_true_l by done.
  destruct (wants _ _ mask t) eqn:W; [|done]. unfold wants in W. rewrite !andb_true_iff, bool_decide_eq_true in W. destruct W as [[[_ W] _] _].
  rewrite <- callback_table_types in W. apply list_elem_of_fmap in W as (cb & -> & Hcb).
  assert (cb ∈ List.filter (fun x => x.2 =? cb.2) callback_table) as F by (apply list_elem_of_In, List.filter_In; split; [by apply list_elem_of_In|apply Z.eqb_refl]).
  destruct (List.filter _ callback_table); [by apply elem_of_nil in F|]. cbn [length]. lia.
Qed.
End Callbacks.

(** ** The jobs that keep running, and the one that does not *)

Section Jobs.
Context {QS : QSort} {SD : Sodium} {NC : NebCallbacks} {NT : NebTable} {NB : Neb} {NL : Naemon} {KE : Kernel} {CE : ConfigEnv} {NP : Nspath} {FC : Fcache}
  {ME : ModuleEnv} (resolved : string -> Z).

(** What goes on once Naemon's event loop runs: it does a job that is due, or calls some handler of the module, which is any code on its
    state, and time goes by. *)
Inductive loop_step : module_state -> module_state -> Prop :=
| step_job s t j before after s' :
    mo_jobs s = before ++ (t, j) :: after -> t <= m_now (merlin_of s) ->
    do_job resolved j (s <| mo_jobs := before ++ after |>) = CfgOk (tt, s') -> loop_step s s'
| step_handler s (c : M unit) s' : on_merlin c s = CfgOk (tt, s') -> loop_step s s'.

(** How often a job is waiting. *)
Definition waiting (j : timed) (s : module_state) : nat := length (List.filter (fun e => bool_decide (e.2 = j)) (mo_jobs s)).

Lemma on_merlin_jobs {A} (c : M A) s a s' : on_merlin c s = CfgOk (a, s') -> mo_jobs s' = mo_jobs s.
Proof. unfold on_merlin. destruct (c (merlin_of s)) as [x m]. intros H. assert (s' = s <| mo_config ::= fun g => g <| cg_merlin := m |> |>) as -> by congruence. done. Qed.

Lemma waiting_split j before t k after s : mo_jobs s = before ++ (t, k) :: after ->
  waiting j s = ((if bool_decide (k = j) then 1 else 0) + waiting j (s <| mo_jobs := before ++ after |>))%nat.
Proof.
  intros E. unfold waiting. change (mo_jobs (s <| mo_jobs := before ++ after |>)) with (before ++ after).
  rewrite E, !List.filter_app, !length_app. cbn [List.filter snd]. destruct (bool_decide (k = j)); cbn [length]; lia.
Qed.

(** A job puts itself on the queue again, [auto_delete_nodes] only when the daemon is connected, and nothing else. *)
Lemma do_job_jobs j s s' : do_job resolved j s = CfgOk (tt, s') ->
  mo_jobs s' = mo_jobs s /\ j = AutoDeleteNodes /\ state_of (ipc_of (merlin_of s)) <> STATE_CONNECTED \/ exists t, mo_jobs s' = (t, j) :: mo_jobs s.
Proof.
  assert (forall d k (c : M unit), (schedule_event d k ;; on_merlin c) s = CfgOk (tt, s') -> exists t, mo_jobs s' = (t, k) :: mo_jobs s) as K.
  { intros d k c H. unfold mbind, LM_bind, schedule_event, lmod in H. cbn [cfg_bind] in H. apply on_merlin_jobs in H. rewrite H. by eexists. }
  destruct j; cbn [do_job].
  - intros H. right. by eapply K.
  - unfold job_pulse. intros H. right. unfold mbind at 1, LM_bind at 1, lgets in H. cbn [cfg_bind] in H. by eapply K.
  - intros H. right. by eapply K.
  - unfold job_delete, mbind at 1, LM_bind at 1. unfold on_merlin at 1, get_node, gets. cbn [cfg_bind].
    change (m_nodes (merlin_of s) !!! IPC) with (ipc_of (merlin_of s)).
    set (s0 := s <| mo_config ::= _ |>). assert (s0 = s) as -> by (unfold s0, merlin_of; destruct s as [[] ? ? ? ? ? ? ? ?]; done).
    destruct (bool_decide_reflect (state_of (ipc_of (merlin_of s)) = STATE_CONNECTED)) as [C|C]; cbn [negb].
    + unfold mbind, LM_bind, schedule_event, lmod. cbn [cfg_bind]. intros H. right. set (s1 := s <| mo_jobs ::= _ |>) in H.
      destruct (on_merlin auto_delete_nodes s1) as [[ok s2]| | | |] eqn:E; try done. apply on_merlin_jobs in E. cbn [cfg_bind] in H.
      destruct ok; [|done]. assert (s' = s2) as -> by (unfold mret, LM_ret in H; congruence). rewrite E. by eexists.
    + intros H. left. assert (s' = s) as -> by (unfold mret, LM_ret in H; congruence). done.
Qed.

Lemma waiting_done j k s s' : do_job resolved k s = CfgOk (tt, s') ->
  waiting j s' = ((if bool_decide (k = j) then (if bool_decide (mo_jobs s' = mo_jobs s) then 0 else 1) else 0) + waiting j s)%nat.
Proof.
  intros H. destruct (do_job_jobs k s s' H) as [(E & -> & _)|[t E]].
  - rewrite (bool_decide_true (mo_jobs s' = _)) by done. unfold waiting. rewrite E. by destruct (bool_decide _).
  - rewrite (bool_decide_false (mo_jobs s' = _)).
    + unfold waiting. rewrite E. cbn [List.filter snd]. by destruct (bool_decide (k = j)).
    + rewrite E. intros F. apply (f_equal length) in F. cbn [length] in F. lia.
Qed.

Lemma loop_step_waiting s s' j : loop_step s s' ->
  waiting j s' = waiting j s \/ j = AutoDeleteNodes /\ waiting j s = S (waiting j s').
Proof.
  intros [s0 t k before after s1 E _ H|s0 c s1 H].
  - pose proof (waiting_done j k _ _ H) as W. rewrite (waiting_split j _ _ _ _ _ E). rewrite W.
    destruct (bool_decide_reflect (k = j)) as [->|]; [|by left]. destruct (do_job_jobs j _ _ H) as [(F & -> & _)|[t' F]].
    + right. rewrite F, bool_decide_true by done. split; [done|lia].
    + left. rewrite F, bool_decide_false; [done|]. intros G. apply (f_equal length) in G. cbn [length] in G. lia.
  - left. unfold waiting. by rewrite (on_merlin_jobs _ _ _ _ H).
Qed.

(** Connecting, the pulse and looking for silent nodes go on for ever: whatever else happens, each of them is waiting exactly as often as
    it was when the loop began, once after [post_config_init]. *)
Theorem jobs_keep_running s s' j : rtc loop_step s s' -> j <> AutoDeleteNodes -> waiting j s' = waiting j s.
Proof.
  intros H N. induction H as [|s1 s2 s3 H _ IH]; [done|]. rewrite IH. by destruct (loop_step_waiting s1 s2 j H) as [|[-> _]].
Qed.

(** Deleting inactive nodes does not: when its time comes while the daemon is not connected, it is not put on the queue again, and
    whatever happens it never waits again. *)
Theorem auto_delete_stops s t before after s' s'' :
  mo_jobs s = before ++ (t, AutoDeleteNodes) :: after -> waiting AutoDeleteNodes s = 1%nat -> state_of (ipc_of (merlin_of s)) <> STATE_CONNECTED ->
  do_job resolved AutoDeleteNodes (s <| mo_jobs := before ++ after |>) = CfgOk (tt, s') -> rtc loop_step s' s'' ->
  waiting AutoDeleteNodes s'' = 0%nat.
Proof.
  intros E W C H R. pose proof (waiting_split AutoDeleteNodes _ _ _ _ _ E) as W1. rewrite W, bool_decide_true in W1 by done.
  destruct (do_job_jobs _ _ _ H) as [(F & _ & _)|[t' F]].
  - assert (waiting AutoDeleteNodes s' = 0%nat) as W0 by (unfold waiting in *; rewrite F; cbn [mo_jobs] in W1; lia).
    clear -R W0. induction R as [|s1 s2 s3 H R IH]; [done|]. apply IH. destruct (loop_step_waiting _ _ AutoDeleteNodes H) as [|[_ ]]; lia.
  - exfalso. cbn [do_job] in H. unfold job_delete, mbind at 1, LM_bind at 1 in H. unfold on_merlin at 1, get_node, gets in H. cbn [cfg_bind] in H.
    change (m_nodes (merlin_of (s <| mo_jobs := before ++ after |>)) !!! IPC) with (ipc_of (merlin_of s)) in H.
    rewrite bool_decide_false in H by done. cbn [negb] in H. unfold mret, LM_ret in H. injection H as <-.
    apply (f_equal length) in F. cbn in F. lia.
Qed.
End Jobs.

(** ** A module that is loaded, runs and is unloaded *)

#[local] Existing Instances QSort_insertion plain_sodium naemon_callbacks demo_naemon demo_env demo_nspath.
#[local] Existing Instance demo_kA.

#[export] Program Instance demo_table : NebTable :=
  {| NEBCALLBACK_EVENT_HANDLER_DATA := 1; NEBCALLBACK_DOWNTIME_DATA := 2; NEBCALLBACK_FLAPPING_DATA := 3 |}.
Next Obligation. vm_compute. repeat constructor; set_solver. Qed.
Next Obligation. intros t H. vm_compute in H. set_solver by lia. Qed.

Definition demo_count (r : list (Z * neb_fn)) (t : Z) (f : neb_fn) : nat := length (List.filter (fun e => bool_decide (e = (t, f))) r).
Fixpoint take_away (e : Z * neb_fn) (r : list (Z * neb_fn)) : list (Z * neb_fn) :=
  match r with [] => [] | x :: r => if decide (x = e) then r else x :: take_away e r end.

#[export] Program Instance demo_neb : Neb :=
  {| registry := list (Z * neb_fn); neb_count := demo_count; neb_register_callback t f r := (t, f) :: r;
     neb_deregister_callback t f r := take_away (t, f) r |}.
Next Obligation.
  intros t f r t' f'. unfold demo_count. cbn [List.filter]. case_decide as E; [rewrite E, bool_decide_true by done; done|].
  by rewrite bool_decide_false.
Qed.
Next Obligation.
  intros t f r t' f'. unfold demo_count. induction r as [|x r IH]; cbn [take_away List.filter]; [by case_decide|].
  destruct (decide (x = (t, f))) as [->|N].
  - case_decide as E; [by rewrite E, bool_decide_true|by rewrite bool_decide_false].
  - cbn [List.filter]. case_decide as E; destruct (bool_decide_reflect (x = (t', f'))) as [->|M]; cbn [length]; rewrite ?IH; try done.
Qed.

#[export] Instance demo_module_env : ModuleEnv :=
  {| CURRENT_OBJECT_STRUCTURE_VERSION := 402; nagios_object_structure_version := 402; sizeof_monitored_object_state := 200;
     CACHEDIR := "/var/cache/merlin"%string; config_files := server1; config_file := str "/etc/naemon.cfg"; naemon_objects := demo_oconf;
     sha_memory := ctx0 |}.

(** A poller and a peer, with a log file. *)
Definition demo_life_file : cfg_comp := Eval vm_compute in
  match parse_text (str "merlin.conf") (lines ["log_file = /var/log/merlin.log;"; "log_level = warn;"; "module {"; " log_level = +debug;"; "}";
    "poller north {"; " hostgroup = hg"; "}"; "peer twin {"; " address = 10.0.0.2"; "}"]%string) with CfgOk [c] => c | _ => Comp [] 0 [] [] end.

Abbreviation hooks_are s l := (mo_neb s = (l : list (Z * neb_fn))).
Definition no_hooks : @registry demo_neb := [].

(** The process before the module is loaded. *)
Definition demo_process : module_state := Mod demo_blank log_start [] ∅ [] [AllWell (str "/tmp/a")] [] [] false.

(** The result of a call and what it leaves; [demo_process] when it does not return. *)
Definition left_by {A} (d : A) (r : cfg_result (A * module_state)) : A * module_state := match r with CfgOk x => x | _ => (d, demo_process) end.

Definition demo_loaded : module_state := Eval vm_compute in (left_by (-9) (nebmodule_init true true (Some demo_life_file) demo_process)).2.
Definition demo_running : module_state := Eval vm_compute in (left_by (-9) (post_config_init true 0 [] 0 PROCESS_EVENTLOOPSTART demo_loaded)).2.

(** The callback of Naemon's own reading of its objects waits after loading; with the objects read, the module's callbacks are there once
    each, its jobs wait, and the log file is open; after unloading there is neither. *)
Example demo_life :
  nebmodule_init true true (Some demo_life_file) demo_process = CfgOk (0, demo_loaded) /\
  hooks_are demo_loaded [(NEBCALLBACK_PROCESS_DATA, PostConfigInit)] /\ enabled (mo_log demo_loaded) LOG_DEBUG = true /\
  post_config_init true 0 [] NEBCALLBACK_PROCESS_DATA PROCESS_EVENTLOOPSTART demo_loaded = CfgOk (0, demo_running) /\
  hooks_are demo_running (reverse (map (fun t => (t, MerlinModHook)) table_types)) /\
  mo_jobs demo_running = [(1030, AutoDeleteNodes); (1000, DisconnectInactiveNodes); (1000, SendPulse); (1000, ConnectToAll)] /\
  match nebmodule_deinit demo_running with
  | CfgOk (r, s) => r = 0 /\ hooks_are s [] /\ mo_logged s = [Fopen (str "/var/log/merlin.log"); Fclose (LogFile (str "/var/log/merlin.log"))] /\
      acts [] (mo_logged s) = Some [] /\ m_table (merlin_of s) = []
  | _ => False
  end.
Proof. vm_compute. repeat split. Qed.

(** With only a peer gone, as with everything, unloading leaves the module's jobs in Naemon's queue and its query handler registered. *)
Theorem deinit_leaves_jobs :
  match nebmodule_deinit demo_running with CfgOk (_, s) => mo_jobs s = mo_jobs demo_running /\ mo_qh s = true | _ => False end.
Proof. vm_compute. repeat split. Qed.

Example hooks_removed_witness :
  (forall t, neb_count (mo_neb demo_process) t MerlinModHook = 0)%nat /\
  exists reg, merlin_hooks_deinit demo_running = CfgOk (0, demo_running <| mo_neb := reg |>) /\
    neb_count reg NEBCALLBACK_PROCESS_DATA MerlinModHook = 0%nat.
Proof.
  split; [done|].
  destruct (merlin_hooks_init 0xffffffff (demo_running <| mo_neb := no_hooks |>)) as [[r s1]| | | |] eqn:E; try (vm_compute in E; discriminate E).
  assert (r = 0) as -> by (destruct (hooks_registered 0xffffffff (demo_running <| mo_neb := no_hooks |>)) as (reg & E' & _); congruence).
  destruct (hooks_removed 0xffffffff (demo_running <| mo_neb := no_hooks |>) s1 demo_running) as (reg & H & C); [done|exact E| |].
  - exact (f_equal (fun x => mo_neb (left_by 0 x).2) E).
  - exists reg. split; [exact H|]. by rewrite C.
Defined.

(** Half a minute later the daemon is still away. *)
Definition demo_later : module_state := demo_running <| mo_config ::= fun g => g <| cg_merlin ::= fun m => m <| m_now := 1030 |> |> |>.

Example auto_delete_stops_witness : forall s'', rtc (loop_step (fun _ => 0))
  (left_by tt (do_job (fun _ => 0) AutoDeleteNodes (demo_later <| mo_jobs ::= tail |>))).2 s'' -> waiting AutoDeleteNodes s'' = 0%nat.
Proof.
  intros s'' H. apply (auto_delete_stops (fun _ => 0) demo_later 1030 [] (tail (mo_jobs demo_later))
    (left_by tt (do_job (fun _ => 0) AutoDeleteNodes (demo_later <| mo_jobs ::= tail |>))).2 s'').
  - reflexivity.
  - vm_compute. reflexivity.
  - vm_compute. discriminate.
  - vm_compute. reflexivity.
  - exact H.
Defined.

Example jobs_keep_running_witness : forall s, rtc (loop_step (fun _ => 0)) demo_running s -> waiting SendPulse s = 1%nat.
Proof. intros s H. rewrite (jobs_keep_running (fun _ => 0) demo_running s SendPulse H ltac:(discriminate)). vm_compute. reflexivity. Defined.

(** ** What we tell the others of ourselves *)

(** The fields of an information of a node have the widths of the structure. *)
Definition info_wf (i : merlin_nodeinfo) : Prop :=
  Forall (fun z => 0 <= z < 2 ^ 32)
    [i_version i; i_word_size i; i_byte_order i; i_object_structure_version i; i_peer_id i; i_active_peers i; i_configured_peers i;
     i_active_pollers i; i_configured_pollers i; i_active_masters i; i_configured_masters i; i_host_checks_handled i;
     i_service_checks_handled i; i_monitored_object_state_size i] /\
  Forall (fun z => - 2 ^ 63 <= z < 2 ^ 63) [Packet.tv_sec (i_start i); Packet.tv_usec (i_start i); i_last_cfg_change i] /\
  length (i_config_hash i) = 20%nat.

(** What a node sends of itself is what is read on the other side, whatever follows it in the packet. *)
Theorem info_roundtrip i b : info_wf i -> info_of_bytes (info_bytes i ++ b) = i.
Proof.
  destruct i as [ve ws bo os [sec us] ch ha pi ap cp apo cpo am cm hc sc ms]. intros (H & K & L). cbn in H, K, L. rewrite !Forall_cons in H. rewrite !Forall_cons in K.
  destruct H as (? & ? & ? & ? & ? & ? & ? & ? & ? & ? & ? & ? & ? & ? & _). destruct K as (? & ? & ? & _).
  unfold info_of_bytes, info_bytes. cbn [i_version i_word_size i_byte_order i_object_structure_version i_peer_id i_active_peers i_configured_peers
    i_active_pollers i_configured_pollers i_active_masters i_configured_masters i_host_checks_handled i_service_checks_handled
    i_monitored_object_state_size i_start i_last_cfg_change i_config_hash Packet.tv_sec Packet.tv_usec].
  rewrite <- !app_assoc. f_equal.
  all: try (f_equal); skip_fields; rewrite ?L; skip_fields; cbn [Nat.sub]; first [by apply (num_split 4)|by apply s64_num_split|by apply field_all|idtac].
Qed.

Section SameFiles.
Context {QS : QSort} {CE : ConfigEnv} {NP : Nspath} {ME : ModuleEnv}.

Lemma own_info_fields m i a : own_info m i = Some a ->
  i_version a = MERLIN_NODEINFO_VERSION /\ i_word_size a = COMPAT_WORDSIZE /\ i_byte_order a = ENDIANNESS /\
  i_object_structure_version a = CURRENT_OBJECT_STRUCTURE_VERSION /\ conf a = conf i /\
  get_last_cfg_change config_files config_file = Some (i_last_cfg_change a) /\
  get_config_hash config_files config_file sha_memory = Some (i_config_hash a).
Proof.
  unfold own_info, mbind, option_bind. destruct (get_last_cfg_change _ _) as [c|]; [|done]. destruct (get_config_hash _ _ _) as [h|]; [|done].
  intros [= <-]. done.
Qed.

(** Two modules of one build, with the same configuration files, that have just been loaded accept each other: what one sends of itself is
    compatible for the other, and for a peer that is prepared as [post_process_nodes] does it is the configuration that is expected,
    whenever they were started. *)
Theorem fresh_peers_agree m1 i1 a m2 i2 b global n s pkt pad :
  own_info m1 i1 = Some a -> own_info m2 i2 = Some b -> info_wf b ->
  self_of s = a -> type (m_nodes s !!! n) = MODE_PEER ->
  body pkt = info_bytes b ++ pad -> sizeof_nodeinfo <= h_len (hdr pkt) ->
  node_compat_cmp CURRENT_OBJECT_STRUCTURE_VERSION pkt = 0 /\
  node_oconf_cmp (m_nodes (post_process_defaults global n s).2 !!! n) a (info_of_bytes (body pkt)) = 0.
Proof.
  intros Ha Hb Wb Hs Ht Hp Hl. apply own_info_fields in Ha as (_ & _ & _ & _ & _ & _ & Ha). apply own_info_fields in Hb as (V & W & B & O & _ & _ & Hb).
  rewrite Hp, info_roundtrip by done. unfold node_compat_cmp. rewrite Hp, info_roundtrip, V, W, B, O by done.
  rewrite (proj2 (Z.ltb_ge _ _) Hl), !Z.eqb_refl. split; [vm_compute; reflexivity|].
  unfold node_oconf_cmp. unfold post_process_defaults, mbind, ST_bind, get_node, gets, on_node, modify. cbn [snd m_nodes]. cbn.
  rewrite lookup_total_insert_eq. cbn. rewrite Ht. change (MODE_PEER =?s MODE_MASTER) with false. change (MODE_PEER =?s MODE_PEER) with true. cbn.
  rewrite bool_decide_true; [done|]. unfold self_of, ipc_of in Hs. rewrite Hs. congruence.
Qed.
End SameFiles.

(** A module with other structures of Naemon's objects is turned away. *)
Theorem other_objects_refused (b : merlin_nodeinfo) pad pkt objver : info_wf b -> body pkt = info_bytes b ++ pad -> sizeof_nodeinfo <= h_len (hdr pkt) ->
  i_version b = MERLIN_NODEINFO_VERSION -> i_word_size b = COMPAT_WORDSIZE -> i_byte_order b = ENDIANNESS ->
  i_object_structure_version b <> objver -> node_compat_cmp objver pkt = ESYNC_EOBJECTS.
Proof.
  intros Wb Hp Hl V W B O. unfold node_compat_cmp. rewrite Hp, info_roundtrip, V, W, B by done.
  rewrite (proj2 (Z.ltb_ge _ _) Hl), !Z.eqb_refl, (proj2 (Z.eqb_neq _ _) O). vm_compute. reflexivity.
Qed.

(** The other server: it lists its directories in the same order here, and was started later. *)
Definition demo_twin : merlin_nodeinfo := Eval vm_compute in
  default zero_info (own_info ((cg_merlin demo_blank) <| m_now := 5000 |>) zero_info).

Example fresh_peers_agree_witness :
  let pkt := Event (blank_hdr <| h_len := 100 |>) (info_bytes demo_twin) in
  node_compat_cmp CURRENT_OBJECT_STRUCTURE_VERSION pkt = 0 /\
  node_oconf_cmp (m_nodes (post_process_defaults zero_csync 2 (merlin_of demo_loaded)).2 !!! 2%nat) (self_of (merlin_of demo_loaded)) (info_of_bytes (body pkt)) = 0.
Proof.
  apply (fresh_peers_agree (cg_merlin demo_blank) (self_of (merlin_of demo_loaded)) (self_of (merlin_of demo_loaded))
    ((cg_merlin demo_blank) <| m_now := 5000 |>) zero_info demo_twin zero_csync 2 (merlin_of demo_loaded) (Event (blank_hdr <| h_len := 100 |>) (info_bytes demo_twin)) []).
  - vm_compute. reflexivity.
  - vm_compute. reflexivity.
  - split_and!; [repeat constructor; vm_compute; (discriminate || done)..|vm_compute; reflexivity].
  - reflexivity.
  - vm_compute. reflexivity.
  - by rewrite app_nil_r.
  - vm_compute. discriminate.
Defined.
