(* ===== verification/Restart.v ===== *)
(** * Backlogs over a restart

    The files of the backlogs of different nodes have nothing to do with each other, so that what [Binlog] shows of one log holds of each
    of them.  From that: what is in the backlogs of a module when it is unloaded is in them when the next one has been loaded. *)

From S2P Require Import Prelude Sha1 Binlog Packet Io Merlin Pgroup Node Cfgfile Config Lifecycle.
#[local] Open Scope Z_scope.

(** ** What a change of the file system leaves alone *)

(** Between two states only files whose names are in [P] were touched. *)
Definition local (P : string -> Prop) (w w' : world) : Prop :=
  world_ok w -> world_ok w' /\ (w_faults w = [] -> w_faults w' = []) /\
  forall q, ~ P q -> w_dir w' !! q = w_dir w !! q /\ forall i, w_dir w !! q = Some i -> w_data w' !! i = w_data w !! i.

Lemma local_refl P w : local P w w.
Proof. done. Qed.

Lemma local_trans P w1 w2 w3 : local P w1 w2 -> local P w2 w3 -> local P w1 w3.
Proof.
  intros H1 H2 W. destruct (H1 W) as (W2 & F1 & D1). destruct (H2 W2) as (W3 & F2 & D2). split; [done|]. split; [auto|].
  intros q Hq. destruct (D1 q Hq) as [E1 I1]. destruct (D2 q Hq) as [E2 I2]. split; [congruence|].
  intros i Hi. rewrite I2 by congruence. auto.
Qed.

Lemma local_weaken (P Q : string -> Prop) w w' : (forall q, P q -> Q q) -> local P w w' -> local Q w w'.
Proof. intros S H W. destruct (H W) as (W2 & F & D). split; [done|]. split; [done|]. intros q Hq. apply D. auto. Qed.

Section Primitives.
Context (P : string -> Prop).

(** Taking note of a failure. *)
Lemma local_pop w : local P w (pop_fault w).2.
Proof. unfold pop_fault, local. destruct (w_faults w) eqn:E; [done|]. intros W. split; [exact W|]. split; [congruence|done]. Qed.

Lemma local_alloc w : local P w (sys_alloc w).2.
Proof. unfold sys_alloc. pose proof (local_pop w). by destruct (pop_fault w). Qed.

Lemma local_set_data p i c w : P p -> w_dir w !! p = Some i -> local P w (set_data i c w).
Proof.
  intros Hp Hi W. split; [exact W|]. split; [done|]. intros q Hq. split; [done|]. intros j Hj. cbn. apply lookup_insert_ne.
  intros <-. apply Hq. destruct W as [_ Inj]. by rewrite (Inj q p i Hj Hi).
Qed.

Lemma local_open p a t w : P p -> local P w (sys_open p a t w).2.
Proof.
  intros Hp. unfold sys_open. pose proof (local_pop w) as H. destruct (pop_fault w) as [f w1]. cbn [snd] in H.
  eapply local_trans; [exact H|]. destruct f; [|apply local_refl..]. destruct (w_dir w1 !! p) as [i|] eqn:E.
  - destruct t; [by eapply local_set_data|apply local_refl].
  - intros W. split; [by apply world_ok_create|]. split; [done|]. intros q Hq. cbn. rewrite lookup_insert_ne by (intros ->; done). split; [done|].
    intros i Hi. destruct W as [L _]. specialize (L _ _ Hi). by rewrite lookup_insert_ne by lia.
Qed.

Lemma local_unlink p w : (forall x, p = Some x -> P x) -> local P w (sys_unlink p w).
Proof.
  intros Hp. destruct p as [p|]; [|apply local_refl]. specialize (Hp p eq_refl). intros [W1 W2]. split; [|split; [done|]].
  - split; cbn; intros q *; rewrite !lookup_delete_Some; naive_solver.
  - intros q Hq. cbn. rewrite lookup_delete_ne by (intros ->; done). done.
Qed.

Lemma local_rename p q w : (forall x, p = Some x -> P x) -> (forall x, q = Some x -> P x) -> local P w (sys_rename p q w).2.
Proof.
  intros Hp Hq. unfold sys_rename. pose proof (local_pop w) as H. destruct (pop_fault w) as [f w1]. cbn [snd] in H.
  eapply local_trans; [exact H|]. destruct f; [|apply local_refl..]. destruct p as [p|], q as [q|]; try apply local_refl.
  specialize (Hp p eq_refl). specialize (Hq q eq_refl). destruct (w_dir w1 !! p) as [i|] eqn:E; [|apply local_refl].
  intros [W1 W2]. split; [|split; [done|]].
  - split; cbn; intros x *; rewrite !lookup_insert_Some, !lookup_delete_Some; naive_solver.
  - intros x Hx. cbn. rewrite lookup_insert_ne, lookup_delete_ne by (intros ->; done). done.
Qed.
End Primitives.

(** ** The operations of a log touch its own file *)

(** A log with the name [p], whose descriptor is of that file. *)
Definition held (p : string) (bl : binlog) (w : world) : Prop :=
  path bl = Some p /\ forall f, fd bl = Some f -> w_dir w !! p = Some (of_ino f).

(** From one log and file system to another by way of the log's own file. *)
Definition own (p : string) (bl : binlog) (w : world) (bl' : binlog) (w' : world) : Prop :=
  held p bl w -> local (eq p) w w' /\ held p bl' w'.

Lemma own_trans p b1 w1 b2 w2 b3 w3 : own p b1 w1 b2 w2 -> own p b2 w2 b3 w3 -> own p b1 w1 b3 w3.
Proof. intros H K h. destruct (H h) as [L1 h1]. destruct (K h1) as [L2 h2]. split; [by eapply local_trans|done]. Qed.

(** Fields other than these do not matter. *)
Lemma own_same p bl w bl' : path bl' = path bl -> fd bl' = fd bl -> own p bl w bl' w.
Proof. intros H1 H2 [h1 h2]. split; [apply local_refl|]. split; [congruence|]. rewrite H2. exact h2. Qed.

Lemma own_closed p bl w bl' : path bl' = path bl -> fd bl' = None -> own p bl w bl' w.
Proof. intros H1 H2 [h1 h2]. split; [apply local_refl|]. split; [congruence|]. by rewrite H2. Qed.

(** A step of the system that leaves the directory alone. *)
Lemma own_pop p bl w : own p bl w bl (pop_fault w).2.
Proof. intros [h1 h2]. split; [apply local_pop|]. split; [done|]. unfold pop_fault. by destruct (w_faults w). Qed.

Lemma own_alloc p bl w : own p bl w bl (sys_alloc w).2.
Proof. unfold sys_alloc. pose proof (own_pop p bl w). by destruct (pop_fault w). Qed.

Lemma own_sys_write p bl w f buf : fd bl = Some f -> forall n g w', sys_write f buf w = (n, g, w') -> own p bl w (with_fd (Some g) bl) w'.
Proof.
  intros Hf n g w' E. unfold sys_write in E. pose proof (own_pop p bl w) as H. destruct (pop_fault w) as [flt w1]. cbn [snd] in H.
  eapply own_trans; [exact H|]. intros [h1 h2]. specialize (h2 f Hf).
  destruct flt; injection E as <- <- <-; (split; [first [by eapply local_set_data|apply local_refl]|]); split; cbn; try done; intros ? [= <-]; exact h2.
Qed.

Lemma own_invalidate p bl w : own p bl w (binlog_invalidate bl w).1 (binlog_invalidate bl w).2.
Proof.
  unfold binlog_invalidate, binlog_close. intros [h1 h2]. cbn [fst snd]. split.
  - apply local_unlink. intros x Hx. destruct (fd bl); cbn in Hx; congruence.
  - split; [by destruct (fd bl)|]. destruct (fd bl) eqn:E; cbn; [done|]. by rewrite E.
Qed.

Lemma own_safe_write p bl w buf r bl' w' : safe_write bl buf w = (r, bl', w') -> own p bl w bl' w'.
Proof.
  unfold safe_write. destruct (fd bl) as [f|] eqn:Hf; [|intros [= <- <- <-]; by apply own_same].
  set (g := if negb (of_pos f =? file_size bl) then seek_end f w else f). assert (own p bl w (with_fd (Some g) bl) w) as O1.
  { intros [h1 h2]. split; [apply local_refl|]. split; [done|]. cbn. intros ? [= <-]. specialize (h2 f Hf). unfold g. by destruct (negb _). }
  destruct (sys_write g buf w) as [[n h] w1] eqn:E.
  pose proof (own_sys_write p (with_fd (Some g) bl) w g buf eq_refl n h w1 E) as O2.
  assert (own p bl w (with_fd (Some h) bl) w1) as O by (eapply own_trans; [exact O1|exact O2]).
  destruct (n =? _); [intros [= <- <- <-]; eapply own_trans; [exact O|by apply own_same]|].
  destruct (n <? 0); [by intros [= <- <- <-]|].
  pose proof (own_pop p (with_fd (Some h) bl) w1) as O3. destruct (pop_fault w1) as [flt w2]. cbn [snd] in O3.
  assert (forall x, x = binlog_invalidate (with_fd (Some h) bl) w2 -> own p bl w x.1 x.2) as I.
  { intros x ->. eapply own_trans; [exact O|]. eapply own_trans; [exact O3|apply own_invalidate]. }
  destruct flt.
  - intros [= <- <- <-]. eapply own_trans; [exact O|]. eapply own_trans; [exact O3|]. intros [h1 h2]. split; [apply local_refl|].
    split; [done|]. cbn. intros ? [= <-]. exact (h2 h eq_refl).
  - destruct (binlog_invalidate _ _) as [b w3] eqn:Eb. intros [= <- <- <-]. exact (I (b, w3) eq_refl).
  - destruct (binlog_invalidate _ _) as [b w3] eqn:Eb. intros [= <- <- <-]. exact (I (b, w3) eq_refl).
Qed.

(** A descriptor that is opened is one of the file with that name. *)
Lemma open_dir p a t w f w' : sys_open p a t w = (Some f, w') -> w_dir w' !! p = Some (of_ino f).
Proof.
  unfold sys_open. destruct (pop_fault w) as [flt w1]. destruct flt; [|done..]. destruct (w_dir w1 !! p) as [i|] eqn:E.
  - intros [= <- <-]. by destruct t.
  - intros [= <- <-]. cbn. apply lookup_insert_eq.
Qed.

Lemma own_open p bl w r bl' w' : binlog_open bl w = (r, bl', w') -> own p bl w bl' w'.
Proof.
  unfold binlog_open. destruct (fd bl) as [f|] eqn:Hf; [intros [= <- <- <-]; by apply own_same|].
  destruct (path bl) as [q|] eqn:Hp; [|intros [= <- <- <-]; by apply own_same]. set (b := if negb (binlog_is_valid bl) then with_file (file_entries bl) 0 0 0 bl else bl).
  assert (path b = Some q /\ fd b = None) as [Pb Fb] by (unfold b; by destruct (negb _)). clearbody b.
  intros E. assert (exists a t o, sys_open q a t w = (o, w') /\ bl' = with_fd o b) as (a & t & o & Eo & ->).
  { destruct (negb (binlog_is_valid b)); [destruct (sys_open q false true w) as [o w1] eqn:Eo|destruct (sys_open q true false w) as [o w1] eqn:Eo];
      destruct o; injection E as <- <- <-; eauto 10. }
  intros [h1 h2]. assert (q = p) as -> by congruence. split.
  - pose proof (local_open (eq p) p a t w eq_refl) as L. by rewrite Eo in L.
  - split; [done|]. cbn. intros f ->. by eapply open_dir.
Qed.

Lemma own_file_add p bl w buf len r bl' w' : binlog_file_add bl buf len w = (r, bl', w') -> own p bl w bl' w'.
Proof.
  unfold binlog_file_add. destruct (_ <? _); [intros [= <- <- <-]; by apply own_same|].
  destruct (binlog_open bl w) as [[r1 b1] w1] eqn:E1. apply (own_open p) in E1. destruct (r1 <? 0); [by intros [= <- <- <-]|].
  destruct (safe_write b1 (le_split 4 len) w1) as [[r2 b2] w2] eqn:E2. apply (own_safe_write p) in E2.
  destruct (negb _); [intros [= <- <- <-]; by eapply own_trans|].
  destruct (safe_write b2 buf w2) as [[r3 b3] w3] eqn:E3. apply (own_safe_write p) in E3. intros [= <- <- <-].
  eapply own_trans; [exact E1|]. eapply own_trans; [exact E2|]. eapply own_trans; [exact E3|]. by apply own_same.
Qed.

Lemma own_flush_loop p fuel : forall bl w, own p bl w (flush_loop fuel bl w).1 (flush_loop fuel bl w).2.
Proof.
  induction fuel as [|fuel IH]; intros bl w; cbn [flush_loop]; [by apply own_same|]. destruct (_ <? _); [|by apply own_same].
  set (b := with_index _ _ bl). assert (own p bl w b w) as O by (by apply own_same). destruct (cache_get _ bl) as [e|].
  - destruct (binlog_file_add b (e_data e) (e_size e) w) as [[r b1] w1] eqn:E. apply (own_file_add p) in E.
    eapply own_trans; [exact O|]. eapply own_trans; [exact E|apply IH].
  - eapply own_trans; [exact O|apply IH].
Qed.

Lemma own_flush p bl w : own p bl w (binlog_flush bl w).1 (binlog_flush bl w).2.
Proof.
  unfold binlog_flush. destruct (bool_decide _).
  - pose proof (own_flush_loop p (Z.to_nat (write_index bl - read_index bl)) bl w) as H. destruct (flush_loop _ bl w) as [b w1]. cbn [fst snd] in *.
    eapply own_trans; [exact H|by apply own_same].
  - by apply own_same.
Qed.

Lemma own_mem_add p bl w buf len r bl' w' : binlog_mem_add bl buf len w = (r, bl', w') -> own p bl w bl' w'.
Proof.
  unfold binlog_mem_add. set (first := if alloc bl <=? write_index bl then binlog_grow bl w else (0, bl, w)). assert (own p bl w first.1.2 first.2) as O.
  { unfold first. destruct (_ <=? _); [|by apply own_same]. unfold binlog_grow. pose proof (own_alloc p (with_alloc (u32 (u32 ((alloc bl + 16) * 3) / 2)) bl) w) as H.
    destruct (sys_alloc w) as [ok w1]. cbn [snd] in H.
    destruct ok; cbn; (eapply own_trans; [by apply own_same|]); (eapply own_trans; [exact H|by apply own_same]). }
  destruct first as [[r1 b1] w1]. cbn [fst snd] in O. destruct (r1 <? 0); [by intros [= <- <- <-]|].
  pose proof (own_alloc p b1 w1) as A. destruct (sys_alloc w1) as [ok w2]. cbn [snd] in A. destruct ok; cbn [negb]; [|intros [= <- <- <-]; by eapply own_trans].
  pose proof (own_alloc p b1 w2) as A2. destruct (sys_alloc w2) as [ok w3]. cbn [snd] in A2.
  destruct ok; cbn [negb]; intros [= <- <- <-]; (eapply own_trans; [exact O|]); (eapply own_trans; [exact A|]); [|exact A2].
  eapply own_trans; [exact A2|]. apply own_same; unfold cache_set; by destruct (cache b1).
Qed.

Lemma own_add p bl w buf len r bl' w' : binlog_add bl buf len w = (r, bl', w') -> own p bl w bl' w'.
Proof.
  unfold binlog_add. destruct (negb _); [intros [= <- <- <-]; by apply own_same|]. destruct (_ && _); [apply own_mem_add|apply own_file_add].
Qed.

Lemma own_sys_read p bl w f k : fd bl = Some f -> forall r g w', sys_read f k w = (r, g, w') -> own p bl w (with_fd (Some g) bl) w'.
Proof.
  intros Hf r g w' E. unfold sys_read in E. pose proof (own_pop p bl w) as H. destruct (pop_fault w) as [flt w1]. cbn [snd] in H.
  eapply own_trans; [exact H|]. intros [h1 h2]. specialize (h2 f Hf).
  destruct flt; injection E as <- <- <-; (split; [apply local_refl|]); split; cbn; try done; intros ? [= <-]; exact h2.
Qed.

Lemma own_file_read p bl w len0 r buf len bl' w' : binlog_file_read bl len0 w = (r, buf, len, bl', w') -> own p bl w bl' w'.
Proof.
  unfold binlog_file_read. destruct (_ <=? _).
  - intros [= <- <- <- <- <-] [h1 h2]. split; [|split; [by unfold binlog_close; destruct (fd bl)|]].
    + apply local_unlink. intros x. unfold binlog_close. destruct (fd bl); cbn; congruence.
    + unfold binlog_close. destruct (fd bl) eqn:E; cbn; [done|]. by rewrite E.
  - destruct (fd bl) as [f|] eqn:Hf; [|intros [= <- <- <- <- <-]; by apply own_same].
    set (g := seek_set f (file_read_pos bl)). assert (own p bl w (with_fd (Some g) bl) w) as O1.
    { intros [h1 h2]. split; [apply local_refl|]. split; [done|]. cbn. intros ? [= <-]. exact (h2 f Hf). }
    destruct (sys_read g 4 w) as [[o h] w1] eqn:E1. pose proof (own_sys_read p (with_fd (Some g) bl) w g 4 eq_refl _ _ _ E1) as O2.
    assert (own p bl w (with_fd (Some h) bl) w1) as O by (eapply own_trans; [exact O1|exact O2]). destruct o as [hd|]; [|by intros [= <- <- <- <- <-]].
    pose proof (own_alloc p (with_fd (Some h) bl) w1) as A. destruct (sys_alloc w1) as [ok w2]. cbn [snd] in A.
    destruct ok; cbn [negb]; [|intros [= <- <- <- <- <-]; by eapply own_trans].
    set (l := Z.to_nat _). destruct (sys_read h l w2) as [[o2 h2] w3] eqn:E2.
    pose proof (own_sys_read p (with_fd (Some h) bl) w2 h l eq_refl _ _ _ E2) as O3.
    assert (own p bl w (with_fd (Some h2) bl) w3) as O4 by (eapply own_trans; [exact O|]; eapply own_trans; [exact A|exact O3]).
    destruct o2; intros [= <- <- <- <- <-]; [|exact O4]. eapply own_trans; [exact O4|by apply own_same].
Qed.

Lemma own_read p bl w len0 r buf len bl' w' : binlog_read bl len0 w = (r, buf, len, bl', w') -> own p bl w bl' w'.
Proof.
  unfold binlog_read. destruct (negb _); [intros [= <- <- <- <- <-]; by apply own_same|].
  destruct (binlog_mem_read bl len0) as [[[r1 b1] l1] m] eqn:E. assert (own p bl w m w) as O.
  { unfold binlog_mem_read in E. destruct (_ || _); [injection E as <- <- <- <-; by apply own_same|].
    destruct (cache_get _ _); injection E as <- <- <- <-; [|by apply own_same]. destruct (_ <=? _); unfold cache_set; cbn; destruct (cache bl); by apply own_same. }
  destruct (r1 =? 0); [by intros [= <- <- <- <- <-]|]. intros H. eapply own_trans; [exact O|by eapply own_file_read].
Qed.

Lemma local_destroy p bl w : path bl = Some p -> local (eq p) w (binlog_destroy bl BINLOG_UNLINK w).
Proof.
  intros Hp. unfold binlog_destroy, binlog_wipe. change (has_flag BINLOG_UNLINK BINLOG_UNLINK) with true. cbn [negb orb].
  destruct (_ =? _); [|apply local_refl]. apply local_unlink. intros x. unfold binlog_close. destruct (fd bl); cbn; congruence.
Qed.

(** ** The files of a backlog *)

(** The names of the three files of the log with the name [p]. *)
Definition meta_of (p : string) : string := (p +:+ ".meta")%string.
Definition save_of (p : string) : string := (p +:+ ".save")%string.
Definition family (p q : string) : Prop := q = p \/ q = meta_of p \/ q = save_of p.
(** Those of a saved log. *)
Definition side (p q : string) : Prop := q = meta_of p \/ q = save_of p.
Definition named (p : string) (bl : binlog) : Prop :=
  path bl = Some p /\ file_metadata_path bl = Some (meta_of p) /\ file_save_path bl = Some (save_of p).

Lemma family_eq p q : p = q -> family p q.
Proof. by left. Qed.

Lemma flush_names p bl w : named p bl -> named p (binlog_flush bl w).1.
Proof.
  assert (forall buf len b w r b' w', binlog_file_add b buf len w = (r, b', w') -> named p b -> named p b') as A.
  { assert (forall b w buf r b' w', safe_write b buf w = (r, b', w') -> named p b -> named p b') as S.
    { intros b w0 buf r b' w'. unfold safe_write. destruct (fd b); [|by intros [= <- <- <-]]. destruct (sys_write _ _ _) as [[n g] w1].
      destruct (n =? _); [by intros [= <- <- <-]|]. destruct (n <? 0); [by intros [= <- <- <-]|].
      destruct (pop_fault w1) as [[] w2]; [by intros [= <- <- <-]|..]; unfold binlog_invalidate; cbn; by intros [= <- <- <-]. }
    intros buf len b w0 r b' w'. unfold binlog_file_add. destruct (_ <? _); [by intros [= <- <- <-]|].
    destruct (binlog_open b w0) as [[r1 b1] w1] eqn:E1. intros H N. assert (named p b1) as N1.
    { unfold binlog_open in E1. destruct (fd b); [by injection E1 as <- <- <-|]. destruct (path b); [|by injection E1 as <- <- <-].
      set (c := if negb (binlog_is_valid b) then with_file (file_entries b) 0 0 0 b else b) in E1.
      assert (named p c) as Nc by (unfold c; by destruct (negb _)). clearbody c.
      destruct (negb (binlog_is_valid c)); [destruct (sys_open _ false true w0) as [[o|] w2]|destruct (sys_open _ true false w0) as [[o|] w2]];
        by injection E1 as <- <- <-. }
    destruct (r1 <? 0); [by injection H as <- <- <-|]. destruct (safe_write b1 _ w1) as [[r2 b2] w2] eqn:E2. specialize (S _ _ _ _ _ _ E2 N1) as N2.
    destruct (negb _); [by injection H as <- <- <-|]. destruct (safe_write b2 _ w2) as [[r3 b3] w3] eqn:E3. specialize (S _ _ _ _ _ _ E3 N2) as N3.
    by injection H as <- <- <-. }
  intros N. unfold binlog_flush. destruct (bool_decide _); [|done].
  assert (forall fuel b w, named p b -> named p (flush_loop fuel b w).1) as L.
  { clear -A. induction fuel as [|fuel IH]; intros b w N; cbn [flush_loop]; [done|]. destruct (_ <? _); [|done].
    destruct (cache_get _ _) as [e|]; [|by apply IH]. destruct (binlog_file_add _ _ _ _) as [[r b1] w1] eqn:E. apply IH. by eapply A. }
  specialize (L (Z.to_nat (write_index bl - read_index bl)) bl w N). by destruct (flush_loop _ bl w).
Qed.

(** Saving a log touches its three files. *)
Lemma save_local p bl w : held p bl w -> named p bl -> local (family p) w (binlog_save bl w).2.
Proof.
  intros h N. unfold binlog_save. destruct (_ <? _); [|apply local_refl]. unfold binlog_write_file_metadata.
  pose proof (own_flush p bl w h) as [L _]. pose proof (flush_names p bl w N) as (N1 & N2 & N3). destruct (binlog_flush bl w) as [b w1]. cbn [fst snd] in *.
  apply (local_weaken _ (family p) _ _ (family_eq p)) in L. rewrite N2.
  pose proof (local_open (family p) (meta_of p) false true w1 (or_intror (or_introl eq_refl))) as L2.
  pose proof (open_dir (meta_of p) false true w1) as D. destruct (sys_open (meta_of p) false true w1) as [[f|] w2]; cbn [snd negb Z.eqb] in *; [|by eapply local_trans].
  specialize (D f w2 eq_refl). set (w3 := set_data _ _ w2). assert (local (family p) w2 w3) as L3 by (eapply local_set_data; [right; left; reflexivity|exact D]).
  assert (local (family p) w3 (sys_rename (path b) (file_save_path b) w3).2) as L4.
  { apply local_rename; intros x Hx; [left; congruence|right; right; congruence]. }
  destruct (sys_rename _ _ w3) as [ok w4]. cbn [snd] in *. destruct ok; (eapply local_trans; [exact L|]); (eapply local_trans; [exact L2|]); by eapply local_trans.
Qed.

(** Restoring touches two of them, and what is restored is held under the name of the saved log. *)
Lemma get_saved_local p nb w o w' : named p nb -> binlog_get_saved nb w = (o, w') ->
  local (side p) w w' /\ forall bl, o = Some bl -> path bl = Some (save_of p).
Proof.
  intros (N1 & N2 & N3). unfold binlog_get_saved. rewrite N2, N3. cbn [file_exists].
  assert (forall w, local (side p) w (sys_unlink (Some (meta_of p)) w)) as UM by (intros; apply local_unlink; intros x [= <-]; by left).
  assert (forall w, local (side p) w (sys_unlink (Some (save_of p)) w)) as US by (intros; apply local_unlink; intros x [= <-]; by right).
  destruct (negb _); [intros [= <- <-]; by split; [apply local_refl|]|]. destruct (negb _); [intros [= <- <-]; by split; [apply UM|]|].
  pose proof (local_pop (side p) w) as L1. destruct (pop_fault w) as [flt w1]. cbn [snd] in L1.
  destruct flt; [|intros [= <- <-]; by split..]. pose proof (local_alloc (side p) w1) as L2. destruct (sys_alloc w1) as [ok w2]. cbn [snd] in L2.
  assert (local (side p) w w2) as L by (by eapply local_trans). destruct ok; cbn [negb]; [|intros [= <- <-]; by split].
  destruct (w_dir w2 !! meta_of p ≫= _) as [[|b]|]; [intros [= <- <-]; split; [|done]; (eapply local_trans; [exact L|]); (eapply local_trans; [apply US|apply UM])| |
    intros [= <- <-]; split; [|done]; (eapply local_trans; [exact L|]); (eapply local_trans; [apply US|apply UM])].
  set (b1 := with_fd None _). destruct (binlog_open b1 w2) as [[r b2] w3] eqn:E. pose proof (own_open (save_of p) _ _ _ _ _ E) as O.
  destruct O as [L3 [h1 _]]; [by split|]. apply (local_weaken _ (side p)) in L3; [|intros q <-; by right].
  assert (local (side p) w w3) as L4 by (by eapply local_trans). destruct (r <? 0); intros [= <- <-].
  - split; [|done]. eapply local_trans; [exact L4|]. eapply local_weaken; [|by apply local_destroy]. intros q <-. by right.
  - split; [by eapply local_trans|]. intros bl [= <-]. done.
Qed.

(** ** What a log holds does not depend on other files *)

Lemma repr_local P p bl w w' mq fq : local P w w' -> world_ok w -> path bl = Some p -> ~ P p -> binlog_repr bl w mq fq -> binlog_repr bl w' mq fq.
Proof.
  intros L W Hp Hn [Hv Hm [(p' & Hp' & Hf) He Hs] Hms Hw]. destruct (L W) as (_ & F & D). destruct (D p Hn) as [D1 D2].
  split; [done|done| |done|auto]. split; [|done|done]. exists p. split; [done|]. assert (p' = p) as -> by congruence.
  destruct (fd bl) as [f|].
  - destruct Hf as (Ha & Hd & pre & Hb & R). split; [done|]. split; [congruence|]. exists pre. split; [|done]. rewrite D2; [done|exact Hd].
  - destruct Hf as (-> & A & B & C). split_and!; [done..|congruence].
Qed.

Lemma held_repr p bl w mq fq : binlog_repr bl w mq fq -> path bl = Some p -> held p bl w.
Proof.
  intros [_ _ [(p' & Hp' & Hf) _ _] _ _] Hp. split; [done|]. intros f E. rewrite E in Hf. assert (p' = p) as <- by congruence. apply Hf.
Qed.

(** Under the names of a log lie the files of one that was saved with the events [q]. *)
Definition saved (p : string) (w : world) (q : list (list byte)) : Prop :=
  exists bl, binlog_repr bl w [] q /\ path bl = Some (save_of p) /\ cache bl = None /\ is_Some (fd bl) /\
    exists i, w_dir w !! meta_of p = Some i /\ exists x f b, w_data w !! i =
      Some (FMeta (with_paths x (file_metadata_path b) (file_save_path b) (with_fd f bl))).

(** What is left on disk of a log with the events [q]: nothing to restore when there is none. *)
Definition kept (p : string) (w : world) (q : list (list byte)) : Prop :=
  match q with [] => w_dir w !! meta_of p = None | _ => saved p w q end.

Lemma kept_local P p w w' q : local P w w' -> world_ok w -> ~ P (meta_of p) -> ~ P (save_of p) -> kept p w q -> kept p w' q.
Proof.
  intros L W N1 N2. destruct (L W) as (_ & _ & D). destruct (D _ N1) as [D1 D2]. destruct q as [|d q]; cbn [kept]; [congruence|].
  intros (bl & R & Hp & Hc & Hf & i & Hi & x & f & b & Hb). exists bl. split; [by eapply repr_local|]. split_and!; [done..|].
  exists i. split; [congruence|]. exists x, f, b. by rewrite D2.
Qed.

(** What a node's log, if it has one, is going to leave: the events of the file, then those of memory. *)
Definition backlog (p : string) (o : option binlog) (w : world) (q : list (list byte)) : Prop :=
  (q = [] -> w_dir w !! meta_of p = None) /\ Z.of_nat (length q) < 2 ^ 32 /\
  match o with
  | None => q = []
  | Some bl => named p bl /\ exists mq fq, binlog_repr bl w mq fq /\ q = fq ++ mq /\ file_size bl + enc_size mq <= max_file_size bl
  end.

Lemma backlog_local P p o w w' q : local P w w' -> world_ok w -> (forall x, family p x -> ~ P x) -> backlog p o w q -> backlog p o w' q.
Proof.
  intros L W N (H1 & H2 & H3). destruct (L W) as (_ & _ & D). split; [intros ->; destruct (D (meta_of p)) as [-> _]; [apply N; right; by left|auto]|].
  split; [done|]. destruct o as [bl|]; [|done]. destruct H3 as (Nm & mq & fq & R & E & F). split; [done|]. exists mq, fq. split; [|done].
  eapply repr_local; [done..|apply Nm| |done]. apply N. by left.
Qed.

(** Suffixes of names that tell the files of a log apart. *)
Lemma names_differ p : p <> meta_of p /\ p <> save_of p /\ meta_of p <> save_of p.
Proof.
  assert (forall a b : string, String.length a <> String.length b -> a <> b) as L by congruence.
  unfold meta_of, save_of. split_and!; [apply L; rewrite length_string_app; cbn; lia..|]. intros E. by apply (inj (String.app p)) in E.
Qed.

Lemma save_one p bl w q : world_ok w -> backlog p (Some bl) w q -> kept p (binlog_save bl w).2 q.
Proof.
  intros W (H1 & H2 & (N1 & N2 & N3) & mq & fq & R & E & F). destruct (names_differ p) as (D1 & D2 & D3).
  destruct q as [|d q]; cbn [kept].
  - unfold binlog_save. rewrite (num_entries_repr _ _ _ _ R). symmetry in E. apply app_nil in E as [-> ->]. cbn. auto.
  - assert (0 < Z.of_nat (length (mq ++ fq)) < 2 ^ 32) as Hl.
    { apply (f_equal length) in E. rewrite length_app in E |- *. cbn [length] in E, H2. lia. }
    destruct (save_repr bl w mq fq p (meta_of p) (save_of p) R W F N1 N2 N3 D1 D2 D3 Hl) as (bl1 & b2 & w1 & -> & Hw & R1 & P1 & C1 & M).
    cbn [snd]. rewrite <- E in R1. exists bl1. split_and!; try done.
    destruct R1 as [_ _ [(p' & _ & Hf) _ _] _ _]. destruct (fd bl1); [by eexists|]. by destruct Hf as [? _].
Qed.

(** ** Saving the logs of all nodes *)

(** The name of a node's log. *)
Definition file_of (s : merlin) (n : nat) : string := (bc_dir (m_binlog s) +:+ "/module." +:+ name (m_nodes s !!! n) +:+ ".binlog")%string.

Definition apart (p q : string) : Prop := forall x, family p x -> ~ family q x.

(** Saving one node's log leaves the logs of the others and the configuration alone. *)
Lemma save_node_frame n s : bc_persist (m_binlog s) = true ->
  let s' := (save_node n s).2 in
  m_binlog s' = m_binlog s /\ (forall m, name (m_nodes s' !!! m) = name (m_nodes s !!! m)) /\
  (forall m, m <> n -> node_binlog (m_nodes s' !!! m) = node_binlog (m_nodes s !!! m)) /\
  m_world s' = match node_binlog (m_nodes s !!! n) with Some bl => (binlog_save bl (m_world s)).2 | None => m_world s end.
Proof.
  intros Hp. unfold save_node, mbind, ST_bind, gets. rewrite Hp. unfold on_binlog. destruct (node_binlog (m_nodes s !!! n)) as [bl|]; [|done].
  destruct (binlog_save bl (m_world s)) as [[r b] w]. cbn. split_and!; [done| | |done].
  - intros m. destruct (decide (m = n)) as [->|]; [by rewrite lookup_total_insert_eq|by rewrite lookup_total_insert_ne].
  - intros m Hm. by rewrite lookup_total_insert_ne.
Qed.

Lemma save_all ns qs : forall s, world_ok (m_world s) -> bc_persist (m_binlog s) = true -> NoDup ns ->
  (forall n m, n ∈ ns -> m ∈ ns -> n <> m -> apart (file_of s n) (file_of s m)) ->
  (forall n, n ∈ ns -> backlog (file_of s n) (node_binlog (m_nodes s !!! n)) (m_world s) (qs n)) ->
  let s' := (for_each ns save_node s).2 in
  world_ok (m_world s') /\ (w_faults (m_world s) = [] -> w_faults (m_world s') = []) /\
  (forall p q, (forall n, n ∈ ns -> apart p (file_of s n)) -> kept p (m_world s) q -> kept p (m_world s') q) /\
  forall n, n ∈ ns -> kept (file_of s n) (m_world s') (qs n).
Proof.
  induction ns as [|n ns IH]; intros s W Hp ND Ap B; cbn [for_each]; [split_and!; try done; by intros n ?%elem_of_nil|].
  unfold mbind, ST_bind. destruct (save_node n s) as [u s1] eqn:E. pose proof (save_node_frame n s Hp) as (B1 & Nm1 & L1 & W1). rewrite E in B1, Nm1, L1, W1. cbn [snd] in *.
  apply NoDup_cons in ND as [Nn ND]. assert (forall m, file_of s1 m = file_of s m) as Fo by (intros m; unfold file_of; by rewrite B1, Nm1).
  assert (backlog (file_of s n) (node_binlog (m_nodes s !!! n)) (m_world s) (qs n)) as Bn by (apply B; by left).
  assert (local (family (file_of s n)) (m_world s) (m_world s1)) as L.
  { rewrite W1. destruct (node_binlog _) as [bl|]; [|apply local_refl]. destruct Bn as (_ & _ & Nm & mq & fq & R & _). apply save_local; [|done].
    eapply held_repr; [exact R|apply Nm]. }
  assert (kept (file_of s n) (m_world s1) (qs n)) as K.
  { rewrite W1. destruct (node_binlog _) as [bl|] eqn:Eb; [by apply save_one|]. destruct Bn as (H & _ & Hq). cbn in Hq. rewrite Hq. exact (H Hq). }
  destruct (L W) as (W' & F' & _).
  destruct (IH s1) as (Wf & Ff & Kf & Af).
  - done.
  - by rewrite B1.
  - done.
  - intros m k Hm Hk Hne. rewrite !Fo. apply Ap; [by right..|done].
  - intros m Hm. rewrite Fo, L1 by (intros ->; done). eapply backlog_local; [exact L|done| |apply B; by right].
    intros x Hx. apply (Ap m n); [by right|by left|by intros ->|done].
  - split_and!; [done|auto| |].
    + intros p q Hq Hk. apply Kf; [intros m Hm; rewrite Fo; apply Hq; by right|].
      eapply kept_local; [exact L|done|..|done]; apply Hq; try (by left); right; [by left|by right].
    + intros m Hm. apply elem_of_cons in Hm as [->|Hm]; [|rewrite <- Fo; by apply Af].
      apply Kf; [|done]. intros k Hk. rewrite Fo. apply Ap; [by left|by right|]. intros ->. done.
Qed.

(** ** Restoring *)

(** Where the file has room, an event is added. *)
Lemma add_room bl w mq fq d : binlog_repr bl w mq fq -> ev_ok d -> file_size bl + Z.of_nat (length d) <= max_file_size bl ->
  exists bl' w' mq' fq', binlog_add bl d (Z.of_nat (length d)) w = (0, bl', w') /\ binlog_repr bl' w' mq' fq' /\ mq' ++ fq' = (mq ++ fq) ++ [d] /\
    file_size bl' <= file_size bl + enc_size [d] /\ max_file_size bl' = max_file_size bl.
Proof.
  intros R Hd Hr. pose proof (add_repr bl w mq fq d R Hd) as A. destruct (binlog_add bl d (Z.of_nat (length d)) w) as [[r b] w1] eqn:E.
  destruct A as [[-> (mq' & fq' & R' & Q)]|(_ & _ & _ & ? & _)]; [|lia]. exists b, w1, mq', fq'. split_and!; try done.
  all: unfold enc_size; rewrite ?enc_entries_one, ?length_enc_entry; destruct R as [Hv Hm Hf _ Hw]; unfold binlog_add, binlog_is_valid in E; rewrite Hv in E; cbn [negb] in E.
  all: destruct (bool_decide (fd bl = None) && _) eqn:C.
  all: try (destruct (file_add_repr bl w fq d Hf Hv Hw Hd Hr) as (b1 & w2 & E1 & _ & M & _ & _ & S & _); rewrite E1 in E; injection E as <- <-;
            unfold mem_part in M; first [rewrite S; lia|congruence]).
  all: apply andb_true_iff in C as [_ C]; pose proof (mr_size _ _ Hm); pose proof (mr_max _ _ Hm); rewrite u32_small in C by (unfold ev_ok in Hd; lia);
       destruct (mem_add_repr bl w mq d Hm Hw Hd ltac:(lia)) as (b1 & E1 & _ & P); rewrite E1 in E; injection E as <- <-; unfold file_part in P.
  - assert (file_size b1 = file_size bl) by congruence. lia.
  - congruence.
Qed.

(** An event that is a whole packet. *)
Definition good (d : list byte) : Prop := ev_ok d /\ bad_packet (Some d) (Z.of_nat (length d)) = false.

(** The parts of the state that reading a saved log leaves alone. *)
Definition around (n : nat) (s s' : merlin) : Prop :=
  m_binlog s' = m_binlog s /\ (forall m, name (m_nodes s' !!! m) = name (m_nodes s !!! m)) /\
  forall m, m <> n -> node_binlog (m_nodes s' !!! m) = node_binlog (m_nodes s !!! m).

Lemma around_trans n s1 s2 s3 : around n s1 s2 -> around n s2 s3 -> around n s1 s3.
Proof. intros (A & B & C) (D & E & F). split_and!; [congruence|intros; by rewrite E|intros m Hm; by rewrite F, C]. Qed.

(** A node's log is what is said of it, with the events of both parts in order. *)
Definition holds (p : string) (o : option binlog) (w : world) (q : list (list byte)) : Prop :=
  exists bl mq fq, o = Some bl /\ path bl = Some p /\ binlog_repr bl w mq fq /\ mq ++ fq = q.

Lemma holds_local P p o w w' q : local P w w' -> world_ok w -> ~ P p -> holds p o w q -> holds p o w' q.
Proof. intros L W N (bl & mq & fq & E & Hp & R & Q). exists bl, mq, fq. split_and!; try done. by eapply repr_local. Qed.

Lemma enc_size_cons d q : enc_size (d :: q) = enc_size [d] + enc_size q.
Proof. unfold enc_size. rewrite (enc_entries_app [d] q : enc_entries (d :: q) = _), length_app. lia. Qed.

Lemma enc_size_nonneg q : 0 <= enc_size q.
Proof. unfold enc_size. lia. Qed.

Lemma read_saved_restores p n : forall fuel sv s bl mq fq sm sf,
  node_binlog (m_nodes s !!! n) = Some bl -> path bl = Some p -> binlog_repr bl (m_world s) mq fq -> world_ok (m_world s) ->
  path sv = Some (save_of p) -> binlog_repr sv (m_world s) sm sf -> Forall good (sm ++ sf) ->
  file_size bl + enc_size (sm ++ sf) <= max_file_size bl -> (length (sm ++ sf) < fuel)%nat ->
  exists sv' s', read_saved_loop fuel n sv s = (Some sv', s') /\ path sv' = Some (save_of p) /\ around n s s' /\ local (family p) (m_world s) (m_world s') /\
    holds p (node_binlog (m_nodes s' !!! n)) (m_world s') ((mq ++ fq) ++ (sm ++ sf)).
Proof.
  destruct (names_differ p) as (D1 & D2 & D3).
  induction fuel as [|fuel IH]; intros sv s bl mq fq sm sf Hb Hp R W Ps Rs G Room Hfuel; [lia|]. cbn [read_saved_loop].
  unfold mbind at 1, ST_bind at 1, gets. pose proof (read_repr sv (m_world s) sm sf 0 Rs) as A.
  destruct (binlog_read sv 0 (m_world s)) as [[[[r buf] len] sv1] w1] eqn:E. destruct A as (sm1 & sf1 & Rs1 & A).
  destruct (own_read (save_of p) _ _ _ _ _ _ _ _ E (held_repr _ _ _ _ _ Rs Ps)) as [L1 [Ps1 _]].
  pose proof (repr_local _ p bl _ _ mq fq L1 W Hp ltac:(congruence) R) as R1. destruct (L1 W) as (W1 & _ & _).
  assert (local (family p) (m_world s) w1) as L1' by (eapply local_weaken; [|exact L1]; intros q <-; right; by right).
  unfold mbind at 1, ST_bind at 1, modify. set (s1 := s <| m_world := w1 |>).
  destruct (sm ++ sf) as [|d q] eqn:Q.
  - destruct A as [-> _]. cbn [Z.eqb negb BINLOG_EMPTY]. exists sv1, s1. split_and!; try done. rewrite app_nil_r. by exists bl, mq, fq.
  - destruct A as (-> & -> & -> & Q1). cbn [Z.eqb negb]. apply Forall_cons in G as [[G1 G2] G]. rewrite G2. rewrite enc_size_cons in Room.
    pose proof (enc_size_nonneg q) as Pq. assert (Z.of_nat (length d) <= enc_size [d]) as Hd by (unfold enc_size; rewrite enc_entries_one, length_enc_entry; lia).
    destruct (add_room bl w1 mq fq d R1 G1 ltac:(lia)) as (b2 & w2 & mq2 & fq2 & E2 & R2 & Q2 & S2 & M2).
    destruct (own_add p _ _ _ _ _ _ _ E2 (held_repr _ _ _ _ _ R1 Hp)) as [L2 [Hp2 _]]. destruct (L2 W1) as (W2 & _ & _).
    unfold mbind at 1, ST_bind at 1, on_binlog. change (node_binlog (m_nodes s1 !!! n)) with (node_binlog (m_nodes s !!! n)). rewrite Hb.
    change (m_world s1) with w1. cbv beta. change (default [] (Some d)) with d. rewrite E2. cbn [on_node modify].
    set (s2 := _ <| m_world := w2 |>). destruct (IH sv1 s2 b2 mq2 fq2 sm1 sf1) as (sv' & s' & -> & Pv & Ar & L & H).
    + unfold s2. cbn. by rewrite lookup_total_insert_eq.
    + done.
    + done.
    + done.
    + done.
    + eapply repr_local; [exact L2|done|exact Ps1|done|exact Rs1].
    + by rewrite Q1.
    + rewrite Q1, M2. lia.
    + rewrite Q1. cbn [length] in Hfuel. lia.
    + exists sv', s'. split; [done|]. split; [done|]. split.
      { eapply around_trans; [|exact Ar]. split_and!; [done| |].
        - intros m. unfold s2. cbn. destruct (decide (m = n)) as [->|]; [by rewrite lookup_total_insert_eq|by rewrite lookup_total_insert_ne].
        - intros m Hm. unfold s2. cbn. by rewrite lookup_total_insert_ne. }
      split.
      { eapply local_trans; [exact L1'|]. eapply local_trans; [|exact L]. eapply local_weaken; [|exact L2]. apply family_eq. }
      by rewrite Q1, Q2, <- app_assoc in H.
Qed.

Lemma local_create p m f w : local (eq p) w (binlog_create (Some p) m f BINLOG_UNLINK w).2.
Proof.
  unfold binlog_create. destruct (_ && _); [apply local_refl|]. pose proof (local_alloc (eq p) w) as A. destruct (sys_alloc w) as [ok w1]. cbn [snd] in A.
  destruct ok; cbn [negb]; [|exact A]. assert (local (eq p) w1 (if negb (f =? 0) then sys_alloc w1 else (true, w1)).2) as B.
  { destruct (negb _); [apply local_alloc|apply local_refl]. }
  destruct (if negb (f =? 0) then sys_alloc w1 else (true, w1)) as [ok w2]. cbn [snd] in B. assert (local (eq p) w w2) as C by (by eapply local_trans).
  destruct ok; cbn [negb]; [|exact C]. repeat (destruct (_ <? 15); [exact C|]). cbn [snd]. destruct (_ && _); [|exact C].
  eapply local_trans; [exact C|]. apply local_unlink. cbn. intros x. destruct (negb _); [by intros [= ->]|done].
Qed.

(** The limits of the configuration are such that a log can be made. *)
Definition conf_ok (c : binlog_conf) : Prop :=
  bc_persist c = true /\ bc_writable c = true /\ 0 <= u64 (bc_max_memory c * 1024 * 1024) <= 2 ^ 31 - 16 /\
  0 < u64 (bc_max_file c * 1024 * 1024) < 2 ^ 63.

(** What there is room for when it is restored. *)
Definition fits (c : binlog_conf) (q : list (list byte)) : Prop :=
  Forall good q /\ enc_size q <= u64 (bc_max_file c * 1024 * 1024) /\ Z.of_nat (length q) < 2 ^ 32.

Lemma file_of_long s n : 10 <= Z.of_nat (String.length (file_of s n)) /\ (Z.of_nat (String.length (file_of s n)) <? 15) = false.
Proof. unfold file_of. rewrite !length_string_app. cbn [String.length]. split; [lia|]. apply Z.ltb_ge. lia. Qed.

Lemma restore_one n s q : conf_ok (m_binlog s) -> node_binlog (m_nodes s !!! n) = None -> world_ok (m_world s) -> w_faults (m_world s) = [] ->
  kept (file_of s n) (m_world s) q -> fits (m_binlog s) q ->
  exists r s', node_binlog_read_saved n s = (r, s') /\ around n s s' /\ local (family (file_of s n)) (m_world s) (m_world s') /\ holds (file_of s n) (node_binlog (m_nodes s' !!! n)) (m_world s') q.
Proof.
  intros (Cp & Cw & Cm & Cf) Hb W F K (G & Room & Len). destruct (file_of_long s n) as [Fl1 Fl2]. set (p := file_of s n) in *.
  destruct (names_differ p) as (D1 & D2 & D3).
  pose proof (local_create p (u64 (bc_max_memory (m_binlog s) * 1024 * 1024)) (u64 (bc_max_file (m_binlog s) * 1024 * 1024)) (m_world s)) as L1.
  destruct (create_repr p _ _ (m_world s) F Cm Cf Fl1) as (bl & w1 & E1 & R1 & M1 & _ & P1 & N2 & N3 & Z1). rewrite E1 in L1. cbn [snd] in L1.
  destruct (L1 W) as (W1 & F1 & _). specialize (F1 F). pose proof (kept_local _ p _ _ q L1 W ltac:(congruence) ltac:(congruence) K) as K1.
  assert (named p bl) as Nm by done. apply (local_weaken _ (family p)) in L1; [|apply family_eq].
  unfold node_binlog_read_saved, mbind at 1, ST_bind at 1, gets. rewrite Cp. cbn [negb].
  set (s1 := (on_node n (fun node => node <| node_binlog := Some bl |>) (s <| m_world := w1 |>)).2).
  assert (node_create_binlog n s = (0, s1)) as Ec.
  { unfold node_create_binlog, get_node, mbind, ST_bind, gets. rewrite Hb, Cw. cbn [negb]. change (bc_dir (m_binlog s) +:+ _)%string with p. rewrite Fl2, E1. done. }
  unfold mbind at 1, ST_bind at 1. rewrite Ec. cbn [Z.eqb negb].
  assert (around n s s1) as A1.
  { split_and!; [done| |].
    - intros m. unfold s1. cbn. destruct (decide (m = n)) as [->|]; [by rewrite lookup_total_insert_eq|by rewrite lookup_total_insert_ne].
    - intros m Hm. unfold s1. cbn. by rewrite lookup_total_insert_ne. }
  assert (node_binlog (m_nodes s1 !!! n) = Some bl) as Hb1 by (unfold s1; cbn; by rewrite lookup_total_insert_eq).
  unfold mbind at 1, ST_bind at 1, on_binlog. rewrite Hb1. change (m_world s1) with w1. cbv beta.
  destruct (binlog_get_saved bl w1) as [o w2] eqn:Eg. destruct (get_saved_local p bl w1 o w2 Nm Eg) as [L2 Po]. destruct (L2 W1) as (W2 & F2 & _). specialize (F2 F1).
  cbn [on_node modify]. set (s2 := _ <| m_world := w2 |>).
  assert (around n s s2) as A2.
  { eapply around_trans; [exact A1|]. split_and!; [done| |].
    - intros m. unfold s2. cbn. destruct (decide (m = n)) as [->|]; [by rewrite !lookup_total_insert_eq|by rewrite !lookup_total_insert_ne].
    - intros m Hm. unfold s2. cbn. by rewrite !lookup_total_insert_ne. }
  assert (node_binlog (m_nodes s2 !!! n) = Some bl) as Hb2 by (unfold s2; cbn; by rewrite lookup_total_insert_eq).
  assert (local (family p) w1 w2) as L2' by (eapply local_weaken; [|exact L2]; intros x []; right; [by left|by right]).
  assert (binlog_repr bl w2 [] []) as Rb by (eapply repr_local; [exact L2|done|exact P1|intros []; congruence|done]).
  destruct q as [|d q].
  - cbn [kept] in K1. unfold binlog_get_saved in Eg. rewrite N2 in Eg. cbn [file_exists] in Eg. fold (meta_of p) in Eg. rewrite K1 in Eg. cbn in Eg. injection Eg as <- <-.
    exists (SavedRet 0), s2. split; [done|].
    split; [done|]. split; [exact L1|]. rewrite Hb2. by exists bl, [], [].
  - destruct K1 as (b0 & R0 & P0 & C0 & Fd0 & M0).
    destruct (get_saved_repr b0 bl w1 (meta_of p) (save_of p) (d :: q) F1 R0 P0 C0 Fd0 N2 N3 D3 M0) as (sv & w2' & Eg2 & Rs & _).
    rewrite Eg2 in Eg. injection Eg as <- <-. specialize (Po sv eq_refl).
    assert (binlog_num_entries sv = Z.of_nat (length (d :: q))) as Ne.
    { rewrite (num_entries_repr _ _ _ _ Rs). cbn [app]. apply u32_small. lia. }
    destruct (read_saved_restores p n (S (Z.to_nat (binlog_num_entries sv))) sv s2 bl [] [] [] (d :: q)) as (sv' & s' & Er & Pv & A3 & L3 & H);
      [done..|rewrite Z1, M1; cbn [app]; lia|rewrite Ne; cbn [app]; lia|].
    cbn [app] in H. unfold mbind, ST_bind. rewrite Er. eexists _, _. split; [reflexivity|].
    destruct (L3 W2) as (W3 & _ & _). pose proof (local_destroy (save_of p) sv' (m_world s') Pv) as L4. split_and!.
    + exact (around_trans _ _ _ _ A2 A3).
    + eapply local_trans; [exact L1|]. eapply local_trans; [exact L2'|]. eapply local_trans; [exact L3|].
      eapply local_weaken; [|exact L4]. intros x <-. right. by right.
    + eapply holds_local; [exact L4|done|congruence|done].
Qed.

(** ** Restoring the logs of all nodes *)

(** Nothing changed of the logs and their files. *)
Definition quiet (s s' : merlin) : Prop :=
  m_world s' = m_world s /\ m_binlog s' = m_binlog s /\
  forall m, name (m_nodes s' !!! m) = name (m_nodes s !!! m) /\ node_binlog (m_nodes s' !!! m) = node_binlog (m_nodes s !!! m).

Lemma quiet_trans s1 s2 s3 : quiet s1 s2 -> quiet s2 s3 -> quiet s1 s3.
Proof. intros (A & B & C) (D & E & F). split_and!; [congruence..|]. intros m. destruct (C m), (F m). split; congruence. Qed.

Lemma quiet_node n f s : (forall x, name (f x) = name x /\ node_binlog (f x) = node_binlog x) -> quiet s (on_node n f s).2.
Proof.
  intros Hf. split_and!; [done..|]. intros m. cbn. destruct (decide (m = n)) as [->|]; [rewrite lookup_total_insert_eq; apply Hf|by rewrite lookup_total_insert_ne].
Qed.

Lemma quiet_defaults global n s : quiet s (post_process_defaults global n s).2.
Proof. unfold post_process_defaults, mbind, ST_bind, get_node, gets. cbn [fst snd]. apply quiet_node. by intros []. Qed.

Lemma quiet_ports n later s : quiet s (post_process_ports n later s).2.
Proof.
  assert (forall m s, quiet s (fix_srcport m s).2) as Fx by (intros; apply quiet_node; by intros []).
  unfold post_process_ports, mbind, ST_bind, get_node, gets. destruct (has_flag _ _); [done|]. destruct (_ =? _); [apply Fx|].
  apply (for_each_inv (quiet s)); [done|]. intros x s' _ Q. eapply quiet_trans; [exact Q|]. unfold mbind, ST_bind, get_node, gets. destruct (_ =? _); [|done].
  pose proof (Fx n s') as F1. destruct (fix_srcport n s') as [u s1]. cbn [snd] in F1. eapply quiet_trans; [exact F1|apply Fx].
Qed.

Lemma restore_all global qs ns : forall s, conf_ok (m_binlog s) -> world_ok (m_world s) -> w_faults (m_world s) = [] -> NoDup ns ->
  (forall n m, n ∈ ns -> m ∈ ns -> n <> m -> apart (file_of s n) (file_of s m)) ->
  (forall n, n ∈ ns -> node_binlog (m_nodes s !!! n) = None /\ kept (file_of s n) (m_world s) (qs n) /\ fits (m_binlog s) (qs n)) ->
  let s' := (post_process global ns s).2 in
  (forall n, n ∉ ns -> node_binlog (m_nodes s' !!! n) = node_binlog (m_nodes s !!! n)) /\
  (forall p o q, (forall n, n ∈ ns -> apart p (file_of s n)) -> holds p o (m_world s) q -> holds p o (m_world s') q) /\
  forall n, n ∈ ns -> holds (file_of s n) (node_binlog (m_nodes s' !!! n)) (m_world s') (qs n).
Proof.
  induction ns as [|n ns IH]; intros s C W F ND Ap H; cbn [post_process]; [split_and!; try done; by intros n ?%elem_of_nil|].
  unfold mbind, ST_bind. pose proof (quiet_defaults global n s) as (Q1 & Q2 & Q3). destruct (post_process_defaults global n s) as [u s1]. cbn [snd] in *.
  apply NoDup_cons in ND as [Nn ND]. assert (forall m, file_of s1 m = file_of s m) as Fo by (intros m; unfold file_of; by rewrite Q2, (proj1 (Q3 m))).
  destruct (H n ltac:(by left)) as (Hb & Hk & Hf).
  destruct (restore_one n s1 (qs n)) as (r & s2 & -> & (A1 & A2 & A3) & L & Hn); [by rewrite Q2|by rewrite (proj2 (Q3 n))|by rewrite Q1|by rewrite Q1|by rewrite Fo, Q1|by rewrite Q2|].
  rewrite Fo in L, Hn. rewrite Q1 in L. destruct (L W) as (W2 & F2 & _). specialize (F2 F).
  pose proof (quiet_ports n ns s2) as (P1 & P2 & P3). destruct (post_process_ports n ns s2) as [v s3]. cbn [snd] in *.
  assert (forall m, file_of s3 m = file_of s m) as Fo3 by (intros m; rewrite <- Fo; unfold file_of; by rewrite P2, A1, (proj1 (P3 m)), A2).
  assert (forall m, m <> n -> node_binlog (m_nodes s3 !!! m) = node_binlog (m_nodes s !!! m)) as B3.
  { intros m Hm. by rewrite (proj2 (P3 m)), A3, (proj2 (Q3 m)). }
  destruct (IH s3) as (I1 & I2 & I3).
  - by rewrite P2, A1, Q2.
  - by rewrite P1.
  - by rewrite P1.
  - done.
  - intros m k Hm Hk' Hne. rewrite !Fo3. apply Ap; [by right..|done].
  - intros m Hm. destruct (H m ltac:(by right)) as (Hb' & Hk' & Hf'). rewrite B3 by (intros ->; done). split; [done|].
    rewrite Fo3, P1, P2, A1, Q2. split; [|done]. assert (apart (file_of s m) (file_of s n)) as Apart by (apply Ap; [by right|by left|by intros ->]).
    eapply kept_local; [exact L|done|..|done]; apply Apart; right; [by left|by right].
  - rewrite P1 in I2. split_and!.
    + intros m Hm. rewrite not_elem_of_cons in Hm. rewrite I1, B3 by tauto. done.
    + intros p o q Hp Ho. apply I2; [intros m Hm; rewrite Fo3; apply Hp; by right|].
      eapply holds_local; [exact L|done| |done]. apply (Hp n ltac:(by left)). by left.
    + intros m Hm. apply elem_of_cons in Hm as [->|Hm]; [|rewrite <- Fo3; by apply I3].
      rewrite I1, (proj2 (P3 n)) by done. apply I2; [|done]. intros k Hk'. rewrite Fo3. apply Ap; [by left|by right|]. intros ->. done.
Qed.

(** ** The names of the files *)

Lemma chars_app (a b : string) : str (a +:+ b)%string = str a ++ str b.
Proof. induction a as [|c a IH]; [done|]. change (c :: str (a +:+ b) = c :: str a ++ str b). by rewrite IH. Qed.

Lemma str_inj (a b : string) : str a = str b -> a = b.
Proof. intros E. rewrite <- (String.string_of_list_ascii_of_string a), <- (String.string_of_list_ascii_of_string b). by f_equal. Qed.


(** What stands behind a name in the three files of a log. *)
Definition endings : list text := [str ".binlog"; str ".binlog.meta"; str ".binlog.save"].

Lemma endings_differ (a b x y : text) : x ∈ endings -> y ∈ endings -> a ++ x = b ++ y -> a = b.
Proof.
  intros Hx Hy E. pose proof (f_equal (fun l => head (reverse l)) E) as L. cbv beta in L. rewrite !reverse_app in L. unfold endings in Hx, Hy.
  repeat (apply elem_of_cons in Hx as [->|Hx]; [|]); try (by apply elem_of_nil in Hx);
    repeat (apply elem_of_cons in Hy as [->|Hy]; [|]); try (by apply elem_of_nil in Hy).
  all: first [by apply app_inv_tail in E|by vm_compute in L].
Qed.

Lemma file_ending s n x : family (file_of s n) x ->
  exists e, e ∈ endings /\ str x = (str (bc_dir (m_binlog s)) ++ str "/module.") ++ str (name (m_nodes s !!! n)) ++ e.
Proof.
  unfold family, meta_of, save_of, file_of, endings. intros [->|[->| ->]]; eexists.
  - split; [by left|]. by rewrite !chars_app, <- !app_assoc.
  - split; [right; by left|]. rewrite !chars_app, <- !app_assoc. done.
  - split; [right; right; by left|]. rewrite !chars_app, <- !app_assoc. done.
Qed.

(** Nodes with different names have different files. *)
Lemma names_apart s n m : name (m_nodes s !!! n) <> name (m_nodes s !!! m) -> apart (file_of s n) (file_of s m).
Proof.
  intros N x Hx Hy. apply N. destruct (file_ending _ _ _ Hx) as (e & He & E). destruct (file_ending _ _ _ Hy) as (f & Hf & E'). rewrite E in E'.
  apply app_inv_head in E'. apply str_inj. by apply (endings_differ _ _ e f).
Qed.

(** ** Over a restart *)

(** The nodes of the table that are saved and restored. *)
Definition node_list (s : merlin) : list nat := take (Z.to_nat (num_nodes s)) (m_table s).

(** C5.  A module is unloaded and another loaded with the same nodes, of different names, and the same settings of the backlogs, on a disk that does
    not fail.  What each node's backlog [qs n] holds then, the events of the file followed by those of memory, is what it holds afterwards, in
    that order, whatever lies in the backlogs of the other nodes, as far as it fits the file. *)
Theorem backlogs_survive (qs : nat -> list (list byte)) s s2 global :
  conf_ok (m_binlog s) -> world_ok (m_world s) -> w_faults (m_world s) = [] ->
  NoDup (node_list s) -> (forall n m, n ∈ node_list s -> m ∈ node_list s -> n <> m -> name (m_nodes s !!! n) <> name (m_nodes s !!! m)) ->
  (forall n, n ∈ node_list s -> backlog (file_of s n) (node_binlog (m_nodes s !!! n)) (m_world s) (qs n) /\ fits (m_binlog s) (qs n)) ->
  m_world s2 = m_world (for_each (node_list s) save_node s).2 -> m_binlog s2 = m_binlog s -> node_list s2 = node_list s ->
  (forall n, n ∈ node_list s -> name (m_nodes s2 !!! n) = name (m_nodes s !!! n) /\ node_binlog (m_nodes s2 !!! n) = None) ->
  let s' := (post_process_nodes global s2).2 in
  forall n, n ∈ node_list s -> exists bl mq fq, node_binlog (m_nodes s' !!! n) = Some bl /\ binlog_repr bl (m_world s') mq fq /\ mq ++ fq = qs n.
Proof.
  intros C W F ND Nm B Hw Hb Hl Hn. assert (forall n, n ∈ node_list s -> file_of s2 n = file_of s n) as Fo.
  { intros n Hin. unfold file_of. by rewrite Hb, (proj1 (Hn n Hin)). }
  destruct (save_all (node_list s) qs s W (proj1 C) ND) as (W2 & F2 & _ & K).
  { intros n m H1 H2 H3. apply names_apart. by apply Nm. }
  { intros n Hin. by apply B. }
  cbn zeta. unfold post_process_nodes, mbind, ST_bind, gets. fold (node_list s2). rewrite Hl.
  destruct (restore_all global qs (node_list s) s2) as (_ & _ & R).
  - by rewrite Hb.
  - by rewrite Hw.
  - rewrite Hw. auto.
  - done.
  - intros n m H1 H2 H3. rewrite (Fo n), (Fo m) by done. apply names_apart. by apply Nm.
  - intros n Hin. destruct (Hn n Hin) as [_ ->]. split; [done|]. rewrite Fo, Hw, Hb by done. split; [by apply K|]. by apply B.
  - intros n Hin. destruct (R n Hin) as (bl & mq & fq & E1 & _ & E2 & E3). eauto 10.
Qed.

(** ** The installation of [Lifecycle] is restarted while its peer is away *)

#[local] Existing Instances QSort_insertion.

(** The module just before the logs are read, with nothing in them. *)
Definition demo_fresh (w : world) : merlin :=
  let empty n := fun s => (on_node n (fun x => x <| node_binlog := None |>) s).2 in
  empty 1%nat (empty 2%nat (merlin_of demo_loaded)) <| m_world := w |>.

Definition demo_event : list byte := pkt_bytes (Event (blank_hdr <| h_len := 1 |>) [Byte.x2a]).
Definition demo_twin_log : string := file_of (merlin_of demo_loaded) 2.

(** The log of the peer twin with one event in it. *)
Definition demo_twin_backlog : binlog * world := Eval vm_compute in
  match binlog_create (Some demo_twin_log) (10 * 1024 * 1024) (100 * 1024 * 1024) BINLOG_UNLINK (World ∅ ∅ 0 []) with
  | (Some bl, w) => let '(_, bl, w) := binlog_add bl demo_event (Z.of_nat (length demo_event)) w in (bl, w)
  | _ => (binlog_zero, World ∅ ∅ 0 [])
  end.

Definition demo_ending : merlin :=
  (on_node 2 (fun x => x <| node_binlog := Some demo_twin_backlog.1 |>) (demo_fresh demo_twin_backlog.2)).2.

Lemma demo_backlog : exists mq fq, binlog_repr demo_twin_backlog.1 demo_twin_backlog.2 mq fq /\ mq ++ fq = [demo_event].
Proof.
  destruct (create_repr demo_twin_log (10 * 1024 * 1024) (100 * 1024 * 1024) (World ∅ ∅ 0 [])) as (bl & w & E & R & M & _ & _ & _ & _ & Z0);
    [reflexivity|lia|lia|vm_compute; discriminate|].
  destruct (add_room bl w [] [] demo_event R) as (bl' & w' & mq & fq & E' & R' & Q & _); [vm_compute; reflexivity|rewrite Z0, M; vm_compute; discriminate|].
  assert (demo_twin_backlog = (bl', w')) as ->; [|by exists mq, fq].
  transitivity (match binlog_create (Some demo_twin_log) (10 * 1024 * 1024) (100 * 1024 * 1024) BINLOG_UNLINK (World ∅ ∅ 0 []) with
    | (Some bl, w) => let '(_, bl, w) := binlog_add bl demo_event (Z.of_nat (length demo_event)) w in (bl, w)
    | _ => (binlog_zero, World ∅ ∅ 0 []) end); [vm_compute; reflexivity|]. by rewrite E, E'.
Qed.

Lemma demo_fresh_is w : m_world (demo_fresh w) = w /\ m_binlog (demo_fresh w) = m_binlog demo_ending /\ node_list (demo_fresh w) = [2; 1]%nat /\
  forall n, n ∈ [2; 1]%nat -> name (m_nodes (demo_fresh w) !!! n) = name (m_nodes demo_ending !!! n) /\ node_binlog (m_nodes (demo_fresh w) !!! n) = None.
Proof.
  split; [reflexivity|]. split; [reflexivity|]. split; [reflexivity|]. intros n Hn.
  apply elem_of_cons in Hn as [->|Hn]; [|apply list_elem_of_singleton in Hn as ->]; split; vm_compute; reflexivity.
Qed.

Example backlogs_survive_witness :
  let s' := (post_process_nodes zero_csync (demo_fresh (m_world (for_each (node_list demo_ending) save_node demo_ending).2))).2 in
  exists bl mq fq, node_binlog (m_nodes s' !!! 2%nat) = Some bl /\ binlog_repr bl (m_world s') mq fq /\ mq ++ fq = [demo_event].
Proof.
  apply (backlogs_survive (fun n => if (n =? 2)%nat then [demo_event] else []) demo_ending
    (demo_fresh (m_world (for_each (node_list demo_ending) save_node demo_ending).2)) zero_csync).
  - split; [reflexivity|]. split; [reflexivity|]. vm_compute. repeat split; discriminate.
  - split; intros *; vm_compute; discriminate.
  - reflexivity.
  - apply (bool_decide_unpack _). vm_compute. exact I.
  - intros n m Hn Hm. change (node_list demo_ending) with [2; 1]%nat in Hn, Hm.
    repeat (apply elem_of_cons in Hn as [->|Hn]; [|]); try (by apply elem_of_nil in Hn);
      repeat (apply elem_of_cons in Hm as [->|Hm]; [|]); try (by apply elem_of_nil in Hm); intros ?; try done; vm_compute; discriminate.
  - intros n Hn. change (node_list demo_ending) with [2; 1]%nat in Hn. apply elem_of_cons in Hn as [->|Hn]; [|apply list_elem_of_singleton in Hn as ->].
    + destruct demo_backlog as (mq & fq & R & Q). assert (fq ++ mq = [demo_event]) as Q'.
      { destruct mq as [|d [|]], fq as [|e [|]]; cbn in Q |- *; congruence. }
      split.
      * split; [done|]. split; [vm_compute; reflexivity|]. split; [repeat split; vm_compute; reflexivity|]. exists mq, fq. split; [exact R|]. split; [by rewrite Q'|].
        apply Z.le_trans with (enc_size [demo_event]); [|vm_compute; discriminate]. change (file_size demo_twin_backlog.1) with 0.
        rewrite <- Q. unfold enc_size. rewrite enc_entries_app, length_app. lia.
      * split; [|split; vm_compute; [discriminate|reflexivity]]. constructor; [|done]. split; vm_compute; reflexivity.
    + split; [|split; [done|split; vm_compute; [discriminate|reflexivity]]]. split; [intros _; vm_compute; reflexivity|]. split; [done|reflexivity].
  - apply demo_fresh_is.
  - apply demo_fresh_is.
  - apply demo_fresh_is.
  - apply demo_fresh_is.
  - change (node_list demo_ending) with [2; 1]%nat. by left.
Defined.
