(* ===== verification/Tools.v ===== *)
(** * The tools oconf and keygen

    What tools/oconf.c prints of the object configuration, with the functions of [Misc] that the module uses, and the files that
    tools/keygen.c writes, with the function of shared/encryption.c that reads them.  Files are a map from names to contents; what opening,
    writing and closing are going to give, the options getopt(3) finds and what freshly allocated memory holds are arguments. *)

From S2P Require Import Prelude Sha1 Cfgfile Config Misc Shared.
#[local] Open Scope Z_scope.

(** ** Texts up to a character *)

Lemma span_to d s r : d ∉ s -> span (fun c => negb (Ascii.eqb c d)) (s ++ d :: r) = (s, d :: r).
Proof.
  intros N. apply span_all; [|by rewrite Ascii.eqb_refl]. apply forallb_forall. intros c Hc. apply list_elem_of_In in Hc.
  rewrite (proj2 (Ascii.eqb_neq c d)); [done|]. by intros ->.
Qed.

Lemma span_split d t : t = (span (fun c => negb (Ascii.eqb c d)) t).1 ++ (span (fun c => negb (Ascii.eqb c d)) t).2.
Proof. induction t as [|c t IH]; [done|]. cbn [span]. destruct (negb _); [|done]. destruct (span _ t). cbn in *. congruence. Qed.

Lemma span_without d t : d ∉ (span (fun c => negb (Ascii.eqb c d)) t).1.
Proof.
  induction t as [|c t IH]; [apply not_elem_of_nil|]. cbn [span]. destruct (Ascii.eqb_spec c d); [apply not_elem_of_nil|]. cbn [negb].
  destruct (span _ t). cbn in *. by apply not_elem_of_cons.
Qed.

(** ** oconf *)

(** What follows the last slash of a name, all of it when there is none. *)
Fixpoint after_slash (s : text) : text :=
  match s with
  | [] => []
  | c :: r => if bool_decide ("/"%char ∈ r) then after_slash r else if Ascii.eqb c "/" then r else s
  end.

(** tools/oconf.c:14-16 CMD_HASH *)
Inductive oconf_cmd := CMD_NONE | CMD_HASH | CMD_LAST_CHANGE | CMD_FILES.

(** tools/oconf.c:24-37 main -- what the name of the program says. *)
Definition oconf_base (argv0 : text) : oconf_cmd :=
  let base := after_slash argv0 in
  if starts base "oconf." then
    let cmd_string := drop 6 base in
    if equals cmd_string "changed" then CMD_LAST_CHANGE else if equals cmd_string "hash" then CMD_HASH else CMD_NONE
  else CMD_NONE.

(** tools/oconf.c:39-60 main -- one argument. *)
Definition oconf_arg (st : oconf_cmd * option text) (arg : text) : oconf_cmd * option text :=
  let '(cmd, config_file) := st in
  if starts arg "--nagios-cfg=" then (cmd, Some (drop 13 arg)) else
  let arg := (span (fun c => Ascii.eqb c "-") arg).2 in
  if starts arg "last" || starts arg "change" then (CMD_LAST_CHANGE, config_file)
  else if equals arg "sha1" || equals arg "hash" then (CMD_HASH, config_file)
  else if starts arg "list" || equals arg "files" then (CMD_FILES, config_file)
  else (cmd, config_file).

Section Oconf.
Context {QS : QSort} {NP : Nspath} (fs : filesystem) (mem : blk_SHA_CTX).

(** tools/oconf.c:17-91 main -- the text that is printed; [None] where reading the files crashes. *)
Definition oconf_main (argv0 : text) (args : list text) : option text :=
  let '(cmd, config_file) := foldl oconf_arg (oconf_base argv0, None) args in
  let config_file := default (str "/opt/monitor/etc/nagios.cfg") config_file in
  match cmd with
  | CMD_HASH => hash ← get_config_hash fs config_file mem; Some (tohex hash ++ [NL])
  | CMD_LAST_CHANGE => t ← get_last_cfg_change fs config_file; Some (dec t ++ [NL])
  | CMD_FILES => l ← get_sorted_oconf_files fs config_file; Some (concat (map (fun e => e.1 ++ [NL]) l))
  | CMD_NONE => Some []
  end.

(** Lines of a text that ends in a newline. *)
Fixpoint text_lines (fuel : nat) (t : text) : list text :=
  match fuel, t with
  | S fuel, _ :: _ => let '(l, r) := span (fun c => negb (Ascii.eqb c NL)) t in l :: text_lines fuel (tail r)
  | _, _ => []
  end.

Lemma text_lines_printed ls : Forall (fun l => NL ∉ l) ls -> forall fuel, (length ls <= fuel)%nat ->
  text_lines fuel (concat (map (fun l => l ++ [NL]) ls)) = ls.
Proof.
  induction 1 as [|l ls H Hs IH]; intros fuel Hf; [by destruct fuel|]. destruct fuel as [|fuel]; cbn [length] in Hf; [lia|].
  cbn [map concat]. rewrite <- app_assoc. cbn [app text_lines]. destruct (l ++ NL :: _) as [|c r] eqn:E; [by destruct l|]. rewrite <- E, span_to by done.
  cbn [tail]. by rewrite IH by lia.
Qed.

Lemma printed_length ls : (length ls <= length (concat (map (fun l : text => l ++ [NL]) ls)))%nat.
Proof. induction ls as [|l ls IH]; [done|]. cbn [map concat length]. rewrite !length_app. cbn [length]. lia. Qed.

(** What [oconf hash] prints is the hash of what [oconf list] prints: the SHA-1 of the contents of the files of the list, one after the
    other in its order.  Names of files have no newline in them. *)
Theorem oconf_hash_of_list argv0 cfg out hash : length (sha_W mem) = 64%nat ->
  (forall l, get_sorted_oconf_files fs cfg = Some l -> Forall (fun n => NL ∉ n) l.*1) ->
  oconf_main argv0 [str "--nagios-cfg=" ++ cfg; str "list"] = Some out ->
  oconf_main argv0 [str "--nagios-cfg=" ++ cfg; str "hash"] = Some hash ->
  hash = tohex (fips_sha1 (concat (omap (fs_read fs) (text_lines (length out) out)))) ++ [NL].
Proof.
  intros Hm Hn. unfold oconf_main. cbn [foldl]. unfold oconf_arg. change (starts (str "--nagios-cfg=" ++ cfg) "--nagios-cfg=") with true. cbv iota beta.
  change (drop 13 (str "--nagios-cfg=" ++ cfg)) with cfg.
  set (c := oconf_base argv0). cbn -[get_sorted_oconf_files get_config_hash text_lines fips_sha1 tohex app].
  unfold get_config_hash. destruct (get_sorted_oconf_files fs cfg) as [l|]; [|done]. cbn [mbind option_bind].
  intros E1 E2. apply (inj Some) in E1. apply (inj Some) in E2. rewrite <- E1, <- E2, hash_files_fips by done. f_equal. f_equal. f_equal. f_equal. f_equal.
  assert (concat (map (fun e : text * option stat => e.1 ++ [NL]) l) = concat (map (fun n => n ++ [NL]) l.*1)) as -> by (clear; induction l; cbn; congruence).
  rewrite text_lines_printed; [done|by apply Hn|apply printed_length].
Qed.
End Oconf.

(** ** keygen *)

(** What writing a file is going to give: it cannot be opened, it is cut off and writing or closing fails, or all is well. *)
Inductive write_res := WOpenFails | WPartial (n : nat) | WCloseFails (n : nat) | WAllWell.

(** Files by name. *)
Abbreviation files := (gmap text (list byte)).

(** tools/keygen.c:8-30 write_key *)
Definition write_key (path : text) (key : list byte) (r : write_res) (fs : files) : Z * files :=
  match r with
  | WOpenFails => (1, fs)
  | WPartial n | WCloseFails n => (1, <[path := take n key]> fs)
  | WAllWell => (0, <[path := key]> fs)
  end.

(** strcat(3) on a piece of memory: nothing where there is no end of a text in it or no room. *)
Definition NUL : ascii := "000"%char.
Definition strcat (dst src : text) : option text :=
  let '(s, r) := span (fun c => negb (Ascii.eqb c NUL)) dst in
  if bool_decide (r = []) || (length dst <? length s + length src + 1)%nat then None
  else Some (s ++ src ++ NUL :: drop (length s + length src + 1) dst).

(** The text that a piece of memory holds. *)
Definition c_text (mem : text) : text := (span (fun c => negb (Ascii.eqb c NUL)) mem).1.

(** tools/keygen.c:71-80 main -- the name of a file, on memory that holds [mem]. *)
Definition key_path (mem path file : text) : option text :=
  m ← strcat mem path; m ← strcat m file; Some (c_text m).

(** What getopt(3) finds: a path, or something that is refused. *)
Inductive keygen_opt := OptP (path : text) | OptRefused.

(** tools/keygen.c:43-57 main -- the options. *)
Fixpoint keygen_opts (opts : list keygen_opt) (path : option text) : option (option text) :=
  match opts with
  | [] => Some path
  | OptP p :: opts => keygen_opts opts (Some p)
  | OptRefused :: _ => None
  end.

Section Keygen.
Context (sodium_init : Z) (keypair : list byte * list byte) (pub_mem priv_mem : text -> text) (pub_res priv_res : write_res).

(** tools/keygen.c:32-98 main -- the exit code and the files; [None] where it writes behind its memory. *)
Definition keygen_main (opts : list keygen_opt) (fs : files) : option (Z * files) :=
  match keygen_opts opts None with
  | None | Some None => Some (1, fs)
  | Some (Some path) =>
      if sodium_init <? 0 then Some (1, fs) else
      let '(pubkey, privkey) := keypair in
      pubkey_path ← key_path (pub_mem path) path (str "/key.pub");
      privkey_path ← key_path (priv_mem path) path (str "/key.priv");
      let '(r, fs) := write_key pubkey_path pubkey pub_res fs in
      if negb (r =? 0) then Some (1, fs) else
      let '(r, fs) := write_key privkey_path privkey priv_res fs in
      if negb (r =? 0) then Some (1, fs) else Some (0, fs)
  end.
End Keygen.

(** shared/encryption.c:15-36 open_encryption_key -- the result and what the target holds; [close_ok]: closing succeeds. *)
Definition open_encryption_key (close_ok : bool) (path : text) (target : list byte) (size : nat) (fs : files) : Z * list byte :=
  match fs !! path with
  | None => (-1, target)
  | Some b =>
      let target := take size b ++ drop (length (take size b)) target in
      if (length b <? size)%nat then (-1, target) else (if close_ok then 0 else -1, target)
  end.

(** ** The names of the key files *)

Lemma strcat_text s r src : NUL ∉ s -> (length src <= length r)%nat -> strcat (s ++ NUL :: r) src = Some (s ++ src ++ NUL :: drop (length src) r).
Proof.
  intros N L. unfold strcat. rewrite span_to by done. rewrite bool_decide_false by done. rewrite length_app. cbn [length orb].
  rewrite (proj2 (Nat.ltb_ge _ _)) by lia. do 3 f_equal. replace (length s + length src + 1)%nat with (length s + S (length src))%nat by lia.
  by rewrite <- drop_drop, drop_app_length.
Qed.

(** What the allocated memory holds decides: with the end of a text at its start the name of the file is the path with the name behind it,
    and otherwise the program writes behind what it allocated, or reads there. *)
Theorem key_path_memory mem path file : NUL ∉ path -> NUL ∉ file -> length mem = (length path + length file + 1)%nat ->
  key_path mem path file = if bool_decide (head mem = Some NUL) then Some (path ++ file) else None.
Proof.
  intros Np Nf L. unfold key_path. destruct mem as [|c r]; cbn [length head] in *; [lia|]. destruct (decide (c = NUL)) as [->|Hc].
  - rewrite bool_decide_true by done. pose proof (strcat_text [] r path (not_elem_of_nil _)) as S. cbn [app] in S. rewrite S by lia. cbn [mbind option_bind].
    rewrite strcat_text by (rewrite ?length_drop; lia || done). cbn [mbind option_bind]. unfold c_text.
    rewrite app_assoc, span_to; [done|]. rewrite elem_of_app. tauto.
  - rewrite bool_decide_false by congruence. destruct (strcat (c :: r) path) as [m|] eqn:E1; [|done]. cbn [mbind option_bind].
    unfold strcat in E1. pose proof (span_split NUL (c :: r)) as Er. pose proof (span_without NUL (c :: r)) as Ns.
    assert ((span (fun x => negb (Ascii.eqb x NUL)) (c :: r)).1 <> []) as Hs.
    { cbn [span]. rewrite (proj2 (Ascii.eqb_neq c NUL)) by done. cbn [negb]. by destruct (span _ r). }
    destruct (span _ (c :: r)) as [s rest]. cbn [fst snd] in *. destruct s as [|c' s]; [done|]. destruct (_ || _) eqn:F; [done|]. apply (inj Some) in E1. subst m.
    apply orb_false_iff in F as [_ F]. apply Nat.ltb_ge in F. cbn [length] in *.
    unfold strcat. rewrite app_assoc, span_to by (rewrite elem_of_app; tauto). rewrite bool_decide_false by done. cbn [orb].
    rewrite (proj2 (Nat.ltb_lt _ _)); [done|]. rewrite !length_app. cbn [length]. rewrite length_drop. cbn [length]. lia.
Qed.

(** With room that starts with the end of a text, keygen ends with 0 exactly when both files could be written, and then
    [open_encryption_key] reads from them, into a place of the size of a key, the two keys that the library made; no other file changes. *)
Theorem keygen_keys_open sodium pub priv pub_mem priv_mem pub_res priv_res opts path fs :
  keygen_opts opts None = Some (Some path) -> 0 <= sodium -> NUL ∉ path -> length pub = 32%nat -> length priv = 32%nat ->
  length pub_mem = (length path + 9)%nat -> length priv_mem = (length path + 10)%nat -> head pub_mem = Some NUL -> head priv_mem = Some NUL ->
  exists code fs', keygen_main sodium (pub, priv) (const pub_mem) (const priv_mem) pub_res priv_res opts fs = Some (code, fs') /\
    (code = 0 <-> pub_res = WAllWell /\ priv_res = WAllWell) /\
    (forall f, f <> path ++ str "/key.pub" -> f <> path ++ str "/key.priv" -> fs' !! f = fs !! f) /\
    (code = 0 -> forall t t', length t = 32%nat -> length t' = 32%nat ->
       open_encryption_key true (path ++ str "/key.pub") t 32 fs' = (0, pub) /\ open_encryption_key true (path ++ str "/key.priv") t' 32 fs' = (0, priv)).
Proof.
  intros Ho Hs Np L1 L2 M1 M2 H1 H2. unfold keygen_main, const. rewrite Ho, (proj2 (Z.ltb_ge _ _)) by done. cbv iota beta zeta.
  rewrite !key_path_memory by (done || (cbn [length str String.list_ascii_of_string]; lia) || by apply (bool_decide_unpack _)).
  rewrite !bool_decide_true by done. cbn [mbind option_bind].
  assert (path ++ str "/key.pub" <> path ++ str "/key.priv") as D by by intros [=]%app_inv_head.
  set (p1 := path ++ str "/key.pub") in *. set (p2 := path ++ str "/key.priv") in *.
  assert (forall fs', fs' !! p1 = Some pub -> fs' !! p2 = Some priv -> forall t t', length t = 32%nat -> length t' = 32%nat ->
    open_encryption_key true p1 t 32 fs' = (0, pub) /\ open_encryption_key true p2 t' 32 fs' = (0, priv)) as R.
  { intros fs' E1 E2 t t' Lt Lt'. unfold open_encryption_key. rewrite E1, E2, L1, L2. cbn [Nat.ltb Nat.leb].
    rewrite !firstn_all2, L1, L2 by lia. by rewrite !drop_ge, !app_nil_r by lia. }
  destruct pub_res, priv_res; cbn [write_key Z.eqb negb]; eexists _, _; (split; [reflexivity|]); (split; [by split; [|intros []]|]);
    (split; [intros f N1 N2; by rewrite ?lookup_insert_ne by congruence|]); try done.
  intros _. apply R; [rewrite lookup_insert_ne by congruence|]; by rewrite lookup_insert_eq.
Qed.

(** ** Concrete runs *)

#[local] Existing Instances QSort_insertion demo_nspath.

Definition demo_cfg_arg : text := str "--nagios-cfg=" ++ str "/etc/naemon.cfg".

(** The list of the files of the first server, and the hash of what they hold. *)
Lemma oconf_hash_of_list_witness : exists out,
  oconf_main server1 ctx0 (str "/usr/bin/oconf") [demo_cfg_arg; str "list"] = Some out /\
  text_lines (length out) out = map str ["/etc/conf.d/a.cfg"; "/etc/conf.d/b.cfg"; "/etc/conf.d/sub/c.cfg"; "/etc/extra.cfg"]%string /\
  oconf_main server1 ctx0 (str "/usr/bin/oconf") [demo_cfg_arg; str "hash"]
    = Some (tohex (fips_sha1 (concat (omap (fs_read server1) (text_lines (length out) out)))) ++ [NL]).
Proof.
  eexists. split; [vm_compute; reflexivity|]. split; [vm_compute; reflexivity|].
  destruct (oconf_main server1 ctx0 (str "/usr/bin/oconf") [demo_cfg_arg; str "hash"]) as [h|] eqn:E; [|by vm_compute in E].
  f_equal. apply (oconf_hash_of_list server1 ctx0 (str "/usr/bin/oconf") (str "/etc/naemon.cfg")).
  - reflexivity.
  - intros l El. vm_compute in El. apply (inj Some) in El as <-. apply (bool_decide_unpack _). vm_compute. exact I.
  - vm_compute. reflexivity.
  - exact E.
Defined.

(** The name of the program can say what to print; the argument that comes last decides. *)
Example demo_oconf_names :
  oconf_base (str "/usr/libexec/oconf.changed") = CMD_LAST_CHANGE /\ oconf_base (str "oconf.hash") = CMD_HASH /\
  oconf_base (str "/opt/oconf.d/oconf") = CMD_NONE /\
  foldl oconf_arg (CMD_NONE, None) [str "--files"; str "--last-change"] = (CMD_LAST_CHANGE, None).
Proof. vm_compute. auto. Qed.

Definition demo_pub : list byte := repeat Byte.x70 32.
Definition demo_priv : list byte := repeat Byte.x73 32.

Lemma keygen_keys_open_witness : exists code fs',
  keygen_main 0 (demo_pub, demo_priv) (const (repeat NUL 13)) (const (repeat NUL 14)) WAllWell WAllWell [OptP (str "/key")] ∅ = Some (code, fs') /\
  open_encryption_key true (str "/key/key.pub") (repeat Byte.x78 32) 32 fs' = (0, demo_pub).
Proof.
  destruct (keygen_keys_open 0 demo_pub demo_priv (repeat NUL 13) (repeat NUL 14) WAllWell WAllWell [OptP (str "/key")] (str "/key") ∅)
    as (code & fs' & E & C & _ & R); try done.
  { apply (bool_decide_unpack _). vm_compute. exact I. }
  exists code, fs'. split; [exact E|]. apply (R (proj2 C (conj eq_refl eq_refl)) (repeat Byte.x78 32) (repeat Byte.x78 32)); reflexivity.
Defined.

(** Memory that held something before: nothing is written, the program has written behind what it allocated. *)
Lemma key_path_memory_witness : key_path (str "left overs ab") (str "/key") (str "/key.pub") = None.
Proof.
  rewrite (key_path_memory (str "left overs ab") (str "/key") (str "/key.pub")); [reflexivity|..|reflexivity];
    apply (bool_decide_unpack _); vm_compute; exact I.
Defined.
