(* ===== verification/Nodeinfo.v ===== *)
(** * What is reported about nodes

    dump_nodeinfo in shared/ipc.c, which prints the fields of a node on a line: in the module as the answer to the question nodeinfo of
    module/queries.c, in the daemon into a file whenever it gets SIGUSR1.  A reader of such lines is defined and gets back what was
    printed.  Then resolve in shared/node.c, which finds the address of a node by its name, and what module/script-helpers.c logs of a
    synchronisation that has ended. *)

From S2P Require Import Prelude Sha1 Binlog Packet Io Merlin Pgroup Node Control Codec Cfgfile Config Misc Queries Shared Auth Sql Daemon Merlind Logging.
#[local] Open Scope Z_scope.

(** ** The line of a node *)

(** shared/shared.c:292-302 node_state_name *)
Definition node_state_name (st : state) : string :=
  match st with
  | STATE_NONE => "STATE_NONE" | STATE_PENDING => "STATE_PENDING" | STATE_NEGOTIATING => "STATE_NEGOTIATING"
  | STATE_CONNECTED => "STATE_CONNECTED"
  end.

(** %d, %u and %lu *)
Definition fmt_d (n : Z) : text := dec (s32 n).
Definition fmt_u (n : Z) : text := dec (u32 n).
Definition fmt_lu (n : Z) : text := dec (u64 n).

(** %s of what may be NULL. *)
Definition fmt_s (s : option text) : text := default (str "(null)") s.

Section Nodeinfo.
Context {CE : ConfigEnv} (is_module : bool).

(** shared/node.c:400-403 create_node_tree -- the name that results of a node's checks are given; [ipc] has none. *)
Definition source_name (n : nat) (node : merlin_node) : option text :=
  if is_module && negb (Nat.eqb n IPC) then Some (str "Merlin " ++ str (Queries.node_type node) ++ " "%char :: str (Merlin.name node)) else None.

(** shared/ipc.c:21-98 dump_nodeinfo -- what is printed, the names of the fields with their values.  The fields latency, warn_flags and
    csync_max_attempts are never assigned. *)
Definition nodeinfo_fields (s : merlin) (n : nat) (instance_id : Z) : list (string * text) :=
  let node := m_nodes s !!! n in
  let i := info node in
  let st := stats node in
  let pg := (fun k => m_pgroups s !!! k) <$> pgroup node in
  let of_pg {A} (f : merlin_peer_group -> A) (d : A) := match pg with Some pg => f pg | None => d end in
  [("instance_id", fmt_d instance_id); ("name", str (Merlin.name node)); ("source_name", fmt_s (source_name n node));
   ("socket", fmt_d (sock node)); ("type", str (Queries.node_type node)); ("state", str (node_state_name (state_of node)));
   ("peer_id", fmt_u (peer_id node)); ("flags", fmt_d (flags node)); ("address", str (inet_ntoa (sin_addr node)));
   ("port", fmt_u (sin_port node)); ("data_timeout", fmt_u (data_timeout node)); ("last_recv", fmt_lu (last_recv node));
   ("last_sent", fmt_lu (last_sent node)); ("last_conn_attempt", fmt_lu (last_conn_attempt node));
   ("last_action", fmt_d (last_action node)); ("latency", fmt_d 0);
   ("binlog_size", fmt_u (match node_binlog node with Some bl => binlog_size bl | None => 0 end));
   ("iocache_available", fmt_lu (Z.of_nat (length (bq node))));
   ("events_sent", fmt_lu (ev_sent st)); ("events_read", fmt_lu (ev_read st)); ("events_logged", fmt_lu (ev_logged st));
   ("events_dropped", fmt_lu (ev_dropped st)); ("bytes_sent", fmt_lu (by_sent st)); ("bytes_read", fmt_lu (by_read st));
   ("bytes_logged", fmt_lu (by_logged st)); ("bytes_dropped", fmt_lu (by_dropped st));
   ("version", fmt_u (i_version i)); ("word_size", fmt_u (i_word_size i)); ("byte_order", fmt_u (i_byte_order i));
   ("object_structure_version", fmt_u (i_object_structure_version i));
   ("start", (fmt_lu (Packet.tv_sec (i_start i)) ++ "."%char :: fmt_lu (Packet.tv_usec (i_start i)))%list);
   ("last_cfg_change", fmt_lu (i_last_cfg_change i)); ("config_hash", tohex (i_config_hash i));
   ("expected_config_hash", tohex (i_config_hash (expected node))); ("self_assigned_peer_id", fmt_u (i_peer_id i)); ("warn_flags", fmt_u 0);
   ("active_peers", fmt_u (i_active_peers i)); ("configured_peers", fmt_u (i_configured_peers i));
   ("active_pollers", fmt_u (i_active_pollers i)); ("configured_pollers", fmt_u (i_configured_pollers i));
   ("active_masters", fmt_u (i_active_masters i)); ("configured_masters", fmt_u (i_configured_masters i));
   ("host_checks_handled", fmt_u (i_host_checks_handled i)); ("service_checks_handled", fmt_u (i_service_checks_handled i));
   ("host_checks_executed", fmt_u (n_host_checks node)); ("service_checks_executed", fmt_u (n_service_checks node));
   ("monitored_object_state_size", fmt_u (i_monitored_object_state_size i)); ("connect_time", fmt_lu (connect_time node));
   ("assigned_hosts", fmt_u (hosts (current node) + hosts (extra node)));
   ("assigned_services", fmt_u (services (current node) + services (extra node)));
   ("expired_hosts", fmt_u (hosts (expired node))); ("expired_services", fmt_u (services (expired node)));
   ("pgroup_active_nodes", fmt_u (of_pg pg_active_nodes 0)); ("pgroup_total_nodes", fmt_u (of_pg pg_total_nodes 0));
   ("pgroup_hosts", fmt_u (of_pg (hosts ∘ pg_assigned) 0)); ("pgroup_services", fmt_u (of_pg (services ∘ pg_assigned) 0));
   ("pgroup_id", fmt_d (of_pg (Z.of_nat ∘ pg_id) (-1))); ("pgroup_hostgroups", of_pg (fmt_s ∘ pg_hostgroups) []);
   ("csync_num_attempts", fmt_d (csync_num_attempts node)); ("csync_max_attempts", fmt_d 0);
   ("csync_last_attempt", fmt_lu (csync_last_attempt node));
   ("csync_push_cmd", default [] (str <$> cs_push (csync node))); ("csync_push_is_running", fmt_d (Z.b2z (cs_push_running (csync node))));
   ("csync_fetch_cmd", default [] (str <$> cs_fetch (csync node))); ("csync_fetch_is_running", fmt_d (Z.b2z (cs_fetch_running (csync node))));
   ("encrypted", fmt_d (Z.b2z (encrypted node))); ("uuid", text_of_bytes (Packet.c_str (uuid node)))]%string.

(** shared/ipc.c:21-98 dump_nodeinfo -- the line. *)
Definition field_text (f : string * text) : text := str f.1 ++ "="%char :: f.2.
Definition nodeinfo_line (s : merlin) (n : nat) (instance_id : Z) : text :=
  join ";" (map field_text (nodeinfo_fields s n instance_id)) ++ [NL].

(** shared/ipc.c:21-100 dump_nodeinfo -- in the module. *)
Definition dump_nodeinfo (n : nat) (sd instance_id : Z) : Q unit :=
  s ← gets q_merlin; nsock_printf sd [Txt (nodeinfo_line s n instance_id)].
End Nodeinfo.

(** ** Reading it *)

(** The pieces of a text between the delimiters. *)
Fixpoint cut (d : ascii) (t : text) : list text :=
  match t with
  | [] => [[]]
  | c :: t => let ps := cut d t in if Ascii.eqb c d then [] :: ps else match ps with p :: ps => (c :: p) :: ps | [] => [[c]] end
  end.

(** The name and the value of a field, and the fields of all the lines. *)
Definition read_field (t : text) : text * text := let '(k, v) := span (fun c => negb (Ascii.eqb c "=")) t in (k, tail v).
Definition read_nodeinfo (out : text) : list (list (text * text)) := map (fun l => map read_field (cut ";" l)) (removelast (cut NL out)).

Lemma cut_plain d t : d ∉ t -> cut d t = [t].
Proof.
  induction t as [|c t IH]; intros N; [done|]. rewrite not_elem_of_cons in N. destruct N as [N1 N2]. cbn [cut].
  rewrite (proj2 (Ascii.eqb_neq c d)) by done. by rewrite IH.
Qed.

Lemma cut_app d t u : d ∉ t -> cut d (t ++ d :: u) = t :: cut d u.
Proof.
  induction t as [|c t IH]; intros N; [cbn [app cut]; by rewrite Ascii.eqb_refl|]. rewrite not_elem_of_cons in N. destruct N as [N1 N2].
  cbn [app cut]. rewrite (proj2 (Ascii.eqb_neq c d)) by done. by rewrite IH.
Qed.

Lemma cut_join d l : l <> [] -> Forall (fun t => d ∉ t) l -> cut d (join d l) = l.
Proof.
  induction l as [|t l IH]; [done|]. intros _ H. inversion_clear H as [|? ? H1 H2]. destruct l as [|u l]; [by apply cut_plain|].
  rewrite join_cons, cut_app by done. by rewrite IH.
Qed.

Lemma not_in_join c d l : c <> d -> Forall (fun t => c ∉ t) l -> c ∉ join d l.
Proof.
  intros D. induction l as [|t l IH]; intros H; [apply not_elem_of_nil|]. inversion_clear H as [|? ? H1 H2]. destruct l as [|u l]; [done|].
  rewrite join_cons by done. rewrite not_elem_of_app, not_elem_of_cons. auto.
Qed.

Lemma read_field_text k v : "="%char ∉ str k -> read_field (field_text (k, v)) = (str k, v).
Proof.
  intros N. unfold read_field, field_text. cbn [fst snd]. rewrite (span_all _ (str k)); [done| |by rewrite Ascii.eqb_refl].
  apply forallb_forall. intros c Hc. apply list_elem_of_In in Hc. rewrite (proj2 (Ascii.eqb_neq c _)); [done|]. by intros ->.
Qed.

(** Neither of the two characters that end something. *)
Definition plain_value (v : text) : Prop := ";"%char ∉ v /\ NL ∉ v.
#[local] Instance plain_value_dec v : Decision (plain_value v) := _.

Ltac plain_const := apply (bool_decide_unpack _); vm_compute; exact I.

Lemma plain_app v w : plain_value v -> plain_value w -> plain_value (v ++ w).
Proof. unfold plain_value. rewrite !not_elem_of_app. tauto. Qed.

Lemma plain_in (ok : ascii -> bool) v : ok ";"%char = false -> ok NL = false -> Forall (fun c => ok c = true) v -> plain_value v.
Proof. intros A B H. rewrite Forall_forall in H. split; intros I; apply H in I; congruence. Qed.

Lemma plain_dec n : 0 <= n -> plain_value (dec n).
Proof. intros H. apply (plain_in isdigit); [done..|by apply dec_spec]. Qed.

Lemma plain_dec_any n : plain_value (dec n).
Proof.
  destruct (decide (0 <= n)) as [H|H]; [by apply plain_dec|]. pose proof (plain_dec (- n) ltac:(lia)) as P. unfold dec in *.
  rewrite (proj2 (Z.ltb_ge (- n) 0)) in P by lia. rewrite (proj2 (Z.ltb_lt n 0)) by lia. apply (plain_app ["-"%char]); [plain_const|done].
Qed.

Lemma plain_tohex l : plain_value (tohex l).
Proof.
  apply (plain_in (fun c => bool_decide (c ∈ hex_digits))); [done..|]. unfold tohex. apply Forall_flat_map, Forall_forall. intros b _.
  repeat constructor; apply bool_decide_eq_true_2, (bool_decide_unpack _); destruct b; vm_compute; exact I.
Qed.

#[local] Hint Resolve plain_app plain_dec_any plain_tohex : plain.

Section Reading.
Context {CE : ConfigEnv} (is_module : bool).

(** Names, groups and commands without the characters that end something; addresses are written without them. *)
Definition plain_node (s : merlin) (n : nat) : Prop :=
  let node := m_nodes s !!! n in
  plain_value (str (Merlin.name node)) /\ plain_value (str (inet_ntoa (sin_addr node))) /\ plain_value (text_of_bytes (Packet.c_str (uuid node))) /\
  (forall c, cs_push (csync node) = Some c -> plain_value (str c)) /\ (forall c, cs_fetch (csync node) = Some c -> plain_value (str c)) /\
  (forall k g, pgroup node = Some k -> pg_hostgroups (m_pgroups s !!! k) = Some g -> plain_value g).

Lemma plain_type node : plain_value (str (Queries.node_type node)).
Proof. unfold Queries.node_type. destruct (type node); plain_const. Qed.

Lemma plain_state st : plain_value (str (node_state_name st)).
Proof. destruct st; plain_const. Qed.

Lemma plain_source n node : plain_value (str (Merlin.name node)) -> plain_value (fmt_s (source_name is_module n node)).
Proof.
  intros H. unfold source_name, fmt_s. destruct (_ && _); cbn [default]; [|plain_const].
  apply plain_app; [plain_const|]. apply plain_app; [apply plain_type|]. by apply (plain_app [" "%char]); [plain_const|].
Qed.

Lemma plain_option (o : option string) : (forall c, o = Some c -> plain_value (str c)) -> plain_value (default [] (str <$> o)).
Proof. destruct o; cbn; intros H; [by apply H|plain_const]. Qed.

Lemma plain_fields s n i : plain_node s n -> Forall (fun f => plain_value f.2) (nodeinfo_fields is_module s n i).
Proof.
  intros (A & B & C & D & E & F). unfold nodeinfo_fields, fmt_d, fmt_u, fmt_lu. cbv zeta.
  repeat apply Forall_cons_2; cbn [snd]; try apply Forall_nil_2; auto using plain_type, plain_state, plain_source, plain_option, plain_dec_any, plain_tohex.
  - apply plain_app; [apply plain_dec_any|]. apply (plain_app ["."%char]); [plain_const|apply plain_dec_any].
  - destruct (pgroup _) as [k|] eqn:G; cbn; [|plain_const]. destruct (pg_hostgroups _) eqn:H; cbn; [by eapply F|plain_const].
Qed.

(** Names of the fields. *)
Definition plain_key (k : string) : Prop := plain_value (str k) /\ "="%char ∉ str k.
#[local] Instance plain_key_dec k : Decision (plain_key k) := _.

Lemma plain_keys s n i : Forall (fun f => plain_key f.1) (nodeinfo_fields is_module s n i).
Proof.
  assert (Forall plain_key (nodeinfo_fields is_module s n i).*1) as H by (apply (bool_decide_unpack _); vm_compute; exact I).
  by rewrite Forall_fmap in H.
Qed.

Lemma plain_line s n i : plain_node s n -> Forall plain_value (map field_text (nodeinfo_fields is_module s n i)).
Proof.
  intros H. apply Forall_map. generalize (plain_fields s n i H) (plain_keys s n i). rewrite !Forall_forall. intros V K f Hf.
  destruct (K f Hf) as [K1 _]. unfold field_text. apply plain_app; [done|]. apply (plain_app ["="%char]); [plain_const|by apply V].
Qed.

(** Lines of nodes, one after the other. *)
Lemma read_lines s (ns : list (nat * nat)) : Forall (fun p => plain_node s p.2) ns ->
  read_nodeinfo (concat (map (fun p => nodeinfo_line is_module s p.2 (Z.of_nat p.1)) ns))
    = map (fun p => prod_map str id <$> nodeinfo_fields is_module s p.2 (Z.of_nat p.1)) ns.
Proof.
  unfold read_nodeinfo. induction 1 as [|[k n] ns H Hs IH]; [done|]. cbn [map concat fst snd] in *. pose proof (plain_line s n (Z.of_nat k) H) as P.
  unfold nodeinfo_line at 1. rewrite <- app_assoc. cbn [app]. rewrite cut_app.
  - assert (forall l, removelast (join ";" (map field_text (nodeinfo_fields is_module s n (Z.of_nat k))) :: cut NL l)
      = join ";" (map field_text (nodeinfo_fields is_module s n (Z.of_nat k))) :: removelast (cut NL l)) as ->.
    { intros l. destruct l as [|c l]; [done|]. cbn [cut]. destruct (Ascii.eqb c NL); [done|]. by destruct (cut NL l). }
    cbn [map]. f_equal; [|exact IH]. rewrite cut_join; [|done|by eapply Forall_impl; [exact P|intros ? []]].
    rewrite map_map. apply map_ext_in. intros [f v] Hf. apply list_elem_of_In in Hf. rewrite read_field_text; [done|].
    pose proof (plain_keys s n (Z.of_nat k)) as K. rewrite Forall_forall in K. apply (K _ Hf).
  - apply not_in_join; [done|]. by eapply Forall_impl; [exact P|intros ? []].
Qed.
End Reading.

(** ** The question nodeinfo *)

Section Query.
Context {QS : QSort} {SD : Sodium} {CS : CStructs} {KV : Kvvec} {CE : ConfigEnv}.

(** The nodes that are reported, [ipc] first. *)
Definition reported (s : merlin) : list nat := IPC :: take (Z.to_nat (num_nodes s)) (m_table s).

Lemma dump_all sd l q : for_each l (fun p : nat * nat => dump_nodeinfo true p.2 sd (Z.of_nat p.1)) q
  = (tt, q <| q_said := rev (map (fun p => (sd, [Txt (nodeinfo_line true (q_merlin q) p.2 (Z.of_nat p.1))])) l) ++ q_said q |>).
Proof.
  revert q. induction l as [|p l IH]; intros q; [by destruct q|].
  transitivity (for_each l (fun p : nat * nat => dump_nodeinfo true p.2 sd (Z.of_nat p.1)) (dump_nodeinfo true p.2 sd (Z.of_nat p.1) q).2); [done|].
  rewrite IH. destruct q. cbn [map rev]. by rewrite <- app_assoc.
Qed.

Lemma same_merlin (q : qh) : q <| q_merlin := q_merlin q |> = q.
Proof. by destruct q. Qed.

(** The answer to the question has a line for every node, [ipc] first with number 0, and a reader gets all fields of every node as they
    are; nothing else happens.  Names, groups and commands must not have the characters in them that end a field or a line. *)
Theorem nodeinfo_query sd q : Forall (plain_node (q_merlin q)) (reported (q_merlin q)) ->
  exists lines, merlin_qh (dump_nodeinfo true) sd (str "nodeinfo") q = (Some 0, q <| q_said := rev (map (fun t => (sd, [Txt t])) lines) ++ q_said q |>) /\
    length lines = length (reported (q_merlin q)) /\
    read_nodeinfo (concat lines) = imap (fun i n => prod_map str id <$> nodeinfo_fields true (q_merlin q) n (Z.of_nat i)) (reported (q_merlin q)).
Proof.
  intros H. set (l := imap pair (reported (q_merlin q))).
  exists (map (fun p : nat * nat => nodeinfo_line true (q_merlin q) p.2 (Z.of_nat p.1)) l). split; [|split].
  - transitivity (let '(_, q') := for_each l (fun p : nat * nat => dump_nodeinfo true p.2 sd (Z.of_nat p.1)) q in (Some 0 : option Z, q')).
    + unfold merlin_qh, mbind, ST_bind, lift_m, gets. cbv iota beta zeta. rewrite same_merlin.
      change (bool_decide (str "nodeinfo" = [])) with false. change (equals (str "nodeinfo") "nodeinfo") with true. cbv iota.
      fold (reported (q_merlin q)). fold l. match goal with |- ?a = ?b => enough (b = a) by done end. by destruct (for_each l (fun p : nat * nat => dump_nodeinfo true p.2 sd (Z.of_nat p.1)) q).
    + rewrite dump_all. cbv iota beta. by rewrite map_map.
  - unfold l. by rewrite length_map, length_imap.
  - rewrite read_lines.
    + unfold l. change (@map ?A ?B) with (@fmap list _ A B). by rewrite fmap_imap.
    + unfold l. apply Forall_forall. intros p (i & n & E & Hn)%elem_of_lookup_imap_1. subst p. rewrite Forall_forall in H. apply H.
      by eapply list_elem_of_lookup_2.
Qed.
End Query.

(** ** The file of the daemon *)

Definition SIGUSR1 : Z := 10.

Section Dump.
Context {CE : ConfigEnv}.

(** daemon/daemon.c:330-333 sigusr_handler *)
Definition sigusr_handler (sig user_sig : Z) : Z := Z.lor user_sig (Z.shiftl 1 sig).

(** daemon/daemon.c:258-274 dump_daemon_nodes -- [fd] is what open gives; the new [user_sig], and what the file holds if it could be opened. *)
Definition dump_daemon_nodes (fd : option Z) (user_sig : Z) (s : merlind) : Z * option text * merlind :=
  let user_sig := Z.land user_sig (Z.lnot (Z.shiftl 1 SIGUSR1)) in
  match fd with
  | None => (user_sig, None, s)
  | Some fd =>
      let m := md_merlin s in
      (user_sig, Some (concat (imap (fun i n => nodeinfo_line false m n (Z.of_nat i)) (reported m))), s <| md_merlin ::= fun m => m <| m_open ::= fun o => {[fd]} ∪ o |> |>)
  end.

(** daemon/daemon.c:279-280 polling_loop *)
Definition on_usr1 (fd : option Z) (user_sig : Z) (s : merlind) : Z * option text * merlind :=
  if negb (Z.land user_sig (Z.shiftl 1 SIGUSR1) =? 0) then dump_daemon_nodes fd user_sig s else (user_sig, None, s).

(** The turns of the loop, with the signals that came before each and the descriptor that open would give: what was written, and the
    descriptors that are open in the end. *)
Fixpoint usr1_turns (turns : list (list Z * option Z)) (user_sig : Z) (s : merlind) : list text * Z * merlind :=
  match turns with
  | [] => ([], user_sig, s)
  | (sigs, fd) :: turns =>
      let '(user_sig, out, s) := on_usr1 fd (foldl (fun u sig => sigusr_handler sig u) user_sig sigs) s in
      let '(outs, user_sig, s) := usr1_turns turns user_sig s in (option_list out ++ outs, user_sig, s)
  end.

Lemma handled_bit sigs u : Forall (fun sig => 0 <= sig) sigs ->
  Z.testbit (foldl (fun u sig => sigusr_handler sig u) u sigs) SIGUSR1 = bool_decide (SIGUSR1 ∈ sigs) || Z.testbit u SIGUSR1.
Proof.
  revert u. induction sigs as [|sig sigs IH]; intros u H; [done|]. inversion_clear H as [|? ? H1 H2]. cbn [foldl]. rewrite IH by done.
  unfold sigusr_handler. rewrite Z.lor_spec. destruct (decide (sig = SIGUSR1)) as [->|D].
  - rewrite (bool_decide_true (SIGUSR1 ∈ SIGUSR1 :: sigs)) by left. change (Z.testbit (Z.shiftl 1 SIGUSR1) SIGUSR1) with true. rewrite !orb_true_r. done.
  - replace (Z.testbit (Z.shiftl 1 sig) SIGUSR1) with false.
    + rewrite orb_false_r. f_equal. apply bool_decide_ext. rewrite elem_of_cons. naive_solver.
    + symmetry. unfold SIGUSR1 in *. rewrite Z.shiftl_spec by lia. destruct (Z.lt_ge_cases sig 10).
      * destruct (10 - sig) as [|p|p] eqn:E; [lia| |lia]. by destruct p.
      * destruct (10 - sig) as [|p|p] eqn:E; [lia|lia|done].
Qed.

Lemma masked u : (Z.land u (Z.shiftl 1 SIGUSR1) =? 0) = negb (Z.testbit u SIGUSR1).
Proof.
  change (Z.shiftl 1 SIGUSR1) with (2 ^ SIGUSR1). destruct (Z.testbit u SIGUSR1) eqn:E; cbn [negb].
  - apply Z.eqb_neq. intros H. apply (f_equal (fun x => Z.testbit x SIGUSR1)) in H. rewrite Z.land_spec, E, Z.pow2_bits_true, Z.bits_0 in H by done. done.
  - apply Z.eqb_eq. apply Z.bits_inj'. intros k Hk. rewrite Z.land_spec, Z.bits_0, Z.pow2_bits_eqb by done.
    destruct (Z.eqb_spec SIGUSR1 k) as [<-|]; [by rewrite E|by rewrite andb_false_r].
Qed.

Lemma cleared u : Z.testbit (Z.land u (Z.lnot (Z.shiftl 1 SIGUSR1))) SIGUSR1 = false.
Proof. rewrite Z.land_spec, Z.lnot_spec by done. change (Z.testbit (Z.shiftl 1 SIGUSR1) SIGUSR1) with true. by rewrite andb_false_r. Qed.

(** The descriptors that open gives are not in use. *)
Fixpoint fresh_fds (turns : list (list Z * option Z)) (o : gset Z) : Prop :=
  match turns with
  | [] => True
  | (_, None) :: turns => fresh_fds turns o
  | (_, Some fd) :: turns => fd ∉ o /\ fresh_fds turns ({[fd]} ∪ o)
  end.

(** A request is one turn with the signal whose file can be opened; however often the signal came before the turn, the file is written
    once.  The descriptor stays open: every request leaves the daemon with one more. *)
Theorem usr1_leaks turns : forall user_sig s, Z.testbit user_sig SIGUSR1 = false -> Forall (fun t => Forall (fun sig => 0 <= sig) t.1) turns ->
  Forall (fun t => SIGUSR1 ∈ t.1) turns -> Forall (fun t => is_Some t.2) turns -> fresh_fds turns (m_open (md_merlin s)) ->
  let '(outs, user_sig', s') := usr1_turns turns user_sig s in
  length outs = length turns /\ Z.testbit user_sig' SIGUSR1 = false /\
  size (m_open (md_merlin s')) = (size (m_open (md_merlin s)) + length turns)%nat.
Proof.
  induction turns as [|[sigs fd] turns IH]; intros u s Hu Hg Hs Hf Fr; [cbn; auto with lia|].
  inversion_clear Hg as [|? ? G1 G2]. inversion_clear Hs as [|? ? S1 S2]. inversion_clear Hf as [|? ? [f F1] F2]. cbn [fst snd] in *. subst fd.
  cbn [fresh_fds] in Fr. destruct Fr as [Fr1 Fr2]. cbn [usr1_turns]. unfold on_usr1. rewrite masked, handled_bit, bool_decide_true by done. cbn [negb orb].
  unfold dump_daemon_nodes.
  match goal with |- context [usr1_turns turns ?u' ?s'] => specialize (IH u' s' (cleared _) G2 S2 F2 Fr2); destruct (usr1_turns turns u' s') as [[outs u''] s''] end.
  destruct IH as (L & T & Z). split_and!; [cbn; lia|done|]. rewrite Z. cbn [md_merlin]. destruct s as [m]. destruct m. cbn in *.
  rewrite size_union, size_singleton by set_solver. lia.
Qed.
End Dump.

(** ** Addresses of names *)

(** What getaddrinfo(3) finds: the addresses, where there is one, as sockaddr_in and sockaddr_in6. *)
Inductive sockaddr := SockIn (addr : Z) | SockIn6 (flowinfo : Z) (addr : list byte).
Record addrinfo := AddrInfo { ai_addr : option sockaddr }.

(** The four bytes at the place of sin_addr. *)
Definition at_sin_addr (a : sockaddr) : Z := match a with SockIn addr => addr | SockIn6 flowinfo _ => flowinfo end.

(** shared/node.c:324-327 resolve -- the walk over the results [ai] from [rp] on, [None] when the fuel is spent. *)
Fixpoint resolve_walk (fuel : nat) (ai rp : list addrinfo) : option (option sockaddr) :=
  match rp with
  | [] => Some None
  | e :: _ =>
      match ai_addr e, fuel with
      | Some a, _ => Some (Some a)
      | None, O => None
      | None, S fuel => resolve_walk fuel ai (tail ai)
      end
  end.

Section Resolve.
Context (inet_aton : text -> option Z) (getaddrinfo : text -> Z * list addrinfo).

(** shared/node.c:295-339 resolve -- the result and what [inp] holds; [None] when the fuel is spent. *)
Definition resolve (fuel : nat) (cp : text) (inp : Z) : option (Z * Z) :=
  match inet_aton cp with
  | Some a => Some (0, a)
  | None =>
      let '(result, ai) := getaddrinfo cp in
      if result <? 0 then Some (-1, inp) else
      rp ← resolve_walk fuel ai ai;
      Some (match rp with Some a => (0, at_sin_addr a) | None => (-1, inp) end)
  end.

Lemma walk_stuck a b rest fuel : ai_addr a = None -> ai_addr b = None ->
  resolve_walk fuel (a :: b :: rest) (b :: rest) = None.
Proof. intros A B. induction fuel as [|fuel IH]; cbn; rewrite B; [done|exact IH]. Qed.

(** [resolve] returns, after two turns of its loop at most, unless neither the first nor the second of several results has an address:
    the loop does not go on from the second, and then no number of turns is enough. *)
Theorem resolve_returns cp inp : (exists fuel r, resolve fuel cp inp = Some r) <->
  inet_aton cp <> None \/ (getaddrinfo cp).1 < 0 \/
  match (getaddrinfo cp).2 with a :: b :: _ => ai_addr a <> None \/ ai_addr b <> None | _ => True end.
Proof.
  unfold resolve. destruct (inet_aton cp) as [a|]; [split; [by left|by exists O; eauto]|]. destruct (getaddrinfo cp) as [r ai]. cbn [fst snd].
  destruct (Z.ltb_spec r 0); [split; [by auto|by exists O; eauto]|].
  destruct ai as [|a ai]; [split; [by auto|by exists O; eauto]|]. destruct ai as [|b ai].
  { split; [by auto|]. intros _. exists 1%nat. cbn. destruct (ai_addr a); eauto. }
  destruct (ai_addr a) as [x|] eqn:A; [split; [by auto|]; intros _; exists O; cbn; rewrite A; by eauto|].
  destruct (ai_addr b) as [x|] eqn:B; [split; [by auto|]; intros _; exists 1%nat; cbn; rewrite A, B; by eauto|].
  split; [|naive_solver lia]. intros (fuel & r' & H'). exfalso. destruct fuel as [|fuel]; cbn [resolve_walk] in H'; rewrite A in H'; [done|].
  cbn [tail] in H'. by rewrite walk_stuck in H'.
Qed.

(** A name whose first address is one of IPv6: it is taken for an IPv4 address, and what is stored is the flow information, zero as a rule,
    also when an IPv4 address follows. *)
Theorem resolve_takes_ipv6 cp inp fl a6 rest : inet_aton cp = None -> getaddrinfo cp = (0, AddrInfo (Some (SockIn6 fl a6)) :: rest) ->
  forall fuel, resolve fuel cp inp = Some (0, fl).
Proof. intros A G fuel. unfold resolve. rewrite A, G. by destruct fuel. Qed.
End Resolve.

(** ** What is logged of a command that has ended *)

(** A message: its severity and its text. *)
Definition lwarn (t : text) : Z * text := (LOG_WARNING, t).
Definition linfo (t : text) : Z * text := (LOG_INFO, t).
Definition lerr (t : text) : Z * text := (LOG_ERR, t).

(** module/script-helpers.c:28-34 log_child_output -- the lines from [sol] on, [None] when the fuel is spent. *)
Fixpoint child_output_lines (fuel : nat) (prefix : string) (sol : text) : option (list (Z * text)) :=
  match fuel with
  | O => None
  | S fuel =>
      let '(line, rest) := span (fun c => negb (Ascii.eqb c NL)) sol in
      let m := lwarn (str prefix ++ str ": " ++ line) in
      match rest with [] => Some [m] | _ :: sol => ms ← child_output_lines fuel prefix sol; Some (m :: ms) end
  end.

(** module/script-helpers.c:19-35 log_child_output -- [None] stands for NULL; every turn but the last takes a newline away. *)
Definition log_child_output (prefix : string) (buf : option text) : option (list (Z * text)) :=
  match buf with
  | None | Some [] => Some [lwarn (str prefix ++ str ": ")]
  | Some b => child_output_lines (S (length b)) prefix b
  end.

(** Status of a process that has ended, as wait(2) encodes it. *)
Definition WIFEXITED (status : Z) : bool := Z.land status 127 =? 0.
Definition WEXITSTATUS (status : Z) : Z := Z.land (Z.shiftr status 8) 255.
Definition WTERMSIG (status : Z) : Z := Z.land status 127.
Definition WIFSIGNALED (status : Z) : bool := negb (WTERMSIG status =? 0) && negb (WTERMSIG status =? 127).
Definition WCOREDUMP (status : Z) : bool := Z.testbit status 7.

(** What Naemon says of the process of a worker. *)
Record wproc_result := WprocResult { wait_status : Z; wp_command : text; outstd : option text; outerr : option text }.

(** module/script-helpers.c:37-74 log_child_result -- [name] is the formatted text. *)
Definition log_child_result (wpres : option wproc_result) (name : text) : option (list (Z * text)) :=
  match wpres with
  | None => Some []
  | Some w =>
      let status := wait_status w in
      if WIFEXITED status then
        if WEXITSTATUS status =? 0 then Some [linfo (name ++ str " finished successfully")] else
        o ← log_child_output "stdout" (outstd w);
        e ← log_child_output "stderr" (outerr w);
        Some ([lwarn (name ++ str " exited with return code " ++ dec (WEXITSTATUS status)); lwarn (str "command: " ++ wp_command w)] ++ o ++ e)
      else
        let how := if WIFSIGNALED status
          then name ++ str " was terminated by signal " ++ dec (WTERMSIG status) ++ str ". " ++ str (if WCOREDUMP status then "A" else "No")
                 ++ str " core dump was produced"
          else name ++ str " was shut down by an unknown source" in
        o ← log_child_output "stdout" (outstd w);
        e ← log_child_output "stderr" (outerr w);
        Some ([lerr how; lerr (str "command: " ++ wp_command w)] ++ o ++ e)
  end.

(** module/script-helpers.c:85-88 handle_csync_finished -- the name of the command. *)
Definition csync_name (node : merlin_node) (c : child) : text :=
  str "CSYNC: oconf " ++ str (match c with PUSH => "push" | FETCH => "fetch" end) ++ str " to " ++ str (Queries.node_type node)
    ++ " "%char :: str (Merlin.name node).

(** module/script-helpers.c:76-89 handle_csync_finished -- what is logged. *)
Definition csync_finished_log (node : merlin_node) (c : child) (wpres : option wproc_result) (flags : Z) : option (list (Z * text)) :=
  ms ← log_child_result wpres (csync_name node c);
  Some ((if flags =? 0 then [] else [lwarn (str "handle_csync_finished() flags: " ++ dec flags)]) ++ ms).

Lemma child_lines_cut prefix : forall fuel b, (length b < fuel)%nat ->
  child_output_lines fuel prefix b = Some (map (fun l => lwarn (str prefix ++ str ": " ++ l)) (cut NL b)).
Proof.
  induction fuel as [|fuel IH]; intros b H; [lia|]. cbn [child_output_lines].
  destruct (decide (NL ∈ b)) as [(l & r & -> & N)%list_elem_of_split_l|N].
  - rewrite cut_app by done. rewrite (span_all _ l); [| |by rewrite Ascii.eqb_refl].
    + rewrite length_app in H. cbn [length] in H. by rewrite IH by lia.
    + apply forallb_forall. intros c Hc. apply list_elem_of_In in Hc. rewrite (proj2 (Ascii.eqb_neq c _)); [done|]. by intros ->.
  - rewrite cut_plain by done. replace (span _ b) with (b, [] : text); [done|]. clear H. induction b as [|c b IHb]; [done|].
    rewrite not_elem_of_cons in N. destruct N as [N1 N2]. cbn [span]. rewrite (proj2 (Ascii.eqb_neq c _)) by done. cbn [negb]. by rewrite <- IHb.
Qed.

(** A message for every line of what a command has written; nothing at all is logged like one empty line. *)
Definition output_messages (prefix : string) (buf : option text) : list (Z * text) :=
  map (fun l => lwarn (str prefix ++ str ": " ++ l)) (cut NL (default [] buf)).

Theorem log_child_output_all prefix buf : log_child_output prefix buf = Some (output_messages prefix buf).
Proof. unfold log_child_output, output_messages. destruct buf as [[|c b]|]; cbn [default]; try done. apply child_lines_cut. cbn. lia. Qed.

(** What is logged when a synchronisation has ended: one message when the command ended with 0, and otherwise how it ended, the command,
    and every line that it has written. *)
Theorem csync_finished_logged node c w flags : exists notes first sev,
  csync_finished_log node c (Some w) flags = Some (notes ++
    if WIFEXITED (wait_status w) && (WEXITSTATUS (wait_status w) =? 0) then [linfo (csync_name node c ++ str " finished successfully")]
    else [(sev, csync_name node c ++ first); (sev, str "command: " ++ wp_command w)] ++ output_messages "stdout" (outstd w) ++ output_messages "stderr" (outerr w)) /\
  (notes = [] <-> flags = 0).
Proof.
  unfold csync_finished_log, log_child_result. rewrite !log_child_output_all. cbn [mbind option_bind].
  set (notes := if flags =? 0 then _ else _). assert (notes = [] <-> flags = 0) as Hn by (unfold notes; destruct (Z.eqb_spec flags 0); by split). clearbody notes.
  exists notes. destruct (WIFEXITED _); cbn [andb]; [destruct (WEXITSTATUS _ =? 0)|].
  - by exists (@nil ascii), 0.
  - by exists (str " exited with return code " ++ dec (WEXITSTATUS (wait_status w))), LOG_WARNING.
  - destruct (WIFSIGNALED _); by eexists _, LOG_ERR.
Qed.

(** ** Concrete runs *)

(** A host with an address of each kind. *)
Lemma resolve_takes_ipv6_witness :
  let both _ := (0, [AddrInfo (Some (SockIn6 0 (repeat Byte.x01 16))); AddrInfo (Some (SockIn 0x0a00000a))]) in
  resolve (const None) both 0 (str "head") 7 = Some (0, 0).
Proof. apply (resolve_takes_ipv6 (const None) _ (str "head") 7 0 (repeat Byte.x01 16) [AddrInfo (Some (SockIn 0x0a00000a))]); reflexivity. Defined.

(** Three turns of the daemon, in each of which SIGUSR1 came. *)
Lemma usr1_leaks_witness (CE : ConfigEnv) s : m_open (md_merlin s) = ∅ ->
  let '(outs, _, s') := usr1_turns [([SIGUSR1], Some 5); ([12; SIGUSR1; SIGUSR1], Some 6); ([SIGUSR1], Some 7)] 0 s in
  length outs = 3%nat /\ size (m_open (md_merlin s')) = 3%nat.
Proof.
  intros E. assert (fresh_fds [([SIGUSR1], Some 5); ([12; SIGUSR1; SIGUSR1], Some 6); ([SIGUSR1], Some 7)] (m_open (md_merlin s))) as F.
  { rewrite E. cbn [fresh_fds]. apply (bool_decide_unpack _). vm_compute. exact I. }
  generalize (usr1_leaks [([SIGUSR1], Some 5); ([12; SIGUSR1; SIGUSR1], Some 6); ([SIGUSR1], Some 7)] 0 s eq_refl
    ltac:(apply (bool_decide_unpack _); vm_compute; exact I) ltac:(apply (bool_decide_unpack _); vm_compute; exact I)
    ltac:(repeat constructor; by eexists) F).
  destruct (usr1_turns _ 0 s) as [[outs u] s']. intros (L & _ & C). split; [exact L|]. by rewrite C, E.
Defined.

#[local] Existing Instances QSort_insertion plain_sodium demo_structs demo_kvvec demo_env.

(** The daemon's link and a peer, whose configuration is pushed with a command. *)
Definition demo_reported (push : string) : qh :=
  let m := cg_merlin demo_blank in
  Qh (m <| m_nodes := {[ IPC := zero_node <| info := zero_info <| i_configured_peers := 1 |> |> <| type := MODE_INTERNAL |>;
        1%nat := zero_node <| Merlin.name := "twin"%string |> <| type := MODE_PEER |> <| state_of := STATE_CONNECTED |> <| sock := 9 |>
          <| csync := zero_csync <| cs_push := Some push |> |> ]} |> <| m_table := [1%nat] |>) [] [] [].

Lemma demo_plain : Forall (plain_node (q_merlin (demo_reported "mon oconf push"))) (reported (q_merlin (demo_reported "mon oconf push"))).
Proof.
  change (reported _) with [IPC; 1%nat]. repeat apply Forall_cons_2; [..|apply Forall_nil_2];
    (split_and!; [apply (bool_decide_unpack _); vm_compute; exact I..|intros ? H|intros ? H|intros ? ? H]); vm_compute in H; try discriminate H.
  apply (inj Some) in H as <-. apply (bool_decide_unpack _). vm_compute. exact I.
Qed.

(** Two lines of 67 fields. *)
Lemma nodeinfo_query_witness : let q := demo_reported "mon oconf push" in
  exists lines, merlin_qh (dump_nodeinfo true) 9 (str "nodeinfo") q = (Some 0, q <| q_said := rev (map (fun t => (9, [Txt t])) lines) |>) /\
    map length (read_nodeinfo (concat lines)) = [67; 67]%nat /\
    (l ← read_nodeinfo (concat lines) !! 1%nat; l !! 2%nat) = Some (str "source_name", str "Merlin peer twin") /\
    (l ← read_nodeinfo (concat lines) !! 1%nat; l !! 61%nat) = Some (str "csync_push_cmd", str "mon oconf push").
Proof.
  intros q. destruct (nodeinfo_query 9 q demo_plain) as (lines & R & L & E). exists lines. rewrite E.
  split; [rewrite R; change (q_said q) with (@nil (Z * list piece)); by rewrite app_nil_r|]. split_and!; vm_compute; reflexivity.
Defined.

(** A command with a semicolon in it, as shells separate commands: the reader gets half of it. *)
Example semicolon_cuts_command :
  let m := q_merlin (demo_reported "cd /opt; mon oconf push") in
  (l ← read_nodeinfo (nodeinfo_line true m 1 1) !! 0%nat; l !! 61%nat) = Some (str "csync_push_cmd", str "cd /opt") /\
  (l ← read_nodeinfo (nodeinfo_line true m 1 1) !! 0%nat; l !! 62%nat) = Some (str " mon oconf push", []).
Proof. split; vm_compute; reflexivity. Qed.

(** Microseconds are printed as a number behind a point: a start 0.09 seconds after the full second seems later than one 0.5 seconds
    after it. *)
Example start_reads_as_fraction :
  let m us := (q_merlin (demo_reported "")) <| m_nodes := {[1%nat := zero_node <| info := zero_info <| i_start := TV 1000 us |> |>]} |> in
  let start us := snd <$> nodeinfo_fields true (m us) 1 1 !! 30%nat in
  start 90000 = Some (str "1000.90000") /\ start 500000 = Some (str "1000.500000").
Proof. split; vm_compute; reflexivity. Qed.
