(* ===== verification/Environment.v ===== *)
(** * What reading the configuration asks of the rest of the program

    The class [ConfigEnv] of [Config] stands for what reading the configuration calls: here it is made of the functions of the program, for
    the path of the socket (shared/ipc.c), the keys (shared/encryption.c), the addresses of nodes (shared/node.c) and the directory for the
    configurations of pollers (module/oconfsplit.c).  What is left outside are the library functions and the files. *)

From S2P Require Import Prelude Sha1 Binlog Packet Io Merlin Pgroup Node Cfgfile Config Misc Shared Logging Tools Nodeinfo.
#[local] Open Scope Z_scope.

(** ** The path of the socket *)

(** The bits of st_mode that say what kind of file it is. *)
Definition S_IFIFO : Z := 0x1000.
Definition S_IFCHR : Z := 0x2000.
Definition M_IFDIR : Z := 0x4000.
Definition S_IFBLK : Z := 0x6000.
Definition M_IFREG : Z := 0x8000.
Definition S_IFSOCK : Z := 0xC000.

(** What stat(2) says: the mode, that there is no such file, or another error. *)
Inductive stat_res := StatMode (mode : Z) | StatNoEnt | StatFails.

(** shared/ipc.h:8-10 UNIX_PATH_MAX *)
Definition UNIX_PATH_MAX : Z := 108.

Section Socket.
Context {NP : Nspath} (dirname : text -> text) (stat : text -> stat_res) (merlin_config_file : text).

(** shared/ipc.c:158-186 ipc_set_sock_path -- the result, and [ipc_sock_path] where it is assigned. *)
Definition ipc_set_sock_path (path : text) : Z * option text :=
  if UNIX_PATH_MAX <? Z.of_nat (length path) then (-1, None) else
  let ipc_sock_path := Some (nspath_absolute path (dirname merlin_config_file)) in
  match stat path with
  | StatFails => (-1, ipc_sock_path)
  | StatNoEnt => (0, ipc_sock_path)
  | StatMode st_mode => if Z.land st_mode S_IFSOCK =? 0 then (-2, ipc_sock_path) else (0, ipc_sock_path)
  end.

(** shared/ipc.c:272-284 ipc_init -- the text that is copied to [sun_path], [None] when it is longer than that, which has 108 bytes, and
    the length that the address is given for connect(2). *)
Definition ipc_address (ipc_sock_path : text) : option text * Z :=
  let slen := Z.of_nat (length ipc_sock_path) in
  (if slen <=? 108 then Some ipc_sock_path else None, slen + 16).

(** shared/ipc.c:304-304 ipc_init -- the length for bind(2), with the offset of [sun_path]. *)
Definition bind_length (slen : Z) : Z := slen + 2.

(** Which paths are accepted. *)
Theorem sock_path_accepted path : (exists p, ipc_set_sock_path path = (0, Some p)) <->
  Z.of_nat (length path) <= 108 /\ match stat path with StatNoEnt => True | StatFails => False | StatMode m => Z.land m S_IFSOCK <> 0 end.
Proof.
  unfold ipc_set_sock_path. change UNIX_PATH_MAX with 108. destruct (Z.ltb_spec 108 (Z.of_nat (length path))); [split; [intros (? & [=])|lia]|].
  destruct (stat path) as [m| |]; [|split; [by auto|by eexists]|split; [by intros (? & [=])|tauto]].
  destruct (Z.eqb_spec (Z.land m S_IFSOCK) 0); split; [by intros (? & [=])|tauto|by auto|by eexists].
Qed.

(** The test for a socket lets regular files, directories and block devices through, which share bits with S_IFSOCK: what it refuses are
    pipes and character devices. *)
Theorem sock_path_kinds path kind perm : Z.of_nat (length path) <= 108 -> 0 <= perm < 0x1000 -> stat path = StatMode (kind + perm) ->
  kind ∈ [S_IFIFO; S_IFCHR; M_IFDIR; S_IFBLK; M_IFREG; S_IFSOCK] ->
  (ipc_set_sock_path path).1 = if bool_decide (kind = S_IFIFO \/ kind = S_IFCHR) then -2 else 0.
Proof.
  intros L P S K. unfold ipc_set_sock_path. change UNIX_PATH_MAX with 108. rewrite (proj2 (Z.ltb_ge _ _)) by lia. rewrite S.
  assert (Z.land (kind + perm) S_IFSOCK = Z.land kind S_IFSOCK) as ->.
  { assert (forall q, kind = q * 2 ^ 12 -> Z.land (kind + perm) S_IFSOCK = Z.land kind S_IFSOCK) as H.
    { intros q ->. apply Z.bits_inj'. intros n Hn. rewrite !Z.land_spec. destruct (Z.ltb_spec n 12) as [Hl|Hl].
      - replace (Z.testbit S_IFSOCK n) with false; [by rewrite !andb_false_r|].
        symmetry. change S_IFSOCK with (12 * 2 ^ 12). by apply Z.mul_pow2_bits_low.
      - f_equal. replace n with (n - 12 + 12) by lia. rewrite <- !Z.div_pow2_bits by lia. f_equal.
        rewrite Z.div_add_l, Z.div_mul by done. rewrite (Z.div_small perm) by done. lia. }
    repeat (apply elem_of_cons in K as [->|K]); [eapply (H 1)|eapply (H 2)|eapply (H 4)|eapply (H 6)|eapply (H 8)|eapply (H 12)|by apply elem_of_nil in K]; reflexivity. }
  repeat (apply elem_of_cons in K as [->|K]); [reflexivity..|by apply elem_of_nil in K].
Qed.

(** An absolute path that is accepted fits into the address. *)
Theorem absolute_fits path p : (forall b, nspath_absolute path b = path) -> ipc_set_sock_path path = (0, Some p) ->
  p = path /\ (ipc_address p).1 = Some p /\ ((ipc_address p).2 <= 110 <-> Z.of_nat (length p) <= 94) /\
  (bind_length (ipc_address p).2 <= 110 <-> Z.of_nat (length p) <= 92).
Proof.
  intros A E. assert (Z.of_nat (length path) <= 108) as L by by apply sock_path_accepted; eexists.
  assert (p = path) as ->.
  { unfold ipc_set_sock_path in E. rewrite A in E. destruct (_ <? _); [done|]. destruct (stat path) as [m| |]; [destruct (_ =? 0)|..]; congruence. }
  unfold ipc_address, bind_length. cbn [fst snd]. rewrite (proj2 (Z.leb_le _ _)) by done. split_and!; [done|done|lia|lia].
Qed.
End Socket.

(** ** The environment *)

(** The length of keys, crypto_box_PUBLICKEYBYTES and crypto_box_SECRETKEYBYTES. *)
Definition KEYBYTES : nat := 32.

Section Env.
Context {NP : Nspath} (dirname : text -> text) (stat : text -> stat_res) (merlin_config_file cwd : text)
  (inet_aton : text -> option Z) (getaddrinfo : text -> Z * list addrinfo) (inet_pton : text -> option Z) (inet_ntoa : Z -> string)
  (callback_ids : nat -> Z) (crypto_box_beforenm : list byte -> list byte -> option (list byte)).

(** shared/ipc.c:189-196 ipc_set_private_key -- the result and the key that is left in [ipc]. *)
Definition ipc_set_private_key (fs : Tools.files) (path : text) (privkey : list byte) : Z * list byte :=
  let '(r, privkey) := open_encryption_key true path privkey KEYBYTES fs in (if r =? 0 then 0 else 1, privkey).

(** shared/node.c:508-518 grok_node -- the key shared with a node; [pubkey] is the memory of the public key. *)
Definition node_shared_key (fs : Tools.files) (pubkey privkey : list byte) (path : text) : option (list byte) :=
  let '(r, pubkey) := open_encryption_key true path pubkey KEYBYTES fs in
  if negb (r =? 0) then None else crypto_box_beforenm pubkey privkey.

(** module/oconfsplit.c:43-46 split_grok_var -- the directory. *)
Definition poller_config_dir (value : text) : text := nspath_absolute value (dirname (nspath_absolute merlin_config_file cwd)).

(** The functions of the program; [privkey] is the private key when the nodes are read.  Two turns are enough for [resolve] when it
    returns. *)
Definition source_env (fs : Tools.files) (pubkey privkey : list byte) : ConfigEnv :=
  {| callback_number := callback_ids;
     Config.resolve cp := match Nodeinfo.resolve inet_aton getaddrinfo 2 cp 0 with Some (0, a) => Some a | _ => None end;
     shared_key := node_shared_key fs pubkey privkey;
     private_key_ok path := (ipc_set_private_key fs path privkey).1 =? 0;
     sock_path path := match ipc_set_sock_path dirname stat merlin_config_file path with
       | (0, Some p) => Some (String.string_of_list_ascii p) | _ => None end;
     Config.inet_pton := inet_pton; Config.inet_ntoa := inet_ntoa;
     split_dir value := String.string_of_list_ascii (poller_config_dir value) |}.

(** The key files with a path in front of their names. *)
Definition key_files (p : text) (pub priv : list byte) (fs : Tools.files) : Prop :=
  fs !! (p ++ str "/key.pub") = Some pub /\ fs !! (p ++ str "/key.priv") = Some priv /\ length pub = KEYBYTES /\ length priv = KEYBYTES.

Lemma open_key fs path key target : fs !! path = Some key -> length key = KEYBYTES -> length target = KEYBYTES ->
  open_encryption_key true path target KEYBYTES fs = (0, key).
Proof.
  intros E L T. unfold open_encryption_key. rewrite E, L. change (KEYBYTES <? KEYBYTES)%nat with false. cbv iota.
  rewrite !firstn_all2 by lia. rewrite drop_ge, app_nil_r by lia. done.
Qed.

(** What keygen leaves when it ends with 0. *)
Lemma keygen_files sodium pub priv pub_mem priv_mem opts path fs : keygen_opts opts None = Some (Some path) -> 0 <= sodium -> NUL ∉ path ->
  length pub = KEYBYTES -> length priv = KEYBYTES -> length pub_mem = (length path + 9)%nat -> length priv_mem = (length path + 10)%nat ->
  head pub_mem = Some NUL -> head priv_mem = Some NUL ->
  exists fs', keygen_main sodium (pub, priv) (const pub_mem) (const priv_mem) WAllWell WAllWell opts fs = Some (0, fs') /\ key_files path pub priv fs'.
Proof.
  intros Ho Hs Np L1 L2 M1 M2 H1 H2. unfold keygen_main, const. rewrite Ho, (proj2 (Z.ltb_ge _ _)) by done. cbv iota beta zeta.
  rewrite !key_path_memory by (done || (cbn [length str String.list_ascii_of_string]; lia) || by apply (bool_decide_unpack _)).
  rewrite !bool_decide_true by done. cbn [mbind option_bind write_key Z.eqb negb]. eexists. split; [reflexivity|]. unfold key_files.
  rewrite lookup_insert_ne by by intros [=]%app_inv_head. by rewrite !lookup_insert_eq.
Qed.

(** Two servers with their key files, as keygen leaves them, each of which has a copy of the other's public key.  Each reads its private
    key when it reads its configuration; then the keys that they share with each other are the same, provided that the library computes
    the same from the public key of the one and the private key of the other. *)
Theorem keys_meet p1 p2 pub1 priv1 pub2 priv2 fs1 fs2 copy1 copy2 zeros pubkey k :
  key_files p1 pub1 priv1 fs1 -> key_files p2 pub2 priv2 fs2 -> fs1 !! copy1 = fs2 !! (p2 ++ str "/key.pub") -> fs2 !! copy2 = fs1 !! (p1 ++ str "/key.pub") ->
  length zeros = KEYBYTES -> length pubkey = KEYBYTES -> crypto_box_beforenm pub2 priv1 = Some k -> crypto_box_beforenm pub1 priv2 = Some k ->
  let own1 := ipc_set_private_key fs1 (p1 ++ str "/key.priv") zeros in
  let own2 := ipc_set_private_key fs2 (p2 ++ str "/key.priv") zeros in
  own1.1 = 0 /\ own2.1 = 0 /\
  @shared_key (source_env fs1 pubkey own1.2) copy1 = Some k /\ @shared_key (source_env fs2 pubkey own2.2) copy2 = Some k.
Proof.
  intros (A1 & A2 & A3 & A4) (B1 & B2 & B3 & B4) C1 C2 Z P K1 K2. rewrite B1 in C1. rewrite A1 in C2. cbv zeta.
  unfold ipc_set_private_key. rewrite (open_key fs1 _ priv1), (open_key fs2 _ priv2) by done. cbn [Z.eqb fst snd shared_key source_env].
  unfold node_shared_key. rewrite (open_key fs1 copy1 pub2), (open_key fs2 copy2 pub1) by done. done.
Qed.

(** Without a private key in the configuration the key of zeros is used, and the node is read all the same. *)
Theorem no_private_key fs path pub pubkey : fs !! path = Some pub -> length pub = KEYBYTES -> length pubkey = KEYBYTES ->
  @shared_key (source_env fs pubkey (repeat Byte.x00 KEYBYTES)) path = crypto_box_beforenm pub (repeat Byte.x00 KEYBYTES).
Proof. intros E L P. cbn [shared_key source_env]. unfold node_shared_key. by rewrite (open_key fs path pub) by done. Qed.

(** An address that the class gives is the one that [resolve] stores. *)
Theorem env_resolves fs pubkey privkey cp a : @Config.resolve (source_env fs pubkey privkey) cp = Some a <->
  exists fuel, Nodeinfo.resolve inet_aton getaddrinfo fuel cp 0 = Some (0, a).
Proof.
  cbn [Config.resolve source_env]. split.
  - intros H. exists 2%nat. destruct (Nodeinfo.resolve _ _ 2 cp 0) as [[[] b]|]; congruence.
  - intros (fuel & H). enough (Nodeinfo.resolve inet_aton getaddrinfo 2 cp 0 = Some (0, a)) as -> by done. revert H. unfold Nodeinfo.resolve.
    destruct (inet_aton cp); [done|]. destruct (getaddrinfo cp) as [r ai]. destruct (r <? 0); [done|].
    assert (forall x, resolve_walk fuel ai ai = Some x -> resolve_walk 2 ai ai = Some x) as W.
    { intros x. destruct ai as [|e [|e2 ai]]; [by destruct fuel| |]; destruct fuel as [|fuel]; cbn; destruct (ai_addr e) eqn:E1; try done; [by destruct fuel|].
      cbn. destruct fuel as [|fuel]; cbn; destruct (ai_addr e2) eqn:E2; try done. by rewrite walk_stuck. }
    destruct (resolve_walk fuel ai ai) as [x|]; [|done]. by rewrite (W x).
Qed.
End Env.

(** ** Concrete runs *)

#[local] Existing Instances QSort_insertion demo_nspath.

(** A library whose shared keys are the exclusive or of two keys, and in which both keys of a pair are the same. *)
Definition demo_beforenm (pub priv : list byte) : option (list byte) :=
  Some (zip_with (fun a b => default Byte.x00 (Byte.of_N (N.lxor (Byte.to_N a) (Byte.to_N b)))) pub priv).

Definition demo_source (fs : Tools.files) (own : list byte) : ConfigEnv :=
  source_env (const (str "/etc/merlin")) (const StatNoEnt) (str "/etc/merlin/merlin.conf") (str "/") (const None)
    (fun cp => if text_eqb cp (str "head") then (0, [AddrInfo None; AddrInfo (Some (SockIn 0x0a00000b))]) else (-2, []))
    (const None) (const "10.0.0.11"%string) Z.of_nat demo_beforenm fs (repeat Byte.x00 KEYBYTES) own.

Definition north_key : list byte := repeat Byte.x31 32.
Definition head_key : list byte := repeat Byte.x07 32.

(** A poller and its master make their keys, and copy the other's public key. *)
Definition demo_made (key : list byte) (p : string) (copy : string) (other : list byte) : Tools.files :=
  match keygen_main 0 (key, key) (fun p => repeat NUL (length p + 9)) (fun p => repeat NUL (length p + 10)) WAllWell WAllWell [OptP (str p)] ∅ with
  | Some (_, fs) => <[str copy := other]> fs
  | None => ∅
  end.
Definition north_fs : Tools.files := demo_made north_key "/etc/merlin" "/etc/merlin/head.pub" head_key.
Definition head_fs : Tools.files := demo_made head_key "/opt" "/opt/north.pub" north_key.

Lemma keys_meet_witness :
  @shared_key (demo_source north_fs north_key) (str "/etc/merlin/head.pub") = Some (repeat Byte.x36 32) /\
  @shared_key (demo_source head_fs head_key) (str "/opt/north.pub") = Some (repeat Byte.x36 32).
Proof.
  destruct (keys_meet (const (str "/etc/merlin")) (const StatNoEnt) (str "/etc/merlin/merlin.conf") (str "/") (const None)
    (fun cp => if text_eqb cp (str "head") then (0, [AddrInfo None; AddrInfo (Some (SockIn 0x0a00000b))]) else (-2, []))
    (const None) (const "10.0.0.11"%string) Z.of_nat demo_beforenm (str "/etc/merlin") (str "/opt") north_key north_key head_key head_key
    north_fs head_fs (str "/etc/merlin/head.pub") (str "/opt/north.pub") (repeat Byte.x00 KEYBYTES) (repeat Byte.x00 KEYBYTES) (repeat Byte.x36 32))
    as (_ & _ & A & B).
  1, 2: split_and!; vm_compute; reflexivity.
  1, 2: vm_compute; reflexivity.
  1, 2: reflexivity.
  1, 2: vm_compute; reflexivity.
  split; [exact A|exact B].
Defined.

(** The poller reads its configuration with the functions of the program: the path of the socket, the address of its master, which is the
    second result for the name, and the key that they share. *)
Example poller_reads :
  let env := demo_source north_fs north_key in
  let t := lines ["ipc_socket = ipc.sock;"; "ipc_privatekey = /etc/merlin/key.priv;"; "master head {"; " encrypted = 1"; " publickey = /etc/merlin/head.pub"; "}"]%string in
  match cfg_bind (cfg_parse_file (Some (str "merlin.conf")) (replicate (length t) "?"%char) (Some [ReadData t]))
    (fun o => @read_config QSort_insertion env o demo_blank) with
  | CfgOk (_, c) =>
      let n := m_nodes (cg_merlin c) !!! 1%nat in
      m_ipc_path (cg_merlin c) = Some "/etc/merlin/ipc.sock"%string /\ Merlin.name n = "head"%string /\ sin_addr n = 0x0a00000b /\
      sharedkey n = repeat Byte.x36 32
  | _ => False
  end.
Proof. vm_compute. auto. Qed.

(** A short path in a directory with a long name is accepted, and is then copied behind the end of the address. *)
Example sock_path_overflows :
  let dir := "/"%char :: repeat "d"%char 120 in
  match ipc_set_sock_path (const dir) (const StatNoEnt) (dir ++ str "/merlin.conf") (str "ipc.sock") with
  | (0, Some p) => (ipc_address p).1 = None
  | _ => False
  end.
Proof. vm_compute. reflexivity. Qed.
