(* ===== verification/Startup.v ===== *)
(** * How the programs start and clean up

    The start of the daemon in daemon/daemon.c, with the order of its steps; the user that tools/rename.c runs as and the database that it
    uses; and the temporary files of tools/showlog.c.  User ids are those of credentials(7). *)

From S2P Require Import Prelude Binlog Io Merlin Cfgfile Config Shared Sql Daemon Merlind Lparse Logutils Rename.
#[local] Open Scope Z_scope.

(** ** The start of the daemon *)

(** The socket that the path names when the start has come as far as [r]: [mine] is the one that this start has made. *)
Definition sock_named (r : listen_res) (mine : nat) (named : option nat) : option nat :=
  match r with
  | NoSocket | UnlinkFails _ => named
  | BindFails _ => None
  | ListenFails _ | Listens _ => Some mine
  end.

(** daemon/daemon.c:415-426 merlind_main -- listening, and then going into the background: the processes, the file with the process id, and
    the socket that the path names. *)
Definition merlind_background (kill : Z -> kill_res) (users : list passwd) (gid_ok uid_ok : bool) (fork : Z) (can_write : bool) (runas : option text)
    (r : listen_res) (mine : nat) (pidfile : option text) (named : option nat) : list daemonized * option text * option nat :=
  let named := sock_named r mine named in
  match r with
  | Listens _ => let '(procs, pidfile) := daemonize kill users gid_ok uid_ok fork can_write runas pidfile in (procs, pidfile, named)
  | _ => ([ParentExits 1], pidfile, named)
  end.

(** A start is refused when a daemon runs, but only after it has replaced the socket of the one that runs: unless making its own socket
    failed right away the path names one that no process holds any more, and nobody can connect to the daemon. *)
Theorem second_start_takes_socket kill users gid_ok uid_ok fork can_write runas r mine pid first :
  0 < pid < 2 ^ 31 -> kill pid <> NoProcess -> mine <> first ->
  let '(procs, pidfile, named) := merlind_background kill users gid_ok uid_ok fork can_write runas r mine (Some (write_pid pid)) (Some first) in
  procs = [ParentExits 1] /\ pidfile = Some (write_pid pid) /\
  (named = Some first <-> r = NoSocket \/ exists fd, r = UnlinkFails fd).
Proof.
  intros Hp Hk D. unfold merlind_background.
  assert (daemonize kill users gid_ok uid_ok fork can_write runas (Some (write_pid pid)) = ([ParentExits 1], Some (write_pid pid))) as ->.
  { unfold daemonize, already_running. rewrite pid_roundtrip by lia. rewrite (proj2 (Z.eqb_neq pid 0)) by lia.
    destruct (kill pid); try done; rewrite (proj2 (Z.ltb_lt 0 pid)) by lia; done. }
  destruct r; cbn [sock_named]; (split; [done|split; [done|]]); naive_solver.
Qed.

(** daemon/daemon.c:404-439 merlind_main -- when the configuration is read: ending the daemon that runs, asking for it, or starting; in the
    foreground the process itself goes on. *)
Definition merlind_run (a : daemon_args) (kill : Z -> kill_res) (users : list passwd) (gid_ok uid_ok : bool) (fork : Z) (can_write : bool)
    (runas : option text) (r : listen_res) (mine : nat) (pidfile : option text) (named : option nat) : list daemonized * option text * option nat :=
  if da_killing a then ([ParentExits 0], (kill_daemon kill pidfile).2, named) else
  if da_status a then ([ParentExits (daemon_status kill pidfile)], (already_running kill pidfile).2, named) else
  if da_debug a =? 0 then merlind_background kill users gid_ok uid_ok fork can_write runas r mine pidfile named else
  match r with
  | Listens _ => ([ChildRuns], pidfile, sock_named r mine named)
  | _ => ([ParentExits 1], pidfile, sock_named r mine named)
  end.

Definition goes_on (p : daemonized) : bool := match p with ChildRuns => true | _ => false end.

(** Whatever the arguments are, at most one process goes on, and one that goes on has the socket that the path names; the path keeps naming
    the socket of a daemon that runs only if nothing was started. *)
Theorem daemon_has_socket a kill users gid_ok uid_ok fork can_write runas r mine pidfile named :
  let '(procs, _, named') := merlind_run a kill users gid_ok uid_ok fork can_write runas r mine pidfile named in
  (length (List.filter goes_on procs) <= 1)%nat /\
  (ChildRuns ∈ procs -> named' = Some mine) /\
  (da_killing a || da_status a = true -> ChildRuns ∉ procs /\ named' = named).
Proof.
  unfold merlind_run. destruct (da_killing a); [cbn; repeat split; try lia; intros; set_solver|].
  destruct (da_status a); [cbn; repeat split; try lia; intros; set_solver|]. cbn [orb].
  assert (forall p pf, daemonize kill users gid_ok uid_ok fork can_write runas pidfile = (p, pf) ->
    (length (List.filter goes_on p) <= 1)%nat) as D.
  { intros p pf. unfold daemonize. destruct (already_running kill pidfile) as [pid f]. destruct (0 <? pid); [intros [= <- <-]; cbn; lia|].
    destruct (fork <? 0); [intros [= <- <-]; cbn; lia|]. destruct can_write; intros [= <- <-]; [|cbn; lia].
    destruct (get_user_entry users runas) as [[pw|]|]; [destruct (_ =? _)|..]; cbn; lia. }
  destruct (da_debug a =? 0).
  - unfold merlind_background. destruct r; try (cbn; repeat split; try lia; intros; set_solver).
    destruct (daemonize _ _ _ _ _ _ _ _) as [p pf] eqn:E. split_and!; [by eapply D|done|done].
  - destruct r; cbn; repeat split; try lia; intros; set_solver.
Qed.

(** ** The user that renames *)

(** The real, the effective and the saved id of a process. *)
Record ids := Ids { real : Z; eff : Z; saved : Z }.

(** setuid(2) and seteuid(2), and those for groups, as a process with the effective user id [euid] calls them; [None] is EPERM. *)
Definition set_id (euid id : Z) (i : ids) : option ids :=
  if euid =? 0 then Some (Ids id id id)
  else if (id =? real i) || (id =? saved i) then Some (Ids (real i) id (saved i)) else None.
Definition set_eid (euid id : Z) (i : ids) : option ids :=
  if (euid =? 0) || (id =? real i) || (id =? eff i) || (id =? saved i) then Some (Ids (real i) id (saved i)) else None.

(** User and group ids. *)
Record cred := Cred { cr_uid : ids; cr_gid : ids }.

(** tools/rename.c:298-309 main -- whether the message is printed that this has failed, and the ids; [pwd] is the user monitor. *)
Definition rename_drop (pwd : option passwd) (c : cred) : bool * cred :=
  if negb (real (cr_uid c) =? 0) then (false, c) else
  match pwd with
  | None => (false, c)
  | Some pwd =>
      match set_id (eff (cr_uid c)) (pw_gid pwd) (cr_gid c) with None => (true, c) | Some g =>
      match set_eid (eff (cr_uid c)) (pw_gid pwd) g with None => (true, Cred (cr_uid c) g) | Some g =>
      match set_eid (eff (cr_uid c)) (pw_uid pwd) (cr_uid c) with None => (true, Cred (cr_uid c) g) | Some u =>
      match set_id (eff u) (pw_uid pwd) u with None => (true, Cred u g) | Some u => (false, Cred u g) end end end end
  end.

(** For root the effective user is changed first, after which the process is not allowed to change the others: the message that it has
    failed is always printed, the program goes on, and it can become root again. *)
Theorem rename_keeps_root pwd : pw_uid pwd <> 0 ->
  let '(failed, c) := rename_drop (Some pwd) (Cred (Ids 0 0 0) (Ids 0 0 0)) in
  failed = true /\ cr_uid c = Ids 0 (pw_uid pwd) 0 /\ cr_gid c = Ids (pw_gid pwd) (pw_gid pwd) (pw_gid pwd) /\
  set_eid (eff (cr_uid c)) 0 (cr_uid c) = Some (Ids 0 0 0).
Proof.
  intros H. unfold rename_drop, set_id, set_eid. cbn. rewrite (proj2 (Z.eqb_neq (pw_uid pwd) 0)) by done. cbn. by rewrite orb_true_r.
Qed.

(** Changing all user ids at once, without the one before it, would have left nothing of root. *)
Theorem setuid_alone uid : uid <> 0 -> exists u, set_id 0 uid (Ids 0 0 0) = Some u /\ set_eid (eff u) 0 u = None /\ set_id (eff u) 0 u = None.
Proof.
  intros H. exists (Ids uid uid uid). unfold set_id, set_eid. cbn [real eff saved]. rewrite Z.eqb_refl, (proj2 (Z.eqb_neq uid 0)), (proj2 (Z.eqb_neq 0 uid)) by done. done.
Qed.

(** ** Renaming, from the options to the end *)

(** The options for the database. *)
Record rename_db_opts := RenameDb { rd_user : option text; rd_pass : option text; rd_name : option text; rd_host : option text; rd_type : option text }.

(** How the main function ends: with an exit code, or with memory that is not its own. *)
Inductive rename_end := RenameExits (code : Z) (fs : text -> option log_path) | RenameUndefined.

Section RenameMain.
Context {SD : Strtod} (quote : text -> text) (synergy : bool) (max_buf depth : nat) (default_dir default_file : text).

(** tools/rename.c:374-386 main -- the settings of the database. *)
Definition rename_settings (o : rename_db_opts) : db_settings :=
  foldl (fun s kv => match kv with (key, Some v) => (sql_config (str key) (Some v) s).2 | (_, None) => s end) no_settings
    [("user", rd_user o); ("pass", rd_pass o); ("database", rd_name o); ("host", rd_host o); ("type", rd_type o);
     ("commit_interval", Some (str "0")); ("commit_queries", Some (str "10000"))]%string.

Definition count_query : stmt := Other (str "SELECT COUNT(1) FROM rename_log").
Definition renames_query : stmt :=
  Other (str "SELECT id, from_host_name, from_service_description, to_host_name, to_service_description FROM rename_log ORDER BY id ASC").

(** tools/rename.c:174-193 find_renames -- whether both queries have a result; [counted]: the first one has a row. *)
Definition ask_renames (counted : bool) : DB bool :=
  sql_vquery count_query ;;
  res ← dgets sq_result;
  if negb res then mret false else
  if negb counted then mret false else
  sql_free_result ;;
  sql_vquery renames_query ;;
  dgets sq_result.

(** tools/rename.c:373-422 main -- [count] and [rows] are the answers of the database to the queries of [find_renames]. *)
Definition rename_run (o : rename_opts) (d : rename_db_opts) (count : option Z) (rows : list rename_row) (fs : text -> option log_path) : DB rename_end :=
  let s := rename_settings d in
  dmodify (fun db => db <| use_database := true |> <| commit_interval := ds_commit_interval s |> <| commit_queries := ds_commit_queries s |>) ;;
  r ← sql_init;
  if negb (r =? 0) then mret (RenameExits 1 fs) else
  ok ← ask_renames (bool_decide (is_Some count));
  if negb ok then mret (RenameExits 1 fs) else
  match find_renames (default 0 count) rows with
  | None => mret RenameUndefined
  | Some (renames, ns) => fs ← rename_main quote synergy max_buf depth default_dir default_file o renames ns fs; mret (RenameExits 0 fs)
  end.
End RenameMain.

(** ** Temporary files of showlog *)

(** Something in the file system that remove(3) may be allowed to take away. *)
Record entry := FileEntry { en_name : text; en_removable : bool }.

(** The directory for the files of the nodes: there is none, it cannot be opened, or it has entries and can be removed or not. *)
Inductive folder := NoFolder | Unreadable | Folder (entries : list entry) (removable : bool).

(** [tl_merged]: whether there is a merged file, and whether it can be removed. *)
Record tmp_state := TmpState { tl_merged : option bool; tl_folder : folder }.

(** tools/showlog.c:474-492 cleanupTmpLog -- the entries, in the order of readdir(3): those that are left, and whether it goes on. *)
Fixpoint remove_entries (l : list entry) : list entry * bool :=
  match l with
  | [] => ([], true)
  | e :: l =>
      if (match en_name e with c :: _ => Ascii.eqb c "." | [] => false end)
      then let '(l, ok) := remove_entries l in (e :: l, ok)
      else if en_removable e then remove_entries l else (e :: l, false)
  end.

(** tools/showlog.c:458-505 cleanupTmpLog -- whether it returns; otherwise the program ends with 1.  The entries "." and ".." are left out
    here. *)
Definition cleanupTmpLog (t : tmp_state) : bool * tmp_state :=
  match tl_merged t with
  | Some false => (false, t)
  | _ =>
      let t := TmpState None (tl_folder t) in
      match tl_folder t with
      | NoFolder => (true, t)
      | Unreadable => (false, t)
      | Folder l removable =>
          match remove_entries l with
          | ([], true) => if removable then (true, TmpState None NoFolder) else (false, TmpState None (Folder [] removable))
          | (l, _) => (false, TmpState None (Folder l removable))
          end
      end
  end.

Definition hidden (e : entry) : bool := match en_name e with c :: _ => Ascii.eqb c "." | [] => false end.

Lemma remove_entries_all l : (remove_entries l = ([], true)) <-> Forall (fun e => hidden e = false /\ en_removable e = true) l.
Proof.
  induction l as [|e l IH]; [by split|]. rewrite Forall_cons, <- IH. cbn [remove_entries]. fold (hidden e).
  destruct (hidden e), (en_removable e); cbn; destruct (remove_entries l) as [l' ok]; naive_solver.
Qed.

(** Cleaning up returns exactly when nothing is left of the temporary files, and that is when everything may be removed and no file in the
    directory has a name that begins with a dot; a second time then finds nothing to do.  Otherwise the program ends. *)
Theorem cleanup_complete t :
  ((cleanupTmpLog t).1 = true <-> tl_merged t <> Some false /\
     match tl_folder t with
     | NoFolder => True | Unreadable => False
     | Folder l removable => removable = true /\ Forall (fun e => hidden e = false /\ en_removable e = true) l
     end) /\
  ((cleanupTmpLog t).1 = true -> (cleanupTmpLog t).2 = TmpState None NoFolder /\ cleanupTmpLog (cleanupTmpLog t).2 = (true, TmpState None NoFolder)).
Proof.
  destruct t as [m f]. unfold cleanupTmpLog. cbn [tl_merged tl_folder].
  destruct m as [[]|]; [|cbn; split; [split; [done|by intros []]|done]|].
  all: destruct f as [| |l r]; [cbn; naive_solver..|]; rewrite <- remove_entries_all;
    destruct (remove_entries l) as [[|e l'] []]; destruct r; cbn; naive_solver.
Qed.

(** ** Renaming on a database that answers *)

Section RenameRun.
Context {SD : Strtod} (quote : text -> text) (synergy : bool) (max_buf depth : nat) (default_dir default_file : text).

Lemma rename_each_does l : does (rename_each quote synergy l) tt (flat_map (updates quote synergy) l).
Proof. induction l as [|r l IH]; [apply does_ret|]. cbn [rename_each flat_map]. eapply does_bind; [apply rename_one_does|done]. Qed.

Lemma commit_does k : does (sql_try_commit k) tt [].
Proof. intros s Hs. destruct (commit_healthy k s Hs) as (s' & E & H & L & _). by exists s'. Qed.

(** The statement that deletes the renames. *)
Definition delete_renames (l : list rename) : stmt :=
  Other (str "DELETE FROM rename_log WHERE id IN (" ++ join "," (map (fun r => dec (rn_id r)) l) ++ str ")").

Lemma clear_does l : l <> [] -> does (clear_renames l) 0 [delete_renames l].
Proof. intros H. destruct l as [|r l]; [done|]. unfold clear_renames. eapply does_end; [apply vquery_does|apply does_ret]. Qed.

Lemma ask_does : does (ask_renames true) true [count_query; renames_query].
Proof.
  intros s Hs. unfold ask_renames. destruct (vquery_does count_query s Hs) as (s1 & E1 & H1 & L1).
  unfold mbind at 1, DB_bind at 1. rewrite E1. unfold mbind at 1, DB_bind at 1, dgets at 1. rewrite (vquery_result _ _ _ E1). cbn [negb].
  destruct (free_does s1 H1) as (s2 & E2 & H2 & L2). unfold mbind at 1, DB_bind at 1. rewrite E2.
  destruct (vquery_does renames_query s2 H2) as (s3 & E3 & H3 & L3). unfold mbind, DB_bind. rewrite E3. unfold dgets. rewrite (vquery_result _ _ _ E3).
  exists s3. split_and!; [done..|]. rewrite L3, L2, L1. done.
Qed.
Lemma bind_some {A B} (c : DB A) (k : A -> DB B) s a s' : c s = Some (a, s') -> (c ≫= k) s = k a s'.
Proof. intros E. unfold mbind, DB_bind. by rewrite E. Qed.

Lemma init_fresh s : use_database s = true -> sq_conn s = false -> sq_conns s = [] -> sq_alive s = [] -> sq_rcs s = [] ->
  exists s', sql_init s = Some (0, s') /\ healthy s' /\ sq_log s' = sq_log s.
Proof.
  intros U C1 C2 C3 C4. unfold sql_init, is_connected0, sql_free_result, rollback, set_auto_commit, next_conn, mbind, DB_bind, dgets, dmodify, mret, DB_ret.
  destruct s. cbn in U, C1, C2, C3, C4. subst. eexists. split; [reflexivity|]. by split.
Qed.

(** A run that renames in the database, from a process without a connection to one that can be had: it counts and reads the renames, makes
    every one in every table, in their order, deletes them unless they are to be kept, and ends with 0. *)
Theorem rename_run_does o d count rows renames ns fs s : ro_db o = true -> ro_log o = false -> ro_archived o = false ->
  find_renames count rows = Some (renames, ns) -> renames <> [] ->
  sq_conn s = false -> sq_conns s = [] -> sq_alive s = [] -> sq_rcs s = [] ->
  exists s', rename_run quote synergy max_buf depth default_dir default_file o d (Some count) rows fs s = Some (RenameExits 0 fs, s') /\
    sq_conn s' = false /\
    sq_log s' = rev ([count_query; renames_query] ++ flat_map (updates quote synergy) renames ++ (if ro_save o then [] else [delete_renames renames])) ++ sq_log s.
Proof.
  intros Hdb Hl Ha Hf Hr C1 C2 C3 C4. unfold rename_run. cbv zeta.
  set (s0 := s <| use_database := true |> <| commit_interval := ds_commit_interval (rename_settings d) |>
               <| commit_queries := ds_commit_queries (rename_settings d) |>).
  assert (exists s1, sql_init s0 = Some (0, s1) /\ healthy s1 /\ sq_log s1 = sq_log s) as (s1 & E1 & H1 & L1).
  { by apply (init_fresh s0). }
  unfold mbind at 1, DB_bind at 1, dmodify. fold s0. unfold mbind at 1, DB_bind at 1. rewrite E1. cbn [Z.eqb negb].
  assert (does (ask_renames true) true [count_query; renames_query]) as A by apply ask_does.
  destruct (A s1 H1) as (s2 & E2 & H2 & L2). rewrite bool_decide_true by eauto. unfold mbind at 1, DB_bind at 1. rewrite E2. cbn [negb]. change (default 0 (Some count)) with count.
  rewrite Hf. unfold rename_main. destruct renames as [|r0 renames]; [done|]. rewrite Hdb, Hl, Ha. cbn [orb].
  assert (does (rename_db quote synergy (r0 :: renames)) 0 (flat_map (updates quote synergy) (r0 :: renames))) as B.
  { unfold rename_db. eapply does_end; [apply rename_each_does|]. eapply does_quiet; [apply commit_does|apply does_ret]. }
  set (l := r0 :: renames) in *.
  assert (does (rename_db quote synergy l ;; mret tt : DB unit) tt (flat_map (updates quote synergy) l)) as B' by (eapply does_end; [exact B|apply does_ret]).
  assert (does ((if ro_save o then mret tt else clear_renames l ;; mret tt) : DB unit) tt (if ro_save o then [] else [delete_renames l])) as D.
  { destruct (ro_save o); [apply does_ret|]. eapply does_end; [by apply clear_does|apply does_ret]. }
  destruct (B' s2 H2) as (s3 & E3 & H3 & L3). destruct (D s3 H3) as (s4 & E4 & H4 & L4). destruct (commit_does (-1) s4 H4) as (s5 & E5 & H5 & L5).
  eexists (s5 <| sq_result := false |> <| sq_ran := _ |> <| sq_conn := false |>). split; [|split; [done|]].
  - erewrite bind_some; [done|]. erewrite bind_some by exact E3. erewrite bind_some by done. erewrite bind_some by exact E4.
    erewrite bind_some by exact E5. erewrite bind_some; [done|]. unfold sql_close, sql_free_result, rollback, mbind, DB_bind, dgets, dmodify, mret, DB_ret.
    rewrite (hl_use s5 H5). cbn [negb]. change (sq_conn (s5 <| sq_result := false |>)) with (sq_conn s5). rewrite (hl_conn s5 H5). reflexivity.
  - change (sq_log (_ <| sq_conn := false |>)) with (sq_log s5). rewrite L5, L4, L3, L2, L1, !rev_app_distr, !app_assoc. done.
Qed.
End RenameRun.

(** ** Concrete runs *)

Definition demo_rename_row : rename_row := (7, str "web", [], str "www", []).
Definition only_db : rename_opts := RenameOpts false false true false None None.
Definition no_db_opts : rename_db_opts := RenameDb None None None None None.

(** A fresh process, with the results of the coming queries. *)
Definition demo_unconnected (rcs : list Z) : sqldb := Sqldb true false false true false 0 0 0 0 0 100 [] 0 false [] 0 [] [] rcs [].

Definition demo_rename_run (rows : list rename_row) (rcs : list Z) : option (rename_end * sqldb) :=
  rename_run (fun t => str "'" ++ t ++ str "'") false 1000 3 [] [] only_db no_db_opts (Some (Z.of_nat (length rows))) rows (const None) (demo_unconnected rcs).

(** How such a run ends, and the statements whose effect the database has kept, of those that change something. *)
Definition kept (r : option (rename_end * sqldb)) : option (Z * list text) :=
  match r with
  | Some (RenameExits code _, s) =>
      Some (code, rev (omap (fun q => match q with Other t => if starts t "SELECT" then None else Some t | _ => None end) (sq_ran s)))
  | _ => None
  end.

Definition update_web : text := str "UPDATE report_data SET host_name='www' WHERE host_name='web'".
Definition update_db : text := str "UPDATE report_data SET host_name='sql' WHERE host_name='db'".
Definition two_rows : list rename_row := [demo_rename_row; (8, str "db", [], str "sql", [])].

Lemma rename_run_does_witness : exists s',
  demo_rename_run two_rows [] = Some (RenameExits 0 (const None), s') /\ sq_conn s' = false /\
  sq_log s' = rev ([count_query; renames_query] ++ flat_map (updates (fun t => str "'" ++ t ++ str "'") false) (map of_row two_rows) ++ [delete_renames (map of_row two_rows)]).
Proof.
  destruct (rename_run_does (fun t => str "'" ++ t ++ str "'") false 1000 3 [] [] only_db no_db_opts 2 two_rows (map of_row two_rows)
    [(str "web", str "www"); (str "db", str "sql")] (const None) (demo_unconnected [])) as (s' & E & C & L); try reflexivity; [done|].
  exists s'. rewrite app_nil_r in L. split; [exact E|split; [exact C|exact L]].
Defined.

Example renames_kept : kept (demo_rename_run two_rows []) = Some (0, [update_web; update_db; str "DELETE FROM rename_log WHERE id IN (7,8)"]).
Proof. vm_compute. reflexivity. Qed.

(** Errors of the updates are not looked at: when the table cannot be changed (here MySQL's error 1146) the renames are deleted all the
    same, and the program ends with 0. *)
Theorem failed_rename_deleted : kept (demo_rename_run two_rows [0; 0; 1146; 0; 1146]) = Some (0, [str "DELETE FROM rename_log WHERE id IN (7,8)"]).
Proof. vm_compute. reflexivity. Qed.

(** When the connection is lost and made again in between (error 2006), what was not committed before is undone; only the last of the
    updates is there, and the renames are deleted. *)
Theorem reconnect_loses_renames : kept (demo_rename_run two_rows [0; 0; 0; 0; 2006]) = Some (0, [update_db; str "DELETE FROM rename_log WHERE id IN (7,8)"]).
Proof. vm_compute. reflexivity. Qed.

(** A daemon with process 100 runs; a second start is refused, and the path names the socket that it has made. *)
Lemma second_start_takes_socket_witness :
  merlind_background (const Alive) [] true true 200 true None (Listens 4) 2 (Some (write_pid 100)) (Some 1%nat) = ([ParentExits 1], Some (write_pid 100), Some 2%nat) /\
  ~ (Some 2%nat = Some 1%nat).
Proof.
  pose proof (second_start_takes_socket (const Alive) [] true true 200 true None (Listens 4) 2 100 1 ltac:(lia) ltac:(done) ltac:(done)) as H.
  split; [|done].
  destruct (merlind_background _ _ _ _ _ _ _ _ _ _ _) as [[p f] n] eqn:E. destruct H as (A & B & _). rewrite A, B.
  apply (f_equal snd) in E. cbn [snd] in E. rewrite <- E. vm_compute. reflexivity.
Defined.

Lemma cleanup_complete_witness : let e name ok := FileEntry (str name) ok in
  cleanupTmpLog (TmpState (Some true) (Folder [e "naemon_a.log"%string true; e "naemon_b.log"%string true] true)) = (true, TmpState None NoFolder) /\
  cleanupTmpLog (TmpState None (Folder [e ".nfs01"%string true; e "naemon_b.log"%string true] true))
    = (false, TmpState None (Folder [e ".nfs01"%string true] true)).
Proof. split; vm_compute; reflexivity. Defined.
