(* ===== verification/Asprintf.v ===== *)
(** * The replacement for the printf family: compat/asprintf.c

    The functions that are used where the C library lacks vsnprintf, vasprintf or asprintf: a parser of formats by a state machine, which
    makes a list of chunks, the retrieval of the arguments by their positions, and the printing of the chunks into a buffer of limited
    length.  The text that a chunk gives does not depend on the buffer, and is what [chunk_text] computes; then the printing is shown to put
    as much of it into the buffer as there is room for.  Floating point is that of [SpecFloat], with 53 bits.  Memory is not exhausted. *)

From Stdlib Require Import SpecFloat.
From S2P Require Import Prelude Cfgfile Config Shared.
#[local] Open Scope Z_scope.

(** ** Formats *)

(** compat/asprintf.c:141-148 DP_S_DEFAULT *)
Inductive dp_state := DP_S_DEFAULT | DP_S_FLAGS | DP_S_MIN | DP_S_DOT | DP_S_MAX | DP_S_MOD | DP_S_CONV | DP_S_DONE.

(** compat/asprintf.c:151-157 DP_F_MINUS *)
Definition DP_F_MINUS : Z := 1.
Definition DP_F_PLUS : Z := 2.
Definition DP_F_SPACE : Z := 4.
Definition DP_F_NUM : Z := 8.
Definition DP_F_ZERO : Z := 16.
Definition DP_F_UP : Z := 32.
Definition DP_F_UNSIGNED : Z := 64.

(** compat/asprintf.c:160-164 DP_C_CHAR -- and none of them. *)
Inductive dp_cflags := DP_C_NONE | DP_C_CHAR | DP_C_SHORT | DP_C_LONG | DP_C_LDOUBLE | DP_C_LLONG.

(** compat/asprintf.c:167-177 CNK_FMT_STR *)
Inductive cnk_type :=
  CNK_FMT_STR | CNK_INT | CNK_OCTAL | CNK_UINT | CNK_HEX | CNK_FLOAT | CNK_CHAR | CNK_STRING | CNK_PTR | CNK_NUM | CNK_PRCNT.

#[export] Instance cnk_type_eq_dec : EqDecision cnk_type.
Proof. solve_decision. Defined.

(** compat/asprintf.c:187-203 pr_chunk -- without the values, which are looked up by [c_num]; of the chunks of the asterisks there is the
    number of their argument. *)
Record pr_chunk := Chunk {
  c_type : cnk_type; c_num : Z; c_min : Z; c_min_star : option Z; c_max : Z; c_max_star : option Z; c_flags : Z; c_cflags : dp_cflags;
  c_start : nat; c_len : nat }.
#[export] Instance eta_pr_chunk : Eta pr_chunk := fun r =>
  Chunk (c_type r) (c_num r) (c_min r) (c_min_star r) (c_max r) (c_max_star r) (c_flags r) (c_cflags r) (c_start r) (c_len r).

(** compat/asprintf.c:1079-1102 new_chunk *)
Definition new_chunk : pr_chunk := Chunk CNK_FMT_STR 0 0 None (-1) None 0 DP_C_NONE 0 0.

(** What refers to an argument: a chunk by its place in the list, or one of its asterisks. *)
Inductive cnk_ref := Main (k : nat) | Star.

(** A step goes on, or gives up with -1; [PUndef]: an overflow of an int or memory outside an array. *)
Inductive pres (A : Type) := POk (a : A) | PFail | PUndef.
Arguments POk {A}. Arguments PFail {A}. Arguments PUndef {A}.

Definition pbind {A B} (c : pres A) (k : A -> pres B) : pres B :=
  match c with POk a => k a | PFail => PFail | PUndef => PUndef end.

(** compat/asprintf.c:1104-1156 add_cnk_list_entry -- the list has [max_num] positions. *)
Definition add_cnk_list_entry (list : list (list cnk_ref)) (num : Z) (r : cnk_ref) : pres (Datatypes.list (Datatypes.list cnk_ref)) :=
  if num <? 1 then PUndef else
  let l := list ++ replicate (Z.to_nat num - length list) [] in
  POk (alter (fun refs => refs ++ [r]) (Z.to_nat (num - 1)) l).

(** The variables of the parser: [d_rest] is what follows of the format, from [ch] on; the chunks, the current one first. *)
Record dp := Dp {
  d_state : dp_state; d_rest : text; d_pfirst : bool; d_pflag : bool; d_pnum : Z; d_chunks : list pr_chunk; d_clist : list (list cnk_ref) }.
#[export] Instance eta_dp : Eta dp := fun r => Dp (d_state r) (d_rest r) (d_pfirst r) (d_pflag r) (d_pnum r) (d_chunks r) (d_clist r).

Definition INT_MAX : Z := 2 ^ 31 - 1.
Definition char_to_int (c : ascii) : Z := Z.of_N (N_of_ascii c) - 48.

(** Another digit; the arithmetic is that of int. *)
Definition add_digit (n : Z) (c : ascii) : pres Z := let n := 10 * n + char_to_int c in if INT_MAX <? n then PUndef else POk n.

Definition on_cnk (f : pr_chunk -> pr_chunk) (d : dp) : dp :=
  d <| d_chunks ::= fun l => match l with c :: l => f c :: l | [] => [] end |>.
Definition next_ch (d : dp) : dp := d <| d_rest ::= tail |>.

(** compat/asprintf.c:339-341 dopr -- the number of the argument of an asterisk, and 394-396; digits are read up to the first other
    character. *)
Fixpoint star_digits (n : Z) (t : text) : pres (Z * text) :=
  match t with
  | c :: t' => if isdigit c then pbind (add_digit n c) (fun n => star_digits n t') else POk (n, t)
  | [] => POk (n, [])
  end.

(** compat/asprintf.c:328-352 dopr -- an asterisk, and 383-408: the number of its argument is found, and it is listed. *)
Definition dp_star (d : dp) (set : Z -> pr_chunk -> pr_chunk) (next : dp_state) : pres dp :=
  pbind (if d_pflag d then
           let t := tail (d_rest d) in
           match t with
           | c :: _ => if isdigit c then
                         pbind (star_digits 0 t) (fun nt => match nt.2 with
                           | "$"%char :: _ => POk (nt.1, d <| d_rest := nt.2 |>)
                           | _ => PFail end)
                       else PFail
           | [] => PFail
           end
         else POk (d_pnum d + 1, d <| d_pnum ::= Z.add 1 |>))
    (fun nd => pbind (add_cnk_list_entry (d_clist nd.2) nd.1 Star)
      (fun l => POk (next_ch (on_cnk (set nd.1) nd.2) <| d_clist := l |> <| d_state := next |>))).

(** compat/asprintf.c:446-496 dopr -- the type that a conversion gives and its flags. *)
Definition conversion (ch : ascii) : option (cnk_type * Z) :=
  if bool_decide (ch ∈ ["d"; "i"]%char) then Some (CNK_INT, 0)
  else if bool_decide (ch = "o"%char) then Some (CNK_OCTAL, DP_F_UNSIGNED)
  else if bool_decide (ch = "u"%char) then Some (CNK_UINT, DP_F_UNSIGNED)
  else if bool_decide (ch = "X"%char) then Some (CNK_HEX, Z.lor DP_F_UP DP_F_UNSIGNED)
  else if bool_decide (ch = "x"%char) then Some (CNK_HEX, DP_F_UNSIGNED)
  else if bool_decide (ch ∈ ["A"; "E"; "G"; "F"]%char) then Some (CNK_FLOAT, DP_F_UP)
  else if bool_decide (ch ∈ ["a"; "e"; "f"; "g"]%char) then Some (CNK_FLOAT, 0)
  else if bool_decide (ch = "c"%char) then Some (CNK_CHAR, 0)
  else if bool_decide (ch = "s"%char) then Some (CNK_STRING, 0)
  else if bool_decide (ch = "p"%char) then Some (CNK_PTR, 0)
  else if bool_decide (ch = "n"%char) then Some (CNK_NUM, 0)
  else if bool_decide (ch = "%"%char) then Some (CNK_PRCNT, 0)
  else None.

(** The flag that a character stands for; [I] is left out. *)
Definition flag_of (ch : ascii) : option Z :=
  if bool_decide (ch = "-"%char) then Some DP_F_MINUS
  else if bool_decide (ch = "+"%char) then Some DP_F_PLUS
  else if bool_decide (ch = " "%char) then Some DP_F_SPACE
  else if bool_decide (ch = "#"%char) then Some DP_F_NUM
  else if bool_decide (ch = "0"%char) then Some DP_F_ZERO
  else if bool_decide (ch = "I"%char) then Some 0
  else None.

Section Parse.
Context (base : text).

(** compat/asprintf.c:308-357 dopr -- the state DP_S_MIN, with [ch] and the current chunk. *)
Definition step_min (ch : ascii) (cnk : pr_chunk) (d : dp) : pres dp :=
  if isdigit ch then pbind (add_digit (c_min cnk) ch) (fun n => POk (next_ch (on_cnk (fun c => c <| c_min := n |>) d)))
  else if Ascii.eqb ch "$" then
    if negb (d_pfirst d) && negb (d_pflag d) then PFail else
    if c_min cnk =? 0 then PFail else
    POk (next_ch (on_cnk (fun c => c <| c_num := c_min cnk |> <| c_min := 0 |>) d) <| d_pflag := d_pfirst d || d_pflag d |> <| d_pfirst := false |>)
  else if Ascii.eqb ch "*" then dp_star (d <| d_pfirst := false |>) (fun n c => c <| c_min_star := Some n |>) DP_S_DOT
  else POk (d <| d_pfirst := false |> <| d_state := DP_S_DOT |>).

(** compat/asprintf.c:366-412 dopr -- the state DP_S_MAX. *)
Definition step_max (ch : ascii) (cnk : pr_chunk) (d : dp) : pres dp :=
  if isdigit ch then
    pbind (add_digit (if c_max cnk <? 0 then 0 else c_max cnk) ch) (fun n => POk (next_ch (on_cnk (fun c => c <| c_max := n |>) d)))
  else if Ascii.eqb ch "$" then
    if negb (d_pfirst d) && negb (d_pflag d) then PFail else
    if c_max cnk <=? 0 then PFail else
    POk (next_ch (on_cnk (fun c => c <| c_num := c_max cnk |> <| c_max := -1 |>) d))
  else if Ascii.eqb ch "*" then dp_star d (fun n c => c <| c_max_star := Some n |>) DP_S_MOD
  else POk (d <| d_state := DP_S_MOD |>).

(** compat/asprintf.c:413-439 dopr -- the state DP_S_MOD: what the length modifier is, and how many characters it has. *)
Definition modifier (rest : text) : dp_cflags * nat :=
  match rest with
  | "h"%char :: "h"%char :: _ => (DP_C_CHAR, 2%nat)
  | "h"%char :: _ => (DP_C_SHORT, 1%nat)
  | "l"%char :: "l"%char :: _ => (DP_C_LLONG, 2%nat)
  | "l"%char :: _ => (DP_C_LONG, 1%nat)
  | "L"%char :: _ => (DP_C_LDOUBLE, 1%nat)
  | _ => (DP_C_NONE, 0%nat)
  end.

(** compat/asprintf.c:440-499 dopr -- the state DP_S_CONV. *)
Definition step_conv (ch : ascii) (cnk : pr_chunk) (d : dp) : pres dp :=
  let '(num, pnum) := if c_num cnk =? 0 then (d_pnum d + 1, d_pnum d + 1) else (c_num cnk, d_pnum d) in
  pbind (add_cnk_list_entry (d_clist d) num (Main (length (d_chunks d) - 1))) (fun l =>
    match conversion ch with
    | None => PFail
    | Some (type, fl) =>
        POk (next_ch (on_cnk (fun c => c <| c_num := num |> <| c_type := type |> <| c_flags ::= Z.lor fl |>) d)
               <| d_pnum := pnum |> <| d_clist := l |> <| d_state := DP_S_DEFAULT |>)
    end).

(** compat/asprintf.c:255-505 dopr -- a turn of the loop; [ch] is the first of the characters that are left. *)
Definition dp_step (ch : ascii) (d : dp) : pres dp :=
  let cnk := default new_chunk (head (d_chunks d)) in
  match d_state d with
  | DP_S_DEFAULT =>
      if Ascii.eqb ch "%" then POk (next_ch d <| d_chunks ::= cons new_chunk |> <| d_state := DP_S_FLAGS |>) else
      let '(s, r) := span (fun c => negb (Ascii.eqb c "%")) (d_rest d) in
      POk (d <| d_chunks ::= cons (new_chunk <| c_start := (length base - length (d_rest d))%nat |> <| c_len := length s |>) |> <| d_rest := r |>)
  | DP_S_FLAGS =>
      match flag_of ch with
      | Some fl => POk (next_ch (on_cnk (fun c => c <| c_flags ::= Z.lor fl |>) d))
      | None => POk (d <| d_state := DP_S_MIN |>)
      end
  | DP_S_MIN => step_min ch cnk d
  | DP_S_DOT => POk (if Ascii.eqb ch "." then next_ch d <| d_state := DP_S_MAX |> else d <| d_state := DP_S_MOD |>)
  | DP_S_MAX => step_max ch cnk d
  | DP_S_MOD =>
      let '(m, n) := modifier (d_rest d) in
      POk (on_cnk (fun c => c <| c_cflags := m |>) d <| d_rest ::= drop n |> <| d_state := DP_S_CONV |>)
  | DP_S_CONV => step_conv ch cnk d
  | DP_S_DONE => POk d
  end.

(** compat/asprintf.c:251-506 dopr -- the loop, which ends with the format; [None] when the fuel is spent. *)
Fixpoint dp_run (fuel : nat) (d : dp) : option (pres dp) :=
  match fuel, d_rest d with
  | _, [] => Some (POk (d <| d_state := DP_S_DONE |>))
  | O, _ => None
  | S fuel, ch :: _ => match dp_step ch d with POk d => dp_run fuel d | PFail => Some PFail | PUndef => Some PUndef end
  end.
End Parse.

Definition dp_start (format : text) : dp := Dp DP_S_DEFAULT format true false 0 [] [].

(** compat/asprintf.c:240-506 dopr -- the chunks in their order, and what refers to the arguments.  A turn takes a character away or goes
    on to a later state. *)
Definition dp_parse (format : text) : option (pres (list pr_chunk * list (list cnk_ref))) :=
  match dp_run format (8 * S (length format)) (dp_start format) with
  | Some (POk d) => Some (POk (reverse (d_chunks d), d_clist d))
  | Some PFail => Some PFail
  | Some PUndef => Some PUndef
  | None => None
  end.

(** ** Arguments *)

(** Arguments as they are passed: int or unsigned int, a long of either kind, a double, a string that may be NULL, another pointer. *)
Inductive arg := AInt (z : Z) | ALong (z : Z) | ADouble (f : spec_float) | AStr (s : option text) | APtr (p : Z).

(** The value of a chunk. *)
Inductive val := VNone | VInt (z : Z) | VFloat (f : spec_float) | VStr (s : text) | VPtr (p : Z).

Section Args.
Context (chunks : list pr_chunk).

Definition ref_type (r : cnk_ref) : cnk_type := match r with Main k => c_type (default new_chunk (chunks !! k)) | Star => CNK_INT end.
Definition ref_cflags (r : cnk_ref) : dp_cflags := match r with Main k => c_cflags (default new_chunk (chunks !! k)) | Star => DP_C_NONE end.

(** compat/asprintf.c:535-626 dopr -- the argument for a chunk; one of another type is undefined.  long long is as long as long. *)
Definition fetch (type : cnk_type) (fl : dp_cflags) (args : list arg) : pres (val * list arg) :=
  let wide := match fl with DP_C_LONG | DP_C_LLONG => true | _ => false end in
  match type, args with
  | CNK_INT, AInt z :: args => if wide then PUndef else POk (VInt (s32 z), args)
  | CNK_INT, ALong z :: args => if wide then POk (VInt (s64 z), args) else PUndef
  | (CNK_OCTAL | CNK_UINT | CNK_HEX), AInt z :: args => if wide then PUndef else POk (VInt (u32 z), args)
  | (CNK_OCTAL | CNK_UINT | CNK_HEX), ALong z :: args => if wide then POk (VInt (s64 z), args) else PUndef
  | CNK_FLOAT, ADouble f :: args => POk (VFloat f, args)
  | CNK_CHAR, AInt z :: args => POk (VInt (s32 z), args)
  | CNK_STRING, AStr s :: args => POk (VStr (default (str "(NULL)") s), args)
  | (CNK_PTR | CNK_NUM), APtr p :: args => POk (VPtr p, args)
  | CNK_PRCNT, args => POk (VNone, args)
  | CNK_FMT_STR, _ => PFail
  | _, _ => PUndef
  end.

(** compat/asprintf.c:508-627 dopr -- the values by their positions. *)
Fixpoint get_args (clist : list (list cnk_ref)) (args : list arg) : pres (list val) :=
  match clist with
  | [] => POk []
  | [] :: clist => match args with AInt _ :: args => pbind (get_args clist args) (fun vs => POk (VNone :: vs)) | _ => PUndef end
  | (r :: rs) :: clist =>
      if negb (forallb (fun r' => bool_decide (ref_type r' = ref_type r)) rs) then PFail else
      pbind (fetch (ref_type r) (ref_cflags r) args) (fun va => pbind (get_args clist va.2) (fun vs => POk (va.1 :: vs)))
  end.
End Args.

(** ** The texts of chunks *)

Definition spaces (n : Z) : text := replicate (Z.to_nat n) " "%char.
Definition zeros (n : Z) : text := replicate (Z.to_nat n) "0"%char.
Definition has_flag (flags f : Z) : bool := negb (Z.land flags f =? 0).

(** compat/asprintf.c:730-762 fmtstr -- what is written, the characters in their order. *)
Definition fmtstr (value : text) (flags min max : Z) : text :=
  let strln := if max <? 0 then 0 else Z.min (Z.of_nat (length value)) max in
  let padlen := Z.max 0 (min - strln) in
  let padlen := if has_flag flags DP_F_MINUS then - padlen else padlen in
  spaces padlen ++ take (Z.to_nat max) value ++ spaces (- padlen).

Definition hex_char (caps : bool) (n : Z) : ascii :=
  nth (Z.to_nat n) (str (if caps then "0123456789ABCDEF" else "0123456789abcdef")) "0"%char.

(** compat/asprintf.c:796-801 fmtint -- the digits, the lowest first; [room] of the array is left. *)
Fixpoint int_digits (caps : bool) (base : Z) (room : nat) (uvalue : Z) : text :=
  match room with
  | O => []
  | S room => hex_char caps (uvalue mod base) :: (if uvalue / base =? 0 then [] else int_digits caps base room (uvalue / base))
  end.

(** compat/asprintf.c:796-803 fmtint -- the array has room for twenty characters, of which the last is for the end. *)
Definition convert (caps : bool) (base uvalue : Z) : text := take 19 (int_digits caps base 20 uvalue).

(** compat/asprintf.c:766-848 fmtint -- what is written. *)
Definition fmtint (value base min max flags : Z) : text :=
  let max := Z.max 0 max in
  let unsigned := has_flag flags DP_F_UNSIGNED in
  let uvalue := if negb unsigned && (value <? 0) then u64 (- value) else u64 value in
  let sign := if unsigned then [] else if value <? 0 then ["-"%char] else if has_flag flags DP_F_PLUS then ["+"%char]
    else if has_flag flags DP_F_SPACE then [" "%char] else [] in
  let digits := convert (has_flag flags DP_F_UP) base uvalue in
  let place := Z.of_nat (length digits) in
  let zpadlen := Z.max 0 (max - place) in
  let spadlen := Z.max 0 (min - Z.max max place - Z.of_nat (length sign)) in
  let '(zpadlen, spadlen) := if has_flag flags DP_F_ZERO then (Z.max zpadlen spadlen, 0) else (zpadlen, spadlen) in
  let spadlen := if has_flag flags DP_F_MINUS then - spadlen else spadlen in
  spaces spadlen ++ sign ++ zeros zpadlen ++ reverse digits ++ spaces (- spadlen).

(** *** Floating point *)

Definition D_add := SFadd 53 1024.
Definition D_sub := SFsub 53 1024.
Definition D_mul := SFmul 53 1024.
Definition D_of_Z (n : Z) : spec_float := binary_normalize 53 1024 n 0 false.

(** The nearest doubles of 0.1, 0.05 and 0.5. *)
Definition D_tenth : spec_float := S754_finite false 0x1999999999999A (-56).
Definition D_twentieth : spec_float := S754_finite false 0x1999999999999A (-57).
Definition D_half : spec_float := S754_finite false 0x10000000000000 (-53).

(** The conversion to long, towards zero; what does not fit gives the smallest number, as the instruction of the processor does. *)
Definition D_to_long (x : spec_float) : Z :=
  match x with
  | S754_zero _ => 0
  | S754_finite s m e =>
      let n := if 0 <=? e then Z.pos m * 2 ^ e else Z.pos m / 2 ^ (- e) in
      let n := if s then - n else n in
      if (- 2 ^ 63 <=? n) && (n <? 2 ^ 63) then n else - 2 ^ 63
  | _ => - 2 ^ 63
  end.

Definition D_nonzero (x : spec_float) : bool := negb (SFeqb x (S754_zero false)).

(** compat/asprintf.c:850-858 abs_val *)
Definition abs_val (value : spec_float) : spec_float := if SFltb value (S754_zero false) then SFopp value else value.

(** compat/asprintf.c:860-870 POW10 -- LDOUBLE is double. *)
Fixpoint POW10 (exp : nat) : spec_float := match exp with O => D_of_Z 1 | S exp => D_mul (POW10 exp) (D_of_Z 10) end.

(** compat/asprintf.c:872-881 ROUND *)
Definition ROUND (value : spec_float) : Z :=
  let intpart := D_to_long value in
  if SFleb D_half (D_sub value (D_of_Z intpart)) then intpart + 1 else intpart.

(** compat/asprintf.c:892-897 my_modf -- the loop: how many turns there were, [l] and [f]; [None]: a hundred turns. *)
Fixpoint modf_loop (turns i : nat) (x f : spec_float) : option (nat * Z * spec_float * spec_float) :=
  match turns with
  | O => None
  | S turns =>
      let l := D_to_long x in
      if SFleb (D_of_Z l) (D_add x (D_of_Z 1)) && SFleb (D_sub x (D_of_Z 1)) (D_of_Z l) then Some (i, l, x, f)
      else modf_loop turns (S i) (D_mul x D_tenth) (D_mul f (D_of_Z 10))
  end.

(** compat/asprintf.c:885-916 my_modf -- the fraction and the integer; [None] when the fuel for the recursion is spent. *)
Fixpoint my_modf (fuel : nat) (x0 : spec_float) : option (spec_float * spec_float) :=
  match fuel with
  | O => None
  | S fuel =>
      match modf_loop 100 0 x0 (D_of_Z 1) with
      | None => Some (S754_zero false, S754_zero false)
      | Some (O, l, x, _) => Some (D_sub x (D_of_Z l), D_of_Z l)
      | Some (_, l, _, f) =>
          let lf := D_mul (D_of_Z l) f in
          '(ret, i2) ← my_modf fuel (D_sub x0 lf); Some (ret, D_add lf i2)
      end
  end.

(** compat/asprintf.c:986-997 fmtfp -- the digits of an integer, the lowest first, and 1002-1012; an index outside the digits is
    memory of another object. *)
Fixpoint fp_digits (room : nat) (x : spec_float) : option text :=
  match room with
  | O => Some []
  | S room =>
      let temp := D_mul x D_tenth in
      '(_, intpart) ← my_modf 100 temp;
      let idx := D_to_long (D_mul (D_add (D_sub temp intpart) D_twentieth) (D_of_Z 10)) in
      if (idx <? 0) || (15 <? idx) then None else
      rest ← (if D_nonzero intpart then fp_digits room intpart else Some []);
      Some (hex_char false idx :: rest)
  end.

(** compat/asprintf.c:919-1069 fmtfp -- what is written; [None]: fuel, or memory of another object. *)
Definition fmtfp (fvalue : spec_float) (min max flags : Z) : option text :=
  let max := if max <? 0 then 6 else max in
  let ufvalue := abs_val fvalue in
  let sign := if SFltb fvalue (S754_zero false) then ["-"%char] else if has_flag flags DP_F_PLUS then ["+"%char]
    else if has_flag flags DP_F_SPACE then [" "%char] else [] in
  let max := Z.min max 9 in
  let pow := POW10 (Z.to_nat max) in
  '(_, intpart) ← my_modf 100 ufvalue;
  let fracpart := D_of_Z (ROUND (D_mul pow (D_sub ufvalue intpart))) in
  let '(intpart, fracpart) := if SFleb pow fracpart then (D_add intpart (D_of_Z 1), D_sub fracpart pow) else (intpart, fracpart) in
  iconvert ← fp_digits 311 intpart;
  let iconvert := take 310 iconvert in
  fconvert ← (if D_nonzero fracpart then fp_digits 311 fracpart else Some []);
  let fconvert := take 310 fconvert in
  let padlen := Z.max 0 (min - Z.of_nat (length iconvert) - max - 1 - Z.of_nat (length sign)) in
  let zpadlen := Z.max 0 (max - Z.of_nat (length fconvert)) in
  let padlen := if has_flag flags DP_F_MINUS then - padlen else padlen in
  let '(front, sign, padlen) := if has_flag flags DP_F_ZERO && (0 <? padlen)
    then (match sign with [] => zeros padlen | _ => sign ++ zeros (padlen - 1) end, [], 0)
    else ([], sign, padlen) in
  Some (front ++ spaces padlen ++ sign ++ reverse iconvert ++
        (if 0 <? max then "."%char :: zeros zpadlen ++ reverse fconvert else []) ++ spaces (- padlen)).

(** ** Printing *)

(** The end of a text. *)
Definition NUL : ascii := "000"%char.

(** The buffer, and [currlen], which counts what does not fit as well. *)
Record ob := Ob { o_buf : text; o_len : nat }.

(** compat/asprintf.c:1071-1077 dopr_outch *)
Definition dopr_outch (maxlen : nat) (b : ob) (c : ascii) : ob :=
  Ob (if (o_len b <? maxlen)%nat then <[o_len b := c]> (o_buf b) else o_buf b) (S (o_len b)).

(** compat/asprintf.c:642-650 dopr -- characters of the format. *)
Definition put_str (maxlen : nat) (s : text) (b : ob) : ob :=
  let currlen := o_len b in
  Ob (if negb (maxlen =? 0)%nat && (currlen <? maxlen)%nat then
        let len := if (currlen + length s <? maxlen)%nat then length s else (maxlen - currlen)%nat in
        take currlen (o_buf b) ++ take len s ++ drop (currlen + len) (o_buf b)
      else o_buf b) (currlen + length s).

Section Print.
Context (base : text) (vals : list val).

Definition value_at (num : Z) : val := default VNone (vals !! Z.to_nat (num - 1)).
Definition int_at (num : Z) : Z := match value_at num with VInt z => s32 z | _ => 0 end.

(** compat/asprintf.c:634-704 dopr -- what a chunk is printed as. *)
Definition chunk_text (cnk : pr_chunk) : pres text :=
  let min := match c_min_star cnk with Some n => int_at n | None => c_min cnk end in
  let max := match c_max_star cnk with Some n => int_at n | None => c_max cnk end in
  match c_type cnk, value_at (c_num cnk) with
  | CNK_FMT_STR, _ => POk (take (c_len cnk) (drop (c_start cnk) base))
  | (CNK_INT | CNK_UINT), VInt v => POk (fmtint v 10 min max (c_flags cnk))
  | CNK_OCTAL, VInt v => POk (fmtint v 8 min max (c_flags cnk))
  | CNK_HEX, VInt v => POk (fmtint v 16 min max (c_flags cnk))
  | CNK_FLOAT, VFloat f => match fmtfp f min max (c_flags cnk) with Some t => POk t | None => PUndef end
  | CNK_CHAR, VInt v => POk [ascii_of_N (Z.to_N (v mod 256))]
  | CNK_STRING, VStr s => POk (fmtstr s (c_flags cnk) min (if max =? -1 then Z.of_nat (length s) else max))
  | CNK_PTR, VPtr p => POk (fmtint p 16 min max (c_flags cnk))
  | CNK_NUM, VPtr _ => POk []
  | CNK_PRCNT, _ => POk ["%"%char]
  | _, _ => PFail
  end.

(** compat/asprintf.c:684-695 dopr -- what [%n] stores: where, and the number as it is stored. *)
Definition stored (cnk : pr_chunk) (currlen : nat) : list (Z * Z) :=
  match c_type cnk, value_at (c_num cnk) with
  | CNK_NUM, VPtr p =>
      let n := Z.of_nat currlen in
      [(p, match c_cflags cnk with
           | DP_C_CHAR => (n + 2 ^ 7) mod 2 ^ 8 - 2 ^ 7 | DP_C_SHORT => (n + 2 ^ 15) mod 2 ^ 16 - 2 ^ 15
           | DP_C_LONG | DP_C_LLONG => s64 n | _ => s32 n end)]
  | _, _ => []
  end.

(** compat/asprintf.c:628-706 dopr -- the loop over the chunks. *)
Fixpoint print_chunks (maxlen : nat) (chunks : list pr_chunk) (b : ob) : pres (ob * list (Z * Z)) :=
  match chunks with
  | [] => POk (b, [])
  | cnk :: chunks =>
      pbind (chunk_text cnk) (fun t =>
        let w := stored cnk (o_len b) in
        let b := match c_type cnk with CNK_FMT_STR => put_str maxlen t b | _ => foldl (dopr_outch maxlen) b t end in
        pbind (print_chunks maxlen chunks b) (fun bw => POk (bw.1, w ++ bw.2)))
  end.
End Print.

(** What a call returns, what it leaves in the buffer, and what [%n] has stored. *)
Record printed := Printed { pr_ret : nat; pr_buf : text; pr_stored : list (Z * Z) }.

(** compat/asprintf.c:223-728 dopr -- [PFail] is -1, and leaves the buffer; [None] when the fuel of the parser is spent. *)
Definition dopr (buffer : text) (maxlen : nat) (format : text) (args : list arg) : option (pres printed) :=
  match dp_parse format with
  | Some (POk (chunks, clist)) =>
      Some (pbind (get_args chunks clist args) (fun vals =>
        pbind (print_chunks format vals maxlen chunks (Ob buffer 0)) (fun bw =>
          let currlen := o_len bw.1 in let buf := o_buf bw.1 in
          POk (Printed currlen
                 (if (maxlen =? 0)%nat then buf
                  else if (currlen <? maxlen - 1)%nat then <[currlen := NUL]> buf else <[(maxlen - 1)%nat := NUL]> buf) bw.2))))
  | Some PFail => Some PFail
  | Some PUndef => Some PUndef
  | None => None
  end.

(** compat/asprintf.c:1158-1161 smb_vsnprintf -- the result as an int. *)
Definition vsnprintf (buffer : text) (maxlen : nat) (format : text) (args : list arg) : option (pres (Z * text)) :=
  match dopr buffer maxlen format args with
  | Some (POk p) => Some (POk (s32 (Z.of_nat (pr_ret p)), pr_buf p))
  | Some PFail => Some (POk (-1, buffer))
  | Some PUndef => Some PUndef
  | None => None
  end.

(** compat/asprintf.c:1188-1206 vasprintf -- the result, and the memory where there is any; [mem] is what malloc gives, which is cut to the
    length that is asked for. *)
Definition vasprintf (mem : text) (format : text) (args : list arg) : option (pres (Z * option text)) :=
  match vsnprintf [] 0 format args with
  | Some (POk (ret, _)) =>
      if ret <=? 0 then Some (POk (ret, None)) else
      match vsnprintf (take (Z.to_nat (ret + 1)) mem) (Z.to_nat (ret + 1)) format args with
      | Some (POk (ret, buf)) => Some (POk (ret, Some buf))
      | Some PFail => Some PFail | Some PUndef => Some PUndef | None => None
      end
  | Some PFail => Some PFail
  | Some PUndef => Some PUndef
  | None => None
  end.

(** compat/asprintf.c:1211-1222 asprintf -- [None] is the NULL that the pointer was set to. *)
Definition asprintf (mem : text) (format : text) (args : list arg) : option (pres (Z * option text)) := vasprintf mem format args.

(** ** The buffer *)

(** The text of a whole format. *)
Fixpoint texts (base : text) (vals : list val) (chunks : list pr_chunk) : pres text :=
  match chunks with
  | [] => POk []
  | cnk :: chunks => pbind (chunk_text base vals cnk) (fun t => pbind (texts base vals chunks) (fun u => POk (t ++ u)))
  end.
Definition format_text (format : text) (args : list arg) : option (pres text) :=
  match dp_parse format with
  | Some (POk (chunks, clist)) => Some (pbind (get_args chunks clist args) (fun vals => texts format vals chunks))
  | Some PFail => Some PFail
  | Some PUndef => Some PUndef
  | None => None
  end.

(** A buffer into which [out] was printed, as far as it goes. *)
Definition holds (maxlen : nat) (buf0 out : text) (b : ob) : Prop :=
  o_len b = length out /\ o_buf b = take maxlen out ++ drop (Nat.min maxlen (length out)) buf0.

Section Buffer.
Context (maxlen : nat) (buf0 : text) (room : (maxlen <= length buf0)%nat).

Lemma holds_outch out b c : holds maxlen buf0 out b -> holds maxlen buf0 (out ++ [c]) (dopr_outch maxlen b c).
Proof.
  intros [L B]. unfold dopr_outch. split; cbn [o_len o_buf]; [rewrite length_app; cbn; lia|]. rewrite L.
  destruct (Nat.ltb_spec (length out) maxlen) as [H|H].
  - rewrite B, (firstn_all2 out), (firstn_all2 (out ++ [c])) by (rewrite ?length_app; cbn; lia).
    rewrite !Nat.min_r by (rewrite ?length_app; cbn; lia). rewrite length_app. cbn [length].
    destruct (drop (length out) buf0) as [|x r] eqn:E; [apply (f_equal length) in E; rewrite length_drop in E; cbn in E; lia|].
    rewrite insert_app_r_alt, Nat.sub_diag by lia. cbn [insert list_insert]. rewrite <- app_assoc. cbn [app]. f_equal. f_equal.
    by rewrite <- drop_drop, E.
  - rewrite B, take_app_le, !Nat.min_l by (rewrite ?length_app; cbn; lia). done.
Qed.

Lemma holds_emit t : forall out b, holds maxlen buf0 out b -> holds maxlen buf0 (out ++ t) (foldl (dopr_outch maxlen) b t).
Proof.
  induction t as [|c t IH]; intros out b H; [by rewrite app_nil_r|]. cbn [foldl]. rewrite cons_middle, app_assoc. by apply IH, holds_outch.
Qed.

Lemma holds_put s out b : holds maxlen buf0 out b -> holds maxlen buf0 (out ++ s) (put_str maxlen s b).
Proof.
  intros [L B]. unfold put_str. split; cbn [o_len o_buf]; [rewrite length_app; lia|]. rewrite L.
  destruct (Nat.eqb_spec maxlen 0) as [->|N]; cbn [negb andb]; [by rewrite B|]. destruct (Nat.ltb_spec (length out) maxlen) as [H|H].
  - rewrite B, (firstn_all2 out), Nat.min_r by lia. rewrite take_app_length, drop_app_ge, drop_drop by lia. rewrite take_app_ge, <- app_assoc by lia.
    f_equal. rewrite length_app. destruct (Nat.ltb_spec (length out + length s) maxlen).
    + rewrite !firstn_all2, Nat.min_r by lia. f_equal. f_equal. lia.
    + rewrite Nat.min_l by lia. f_equal. f_equal. lia.
  - rewrite B, take_app_le, length_app, !Nat.min_l by lia. done.
Qed.
End Buffer.

Lemma print_chunks_text base vals maxlen buf0 : (maxlen <= length buf0)%nat -> forall chunks out b, holds maxlen buf0 out b ->
  match texts base vals chunks with
  | POk u => exists b' w, print_chunks base vals maxlen chunks b = POk (b', w) /\ holds maxlen buf0 (out ++ u) b'
  | PFail => print_chunks base vals maxlen chunks b = PFail
  | PUndef => print_chunks base vals maxlen chunks b = PUndef
  end.
Proof.
  intros R. induction chunks as [|cnk chunks IH]; intros out b H; [cbn; rewrite app_nil_r; by eexists _, _|].
  cbn [texts print_chunks]. destruct (chunk_text base vals cnk) as [t| |]; cbn [pbind]; [|done..].
  assert (holds maxlen buf0 (out ++ t) (match c_type cnk with CNK_FMT_STR => put_str maxlen t b | _ => foldl (dopr_outch maxlen) b t end)) as H'
    by (destruct (c_type cnk); (by apply holds_put) || by apply holds_emit).
  specialize (IH _ _ H'). destruct (texts base vals chunks) as [u| |]; cbn [pbind]; [|by rewrite IH..].
  destruct IH as (b' & w & E & Hb). rewrite E. cbn. rewrite app_assoc. by eexists _, _.
Qed.

Lemma print_stored base vals maxlen1 maxlen2 : forall chunks b1 b2, o_len b1 = o_len b2 ->
  match print_chunks base vals maxlen1 chunks b1, print_chunks base vals maxlen2 chunks b2 with
  | POk bw1, POk bw2 => bw1.2 = bw2.2 | PFail, PFail | PUndef, PUndef => True | _, _ => False end.
Proof.
  assert (forall maxlen t b, o_len (foldl (dopr_outch maxlen) b t) = (o_len b + length t)%nat) as F.
  { intros maxlen t. induction t as [|c t IH]; intros b; cbn; [lia|]. rewrite IH. cbn. lia. }
  induction chunks as [|cnk chunks IH]; intros b1 b2 E; [done|]. cbn [print_chunks]. destruct (chunk_text base vals cnk) as [t| |]; cbn [pbind]; [|done..].
  match goal with |- context [pbind (print_chunks _ _ maxlen1 _ ?x) _] => match goal with |- context [pbind (print_chunks _ _ maxlen2 _ ?y) _] =>
    specialize (IH x y ltac:(destruct (c_type cnk); rewrite ?F; cbn; lia)) end end.
  destruct (print_chunks _ _ maxlen1 _ _) as [[]| |], (print_chunks _ _ maxlen2 _ _) as [[]| |]; cbn in *; try done. by rewrite E, IH.
Qed.

(** What is left in a buffer with room for [maxlen] characters: the text as far as there is room for it and for its end. *)
Definition in_buffer (maxlen : nat) (out buffer : text) : text :=
  if (maxlen =? 0)%nat then buffer else take (maxlen - 1) out ++ NUL :: drop (S (Nat.min (maxlen - 1) (length out))) buffer.

Lemma holds_end maxlen buffer out b : (maxlen <= length buffer)%nat -> holds maxlen buffer out b ->
  (if (maxlen =? 0)%nat then o_buf b else if (o_len b <? maxlen - 1)%nat then <[o_len b := NUL]> (o_buf b) else <[(maxlen - 1)%nat := NUL]> (o_buf b))
    = in_buffer maxlen out buffer.
Proof.
  intros R [L B]. unfold in_buffer. rewrite L, B. destruct (Nat.eqb_spec maxlen 0) as [->|N]; [done|].
  assert (forall n (t : text), length t = n -> (n < length buffer)%nat -> <[n := NUL]> (t ++ drop n buffer) = t ++ NUL :: drop (S n) buffer) as I.
  { intros n t Ht Hn. destruct (drop n buffer) as [|x r] eqn:E; [apply (f_equal length) in E; rewrite length_drop in E; cbn in E; lia|].
    rewrite insert_app_r_alt, Ht, Nat.sub_diag by lia. cbn [insert list_insert]. do 2 f_equal.
    replace (S n) with (n + 1)%nat by lia. by rewrite <- drop_drop, E. }
  destruct (Nat.ltb_spec (length out) (maxlen - 1)).
  - rewrite !firstn_all2, !Nat.min_r by lia. by apply I; [|lia].
  - rewrite (Nat.min_l (maxlen - 1)) by lia. replace (S (maxlen - 1)) with maxlen by lia.
    destruct (decide (length out = maxlen - 1)%nat) as [E|E].
    + rewrite !firstn_all2, Nat.min_r by lia. rewrite <- E. replace (drop maxlen buffer) with (drop (S (length out)) buffer) by (f_equal; lia). apply I; [done|lia].
    + rewrite Nat.min_l by lia. replace (take maxlen out) with (take (maxlen - 1) out ++ take 1 (drop (maxlen - 1) out)).
      * destruct (drop (maxlen - 1) out) as [|x r] eqn:D; [apply (f_equal length) in D; rewrite length_drop in D; cbn in D; lia|].
        rewrite <- app_assoc, insert_app_r_alt by (rewrite length_take; lia). rewrite length_take, Nat.min_l, Nat.sub_diag by lia. done.
      * rewrite take_take_drop. f_equal. lia.
Qed.

(** Printing never writes behind the room that it is given, ends the text in it, and counts all of it: whatever the format and its
    arguments, the result is the length of the whole text; a buffer with room for [maxlen] characters holds the first [maxlen - 1] of them
    and the end, and keeps everything behind; without room it is not touched.  The call fails, or is undefined, by the format and the
    arguments alone, and what is stored by [%n] does not depend on the buffer either. *)
Theorem vsnprintf_contract buffer maxlen format args : (maxlen <= length buffer)%nat ->
  match format_text format args with
  | Some (POk out) => exists w, dopr buffer maxlen format args = Some (POk (Printed (length out) (in_buffer maxlen out buffer) w)) /\
      forall buffer' maxlen', (maxlen' <= length buffer')%nat ->
        dopr buffer' maxlen' format args = Some (POk (Printed (length out) (in_buffer maxlen' out buffer') w))
  | Some PFail => dopr buffer maxlen format args = Some PFail
  | Some PUndef => dopr buffer maxlen format args = Some PUndef
  | None => dopr buffer maxlen format args = None
  end.
Proof.
  intros R. unfold format_text, dopr. destruct (dp_parse format) as [[[chunks clist]| |]|]; [|done..].
  destruct (get_args chunks clist args) as [vals| |]; cbn [pbind]; [|done..].
  assert (forall bf m, holds m bf [] (Ob bf 0)) as H0 by (intros bf m; split; [done|by rewrite take_nil, Nat.min_0_r]).
  pose proof (print_chunks_text format vals maxlen buffer R chunks [] _ (H0 _ _)) as P. cbn [app] in P.
  destruct (texts format vals chunks) as [out| |] eqn:T; [|by rewrite P..]. destruct P as (b & w & E & Hb). exists w. split.
  - rewrite E. cbn [pbind fst snd]. rewrite (holds_end _ _ _ _ R Hb). by destruct Hb as [-> _].
  - intros buffer' maxlen' R'. pose proof (print_chunks_text format vals maxlen' buffer' R' chunks [] _ (H0 _ _)) as P. rewrite T in P.
    destruct P as (b' & w' & E' & Hb'). rewrite E'. cbn [pbind fst snd app] in *. rewrite (holds_end _ _ _ _ R' Hb').
    pose proof (print_stored format vals maxlen maxlen' chunks (Ob buffer 0) (Ob buffer' 0) eq_refl) as W. rewrite E, E' in W. cbn in W. subst w'.
    by destruct Hb' as [-> _].
Qed.

(** vasprintf: the memory that it gives holds the whole text and its end, and the result is the length; a text without characters gives no
    memory at all. *)
Theorem vasprintf_whole mem format args out : format_text format args = Some (POk out) -> Z.of_nat (length out) < 2 ^ 31 - 1 -> (length out < length mem)%nat ->
  vasprintf mem format args = Some (POk (Z.of_nat (length out), match out with [] => None | _ => Some (out ++ [NUL]) end)).
Proof.
  intros F L M. pose proof (vsnprintf_contract [] 0 format args ltac:(cbn; lia)) as C. rewrite F in C. destruct C as (w & E & C).
  assert (s32 (Z.of_nat (length out)) = Z.of_nat (length out)) as S by (unfold s32; rewrite Z.mod_small by lia; lia).
  unfold vasprintf, vsnprintf. rewrite E. cbn [pr_ret pr_buf]. rewrite S.
  destruct out as [|c out]; [done|]. set (o := c :: out) in *. destruct (Z.leb_spec (Z.of_nat (length o)) 0) as [H|H]; [cbn in H; lia|].
  rewrite C by (rewrite length_take; lia). cbn [pr_ret pr_buf]. rewrite S. do 4 f_equal. unfold in_buffer.
  rewrite (proj2 (Nat.eqb_neq _ _)) by lia. replace (Z.to_nat (Z.of_nat (length o) + 1) - 1)%nat with (length o) by lia.
  rewrite firstn_all, Nat.min_id, drop_ge; [done|]. rewrite length_take. lia.
Qed.

(** ** The parser ends *)

Definition rank (s : dp_state) : nat :=
  match s with
  | DP_S_FLAGS => 6 | DP_S_MIN => 5 | DP_S_DOT => 4 | DP_S_MAX => 3 | DP_S_MOD => 2 | DP_S_CONV => 1 | DP_S_DEFAULT | DP_S_DONE => 0
  end.
Definition measure (d : dp) : nat := 8 * length (d_rest d) + rank (d_state d).

Lemma star_digits_length t : forall n nt, star_digits n t = POk nt -> (length nt.2 <= length t)%nat.
Proof.
  induction t as [|c t IH]; intros n nt; cbn [star_digits]; [intros [= <-]; done|]. destruct (isdigit c); [|intros [= <-]; done].
  unfold pbind. destruct (add_digit n c) as [m| |]; [|done..]. intros H. apply IH in H. cbn. lia.
Qed.

Lemma star_measure d f next d' ch r : d_rest d = ch :: r -> (rank next < rank (d_state d))%nat -> dp_star d f next = POk d' -> (measure d' < measure d)%nat.
Proof.
  intros R K. unfold dp_star, measure. rewrite R. cbn [tail]. destruct (d_pflag d).
  - destruct r as [|c r]; [done|]. destruct (isdigit c); [|done]. destruct (star_digits 0 (c :: r)) as [[n t]| |] eqn:E; [|done..].
    apply star_digits_length in E. cbn [pbind fst snd] in *. destruct t as [|x t]; [done|]. destruct (decide (x = "$"%char)) as [->|N].
    + cbn [pbind fst snd]. destruct (add_cnk_list_entry _ _ _) as [l| |]; cbn [pbind]; [|done..]. intros [= <-]. cbn in *. lia.
    + destruct x as [[] [] [] [] [] [] [] []]; done.
  - cbn [pbind fst snd]. destruct (add_cnk_list_entry _ _ _) as [l| |]; cbn [pbind]; [|done..]. intros [= <-]. cbn. rewrite R. cbn. lia.
Qed.

Lemma modifier_length rest : (snd (modifier rest) <= length rest)%nat.
Proof.
  destruct rest as [|a [|b rest]]; [done|..]; cbn [modifier]; repeat case_match; cbn; lia.
Qed.

Lemma step_measure base d d' ch r : d_rest d = ch :: r -> d_state d <> DP_S_DONE -> dp_step base ch d = POk d' -> (measure d' < measure d)%nat.
Proof.
  intros R N. unfold dp_step. destruct (d_state d) eqn:S; [..|done].
  - destruct (Ascii.eqb_spec ch "%") as [->|C]; [intros [= <-]; unfold measure; cbn; rewrite R, S; cbn; lia|].
    rewrite R. cbn [span]. rewrite (proj2 (Ascii.eqb_neq ch "%")) by done. cbn [negb]. pose proof (span_snd (fun c => negb (Ascii.eqb c "%")) r) as L.
    destruct (span _ r) as [s t]. cbn [snd] in L. intros [= <-]. unfold measure. cbn. rewrite R, S. cbn. lia.
  - destruct (flag_of ch); intros [= <-]; unfold measure; cbn; rewrite R, S; cbn; lia.
  - unfold step_min. destruct (isdigit ch).
    { destruct (add_digit _ ch); cbn [pbind]; [|done..]. intros [= <-]. unfold measure. cbn. rewrite R, S. cbn. lia. }
    destruct (Ascii.eqb ch "$").
    { destruct (_ && _); [done|]. destruct (_ =? 0); [done|]. intros [= <-]. unfold measure. cbn. rewrite R, S. cbn. lia. }
    destruct (Ascii.eqb ch "*"); [|intros [= <-]; unfold measure; cbn; rewrite S; cbn; lia].
    intros H. eapply star_measure in H; [exact H|exact R|]. cbn. rewrite S. cbn. lia.
  - destruct (Ascii.eqb ch "."); intros [= <-]; unfold measure; cbn; rewrite R, ?S; cbn; lia.
  - unfold step_max. destruct (isdigit ch).
    { destruct (add_digit _ ch); cbn [pbind]; [|done..]. intros [= <-]. unfold measure. cbn. rewrite R, S. cbn. lia. }
    destruct (Ascii.eqb ch "$").
    { destruct (_ && _); [done|]. destruct (_ <=? 0); [done|]. intros [= <-]. unfold measure. cbn. rewrite R, S. cbn. lia. }
    destruct (Ascii.eqb ch "*"); [|intros [= <-]; unfold measure; cbn; rewrite S; cbn; lia].
    intros H. eapply star_measure in H; [exact H|exact R|]. rewrite S. cbn. lia.
  - pose proof (modifier_length (d_rest d)) as L. destruct (modifier (d_rest d)) as [m n]. cbn [snd] in L. intros [= <-]. unfold measure. cbn.
    rewrite S, length_drop. cbn. lia.
  - unfold step_conv. destruct (if c_num _ =? 0 then _ else _) as [num pnum]. destruct (add_cnk_list_entry _ _ _); cbn [pbind]; [|done..].
    destruct (conversion ch) as [[type fl]|]; [|done]. intros [= <-]. unfold measure. cbn. rewrite R, S. cbn. lia.
Qed.

Lemma step_goes_on base d d' ch : d_state d <> DP_S_DONE -> dp_step base ch d = POk d' -> d_state d' <> DP_S_DONE.
Proof.
  intros N. unfold dp_step, step_min, step_max, step_conv, dp_star, pbind. intros H.
  repeat match type of H with context [match ?x with _ => _ end] => destruct x eqn:? end; try discriminate H; injection H as <-; cbn in *; congruence.
Qed.

Lemma run_ends base : forall fuel d, d_state d <> DP_S_DONE -> (measure d <= fuel)%nat -> dp_run base fuel d <> None.
Proof.
  induction fuel as [|fuel IH]; intros d N M.
  - cbn. destruct (d_rest d) as [|c r] eqn:R; [done|]. unfold measure in M. rewrite R in M. cbn in M. lia.
  - cbn [dp_run]. destruct (d_rest d) as [|c r] eqn:R; [done|]. destruct (dp_step base c d) as [d'| |] eqn:E; [|done..].
    apply IH; [by eapply step_goes_on|]. pose proof (step_measure _ _ _ _ _ R N E). lia.
Qed.

(** The parser ends for every format. *)
Theorem dp_parse_ends format : dp_parse format <> None.
Proof.
  unfold dp_parse. pose proof (run_ends format (8 * S (length format)) (dp_start format)) as H. 
  destruct (dp_run _ _ _) as [[d| |]|]; try done. intros _. apply H; [done| |done]. unfold measure. cbn [d_rest d_state dp_start rank]. lia.
Qed.

(** ** Numbers *)

Lemma hex_digit_dec caps n : 0 <= n < 10 -> hex_char caps n = digit n.
Proof. intros H. assert (n ∈ [0; 1; 2; 3; 4; 5; 6; 7; 8; 9]) as I by (rewrite !elem_of_cons; lia). repeat (apply elem_of_cons in I as [->|I]); [by destruct caps..|by apply elem_of_nil in I]. Qed.

Lemma int_digits_dec caps : forall room fuel n, 0 <= n < 10 ^ Z.of_nat room -> n < 2 ^ Z.of_nat fuel -> (0 < room)%nat -> (0 < fuel)%nat ->
  reverse (int_digits caps 10 room n) = dec_digits fuel n.
Proof.
  induction room as [|room IH]; intros fuel n H1 H2 R F; [lia|]. destruct fuel as [|fuel]; [lia|]. cbn [int_digits dec_digits].
  pose proof (Z.mod_pos_bound n 10 ltac:(lia)). destruct (Z.ltb_spec n 10) as [L|L].
  - rewrite (Z.div_small n 10), Z.mod_small by lia. cbn [Z.eqb]. by rewrite hex_digit_dec by lia.
  - assert (1 <= n / 10) by (apply Z.div_le_lower_bound; lia). rewrite (proj2 (Z.eqb_neq _ 0)) by lia. rewrite reverse_cons, hex_digit_dec by lia.
    rewrite Nat2Z.inj_succ, Z.pow_succ_r in H1, H2 by lia. f_equal.
    assert (0 < Z.of_nat room) by (destruct room; cbn in *; lia). assert (0 < Z.of_nat fuel) by (destruct fuel; cbn in *; lia).
    apply IH; [split; [lia|apply Z.div_lt_upper_bound; lia]|apply Z.div_lt_upper_bound; lia|lia|lia].
Qed.

Lemma int_digits_length caps : forall k room n, 0 <= n < 10 ^ Z.of_nat k -> (0 < k)%nat -> (length (int_digits caps 10 room n) <= k)%nat.
Proof.
  induction k as [|k IH]; intros room n H K; [lia|]. destruct room as [|room]; [cbn; lia|]. cbn [int_digits length].
  destruct (Z.eqb_spec (n / 10) 0) as [E|E]; [cbn; lia|]. apply le_n_S.
  assert (0 <= n / 10) by (apply Z.div_pos; lia). destruct k as [|k]; [exfalso; apply E, Z.div_small; lia|].
  apply IH; [|lia]. rewrite Nat2Z.inj_succ, Z.pow_succ_r in H by lia. split; [done|]. apply Z.div_lt_upper_bound; lia.
Qed.

Lemma convert_dec caps n : 0 <= n < 10 ^ 19 -> reverse (convert caps 10 n) = dec n.
Proof.
  intros H. unfold convert. rewrite firstn_all2 by (apply (int_digits_length caps 19); [done|lia]).
  unfold dec. rewrite (proj2 (Z.ltb_ge n 0)) by lia. apply int_digits_dec; [|..|lia|lia].
  - change (Z.of_nat 20) with 20. change (10 ^ 20) with (10 * 10 ^ 19). lia.
  - rewrite Nat2Z.inj_succ, Z2Nat.id by apply Z.log2_nonneg. destruct (decide (n = 0)) as [->|]; [done|]. apply Z.log2_spec. lia.
Qed.

(** Decimal numbers without width and precision: all numbers of 64 bits with a sign, and those without one up to twenty digits. *)
Theorem fmtint_dec v : - 2 ^ 63 <= v < 2 ^ 63 -> fmtint v 10 0 (-1) 0 = dec v.
Proof.
  intros H. unfold fmtint. change (Z.max 0 (-1)) with 0. change (has_flag 0 DP_F_UNSIGNED) with false. change (has_flag 0 DP_F_UP) with false.
  change (has_flag 0 DP_F_PLUS) with false. change (has_flag 0 DP_F_SPACE) with false. change (has_flag 0 DP_F_ZERO) with false.
  change (has_flag 0 DP_F_MINUS) with false. cbn [negb andb].
  set (u := if v <? 0 then _ else _). assert (u = Z.abs v) as -> by (unfold u, u64; destruct (Z.ltb_spec v 0); rewrite Z.mod_small by lia; lia).
  pose proof (convert_dec false (Z.abs v) ltac:(lia)) as C.
  assert (forall sign : text, Z.max 0 (0 - Z.max 0 (Z.of_nat (length (convert false 10 (Z.abs v)))) - Z.of_nat (length sign)) = 0) as Z0 by (intros; lia).
  rewrite Z0, (Z.max_l 0 (0 - _)) by lia. cbn [spaces zeros]. unfold spaces, zeros. cbn [Z.to_nat Z.opp replicate app]. rewrite C, app_nil_r.
  unfold dec at 2. destruct (Z.ltb_spec v 0) as [N|N].
  - cbn [app]. f_equal. unfold dec. rewrite (proj2 (Z.ltb_ge _ 0)) by lia. by rewrite Z.abs_neq by lia.
  - unfold dec. rewrite (proj2 (Z.ltb_ge _ 0)) by lia. by rewrite Z.abs_eq by lia.
Qed.

Theorem fmtint_dec_unsigned v : u64 v < 10 ^ 19 -> fmtint v 10 0 (-1) DP_F_UNSIGNED = dec (u64 v).
Proof.
  intros H. unfold fmtint. change (Z.max 0 (-1)) with 0. change (has_flag DP_F_UNSIGNED DP_F_UNSIGNED) with true. change (has_flag DP_F_UNSIGNED DP_F_UP) with false.
  change (has_flag DP_F_UNSIGNED DP_F_ZERO) with false. change (has_flag DP_F_UNSIGNED DP_F_MINUS) with false. cbn [negb andb length].
  pose proof (convert_dec false (u64 v) ltac:(unfold u64 in *; pose proof (Z.mod_pos_bound v (2 ^ 64)); lia)) as C.
  rewrite (Z.max_l 0 (0 - Z.max 0 _ - _)), (Z.max_l 0 (0 - _)) by lia. unfold spaces, zeros. cbn [Z.to_nat Z.opp replicate app]. by rewrite C, app_nil_r.
Qed.

Theorem fmtstr_all s : fmtstr s 0 0 (Z.of_nat (length s)) = s.
Proof.
  unfold fmtstr. change (has_flag 0 DP_F_MINUS) with false. rewrite (proj2 (Z.ltb_ge _ 0)), Z.min_id by lia.
  rewrite (Z.max_l 0 (0 - _)) by lia. unfold spaces. cbn [Z.to_nat Z.opp replicate app]. by rewrite Nat2Z.id, firstn_all, app_nil_r.
Qed.

(** ** Formats without widths *)

(** A conversion and its argument. *)
Inductive dir := DirPct | DirD (z : Z) | DirU (z : Z) | DirLD (z : Z) | DirLU (z : Z) | DirS (s : option text) | DirC (z : Z).

Definition dir_fmt (d : dir) : text :=
  match d with
  | DirPct => str "%" | DirD _ => str "d" | DirU _ => str "u" | DirLD _ => str "ld" | DirLU _ => str "lu" | DirS _ => str "s" | DirC _ => str "c"
  end.
Definition dir_args (d : dir) : list arg :=
  match d with
  | DirPct => [] | DirD z | DirU z | DirC z => [AInt z] | DirLD z | DirLU z => [ALong z] | DirS s => [AStr s]
  end.

(** What the conversions are to print; numbers without a sign have less than twenty digits. *)
Definition dir_text (d : dir) : text :=
  match d with
  | DirPct => str "%" | DirD z => dec (s32 z) | DirU z => dec (u32 z) | DirLD z => dec (s64 z) | DirLU z => dec (u64 z)
  | DirS s => default (str "(NULL)") s | DirC z => [ascii_of_N (Z.to_N (z mod 256))]
  end.
Definition dir_ok (d : dir) : Prop := match d with DirLU z => u64 z < 10 ^ 19 | _ => True end.

Definition dir_chunk (num : nat) (d : dir) : pr_chunk :=
  let c := new_chunk <| c_num := Z.of_nat num |> in
  match d with
  | DirPct => c <| c_type := CNK_PRCNT |> | DirD _ => c <| c_type := CNK_INT |> | DirU _ => c <| c_type := CNK_UINT |> <| c_flags := DP_F_UNSIGNED |>
  | DirLD _ => c <| c_type := CNK_INT |> <| c_cflags := DP_C_LONG |>
  | DirLU _ => c <| c_type := CNK_UINT |> <| c_flags := DP_F_UNSIGNED |> <| c_cflags := DP_C_LONG |>
  | DirS _ => c <| c_type := CNK_STRING |> | DirC _ => c <| c_type := CNK_CHAR |>
  end.
Definition dir_val (d : dir) : val :=
  match d with
  | DirPct => VNone | DirD z | DirC z => VInt (s32 z) | DirU z => VInt (u32 z) | DirLD z | DirLU z => VInt (s64 z)
  | DirS s => VStr (default (str "(NULL)") s)
  end.

(** Conversions with text in front of them and behind the last. *)
Fixpoint simple_fmt (l : list (text * dir)) (t : text) : text :=
  match l with [] => t | (s, d) :: l => s ++ "%"%char :: dir_fmt d ++ simple_fmt l t end.
Definition simple_args (l : list (text * dir)) : list arg := flat_map (fun p => dir_args p.2) l.
Definition simple_text (l : list (text * dir)) (t : text) : text := concat (map (fun p => p.1 ++ dir_text p.2) l) ++ t.

Definition lit_chunk (start : nat) (s : text) : list pr_chunk :=
  match s with [] => [] | _ => [new_chunk <| c_start := start |> <| c_len := length s |>] end.
Fixpoint simple_chunks (start num : nat) (l : list (text * dir)) (t : text) : list pr_chunk :=
  match l with
  | [] => lit_chunk start t
  | (s, d) :: l => lit_chunk start s ++ dir_chunk (S num) d :: simple_chunks (start + length s + 1 + length (dir_fmt d)) (S num) l t
  end.
Fixpoint simple_refs (k : nat) (l : list (text * dir)) : list (list cnk_ref) :=
  match l with [] => [] | (s, d) :: l => let k := (k + length (lit_chunk 0 s))%nat in [Main k] :: simple_refs (S k) l end.

Lemma lit_length i j s : length (lit_chunk i s) = length (lit_chunk j s).
Proof. by destruct s. Qed.

(** *** Parsing them *)

Section Parsing.
Context (base : text).

Definition ends (d : dp) (r : pres dp) : Prop := exists fuel, dp_run base fuel d = Some r.

Lemma ends_step d d' ch rest r : d_rest d = ch :: rest -> dp_step base ch d = POk d' -> ends d' r -> ends d r.
Proof. intros R E [fuel H]. exists (S fuel). cbn [dp_run]. by rewrite R, E. Qed.

Lemma run_same : forall f1 f2 d r1 r2, dp_run base f1 d = Some r1 -> dp_run base f2 d = Some r2 -> r1 = r2.
Proof.
  induction f1 as [|f1 IH]; intros f2 d r1 r2; destruct (d_rest d) as [|c r] eqn:R.
  - destruct f2; cbn; rewrite R; congruence.
  - cbn. by rewrite R.
  - destruct f2; cbn; rewrite R; congruence.
  - destruct f2; [cbn; by rewrite R|]. cbn [dp_run]. rewrite R. destruct (dp_step base c d); [by apply IH|congruence..].
Qed.

Lemma add_next clist r : add_cnk_list_entry clist (Z.of_nat (length clist) + 1) r = POk (clist ++ [[r]]).
Proof.
  unfold add_cnk_list_entry. rewrite (proj2 (Z.ltb_ge _ 1)) by lia. f_equal.
  replace (Z.to_nat (Z.of_nat (length clist) + 1) - length clist)%nat with 1%nat by lia. replace (Z.to_nat (Z.of_nat (length clist) + 1 - 1)) with (length clist) by lia.
  cbn [replicate]. by rewrite alter_app_r_alt, Nat.sub_diag by lia.
Qed.

Lemma ends_conv ch ty fl cflags more acc clist r : conversion ch = Some (ty, fl) ->
  ends (Dp DP_S_DEFAULT more false false (Z.of_nat (length clist) + 1)
         (Chunk ty (Z.of_nat (length clist) + 1) 0 None (-1) None (Z.lor fl 0) cflags 0 0 :: acc) (clist ++ [[Main (length acc)]])) r ->
  ends (Dp DP_S_CONV (ch :: more) false false (Z.of_nat (length clist)) (Chunk CNK_FMT_STR 0 0 None (-1) None 0 cflags 0 0 :: acc) clist) r.
Proof.
  intros C H. eapply ends_step; [reflexivity| |exact H]. unfold dp_step, step_conv. cbn. rewrite add_next. cbn [pbind]. rewrite C. cbn. by rewrite Nat.sub_0_r.
Qed.

(** A conversion, from its percent sign on. *)
Lemma ends_dir d more pf acc clist r :
  ends (Dp DP_S_DEFAULT more false false (Z.of_nat (S (length clist))) (dir_chunk (S (length clist)) d :: acc) (clist ++ [[Main (length acc)]])) r ->
  ends (Dp DP_S_DEFAULT ("%"%char :: dir_fmt d ++ more) pf false (Z.of_nat (length clist)) acc clist) r.
Proof.
  replace (Z.of_nat (S (length clist))) with (Z.of_nat (length clist) + 1) by lia. intros H.
  assert (forall ch t, flag_of ch = None -> isdigit ch = false -> Ascii.eqb ch "$" = false -> Ascii.eqb ch "*" = false -> Ascii.eqb ch "." = false ->
    ends (Dp DP_S_MOD (ch :: t) false false (Z.of_nat (length clist)) (new_chunk :: acc) clist) r ->
    ends (Dp DP_S_DEFAULT ("%"%char :: ch :: t) pf false (Z.of_nat (length clist)) acc clist) r) as M.
  { intros ch t F1 F2 F3 F4 F5 E. eapply ends_step; [reflexivity..|]. eapply ends_step; [reflexivity|unfold dp_step; cbn; by rewrite F1|].
    eapply ends_step; [reflexivity|unfold dp_step, step_min; cbn; by rewrite F2, F3, F4|]. eapply ends_step; [reflexivity|unfold dp_step; cbn; by rewrite F5|]. exact E. }
  destruct d; cbn [dir_fmt str String.list_ascii_of_string app]; (apply M; [reflexivity..|]); (eapply ends_step; [reflexivity|reflexivity|]); cbn;
    (eapply ends_conv; [reflexivity|]); unfold dir_chunk in H; replace (Z.of_nat (S (length clist))) with (Z.of_nat (length clist) + 1) in H by lia; exact H.
Qed.

(** Text up to a percent sign or to the end. *)
Lemma ends_lit s more pf pnum acc clist r : "%"%char ∉ s -> (more = [] \/ head more = Some "%"%char) ->
  ends (Dp DP_S_DEFAULT more pf false pnum (reverse (lit_chunk (length base - length (s ++ more)) s) ++ acc) clist) r ->
  ends (Dp DP_S_DEFAULT (s ++ more) pf false pnum acc clist) r.
Proof.
  intros N M H. destruct s as [|c s]; [exact H|]. eapply ends_step; [reflexivity| |exact H]. unfold dp_step. cbn [d_state d_chunks head default].
  pose proof N as [N1 _]%not_elem_of_cons. rewrite (proj2 (Ascii.eqb_neq c "%")) by done. cbn [d_rest].
  assert (span (fun c => negb (Ascii.eqb c "%")) ((c :: s) ++ more) = (c :: s, more)) as ->; [|done].
  assert (forallb (fun c => negb (Ascii.eqb c "%")) (c :: s) = true) as A.
  { apply forallb_forall. intros x Hx. apply list_elem_of_In in Hx. rewrite (proj2 (Ascii.eqb_neq x _)); [done|]. by intros ->. }
  destruct M as [->|M].
  - rewrite app_nil_r. clear -A. revert A. generalize (c :: s) as l. induction l as [|x l IH]; [done|]. cbn [forallb span].
    intros [E1 E2]%andb_true_iff. by rewrite E1, IH.
  - destruct more as [|x more]; [done|]. cbn in M. injection M as ->. by apply span_all.
Qed.

Lemma ends_simple l t : Forall (fun p => "%"%char ∉ p.1) l -> "%"%char ∉ t -> (length (simple_fmt l t) <= length base)%nat -> forall pf acc clist,
  exists pf', ends (Dp DP_S_DEFAULT (simple_fmt l t) pf false (Z.of_nat (length clist)) acc clist)
    (POk (Dp DP_S_DONE [] pf' false (Z.of_nat (length clist + length l))
           (reverse (simple_chunks (length base - length (simple_fmt l t)) (length clist) l t) ++ acc) (clist ++ simple_refs (length acc) l))).
Proof.
  intros Hl Ht. induction Hl as [|[s d] l Hs Hl IH]; intros B pf acc clist.
  - exists pf. cbn [simple_fmt simple_chunks simple_refs length]. rewrite app_nil_r, Nat.add_0_r. rewrite <- (app_nil_r t) at 1.
    apply ends_lit; [done|by left|]. rewrite app_nil_r. by exists O.
  - cbn [fst] in Hs. cbn [simple_fmt] in *. set (st := (length base - length (s ++ "%"%char :: dir_fmt d ++ simple_fmt l t))%nat).
    assert (length (s ++ "%"%char :: dir_fmt d ++ simple_fmt l t) = length s + 1 + length (dir_fmt d) + length (simple_fmt l t))%nat as L
      by (rewrite length_app; cbn [length]; rewrite length_app; lia).
    set (acc' := reverse (lit_chunk st s) ++ acc).
    destruct (IH ltac:(lia) false (dir_chunk (S (length clist)) d :: acc') (clist ++ [[Main (length acc')]])) as (pf' & E).
    exists pf'. apply ends_lit; [done|by right|]. apply ends_dir. fold st. fold acc'. rewrite length_app in E. cbn [length] in E.
    replace (length clist + 1)%nat with (S (length clist)) in E by lia.
    match type of E with ends _ ?r => match goal with |- ends _ ?r' => assert (r = r') as <-; [|exact E] end end.
    do 2 f_equal; [cbn; lia|..].
    + cbn [simple_chunks]. fold st. rewrite reverse_app, reverse_cons, <- !app_assoc. cbn [app]. unfold acc'.
      replace (length base - length (simple_fmt l t))%nat with (st + length s + 1 + length (dir_fmt d))%nat by lia. done.
    + cbn [simple_refs]. rewrite <- app_assoc. unfold acc'. rewrite length_app, length_reverse, (lit_length st 0), (Nat.add_comm _ (length acc)). done.
Qed.

End Parsing.

Lemma parse_simple l t : Forall (fun p => "%"%char ∉ p.1) l -> "%"%char ∉ t ->
  dp_parse (simple_fmt l t) = Some (POk (simple_chunks 0 0 l t, simple_refs 0 l)).
Proof.
  intros Hl Ht. destruct (ends_simple (simple_fmt l t) l t Hl Ht (le_n _) true [] []) as (pf & fuel & E). rewrite Nat.sub_diag in E.
  pose proof (dp_parse_ends (simple_fmt l t)) as P. unfold dp_parse in *. destruct (dp_run _ (8 * _) _) as [r|] eqn:R; [|done].
  pose proof (run_same _ _ _ _ _ _ E R) as <-. cbn [d_chunks d_clist app length]. by rewrite app_nil_r, reverse_involutive.
Qed.

(** *** Arguments and texts *)

Lemma args_simple l t : forall start num pre chunks, chunks = pre ++ simple_chunks start num l t ->
  get_args chunks (simple_refs (length pre) l) (simple_args l) = POk (map (fun p => dir_val p.2) l).
Proof.
  induction l as [|[s d] l IH]; intros start num pre chunks E; [done|]. cbn [simple_chunks simple_refs simple_args flat_map map fst snd] in *.
  cbn [get_args forallb]. rewrite (lit_length 0 start).
  assert (chunks !! (length pre + length (lit_chunk start s))%nat = Some (dir_chunk (S num) d)) as K.
  { rewrite E, app_assoc, <- length_app. by apply list_lookup_middle. }
  assert (forall rest, fetch (ref_type chunks (Main (length pre + length (lit_chunk start s)))) (ref_cflags chunks (Main (length pre + length (lit_chunk start s))))
    (dir_args d ++ rest) = POk (dir_val d, rest)) as -> by (intros rest; unfold ref_type, ref_cflags; rewrite K; by destruct d).
  cbn [negb pbind fst snd]. fold (simple_args l).
  specialize (IH (start + length s + 1 + length (dir_fmt d))%nat (S num) (pre ++ lit_chunk start s ++ [dir_chunk (S num) d]) chunks).
  rewrite !length_app in IH. cbn [length] in IH. replace (length pre + (length (lit_chunk start s) + 1))%nat with (S (length pre + length (lit_chunk start s))) in IH by lia.
  rewrite IH; [done|]. rewrite E, <- !app_assoc. done.
Qed.

Lemma lit_texts base vals pre s more chunks : base = pre ++ s ++ more ->
  texts base vals (lit_chunk (length pre) s ++ chunks) = pbind (texts base vals chunks) (fun u => POk (s ++ u)).
Proof.
  intros E. destruct s as [|c s]; [cbn; by destruct (texts _ _ _)|]. cbn [lit_chunk app texts]. unfold chunk_text at 1.
  cbn. by rewrite E, drop_app_length, (take_app_length (c :: s)).
Qed.

Lemma dir_chunk_text base vals num d : vals !! num = Some (dir_val d) -> dir_ok d -> chunk_text base vals (dir_chunk (S num) d) = POk (dir_text d).
Proof.
  intros V O. unfold chunk_text. assert (value_at vals (Z.of_nat (S num)) = dir_val d) as W.
  { unfold value_at. replace (Z.to_nat (Z.of_nat (S num) - 1)) with num by lia. by rewrite V. }
  assert (forall z, - 2 ^ 63 <= s32 z < 2 ^ 63) as B1 by (intros z; unfold s32; pose proof (Z.mod_pos_bound (z + 2 ^ 31) (2 ^ 32)); lia).
  assert (forall z, - 2 ^ 63 <= s64 z < 2 ^ 63) as B2 by (intros z; unfold s64; pose proof (Z.mod_pos_bound (z + 2 ^ 63) (2 ^ 64)); lia).
  assert (forall z, u64 (u32 z) = u32 z) as U1 by (intros z; unfold u64, u32; pose proof (Z.mod_pos_bound z (2 ^ 32)); apply Z.mod_small; lia).
  assert (forall z, u64 (s64 z) = u64 z) as U2.
  { intros z. unfold u64, s64. rewrite Zminus_mod, Zmod_mod, <- Zminus_mod. f_equal. lia. }
  destruct d; cbn -[s32 s64 u32 u64 fmtint fmtstr value_at Z.of_nat dec Z.modulo Z.pow] in *; rewrite ?W; try done.
  - by rewrite fmtint_dec.
  - rewrite fmtint_dec_unsigned, U1; [done|]. rewrite U1. unfold u32. pose proof (Z.mod_pos_bound z (2 ^ 32)). lia.
  - by rewrite fmtint_dec.
  - rewrite fmtint_dec_unsigned; by rewrite U2.
  - by rewrite fmtstr_all.
  - do 3 f_equal. f_equal. unfold s32. rewrite Zminus_mod, <- (Znumtheory.Zmod_div_mod 256 (2 ^ 32)) by (done || by exists (2 ^ 24)).
    rewrite <- Zminus_mod. f_equal. lia.
Qed.

Lemma texts_simple l t : Forall (fun p => dir_ok p.2) l -> forall base vals pre before, base = pre ++ simple_fmt l t ->
  vals = before ++ map (fun p => dir_val p.2) l -> texts base vals (simple_chunks (length pre) (length before) l t) = POk (simple_text l t).
Proof.
  intros Hl. induction Hl as [|[s d] l O Hl IH]; intros base vals pre before E V.
  - cbn [simple_chunks simple_fmt] in *. rewrite <- (app_nil_r (lit_chunk _ _)), (lit_texts _ _ pre t []) by by rewrite app_nil_r. cbn. by rewrite app_nil_r.
  - cbn [simple_chunks simple_fmt map fst snd] in *. rewrite (lit_texts _ _ _ _ _ _ E). cbn [texts].
    rewrite dir_chunk_text; [|by rewrite V; apply list_lookup_middle|done]. cbn [pbind].
    specialize (IH base vals (pre ++ s ++ "%"%char :: dir_fmt d) (before ++ [dir_val d])). rewrite !length_app in IH. cbn [length] in IH.
    replace (length pre + (length s + S (length (dir_fmt d))))%nat with (length pre + length s + 1 + length (dir_fmt d))%nat in IH by lia.
    replace (length before + 1)%nat with (S (length before)) in IH by lia. rewrite IH.
    + cbn [pbind]. unfold simple_text. cbn [map concat fst snd]. by rewrite <- !app_assoc.
    + by rewrite E, <- !app_assoc.
    + rewrite V, <- app_assoc. done.
Qed.

(** Formats of text and of the conversions %d, %u, %ld, %lu, %s, %c and %% print the text with the arguments in their places: numbers in
    decimal, strings as they are.  Numbers without a sign of more than nineteen digits are not among them. *)
Theorem simple_formats l t : Forall (fun p => "%"%char ∉ p.1 /\ dir_ok p.2) l -> "%"%char ∉ t ->
  format_text (simple_fmt l t) (simple_args l) = Some (POk (simple_text l t)).
Proof.
  intros [Hl Ho]%Forall_and Ht. unfold format_text. rewrite parse_simple by done.
  pose proof (args_simple l t 0 0 [] _ eq_refl) as A. cbn [length app] in A. rewrite A. cbn [pbind].
  pose proof (texts_simple l t Ho (simple_fmt l t) (map (fun p => dir_val p.2) l) [] [] eq_refl eq_refl) as T. cbn [length] in T. by rewrite T.
Qed.

Lemma print_stores_nothing base vals maxlen chunks : Forall (fun c => c_type c <> CNK_NUM) chunks -> forall b bw,
  print_chunks base vals maxlen chunks b = POk bw -> bw.2 = [].
Proof.
  induction 1 as [|c chunks N H IH]; intros b bw; cbn [print_chunks]; [by intros [= <-]|].
  destruct (chunk_text base vals c) as [t| |]; cbn [pbind]; [|done..].
  match goal with |- pbind (print_chunks _ _ _ _ ?x) _ = _ -> _ => specialize (IH x); destruct (print_chunks base vals maxlen chunks x) as [bw'| |] end; cbn [pbind]; [|done..].
  intros [= <-]. cbn. rewrite (IH bw' eq_refl), app_nil_r. unfold stored. destruct (c_type c); try done.
Qed.

Lemma simple_chunks_types l t : forall start num, Forall (fun c => c_type c <> CNK_NUM) (simple_chunks start num l t).
Proof.
  assert (forall start s, Forall (fun c => c_type c <> CNK_NUM) (lit_chunk start s)) as L by (intros start []; repeat constructor; done).
  induction l as [|[s d] l IH]; intros start num; cbn [simple_chunks]; [done|]. apply Forall_app_2; [done|]. constructor; [by destruct d|done].
Qed.

(** C8.  Printing with formats of text and of the conversions %d, %u, %ld, %lu, %s, %c and %% is right and stays in the buffer: the result
    is the length of the text with every argument in its place, numbers in decimal and strings as they are, whatever room there is; a
    buffer with room for [maxlen] characters holds the first [maxlen - 1] of that text and its end, everything behind the room is as it
    was, and without room nothing is written.  Numbers without a sign of more than nineteen digits are not among the arguments. *)
Theorem snprintf_simple l t buffer maxlen : Forall (fun p => "%"%char ∉ p.1 /\ dir_ok p.2) l -> "%"%char ∉ t -> (maxlen <= length buffer)%nat ->
  dopr buffer maxlen (simple_fmt l t) (simple_args l) =
    Some (POk (Printed (length (simple_text l t))
      (if (maxlen =? 0)%nat then buffer
       else take (maxlen - 1) (simple_text l t) ++ NUL :: drop (S (Nat.min (maxlen - 1) (length (simple_text l t)))) buffer) [])).
Proof.
  intros Hl Ht R. pose proof (vsnprintf_contract buffer maxlen (simple_fmt l t) (simple_args l) R) as C. rewrite simple_formats in C by done.
  destruct C as (w & E & _). rewrite E. enough (w = []) as -> by done. revert E. unfold dopr. apply Forall_and in Hl as [Hl _]. rewrite parse_simple by done.
  destruct (get_args _ _ _) as [vals| |]; cbn [pbind]; [|done..]. destruct (print_chunks _ _ _ _ _) as [bw| |] eqn:P; cbn [pbind]; [|done..].
  intros E. apply (inj Some) in E. assert (forall A (x y : A), POk x = POk y -> x = y) as I by (intros A x y; congruence). apply I in E.
  apply (f_equal pr_stored) in E. cbn [pr_stored] in E. rewrite <- E. eapply print_stores_nothing, P. apply simple_chunks_types.
Qed.

(** ** Concrete runs *)

Definition D_div (n d : Z) : spec_float := SFdiv 53 1024 (D_of_Z n) (D_of_Z d).
Definition printf (format : string) (args : list arg) : option (pres text) := format_text (str format) args.

(** Numbers, widths and precisions, and arguments by position. *)
Example prints :
  printf "%10.5d|%-6s|%.2s|%x|%+d" [AInt (-134); AStr (Some (str "web")); AStr (Some (str "http")); AInt 255; AInt 7]
    = Some (POk (str "    -00134|web   |ht|ff|+7")) /\
  printf "%1.1f %1.5f %+22.9f %.0f" [ADouble (D_div 996 1000); ADouble (D_div 13421 100); ADouble (D_div (-1) 4); ADouble (D_div 1996 1000)]
    = Some (POk (str "1.0 134.21000           -0.250000000 2")) /\
  printf "%4$*1$d %2$s %3$*1$.*1$f" [AInt 3; AStr (Some (str "pos test")); ADouble (D_div 123456 10000); AInt 9]
    = Some (POk (str "  9 pos test 12.346")).
Proof. split_and!; vm_compute; reflexivity. Qed.

(** A format that ends within a conversion prints what was before it; an unknown conversion, and a mixture of arguments with and without
    positions, fail. *)
Example odd_formats :
  printf "half %" [] = Some (POk (str "half ")) /\ printf "%y" [AInt 1] = Some PFail /\ printf "%d %2$d" [AInt 1; AInt 2] = Some PFail.
Proof. split_and!; vm_compute; reflexivity. Qed.

Definition demo_line : list (text * dir) :=
  [(str "[", DirLU 1700000000); (str "] ", DirS (Some (str "web"))); (str ";", DirD (-3)); ([], DirPct)].

Lemma simple_formats_witness :
  simple_fmt demo_line (str " done") = str "[%lu] %s;%d%% done" /\
  format_text (simple_fmt demo_line (str " done")) (simple_args demo_line) = Some (POk (str "[1700000000] web;-3% done")).
Proof.
  split; [reflexivity|]. rewrite (simple_formats demo_line (str " done")); [vm_compute; reflexivity| |apply (bool_decide_unpack _); vm_compute; exact I].
  repeat apply Forall_cons_2; [..|apply Forall_nil_2]; (split; [apply (bool_decide_unpack _); vm_compute; exact I|vm_compute; done]).
Defined.

Lemma snprintf_simple_witness :
  dopr (replicate 30 "?"%char) 20 (str "[%lu] %s;%d%% done") [ALong 1700000000; AStr (Some (str "web")); AInt (-3)]
    = Some (POk (Printed 25 (str "[1700000000] web;-3" ++ NUL :: replicate 10 "?"%char) [])).
Proof.
  transitivity (dopr (replicate 30 "?"%char) 20 (simple_fmt demo_line (str " done")) (simple_args demo_line)); [reflexivity|].
  rewrite (snprintf_simple demo_line (str " done") (replicate 30 "?"%char) 20).
  - vm_compute. reflexivity.
  - repeat apply Forall_cons_2; [..|apply Forall_nil_2]; (split; [apply (bool_decide_unpack _); vm_compute; exact I|vm_compute; done]).
  - apply (bool_decide_unpack _). vm_compute. exact I.
  - cbn. lia.
Defined.

(** Room for eight characters, of which the last is for the end. *)
Lemma vsnprintf_contract_witness : exists w,
  dopr (str "0123456789") 8 (str "web has %d services") [AInt 12] = Some (POk (Printed 19 (str "web has" ++ NUL :: str "89") w)).
Proof.
  pose proof (vsnprintf_contract (str "0123456789") 8 (str "web has %d services") [AInt 12] ltac:(cbn; lia)) as H.
  assert (format_text (str "web has %d services") [AInt 12] = Some (POk (str "web has 12 services"))) as E by (vm_compute; reflexivity).
  rewrite E in H. destruct H as (w & H & _). exists w. exact H.
Defined.

Lemma vasprintf_whole_witness :
  vasprintf (replicate 100 "?"%char) (str "%s/%s") [AStr (Some (str "/var")); AStr (Some (str "log"))] = Some (POk (8, Some (str "/var/log" ++ [NUL]))).
Proof. apply (vasprintf_whole _ _ _ (str "/var/log")); [vm_compute; reflexivity|cbn; lia|cbn; lia]. Defined.

(** ** What the checks leave open *)

(** The array for the digits has room for twenty characters with the end: the first digit of a number of twenty digits, and those of longer
    ones in octal, are lost. *)
Theorem high_digits_lost :
  printf "%lu %lo" [ALong (-1); ALong (-1)] = Some (POk (str "8446744073709551615 7777777777777777777")) /\ dec (u64 (-1)) = str "18446744073709551615".
Proof. split; vm_compute; reflexivity. Qed.

(** The width of a character is not looked at, and short numbers are not cut to their size. *)
Theorem widths_ignored : printf "%5c|%hd" [AInt 65; AInt 70000] = Some (POk (str "A|70000")).
Proof. vm_compute. reflexivity. Qed.

(** Zeros for the width and those for the precision are not added up, and are printed for numbers at the left as well. *)
Theorem zeros_short : printf "%06.2d|%-04d|" [AInt 7; AInt 7] = Some (POk (str "00007|0007|")).
Proof. vm_compute. reflexivity. Qed.

(** A negative precision from an argument is no precision in C99; here nothing is printed. *)
Theorem negative_precision : printf "%.*s" [AInt (-5); AStr (Some (str "web"))] = Some (POk []).
Proof. vm_compute. reflexivity. Qed.

(** Position zero of an asterisk is in front of the list of the arguments. *)
Theorem star_zero : printf "%1$*0$d" [AInt 1] = Some PUndef.
Proof. vm_compute. reflexivity. Qed.

(** A text without characters leaves a NULL pointer, with a result that is no error. *)
Theorem empty_text_null mem : asprintf mem (str "%s") [AStr (Some [])] = Some (POk (0, None)).
Proof. reflexivity. Qed.
